(* ===== verification/_CoqProject ===== *)
-Q . S2P
Prelude.v
JsString.v
JsValue.v
FilterLedger.v
FilterEngine.v
FilterPass.v
VaultStore.v
Signature.v
KeyVault.v
VaultProps.v
Base64.v
Text.v
Json.v
Keygen.v
Srp.v
Split.v
Patterns.v
HtmlText.v
RichText.v
Mime.v
Payload.v
Addresses.v
Reader.v
Recovered.v
Compose.v
ComposeProps.v
ProtectedLink.v
Outbound.v
Http.v
Handlers.v
JsDate.v
Manifest.v
Accounts.v
ComposeWindow.v
Idb.v
MailCache.v
SearchText.v
SearchIndex.v
LocalSearch.v
ServiceWorker.v
Perf.v
WebAuthn.v
Site.v
SignIn.v
Register.v
UnlockDialog.v
FilterEditor.v
Selection.v
FolderLoad.v
MailServer.v
Mailbox.v
SettingsServer.v
Policies.v
PageEffects.v
MessageView.v
Serving.v
DomainServer.v
CustomDomains.v
SiteServer.v
AdminPanel.v
SenderAvatar.v
TwoFactorServer.v
SecondFactor.v
