(* ===== verification/Prelude.v ===== *)
(** * Verification of the ELVish browser client

    ELVish is an end-to-end encrypted mail service: a Go server that stores
    ciphertext, and a browser client, under [static/], that holds the keys.  This
    library models the scripts of the client that carry its own logic and proves
    what makes them correct.  Definitions follow the source line by line and can
    be evaluated; they keep the names of the source, paths below are those of
    the repository.

    ** The parts and how they interact

    - The key vault ([static/auth/unlock.js]) derives a password key with
      [keygen.js], opens the wrapped account key and the identity keys, locks
      itself when idle, and decrypts, signs and checks messages.  Login and
      registration prove the password with SRP ([srp.js]).
    - The mail client ([mail/mail-app.jsx], [mail/compose.jsx]) reads decrypted
      MIME text, and builds, encrypts and posts messages through the API client
      ([mail/mail-manifest.js]).  The recipient of a protected link opens it with
      [protected/open.js].
    - The mail page shows the list of a folder, marks, moves and deletes messages;
      the settings ([mail/mail-settings.jsx]) edit filters, the mail settings and the
      deletion of the account.  Both talk to the Go server through the API client.
    - The inbox filters ([mail/mail-filter-engine.js], [mail-filter-ledger.js])
      apply rules to messages through the API client, once per message.
    - The mail cache ([mail/mail-cache.js]) and the search worker
      ([mail/search/]) keep sealed values in IndexedDB.
    - The service worker ([sw.js]), the performance beacon ([perf.js]), the
      WebAuthn helpers ([auth/webauthn.js]) and [site.js] surround them.

    ** Files, and what they model

    - [Prelude], [JsString], [JsValue], [Json], [JsDate], [Base64], [Text],
      [Split], [Patterns]: exceptions as values, the tactics and hints of the
      library, and the parts of JavaScript the scripts use (strings, values,
      [JSON], dates, base64, UTF-8, the regular expressions of the source).
    - [FilterLedger], [FilterEngine], [FilterPass]: the ledger cell, the rules,
      and the inbox pass as a step relation over outstanding calls.
    - [VaultStore], [Signature], [KeyVault], [VaultProps]: web storage, signature
      summaries, the vault as a state record with one function per method, and
      the theorems about sequences of operations and of time.  [VaultProps] also has
      the operations that wait, cut where they wait, as a step relation in which they
      overlap: the unlock with a password, and what the identities and the lock do
      meanwhile.  OpenPGP and the key derivation are classes ([OpenPGP],
      [KeyDerivation]); [Keygen] implements the second over WebCrypto, itself a class.
    - [Keygen], [Srp]: key wrapping and bootstrap; both halves of SRP-6a, the
      server's ([internal/pake/srp.go]) as the specification.
    - [HtmlText], [Mime], [Payload], [Addresses], [Reader], [Recovered]: from
      ciphertext to the message that is shown; [RichText], [Compose], [ComposeProps],
      [ProtectedLink], [Outbound]: the way out, from the HTML of the editor on, and the
      round trips between both.
    - [MessageView] ([MessageDetail]): the open message, its decryption and the check of its
      signature, split where they wait, as a step relation over what is outstanding.
    - [ComposeWindow]: the compose window; the lookups of keys are a step relation in the
      same way, sending is a program over requests. Its class [Vault] states what it needs of
      the key vault.
    - [Http], [Manifest], [Accounts]: requests as a free monad, every endpoint of
      the API client, the change of the password and generated identities, next to
      the rules of the server ([internal/httpserver/api_identities.go]).
    - [Idb], [MailCache], [SearchText], [SearchIndex], [LocalSearch]: IndexedDB and
      sealed values in a monad over a script and the database, the cache, the
      tokenizer, the worker, and its client composed with it through the class
      [Backend] (state of both, two queues, timers).
    - [ServiceWorker], [Perf], [WebAuthn], [Site]: routing and caching of requests,
      batching of timings, credential options, the behaviour of the public pages.
    - [SignIn]: the sign-in page ([static/auth/auth-login.jsx]), its handlers as
      programs over requests that use [Srp] and [KeyVault], with the second factor.
      [Register] ([auth/auth-register.jsx]) and [UnlockDialog] ([mail/unlock-modal.jsx]
      with the guard that polls the vault): the other two ways to an open vault.
    - [Handlers]: [try], [catch] and [finally] over requests and over what is shown, with
      Hoare triples for all answers and equations for one server.
    - [Selection], [FolderLoad], [Mailbox], [PageEffects]: the mail page
      ([mail/mail-app.jsx]): the list and its selection, loading a folder while other
      loads and recoveries are outstanding, the actions on messages, and what happens
      when the list changes.  [Mailbox] is proved against [MailServer], the requests of
      [internal/httpserver/api_mail.go] and [internal/mailops/service.go].
    - [SenderAvatar] ([mail/mail-sender-avatar.jsx]): the avatars of the list, whose icons are
      cached and whose requests are shared.
    - [FilterEditor], [Policies]: the rule editor, next to the evaluation at delivery
      ([internal/mailpipe/ingest_filters.go]); the mail settings, the setup and the
      deletion of the account, proved against [SettingsServer], the requests of
      [api_mail.go] and [account_delete.go] over their stores.
    - [CustomDomains]: the page of the user's own domains, its names, DNS records and
      handlers, proved against [DomainServer], the requests of
      [internal/httpserver/api_custom_domains.go].
    - [SecondFactor]: the security page, its authenticator apps, security keys and recovery
      codes, and the change of the password, proved against [TwoFactorServer], the requests of
      [internal/httpserver/api_auth_2fa.go] and [mfa.go].
    - [AdminPanel]: the console ([console/app-admin.jsx], [admin-state.jsx]): the state it
      edits, merged with the state it is built with, and how it is loaded and saved, proved
      against [SiteServer], the merge of [internal/httpserver/admin_home_merge.go] and the
      payload of [internal/adminbootstrap].  [Serving] holds what these three servers share.

    ** What the theorems show

    - Invariants over all sequences of operations: of the vault (whose operations overlap
      there; what a lock or a second unlock in the middle of an unlock does is stated
      apart, [VaultProps.lock_races_unlock]), the ledger, the
      concurrency of the inbox pass, the requests of the search client, the caches
      of the service worker, the queue of the beacon, the selection of the list.
    - Refinement of the server: a form of the settings and a list of domains that show what
      the server keeps go on showing it after every action whose reload is answered, whatever
      became of the request; a choice of the setup is kept or asked for again; the mail page
      and the server agree on what was deleted; a verification shows what the DNS said; the
      second factors on the page are those of the server or there is a message.
    - Ordering: the answer of an older load of a folder, or of an older run of the filters,
      changes nothing; one request marks a message as read at a time; the key that is shown in
      the compose window is one that was found or entered for its recipient, and messages
      are encrypted with it; an open message shows its own body when no other was being
      decrypted, and settles after three answers.
    - Trust: a signer is called trusted only after a check of the vault that says verified and
      with the fingerprint of an identity of the user or of a trusted contact, and trusting a
      key has that effect; a sender is marked as verified only on the word of the server.
    - Agreement of two parties: SRP proofs of browser and server, composer and
      reader, sender and recipient of a protected link (with what it says of the views left),
      the lines of the editor and the text that is sent, generated identities and
      the rules of the server, the names of domains the form and the server accept, the
      filters of the browser and those at delivery.
    - Round trips: base64, MIME bodies, wrapped keys, cached headers, the sections of the site
      that the console saves; a recovery code that was shown is taken, and once.
    - Errors and termination: failures of requests are reported, a pass settles, a
      request of the search client is answered or times out, the service worker
      always answers, emptying the trash ends, a sign-in settles, and the page of an
      account is left only when the server has deleted it.
    - Defects: where the code does not do what it means to, a theorem states what it
      does ([SearchIndex.nothing_is_ever_indexed], [ComposeProps.bcc_reaches_recipient],
      [Mailbox.retried_trash_deletes_for_good], [Policies.Privacy.failed_load_overwrites],
      [ComposeWindow.quick_send_keeps_old_key], [RichText.break_before_bold_is_lost],
      [MessageView.another_body_is_shown], [CustomDomains.unloaded_list_says_ready],
      [AdminPanel.missing_sections_are_written], [SecondFactor.added_factor_is_refused],
      [SecondFactor.removed_app_takes_codes] and others).

    ** Bounds

    Strings hold code units below 256, so [toLowerCase], [trim] and UTF-8 are exact on
    them; JavaScript numbers are integers where the source counts and binary64
    ([SpecFloat]) where it divides.  Fuel is used in few places, and a lemma shows it
    is enough where the code terminates: [Json.parse] (the length of the text and one),
    [Srp.modPow] (the bits of the exponent), MIME entities (nesting of at most eight,
    as in the source), the rounds that empty the trash (one per hundred messages).  The mutual recursion of [VaultStore] has no base case in the
    source; the stack left is a parameter.

    ** Not modelled

    React components and markup (the other pages under [static/admin] and [static/console],
    [static/shared], the other sections of [mail/mail-settings.jsx] and the views of
    [mail/mail-app.jsx]), the tool bar of the editor ([document.execCommand]), bundles under [static/dist] and third-party
    packages, the Go server apart from the specifications named above (SRP, addresses,
    filters at delivery, messages, settings, domains, second factors, the home page), and the mobile applications.  OpenPGP.js, WebCrypto, Argon2, [DOMParser], [Intl.Segmenter]
    and the network are parameters; what a theorem needs of them is a named
    hypothesis, and a toy instance shows the hypotheses can hold.  A handler of the
    search worker, of the service worker and of a settings page runs to its end before
    the next one; loads, recoveries, passes and searches may overlap. *)
From Stdlib Require Import ZArith Lia Ascii.
From stdpp Require Export base tactics decidable option list gmap strings.

(** ** Notations *)

Declare Scope js_scope.
Delimit Scope js_scope with js.

(** [===] on strings, as a boolean. *)
Notation "a =s? b" := (String.eqb a b) (at level 70, no associativity) : js_scope.
#[global] Open Scope js_scope.

(** [s +:+ t] reduces on a constructor. *)
#[global] Arguments String.append !s1 s2 / : simpl nomatch.
#[global] Arguments String.eqb : simpl never.
#[global] Arguments String.prefix : simpl never.

(** ** Exceptions

    A call that may throw returns [Ok v] or [Throw m], [m] being the message
    of the thrown [Error] (the engine's own [TypeError]s carry a fixed text). *)

Inductive res (A : Type) : Type :=
| Ok (a : A)
| Throw (msg : string).
Arguments Ok {A} a.
Arguments Throw {A} msg.

Definition res_bind {A B} (m : res A) (k : A -> res B) : res B :=
  match m with Ok a => k a | Throw e => Throw e end.

(** [try { m } catch (_) { h }] *)
Definition res_catch {A} (m : res A) (h : string -> res A) : res A :=
  match m with Ok a => Ok a | Throw e => h e end.

Definition res_of_option {A} (e : string) (o : option A) : res A :=
  match o with Some a => Ok a | None => Throw e end.

Definition is_ok {A} (m : res A) : bool :=
  match m with Ok _ => true | Throw _ => false end.

Notation "x <~ m ;; k" := (res_bind m (fun x => k))
  (at level 100, m at next level, right associativity) : js_scope.

#[global] Instance res_eq_dec `{EqDecision A} : EqDecision (res A).
Proof. solve_decision. Defined.

(** Sequencing over a list, stopping at the first exception. *)
Fixpoint res_mapM {A B} (f : A -> res B) (l : list A) : res (list B) :=
  match l with
  | [] => Ok []
  | x :: l => y <~ f x ;; ys <~ res_mapM f l ;; Ok (y :: ys)
  end.

(** ** Hint databases and tactics *)

Create HintDb js.
Create Rewrite HintDb js_rew.

#[export] Hint Rewrite String.eqb_refl : js_rew.

(** Turn boolean tests in the context into propositions. *)
Ltac bool_to_prop :=
  repeat match goal with
  | H : (_ =s? _)%js = true |- _ => apply String.eqb_eq in H
  | H : (_ =s? _)%js = false |- _ => apply String.eqb_neq in H
  | H : (_ && _)%bool = true |- _ => apply andb_true_iff in H; destruct H
  | H : (_ || _)%bool = false |- _ => apply orb_false_iff in H; destruct H
  | H : negb _ = true |- _ => apply negb_true_iff in H
  | H : negb _ = false |- _ => apply negb_false_iff in H
  | H : bool_decide _ = true |- _ => apply bool_decide_eq_true in H
  | H : bool_decide _ = false |- _ => apply bool_decide_eq_false in H
  | H : (_ <=? _)%Z = true |- _ => apply Z.leb_le in H
  | H : (_ <=? _)%Z = false |- _ => apply Z.leb_gt in H
  | H : (_ <? _)%Z = true |- _ => apply Z.ltb_lt in H
  | H : (_ <? _)%Z = false |- _ => apply Z.ltb_ge in H
  | H : (_ =? _)%Z = true |- _ => apply Z.eqb_eq in H
  | H : (_ =? _)%Z = false |- _ => apply Z.eqb_neq in H
  | H : (_ <=? _) = true |- _ => apply Nat.leb_le in H
  | H : (_ <=? _) = false |- _ => apply Nat.leb_gt in H
  | H : (_ <? _) = true |- _ => apply Nat.ltb_lt in H
  | H : (_ <? _) = false |- _ => apply Nat.ltb_ge in H
  | H : (_ =? _) = true |- _ => apply Nat.eqb_eq in H
  | H : (_ =? _) = false |- _ => apply Nat.eqb_neq in H
  end.

(** Case analysis on the first [match] or [if] of the goal. *)
Ltac js_case :=
  match goal with
  | |- context [match ?x with _ => _ end] =>
      lazymatch x with
      | context [match _ with _ => _ end] => fail
      | _ => destruct x eqn:?
      end
  end.
Ltac js_cases := repeat (js_case; simplify_eq/=; try done).

(** The same on a hypothesis. *)
Ltac js_case_in H :=
  match type of H with
  | context [match ?x with _ => _ end] =>
      lazymatch x with
      | context [match _ with _ => _ end] => fail
      | _ => destruct x eqn:?
      end
  end.
Ltac js_cases_in H := repeat (js_case_in H; simplify_eq/=; try done).

(** Close a goal by the library's rewriting and resolution hints. *)
Ltac js_auto := autorewrite with js_rew; eauto with js; try done; try lia.

(** ** Generic lemmas *)

Lemma res_bind_ok {A B} (m : res A) (k : A -> res B) b :
  res_bind m k = Ok b <-> exists a, m = Ok a /\ k a = Ok b.
Proof. destruct m; simpl; split; [eauto | by intros (? & [= ->] & ?) | done | by intros (? & ? & ?)]. Qed.

Lemma res_mapM_ok_map {A B} (f : A -> res B) (g : A -> B) l :
  (forall x, x ∈ l -> f x = Ok (g x)) -> res_mapM f l = Ok (map g l).
Proof.
  induction l as [|x l IH]; simpl; intros H; [done|].
  rewrite H by left. simpl. rewrite IH; [done|]. intros y Hy. apply H. by right.
Qed.

Lemma Forall_fold_left {A B} (P : A -> Prop) (f : A -> B -> A) l a :
  P a -> (forall a b, P a -> P (f a b)) -> P (fold_left f l a).
Proof. revert a. induction l as [|b l IH]; simpl; eauto. Qed.

Lemma filter_filter_andb {A} (f g : A -> bool) (l : list A) :
  List.filter f (List.filter g l) = List.filter (fun x => g x && f x) l.
Proof.
  induction l as [|x l IH]; simpl; [done|].
  destruct (g x); simpl; [destruct (f x); by rewrite IH | done].
Qed.

Lemma NoDup_map_filter {A B} (f : A -> B) (p : A -> bool) l : NoDup (map f l) -> NoDup (map f (List.filter p l)).
Proof.
  induction l as [|x l IH]; simpl; [done|]. intros [Hi Hd]%NoDup_cons. destruct (p x); [|auto]. simpl. constructor; [|auto].
  intros (y & Ey & Hy)%list_elem_of_fmap. apply Hi. rewrite Ey. apply list_elem_of_fmap_2.
  apply list_elem_of_In, filter_In in Hy as [Hy _]. by apply list_elem_of_In.
Qed.
Lemma filter_none {A} (p : A -> bool) l : (forall x, x ∈ l -> p x = false) -> List.filter p l = [].
Proof.
  induction l as [|x l IH]; simpl; [done|]. intros H. rewrite H by left. apply IH. intros y Hy. apply H. by right.
Qed.
Lemma filter_all {A} (p : A -> bool) l : (forall x, x ∈ l -> p x = true) -> List.filter p l = l.
Proof.
  induction l as [|x l IH]; simpl; [done|]. intros H. rewrite H by left. f_equal. apply IH. intros y Hy. apply H. by right.
Qed.

Lemma elem_of_take_inv {A} (x : A) n l : x ∈ take n l -> x ∈ l.
Proof. intros (i & Hi & _)%elem_of_take. apply list_elem_of_lookup. eauto. Qed.

(** Boolean membership in a list of strings ([array.includes(s)]). *)
Fixpoint str_mem (s : string) (l : list string) : bool :=
  match l with
  | [] => false
  | x :: l => (x =s? s) || str_mem s l
  end.

Lemma str_mem_spec s l : str_mem s l = true <-> s ∈ l.
Proof.
  induction l as [|x l IH]; simpl; [set_solver|].
  rewrite orb_true_iff, IH, String.eqb_eq, elem_of_cons. firstorder.
Qed.

#[global] Arguments str_mem : simpl never.

Lemma str_mem_false s l : str_mem s l = false <-> s ∉ l.
Proof. rewrite <- str_mem_spec. by destruct (str_mem s l). Qed.
