(* ===== verification/JsString.v ===== *)
(** * JavaScript strings

    The operations of [String.prototype] the client uses.  A JavaScript string
    is a sequence of UTF-16 code units; the model's strings are the ones whose
    code units are below 256, so [toLowerCase] and [trim] are exact on them
    (Latin-1 is closed under lower-casing). *)
From Stdlib Require Import ZArith Lia Ascii DecimalString.
From S2P Require Import Prelude.

Definition code (c : ascii) : N := N_of_ascii c.

(** WhiteSpace and LineTerminator below 256: also the regular expression [\s]. *)
Definition is_ws (c : ascii) : bool :=
  ((9 <=? code c) && (code c <=? 13) || (code c =? 32) || (code c =? 160))%N.

Definition in_range (lo hi : N) (c : ascii) : bool := ((lo <=? code c) && (code c <=? hi))%N.

Definition is_digit (c : ascii) : bool := in_range 48 57 c.
Definition is_upper (c : ascii) : bool := in_range 65 90 c.
Definition is_lower (c : ascii) : bool := in_range 97 122 c.
Definition is_alpha (c : ascii) : bool := is_upper c || is_lower c.
Definition is_alnum (c : ascii) : bool := is_alpha c || is_digit c.
Definition is_hex (c : ascii) : bool := is_digit c || in_range 65 70 c || in_range 97 102 c.

(** Latin-1 case mapping.  U+00D7 and U+00F7 are the signs × and ÷. *)
Definition lower_char (c : ascii) : ascii :=
  if is_upper c || (in_range 192 222 c && negb (code c =? 215)%N)
  then ascii_of_N (code c + 32) else c.

Fixpoint to_lower (s : string) : string :=
  match s with
  | EmptyString => EmptyString
  | String c s => String (lower_char c) (to_lower s)
  end.

(** U+00DF upper-cases to two letters; U+00B5 and U+00FF leave Latin-1 and are
    kept as they are. *)
Definition upper_char (c : ascii) : string :=
  if is_lower c || (in_range 224 254 c && negb (code c =? 247)%N)
  then String (ascii_of_N (code c - 32)) EmptyString
  else if (code c =? 223)%N then "SS" else String c EmptyString.

Fixpoint to_upper (s : string) : string :=
  match s with
  | EmptyString => EmptyString
  | String c s => upper_char c +:+ to_upper s
  end.

Fixpoint trim_start (s : string) : string :=
  match s with
  | String c s' => if is_ws c then trim_start s' else s
  | EmptyString => EmptyString
  end.

Fixpoint trim_end (s : string) : string :=
  match s with
  | EmptyString => EmptyString
  | String c s =>
      match trim_end s with
      | EmptyString => if is_ws c then EmptyString else String c EmptyString
      | t => String c t
      end
  end.

Definition trim (s : string) : string := trim_end (trim_start s).

Definition starts_with (h n : string) : bool := String.prefix n h.

Fixpoint ends_with (h n : string) : bool :=
  (h =s? n) || match h with String _ h => ends_with h n | EmptyString => false end.

(** [h.indexOf(n)]; -1 is [None]. *)
Fixpoint index_of (h n : string) : option nat :=
  if String.prefix n h then Some 0
  else match h with String _ h => S <$> index_of h n | EmptyString => None end.

Definition includes (h n : string) : bool :=
  match index_of h n with Some _ => true | None => false end.

(** [s.slice(0, n)] and [s.slice(n)], [n >= 0]. *)
Fixpoint stake (n : nat) (s : string) : string :=
  match n, s with
  | S n, String c s => String c (stake n s)
  | _, _ => EmptyString
  end.
Fixpoint sdrop (n : nat) (s : string) : string :=
  match n, s with
  | S n, String _ s => sdrop n s
  | _, _ => s
  end.
(** [s.slice(-n)] *)
Definition slast (n : nat) (s : string) : string := sdrop (String.length s - n) s.
(** [s.slice(0, -n)] *)
Definition sinit (n : nat) (s : string) : string := stake (String.length s - n) s.

(** [s.split(sep)] for a non-empty [sep]. *)
Fixpoint split_go (sep : string) (skip : nat) (s : string) : list string :=
  match s with
  | EmptyString => [EmptyString]
  | String c s' =>
      match skip with
      | S k => split_go sep k s'
      | O =>
          if String.prefix sep s then EmptyString :: split_go sep (String.length sep - 1) s'
          else match split_go sep 0 s' with
               | p :: ps => String c p :: ps
               | [] => [String c EmptyString]
               end
      end
  end.
Definition split (s sep : string) : list string := split_go sep 0 s.

Definition join (sep : string) (l : list string) : string := String.concat sep l.

(** [s.replace(/pat/g, rep)] for a literal non-empty [pat]. *)
Definition replace_all (pat rep s : string) : string := join rep (split s pat).

Fixpoint filter_chars (p : ascii -> bool) (s : string) : string :=
  match s with
  | EmptyString => EmptyString
  | String c s => if p c then String c (filter_chars p s) else filter_chars p s
  end.

Fixpoint all_chars (p : ascii -> bool) (s : string) : bool :=
  match s with EmptyString => true | String c s => p c && all_chars p s end.

Fixpoint some_char (p : ascii -> bool) (s : string) : bool :=
  match s with EmptyString => false | String c s => p c || some_char p s end.

(** Longest prefix of characters satisfying [p], and the rest. *)
Fixpoint span_chars (p : ascii -> bool) (s : string) : string * string :=
  match s with
  | String c s' => if p c then let '(a, b) := span_chars p s' in (String c a, b) else (EmptyString, s)
  | EmptyString => (EmptyString, EmptyString)
  end.

(** [s.replace(/\s+/g, rep)]: every maximal run of white space becomes [rep]. *)
Fixpoint collapse_ws_go (rep : string) (in_run : bool) (s : string) : string :=
  match s with
  | EmptyString => EmptyString
  | String c s =>
      if is_ws c then (if in_run then "" else rep) +:+ collapse_ws_go rep true s
      else String c (collapse_ws_go rep false s)
  end.
Definition collapse_ws (rep s : string) : string := collapse_ws_go rep false s.

(** Numbers that are integers print in decimal. *)
Definition Z_to_string (z : Z) : string := NilZero.string_of_int (Z.to_int z).

Definition digit_val (c : ascii) : Z := Z.of_N (code c) - 48.
Definition hex_val (c : ascii) : Z :=
  if is_digit c then Z.of_N (code c) - 48
  else if is_upper c then Z.of_N (code c) - 55 else Z.of_N (code c) - 87.

Fixpoint digits_val (acc : Z) (s : string) : Z :=
  match s with EmptyString => acc | String c s => digits_val (10 * acc + digit_val c) s end.
Fixpoint hexs_val (acc : Z) (s : string) : Z :=
  match s with EmptyString => acc | String c s => hexs_val (16 * acc + hex_val c) s end.

(** [parseInt(s, 10)]; NaN is [None]. *)
Definition parse_int10 (s : string) : option Z :=
  let s := trim_start s in
  let '(sign, s) :=
    match s with
    | String c s' => if (code c =? 45)%N then ((-1)%Z, s') else if (code c =? 43)%N then (1%Z, s') else (1%Z, s)
    | EmptyString => (1%Z, s)
    end in
  match fst (span_chars is_digit s) with
  | EmptyString => None
  | ds => Some (sign * digits_val 0 ds)%Z
  end.

(** Non-negative numbers in lower-case hexadecimal ([n.toString(16)]). *)
Definition hex_digit (z : Z) : ascii :=
  ascii_of_N (if (z <? 10)%Z then Z.to_N z + 48 else Z.to_N z + 87).
Fixpoint hex_go (fuel : nat) (z : Z) (acc : string) : string :=
  match fuel with
  | O => acc
  | S f =>
      let acc := String (hex_digit (z mod 16)) acc in
      if (z <? 16)%Z then acc else hex_go f (z / 16) acc
  end.
(** [Z.log2 z / 4 + 1] digits are enough. *)
Definition Z_to_hex (z : Z) : string := hex_go (Z.to_nat (Z.log2 z / 4 + 1)) z EmptyString.

(** ** Lemmas *)

(** Facts on single characters, by enumeration of the 256 code units. *)
Ltac by_char := let c := fresh "c" in intros c; destruct c as [[] [] [] [] [] [] [] []]; vm_compute; try done.

Lemma lower_char_ws c : is_ws (lower_char c) = is_ws c.
Proof. revert c. by_char. Qed.
Lemma lower_char_idemp c : lower_char (lower_char c) = lower_char c.
Proof. revert c. by_char. Qed.
Lemma lower_char_not_upper c : is_upper (lower_char c) = false.
Proof. revert c. by_char. Qed.
Lemma lower_char_digit c : is_digit (lower_char c) = is_digit c.
Proof. revert c. by_char. Qed.
#[export] Hint Rewrite lower_char_ws lower_char_idemp lower_char_not_upper lower_char_digit : js_rew.

(** *** Append *)

Lemma sapp_assoc a b c : (a +:+ b) +:+ c = a +:+ (b +:+ c).
Proof. induction a; simpl; congruence. Qed.
Lemma sapp_nil_r a : a +:+ "" = a.
Proof. induction a; simpl; congruence. Qed.
Lemma slength_app a b : String.length (a +:+ b) = String.length a + String.length b.
Proof. induction a; simpl; congruence. Qed.
Lemma sapp_inj_l a b c : a +:+ b = a +:+ c -> b = c.
Proof. induction a; simpl; [done|]. intros [=]; auto. Qed.
Lemma sapp_cons c s : String c s = String c "" +:+ s.
Proof. done. Qed.
#[export] Hint Rewrite sapp_assoc sapp_nil_r slength_app : js_rew.

Lemma stake_app a b : stake (String.length a) (a +:+ b) = a.
Proof. induction a; simpl; [by destruct b | congruence]. Qed.
Lemma sdrop_app a b : sdrop (String.length a) (a +:+ b) = b.
Proof. induction a; simpl; [by destruct b | done]. Qed.
Lemma stake_sdrop n s : stake n s +:+ sdrop n s = s.
Proof. revert s. induction n; intros [|c s]; simpl; try done. by rewrite IHn. Qed.
Lemma slength_stake n s : String.length (stake n s) = n `min` String.length s.
Proof. revert s. induction n; intros [|c s]; simpl; try done. by rewrite IHn. Qed.
Lemma slength_sdrop n s : String.length (sdrop n s) = String.length s - n.
Proof. revert s. induction n; intros [|c s]; simpl; try done. Qed.
#[export] Hint Rewrite stake_app sdrop_app stake_sdrop slength_stake slength_sdrop : js_rew.

(** *** Prefix, suffix, search *)

Lemma prefix_cons c n d h :
  String.prefix (String c n) (String d h) = if Ascii.ascii_dec c d then String.prefix n h else false.
Proof. done. Qed.

Lemma prefix_spec n h : String.prefix n h = true <-> exists r, h = n +:+ r.
Proof.
  revert h. induction n as [|c n IH]; intros h.
  - split; [by exists h|]. by destruct h.
  - destruct h as [|d h]; [split; [done | by intros []]|]. rewrite prefix_cons.
    destruct (Ascii.ascii_dec c d) as [->|Hne].
    + rewrite IH. split; intros [r Hr]; exists r; simpl in *; congruence.
    + split; [done|]. intros [r [=]]. congruence.
Qed.

Lemma starts_with_spec h n : starts_with h n = true <-> exists r, h = n +:+ r.
Proof. apply prefix_spec. Qed.

Lemma ends_with_spec h n : ends_with h n = true <-> exists a, h = a +:+ n.
Proof.
  induction h as [|c h IH]; simpl.
  - rewrite orb_false_r, String.eqb_eq. split; [intros <-; by exists ""|].
    by intros [[|] [=]].
  - rewrite orb_true_iff, String.eqb_eq, IH. split.
    + intros [<- | [a ->]]; [by exists "" | by exists (String c a)].
    + intros [[|d a] Ha]; simplify_eq/=; [by left | right; by exists a].
Qed.

Lemma index_of_some h n i :
  index_of h n = Some i -> exists a b, h = a +:+ n +:+ b /\ String.length a = i.
Proof.
  revert i. induction h as [|c h IH]; intros i; cbn [index_of].
  - destruct (String.prefix n "") eqn:E; [|done]. intros [= <-].
    apply prefix_spec in E as [r Hr]. exists "", r. by split.
  - destruct (String.prefix n (String c h)) eqn:E.
    + intros [= <-]. apply prefix_spec in E as [r Hr]. exists "", r. by split.
    + destruct (index_of h n) as [j|]; [|done]. intros [= <-].
      destruct (IH j eq_refl) as (a & b & -> & <-). by exists (String c a), b.
Qed.

Lemma index_of_none h n : index_of h n = None <-> ~ exists a b, h = a +:+ n +:+ b.
Proof.
  split.
  - induction h as [|c h IH]; cbn [index_of]; intros Hi (a & b & Heq);
      destruct (String.prefix n _) eqn:E; try done; destruct a as [|d a]; simplify_eq/=.
    + assert (String.prefix n "" = true) by (apply prefix_spec; by exists b). congruence.
    + assert (String.prefix n (String c h) = true) by (apply prefix_spec; by exists b). congruence.
    + destruct (index_of (a +:+ n +:+ b) n); [done|]. apply IH; [done|]. by exists a, b.
  - intros H. destruct (index_of h n) eqn:E; [|done].
    apply index_of_some in E as (a & b & -> & _). destruct H. by exists a, b.
Qed.

Lemma includes_spec h n : includes h n = true <-> exists a b, h = a +:+ n +:+ b.
Proof.
  unfold includes. destruct (index_of h n) eqn:E.
  - apply index_of_some in E as (a & b & -> & _). split; [by exists a, b | done].
  - apply index_of_none in E. split; [done | intros; contradiction].
Qed.

(** The index found is the first one. *)
Lemma index_of_first h n i a b :
  index_of h n = Some i -> h = a +:+ n +:+ b -> i <= String.length a.
Proof.
  revert i a. induction h as [|c h IH]; intros i a; cbn [index_of]; destruct (String.prefix n _) eqn:E; try done.
  - intros [= <-] _. lia.
  - intros [= <-] _. lia.
  - destruct (index_of h n) as [j|]; [|done]. intros [= <-] Heq.
    destruct a as [|d a]; simplify_eq/=.
    + assert (String.prefix n (String c h) = true) by (apply prefix_spec; by exists b). congruence.
    + specialize (IH j a eq_refl eq_refl). lia.
Qed.

(** *** Trim and lower case *)

Lemma trim_start_idemp s : trim_start (trim_start s) = trim_start s.
Proof. induction s as [|c s IH]; simpl; [done|]. destruct (is_ws c) eqn:E; simpl; [done | by rewrite E]. Qed.

Lemma trim_end_idemp s : trim_end (trim_end s) = trim_end s.
Proof.
  induction s as [|c s IH]; simpl; [done|]. destruct (trim_end s) as [|d t] eqn:E.
  - destruct (is_ws c) eqn:Ec; simpl; [done | by rewrite Ec].
  - cbn [trim_end] in *. by rewrite IH.
Qed.

Lemma trim_start_nows s : trim_start s = s <-> match s with String c _ => is_ws c = false | _ => True end.
Proof.
  destruct s as [|c s]; simpl; [done|]. destruct (is_ws c) eqn:E; [|done]. split; [|done].
  intros H. exfalso. assert (Hl : forall s, String.length (trim_start s) <= String.length s).
  { clear. induction s as [|c s IH]; simpl; [lia|]. destruct (is_ws c); simpl; lia. }
  specialize (Hl s). rewrite H in Hl. simpl in Hl. lia.
Qed.

Lemma trim_start_end s : trim_start s = s -> trim_start (trim_end s) = trim_end s.
Proof.
  rewrite !trim_start_nows. destruct s as [|c s]; simpl; [done|]. intros Hc.
  destruct (trim_end s); [by rewrite Hc | done].
Qed.

Lemma trim_idemp s : trim (trim s) = trim s.
Proof.
  unfold trim. rewrite trim_start_end by apply trim_start_idemp. apply trim_end_idemp.
Qed.

Lemma to_lower_idemp s : to_lower (to_lower s) = to_lower s.
Proof. induction s; simpl; [done|]. by rewrite lower_char_idemp, IHs. Qed.
Lemma to_lower_app a b : to_lower (a +:+ b) = to_lower a +:+ to_lower b.
Proof. induction a; simpl; congruence. Qed.
Lemma slength_lower s : String.length (to_lower s) = String.length s.
Proof. induction s; simpl; congruence. Qed.
Lemma to_lower_trim_start s : to_lower (trim_start s) = trim_start (to_lower s).
Proof. induction s as [|c s IH]; simpl; [done|]. rewrite lower_char_ws. by destruct (is_ws c). Qed.
Lemma to_lower_trim_end s : to_lower (trim_end s) = trim_end (to_lower s).
Proof.
  induction s as [|c s IH]; simpl; [done|]. rewrite <- IH, lower_char_ws.
  destruct (trim_end s); simpl; [by destruct (is_ws c) | done].
Qed.
Lemma to_lower_trim s : to_lower (trim s) = trim (to_lower s).
Proof. unfold trim. by rewrite to_lower_trim_end, to_lower_trim_start. Qed.
#[export] Hint Rewrite trim_idemp to_lower_idemp to_lower_app slength_lower : js_rew.

(** [trim] removes white space only: what is left is a factor of the input. *)
Lemma trim_start_factor s : exists a, s = a +:+ trim_start s /\ all_chars is_ws a = true.
Proof.
  induction s as [|c s (a & IH & Ha)]; simpl; [by exists ""|].
  destruct (is_ws c) eqn:E; [|by exists ""]. exists (String c a). simpl. rewrite E. by rewrite <- IH.
Qed.

Lemma trim_nonempty_trimmed c s : trim (String c s) = String c s -> is_ws c = false.
Proof.
  destruct (is_ws c) eqn:E; [|done]. unfold trim. simpl. rewrite E. intros H.
  assert (Hl : forall s, String.length (trim_end s) <= String.length s).
  { clear. induction s as [|d s IH]; simpl; [lia|]. destruct (trim_end s); simpl in *; [destruct (is_ws d); simpl; lia | lia]. }
  assert (Hs : forall s, String.length (trim_start s) <= String.length s).
  { clear. induction s as [|d s IH]; simpl; [lia|]. destruct (is_ws d); simpl; lia. }
  apply (f_equal String.length) in H. simpl in H. specialize (Hl (trim_start s)). specialize (Hs s). lia.
Qed.

(** *** Character classes *)

Lemma all_chars_app p a b : all_chars p (a +:+ b) = all_chars p a && all_chars p b.
Proof. induction a as [|c a IH]; simpl; [done|]. by rewrite IH, andb_assoc. Qed.
Lemma all_chars_mono (p q : ascii -> bool) s :
  (forall c, p c = true -> q c = true) -> all_chars p s = true -> all_chars q s = true.
Proof. intros H. induction s as [|c s IH]; simpl; [done|]. rewrite !andb_true_iff. firstorder. Qed.
Lemma filter_chars_all p s : all_chars p (filter_chars p s) = true.
Proof. induction s as [|c s IH]; simpl; [done|]. destruct (p c) eqn:E; simpl; [by rewrite E | done]. Qed.
Lemma filter_chars_id p s : all_chars p s = true -> filter_chars p s = s.
Proof. induction s as [|c s IH]; simpl; [done|]. rewrite andb_true_iff. intros [-> ?]. by rewrite IH. Qed.
Lemma filter_chars_app p a b : filter_chars p (a +:+ b) = filter_chars p a +:+ filter_chars p b.
Proof. induction a as [|c a IH]; simpl; [done|]. rewrite IH. by destruct (p c). Qed.
Lemma all_chars_stake p n s : all_chars p s = true -> all_chars p (stake n s) = true.
Proof. revert s. induction n; intros [|c s]; simpl; try done. rewrite !andb_true_iff. intros []; auto. Qed.
Lemma all_chars_sdrop p n s : all_chars p s = true -> all_chars p (sdrop n s) = true.
Proof. revert s. induction n; intros [|c s]; simpl; try done. rewrite !andb_true_iff. intros []; auto. Qed.
#[export] Hint Resolve all_chars_stake all_chars_sdrop filter_chars_all : js.

(** A character that does not occur in the string. *)
Definition no_char (c : ascii) (s : string) : bool := all_chars (fun d => negb (Ascii.eqb c d)) s.

(** *** Split and join *)

Lemma split_go_nonempty sep k s : split_go sep k s <> [].
Proof. revert k. induction s as [|c s IH]; intros k; simpl; [done|]. destruct k; [|apply IH]. destruct (String.prefix _ _); [done|]. by destruct (split_go sep 0 s). Qed.

Lemma join_cons sep p ps : ps <> [] -> join sep (p :: ps) = p +:+ sep +:+ join sep ps.
Proof. by destruct ps. Qed.

Lemma join_cons_char sep c p ps : join sep (String c p :: ps) = String c (join sep (p :: ps)).
Proof. by destruct ps. Qed.

Lemma split_go_join sep k s :
  sep <> "" -> k <= String.length s -> join sep (split_go sep k s) = sdrop k s.
Proof.
  intros Hsep. revert k. induction s as [|c s IH]; intros k Hk; cbn [split_go].
  - by destruct k.
  - destruct k as [|k]; [|simpl in *; apply IH; lia].
    destruct (String.prefix sep (String c s)) eqn:E.
    + rewrite join_cons by apply split_go_nonempty.
      apply prefix_spec in E as [r Hr]. destruct sep as [|d sep]; [done|]. simplify_eq/=.
      rewrite IH by (rewrite slength_app; lia). rewrite Nat.sub_0_r, sdrop_app. done.
    + destruct (split_go sep 0 s) as [|p ps] eqn:E2; [by apply split_go_nonempty in E2|].
      rewrite join_cons_char, <- E2, IH by lia. by destruct s.
Qed.

(** [s.split(sep).join(sep)] gives [s] back. *)
Lemma split_join sep s : sep <> "" -> join sep (split s sep) = s.
Proof. intros H. unfold split. rewrite split_go_join by (done || lia). by destruct s. Qed.

Lemma span_chars_app p s : fst (span_chars p s) +:+ snd (span_chars p s) = s.
Proof. induction s as [|c s IH]; simpl; [done|]. destruct (p c); [|done]. destruct (span_chars p s); simpl in *. by rewrite IH. Qed.
Lemma span_chars_all p s : all_chars p (fst (span_chars p s)) = true.
Proof. induction s as [|c s IH]; simpl; [done|]. destruct (p c) eqn:E; [|done]. destruct (span_chars p s); simpl in *. by rewrite E. Qed.
