(* ===== verification/JsValue.v ===== *)
(** * JavaScript values

    The values [JSON.parse] builds, with [undefined] for a missing property.
    Numbers are integers, infinities excluded; objects keep their properties in
    order, each key once.  Truthiness, [String(v)], property access and
    [JSON.stringify] are the ones the client relies on. *)
From Stdlib Require Import ZArith Lia Ascii.
From S2P Require Import Prelude JsString.

#[warnings="-register-all"]
Inductive jsval : Type :=
| JUndef
| JNull
| JBool (b : bool)
| JNum (z : Z)
| JNaN
| JStr (s : string)
| JArr (l : list jsval)
| JObj (fields : list (string * jsval)).

Definition truthy (v : jsval) : bool :=
  match v with
  | JUndef | JNull | JNaN => false
  | JBool b => b
  | JNum z => negb (z =? 0)%Z
  | JStr s => negb (s =s? "")
  | JArr _ | JObj _ => true
  end.

(** [a || b] *)
Definition js_or (a b : jsval) : jsval := if truthy a then a else b.
(** [a || b] and truthiness on strings. *)
Definition str_or (a b : string) : string := if a =s? "" then b else a.

(** [v == null] *)
Definition is_nullish (v : jsval) : bool := match v with JUndef | JNull => true | _ => false end.
Definition is_array (v : jsval) : bool := match v with JArr _ => true | _ => false end.
Definition is_string (v : jsval) : bool := match v with JStr _ => true | _ => false end.
(** [typeof v === "object"] *)
Definition is_object (v : jsval) : bool := match v with JNull | JArr _ | JObj _ => true | _ => false end.

(** [String(v)] *)
Fixpoint js_String (v : jsval) : string :=
  match v with
  | JUndef => "undefined"
  | JNull => "null"
  | JBool true => "true"
  | JBool false => "false"
  | JNum z => Z_to_string z
  | JNaN => "NaN"
  | JStr s => s
  | JArr l => join "," (map (fun x => if is_nullish x then "" else js_String x) l)
  | JObj _ => "[object Object]"
  end.

(** [Number(v)]: a string that spells something else than an integer is NaN here. *)
Definition int_literal (s : string) : option Z :=
  let s := trim s in
  if s =s? "" then Some 0%Z
  else
    let body := match s with
                | String c s' => if ((code c =? 45) || (code c =? 43))%N then s' else s
                | EmptyString => s
                end in
    if negb (body =s? "") && all_chars is_digit body then parse_int10 s else None.
Definition js_Number (v : jsval) : option Z :=
  match v with
  | JNum z => Some z
  | JNull => Some 0%Z
  | JBool b => Some (if b then 1 else 0)%Z
  | JStr s => int_literal s
  | JArr _ => int_literal (js_String v)
  | JUndef | JNaN | JObj _ => None
  end.

Fixpoint field (k : string) (fs : list (string * jsval)) : jsval :=
  match fs with
  | [] => JUndef
  | (k', v) :: fs => if k' =s? k then v else field k fs
  end.

(** [v.k] for a [k] that is neither an index, [length] nor a name of a prototype. *)
Definition getp (v : jsval) (k : string) : res jsval :=
  match v with
  | JUndef | JNull => Throw "TypeError"
  | JObj fs => Ok (field k fs)
  | _ => Ok JUndef
  end.

(** Names every object inherits from [Object.prototype]; all are truthy. *)
Definition object_prototype_names : list string :=
  ["constructor"; "__proto__"; "hasOwnProperty"; "isPrototypeOf"; "propertyIsEnumerable";
   "toLocaleString"; "toString"; "valueOf"; "__defineGetter__"; "__defineSetter__";
   "__lookupGetter__"; "__lookupSetter__"].

(** Truthiness of [o[k]] for an object literal of booleans. *)
Fixpoint own_flag (k : string) (o : list (string * bool)) : option bool :=
  match o with
  | [] => None
  | (k', b) :: o => if k' =s? k then Some b else own_flag k o
  end.
Definition flag_of (o : list (string * bool)) (k : string) : bool :=
  match own_flag k o with
  | Some b => b
  | None => str_mem k object_prototype_names
  end.

(** ** [JSON.stringify] *)

Definition quote_char (c : ascii) : string :=
  let n := code c in
  if (n =? 34)%N then String "\" (String c "")
  else if (n =? 92)%N then String "\" (String c "")
  else if (n =? 8)%N then "\b"
  else if (n =? 9)%N then "\t"
  else if (n =? 10)%N then "\n"
  else if (n =? 12)%N then "\f"
  else if (n =? 13)%N then "\r"
  else if (n <? 32)%N
       then "\u00" +:+ String (hex_digit (Z.of_N n / 16)) (String (hex_digit (Z.of_N n mod 16)) "")
       else String c "".
Fixpoint quote_body (s : string) : string :=
  match s with EmptyString => "" | String c s => quote_char c +:+ quote_body s end.
Definition dquote : string := String (ascii_of_N 34) "".
Definition quote (s : string) : string := dquote +:+ quote_body s +:+ dquote.

Fixpoint stringify (v : jsval) : string :=
  match v with
  | JUndef | JNull | JNaN => "null"
  | JBool true => "true"
  | JBool false => "false"
  | JNum z => Z_to_string z
  | JStr s => quote s
  | JArr l => "[" +:+ join "," (map stringify l) +:+ "]"
  | JObj fs =>
      "{" +:+ join ","
        ((fix go fs := match fs with
                       | [] => []
                       | (_, JUndef) :: fs => go fs
                       | (k, x) :: fs => (quote k +:+ ":" +:+ stringify x) :: go fs
                       end) fs) +:+ "}"
  end.

Example stringify_example :
  stringify (JObj [("a", JArr [JNum 1; JUndef; JStr "x"]); ("b", JUndef); ("c", JNum (-2))])
  = "{" +:+ dquote +:+ "a" +:+ dquote +:+ ":[1,null," +:+ dquote +:+ "x" +:+ dquote +:+ "],"
        +:+ dquote +:+ "c" +:+ dquote +:+ ":-2}".
Proof. reflexivity. Qed.

(** ** Lemmas *)

Lemma str_or_nonempty a b : b <> "" -> str_or a b <> "".
Proof. unfold str_or. destruct (a =s? "") eqn:E; bool_to_prop; done. Qed.

Lemma field_app_l k v fs : field k ((k, v) :: fs) = v.
Proof. simpl. by rewrite String.eqb_refl. Qed.
Lemma field_app_r k k' v fs : k <> k' -> field k ((k', v) :: fs) = field k fs.
Proof. simpl. destruct (k' =s? k) eqn:E; bool_to_prop; congruence. Qed.
#[export] Hint Rewrite field_app_l : js_rew.

Lemma flag_of_true o k :
  flag_of o k = true -> own_flag k o = Some true \/ k ∈ object_prototype_names.
Proof.
  unfold flag_of. destruct (own_flag k o); [intros ->; by left|]. rewrite str_mem_spec. by right.
Qed.
