(* ===== verification/FilterLedger.v ===== *)
(** * The filter ledger ([static/mail/mail-filter-ledger.js])

    Which message has had which rule's actions applied, for one generation of
    the rules, kept in [localStorage].  The state is the storage cell; every
    operation reads it, computes, and writes it back. *)
From S2P Require Import Prelude JsString JsValue.

Record entry := Entry {
  e_ruleId : string;
  e_actionFingerprint : string;
  e_rulesHash : string;
}.
#[export] Instance entry_eq_dec : EqDecision entry.
Proof. solve_decision. Defined.

(** The object in memory: [{ rulesHash, entries }]. *)
Record store := Store {
  rulesHash : string;
  entries : gmap string entry;
}.

(** What [localStorage.getItem(STORAGE_KEY)] holds.  [CStore] has [None] for a
    property that is missing or of another type; [CGarbage] is text that does
    not parse or parses to something that is not an object. *)
Inductive cell :=
| CNone
| CGarbage
| CStore (h : option string) (es : option (gmap string entry)).

(** [ls_readable], [ls_writable]: whether [getItem] and [setItem] return or
    throw (private mode, quota). *)
Record storage := Storage {
  ls_cell : cell;
  ls_readable : bool;
  ls_writable : bool;
}.

Definition empty_store : store := Store "" ∅.

Definition readStore (s : storage) : store :=
  if ls_readable s then
    match ls_cell s with
    | CNone | CGarbage => empty_store
    | CStore h es => Store (default "" h) (default ∅ es)
    end
  else empty_store.

Definition writeStore (st : store) (s : storage) : storage :=
  if ls_writable s
  then Storage (CStore (Some (rulesHash st)) (Some (entries st))) (ls_readable s) true
  else s.

(** Returns the store as updated in memory and the storage. *)
Definition ensureRulesHash (st : store) (rh : string) (s : storage) : store * storage :=
  if rulesHash st =s? rh then (st, s)
  else let st := Store rh ∅ in (st, writeStore st s).

Definition syncRulesHash (rh : string) (s : storage) : storage :=
  (ensureRulesHash (readStore s) rh s).2.

(** [entries[id]] for a name inherited from [Object.prototype] is an object
    without the three properties, so it never matches: [None] here. *)
Definition alreadyApplied (id ruleId fp rh : string) (s : storage) : bool :=
  if (id =s? "") || (ruleId =s? "") || (rh =s? "") then false
  else
    let st := readStore s in
    if negb (rulesHash st =s? rh) then false
    else match entries st !! id with
         | None => false
         | Some e => (e_ruleId e =s? ruleId) && (e_actionFingerprint e =s? fp) && (e_rulesHash e =s? rh)
         end.

(** [entries[id] = e]: assigning [__proto__] sets no own property. *)
Definition set_entry (id : string) (e : entry) (m : gmap string entry) : gmap string entry :=
  if id =s? "__proto__" then m else <[id := e]> m.

Definition record (id ruleId fp rh : string) (s : storage) : storage :=
  if (id =s? "") || (ruleId =s? "") || (rh =s? "") then s
  else
    let '(st, s) := ensureRulesHash (readStore s) rh s in
    writeStore (Store (rulesHash st) (set_entry id (Entry ruleId fp rh) (entries st))) s.

(** [messageIdsSet[k]] is truthy: an own flag, or an inherited name. *)
Definition id_set (ids : list string) (k : string) : bool :=
  str_mem k ids || str_mem k object_prototype_names.

Definition pruneMissing (messageIdsSet : string -> bool) (s : storage) : storage :=
  let st := readStore s in
  writeStore (Store (rulesHash st) (filter (fun p => messageIdsSet p.1 = true) (entries st))) s.

(** ** Lemmas *)

Definition healthy (s : storage) : Prop := ls_readable s = true /\ ls_writable s = true.

Lemma read_write st s : healthy s -> readStore (writeStore st s) = st.
Proof. intros [Hr Hw]. unfold readStore, writeStore. rewrite Hw. simpl. rewrite Hr. by destruct st. Qed.

Lemma write_healthy st s : healthy s -> healthy (writeStore st s).
Proof. intros [Hr Hw]. unfold healthy, writeStore. by rewrite Hw. Qed.

Lemma write_unwritable st s : ls_writable s = false -> writeStore st s = s.
Proof. intros H. unfold writeStore. by rewrite H. Qed.

Lemma ensure_read st rh s st' s' :
  healthy s -> readStore s = st -> ensureRulesHash st rh s = (st', s') ->
  healthy s' /\ readStore s' = st' /\ st' = (if rulesHash st =s? rh then st else Store rh ∅).
Proof.
  intros Hs Hst. unfold ensureRulesHash. destruct (rulesHash st =s? rh); intros [= <- <-]; [done|].
  split_and!; [by apply write_healthy | by apply read_write | done].
Qed.

Lemma ensure_hash st rh s : rulesHash (ensureRulesHash st rh s).1 = rh.
Proof. unfold ensureRulesHash. destruct (_ =s? _) eqn:E; bool_to_prop; done. Qed.

#[export] Hint Resolve write_healthy : js.
#[export] Hint Rewrite read_write using done : js_rew.

(** What is read after [record]. *)
Lemma record_read id ruleId fp rh s :
  healthy s -> id <> "" -> ruleId <> "" -> rh <> "" ->
  readStore (record id ruleId fp rh s) =
    Store rh (set_entry id (Entry ruleId fp rh)
                (if rulesHash (readStore s) =s? rh then entries (readStore s) else ∅)).
Proof.
  intros Hs H1 H2 H3. unfold record.
  rewrite (proj2 (String.eqb_neq _ _) H1), (proj2 (String.eqb_neq _ _) H2), (proj2 (String.eqb_neq _ _) H3). simpl.
  pose proof (ensure_hash (readStore s) rh s) as Hh.
  destruct (ensureRulesHash (readStore s) rh s) as [st s'] eqn:E.
  apply ensure_read in E as (Hs' & _ & Hst); [|done..].
  rewrite read_write by done. simpl in Hh. rewrite Hh. f_equal. rewrite Hst.
  by destruct (_ =s? _).
Qed.

Lemma alreadyApplied_spec id ruleId fp rh s :
  alreadyApplied id ruleId fp rh s = true <->
  id <> "" /\ ruleId <> "" /\ rh <> "" /\ rulesHash (readStore s) = rh /\
  entries (readStore s) !! id = Some (Entry ruleId fp rh).
Proof.
  unfold alreadyApplied.
  destruct (id =s? "") eqn:E1, (ruleId =s? "") eqn:E2, (rh =s? "") eqn:E3; simpl; bool_to_prop;
    try (split; [done | by intros (?&?&?&?&?)]).
  destruct (rulesHash (readStore s) =s? rh) eqn:E4; simpl; bool_to_prop; [|split; [done | tauto]].
  destruct (entries (readStore s) !! id) as [[r f h]|]; simpl; [|split; [done | by intros (?&?&?&?&?)]].
  rewrite !andb_true_iff, !String.eqb_eq. split; [by intros [[-> ->] ->] | by intros (_&_&_&_&[= -> -> ->])].
Qed.

(** ** Properties *)

(** The entries of the ledger all belong to the generation it is stamped with. *)
Definition one_generation (s : storage) : Prop :=
  map_Forall (fun _ e => e_rulesHash e = rulesHash (readStore s)) (entries (readStore s)).

(** The public operations, as one step relation. *)
Inductive op_step : storage -> storage -> Prop :=
| step_sync rh s : op_step s (syncRulesHash rh s)
| step_record id r fp rh s : op_step s (record id r fp rh s)
| step_prune ids s : op_step s (pruneMissing ids s).

Lemma sync_read rh s :
  healthy s -> readStore (syncRulesHash rh s) =
    (if rulesHash (readStore s) =s? rh then readStore s else Store rh ∅).
Proof.
  intros Hs. unfold syncRulesHash. destruct (ensureRulesHash _ _ _) as [st s'] eqn:E.
  apply ensure_read in E as (_ & H & ->); done.
Qed.

Lemma prune_read ids s :
  healthy s -> readStore (pruneMissing ids s) =
    Store (rulesHash (readStore s)) (filter (fun p => ids p.1 = true) (entries (readStore s))).
Proof. intros Hs. unfold pruneMissing. by rewrite read_write. Qed.

Lemma step_healthy s s' : healthy s -> op_step s s' -> healthy s'.
Proof.
  intros Hs Hst. destruct Hst as [rh s0 | id r fp rh s0 | ids s0].
  - unfold syncRulesHash, ensureRulesHash. destruct (_ =s? _); simpl; auto with js.
  - unfold record, ensureRulesHash. destruct (_ || _); [done|].
    destruct (_ =s? _); simpl; auto with js.
  - unfold pruneMissing. auto with js.
Qed.

Lemma step_one_generation s s' : healthy s -> op_step s s' -> one_generation s -> one_generation s'.
Proof.
  intros Hs Hst. unfold one_generation. destruct Hst as [rh s0 | id r fp rh s0 | ids s0]; intros H.
  - rewrite sync_read by done. destruct (_ =s? _); [done|]. simpl. apply map_Forall_empty.
  - destruct (id =s? "") eqn:E1, (r =s? "") eqn:E2, (rh =s? "") eqn:E3;
      try (unfold record; rewrite E1, E2, E3; done).
    bool_to_prop. rewrite record_read by done. simpl. unfold set_entry.
    assert (map_Forall (fun _ e => e_rulesHash e = rh)
              (if rulesHash (readStore s0) =s? rh then entries (readStore s0) else ∅)) as Hm.
    { destruct (_ =s? _) eqn:E; [bool_to_prop; by subst | apply map_Forall_empty]. }
    destruct (id =s? "__proto__"); [done|]. by apply map_Forall_insert_2.
  - rewrite prune_read by done. simpl. intros k e [? _]%map_lookup_filter_Some. by apply (H k).
Qed.

(** whatever the sequence of ledger operations, every entry of the stored
    ledger carries the rules hash the ledger is stamped with: entries of two
    generations of the rules are never mixed. *)
Theorem ledger_one_generation s s' :
  healthy s -> one_generation s -> rtc op_step s s' -> one_generation s'.
Proof.
  intros Hs Hg H. revert Hs Hg. induction H as [|x y z Hxy _ IH]; [done|]. intros Hs Hg.
  apply IH; [by eapply step_healthy | by eapply step_one_generation].
Qed.

Definition fresh_storage : storage := Storage CNone true true.

Lemma ledger_one_generation_witness :
  one_generation fresh_storage /\
  one_generation (record "m2" "r1" "f" "h2" (record "m1" "r1" "f" "h1" fresh_storage)).
Proof.
  split; [apply map_Forall_empty|]. apply (ledger_one_generation fresh_storage); [done | apply map_Forall_empty |].
  eapply rtc_l; [apply step_record|]. eapply rtc_l; [apply step_record|]. apply rtc_refl.
Defined.

Lemma record_applied_iff_gen id r fp rh id' r' fp' rh' s :
  healthy s -> id <> "" -> r <> "" -> rh <> "" -> id <> "__proto__" ->
  alreadyApplied id' r' fp' rh' (record id r fp rh s) = true <->
  (id' = id /\ r' = r /\ fp' = fp /\ rh' = rh) \/
  (id' <> id /\ rh' = rh /\ alreadyApplied id' r' fp' rh' s = true).
Proof.
  intros Hs H1 H2 H3 Hp. rewrite !alreadyApplied_spec, record_read by done. simpl.
  unfold set_entry. rewrite (proj2 (String.eqb_neq _ _) Hp).
  destruct (decide (id' = id)) as [->|Hne].
  - rewrite lookup_insert_eq. split.
    + intros (_&_&_&<-&[= -> ->]). by left.
    + by intros [(_&->&->&->) | [[] _]].
  - rewrite lookup_insert_ne by done. destruct (rulesHash (readStore s) =s? rh) eqn:E; bool_to_prop.
    + split; [intros (?&?&?&<-&?); right; by subst|]. intros [[]|(_&->&?&?&?&?&?)]; [done|by subst].
    + rewrite lookup_empty. split; [by intros (?&?&?&?&?)|]. intros [[]|(_&->&_&_&_&?&_)]; congruence.
Qed.

(** [record] makes [alreadyApplied] true of exactly the recorded
    quadruple, keeps what held of the other messages under the same rules
    hash, and forgets every message recorded under another hash or, for the
    recorded message itself, another rule or action set. *)
Theorem record_applied_iff id r fp rh id' r' fp' rh' s :
  healthy s -> id <> "" -> r <> "" -> rh <> "" -> id <> "__proto__" ->
  alreadyApplied id' r' fp' rh' (record id r fp rh s) = true <->
  (id' = id /\ r' = r /\ fp' = fp /\ rh' = rh) \/
  (id' <> id /\ rh' = rh /\ alreadyApplied id' r' fp' rh' s = true).
Proof. apply record_applied_iff_gen. Qed.

Lemma record_applied_iff_witness :
  alreadyApplied "m" "r" "f" "h" (record "m" "r" "f" "h" fresh_storage) = true /\
  alreadyApplied "m" "r" "f" "h" (record "m" "r2" "f" "h" fresh_storage) = false.
Proof.
  split; [apply (record_applied_iff "m" "r" "f" "h"); [done..| by left]|].
  apply not_true_is_false. rewrite (record_applied_iff "m" "r2" "f" "h") by done.
  by intros [(_&[=]&_)|[[] _]].
Defined.

Lemma sync_applied_iff rh id' r' fp' rh' s :
  healthy s ->
  alreadyApplied id' r' fp' rh' (syncRulesHash rh s) = true <->
  rh' = rh /\ alreadyApplied id' r' fp' rh' s = true.
Proof.
  intros Hs. rewrite !alreadyApplied_spec, sync_read by done.
  destruct (rulesHash (readStore s) =s? rh) eqn:E; bool_to_prop; simpl.
  - split; [intros (?&?&?&?&?); split_and!; congruence | intros (->&?&?&?&?&?); done].
  - rewrite lookup_empty. split; [by intros (?&?&?&?&?) | intros (?&?&?&?&?&?); congruence].
Qed.

Lemma prune_applied_iff ids id' r' fp' rh' s :
  healthy s ->
  alreadyApplied id' r' fp' rh' (pruneMissing (id_set ids) s) = true <->
  (id' ∈ ids \/ id' ∈ object_prototype_names) /\ alreadyApplied id' r' fp' rh' s = true.
Proof.
  intros Hs. rewrite !alreadyApplied_spec, prune_read by done. simpl.
  rewrite map_lookup_filter_Some. unfold id_set. cbn [fst]. rewrite orb_true_iff, !str_mem_spec. tauto.
Qed.

(** synchronising to a rules hash invalidates everything applied under any
    other hash and nothing under that one; pruning removes exactly the messages
    that are neither listed nor named like an [Object.prototype] member. *)
Theorem invalidation_exact rh ids id' r' fp' rh' s :
  healthy s ->
  (alreadyApplied id' r' fp' rh' (syncRulesHash rh s) = true <->
     rh' = rh /\ alreadyApplied id' r' fp' rh' s = true) /\
  (alreadyApplied id' r' fp' rh' (pruneMissing (id_set ids) s) = true <->
     (id' ∈ ids \/ id' ∈ object_prototype_names) /\ alreadyApplied id' r' fp' rh' s = true).
Proof. intros Hs. split; [by apply sync_applied_iff | by apply prune_applied_iff]. Qed.

Lemma invalidation_exact_witness :
  alreadyApplied "m" "r" "f" "h" (syncRulesHash "h2" (record "m" "r" "f" "h" fresh_storage)) = false.
Proof.
  apply not_true_is_false. intros H.
  apply (invalidation_exact "h2" [] "m" "r" "f" "h") in H as [[=] _]. done.
Defined.

(** A storage that refuses writes is left alone by every operation, so no
    action is ever taken to have been applied. *)
Lemma unwritable_unchanged s s' : ls_writable s = false -> op_step s s' -> s' = s.
Proof.
  intros Hw Hst. destruct Hst as [rh s0 | id r fp rh s0 | ids s0].
  - unfold syncRulesHash, ensureRulesHash. destruct (_ =s? _); simpl; [done | by apply write_unwritable].
  - unfold record, ensureRulesHash. destruct (_ || _); [done|].
    destruct (_ =s? _); rewrite !write_unwritable; try done; by rewrite write_unwritable.
  - by apply write_unwritable.
Qed.
