(* ===== verification/FilterEngine.v ===== *)
(** * The filter engine ([static/mail/mail-filter-engine.js])

    Normalisation, hashing and matching of rules, and the actions of a rule. The priority
    of a rule is the integer the server stores, or absent. The pass that applies the rules
    is in [FilterPass]. *)
From Stdlib Require Import ZArith Lia Ascii Sorting.Sorted.
From stdpp Require Import sorting.
From S2P Require Import Prelude JsString JsValue FilterLedger.

(** ** Rules, messages, contexts *)

(** A rule as the API sends it (api_filters.go:81): the priority is an integer, [None] when
    the property is missing or null; [conditions] and [actions] are the stored JSON. *)
Record rule := Rule {
  r_id : string;
  r_enabled : jsval;
  r_priority : option Z;
  r_created_at : jsval;
  r_conditions : jsval;
  r_actions : jsval;
}.

Record message := Message {
  m_id : string;
  m_subject : jsval;
  m_from_addr : jsval;
  m_to_addrs : jsval;
  m_has_attachments : jsval;
  m_attachments : jsval;
}.

Record context := Context_ {
  c_subject : string;
  c_from : string;
  c_to : list string;
  c_bodyText : option string;
  c_hasAttachments : bool;
  c_sizeBytes : option Z;
}.

(** [String.prototype.localeCompare] belongs to the host's collation; only that
    it orders strings consistently is used. *)
Class Collation := {
  localeCompare : string -> string -> Z;
  lc_sgn : forall a b, Z.sgn (localeCompare a b) = (- Z.sgn (localeCompare b a))%Z;
  lc_trans : forall a b c,
    (localeCompare a b <= 0)%Z -> (localeCompare b c <= 0)%Z -> (localeCompare a c <= 0)%Z;
}.

Definition RULES_CAP : nat := 50.

Definition SUPPORTED_CONDITION_TYPES : list (string * bool) :=
  [("sender", true); ("subject", true); ("recipient", true); ("body", true);
   ("attachment", true); ("size", true); ("header", false)].

Definition SUPPORTED_ACTION_TYPES : list (string * bool) :=
  [("move", true); ("mark_read", true); ("delete", true);
   ("mark_important", false); ("label", false); ("forward", false)].

Definition norm (s : jsval) : string :=
  to_lower (trim (js_String (if is_nullish s then JStr "" else s))).

(** [Number(r.priority) || 0] *)
Definition priority (r : rule) : Z := default 0%Z (r_priority r).
(** [String(r.created_at || '')] *)
Definition created (r : rule) : string := js_String (js_or (r_created_at r) (JStr "")).

(** ** Hash of a rule list *)

Definition to_int32 (z : Z) : Z := ((z + 2 ^ 31) mod 2 ^ 32 - 2 ^ 31)%Z.

(** [h = (h * 33) ^ c]: the operands of [^] are converted to 32-bit integers. *)
Definition hash_step (h : Z) (c : ascii) : Z := Z.lxor (to_int32 (h * 33)) (Z.of_N (code c)).
Fixpoint hash_loop (h : Z) (s : string) : Z :=
  match s with EmptyString => h | String c s => hash_loop (hash_step h c) s end.

Definition slim_rule (r : rule) : jsval :=
  JObj [("id", JStr (r_id r)); ("enabled", JBool (truthy (r_enabled r)));
        ("priority", JNum (priority r));
        ("conditions", js_or (r_conditions r) (JArr []));
        ("actions", js_or (r_actions r) (JArr []))].

Definition stableRulesHash (rules : list rule) : string :=
  let json := stringify (JArr (map slim_rule rules)) in
  let h := hash_loop 5381 json in
  "r" +:+ Z_to_hex (h mod 2 ^ 32).

(** ** Normalisation *)

Section Normalise.
Context `{Collation}.

Definition rule_cmp (a b : rule) : Z :=
  let pa := priority a in
  let pb := priority b in
  if negb (pb =? pa)%Z then (pb - pa)%Z else localeCompare (created a) (created b).

(** [Array.prototype.sort] is stable: an element goes before the first one it
    does not compare greater than, the list being built from its end. *)
Fixpoint insert_rule (r : rule) (l : list rule) : list rule :=
  match l with
  | [] => [r]
  | x :: l' => if (rule_cmp r x <=? 0)%Z then r :: l else x :: insert_rule r l'
  end.
Definition sort_rules (l : list rule) : list rule := foldr insert_rule [] l.

(** [r && r.enabled !== false && String(r.id || '').trim()] *)
Definition rule_kept (r : rule) : bool :=
  negb (match r_enabled r with JBool false => true | _ => false end) && negb (trim (r_id r) =s? "").

(** Elements of the raw list that are null are dropped. *)
Definition normalizeRules (rawList : list (option rule)) : list rule :=
  let list := List.filter rule_kept (omap id rawList) in
  let list := sort_rules list in
  if (RULES_CAP <? length list) then take RULES_CAP list else list.
End Normalise.

(** ** Matching *)

Definition to_list (v : jsval) : list jsval := match v with JArr l => l | _ => [] end.

(** [opts.bodyText], [opts.sizeBytes] when they have the expected type. *)
Definition buildContext (m : message) (bodyText : option string) (sizeBytes : option Z) : context :=
  Context_
    (js_String (js_or (m_subject m) (JStr "")))
    (js_String (js_or (m_from_addr m) (JStr "")))
    (map (fun x => js_String (js_or x (JStr ""))) (to_list (m_to_addrs m)))
    bodyText
    (truthy (m_has_attachments m) || (0 <? length (to_list (m_attachments m))))
    sizeBytes.

Definition matchString (hay needle operator : string) : bool :=
  let h := norm (JStr hay) in
  let n := norm (JStr needle) in
  if (n =s? "") && negb (operator =s? "equals") then false
  else if operator =s? "equals" then h =s? n
  else if operator =s? "starts_with" then starts_with h n
  else if operator =s? "ends_with" then ends_with h n
  else if (operator =s? "matches") || (operator =s? "contains")
       then negb (n =s? "") && includes h n
  else false.

(** [cond.k] for a [cond] known to be an object. *)
Definition prop (v : jsval) (k : string) : jsval :=
  match v with JObj fs => field k fs | _ => JUndef end.

Definition conditionMatches (cond : jsval) (ctx : context) : bool :=
  if negb (truthy cond) || negb (is_object cond) then true
  else
    let type := to_lower (trim (js_String (js_or (prop cond "type") (JStr "")))) in
    let op := to_lower (trim (js_String (js_or (prop cond "operator") (JStr "contains")))) in
    let val := if is_nullish (prop cond "value") then "" else js_String (prop cond "value") in
    if negb (flag_of SUPPORTED_CONDITION_TYPES type) then false
    else if type =s? "header" then false
    else if type =s? "sender" then matchString (c_from ctx) val op
    else if type =s? "subject" then matchString (c_subject ctx) val op
    else if type =s? "recipient" then existsb (fun a => matchString a val op) (c_to ctx)
    else if type =s? "body" then
      match c_bodyText ctx with
      | None => false
      | Some b => if b =s? "" then false else matchString b val op
      end
    else if type =s? "attachment" then
      let want := norm (JStr val) in
      if (want =s? "0") || (want =s? "false") || (want =s? "no")
      then negb (c_hasAttachments ctx) else c_hasAttachments ctx
    else if type =s? "size" then
      match c_sizeBytes ctx with
      | None => false
      | Some sz =>
          match parse_int10 val with
          | None => false
          | Some num =>
              if op =s? "greater_than" then (num <? sz)%Z
              else if op =s? "less_than" then (sz <? num)%Z
              else if op =s? "equals" then (sz =? num)%Z
              else false
          end
      end
    else false.

Definition ruleMatches (r : rule) (ctx : context) : bool :=
  match to_list (r_conditions r) with
  | [] => false
  | conds => forallb (fun c => conditionMatches c ctx) conds
  end.

Definition pickFirstMatchingRule (rules : list rule) (ctx : context) : option rule :=
  List.find (fun r => ruleMatches r ctx) rules.

(** ** Actions *)

Definition actionFingerprint (actions : list jsval) : res string :=
  slim <~ res_mapM (fun a =>
            t <~ getp a "type" ;; v <~ getp a "value" ;;
            Ok (JObj [("type", JStr (js_String (js_or t (JStr ""))));
                      ("value", JStr (if is_nullish v then "" else js_String v))])) actions ;;
  Ok (stringify (JArr slim)).

Definition action_type (t : jsval) : string := to_lower (trim (js_String (js_or t (JStr "")))).

Fixpoint filterSupported_go (acts : list jsval) : res (list jsval) :=
  match acts with
  | [] => Ok []
  | a :: acts =>
      t <~ getp a "type" ;;
      out <~ filterSupported_go acts ;;
      Ok (if flag_of SUPPORTED_ACTION_TYPES (action_type t) then a :: out else out)
  end.
Definition filterSupportedActions (actions : jsval) : res (list jsval) :=
  filterSupported_go (to_list actions).

(** Calls on [window.ElvishMailManifest]. *)
Inductive mcall :=
| MoveMessage (folder : string)
| SetMessageRead
| DeleteMessage.
#[export] Instance mcall_eq_dec : EqDecision mcall.
Proof. solve_decision. Defined.

(** [run]: the calls made in order, and the action types skipped. *)
Fixpoint run_acts (acts : list jsval) : list mcall * list string :=
  match acts with
  | [] => ([], [])
  | a :: acts =>
      let '(calls, skipped) := run_acts acts in
      let t := action_type (prop a "type") in
      let v := if is_nullish (prop a "value") then "" else js_String (prop a "value") in
      if t =s? "move" then
        let folder := norm (JStr v) in
        if folder =s? "" then (calls, skipped) else (MoveMessage folder :: calls, skipped)
      else if t =s? "mark_read" then (SetMessageRead :: calls, skipped)
      else if t =s? "delete" then (DeleteMessage :: calls, skipped)
      else (calls, t :: skipped)
  end.

(** [{ applied: false }], or the calls to make one after the other. *)
Inductive plan :=
| NotApplied
| RunCalls (calls : list mcall) (skipped : list string).

Definition applyActions (manifest : bool) (messageId : string) (actions : jsval) : res plan :=
  if negb manifest || (messageId =s? "") then Ok NotApplied
  else
    acts <~ filterSupportedActions actions ;;
    match acts with
    | [] => Ok NotApplied
    | _ => let '(calls, skipped) := run_acts acts in Ok (RunCalls calls skipped)
    end.

Definition plan_calls (p : plan) : list mcall :=
  match p with NotApplied => [] | RunCalls calls _ => calls end.

Example conditionMatches_contains :
  let ctx := buildContext (Message "m" (JStr "Hello") (JStr "a@b.com") (JArr [JStr "c@d.com"]) (JBool false) JUndef) None None in
  conditionMatches (JObj [("type", JStr "subject"); ("operator", JStr "contains"); ("value", JStr "ell")]) ctx = true /\
  conditionMatches (JObj [("type", JStr "body"); ("operator", JStr "contains"); ("value", JStr "x")]) ctx = false.
Proof. by vm_compute. Qed.

(** ** Properties of normalisation *)

Section NormaliseProofs.
Context `{Collation}.

Definition rule_le (a b : rule) : Prop := (rule_cmp a b <= 0)%Z.

Lemma rule_cmp_sgn a b : Z.sgn (rule_cmp a b) = (- Z.sgn (rule_cmp b a))%Z.
Proof.
  unfold rule_cmp. rewrite (Z.eqb_sym (priority b)). destruct (priority a =? priority b)%Z; simpl; [apply lc_sgn | lia].
Qed.

#[export] Instance rule_le_trans : Transitive rule_le.
Proof.
  intros a b c. unfold rule_le, rule_cmp.
  destruct (priority b =? priority a)%Z eqn:E1, (priority c =? priority b)%Z eqn:E2,
    (priority c =? priority a)%Z eqn:E3; simpl; bool_to_prop; try lia. apply lc_trans.
Qed.

#[export] Instance rule_le_total : Total rule_le.
Proof. intros a b. unfold rule_le. pose proof (rule_cmp_sgn a b). lia. Qed.

Lemma rule_le_refl r : rule_le r r.
Proof. destruct (rule_le_total r r); done. Qed.

Lemma insert_rule_perm r l : insert_rule r l ≡ₚ r :: l.
Proof.
  induction l as [|x l IH]; simpl; [done|]. destruct (_ <=? 0)%Z; [done|]. rewrite IH. apply Permutation_swap.
Qed.

Lemma sort_rules_perm l : sort_rules l ≡ₚ l.
Proof. induction l as [|r l IH]; simpl; [done|]. by rewrite insert_rule_perm, IH. Qed.

Lemma insert_rule_sorted r l : StronglySorted rule_le l -> StronglySorted rule_le (insert_rule r l).
Proof.
  induction 1 as [|x l Hs IH Hx]; simpl; [repeat constructor|].
  destruct (rule_cmp r x <=? 0)%Z eqn:E; bool_to_prop.
  - constructor; [by constructor|]. constructor; [done|].
    eapply Forall_impl; [exact Hx|]. intros y. by apply rule_le_trans.
  - constructor; [done|]. rewrite insert_rule_perm. constructor; [|done].
    destruct (rule_le_total x r); [done|]. unfold rule_le in *. lia.
Qed.

Lemma sort_rules_sorted l : StronglySorted rule_le (sort_rules l).
Proof. induction l as [|r l IH]; simpl; [constructor | by apply insert_rule_sorted]. Qed.

Lemma sort_rules_id l : StronglySorted rule_le l -> sort_rules l = l.
Proof.
  induction 1 as [|x l Hs IH Hx]; simpl; [done|]. rewrite IH. destruct Hx as [|y l Hxy _]; simpl; [done|].
  by rewrite (proj2 (Z.leb_le _ _) Hxy).
Qed.

Lemma StronglySorted_app_inv l1 l2 :
  StronglySorted rule_le (l1 ++ l2) ->
  StronglySorted rule_le l1 /\ forall a b, a ∈ l1 -> b ∈ l2 -> rule_le a b.
Proof.
  induction l1 as [|x l1 IH]; simpl; intros Hs; [split; [constructor | set_solver]|].
  apply StronglySorted_inv in Hs as [Hs Hx]. apply IH in Hs as [Hs1 Hs2].
  rewrite Forall_app in Hx. destruct Hx as [Hx1 Hx2]. split; [by constructor|].
  intros a b [->|Ha]%elem_of_cons Hb; [|by apply Hs2]. rewrite Forall_forall in Hx2. by apply Hx2.
Qed.

Lemma cap_take (l : list rule) : (if RULES_CAP <? length l then take RULES_CAP l else l) = take RULES_CAP l.
Proof. destruct (RULES_CAP <? length l) eqn:E; [done|]. bool_to_prop. by rewrite firstn_all2. Qed.

Lemma normalizeRules_take raw :
  normalizeRules raw = take RULES_CAP (sort_rules (List.filter rule_kept (omap id raw))).
Proof. apply cap_take. Qed.

Lemma filter_id {A} (f : A -> bool) (l : list A) : Forall (fun x => f x = true) l -> List.filter f l = l.
Proof. induction 1 as [|x l Hx _ IH]; simpl; [done|]. by rewrite Hx, IH. Qed.

Lemma elem_of_filter_bool {A} (f : A -> bool) (l : list A) x : x ∈ List.filter f l <-> f x = true /\ x ∈ l.
Proof. rewrite !list_elem_of_In, List.filter_In. tauto. Qed.

Lemma omap_Some {A} (l : list A) : omap id (map Some l) = l.
Proof. induction l as [|x l IH]; [done|]. cbn. f_equal. exact IH. Qed.

Lemma elem_of_omap_id {A} (l : list (option A)) x : x ∈ omap id l <-> Some x ∈ l.
Proof. rewrite list_elem_of_omap. split; [intros (y & ? & He); cbn in He; by subst | intros; by exists (Some x)]. Qed.

Lemma normalizeRules_elem raw r : r ∈ normalizeRules raw -> rule_kept r = true /\ Some r ∈ raw.
Proof.
  rewrite normalizeRules_take. intros Hr%elem_of_take_inv. rewrite sort_rules_perm in Hr.
  apply elem_of_filter_bool in Hr as [? ?]. by rewrite <- elem_of_omap_id.
Qed.

Lemma normalizeRules_facts raw :
  let l := normalizeRules raw in
  length l <= RULES_CAP /\
  (forall r, r ∈ l -> rule_kept r = true /\ Some r ∈ raw) /\
  StronglySorted rule_le l /\
  exists rest, l ++ rest ≡ₚ List.filter rule_kept (omap id raw) /\
    (forall a b, a ∈ l -> b ∈ rest -> rule_le a b) /\ (rest = [] \/ length l = RULES_CAP).
Proof.
  set (k := List.filter rule_kept (omap id raw)). simpl. rewrite !normalizeRules_take. fold k.
  pose proof (sort_rules_sorted k) as Hs. rewrite <- (take_drop RULES_CAP (sort_rules k)) in Hs.
  apply StronglySorted_app_inv in Hs as [Hs1 Hs2]. split_and!.
  - rewrite length_take. lia.
  - intros r Hr. apply normalizeRules_elem. by rewrite normalizeRules_take.
  - done.
  - exists (drop RULES_CAP (sort_rules k)). split_and!; [by rewrite take_drop, sort_rules_perm | done |].
    destruct (decide (length (sort_rules k) <= RULES_CAP)) as [Hle|Hgt]; [left; by apply drop_ge | right].
    rewrite length_take. lia.
Qed.

(** The order the editor promises: higher numbers first, a rule without one at 0, and
    among equals the one created first. *)
Definition ranks_no_later (a b : rule) : Prop :=
  let number r := match r_priority r with Some z => z | None => 0%Z end in
  (number b < number a)%Z \/
  number a = number b /\ forall ta tb, r_created_at a = JStr ta -> r_created_at b = JStr tb -> (localeCompare ta tb <= 0)%Z.

Lemma created_text r t : r_created_at r = JStr t -> created r = t.
Proof. unfold created. intros ->. by destruct t. Qed.

Lemma rule_le_ranks a b : rule_le a b -> ranks_no_later a b.
Proof.
  unfold rule_le, rule_cmp, ranks_no_later, priority. destruct (_ =? _)%Z eqn:E; simpl; bool_to_prop.
  - intros Hl. right. split; [by destruct (r_priority a), (r_priority b)|].
    intros ta tb Ha%created_text Hb%created_text. by subst.
  - left. destruct (r_priority a), (r_priority b); simpl in *; lia.
Qed.

Lemma rule_kept_iff r : rule_kept r = true <-> r_enabled r <> JBool false /\ trim (r_id r) <> "".
Proof.
  unfold rule_kept. rewrite andb_true_iff, !negb_true_iff, String.eqb_neq.
  split; intros [He ?]; (split; [|done]); destruct (r_enabled r) as [| |[]| | | | |]; done.
Qed.

Lemma sorted_impl {A} (R R' : A -> A -> Prop) l : (forall a b, R a b -> R' a b) -> StronglySorted R l -> StronglySorted R' l.
Proof. intros Hr. induction 1 as [|x l _ IH Hx]; constructor; [done|]. eapply Forall_impl; [exact Hx | auto]. Qed.

Lemma filter_split {A} (f : A -> bool) (l : list A) :
  List.filter f l ++ List.filter (fun x => negb (f x)) l ≡ₚ l.
Proof. induction l as [|x l IH]; simpl; [done|]. destruct (f x); simpl; [by rewrite IH | by rewrite <- Permutation_middle, IH]. Qed.

(** C16: whatever the list the server sends, the normalised rules are at most fifty; with
    the rules beyond the cap and the unusable ones (switched off, or with a blank id) they
    are exactly the rules of the list, none twice and none invented; a usable rule is left
    out only when there are fifty others; and every rule that stays ranks no later than the
    ones after it and the ones beyond the cap: its priority number (0 when there is none) is
    higher, or equal and it was created no later. *)
Theorem normalizeRules_spec raw :
  let l := normalizeRules raw in
  length l <= 50 /\ StronglySorted ranks_no_later l /\
  exists beyond unusable, l ++ beyond ++ unusable ≡ₚ omap id raw /\
    (forall r, r ∈ l ++ beyond -> r_enabled r <> JBool false /\ trim (r_id r) <> "") /\
    (forall r, r ∈ unusable -> r_enabled r = JBool false \/ trim (r_id r) = "") /\
    (forall a b, a ∈ l -> b ∈ beyond -> ranks_no_later a b) /\
    (beyond = [] \/ length l = 50).
Proof.
  destruct (normalizeRules_facts raw) as (H1 & H2 & H3 & rest & Hp & Hr & Hc). split_and!; [exact H1 | |].
  { eapply sorted_impl; [|exact H3]. apply rule_le_ranks. }
  exists rest, (List.filter (fun r => negb (rule_kept r)) (omap id raw)). split_and!.
  - by rewrite app_assoc, Hp, filter_split.
  - intros r Hin. rewrite Hp in Hin. apply elem_of_filter_bool in Hin as [Hk _]. by apply rule_kept_iff.
  - intros r [Hk%negb_true_iff _]%elem_of_filter_bool. apply not_true_iff_false in Hk. rewrite rule_kept_iff in Hk.
    destruct (decide (trim (r_id r) = "")) as [|Hid]; [by right | left].
    destruct (r_enabled r) as [| |[]| | | | |]; (done || exfalso; by apply Hk).
  - intros a b Ha Hb. by apply rule_le_ranks, Hr.
  - exact Hc.
Qed.

(** normalising is idempotent: a list that has been normalised once is
    already filtered, ordered (ties kept in place) and capped. *)
Theorem normalizeRules_idempotent raw :
  normalizeRules (map Some (normalizeRules raw)) = normalizeRules raw.
Proof.
  destruct (normalizeRules_facts raw) as (Hlen & Hel & Hs & _).
  rewrite (normalizeRules_take (map Some _)), omap_Some, filter_id, sort_rules_id by
    (done || (apply Forall_forall; intros; by apply Hel)).
  by apply firstn_all2.
Qed.

Lemma find_some_split {A} (f : A -> bool) l x :
  List.find f l = Some x -> exists l1 l2, l = l1 ++ x :: l2 /\ f x = true /\ Forall (fun y => f y = false) l1.
Proof.
  induction l as [|y l IH]; simpl; [done|]. destruct (f y) eqn:E.
  - intros [= <-]. exists [], l. split_and!; [done | done | constructor].
  - intros (l1 & l2 & -> & ? & ?)%IH. exists (y :: l1), l2. split_and!; [done | done | by constructor].
Qed.

(** the rule an inbox pass picks for a message is a kept rule that matches
    it, and it ranks at least as high as every other kept rule of the raw list
    that matches, including the ones the cap dropped. *)
Theorem picked_rule_ranks_first raw ctx r :
  pickFirstMatchingRule (normalizeRules raw) ctx = Some r ->
  rule_kept r = true /\ ruleMatches r ctx = true /\
  forall r', Some r' ∈ raw -> rule_kept r' = true -> ruleMatches r' ctx = true -> rule_le r r'.
Proof.
  destruct (normalizeRules_facts raw) as (_ & Hel & Hs & rest & Hperm & Hrest & _).
  intros (l1 & l2 & Heq & Hm & Hno)%find_some_split. rewrite Heq in *.
  split_and!; [apply Hel; rewrite elem_of_app, elem_of_cons; auto | done |]. intros r' Hr' Hk Hm'.
  assert (r' ∈ (l1 ++ r :: l2) ++ rest) as Hin.
  { rewrite Hperm. apply elem_of_filter_bool. by rewrite elem_of_omap_id. }
  rewrite !elem_of_app, elem_of_cons in Hin. destruct Hin as [[Hin|[->|Hin]]|Hin].
  - rewrite Forall_forall in Hno. apply Hno in Hin. congruence.
  - apply rule_le_refl.
  - apply (StronglySorted_app_inv (l1 ++ [r]) l2); [by rewrite <- app_assoc | rewrite elem_of_app, elem_of_cons; auto | done].
  - apply Hrest; [rewrite elem_of_app, elem_of_cons; auto | done].
Qed.
End NormaliseProofs.

(** A collation: the order of the code units. *)
Fixpoint code_compare (a b : string) : Z :=
  match a, b with
  | EmptyString, EmptyString => 0
  | EmptyString, _ => -1
  | _, EmptyString => 1
  | String c a, String d b =>
      if (code c =? code d)%N then code_compare a b else if (code c <? code d)%N then -1 else 1
  end.
Lemma code_compare_sgn a b : Z.sgn (code_compare a b) = (- Z.sgn (code_compare b a))%Z.
Proof.
  revert b. induction a as [|c a IH]; intros [|d b]; simpl; try done. rewrite (N.eqb_sym (code d)).
  destruct (N.eqb_spec (code c) (code d)) as [|Hne]; [apply IH|].
  destruct (N.ltb_spec (code c) (code d)), (N.ltb_spec (code d) (code c)); (done || lia).
Qed.
Lemma code_compare_trans a b c :
  (code_compare a b <= 0)%Z -> (code_compare b c <= 0)%Z -> (code_compare a c <= 0)%Z.
Proof.
  revert b c. induction a as [|x a IH]; intros [|y b] [|z c]; simpl; try done; try lia.
  destruct (N.eqb_spec (code x) (code y)), (N.eqb_spec (code y) (code z)), (N.eqb_spec (code x) (code z)),
    (N.ltb_spec (code x) (code y)), (N.ltb_spec (code y) (code z)), (N.ltb_spec (code x) (code z)); try lia; eauto.
Qed.
#[export] Instance code_collation : Collation :=
  {| localeCompare := code_compare; lc_sgn := code_compare_sgn; lc_trans := code_compare_trans |}.

Definition sample_rule (i : string) (p : Z) (needle : string) (acts : jsval) : rule :=
  Rule i (JBool true) (Some p) JUndef
    (JArr [JObj [("type", JStr "subject"); ("operator", JStr "contains"); ("value", JStr needle)]]) acts.
Definition mark_read_action : jsval := JArr [JObj [("type", JStr "mark_read")]].
Definition sample_message (i subj : string) : message :=
  Message i (JStr subj) (JStr "") (JArr []) JUndef JUndef.

Lemma picked_rule_ranks_first_witness :
  rule_le (sample_rule "2" 100 "z" mark_read_action) (sample_rule "1" 50 "z" mark_read_action).
Proof.
  refine (proj2 (proj2 (picked_rule_ranks_first
    [Some (sample_rule "1" 50 "z" mark_read_action); None; Some (sample_rule "2" 100 "z" mark_read_action)]
    (buildContext (sample_message "m" "az") None None) _ _)) _ _ _ _);
  [by vm_compute | rewrite elem_of_cons; by left | by vm_compute | by vm_compute].
Defined.

Lemma normalizeRules_spec_witness :
  let raw := [Some (sample_rule "a" 1 "z" JUndef); None; Some (Rule "x" (JBool false) (Some 9%Z) JUndef JUndef JUndef); Some (sample_rule "b" 2 "z" JUndef)] in
  StronglySorted ranks_no_later (normalizeRules raw) /\ map r_id (normalizeRules raw) = ["b"; "a"].
Proof. intros raw. split; [exact (proj1 (proj2 (normalizeRules_spec raw))) | reflexivity]. Defined.

Lemma normalizeRules_idempotent_witness :
  let raw := [Some (sample_rule "a" 1 "z" JUndef); Some (sample_rule "b" 2 "z" JUndef)] in
  map r_id (normalizeRules raw) = ["b"; "a"] /\
  normalizeRules (map Some (normalizeRules raw)) = normalizeRules raw.
Proof. split; [reflexivity | apply normalizeRules_idempotent]. Defined.

(** ** The hash *)

(** The usual statement of the hash, on unsigned 32-bit words. *)
Fixpoint djb2_xor (u : Z) (s : string) : Z :=
  match s with
  | EmptyString => u
  | String c s => djb2_xor (Z.lxor ((u * 33) mod 2 ^ 32) (Z.of_N (code c))) s
  end.

Lemma mod_lxor a b n : (0 <= n)%Z -> ((Z.lxor a b) mod 2 ^ n = Z.lxor (a mod 2 ^ n) (b mod 2 ^ n))%Z.
Proof.
  intros Hn. apply Z.bits_inj'. intros i Hi. rewrite Z.lxor_spec.
  destruct (Z.lt_ge_cases i n).
  - by rewrite !Z.mod_pow2_bits_low, Z.lxor_spec.
  - by rewrite !Z.mod_pow2_bits_high.
Qed.

Lemma to_int32_mod z : (to_int32 z mod 2 ^ 32 = z mod 2 ^ 32)%Z.
Proof. unfold to_int32. rewrite Zminus_mod_idemp_l. f_equal. lia. Qed.

Lemma code_bound c : (0 <= Z.of_N (code c) < 256)%Z.
Proof. revert c. by_char. Qed.

Lemma lxor_bound a b n : (0 <= n -> 0 <= a < 2 ^ n -> 0 <= b < 2 ^ n -> 0 <= Z.lxor a b < 2 ^ n)%Z.
Proof.
  intros Hn Ha Hb. rewrite <- (Z.mod_small a (2 ^ n)), <- (Z.mod_small b (2 ^ n)), <- mod_lxor by done.
  apply Z.mod_pos_bound. lia.
Qed.

Lemma djb2_xor_bound u s : (0 <= u < 2 ^ 32 -> 0 <= djb2_xor u s < 2 ^ 32)%Z.
Proof.
  revert u. induction s as [|c s IH]; simpl; intros u Hu; [done|]. apply IH.
  apply lxor_bound; [lia | apply Z.mod_pos_bound; lia|]. pose proof (code_bound c). lia.
Qed.

Lemma hash_loop_djb2 h u s :
  (h mod 2 ^ 32 = u)%Z -> (hash_loop h s mod 2 ^ 32 = djb2_xor u s mod 2 ^ 32)%Z.
Proof.
  revert h u. induction s as [|c s IH]; simpl; intros h u Hu.
  - by rewrite <- Hu, Zmod_mod.
  - apply IH. unfold hash_step. rewrite mod_lxor, to_int32_mod, <- Hu, Zmult_mod_idemp_l by lia.
    f_equal. apply Z.mod_small. pose proof (code_bound c). lia.
Qed.

(** *** Hexadecimal *)

Lemma hexs_val_go fuel z acc k :
  (0 <= z < 16 ^ Z.of_nat fuel)%Z ->
  exists n, (0 <= n)%Z /\ hexs_val k (hex_go fuel z acc) = hexs_val (k * 16 ^ n + z)%Z acc.
Proof.
  revert z acc k. induction fuel as [|f IH]; intros z acc k Hz.
  - simpl in *. exists 0%Z. split; [lia|]. f_equal. lia.
  - cbn [hex_go]. assert (Hd : hex_val (hex_digit (z mod 16)) = (z mod 16)%Z).
    { assert (0 <= z mod 16 < 16)%Z as Hm by (apply Z.mod_pos_bound; lia).
      assert (z mod 16 ∈ [0;1;2;3;4;5;6;7;8;9;10;11;12;13;14;15])%Z as Hin.
      { rewrite !elem_of_cons. lia. }
      revert Hin. generalize (z mod 16)%Z. intros w Hw.
      repeat (apply elem_of_cons in Hw as [->|Hw]; [by vm_compute|]). set_solver. }
    destruct (z <? 16)%Z eqn:E; bool_to_prop.
    + exists 1%Z. split; [lia|]. cbn [hexs_val]. rewrite Hd, Z.mod_small by lia. f_equal. lia.
    + destruct (IH (z / 16)%Z (String (hex_digit (z mod 16)) acc) k) as (n & Hn & ->).
      { rewrite Nat2Z.inj_succ, Z.pow_succ_r in Hz by lia. split; [apply Z.div_pos; lia|].
        apply Z.div_lt_upper_bound; lia. }
      exists (n + 1)%Z. split; [lia|]. cbn [hexs_val]. rewrite Hd. f_equal.
      rewrite Z.pow_add_r by lia. pose proof (Z.div_mod z 16). lia.
Qed.

(** Reading back the hexadecimal form of a non-negative number gives it. *)
Lemma hexs_val_hex z : (0 <= z)%Z -> hexs_val 0%Z (Z_to_hex z) = z.
Proof.
  intros Hz. unfold Z_to_hex. destruct (hexs_val_go (Z.to_nat (Z.log2 z / 4 + 1)) z "" 0%Z) as (n & Hn & ->).
  - split; [done|]. rewrite Z2Nat.id by (pose proof (Z.log2_nonneg z); pose proof (Z.div_pos (Z.log2 z) 4); lia).
    destruct (Z.eq_dec z 0%Z) as [->|]; [by vm_compute|].
    destruct (Z.log2_spec z) as [_ H2]; [lia|]. eapply Z.lt_le_trans; [exact H2|].
    change 16%Z with (2 ^ 4)%Z. rewrite <- Z.pow_mul_r by (pose proof (Z.log2_nonneg z); pose proof (Z.div_pos (Z.log2 z) 4); lia).
    apply Z.pow_le_mono_r; [lia|]. pose proof (Z.div_mod (Z.log2 z) 4). pose proof (Z.mod_pos_bound (Z.log2 z) 4). lia.
  - cbn [hexs_val]. lia.
Qed.

(** the signed 32-bit arithmetic of [stableRulesHash] computes the unsigned
    djb2-xor hash of the serialised rules: the result is ["r"] followed by the
    hexadecimal form of a word below 2^32 that reads back as that hash. *)
Theorem stableRulesHash_djb2 rules :
  let json := stringify (JArr (map slim_rule rules)) in
  exists hex, stableRulesHash rules = "r" +:+ hex /\
    hexs_val 0%Z hex = djb2_xor 5381%Z json /\ (0 <= hexs_val 0%Z hex < 2 ^ 32)%Z.
Proof.
  intros json. exists (Z_to_hex (hash_loop 5381 json mod 2 ^ 32)). split; [done|].
  rewrite hexs_val_hex by (apply Z.mod_pos_bound; lia).
  rewrite (hash_loop_djb2 5381 5381) by done.
  assert (0 <= djb2_xor 5381 json < 2 ^ 32)%Z as Hb by (apply djb2_xor_bound; lia).
  rewrite Z.mod_small by done. done.
Qed.

Lemma stableRulesHash_nonempty rules : stableRulesHash rules <> "".
Proof. done. Qed.

(** ** Matching *)

Lemma norm_JStr s : norm (JStr s) = to_lower (trim s).
Proof. done. Qed.

Lemma norm_lower s : norm (JStr (to_lower s)) = norm (JStr s).
Proof. rewrite !norm_JStr, <- to_lower_trim. apply to_lower_idemp. Qed.
Lemma norm_trim s : norm (JStr (trim s)) = norm (JStr s).
Proof. rewrite !norm_JStr. by rewrite trim_idemp. Qed.
#[export] Hint Rewrite norm_lower norm_trim : js_rew.

(** [matchString] by operator: equality, prefix, suffix and substring of
    the trimmed, lower-cased strings, an empty needle matching under [equals]
    only and an unknown operator never matching; so neither case nor
    surrounding white space of the text or of the needle changes the verdict. *)
Theorem matchString_spec hay needle op :
  let h := to_lower (trim hay) in
  let n := to_lower (trim needle) in
  (matchString hay needle op = true <->
     op = "equals" /\ h = n \/
     n <> "" /\ (op = "starts_with" /\ (exists r, h = n +:+ r) \/
                 op = "ends_with" /\ (exists a, h = a +:+ n) \/
                 (op = "matches" \/ op = "contains") /\ exists a b, h = a +:+ n +:+ b)) /\
  matchString (to_lower hay) needle op = matchString hay needle op /\
  matchString hay (to_lower needle) op = matchString hay needle op /\
  matchString (trim hay) (trim needle) op = matchString hay needle op.
Proof.
  simpl. split_and!; [|unfold matchString; by autorewrite with js_rew..].
  unfold matchString. rewrite !norm_JStr. rewrite <- starts_with_spec, <- ends_with_spec, <- includes_spec.
  destruct (to_lower (trim needle) =s? "") eqn:En, (op =s? "equals") eqn:E1, (op =s? "starts_with") eqn:E2,
    (op =s? "ends_with") eqn:E3, (op =s? "matches") eqn:E4, (op =s? "contains") eqn:E5;
    simpl; bool_to_prop; subst; try done; rewrite ?String.eqb_eq; intuition congruence.
Qed.
