(* ===== verification/FilterPass.v ===== *)
(** * The inbox filter pass ([runInboxFilterPass] of [static/mail/mail-filter-engine.js])

    A pass takes messages off a queue, starts the actions of the first matching
    rule for at most three of them at a time, and records the ones that
    succeeded in the ledger.  The manifest calls of different messages
    interleave: the pass is a step relation whose steps are the completions of
    outstanding calls, in any order and with any outcome. *)
From Stdlib Require Import ZArith Lia.
From S2P Require Import Prelude JsString JsValue FilterLedger FilterEngine.

(** The variables of one call of [pump].  They are declared with [var] inside
    its loop, so every iteration assigns the same ones, and the continuations of
    all the messages that call started read them when they run: after the loop.
    [None] is [undefined] or [null]. *)
Record frame := Frame {
  f_msg : option message;
  f_hit : option rule;
  f_fp : string;
}.

Definition fresh_frame : frame := Frame None None "".

(** A message whose actions are running: the parameter of its [applyActions],
    the variables its continuations close over (an index of [p_frames]), and the
    calls still to complete, the first of which is outstanding. *)
Record job := Job {
  j_id : string;
  j_frame : nat;
  j_pending : list mcall;
}.

Inductive settlement := Resolved | Rejected.

Record pass := Pass {
  p_queue : list (option message);
  p_inflight : list job;
  p_reload : bool;                  (** [reloadPending] *)
  p_ledger : storage;
  p_settled : option settlement;    (** the promise of the pass *)
  p_reloads : nat;                  (** calls of [options.onReload] *)
  p_log : list (string * mcall);    (** manifest calls issued so far *)
  p_frames : list frame;            (** one per call of [pump] *)
}.

Definition maxConcurrent : nat := 3.

Section Pass.
Variable rules : list rule.                    (* normalised *)
Variable rh : string.                          (* their hash *)
Variable bodyById : string -> option string.   (* options.bodyByMessageId *)
Variable manifest : bool.                      (* window.ElvishMailManifest is loaded *)

(** ** The loop *)

(** What the loop does with one message of the queue. *)
Inductive verdict := Skip | Start (id : string) (calls : list mcall) | Threw.

Definition hit_actions (hit : rule) : jsval := js_or (r_actions hit) (JArr []).

(** The body of the loop, and the variables as it leaves them. *)
Definition consider (led : storage) (fr : frame) (msg : option message) : verdict * frame :=
  let fr := Frame msg (f_hit fr) (f_fp fr) in
  match msg with
  | None => (Skip, fr)
  | Some m =>
      if m_id m =s? "" then (Skip, fr)
      else
        let ctx := buildContext m (bodyById (m_id m)) None in
        let fr := Frame msg (pickFirstMatchingRule rules ctx) (f_fp fr) in
        match f_hit fr with
        | None => (Skip, fr)
        | Some hit =>
            match filterSupportedActions (hit_actions hit) with
            | Throw _ => (Threw, fr)
            | Ok [] => (Skip, fr)
            | Ok acts =>
                match actionFingerprint acts with
                | Throw _ => (Threw, fr)
                | Ok fp =>
                    let fr := Frame msg (Some hit) fp in
                    if alreadyApplied (m_id m) (r_id hit) fp rh led then (Skip, fr)
                    else match applyActions manifest (m_id m) (hit_actions hit) with
                         | Throw _ => (Threw, fr)
                         | Ok p => (Start (m_id m) (plan_calls p), fr)
                         end
                end
            end
        end
  end.

(** [while (inFlight < maxConcurrent && queue.length)] of the call of [pump]
    whose variables are number [k]: the jobs, the queue, whether the body threw,
    and the variables at the end. *)
Fixpoint pump_loop (k : nat) (led : storage) (fr : frame) (inflight : list job)
    (queue : list (option message)) : list job * list (option message) * bool * frame :=
  match queue with
  | [] => (inflight, [], false, fr)
  | m :: q =>
      if length inflight <? maxConcurrent then
        let '(v, fr) := consider led fr m in
        match v with
        | Skip => pump_loop k led fr inflight q
        | Start i calls => pump_loop k led fr (inflight ++ [Job i k calls]) q
        | Threw => (inflight, q, true, fr)
        end
      else (inflight, queue, false, fr)
  end.

Definition settle (s : settlement) (o : option settlement) : option settlement :=
  match o with None => Some s | Some _ => o end.

(** The first outstanding call of each job. *)
Definition issued (js : list job) : list (string * mcall) :=
  omap (fun j => match j_pending j with c :: _ => Some (j_id j, c) | [] => None end) js.

(** [pump()].  An exception rejects the pass only when it happens inside the
    executor of its promise, that is in the [first] call. *)
Definition pump (first : bool) (s : pass) : pass :=
  let '(infl, q, threw, fr) :=
    pump_loop (length (p_frames s)) (p_ledger s) fresh_frame (p_inflight s) (p_queue s) in
  let log := p_log s ++ issued (drop (length (p_inflight s)) infl) in
  let frames := p_frames s ++ [fr] in
  if threw then
    Pass q infl (p_reload s) (p_ledger s)
      (if first then settle Rejected (p_settled s) else p_settled s) (p_reloads s) log frames
  else
    match infl, q with
    | [], [] =>
        Pass q infl (p_reload s) (p_ledger s) (settle Resolved (p_settled s))
          (if p_reload s then S (p_reloads s) else p_reloads s) log frames
    | _, _ => Pass q infl (p_reload s) (p_ledger s) (p_settled s) (p_reloads s) log frames
    end.

(** ** Steps *)

(** [Ledger.record(msg.id, hit.id, fp, rh)] with the variables [fr]: reading a
    property of a missing [msg] or [hit] throws. *)
Definition record_frame (fr : frame) (led : storage) : res storage :=
  match f_msg fr, f_hit fr with
  | Some m, Some hit => Ok (record (m_id m) (r_id hit) (f_fp fr) rh led)
  | _, _ => Throw "TypeError"
  end.

(** The actions of a message succeeded: [Ledger.record] and [scheduleReload],
    both skipped when the first throws; [inFlight -= 1]; [pump()]. *)
Definition finish (j : job) (rest : list job) (s : pass) : pass :=
  let fr := default fresh_frame (p_frames s !! j_frame j) in
  let '(led, reload) := match record_frame fr (p_ledger s) with
                        | Ok led => (led, true)
                        | Throw _ => (p_ledger s, p_reload s)
                        end in
  pump false (Pass (p_queue s) rest reload led (p_settled s) (p_reloads s) (p_log s) (p_frames s)).

(** They failed: the error is ignored, [inFlight -= 1], [pump()]. *)
Definition drop_failed (rest : list job) (s : pass) : pass :=
  pump false (Pass (p_queue s) rest (p_reload s) (p_ledger s) (p_settled s) (p_reloads s) (p_log s) (p_frames s)).

(** The outstanding call of [j] completed and the next one is issued. *)
Definition advance (l1 l2 : list job) (j : job) (c : mcall) (cs : list mcall) (s : pass) : pass :=
  Pass (p_queue s) (l1 ++ Job (j_id j) (j_frame j) (c :: cs) :: l2) (p_reload s)
    (p_ledger s) (p_settled s) (p_reloads s) (p_log s ++ [(j_id j, c)]) (p_frames s).

Inductive step_ok : pass -> pass -> Prop :=
| step_next s l1 j l2 c0 c cs :
    p_inflight s = l1 ++ j :: l2 -> j_pending j = c0 :: c :: cs ->
    step_ok s (advance l1 l2 j c cs s)
| step_done s l1 j l2 :
    p_inflight s = l1 ++ j :: l2 -> length (j_pending j) <= 1 ->
    step_ok s (finish j (l1 ++ l2) s).

Inductive step : pass -> pass -> Prop :=
| step_success s s' : step_ok s s' -> step s s'
| step_failure s l1 j l2 c cs :
    p_inflight s = l1 ++ j :: l2 -> j_pending j = c :: cs ->
    step s (drop_failed (l1 ++ l2) s).
End Pass.

#[global] Arguments consider : simpl never.

(** ** The entry point *)

(** The own keys of [idSet]. *)
Definition message_ids (messages : list (option message)) : list string :=
  List.filter (fun i => negb (i =s? "")) (map m_id (omap id messages)).

(** The ledger operations before the first [pump]. *)
Definition prepare (rh : string) (messages : list (option message)) (led : storage) : storage :=
  pruneMissing (id_set (message_ids messages)) (syncRulesHash rh led).

Definition runInboxFilterPass `{Collation} (manifest : bool) (messages : list (option message))
    (rawRules : list (option rule)) (bodyById : string -> option string) (led : storage) : pass :=
  let rules := normalizeRules rawRules in
  let rh := stableRulesHash rules in
  let led := prepare rh messages led in
  pump rules rh bodyById manifest true (Pass messages [] false led None 0 [] []).

(** A pass started on [messages], after any number of completions. *)
Definition pass_reachable `{Collation} manifest messages rawRules bodyById led (s : pass) : Prop :=
  rtc (step (normalizeRules rawRules) (stableRulesHash (normalizeRules rawRules)) bodyById manifest)
      (runInboxFilterPass manifest messages rawRules bodyById led) s.

Example run_two_messages :
  let raw := [Some (sample_rule "r" 1 "z" mark_read_action)] in
  let s := runInboxFilterPass true [Some (sample_message "m1" "zz"); None; Some (sample_message "m2" "no")]
             raw (fun _ => None) fresh_storage in
  map j_id (p_inflight s) = ["m1"] /\ p_log s = [("m1", SetMessageRead)] /\ p_settled s = None.
Proof. by vm_compute. Qed.

(** ** The bound on concurrency *)

Section Bound.
Context (rules : list rule) (rh : string) (bodyById : string -> option string) (manifest : bool).
Local Abbreviation pump_loop := (pump_loop rules rh bodyById manifest).
Local Abbreviation pump := (pump rules rh bodyById manifest).
Local Abbreviation step := (step rules rh bodyById manifest).

Lemma pump_loop_bound k led fr infl q infl' q' t fr' :
  pump_loop k led fr infl q = (infl', q', t, fr') -> length infl <= maxConcurrent -> length infl' <= maxConcurrent.
Proof.
  revert fr infl. induction q as [|m q IH]; simpl; intros fr infl; [by intros [= <- <- <- <-]|].
  destruct (length infl <? maxConcurrent) eqn:E; [|by intros [= <- <- <- <-]]. bool_to_prop.
  destruct (consider _ _ _ _ led fr m) as [[]]; [by apply IH | | by intros [= <- <- <- <-]].
  intros Hp _. eapply IH; [exact Hp|]. rewrite length_app. simpl. lia.
Qed.

Lemma pump_inflight first s :
  p_inflight (pump first s) =
    (pump_loop (length (p_frames s)) (p_ledger s) fresh_frame (p_inflight s) (p_queue s)).1.1.1.
Proof. unfold FilterPass.pump. destruct (pump_loop _ _ _ _ _) as [[[[|]  [|]] []] ?]; done. Qed.

Lemma pump_bound first s :
  length (p_inflight s) <= maxConcurrent -> length (p_inflight (pump first s)) <= maxConcurrent.
Proof.
  rewrite pump_inflight. destruct (pump_loop _ _ _ _ _) as [[[infl q] t] fr] eqn:E. by eapply pump_loop_bound.
Qed.

(** [finish] is [pump] from a state with the same queue, jobs left and log. *)
Lemma finish_pump j rest s :
  exists led reload, FilterPass.finish rules rh bodyById manifest j rest s =
    pump false (Pass (p_queue s) rest reload led (p_settled s) (p_reloads s) (p_log s) (p_frames s)).
Proof. unfold finish. destruct (record_frame _ _ _); eauto. Qed.

Lemma length_remove {A} (l1 : list A) j l2 : length (l1 ++ l2) <= length (l1 ++ j :: l2).
Proof. rewrite !length_app. simpl. lia. Qed.

Lemma step_bound s s' :
  step s s' -> length (p_inflight s) <= maxConcurrent -> length (p_inflight s') <= maxConcurrent.
Proof.
  intros [? ? [x l1 j l2 c0 c cs E Ej | x l1 j l2 E Ej] | x l1 j l2 c cs E Ej]; rewrite E; intros Hb.
  - simpl. rewrite length_app in *. done.
  - destruct (finish_pump j (l1 ++ l2) x) as (led & rl & ->). apply pump_bound. simpl.
    pose proof (length_remove l1 j l2). lia.
  - apply pump_bound. simpl. pose proof (length_remove l1 j l2). lia.
Qed.
End Bound.

(** C14: at every moment of a pass, whatever completes or fails and in which
    order, at most [maxConcurrent] messages have their actions in flight. *)
Theorem pass_concurrency_bound `{Collation} manifest messages rawRules bodyById led s :
  pass_reachable manifest messages rawRules bodyById led s ->
  length (p_inflight s) <= maxConcurrent.
Proof.
  unfold pass_reachable. intros Hr.
  assert (length (p_inflight (runInboxFilterPass manifest messages rawRules bodyById led)) <= maxConcurrent) as H0.
  { apply pump_bound. simpl. lia. }
  induction Hr as [|x y z Hxy _ IH]; [done|]. apply IH. by eapply step_bound.
Qed.

Lemma pass_concurrency_bound_witness :
  length (p_inflight (runInboxFilterPass true
    (map (fun i => Some (sample_message i "z")) ["1"; "2"; "3"; "4"; "5"])
    [Some (sample_rule "r" 1 "z" mark_read_action)] (fun _ => None) fresh_storage)) <= maxConcurrent.
Proof. eapply pass_concurrency_bound. apply rtc_refl. Defined.

(** ** Termination *)

(** No element of a rule's actions is null, so reading its type cannot throw. *)
Definition well_formed_rules (rules : list rule) : Prop :=
  Forall (fun r => Forall (fun a => is_nullish a = false) (to_list (hit_actions r))) rules.

(** Actions of all the rules: no message has more calls than that. *)
Definition action_bound (rules : list rule) : nat :=
  list_sum (map (fun r => length (to_list (hit_actions r))) rules).

Lemma list_sum_elem x l : x ∈ l -> x <= list_sum l.
Proof. induction 1; simpl; lia. Qed.

Lemma getp_nonnull a k : is_nullish a = false -> exists v, getp a k = Ok v.
Proof. destruct a; simpl; eauto; done. Qed.

Lemma filterSupported_ok acts :
  Forall (fun a => is_nullish a = false) acts ->
  exists out, filterSupported_go acts = Ok out /\ Forall (fun a => is_nullish a = false) out /\ length out <= length acts.
Proof.
  induction 1 as [|a acts Ha _ (out & IH & Ho & Hl)]; simpl; [by exists []|].
  destruct (getp_nonnull a "type" Ha) as [t ->]. simpl. rewrite IH. simpl.
  destruct (flag_of _ _); [exists (a :: out) | exists out]; simpl; split_and!; auto; lia.
Qed.

Lemma filterSupported_length acts out : filterSupported_go acts = Ok out -> length out <= length acts.
Proof.
  revert out. induction acts as [|a acts IH]; simpl; intros out; [by intros [= <-]|].
  rewrite !res_bind_ok. intros (t & _ & H). apply res_bind_ok in H as (o & Ho & H). apply IH in Ho.
  destruct (flag_of _ _); simplify_eq/=; lia.
Qed.

Lemma fingerprint_ok acts : Forall (fun a => is_nullish a = false) acts -> exists fp, actionFingerprint acts = Ok fp.
Proof.
  intros H. unfold actionFingerprint.
  assert (exists l, res_mapM (fun a => t <~ getp a "type" ;; v <~ getp a "value" ;;
            Ok (JObj [("type", JStr (js_String (js_or t (JStr ""))));
                      ("value", JStr (if is_nullish v then "" else js_String v))])) acts = Ok l) as [l ->];
    [|by eexists].
  induction H as [|a acts Ha _ [l IH]]; simpl; [by eexists|].
  destruct (getp_nonnull a "type" Ha) as [t ->], (getp_nonnull a "value" Ha) as [v ->]. simpl. rewrite IH. by eexists.
Qed.

Lemma run_acts_length acts : length (run_acts acts).1 <= length acts.
Proof.
  induction acts as [|a acts IH]; simpl; [done|]. destruct (run_acts acts) as [calls sk]. simpl in *.
  repeat (case_match; simpl in *; try lia).
Qed.

Lemma applyActions_calls manifest i acts p :
  applyActions manifest i acts = Ok p -> length (plan_calls p) <= length (to_list acts).
Proof.
  unfold applyActions. destruct (_ || _); [intros [= <-]; simpl; lia|].
  rewrite res_bind_ok. intros (out & Ho & H). apply filterSupported_length in Ho.
  destruct out as [|a out]; [by simplify_eq/=; lia|].
  pose proof (run_acts_length (a :: out)) as Hl. destruct (run_acts (a :: out)) as [calls sk].
  simplify_eq/=. lia.
Qed.

Section Termination.
Context (rules : list rule) (rh : string) (bodyById : string -> option string) (manifest : bool).
Local Abbreviation consider := (consider rules rh bodyById manifest).
Local Abbreviation pump_loop := (pump_loop rules rh bodyById manifest).
Local Abbreviation pump := (pump rules rh bodyById manifest).
Local Abbreviation step := (step rules rh bodyById manifest).

(** The jobs [consider] starts: the first matching rule of a message with an
    id, its supported actions, not applied yet. *)
Lemma consider_start led fr om i cs fr' :
  consider led fr om = (Start i cs, fr') ->
  exists m hit acts fp p, om = Some m /\ m_id m <> "" /\
    pickFirstMatchingRule rules (buildContext m (bodyById (m_id m)) None) = Some hit /\
    filterSupportedActions (hit_actions hit) = Ok acts /\ acts <> [] /\ actionFingerprint acts = Ok fp /\
    alreadyApplied (m_id m) (r_id hit) fp rh led = false /\
    applyActions manifest (m_id m) (hit_actions hit) = Ok p /\
    i = m_id m /\ cs = plan_calls p /\ fr' = Frame (Some m) (Some hit) fp.
Proof.
  unfold FilterPass.consider. destruct om as [m|]; [|done].
  destruct (m_id m =s? "") eqn:E; [done|]. bool_to_prop. cbn [f_hit].
  destruct (pickFirstMatchingRule _ _) as [hit|] eqn:Eh; [|done].
  destruct (filterSupportedActions _) as [[|a acts]|] eqn:Ea; [done| |done].
  destruct (actionFingerprint _) as [fp|] eqn:Ef; [|done]. cbv zeta.
  destruct (alreadyApplied _ _ _ _ _) eqn:El; [done|].
  destruct (applyActions _ _ _) as [p|] eqn:Ep; [|done]. intros [= <- <- <-].
  exists m, hit, (a :: acts), fp, p. done.
Qed.

(** What it does depends on the message and the ledger, not on the variables. *)
Lemma consider_frame led fr1 fr2 om : (consider led fr1 om).1 = (consider led fr2 om).1.
Proof.
  unfold FilterPass.consider. destruct om as [m|]; [|done]. destruct (m_id m =s? ""); [done|]. cbn [f_hit].
  repeat (case_match; try done).
Qed.

Lemma consider_calls led fr om i cs fr' :
  consider led fr om = (Start i cs, fr') -> length cs <= action_bound rules.
Proof.
  intros (m & hit & acts & fp & p & _ & _ & Hh & _ & _ & _ & _ & Hp & _ & -> & _)%consider_start.
  apply applyActions_calls in Hp. etrans; [exact Hp|].
  apply List.find_some in Hh as [Hin%list_elem_of_In _].
  apply list_sum_elem. apply list_elem_of_fmap. eauto.
Qed.

Lemma consider_nothrow led fr om : well_formed_rules rules -> (consider led fr om).1 <> Threw.
Proof.
  intros Hwf. unfold FilterPass.consider. destruct om as [m|]; [|done].
  destruct (m_id m =s? ""); [done|]. cbn [f_hit].
  destruct (pickFirstMatchingRule _ _) as [hit|] eqn:Eh; [|done].
  apply List.find_some in Eh as [Hin%list_elem_of_In _].
  unfold well_formed_rules in Hwf. rewrite Forall_forall in Hwf. specialize (Hwf hit Hin).
  destruct (filterSupported_ok _ Hwf) as (out & Ho & Hnn & _). unfold filterSupportedActions. rewrite Ho.
  destruct out as [|a out]; [done|]. destruct (fingerprint_ok _ Hnn) as [fp ->].
  destruct (alreadyApplied _ _ _ _ _); [done|]. unfold applyActions, filterSupportedActions. rewrite Ho.
  destruct (_ || _); [done|]. cbn [res_bind]. by destruct (run_acts (a :: out)).
Qed.

Definition weight (js : list job) : nat := list_sum (map (fun j => S (length (j_pending j))) js).
Definition measure (s : pass) : nat := S (action_bound rules) * length (p_queue s) + weight (p_inflight s).

Lemma weight_app l1 l2 : weight (l1 ++ l2) = weight l1 + weight l2.
Proof. unfold weight. by rewrite map_app, list_sum_app. Qed.
Lemma weight_cons j l : weight (j :: l) = S (length (j_pending j)) + weight l.
Proof. done. Qed.

Lemma pump_loop_measure k led fr infl q infl' q' t fr' :
  pump_loop k led fr infl q = (infl', q', t, fr') ->
  S (action_bound rules) * length q' + weight infl' <= S (action_bound rules) * length q + weight infl.
Proof.
  revert fr infl. induction q as [|m q IH]; simpl; intros fr infl; [by intros [= <- <- <- <-]|].
  destruct (length infl <? maxConcurrent); [|intros [= <- <- <- <-]; simpl; lia].
  destruct (consider led fr m) as [[]] eqn:E.
  - intros Hp%IH. lia.
  - intros Hp%IH. apply consider_calls in E. rewrite weight_app, weight_cons in Hp. unfold weight at 3 in Hp. simpl in Hp. lia.
  - intros [= <- <- <- <-]. lia.
Qed.

Lemma pump_measure first s : measure (pump first s) <= measure s.
Proof.
  unfold measure, FilterPass.pump. destruct (pump_loop _ _ _ _ _) as [[[infl q] t] fr] eqn:E.
  apply pump_loop_measure in E. destruct t; [exact E|]. destruct infl, q; exact E.
Qed.

Lemma step_measure s s' : step s s' -> measure s' < measure s.
Proof.
  intros [? ? [x l1 j l2 c0 c cs E Ej | x l1 j l2 E Ej] | x l1 j l2 c cs E Ej];
    try (destruct (finish_pump rules rh bodyById manifest j (l1 ++ l2) x) as (led & rl & ->));
    try (eapply Nat.le_lt_trans; [apply pump_measure|]);
    unfold measure; simpl; rewrite E, !weight_app, !weight_cons; simpl; try rewrite Ej; simpl; lia.
Qed.

Lemma nsteps_measure n s s' : nsteps step n s s' -> n + measure s' <= measure s.
Proof. induction 1 as [|n x y z Hxy _ IH]; [done|]. apply step_measure in Hxy. lia. Qed.

(** *** The pass settles *)

Definition settled_inv (s : pass) : Prop :=
  (p_settled s = None /\ p_reloads s = 0 /\ p_inflight s <> []) \/
  (p_settled s = Some Resolved /\ p_inflight s = [] /\ p_queue s = [] /\
   p_reloads s = if p_reload s then 1 else 0).

Lemma pump_loop_full k led fr infl q infl' q' fr' :
  well_formed_rules rules -> pump_loop k led fr infl q = (infl', q', true, fr') -> False.
Proof.
  intros Hwf. revert fr infl. induction q as [|m q IH]; simpl; intros fr infl; [done|].
  destruct (length infl <? maxConcurrent); [|done].
  pose proof (consider_nothrow led fr m Hwf) as Hn.
  destruct (consider led fr m) as [[]] eqn:E; [apply IH | apply IH | done].
Qed.

Lemma pump_loop_idle k led fr infl q infl' q' fr' :
  pump_loop k led fr infl q = (infl', q', false, fr') -> infl' = [] -> q' = [].
Proof.
  revert fr infl. induction q as [|m q IH]; simpl; intros fr infl; [by intros [= <- <- <-]|].
  destruct (length infl <? maxConcurrent) eqn:E; [|intros [= <- <- <-] ->; done].
  destruct (consider led fr m) as [[]]; [apply IH | apply IH | done].
Qed.

Lemma pump_settled first s :
  well_formed_rules rules -> p_settled s = None -> p_reloads s = 0 -> settled_inv (pump first s).
Proof.
  intros Hwf Hs Hr. unfold FilterPass.pump. destruct (pump_loop _ _ _ _ _) as [[[infl q] t] fr] eqn:E.
  destruct t; [by apply pump_loop_full in E|].
  destruct infl as [|j infl]; [|left; simpl; by destruct q].
  apply pump_loop_idle in E as ->; [|done]. right. simpl. rewrite Hs, Hr. by destruct (p_reload s).
Qed.

Lemma step_settled s s' : well_formed_rules rules -> step s s' -> settled_inv s -> settled_inv s'.
Proof.
  intros Hwf [? ? [x l1 j l2 c0 c cs E Ej | x l1 j l2 E Ej] | x l1 j l2 c cs E Ej];
    (intros [(Hs & Hr & _)|(_ & Hi & _)]; [| rewrite Hi in E; by destruct l1]);
    try (destruct (finish_pump rules rh bodyById manifest j (l1 ++ l2) x) as (led & rl & ->));
    try (by apply pump_settled).
  left. split_and!; [done..|]. simpl. by destruct l1.
Qed.

Lemma can_step s : p_inflight s <> [] -> exists s', step s s'.
Proof.
  destruct (p_inflight s) as [|j l] eqn:E; [done|]. intros _.
  destruct (j_pending j) as [|c0 [|c cs]] eqn:Ej.
  - eexists. apply step_success. eapply (step_done _ _ _ _ s [] j l); [done|]. rewrite Ej. simpl. lia.
  - eexists. apply step_success. eapply (step_done _ _ _ _ s [] j l); [done|]. rewrite Ej. simpl. lia.
  - eexists. apply step_success. eapply (step_next _ _ _ _ s [] j l); done.
Qed.

(** *** Which messages ask for a reload *)

(** When the actions of [j] have succeeded, its continuation reads the variables [msg] and
    [hit] of its call of [pump] as the loop has left them: it records the message, and asks
    for a reload, only if both still hold something. *)
Definition can_record (j : job) (s : pass) : bool :=
  match p_frames s !! j_frame j with
  | Some fr => (if f_msg fr is Some _ then true else false) && (if f_hit fr is Some _ then true else false)
  | None => false
  end.

(** The executions of a pass, with the number of messages whose actions all succeeded and
    that could be recorded. *)
Inductive runs (init : pass) : nat -> pass -> Prop :=
| runs_start : runs init 0 init
| runs_next n s l1 j l2 c0 c cs :
    runs init n s -> p_inflight s = l1 ++ j :: l2 -> j_pending j = c0 :: c :: cs ->
    runs init n (advance l1 l2 j c cs s)
| runs_success n s l1 j l2 :
    runs init n s -> p_inflight s = l1 ++ j :: l2 -> length (j_pending j) <= 1 ->
    runs init (if can_record j s then S n else n) (finish rules rh bodyById manifest j (l1 ++ l2) s)
| runs_failure n s l1 j l2 c cs :
    runs init n s -> p_inflight s = l1 ++ j :: l2 -> j_pending j = c :: cs ->
    runs init n (drop_failed rules rh bodyById manifest (l1 ++ l2) s).

Lemma rtc_runs init s : rtc step init s -> exists n, runs init n s.
Proof.
  apply (rtc_ind_r (fun s => exists n, runs init n s)); [exists 0; constructor|].
  intros x y _ Hxy [n Hn]. destruct Hxy as [? ? [] | ]; eexists; [by eapply runs_next | by eapply runs_success | by eapply runs_failure].
Qed.
Lemma runs_rtc init n s : runs init n s -> rtc step init s.
Proof.
  induction 1 as [|n s l1 j l2 c0 c cs _ IH E Ej|n s l1 j l2 _ IH E Ej|n s l1 j l2 c cs _ IH E Ej]; [done|..];
    (eapply rtc_r; [exact IH|]); [apply step_success; by eapply step_next | apply step_success; by eapply step_done | by eapply step_failure].
Qed.

Lemma pump_reload first s : p_reload (FilterPass.pump rules rh bodyById manifest first s) = p_reload s.
Proof. unfold FilterPass.pump. destruct (pump_loop _ _ _ _ _) as [[[[|] [|]] []] ?]; done. Qed.

Lemma finish_reload j rest s : p_reload (finish rules rh bodyById manifest j rest s) = can_record j s || p_reload s.
Proof.
  unfold finish, can_record. destruct (p_frames s !! j_frame j) as [fr|]; simpl; [|by rewrite pump_reload].
  unfold record_frame. by destruct (f_msg fr), (f_hit fr); rewrite pump_reload.
Qed.

Lemma runs_reload init n s : p_reload init = false -> runs init n s -> p_reload s = negb (n =? 0).
Proof.
  intros H0. induction 1 as [|n s l1 j l2 c0 c cs _ IH E Ej|n s l1 j l2 _ IH E Ej|n s l1 j l2 c cs _ IH E Ej]; [done | done | |].
  - rewrite finish_reload, IH. by destruct (can_record j s).
  - unfold drop_failed. by rewrite pump_reload.
Qed.
End Termination.

(** C15: an inbox pass over well-formed rules always ends: no execution has more than
    [(1 + actions) * messages] completions, and a state that has no completion to wait for
    is the end of the pass, where the promise is resolved and the queue is empty.
    [onReload] is called once, and only at that end, if for some message all actions
    succeeded and the variables [msg] and [hit] of its [pump], which the loop has assigned
    anew for every later message it looked at, still hold a message and a rule; when there
    was no such message it is not called at all. *)
Theorem pass_settles `{Collation} manifest messages rawRules bodyById led :
  let rules := normalizeRules rawRules in
  let rh := stableRulesHash rules in
  let stp := step rules rh bodyById manifest in
  let init := runInboxFilterPass manifest messages rawRules bodyById led in
  well_formed_rules rules ->
  (forall n s, nsteps stp n init s -> n <= S (action_bound rules) * length messages) /\
  (forall s, rtc stp init s <-> exists n, runs rules rh bodyById manifest init n s) /\
  (forall n s, runs rules rh bodyById manifest init n s ->
     (p_settled s = None /\ p_reloads s = 0 /\ exists s', stp s s') \/
     (p_settled s = Some Resolved /\ p_inflight s = [] /\ p_queue s = [] /\
      p_reloads s = if n =? 0 then 0 else 1)).
Proof.
  intros rules rh stp init Hwf. split_and!.
  - intros n s Hn%nsteps_measure. unfold init, runInboxFilterPass in Hn.
    pose proof (pump_measure rules rh bodyById manifest true
      (Pass messages [] false (prepare rh messages led) None 0 [] [])) as Hp.
    unfold measure at 2 in Hp. simpl in Hp. fold rules in Hn. fold rh in Hn. unfold weight in Hp. simpl in Hp. lia.
  - intros s. split; [apply rtc_runs | intros [n Hn]; by eapply runs_rtc].
  - intros n s Hn. pose proof (runs_rtc _ _ _ _ _ _ _ Hn) as Hr.
    assert (p_reload init = false) as H0 by apply pump_reload.
    apply (runs_reload _ _ _ _ _ _ _ H0) in Hn.
    assert (settled_inv s) as [(Hs & Hi & Hf)|(Hs & Hi & Hq & Hl)].
    { assert (settled_inv init) as Hi by by apply pump_settled.
      clear Hn H0. induction Hr as [|x y z Hxy _ IH]; [done|]. apply IH. by eapply step_settled. }
    + left. split_and!; [done | done | by apply can_step].
    + right. split_and!; [done..|]. rewrite Hl, Hn. by destruct (n =? 0).
Qed.

Definition sample_init : pass :=
  runInboxFilterPass true [Some (sample_message "m1" "zz")] [Some (sample_rule "r" 1 "z" mark_read_action)]
    (fun _ => None) fresh_storage.

(** Its only message is marked read, the promise resolves, and the page is reloaded once. *)
Lemma pass_settles_witness :
  exists s, p_settled s = Some Resolved /\ p_reloads s = 1.
Proof.
  set (raw := [Some (sample_rule "r" 1 "z" mark_read_action)]).
  assert (well_formed_rules (normalizeRules raw)) as Hwf by (vm_compute; repeat constructor).
  destruct (pass_settles true [Some (sample_message "m1" "zz")] raw (fun _ => None) fresh_storage Hwf) as (_ & _ & Hend).
  set (j := Job "m1" 0 [SetMessageRead]).
  destruct (Hend 1 (finish (normalizeRules raw) (stableRulesHash (normalizeRules raw)) (fun _ => None) true j [] sample_init)) as [(Hs & _)|(Hs & _ & _ & Hl)].
  - apply (runs_success (normalizeRules raw) (stableRulesHash (normalizeRules raw)) (fun _ => None) true sample_init 0 sample_init [] j []);
      [constructor | vm_compute; reflexivity | vm_compute; constructor].
  - vm_compute in Hs. discriminate.
  - eexists. split; [exact Hs | exact Hl].
Defined.

(** ** What is called *)

(** The calls the first matching rule of [m] asks for. *)
Definition calls_for (rules : list rule) (bodyById : string -> option string) (manifest : bool) (m : message) : list mcall :=
  match pickFirstMatchingRule rules (buildContext m (bodyById (m_id m)) None) with
  | None => []
  | Some hit => match applyActions manifest (m_id m) (hit_actions hit) with
                | Ok p => plan_calls p
                | Throw _ => []
                end
  end.

(** The calls issued for one message, in order. *)
Definition log_of (i : string) (log : list (string * mcall)) : list mcall :=
  map snd (List.filter (fun p => p.1 =s? i) log).

Lemma log_of_app i l1 l2 : log_of i (l1 ++ l2) = log_of i l1 ++ log_of i l2.
Proof. unfold log_of. by rewrite List.filter_app, map_app. Qed.
Lemma log_of_same i c : log_of i [(i, c)] = [c].
Proof. unfold log_of. simpl. by rewrite String.eqb_refl. Qed.
Lemma log_of_other i k c : i <> k -> log_of i [(k, c)] = [].
Proof. intros H. unfold log_of. simpl. by rewrite (proj2 (String.eqb_neq k i)) by congruence. Qed.
#[export] Hint Rewrite log_of_app log_of_same : js_rew.

Lemma message_ids_cons om q :
  message_ids (om :: q) =
    match om with Some m => if m_id m =s? "" then message_ids q else m_id m :: message_ids q | None => message_ids q end.
Proof. unfold message_ids. destruct om as [m|]; simpl; [|done]. by destruct (m_id m =s? ""). Qed.

Lemma message_ids_elem i q : i ∈ message_ids q <-> i <> "" /\ exists m, Some m ∈ q /\ m_id m = i.
Proof.
  unfold message_ids. rewrite elem_of_filter_bool, negb_true_iff, String.eqb_neq.
  apply and_iff_compat_l. rewrite list_elem_of_fmap. split; intros (m & H1 & H2); exists m.
  - by rewrite <- elem_of_omap_id.
  - by rewrite elem_of_omap_id.
Qed.

Section Calls.
Context (rules : list rule) (rh : string) (bodyById : string -> option string) (manifest : bool).
Context (messages : list (option message)).
Local Abbreviation consider := (consider rules rh bodyById manifest).
Local Abbreviation pump_loop := (pump_loop rules rh bodyById manifest).
Local Abbreviation pump := (pump rules rh bodyById manifest).
Local Abbreviation step := (step rules rh bodyById manifest).
Local Abbreviation calls_for := (calls_for rules bodyById manifest).

Record calls_inv (infl : list job) (q : list (option message)) (log : list (string * mcall)) : Prop := {
  ci_nodup : NoDup (message_ids q ++ map j_id infl);
  ci_queued : forall m, Some m ∈ q -> m_id m <> "" -> log_of (m_id m) log = [];
  ci_sub : forall om, om ∈ q -> om ∈ messages;
  ci_running : forall m j, Some m ∈ messages -> j ∈ infl -> j_id j = m_id m ->
    log_of (m_id m) log ++ tail (j_pending j) = calls_for m;
  ci_prefix : forall m, Some m ∈ messages -> log_of (m_id m) log `prefix_of` calls_for m;
}.

Hypothesis Huniq : forall m1 m2, Some m1 ∈ messages -> Some m2 ∈ messages -> m_id m1 = m_id m2 -> m1 = m2.

Lemma calls_inv_skip infl om q log : calls_inv infl (om :: q) log -> calls_inv infl q log.
Proof.
  intros [Hn Hq Hs Hr Hp]. split; auto.
  - rewrite message_ids_cons in Hn. destruct om as [m|]; [|done]. destruct (_ =s? _); [done|].
    by apply NoDup_cons in Hn as [_ ?].
  - intros m Hm. apply Hq. by right.
  - intros o Ho. apply Hs. by right.
Qed.

Lemma calls_for_start led fr m i cs fr' :
  consider led fr (Some m) = (Start i cs, fr') -> i = m_id m /\ m_id m <> "" /\ cs = calls_for m.
Proof.
  intros (m' & hit & acts & fp & p & [= <-] & Hne & Hh & _ & _ & _ & _ & Hp & -> & -> & _)%consider_start.
  split_and!; [done..|]. unfold FilterPass.calls_for. by rewrite Hh, Hp.
Qed.

Lemma log_issued_other i j : i <> j_id j -> log_of i (issued [j]) = [].
Proof. intros H. unfold issued. simpl. destruct (j_pending j); [done|]. by apply log_of_other. Qed.

Lemma log_issued_same j : log_of (j_id j) (issued [j]) ++ tail (j_pending j) = j_pending j.
Proof. unfold issued. simpl. destruct (j_pending j); [done|]. by rewrite log_of_same. Qed.

Lemma calls_inv_start k led fr infl om q log i cs fr' :
  let j := Job i k cs in
  consider led fr om = (Start i cs, fr') -> calls_inv infl (om :: q) log ->
  calls_inv (infl ++ [j]) q (log ++ issued [j]).
Proof.
  intros j Hc Hinv. destruct om as [m|]; [|done].
  assert (j_id j = m_id m /\ m_id m <> "" /\ j_pending j = calls_for m) as (Hid & Hne & Hpend).
  { by apply calls_for_start in Hc. }
  clearbody j. clear Hc.
  pose proof (calls_inv_skip _ _ _ _ Hinv) as [_ Hq' Hs' _ _].
  destruct Hinv as [Hn Hq Hs Hr Hp]. rewrite message_ids_cons, (proj2 (String.eqb_neq _ _) Hne) in Hn.
  assert (Hlog : log_of (m_id m) log = []) by (apply Hq; [by left | done]).
  assert (Hm : Some m ∈ messages) by (apply Hs; by left).
  split; [| |done| |].
  - rewrite map_app. simpl. rewrite Hid, app_assoc, Permutation_app_comm. exact Hn.
  - intros m' Hm' Hne'. rewrite log_of_app, Hq', log_issued_other; [done | | done..].
    intros Heq. apply NoDup_cons in Hn as [Hn _]. apply Hn. rewrite elem_of_app, message_ids_elem. left.
    split; [done|]. exists m'. by rewrite Heq, Hid.
  - intros m' j' Hm' [Hj'| ->%list_elem_of_singleton]%elem_of_app Hj'id.
    + rewrite log_of_app, log_issued_other, app_nil_r; [by apply Hr|].
      rewrite Hid. intros Heq. apply NoDup_cons in Hn as [Hn _]. apply Hn. rewrite elem_of_app, list_elem_of_fmap. right.
      exists j'. split; [congruence | done].
    + assert (m' = m) as -> by (apply Huniq; congruence).
      rewrite log_of_app, Hlog, <- Hid, app_nil_l, log_issued_same. done.
  - intros m' Hm'. destruct (decide (m_id m' = m_id m)) as [He|He].
    + assert (m' = m) as -> by (by apply Huniq). rewrite log_of_app, Hlog, <- Hpend, app_nil_l, <- Hid.
      exists (tail (j_pending j)). by rewrite log_issued_same.
    + rewrite log_of_app, log_issued_other, app_nil_r by congruence. by apply Hp.
Qed.

Lemma pump_loop_calls k led fr infl q log infl' q' t fr' :
  pump_loop k led fr infl q = (infl', q', t, fr') -> calls_inv infl q log ->
  exists new, infl' = infl ++ new /\ calls_inv infl' q' (log ++ issued new).
Proof.
  revert fr infl log. induction q as [|m q IH]; simpl; intros fr infl log.
  - intros [= <- <- <- <-] H. exists []. by rewrite !app_nil_r.
  - destruct (length infl <? maxConcurrent).
    2: { intros [= <- <- <- <-] H. exists []. by rewrite !app_nil_r. }
    destruct (consider led fr m) as [[|i cs|] fr1] eqn:E; intros Hp Hinv.
    + eapply IH; [exact Hp|]. by eapply calls_inv_skip.
    + destruct (IH _ _ _ Hp (calls_inv_start k _ _ _ _ _ _ _ _ _ E Hinv)) as (new & -> & Hinv').
      exists (Job i k cs :: new). rewrite <- !app_assoc in *. split; [done|].
      unfold issued in *. change (Job i k cs :: new) with ([Job i k cs] ++ new). by rewrite omap_app.
    + simplify_eq. exists []. rewrite !app_nil_r. split; [done|]. by eapply calls_inv_skip.
Qed.

Definition pass_calls_inv (s : pass) : Prop := calls_inv (p_inflight s) (p_queue s) (p_log s).

Lemma pump_calls first s : pass_calls_inv s -> pass_calls_inv (pump first s).
Proof.
  unfold pass_calls_inv, FilterPass.pump. intros Hinv.
  destruct (pump_loop _ _ _ _ _) as [[[infl q] t] fr] eqn:E.
  destruct (pump_loop_calls _ _ _ _ _ _ _ _ _ _ E Hinv) as (new & -> & H). rewrite drop_app_length.
  destruct t; [exact H|]. destruct (p_inflight s ++ new), q; exact H.
Qed.

Lemma calls_inv_remove l1 j l2 q log : calls_inv (l1 ++ j :: l2) q log -> calls_inv (l1 ++ l2) q log.
Proof.
  intros [Hn Hq Hs Hr Hp]. split; auto.
  - rewrite !map_app in *. simpl in Hn. rewrite app_assoc, <- Permutation_middle, <- app_assoc in Hn.
    by apply NoDup_cons in Hn as [_ ?].
  - intros m j' Hm Hj'. apply Hr; [done|]. rewrite elem_of_app, elem_of_cons in *. tauto.
Qed.

Lemma nodup_job l1 j l2 q j' :
  NoDup (message_ids q ++ map j_id (l1 ++ j :: l2)) -> j' ∈ l1 ++ l2 -> j_id j' <> j_id j.
Proof.
  rewrite map_app. simpl. rewrite app_assoc, <- Permutation_middle. intros [Hn _]%NoDup_cons Hj' He. apply Hn.
  rewrite <- app_assoc, <- map_app, elem_of_app, list_elem_of_fmap. right. eauto.
Qed.

Lemma calls_inv_next l1 j l2 c0 c cs q log :
  j_pending j = c0 :: c :: cs -> calls_inv (l1 ++ j :: l2) q log ->
  calls_inv (l1 ++ Job (j_id j) (j_frame j) (c :: cs) :: l2) q (log ++ [(j_id j, c)]).
Proof.
  intros Ej [Hn Hq Hs Hr Hp]. split; [by rewrite map_app in * | | done | |].
  - intros m Hm Hne. rewrite log_of_app, Hq by done. rewrite log_of_other; [done|].
    intros He. rewrite map_app in Hn. simpl in Hn. rewrite app_assoc, <- Permutation_middle in Hn.
    apply NoDup_cons in Hn as [Hn _]. apply Hn. rewrite !elem_of_app, message_ids_elem, <- He. left; left; eauto.
  - intros m j' Hm Hj' Hid. rewrite log_of_app.
    assert (j' = Job (j_id j) (j_frame j) (c :: cs) \/ j' ∈ l1 ++ l2) as [->|Hin].
    { rewrite elem_of_app, elem_of_cons in *. tauto. }
    + simpl in *. rewrite <- Hid, log_of_same, Hid, <- app_assoc. simpl.
      rewrite <- (Hr m j), Ej; [done | done | rewrite elem_of_app, elem_of_cons; auto | done].
    + rewrite log_of_other, app_nil_r; [apply Hr; [done | rewrite elem_of_app, elem_of_cons in *; tauto | done]|].
      rewrite <- Hid. by eapply nodup_job.
  - intros m Hm. rewrite log_of_app. destruct (decide (m_id m = j_id j)) as [He|He].
    + exists cs. rewrite <- He, log_of_same, <- app_assoc. simpl.
      rewrite <- (Hr m j), Ej; [done | done | rewrite elem_of_app, elem_of_cons; auto | done].
    + rewrite log_of_other, app_nil_r by done. by apply Hp.
Qed.

Lemma step_calls s s' : step s s' -> pass_calls_inv s -> pass_calls_inv s'.
Proof.
  unfold pass_calls_inv.
  intros [? ? [x l1 j l2 c0 c cs E Ej | x l1 j l2 E Ej] | x l1 j l2 c cs E Ej]; rewrite E; intros Hinv.
  - by eapply calls_inv_next.
  - destruct (finish_pump rules rh bodyById manifest j (l1 ++ l2) x) as (led & rl & ->).
    apply pump_calls. unfold pass_calls_inv. simpl. by eapply calls_inv_remove.
  - apply pump_calls. unfold pass_calls_inv. simpl. by eapply calls_inv_remove.
Qed.
End Calls.

(** Messages of a pass have ids of their own. *)
Definition distinct_messages (messages : list (option message)) : Prop :=
  NoDup (map m_id (omap id messages)).

Lemma distinct_uniq messages m1 m2 :
  distinct_messages messages -> Some m1 ∈ messages -> Some m2 ∈ messages -> m_id m1 = m_id m2 -> m1 = m2.
Proof.
  unfold distinct_messages. rewrite <- !elem_of_omap_id. generalize (omap id messages). clear messages.
  induction l as [|x l IH]; simpl; [by intros _ ?%elem_of_nil|].
  intros [Hx Hn]%NoDup_cons H1 H2 He. apply elem_of_cons in H1, H2.
  destruct H1 as [->|H1], H2 as [->|H2]; [done | | | by apply IH].
  - destruct Hx. apply list_elem_of_fmap. exists m2. done.
  - destruct Hx. apply list_elem_of_fmap. exists m1. done.
Qed.

Lemma NoDup_filter_list {A} (f : A -> bool) (l : list A) : NoDup l -> NoDup (List.filter f l).
Proof. rewrite !NoDup_ListNoDup. apply List.NoDup_filter. Qed.

(** the manifest calls issued for a message are, at every moment of a pass
    and under every interleaving, an initial segment of the calls of its first
    matching rule, in that rule's order: no call is repeated, reordered, or
    made on behalf of another rule. *)
Theorem pass_calls_prefix `{Collation} manifest messages rawRules bodyById led s m :
  distinct_messages messages ->
  pass_reachable manifest messages rawRules bodyById led s ->
  Some m ∈ messages ->
  log_of (m_id m) (p_log s) `prefix_of` calls_for (normalizeRules rawRules) bodyById manifest m.
Proof.
  intros Hd Hr Hm. pose proof (fun m1 m2 => distinct_uniq messages m1 m2 Hd) as Hu.
  assert (pass_calls_inv (normalizeRules rawRules) bodyById manifest messages
            (runInboxFilterPass manifest messages rawRules bodyById led)) as H0.
  { apply pump_calls; [done|]. split; simpl; try done.
    - rewrite app_nil_r. by apply NoDup_filter_list.
    - by intros ? ? _ ?%elem_of_nil.
    - intros ? _. apply prefix_nil. }
  enough (pass_calls_inv (normalizeRules rawRules) bodyById manifest messages s) as [_ _ _ _ Hp] by by apply Hp.
  clear Hm. unfold pass_reachable in Hr. induction Hr as [|x y z Hxy _ IH]; [done|]. apply IH.
  eapply step_calls; [done | exact Hxy | done].
Qed.

Lemma pass_calls_prefix_witness :
  log_of "m1" (p_log sample_init) `prefix_of` [SetMessageRead].
Proof.
  apply (pass_calls_prefix true [Some (sample_message "m1" "zz")] [Some (sample_rule "r" 1 "z" mark_read_action)]
    (fun _ => None) fresh_storage sample_init (sample_message "m1" "zz")).
  - apply NoDup_singleton.
  - apply rtc_refl.
  - by left.
Defined.

(** ** What is recorded

    The continuations of a call of [pump] run after its loop, so they all see
    the variables as the last iteration left them. *)

Lemma prepare_healthy rh messages led : healthy led -> healthy (prepare rh messages led).
Proof. intros H. eapply step_healthy; [|apply step_prune]. eapply step_healthy; [done | apply step_sync]. Qed.

(** What the ledger answers after the preparation of a pass. *)
Lemma prepare_applied_iff rh messages i r fp led :
  healthy led ->
  alreadyApplied i r fp rh (prepare rh messages led) = true <->
  (i ∈ message_ids messages \/ i ∈ object_prototype_names) /\ alreadyApplied i r fp rh led = true.
Proof.
  intros Hl. unfold prepare. rewrite prune_applied_iff, sync_applied_iff; [tauto | done |].
  eapply step_healthy; [done | apply step_sync].
Qed.

Lemma prepare_idemp rh messages led :
  healthy led -> prepare rh messages (prepare rh messages led) = prepare rh messages led.
Proof.
  intros Hl. assert (healthy (syncRulesHash rh led)) as Hs by (eapply step_healthy; [done | apply step_sync]).
  assert (rulesHash (readStore (syncRulesHash rh led)) = rh) as Hrh.
  { rewrite sync_read by done. destruct (_ =s? _) eqn:E; bool_to_prop; done. }
  unfold prepare. set (L := syncRulesHash rh led) in *. set (ids := id_set _).
  assert (syncRulesHash rh (pruneMissing ids L) = pruneMissing ids L) as ->.
  { unfold syncRulesHash at 1, ensureRulesHash. rewrite prune_read by done. cbn [rulesHash]. by rewrite Hrh, String.eqb_refl. }
  unfold pruneMissing at 1. rewrite prune_read by done. cbn [rulesHash entries].
  unfold pruneMissing, writeStore. destruct Hs as [_ ->]. cbn.
  do 3 f_equal. apply map_filter_id. intros k e Hk. by apply map_lookup_filter_Some in Hk as [_ ?].
Qed.

Section Records.
Context (rules : list rule) (rh : string) (bodyById : string -> option string) (manifest : bool).
Local Abbreviation consider := (consider rules rh bodyById manifest).
Local Abbreviation pump_loop := (pump_loop rules rh bodyById manifest).
Local Abbreviation pump := (pump rules rh bodyById manifest).
Local Abbreviation step := (step rules rh bodyById manifest).
Local Abbreviation step_ok := (step_ok rules rh bodyById manifest).

(** The loop passes over [om]. *)
Definition skips (led : storage) (om : option message) : Prop := (consider led fresh_frame om).1 = Skip.

Lemma skips_frame led fr om : skips led om -> exists fr', consider led fr om = (Skip, fr').
Proof.
  unfold skips. rewrite (consider_frame rules rh bodyById manifest led fresh_frame fr om).
  destruct (consider led fr om) as [v fr']. simpl. intros ->. eauto.
Qed.

(** Jobs started by the loop of call [k] share its variables. *)
Lemma pump_loop_jobs k led fr infl q infl' q' t fr' :
  pump_loop k led fr infl q = (infl', q', t, fr') ->
  Forall (fun j => j_frame j = k) infl -> Forall (fun j => j_frame j = k) infl'.
Proof.
  revert fr infl. induction q as [|m q IH]; simpl; intros fr infl; [by intros [= <- <- <- <-]|].
  destruct (length infl <? maxConcurrent); [|by intros [= <- <- <- <-]].
  destruct (consider led fr m) as [[|i cs|] fr1]; [by apply IH | | by intros [= <- <- <- <-]].
  intros Hp Hk. eapply IH; [exact Hp|]. apply Forall_app. split; [done|]. by constructor.
Qed.

(** The variables at the end of a loop that took the last message [om]. *)
Lemma pump_loop_last k led fr infl q om infl' t fr' :
  pump_loop k led fr infl (q ++ [om]) = (infl', [], t, fr') ->
  exists fr0, (consider led fr0 om).2 = fr' /\ (t = true -> (consider led fr0 om).1 = Threw).
Proof.
  revert fr infl. induction q as [|m q IH]; simpl; intros fr infl.
  - destruct (length infl <? maxConcurrent); [|done].
    destruct (consider led fr om) as [[|i cs|] fr1] eqn:E; intros [= <- <- <-]; exists fr; by rewrite E.
  - destruct (length infl <? maxConcurrent); [|done].
    destruct (consider led fr m) as [[|i cs|] fr1] eqn:E; [apply IH | apply IH |].
    intros [= _ H _ _]. by destruct q.
Qed.

Lemma pump_loop_skips k led fr infl q :
  (forall om, om ∈ q -> skips led om) -> length infl < maxConcurrent ->
  exists fr', forall q2, pump_loop k led fr infl (q ++ q2) = pump_loop k led fr' infl q2.
Proof.
  revert fr. induction q as [|om q IH]; simpl; intros fr H Hl; [by exists fr|].
  rewrite (proj2 (Nat.ltb_lt _ _) Hl). destruct (skips_frame led fr om) as [fr1 ->]; [by apply H; left|].
  apply IH; [|done]. intros o Ho. apply H. by right.
Qed.

(** *** An unmatched message at the end of the list *)

(** No rule is looked for, or none is found. *)
Definition unmatched (om : option message) : Prop :=
  match om with
  | None => True
  | Some m => m_id m <> "" /\ pickFirstMatchingRule rules (buildContext m (bodyById (m_id m)) None) = None
  end.

Lemma consider_unmatched led fr om led' :
  unmatched om -> (consider led fr om).1 = Skip /\ exists e, record_frame rh (consider led fr om).2 led' = Throw e.
Proof.
  unfold FilterPass.consider. destruct om as [m|]; simpl; [|by eauto].
  intros [Hne Hp]. rewrite (proj2 (String.eqb_neq _ _) Hne), Hp. simpl. by eauto.
Qed.

(** Nothing can be recorded any more: the queue is empty and the variables of
    the running jobs make [record_frame] throw. *)
Record barren (led : storage) (s : pass) : Prop := {
  ba_queue : p_queue s = [];
  ba_ledger : p_ledger s = led;
  ba_reload : p_reload s = false;
  ba_reloads : p_reloads s = 0;
  ba_jobs : Forall (fun j => exists fr, p_frames s !! j_frame j = Some fr /\
                      forall l, exists e, record_frame rh fr l = Throw e) (p_inflight s);
}.

Lemma barren_pump first led s : barren led s -> barren led (pump first s).
Proof.
  intros [Hq Hl Hr Hn Hj]. unfold FilterPass.pump. rewrite Hq. simpl.
  destruct (p_inflight s) eqn:E; rewrite ?Hr; split; simpl; try done.
  eapply Forall_impl; [exact Hj|]. intros j' (fr & Hf & Ht). exists fr. split; [|done]. by apply lookup_app_l_Some.
Qed.

Lemma barren_step led s s' : step s s' -> barren led s -> barren led s'.
Proof.
  intros [? ? [x l1 j l2 c0 c cs E Ej | x l1 j l2 E Ej] | x l1 j l2 c cs E Ej] [Hq Hl Hr Hn Hj];
    rewrite E in Hj; apply Forall_app in Hj as [Hj1 [Hj Hj2]%Forall_cons].
  - split; simpl; try done. rewrite Forall_app, Forall_cons. done.
  - destruct Hj as (fr & Hf & Ht). unfold finish. rewrite Hf. simpl. destruct (Ht (p_ledger x)) as [e ->].
    apply barren_pump. split; simpl; try done. by rewrite Forall_app.
  - apply barren_pump. split; simpl; try done. by rewrite Forall_app.
Qed.

(** *** Recording keeps the others *)

Hypothesis Hrh : rh <> "".

Lemma skip_record led om i r fp :
  healthy led -> i <> "" -> r <> "" -> i <> "__proto__" ->
  (forall m, om = Some m -> m_id m <> i) -> skips led om -> skips (record i r fp rh led) om.
Proof.
  intros Hl H1 H2 H3 Hne. unfold skips, FilterPass.consider. destruct om as [m|]; [|done].
  specialize (Hne m eq_refl). destruct (m_id m =s? ""); [done|]. cbn [f_hit].
  destruct (pickFirstMatchingRule _ _) as [hit|]; [|done].
  destruct (filterSupportedActions _) as [[|a acts]|]; [done| |done].
  destruct (actionFingerprint _) as [fp'|]; [|done]. cbv zeta.
  destruct (alreadyApplied (m_id m) (r_id hit) fp' rh led) eqn:E.
  - rewrite (proj2 (record_applied_iff_gen i r fp rh _ _ _ _ led Hl H1 H2 Hrh H3)); [done|]. by right.
  - by destruct (applyActions _ _ _).
Qed.

Lemma skip_prepared messages led om :
  healthy led -> om ∈ messages -> skips led om -> skips (prepare rh messages led) om.
Proof.
  intros Hl Hom. unfold skips, FilterPass.consider. destruct om as [m|]; [|done].
  destruct (m_id m =s? "") eqn:Ei; [done|]. bool_to_prop. cbn [f_hit].
  destruct (pickFirstMatchingRule _ _) as [hit|]; [|done].
  destruct (filterSupportedActions _) as [[|a acts]|]; [done| |done].
  destruct (actionFingerprint _) as [fp|]; [|done]. cbv zeta.
  destruct (alreadyApplied (m_id m) (r_id hit) fp rh led) eqn:E; [|by destruct (applyActions _ _ _)].
  rewrite (proj2 (prepare_applied_iff rh messages _ _ _ _ Hl)); [done|].
  split; [left; apply message_ids_elem; eauto | done].
Qed.

(** The message a job was started for is skipped once its triple is recorded. *)
Lemma start_skip led fr om i cs fr' :
  consider led fr om = (Start i cs, fr') ->
  exists m hit, om = Some m /\ i = m_id m /\ i <> "" /\ hit ∈ rules /\ fr' = Frame (Some m) (Some hit) (f_fp fr') /\
    forall led', alreadyApplied i (r_id hit) (f_fp fr') rh led' = true -> skips led' om.
Proof.
  intros (m & hit & acts & fp & p & -> & Hne & Hh & Ha & Hacts & Hf & _ & Hp & -> & _ & ->)%consider_start.
  exists m, hit. split_and!; try done.
  - by apply List.find_some in Hh as [Hin%list_elem_of_In _].
  - intros led' Hap. unfold skips, FilterPass.consider. rewrite (proj2 (String.eqb_neq _ _) Hne). cbn [f_hit].
    rewrite Hh, Ha. destruct acts; [done|]. rewrite Hf. simpl in Hap. by rewrite Hap.
Qed.

(** The ledger only matters to [consider] through [alreadyApplied]. *)
Lemma start_ledger led led' fr om i cs fr' :
  consider led fr om = (Start i cs, fr') ->
  (forall r fp, alreadyApplied i r fp rh led' = true -> alreadyApplied i r fp rh led = true) ->
  forall fr2, exists fr2', consider led' fr2 om = (Start i cs, fr2').
Proof.
  intros (m & hit & acts & fp & p & -> & Hne & Hh & Ha & Hacts & Hf & Hap & Hp & -> & -> & _)%consider_start Hl fr2.
  unfold FilterPass.consider. rewrite (proj2 (String.eqb_neq _ _) Hne). cbn [f_hit]. rewrite Hh, Ha.
  destruct acts as [|a acts]; [done|]. rewrite Hf. cbv zeta.
  destruct (alreadyApplied _ _ _ _ led') eqn:E; [apply Hl in E; congruence|]. rewrite Hp. eauto.
Qed.
(** Both iterations that start a job leave the same variables. *)
Lemma consider_start_frame led fr om i cs fr' fr0 :
  consider led fr om = (Start i cs, fr') -> consider led fr0 om = (Start i cs, fr').
Proof.
  intros (m & hit & acts & fp & p & -> & Hne & Hh & Ha & Hacts & Hf & Hap & Hp & -> & -> & ->)%consider_start.
  unfold FilterPass.consider. rewrite (proj2 (String.eqb_neq _ _) Hne). cbn [f_hit]. rewrite Hh, Ha.
  destruct acts as [|a acts]; [done|]. rewrite Hf. cbv zeta. by rewrite Hap, Hp.
Qed.
End Records.

(** when the list ends with a message no rule matches and the first sweep
    reaches that end, nothing a pass does is ever remembered: whatever calls
    complete or fail, in any order, the ledger stays as the pass prepared it,
    the list is never reloaded, and the next pass on the same messages and rules
    is the same pass over again, with the same manifest calls. *)
Theorem unmatched_tail_never_recorded `{Collation} manifest messages om rawRules bodyById led s :
  let rules := normalizeRules rawRules in
  let init := runInboxFilterPass manifest (messages ++ [om]) rawRules bodyById led in
  unmatched rules bodyById om -> healthy led -> p_queue init = [] ->
  pass_reachable manifest (messages ++ [om]) rawRules bodyById led s ->
  p_ledger s = p_ledger init /\ p_reloads s = 0 /\
  runInboxFilterPass manifest (messages ++ [om]) rawRules bodyById (p_ledger s) = init.
Proof.
  intros rules init Hu Hl Hq Hr. set (rh := stableRulesHash rules). set (ms := messages ++ [om]) in *.
  assert (barren rh (prepare rh ms led) init) as Hb.
  { clear Hr. revert Hq. unfold init, runInboxFilterPass, pump. fold rules rh ms. cbn [p_queue p_inflight p_frames p_ledger p_log length].
    destruct (pump_loop _ _ _ _ _ _ _ _ _) as [[[infl q] t] fr] eqn:E. intros Hq.
    assert (q = []) as -> by (destruct t, infl, q; done). clear Hq.
    assert (Forall (fun j => j_frame j = 0) infl) as Hk by (eapply pump_loop_jobs; [exact E | done]).
    apply pump_loop_last in E as (fr0 & Hfr & Ht).
    assert (forall led', exists e, record_frame rh fr led' = Throw e) as Hrec.
    { intros led'. rewrite <- Hfr. by apply consider_unmatched. }
    destruct t; [exfalso; specialize (Ht eq_refl);
      rewrite (proj1 (consider_unmatched rules rh bodyById manifest _ fr0 om led Hu)) in Ht; done|].
    assert (Forall (fun j => exists fr', [fr] !! j_frame j = Some fr' /\
              forall l, exists e, record_frame rh fr' l = Throw e) infl) as Hj.
    { eapply Forall_impl; [exact Hk|]. intros j Hj. rewrite Hj. by exists fr. }
    destruct infl; split; done. }
  assert (barren rh (prepare rh ms led) s) as [_ Hls _ Hn _].
  { unfold pass_reachable in Hr. fold rules rh in Hr. revert Hr. fold init. clear -Hb.
    induction 1 as [|x y z Hxy _ IH]; [done|]. apply IH. by eapply barren_step. }
  rewrite Hls, Hn. destruct Hb as [_ -> _ _ _]. split_and!; [done..|].
  unfold init, runInboxFilterPass. fold rules rh. by rewrite prepare_idemp.
Qed.

Definition sample_rules : list (option rule) := [Some (sample_rule "r" 1 "z" mark_read_action)].

(** A matching message followed by one that no rule matches. *)
Definition sample_tail_pass (led : storage) : pass :=
  runInboxFilterPass true ([Some (sample_message "m1" "zz")] ++ [Some (sample_message "m2" "no")])
    sample_rules (fun _ => None) led.

Lemma unmatched_tail_never_recorded_witness :
  p_log (sample_tail_pass (p_ledger (sample_tail_pass fresh_storage))) = [("m1", SetMessageRead)].
Proof.
  assert (p_log (sample_tail_pass fresh_storage) = [("m1", SetMessageRead)]) as <- by (vm_compute; reflexivity).
  unfold sample_tail_pass at 1 3. refine (f_equal p_log (proj2 (proj2 (unmatched_tail_never_recorded true
    [Some (sample_message "m1" "zz")] (Some (sample_message "m2" "no")) sample_rules (fun _ => None) fresh_storage
    (sample_tail_pass fresh_storage) _ _ _ _)))).
  - split; [done | vm_compute; reflexivity].
  - split; reflexivity.
  - vm_compute. reflexivity.
  - apply rtc_refl.
Defined.

Lemma normalized_ids `{Collation} raw r : r ∈ normalizeRules raw -> r_id r <> "".
Proof.
  intros [Hk _]%normalizeRules_elem He. unfold rule_kept in Hk. rewrite He in Hk. bool_to_prop. done.
Qed.

(** A pass whose list has one message that is started, at its end. *)
Lemma pass_one_start `{Collation} manifest pre om raw bodyById led i cs fr :
  let rules := normalizeRules raw in
  let rh := stableRulesHash rules in
  let led0 := prepare rh (pre ++ [om]) led in
  (forall o, o ∈ pre -> skips rules rh bodyById manifest led0 o) ->
  (forall fr0, consider rules rh bodyById manifest led0 fr0 om = (Start i cs, fr)) ->
  runInboxFilterPass manifest (pre ++ [om]) raw bodyById led =
    Pass [] [Job i 0 cs] false led0 None 0 (issued [Job i 0 cs]) [fr].
Proof.
  intros rules rh led0 Hpre Hom. unfold runInboxFilterPass, pump. fold rules rh led0.
  cbn [p_queue p_inflight p_frames p_ledger p_log length].
  destruct (pump_loop_skips rules rh bodyById manifest 0 led0 fresh_frame [] pre Hpre) as [fr0 ->];
    [unfold maxConcurrent; simpl; lia|].
  simpl. by rewrite Hom.
Qed.

(** A pass all of whose messages are passed over. *)
Lemma pass_all_skipped `{Collation} manifest messages raw bodyById led :
  let rules := normalizeRules raw in
  let rh := stableRulesHash rules in
  (forall o, o ∈ messages -> skips rules rh bodyById manifest (prepare rh messages led) o) ->
  exists fr, runInboxFilterPass manifest messages raw bodyById led =
    Pass [] [] false (prepare rh messages led) (Some Resolved) 0 [] [fr].
Proof.
  intros rules rh Hall. unfold runInboxFilterPass, pump. fold rules rh.
  cbn [p_queue p_inflight p_frames p_ledger p_log length].
  destruct (pump_loop_skips rules rh bodyById manifest 0 (prepare rh messages led) fresh_frame [] messages Hall)
    as [fr Hfr]; [unfold maxConcurrent; simpl; lia|].
  specialize (Hfr []). rewrite app_nil_r in Hfr. rewrite Hfr. by exists fr.
Qed.

(** The pass on one message, after its only call returned. *)
Definition sample_end : pass :=
  let rules := normalizeRules sample_rules in
  match p_inflight sample_init with
  | j :: _ => finish rules (stableRulesHash rules) (fun _ => None) true j [] sample_init
  | [] => sample_init
  end.

(** The only job of a pass, run to its end: its variables are recorded. *)
Lemma one_job_run rules rh bodyById manifest i cs led0 led1 log fr s :
  record_frame rh fr led0 = Ok led1 ->
  rtc (step_ok rules rh bodyById manifest) (Pass [] [Job i 0 cs] false led0 None 0 log [fr]) s ->
  p_inflight s = [] -> p_ledger s = led1.
Proof.
  intros Hrec Hrun.
  remember (Pass [] [Job i 0 cs] false led0 None 0 log [fr]) as init eqn:Hi.
  assert ((exists cs' log', init = Pass [] [Job i 0 cs'] false led0 None 0 log' [fr])
            \/ p_ledger init = led1 /\ p_inflight init = []) as H0 by (left; eauto).
  clear Hi. induction Hrun as [x | x y z Hxy _ IH].
  - intros Hend. destruct H0 as [(cs' & log' & ->) | [? _]]; done.
  - intros Hend. apply IH; [|done]. clear IH.
    destruct H0 as [(cs' & log' & Hx)|[_ Hx]].
    2: { destruct Hxy as [? l1 ? ? ? ? ? E _ | ? l1 ? ? E _]; rewrite Hx in E; by destruct l1. }
    destruct Hxy as [x l1 j l2 c0 c cs2 E Ej | x l1 j l2 E Ej]; rewrite Hx in E; simpl in E;
      (destruct l1 as [|? [|]]; simplify_eq/=; [|done..]).
    + left. unfold advance. simpl. eauto.
    + right. unfold finish. simpl. by rewrite Hrec.
Qed.

(** a pass over a list whose only message to act on is its last one is
    idempotent: once it ended with no failed call, running it again on the same
    messages and rules issues no manifest call, reloads nothing and resolves at
    once. *)
Theorem single_tail_pass_idempotent `{Collation} manifest pre m rawRules bodyById led s :
  let rules := normalizeRules rawRules in
  let rh := stableRulesHash rules in
  let ms := pre ++ [Some m] in
  well_formed_rules rules -> healthy led -> m_id m <> "__proto__" ->
  (forall o, Some o ∈ pre -> m_id o <> m_id m) ->
  (forall o, o ∈ pre -> skips rules rh bodyById manifest (prepare rh ms led) o) ->
  rtc (step_ok rules rh bodyById manifest) (runInboxFilterPass manifest ms rawRules bodyById led) s ->
  p_inflight s = [] ->
  let again := runInboxFilterPass manifest ms rawRules bodyById (p_ledger s) in
  p_log again = [] /\ p_inflight again = [] /\ p_reloads again = 0 /\ p_settled again = Some Resolved.
Proof.
  intros rules rh ms Hwf Hl Hproto Huniq Hpre Hrun Hend. set (led0 := prepare rh ms led) in *.
  assert (healthy led0) as Hl0 by by apply prepare_healthy.
  assert (Hrh : rh <> "") by apply stableRulesHash_nonempty.
  enough (forall o, o ∈ ms -> skips rules rh bodyById manifest (prepare rh ms (p_ledger s)) o) as Hskip.
  { destruct (pass_all_skipped manifest ms rawRules bodyById (p_ledger s) Hskip) as [fr ->]. done. }
  destruct (consider rules rh bodyById manifest led0 fresh_frame (Some m)) as [v fr] eqn:Ec.
  pose proof (consider_nothrow rules rh bodyById manifest led0 fresh_frame (Some m) Hwf) as Hnt.
  rewrite Ec in Hnt. destruct v as [|i cs|]; [| |done].
  - assert (forall o, o ∈ ms -> skips rules rh bodyById manifest led0 o) as Hall.
    { intros o [?| ->%list_elem_of_singleton]%elem_of_app; [by apply Hpre|]. unfold skips. by rewrite Ec. }
    destruct (pass_all_skipped manifest ms rawRules bodyById led Hall) as [fr' Hfr]. rewrite Hfr in Hrun.
    apply rtc_inv in Hrun as [<-|(y & Hy & _)]; [simpl; fold led0; intros; unfold led0; rewrite prepare_idemp by done; by apply Hall|].
    inversion Hy as [? l1 ? ? ? ? ? E | ? l1 ? ? E]; by destruct l1.
  - destruct (start_skip rules rh bodyById manifest _ _ _ _ _ _ Ec) as (m' & hit & [= <-] & -> & Hne & Hhit & Hfr & Hafter).
    assert (Hrid : r_id hit <> "") by by eapply normalized_ids.
    set (led1 := record (m_id m) (r_id hit) (f_fp fr) rh led0).
    assert (healthy led1) as Hl1 by (eapply step_healthy; [exact Hl0 | apply step_record]).
    assert (p_ledger s = led1) as ->.
    { rewrite (pass_one_start manifest pre (Some m) rawRules bodyById led (m_id m) cs fr) in Hrun; [| exact Hpre |].
      - eapply one_job_run; [|exact Hrun | done]. rewrite Hfr. done.
      - intros fr0. by eapply consider_start_frame. }
    intros o Ho. apply skip_prepared; [done..|].
    apply elem_of_app in Ho as [Ho| ->%list_elem_of_singleton].
    + apply skip_record; [done..| |by apply Hpre]. intros o' ->. by apply Huniq.
    + apply Hafter. apply record_applied_iff_gen; [done..|]. by left.
Qed.

Lemma single_tail_pass_idempotent_witness :
  p_log (runInboxFilterPass true ([] ++ [Some (sample_message "m1" "zz")]) sample_rules (fun _ => None) (p_ledger sample_end)) = [].
Proof.
  refine (proj1 (single_tail_pass_idempotent true [] (sample_message "m1" "zz") sample_rules
    (fun _ => None) fresh_storage sample_end _ _ _ _ _ _ _)).
  - vm_compute. repeat constructor.
  - done.
  - done.
  - by intros o ?%elem_of_nil.
  - by intros o ?%elem_of_nil.
  - apply rtc_once. unfold sample_end.
    assert (exists j, p_inflight sample_init = [j] /\ length (j_pending j) <= 1) as (j & Hj & Hlj).
    { eexists. split; [vm_compute; reflexivity | simpl; lia]. }
    rewrite Hj. by apply (step_done _ _ _ _ sample_init [] j []).
  - vm_compute. reflexivity.
Defined.

(** a success can hide a failure: when the first sweep starts two
    messages and stops, the completion of the first is recorded under the name
    of the second.  If the calls of the second then fail, it is nevertheless
    taken to be done and the next pass only repeats the first. *)
Theorem success_masks_failure `{Collation} manifest m1 m2 rawRules bodyById led c1 c2 :
  let rules := normalizeRules rawRules in
  let run := runInboxFilterPass manifest [Some m1; Some m2] rawRules bodyById in
  healthy led -> m_id m1 <> m_id m2 -> m_id m2 <> "__proto__" ->
  p_inflight (run led) = [Job (m_id m1) 0 [c1]; Job (m_id m2) 0 [c2]] ->
  exists s, rtc (step rules (stableRulesHash rules) bodyById manifest) (run led) s /\
    p_settled s = Some Resolved /\ p_log s = [(m_id m1, c1); (m_id m2, c2)] /\
    p_inflight (run (p_ledger s)) = [Job (m_id m1) 0 [c1]].
Proof.
  intros rules run Hl Hne Hproto Hin. set (rh := stableRulesHash rules). set (ms := [Some m1; Some m2]) in *.
  set (led0 := prepare rh ms led).
  assert (healthy led0) as Hl0 by by apply prepare_healthy.
  assert (Hrh : rh <> "") by apply stableRulesHash_nonempty.
  assert (exists fr1 fr2, consider rules rh bodyById manifest led0 fresh_frame (Some m1) = (Start (m_id m1) [c1], fr1) /\
    consider rules rh bodyById manifest led0 fr1 (Some m2) = (Start (m_id m2) [c2], fr2) /\
    run led = Pass [] [Job (m_id m1) 0 [c1]; Job (m_id m2) 0 [c2]] false led0 None 0 [(m_id m1, c1); (m_id m2, c2)] [fr2])
    as (fr1 & fr2 & E1 & E2 & Hrun).
  { revert Hin. unfold run, runInboxFilterPass, pump. fold rules rh led0. simpl.
    destruct (consider rules rh bodyById manifest led0 fresh_frame (Some m1)) as [v1 fr1] eqn:E1.
    destruct (consider rules rh bodyById manifest led0 fr1 (Some m2)) as [v2 fr2] eqn:E2.
    destruct v1, v2; simpl; rewrite ?E2; simpl; intros; simplify_eq/=. by exists fr1, fr2. }
  destruct (start_skip rules rh bodyById manifest _ _ _ _ _ _ E2) as (m' & hit & [= <-] & _ & Hne2 & Hhit & Hfr & Hafter).
  assert (Hrid : r_id hit <> "") by by eapply normalized_ids.
  set (led1 := record (m_id m2) (r_id hit) (f_fp fr2) rh led0).
  assert (healthy led1) as Hl1 by (eapply step_healthy; [exact Hl0 | apply step_record]).
  rewrite Hrun.
  exists (Pass [] [] true led1 (Some Resolved) 1 [(m_id m1, c1); (m_id m2, c2)] [fr2; fresh_frame; fresh_frame]).
  split_and!; [|done..|].
  - eapply rtc_l; [apply step_success, (step_done _ _ _ _ _ [] (Job (m_id m1) 0 [c1]) [Job (m_id m2) 0 [c2]]); [done | simpl; lia]|].
    unfold finish. simpl. rewrite Hfr. simpl.
    eapply rtc_l; [eapply (step_failure _ _ _ _ _ [] (Job (m_id m2) 0 [c2]) []); done|].
    apply rtc_refl.
  - cbn [p_ledger]. unfold run, runInboxFilterPass, pump. fold rules rh ms. cbn [p_queue p_inflight p_frames p_ledger length].
    destruct (start_ledger rules rh bodyById manifest led0 (prepare rh ms led1) _ _ _ _ _ E1) with (fr2 := fresh_frame) as [fr3 E3].
    { intros r fp Ha. apply prepare_applied_iff in Ha as [_ Ha]; [|done].
      apply record_applied_iff_gen in Ha as [(? & _)|(_ & _ & ?)]; done. }
    destruct (skips_frame rules rh bodyById manifest (prepare rh ms led1) fr3 (Some m2)) as [fr4 E4].
    { apply skip_prepared; [done | by right; left |]. apply Hafter. apply record_applied_iff_gen; [done..|]. by left. }
    unfold ms at 2. simpl. rewrite E3. simpl. rewrite E4. done.
Qed.

Lemma success_masks_failure_witness :
  exists s, p_settled s = Some Resolved /\
    map j_id (p_inflight (runInboxFilterPass true [Some (sample_message "m1" "zz"); Some (sample_message "m2" "z")]
      sample_rules (fun _ => None) (p_ledger s))) = ["m1"].
Proof.
  destruct (success_masks_failure true (sample_message "m1" "zz") (sample_message "m2" "z") sample_rules (fun _ => None)
    fresh_storage SetMessageRead SetMessageRead) as (s & _ & Hs & _ & Hi); [done..| vm_compute; reflexivity |].
  exists s. split; [exact Hs|]. exact (f_equal (map j_id) Hi).
Defined.

(** the pass never hands a message size to the matcher, so a rule with a
    size condition never fires on the client, whatever the size of the message
    and the other conditions. *)
Theorem size_condition_never_fires r fs m bodyText :
  JObj fs ∈ to_list (r_conditions r) ->
  action_type (field "type" fs) = "size" ->
  ruleMatches r (buildContext m bodyText None) = false.
Proof.
  intros Hin Hty. unfold ruleMatches. destruct (to_list (r_conditions r)) as [|c l] eqn:E; [done|].
  rewrite <- E in *. clear E. apply not_true_is_false. rewrite List.forallb_forall. intros H.
  apply list_elem_of_In, H in Hin. revert Hin. unfold conditionMatches. simpl.
  unfold action_type in Hty. rewrite Hty. done.
Qed.

Lemma size_condition_never_fires_witness :
  ruleMatches (Rule "r" (JBool true) (Some 1%Z) JUndef
      (JArr [JObj [("type", JStr "size"); ("operator", JStr "less_than"); ("value", JStr "100")]]) mark_read_action)
    (buildContext (sample_message "m" "z") None None) = false.
Proof.
  eapply size_condition_never_fires; [simpl; left; reflexivity | reflexivity].
Defined.
