(* ===== verification/VaultStore.v ===== *)
(** * The browser storage of the key vault ([static/auth/unlock.js])

    Which of [sessionStorage] and [localStorage] the vault uses, the
    trusted-device flag and the cached account key.  [storage] and
    [readTrustedDeviceFlag] call each other and neither has a base case: every
    call runs until the engine's stack is full, the innermost [storage] catches
    the [RangeError], and the answers come back up from there.  The stack left
    at a call is therefore a parameter of the model. *)
From Stdlib Require Import ZArith Lia.
From S2P Require Import Prelude JsString JsValue.

Definition PERSIST_KEY : string := "elvish-keyvault-account-v1".
Definition TRUSTED_DEVICE_KEY : string := "elvish-trusted-device-v1".

(** The object [persistAccountCache] writes. *)
Record pcache := PCache {
  pc_version : Z;
  pc_sessionEmail : string;
  pc_accountArmoredPriv : string;
  pc_accountArmoredPub : string;
  pc_accountFingerprint : string;
  pc_storedAtMs : Z;
  pc_trustedDevice : bool;
}.

(** An item is text, or the JSON text of such an object. *)
Inductive item := IText (s : string) | ICache (c : pcache).

(** One of the two storages; every method throws when it does not work. *)
Record wstore := WStore {
  ws_items : gmap string item;
  ws_works : bool;
}.

Inductive area := Session | Local.

(** [globalThis.sessionStorage] and [globalThis.localStorage]. *)
Record web := Web {
  sessionStorage : option wstore;
  localStorage : option wstore;
}.

Definition get_area (a : area) (w : web) : option wstore :=
  match a with Session => sessionStorage w | Local => localStorage w end.
Definition set_area (a : area) (s : option wstore) (w : web) : web :=
  match a with
  | Session => Web s (localStorage w)
  | Local => Web (sessionStorage w) s
  end.

(** [s.getItem(k)]; a method call that throws is [Throw]. *)
Definition getItem (k : string) (s : wstore) : res (option item) :=
  if ws_works s then Ok (ws_items s !! k) else Throw "SecurityError".
(** [try { s.setItem(k, v) } catch (_) {}] and the same for [removeItem]. *)
Definition try_setItem (k : string) (v : item) (s : wstore) : wstore :=
  if ws_works s then WStore (<[k := v]> (ws_items s)) true else s.
Definition try_removeItem (k : string) (s : wstore) : wstore :=
  if ws_works s then WStore (delete k (ws_items s)) true else s.
Definition on_area (f : wstore -> wstore) (a : area) (w : web) : web :=
  set_area a (f <$> get_area a w) w.

(** [s.getItem(TRUSTED_DEVICE_KEY) === "1"] in its [try]. *)
Definition flag_is_set (w : web) (a : area) : bool :=
  match getItem TRUSTED_DEVICE_KEY <$> get_area a w with
  | Some (Ok (Some (IText s))) => s =? "1"
  | _ => false
  end%string.

(** ** The mutual recursion *)

Section Stack.
Variable slack : nat.   (* frames the engine's own functions need *)
Variable w : web.

(** [storage()] and [readTrustedDeviceFlag()] called with room for [d] more
    frames.  The call itself overflows when there is none.  Reading
    [globalThis.localStorage] or calling [getItem] overflows when fewer than
    [slack] are left, inside a [try] in both functions. *)
Fixpoint storage_at (d : nat) : res (option area) :=
  match d with
  | O => Throw "RangeError"
  | S d =>
      Ok (match flag_at d with
          | Throw _ => None
          | Ok trusted =>
              let a := if trusted then Local else Session in
              if slack <=? d then (if get_area a w is Some _ then Some a else None) else None
          end)
  end
with flag_at (d : nat) : res bool :=
  match d with
  | O => Throw "RangeError"
  | S d =>
      match storage_at d with
      | Throw e => Throw e
      | Ok None => Ok false
      | Ok (Some a) => Ok ((slack <=? d) && flag_is_set w a)
      end
  end.
End Stack.

(** The area [storage] settles on, given what [readTrustedDeviceFlag] said. *)
Definition chosen (slack : nat) (w : web) (d : nat) (flag : res bool) : option area :=
  match flag with
  | Throw _ => None
  | Ok trusted =>
      let a := if trusted then Local else Session in
      if slack <=? d then (if get_area a w is Some _ then Some a else None) else None
  end.

Lemma storage_at_S slack w d : storage_at slack w (S d) = Ok (chosen slack w d (flag_at slack w d)).
Proof. done. Qed.

Lemma flag_at_SS slack w d :
  flag_at slack w (S (S d)) =
    match chosen slack w d (flag_at slack w d) with
    | None => Ok false
    | Some a => Ok ((slack <=? S d) && flag_is_set w a)
    end.
Proof. done. Qed.
#[global] Arguments storage_at : simpl never.
#[global] Arguments flag_at : simpl never.

(** The call sites, each with the stack it leaves beyond two frames. *)
Inductive site := AtPersist | AtPersistFlag | AtClearFlag | AtSet | AtApply | AtRead | AtQuery.

Record engine := Engine {
  en_slack : nat;
  en_room : site -> nat;
}.

Definition storage (e : engine) (at_ : site) (w : web) : option area :=
  match storage_at (en_slack e) w (S (S (en_room e at_))) with Ok o => o | Throw _ => None end.

Definition readTrustedDeviceFlag (e : engine) (at_ : site) (w : web) : bool :=
  match flag_at (en_slack e) w (S (S (en_room e at_))) with Ok b => b | Throw _ => false end.

(** ** Operations *)

Definition normalizeEmail (email : string) : string := to_lower (trim email).

Definition clearAllPersistedCaches (w : web) : web :=
  on_area (try_removeItem PERSIST_KEY) Local (on_area (try_removeItem PERSIST_KEY) Session w).

Definition clearPersistedAccountCache : web -> web := clearAllPersistedCaches.

(** [accountArmoredPriv] and [accountFingerprint] come from the vault. *)
Definition persistAccountCache (e : engine) (now : Z) (accountArmoredPriv accountFingerprint : string)
    (sessionEmail accountArmoredPub : string) (w : web) : web :=
  match storage e AtPersist w with
  | None => w
  | Some a =>
      if (accountArmoredPriv =s? "") || (accountArmoredPub =s? "") then w
      else on_area (try_setItem PERSIST_KEY
             (ICache (PCache 1 (normalizeEmail sessionEmail) accountArmoredPriv accountArmoredPub
                        accountFingerprint now (readTrustedDeviceFlag e AtPersistFlag w)))) a w
  end.

Definition clearTrustedDeviceFlag (e : engine) (w : web) : web :=
  match storage e AtClearFlag w with
  | None => w
  | Some a => on_area (try_removeItem TRUSTED_DEVICE_KEY) a w
  end.

(** The storage part of [setTrustedDevice]. *)
Definition store_trusted_flag (e : engine) (enabled : bool) (w : web) : web :=
  match storage e AtSet w with
  | None => w
  | Some a =>
      on_area (if enabled then try_setItem TRUSTED_DEVICE_KEY (IText "1")
               else try_removeItem TRUSTED_DEVICE_KEY) a w
  end.

(** One store of the loop of [readPersistedAccountCache]. *)
Definition usable_cache (s : option wstore) : option pcache :=
  match getItem PERSIST_KEY <$> s with
  | Some (Ok (Some (ICache c))) =>
      if negb (pc_version c =? 1)%Z then None
      else if (pc_accountArmoredPriv c =s? "") || (pc_accountArmoredPub c =s? "") then None
      else Some c
  | _ => None
  end.

Definition readPersistedAccountCache (e : engine) (w : web) : option pcache * web :=
  let stores := if readTrustedDeviceFlag e AtRead w
                then [localStorage w; sessionStorage w]
                else [sessionStorage w; localStorage w] in
  match omap usable_cache stores with
  | c :: _ => (Some c, w)
  | [] => (None, clearAllPersistedCaches w)
  end.

(** ** Lemmas *)

Lemma storage_total e at_ w : exists o, storage_at (en_slack e) w (S (S (en_room e at_))) = Ok o /\ storage e at_ w = o.
Proof. unfold storage. rewrite storage_at_S. eauto. Qed.

Lemma flag_total e at_ w :
  exists b, flag_at (en_slack e) w (S (S (en_room e at_))) = Ok b /\ readTrustedDeviceFlag e at_ w = b.
Proof. unfold readTrustedDeviceFlag. rewrite flag_at_SS. destruct (chosen _ _ _ _); eauto. Qed.

Lemma chosen_session slack w d f : f <> Ok true -> chosen slack w d f <> Some Local.
Proof. unfold chosen. intros Hf. destruct f as [[]|]; [done| |done]. repeat (case_match; try done). Qed.

(** Without a flag in [sessionStorage] no depth answers true. *)
Lemma flag_at_session slack w d : flag_is_set w Session = false -> flag_at slack w d <> Ok true.
Proof.
  intros Hs. induction d as [d IH] using (well_founded_induction lt_wf).
  destruct d as [|[|d]]; [done..|]. rewrite flag_at_SS.
  pose proof (chosen_session slack w d _ (IH d ltac:(lia))) as Hc.
  destruct (chosen _ _ _ _) as [[]|]; [| done | done]. by rewrite Hs, andb_false_r.
Qed.

Lemma storage_at_session slack w d : flag_is_set w Session = false -> storage_at slack w d <> Ok (Some Local).
Proof.
  intros Hs. destruct d as [|d]; [done|]. rewrite storage_at_S.
  pose proof (chosen_session slack w d _ (flag_at_session slack w d Hs)). congruence.
Qed.

Lemma untrusted_without_session_flag e at_ w :
  flag_is_set w Session = false ->
  readTrustedDeviceFlag e at_ w = false /\ storage e at_ w <> Some Local.
Proof.
  intros Hs. split.
  - destruct (flag_total e at_ w) as (b & Hb & ->). destruct b; [|done].
    by apply flag_at_session in Hb.
  - destruct (storage_total e at_ w) as (o & Ho & ->). intros ->.
    by apply storage_at_session in Ho.
Qed.

Lemma local_on_session f w : localStorage (on_area f Session w) = localStorage w.
Proof. done. Qed.
Lemma session_on_local f w : sessionStorage (on_area f Local w) = sessionStorage w.
Proof. done. Qed.

(** ** Properties *)

(** a tab whose [sessionStorage] does not hold the flag is never a trusted
    device, whatever [localStorage] holds and however much stack is left; it
    never writes to [localStorage]: neither the flag nor the account key it
    caches, when trust is switched on or off there, outlives the tab. *)
Theorem trust_ends_with_tab e enabled now priv fp email pub w :
  flag_is_set w Session = false ->
  (forall at_, readTrustedDeviceFlag e at_ w = false) /\
  localStorage (store_trusted_flag e enabled w) = localStorage w /\
  localStorage (clearTrustedDeviceFlag e w) = localStorage w /\
  localStorage (persistAccountCache e now priv fp email pub w) = localStorage w.
Proof.
  intros Hs. split; [intros at_; by apply untrusted_without_session_flag|].
  unfold store_trusted_flag, clearTrustedDeviceFlag, persistAccountCache. split_and!.
  - pose proof (proj2 (untrusted_without_session_flag e AtSet w Hs)). by destruct (storage e AtSet w) as [[]|].
  - pose proof (proj2 (untrusted_without_session_flag e AtClearFlag w Hs)).
    by destruct (storage e AtClearFlag w) as [[]|].
  - pose proof (proj2 (untrusted_without_session_flag e AtPersist w Hs)).
    destruct (storage e AtPersist w) as [[]|]; try done. by destruct (_ || _).
Qed.

Definition empty_store : wstore := WStore ∅ true.
Definition sample_engine : engine := Engine 3 (fun _ => 20).
(** A new tab of a browser where the flag is in [localStorage]. *)
Definition cold_tab : web := Web (Some empty_store) (Some (WStore {[TRUSTED_DEVICE_KEY := IText "1"]} true)).

Lemma trust_ends_with_tab_witness : readTrustedDeviceFlag sample_engine AtQuery cold_tab = false.
Proof. apply (trust_ends_with_tab sample_engine true 0 "k" "F" "a@b" "p" cold_tab). vm_compute. reflexivity. Defined.

(** after trust is switched on in a tab, whether the tab is trusted
    depends on the depth of the call that asks: with two more frames of stack
    the answer is the opposite one. *)
Theorem trust_depends_on_depth slack w d :
  flag_is_set w Session = true -> flag_is_set w Local = false -> localStorage w <> None -> slack <= d -> 2 <= d ->
  exists b, flag_at slack w d = Ok b /\ flag_at slack w (S (S d)) = Ok (negb b).
Proof.
  intros Hs Hl Hlp Hd Hd2. destruct d as [|[|d]]; [lia..|].
  destruct (flag_at slack w (S (S d))) as [b|e] eqn:E.
  - exists b. split; [done|]. rewrite flag_at_SS, E. unfold chosen.
    rewrite (proj2 (Nat.leb_le slack (S (S d)))), (proj2 (Nat.leb_le slack (S (S (S d))))) by lia.
    assert (sessionStorage w <> None) as Hsp by (intros Hn; unfold flag_is_set in Hs; simpl in Hs; by rewrite Hn in Hs).
    destruct b; cbv zeta; cbn [get_area].
    + destruct (localStorage w); [|done]. by rewrite Hl.
    + destruct (sessionStorage w); [|done]. by rewrite Hs.
  - rewrite flag_at_SS in E. by destruct (chosen _ _ _ _).
Qed.

Lemma trust_depends_on_depth_witness :
  let w := store_trusted_flag sample_engine true (Web (Some empty_store) (Some empty_store)) in
  exists b, flag_at 3 w 20 = Ok b /\ flag_at 3 w 22 = Ok (negb b).
Proof. apply trust_depends_on_depth; [vm_compute; reflexivity | vm_compute; reflexivity | vm_compute; discriminate | lia | lia]. Defined.

(** What is read back is what was cached, from the same place. *)
Lemma persist_read e now priv fp email pub w :
  flag_is_set w Session = false -> ws_works <$> sessionStorage w = Some true ->
  storage e AtPersist w = Some Session -> priv <> "" -> pub <> "" ->
  let w' := persistAccountCache e now priv fp email pub w in
  readPersistedAccountCache e w' = (Some (PCache 1 (normalizeEmail email) priv pub fp now false), w').
Proof.
  intros Hs Hw Hst H1 H2 w'. pose proof (proj1 (untrusted_without_session_flag e AtPersistFlag w Hs)) as Hf.
  unfold w', persistAccountCache. rewrite Hst, Hf, (proj2 (String.eqb_neq _ _) H1), (proj2 (String.eqb_neq _ _) H2).
  cbn [orb]. destruct w as [[[items works]|] l]; simplify_eq/=. unfold on_area, set_area. simpl.
  set (w2 := Web _ _). assert (flag_is_set w2 Session = false) as Hs2.
  { unfold flag_is_set in *. simpl in *. by rewrite lookup_insert_ne. }
  unfold readPersistedAccountCache. rewrite (proj1 (untrusted_without_session_flag e AtRead w2 Hs2)).
  unfold w2. simpl. unfold usable_cache at 1. simpl. rewrite lookup_insert_eq. simpl.
  rewrite (proj2 (String.eqb_neq _ _) H1), (proj2 (String.eqb_neq _ _) H2). done.
Qed.
