(* ===== verification/Signature.v ===== *)
(** * Fingerprints and signature summaries ([static/auth/unlock.js])

    How the key vault compares OpenPGP fingerprints and what it reports about
    the signatures of a decrypted message. *)
From Stdlib Require Import ZArith Lia Ascii.
From S2P Require Import Prelude JsString JsValue.

(** ** Fingerprints *)

(** [fp.replace(/\s+/g, "").toUpperCase()] *)
Definition normalizeFingerprint (fp : string) : string := to_upper (filter_chars (fun c => negb (is_ws c)) fp).

Definition fingerprintKeyId16 (fp : string) : string :=
  let x := normalizeFingerprint fp in
  if x =s? "" then ""
  else if String.length x <=? 16 then x else slast 16 x.

Definition fingerprintsEquivalent (a b : string) : bool :=
  let x := normalizeFingerprint a in
  let y := normalizeFingerprint b in
  if (x =s? "") || (y =s? "") then false
  else if x =s? y then true
  else fingerprintKeyId16 x =s? fingerprintKeyId16 y.

(** ** Signatures *)

(** What [await signature.verified] does.  [VMissing]: there is no such
    property, or it is falsy. *)
Inductive verdict := VMissing | VResolves | VRejects (msg : string).

Record signature := Signature {
  sg_keyID : option string;    (** [keyID.toHex()]; [None] when missing or throwing *)
  sg_verified : verdict;
}.

(** A verification key: [getFingerprint()], [None] when missing or throwing. *)
Definition vkey := option string.

Inductive sig_status := Unsigned | MissingPublicKey | Verified | BadSignature.

Record summary := Summary {
  su_status : sig_status;
  su_signed : bool;
  su_signerKeyIDs : list string;
  su_signerFingerprint : string;
  su_error : string;
}.

Definition signatureKeyIDHex (s : signature) : string :=
  match sg_keyID s with Some h => to_upper h | None => "" end.

(** [l.filter(Boolean)] on strings *)
Definition nonempty_strings (l : list string) : list string := List.filter (fun s => negb (s =s? "")) l.

Fixpoint fingerprintFromVerificationKeys (verificationKeys : list vkey) (signerKeyIDs : list string) : string :=
  match verificationKeys with
  | [] => ""
  | key :: keys =>
      let fp := match key with Some f => normalizeFingerprint f | None => "" end in
      let ids := nonempty_strings signerKeyIDs in
      if fp =s? "" then fingerprintFromVerificationKeys keys signerKeyIDs
      else if match ids with [] => true | _ => str_mem (fingerprintKeyId16 fp) ids end then fp
      else fingerprintFromVerificationKeys keys signerKeyIDs
  end.

(** The loop over the signatures: whether one verified, and the first error. *)
Fixpoint first_verified (sigs : list signature) (firstErr : option string) : bool * option string :=
  match sigs with
  | [] => (false, firstErr)
  | s :: sigs =>
      match sg_verified s with
      | VMissing | VResolves => (true, firstErr)
      | VRejects e => first_verified sigs (match firstErr with None => Some e | _ => firstErr end)
      end
  end.

Definition summarizeSignatureVerification (signatures : list signature) (verificationKeys : list vkey) : summary :=
  let signerKeyIDs := nonempty_strings (map signatureKeyIDHex signatures) in
  match signatures, verificationKeys with
  | [], _ => Summary Unsigned false [] "" ""
  | _, [] => Summary MissingPublicKey true signerKeyIDs "" "signing key unavailable"
  | _, _ =>
      let '(ok, err) := first_verified signatures None in
      let fp := fingerprintFromVerificationKeys verificationKeys signerKeyIDs in
      if ok then Summary Verified true signerKeyIDs fp ""
      else Summary BadSignature true signerKeyIDs fp (default "signature verification failed" err)
  end.

(** ** Lemmas *)

Lemma upper_char_idemp c : to_upper (upper_char c) = upper_char c.
Proof. revert c. by_char. Qed.
Lemma upper_char_ws c : all_chars (fun c => negb (is_ws c)) (upper_char c) = negb (is_ws c).
Proof. revert c. by_char. Qed.
Lemma to_upper_app a b : to_upper (a +:+ b) = to_upper a +:+ to_upper b.
Proof. induction a; simpl; [done|]. by rewrite IHa, sapp_assoc. Qed.
Lemma to_upper_idemp s : to_upper (to_upper s) = to_upper s.
Proof. induction s as [|c s IH]; simpl; [done|]. by rewrite to_upper_app, upper_char_idemp, IH. Qed.
Lemma to_upper_nows s : all_chars (fun c => negb (is_ws c)) s = true -> all_chars (fun c => negb (is_ws c)) (to_upper s) = true.
Proof.
  induction s as [|c s IH]; simpl; [done|]. rewrite andb_true_iff, all_chars_app, upper_char_ws, andb_true_iff.
  intros [? ?]; auto.
Qed.

Lemma normalizeFingerprint_idemp s : normalizeFingerprint (normalizeFingerprint s) = normalizeFingerprint s.
Proof.
  unfold normalizeFingerprint. rewrite filter_chars_id, to_upper_idemp; [done|].
  apply to_upper_nows, filter_chars_all.
Qed.
#[export] Hint Rewrite to_upper_idemp normalizeFingerprint_idemp : js_rew.

(** Characters upper-casing leaves alone, alone. *)
Definition upper_fixed (c : ascii) : bool := upper_char c =s? String c "".

Lemma to_upper_fixed s : all_chars upper_fixed (to_upper s) = true.
Proof.
  induction s as [|c s IH]; simpl; [done|]. rewrite all_chars_app, IH, andb_true_r. revert c. clear. by_char.
Qed.
Lemma upper_fixed_id s : all_chars upper_fixed s = true -> to_upper s = s.
Proof.
  induction s as [|c s IH]; simpl; [done|]. unfold upper_fixed at 1. rewrite andb_true_iff, String.eqb_eq.
  intros [-> ?]. simpl. by rewrite IH.
Qed.
Lemma normalized_upper s : all_chars upper_fixed (normalizeFingerprint s) = true.
Proof. apply to_upper_fixed. Qed.
Lemma normalized_nows s : all_chars (fun c => negb (is_ws c)) (normalizeFingerprint s) = true.
Proof. apply to_upper_nows, filter_chars_all. Qed.

(** A key id is its own key id, whatever its casing was. *)
Lemma keyid_idemp x : fingerprintKeyId16 (to_upper (fingerprintKeyId16 x)) = fingerprintKeyId16 x.
Proof.
  unfold fingerprintKeyId16. set (n := normalizeFingerprint x).
  pose proof (normalized_upper x) as Hu. pose proof (normalized_nows x) as Hw. fold n in Hu, Hw.
  assert (forall y, all_chars upper_fixed y = true -> all_chars (fun c => negb (is_ws c)) y = true ->
            normalizeFingerprint (to_upper y) = y) as Hfix.
  { intros y H1 H2. unfold normalizeFingerprint. by rewrite (upper_fixed_id y), filter_chars_id, upper_fixed_id. }
  destruct (n =s? "") eqn:En; [done|]. destruct (String.length n <=? 16) eqn:El.
  - rewrite Hfix by done. by rewrite En, El.
  - bool_to_prop. unfold slast. rewrite Hfix by auto with js.
    assert (String.length (sdrop (String.length n - 16) n) = 16) as Hlen by (rewrite slength_sdrop; lia).
    destruct (sdrop _ n =s? "") eqn:E0; [bool_to_prop; by rewrite E0 in Hlen|]. by rewrite Hlen.
Qed.

Lemma keyid_nonempty x : fingerprintKeyId16 x = "" <-> normalizeFingerprint x = "".
Proof.
  unfold fingerprintKeyId16. destruct (normalizeFingerprint x =s? "") eqn:E; bool_to_prop; [tauto|].
  split; [|done]. destruct (String.length _ <=? 16) eqn:El; [done|]. bool_to_prop. intros Hs.
  apply (f_equal String.length) in Hs. unfold slast in Hs. rewrite slength_sdrop in Hs. simpl in Hs. lia.
Qed.

(** Two fingerprints are equivalent when both are present and their key ids agree. *)
Lemma equivalent_keyid a b :
  fingerprintsEquivalent a b = true <->
  normalizeFingerprint a <> "" /\ normalizeFingerprint b <> "" /\ fingerprintKeyId16 a = fingerprintKeyId16 b.
Proof.
  unfold fingerprintsEquivalent, fingerprintKeyId16. autorewrite with js_rew.
  destruct (normalizeFingerprint a =s? "") eqn:Ea; [bool_to_prop; cbn; split; [done | tauto]|].
  destruct (normalizeFingerprint b =s? "") eqn:Eb; [bool_to_prop; cbn; split; [done | tauto]|]. cbn [orb]. bool_to_prop.
  destruct (normalizeFingerprint a =s? normalizeFingerprint b) eqn:E; bool_to_prop.
  - split; [by rewrite E | done].
  - rewrite String.eqb_eq. tauto.
Qed.

Lemma fingerprint_found keys ids fp :
  fingerprintFromVerificationKeys keys ids = fp -> fp <> "" ->
  exists k, Some k ∈ keys /\ fp = normalizeFingerprint k /\
    (nonempty_strings ids = [] \/ fingerprintKeyId16 fp ∈ nonempty_strings ids).
Proof.
  induction keys as [|key keys IH]; simpl; [by intros <-|]. intros H Hne.
  assert (fingerprintFromVerificationKeys keys ids = fp ->
    exists k, Some k ∈ key :: keys /\ fp = normalizeFingerprint k /\
      (nonempty_strings ids = [] \/ fingerprintKeyId16 fp ∈ nonempty_strings ids)) as Hrec.
  { intros Hk. destruct (IH Hk Hne) as (k & Hin & ?). exists k. split; [by right | done]. }
  destruct key as [k|]; [|by apply Hrec].
  destruct (normalizeFingerprint k =s? ""); [by apply Hrec|].
  destruct (nonempty_strings ids) as [|i l] eqn:El.
  - exists k. subst. split; [by left|]. auto.
  - destruct (str_mem _ (i :: l)) eqn:Em; [|by apply Hrec]. apply str_mem_spec in Em.
    exists k. subst. split; [by left|]. auto.
Qed.

Lemma first_verified_spec sigs e0 :
  (first_verified sigs e0).1 = true <-> exists s, s ∈ sigs /\ forall m, sg_verified s <> VRejects m.
Proof.
  revert e0. induction sigs as [|s sigs IH]; intros e0; simpl.
  - split; [done|]. by intros (s & ?%elem_of_nil & _).
  - destruct (sg_verified s) eqn:E; simpl.
    1,2: split; [intros _; exists s; split; [by left | by rewrite E] | done].
    rewrite IH. split; intros (s' & Hin & Hs'); exists s'.
    + split; [by right | done].
    + apply elem_of_cons in Hin as [->|?]; [by destruct (Hs' msg) | done].
Qed.

(** ** Properties *)

(** the status reported for a message is decided by its signatures and
    keys alone: unsigned when there is no signature, missing key when there is
    one and no key to check it with, verified when some signature's check does
    not reject, and bad otherwise; a reported signer is one of the keys the
    check was made with, whose id some signature names when any names one. *)
Theorem summary_spec signatures keys :
  let r := summarizeSignatureVerification signatures keys in
  (su_status r = Unsigned <-> signatures = []) /\
  (su_status r = MissingPublicKey <-> signatures <> [] /\ keys = []) /\
  (su_status r = Verified <->
     keys <> [] /\ exists s, s ∈ signatures /\ forall m, sg_verified s <> VRejects m) /\
  (su_signed r = true <-> signatures <> []) /\
  (su_signerFingerprint r <> "" ->
     exists k, Some k ∈ keys /\ su_signerFingerprint r = normalizeFingerprint k /\
       (su_signerKeyIDs r = [] \/ fingerprintKeyId16 (su_signerFingerprint r) ∈ su_signerKeyIDs r)).
Proof.
  cbv zeta. unfold summarizeSignatureVerification. destruct signatures as [|s sigs].
  { simpl. split_and!; try done; split; try done; [by intros [[] _] | by intros (_ & s & ?%elem_of_nil & _)]. }
  destruct keys as [|k keys]; [simpl; split_and!; try done; split; try done; by intros [? _]|].
  pose proof (first_verified_spec (s :: sigs) None) as Hv.
  destruct (first_verified (s :: sigs) None) as [ok err]. cbn [fst] in Hv.
  assert (forall ids fp, fingerprintFromVerificationKeys (k :: keys) (nonempty_strings ids) = fp -> fp <> "" ->
    exists k0, Some k0 ∈ k :: keys /\ fp = normalizeFingerprint k0 /\
      (nonempty_strings ids = [] \/ fingerprintKeyId16 fp ∈ nonempty_strings ids)) as Hfp.
  { intros ids fp Hf Hne. apply fingerprint_found in Hf; [|done].
    unfold nonempty_strings in Hf. rewrite filter_filter_andb in Hf.
    rewrite (filter_ext _ _ (fun x => andb_diag _)) in Hf. done. }
  destruct ok; cbn [su_status su_signed su_signerFingerprint su_signerKeyIDs];
    (split_and!; [by split | by split; [|intros [_ ?]] | | done | by apply Hfp]).
  - split; [intros _; split; [done | by apply Hv] | done].
  - split; [done|]. intros [_ H]. by apply Hv in H.
Qed.

(** a verified message can be attributed to a signer whose own signature
    was rejected: with several signatures, the fingerprint reported is that of
    the first key any signature names, not of the key that verified. *)
Theorem verified_signer_may_be_rejected k1 k2 id1 id2 m :
  normalizeFingerprint k1 <> "" -> id1 <> "" -> to_upper id1 = fingerprintKeyId16 (normalizeFingerprint k1) ->
  let r := summarizeSignatureVerification
             [Signature (Some id1) (VRejects m); Signature (Some id2) VResolves] [Some k1; Some k2] in
  su_status r = Verified /\ su_signerFingerprint r = normalizeFingerprint k1.
Proof.
  intros Hne Hid Hk. cbv zeta. unfold summarizeSignatureVerification. split; [done|].
  cbn -[nonempty_strings fingerprintFromVerificationKeys]. cbn [fingerprintFromVerificationKeys].
  rewrite (proj2 (String.eqb_neq _ _) Hne).
  assert (fingerprintKeyId16 (normalizeFingerprint k1) ∈
    nonempty_strings (nonempty_strings [to_upper id1; to_upper id2])) as Hin.
  { rewrite <- Hk. assert (to_upper id1 <> "") as H1.
    { rewrite Hk, keyid_nonempty. by autorewrite with js_rew. }
    unfold nonempty_strings. rewrite !list_elem_of_In, !List.filter_In. simpl.
    rewrite (proj2 (String.eqb_neq _ _) H1). auto. }
  apply str_mem_spec in Hin.
  destruct (nonempty_strings (nonempty_strings _)); [done|]. by rewrite Hin.
Qed.

Lemma verified_signer_may_be_rejected_witness :
  su_signerFingerprint (summarizeSignatureVerification
    [Signature (Some "aa") (VRejects "bad"); Signature (Some "bb") VResolves] [Some "AA"; Some "BB"]) = "AA".
Proof. apply (verified_signer_may_be_rejected "AA" "BB" "aa" "bb" "bad"); done. Defined.
