(* ===== verification/KeyVault.v ===== *)
(** * The key vault ([static/auth/unlock.js])

    The unlocked account key and the identity keys it opens, with the idle
    timer, the lock, the restore from the cached account key and the choice of
    an identity to decrypt with.  OpenPGP.js and the key derivation of
    [keygen.js] are behind two interfaces; time is the argument [now]. *)
From Stdlib Require Import ZArith Lia.
From S2P Require Import Prelude JsString JsValue VaultStore Signature.

(** ** Interfaces *)

(** The functions of OpenPGP.js the vault calls.  A promise that rejects is
    [Throw]. *)
Class OpenPGP := {
  privkey : Type;
  pubkey : Type;
  pgpmsg : Type;
  readPrivateKey : string -> res privkey;
  readKey : string -> res pubkey;
  priv_fingerprint : privkey -> string;
  pub_fingerprint : pubkey -> string;
  readMessage : string -> res pgpmsg;
  decrypt : pgpmsg -> privkey -> res string;
  decryptSigned : pgpmsg -> privkey -> list vkey -> res (string * list signature);
  encryptKey : privkey -> string -> res string;
  armor : privkey -> string;
}.

(** What [keygen.js] gives the vault: the key that opens the wrapped secret. *)
Class KeyDerivation := {
  kek : Type;
  deriveKEK : string -> string -> string -> string -> res kek;
  aesUnwrap : kek -> string -> res string;
  b64ToBytes : string -> res string;
  decodeText : string -> string;      (** [new TextDecoder().decode] *)
  sha256 : string -> string;          (** [crypto.subtle.digest] of the encoded text *)
}.

Section Vault.
Context `{OpenPGP} `{KeyDerivation}.

(** [ElvishKeygen.pgpFingerprint] *)
Definition pgpFingerprint (armored : string) : res string :=
  k <~ readKey armored ;; Ok (to_upper (pub_fingerprint k)).

Record identity := Identity {
  id_email : string;
  id_privateKey : privkey;
  id_publicKey : pubkey;
  id_armoredPub : string;
  id_armoredPriv : string;
}.

(** [state], with the [Map] in insertion order and [timer] the time it fires. *)
Record vault := Vault {
  accountPrivateKey : option privkey;
  accountPublicKey : option pubkey;
  accountArmoredPriv : string;
  accountFingerprint : string;
  identities : list (string * identity);
  defaultIdentityFingerprint : string;
  lastTouchMs : Z;
  idleMs : Z;
  timer : option Z;
}.

(** The vault, the browser's storages, and the calls of [ElvishMailCache.purge]:
    [None] while that script is not loaded. *)
Record st := St {
  vs : vault;
  ws : web;
  purges : option nat;
}.

Definition isUnlocked (s : st) : bool := if accountPrivateKey (vs s) is Some _ then true else false.

Definition DEFAULT_IDLE_MS : Z := (15 * 60 * 1000)%Z.
Definition TRUSTED_IDLE_MS : Z := (14 * 24 * 60 * 60 * 1000)%Z.

(** The delay [setTimeout] waits: its argument as a signed 32-bit integer, and
    nothing when that is negative. *)
Definition timeout_delay (ms : Z) : Z := Z.max 0 ((ms + 2 ^ 31) mod 2 ^ 32 - 2 ^ 31)%Z.

Definition touch (now : Z) (s : st) : st :=
  let v := vs s in
  St (Vault (accountPrivateKey v) (accountPublicKey v) (accountArmoredPriv v) (accountFingerprint v)
        (identities v) (defaultIdentityFingerprint v) now (idleMs v)
        (Some (now + timeout_delay (idleMs v))%Z)) (ws s) (purges s).

(** [opts]: [None] when called without, else the two properties. *)
Definition zero (e : engine) (opts : option (option bool * option bool)) (s : st) : st :=
  let not_false (o : option bool) := match o with Some false => false | _ => true end in
  let clearPersisted := match opts with None => true | Some (p, _) => not_false p end in
  let clearTrustedDevice := clearPersisted && match opts with None => true | Some (_, t) => not_false t end in
  let v := Vault None None "" "" [] "" 0 (idleMs (vs s)) None in
  let w := if clearPersisted then
             let w := clearPersistedAccountCache (ws s) in
             if clearTrustedDevice then clearTrustedDeviceFlag e w else w
           else ws s in
  St v w (if clearPersisted then S <$> purges s else purges s).

(** Time passes: the idle timer fires when it is due. *)
Definition tick (e : engine) (now : Z) (s : st) : st :=
  match timer (vs s) with
  | Some t => if (t <=? now)%Z then zero e (Some (Some false, None)) s else s
  | None => s
  end.

(** [Number(ms) || DEFAULT_IDLE_MS]: [None] is NaN. *)
Definition setIdleMs (ms : option Z) (s : st) : st :=
  let v := vs s in
  let n := match ms with Some z => if (z =? 0)%Z then DEFAULT_IDLE_MS else z | None => DEFAULT_IDLE_MS end in
  St (Vault (accountPrivateKey v) (accountPublicKey v) (accountArmoredPriv v) (accountFingerprint v)
        (identities v) (defaultIdentityFingerprint v) (lastTouchMs v) (Z.max (60 * 1000) n) (timer v))
     (ws s) (purges s).

Definition applyTrustedIdlePreference (e : engine) (now : Z) (s : st) : st :=
  let s := setIdleMs (Some (if readTrustedDeviceFlag e AtApply (ws s) then TRUSTED_IDLE_MS else DEFAULT_IDLE_MS)) s in
  if isUnlocked s then touch now s else s.

Definition with_web (w : web) (s : st) : st := St (vs s) w (purges s).

Definition setTrustedDevice (e : engine) (now : Z) (enabled : bool) (s : st) : st :=
  applyTrustedIdlePreference e now (with_web (store_trusted_flag e enabled (ws s)) s).

Definition getKeyVaultIdleMs (s : st) : Z := idleMs (vs s).

(** ** Unlocking the account *)

(** What [hydrateUnlockedAccount] checks before it writes to [state]. *)
Definition check_account (armoredPriv armoredPub expectedFingerprint : string) : res (privkey * string) :=
  priv <~ res_catch (readPrivateKey armoredPriv) (fun _ => Throw "Incorrect password.") ;;
  pfp <~ pgpFingerprint armoredPub ;;
  let fpFromPublishedPub := normalizeFingerprint pfp in
  if negb (expectedFingerprint =s? "") && negb (fingerprintsEquivalent expectedFingerprint fpFromPublishedPub)
  then Throw "Account key metadata mismatch."
  else
    let privFp := normalizeFingerprint (priv_fingerprint priv) in
    if (fpFromPublishedPub =s? "") || negb (privFp =s? fpFromPublishedPub) then Throw "Incorrect password."
    else Ok (priv, fpFromPublishedPub).

(** [state.accountPrivateKey = priv], before the published key is awaited. *)
Definition set_account_key (priv : privkey) (s : st) : st :=
  let v := vs s in
  St (Vault (Some priv) (accountPublicKey v) (accountArmoredPriv v) (accountFingerprint v) (identities v)
        (defaultIdentityFingerprint v) (lastTouchMs v) (idleMs v) (timer v)) (ws s) (purges s).

(** The writes after it. *)
Definition set_account_rest (now : Z) (pub : pubkey) (armoredPriv fp : string) (s : st) : st :=
  let v := vs s in
  touch now (St (Vault (accountPrivateKey v) (Some pub) armoredPriv fp [] "" (lastTouchMs v) (idleMs v) (timer v))
               (ws s) (purges s)).

Definition hydrateUnlockedAccount (now : Z) (armoredPriv armoredPub expectedFingerprint : string) (s : st)
  : res string * st :=
  match check_account armoredPriv armoredPub expectedFingerprint with
  | Throw e => (Throw e, s)
  | Ok (priv, fp) =>
      let s := set_account_key priv s in
      match readKey armoredPub with
      | Throw e => (Throw e, s)
      | Ok pub => (Ok fp, set_account_rest now pub armoredPriv fp s)
      end
  end.

(** The row of GET /api/v1/account-key/me. *)
Record meRow := MeRow {
  me_kdf : string;
  me_kdf_params_json : string;
  me_kdf_salt_b64 : string;
  me_wrapped_secret_b64 : string;
  me_armored_public : string;
  me_fingerprint : string;
}.

Definition unlockAccount (e : engine) (now : Z) (me : meRow) (password sessionEmail : string) (s : st) : res string * st :=
  match salt <~ b64ToBytes (me_kdf_salt_b64 me) ;;
        k <~ deriveKEK password salt (me_kdf me) (str_or (me_kdf_params_json me) "{}") ;;
        wrapped <~ b64ToBytes (me_wrapped_secret_b64 me) ;;
        res_catch (bytes <~ aesUnwrap k wrapped ;; Ok (decodeText bytes)) (fun _ => Throw "Incorrect password.")
  with
  | Throw m => (Throw m, s)
  | Ok armoredPriv =>
      match hydrateUnlockedAccount now armoredPriv (me_armored_public me) (me_fingerprint me) s with
      | (Throw m, s) => (Throw m, s)
      | (Ok fp, s) =>
          (Ok fp, with_web (persistAccountCache e now (accountArmoredPriv (vs s)) (accountFingerprint (vs s))
                              sessionEmail (me_armored_public me) (ws s)) s)
      end
  end.

Definition tryRestoreAccountFromSession (e : engine) (now : Z) (sessionEmail : string) (s : st) : bool * st :=
  let '(cached, w) := readPersistedAccountCache e (ws s) in
  let s := with_web w s in
  match cached with
  | None => (false, s)
  | Some c =>
      let expectedEmail := normalizeEmail sessionEmail in
      if negb (expectedEmail =s? "") && negb (pc_sessionEmail c =s? expectedEmail)
      then (false, with_web (clearPersistedAccountCache (ws s)) s)
      else
        match hydrateUnlockedAccount now (pc_accountArmoredPriv c) (pc_accountArmoredPub c) (pc_accountFingerprint c) s with
        | (Ok _, s) => (true, s)
        | (Throw _, s) =>
            (false, zero e (Some (Some false, None)) (with_web (clearPersistedAccountCache (ws s)) s))
        end
  end.

(** ** Identities *)

(** [Map.prototype.set]: an existing key keeps its place. *)
Fixpoint map_set {A} (k : string) (v : A) (l : list (string * A)) : list (string * A) :=
  match l with
  | [] => [(k, v)]
  | (k', v') :: l => if k' =s? k then (k, v) :: l else (k', v') :: map_set k v l
  end.
Fixpoint map_get {A} (k : string) (l : list (string * A)) : option A :=
  match l with
  | [] => None
  | (k', v) :: l => if k' =s? k then Some v else map_get k l
  end.

(** A row of GET /api/v1/identities; the empty string stands for a missing field. *)
Record idRow := IdRow {
  ir_fingerprint : string;
  ir_email : string;
  ir_armored_public : string;
  ir_wrapped_secret_armored : string;
  ir_wrapped_secret_b64 : string;
  ir_is_default : bool;
}.

(** What [unlockIdentity] computes before it writes to [state]. *)
Definition open_identity (account : privkey) (row : idRow) : res (string * identity) :=
  armoredWrapped <~ (if (ir_wrapped_secret_armored row =s? "") && negb (ir_wrapped_secret_b64 row =s? "")
                     then bytes <~ b64ToBytes (ir_wrapped_secret_b64 row) ;; Ok (decodeText bytes)
                     else Ok (ir_wrapped_secret_armored row)) ;;
  if armoredWrapped =s? "" then Throw "identity has no wrapped private key"
  else
    message <~ readMessage armoredWrapped ;;
    armoredPriv <~ decrypt message account ;;
    privateKey <~ readPrivateKey armoredPriv ;;
    publicKey <~ readKey (ir_armored_public row) ;;
    pfp <~ pgpFingerprint (ir_armored_public row) ;;
    let idPubFp := normalizeFingerprint pfp in
    if negb (ir_fingerprint row =s? "") && negb (fingerprintsEquivalent (ir_fingerprint row) idPubFp)
    then Throw "identity metadata mismatch"
    else
      let idPrivFp := normalizeFingerprint (priv_fingerprint privateKey) in
      if (idPubFp =s? "") || negb (idPrivFp =s? idPubFp) then Throw "identity key does not match encrypted blob"
      else Ok (fingerprintKeyId16 idPubFp,
               Identity (ir_email row) privateKey publicKey (ir_armored_public row) armoredPriv).

(** The writes at its end. *)
Definition store_identity (now : Z) (is_default : bool) (fpKey : string) (ident : identity) (s : st) : st :=
  let v := vs s in
  touch now (St (Vault (accountPrivateKey v) (accountPublicKey v) (accountArmoredPriv v) (accountFingerprint v)
                  (map_set fpKey ident (identities v))
                  (if is_default || (defaultIdentityFingerprint v =s? "") then fpKey else defaultIdentityFingerprint v)
                  (lastTouchMs v) (idleMs v) (timer v)) (ws s) (purges s)).

Definition unlockIdentity (now : Z) (row : idRow) (s : st) : res string * st :=
  match accountPrivateKey (vs s) with
  | None => (Throw "account locked", s)
  | Some account =>
      match open_identity account row with
      | Throw m => (Throw m, s)
      | Ok (fpKey, ident) => (Ok fpKey, store_identity now (ir_is_default row) fpKey ident s)
      end
  end.

(** [rows.find(f)]; reading a field of a null row throws. *)
Fixpoint find_row (f : idRow -> bool) (rows : list (option idRow)) : res (option idRow) :=
  match rows with
  | [] => Ok None
  | None :: _ => Throw "TypeError"
  | Some r :: rows => if f r then Ok (Some r) else find_row f rows
  end.

Definition row_has_secret (r : idRow) : bool :=
  negb (ir_armored_public r =s? "") && (negb (ir_wrapped_secret_b64 r =s? "") || negb (ir_wrapped_secret_armored r =s? "")).

(** [rows]: what [rowsOptional || await fetchIdentityRows()] gives. *)
Definition ensureIdentityUnlocked (now : Z) (fingerprint : string) (rows : res (list (option idRow))) (s : st) : res unit * st :=
  if negb (isUnlocked s) then (Throw "account locked", s)
  else
    let fpNorm := to_upper fingerprint in
    if fpNorm =s? "" then (Throw "missing identity fingerprint", s)
    else
      let kid := fingerprintKeyId16 fpNorm in
      if negb (kid =s? "") && (if map_get kid (identities (vs s)) is Some _ then true else false) then (Ok tt, s)
      else
        match rows with
        | Throw m => (Throw m, s)
        | Ok rows =>
            match find_row (fun x => fingerprintsEquivalent (ir_fingerprint x) fpNorm) rows with
            | Throw m => (Throw m, s)
            | Ok None => (Throw "identity not found", s)
            | Ok (Some row) =>
                if negb (row_has_secret row) then (Throw "identity has no wrapped secret", s)
                else match unlockIdentity now row s with
                     | (Ok _, s) => (Ok tt, s)
                     | (Throw m, s) => (Throw m, s)
                     end
            end
        end.

Definition getIdentity (now : Z) (fingerprint : string) (s : st) : option identity * st :=
  let s := touch now s in
  let fp := str_or fingerprint (defaultIdentityFingerprint (vs s)) in
  if fp =s? "" then (None, s)
  else
    let kid := fingerprintKeyId16 (to_upper fp) in
    (if kid =s? "" then None else map_get kid (identities (vs s)), s).

Definition getIdentityByEmail (now : Z) (email : string) (s : st) : option (string * identity) * st :=
  let s := touch now s in
  let target := normalizeEmail email in
  (if target =s? "" then None
   else List.find (fun p => normalizeEmail (id_email p.2) =s? target) (identities (vs s)), s).

Definition ensureIdentityUnlockedByEmail (now : Z) (email : string) (rows : res (list (option idRow))) (s : st)
  : res string * st :=
  if negb (isUnlocked s) then (Throw "account locked", s)
  else
    let target := normalizeEmail email in
    if target =s? "" then (Throw "missing identity email", s)
    else
      let '(existing, s) := getIdentityByEmail now target s in
      let fp := match existing with Some (fp, _) => fp | None => "" end in
      if negb (fp =s? "") then (Ok fp, s)
      else
        match rows with
        | Throw m => (Throw m, s)
        | Ok rows =>
            match List.find (fun x => normalizeEmail (match x with Some r => ir_email r | None => "" end) =s? target) rows with
            | None | Some None => (Throw "identity not found", s)
            | Some (Some row) =>
                if negb (row_has_secret row) then (Throw "identity has no wrapped secret", s)
                else unlockIdentity now row s
            end
        end.

Definition listIdentities (now : Z) (s : st) : list (string * string * string) * st :=
  let s := touch now s in
  (map (fun p => (p.1, id_email p.2, id_armoredPub p.2)) (identities (vs s)), s).

(** [opts.passphrase], as a string, [""] when there is none. *)
Definition exportIdentityPrivateKeyArmored (now : Z) (fingerprint passphrase : string) (rows : res (list (option idRow)))
    (s : st) : res string * st :=
  let fpNorm := to_upper fingerprint in
  match ensureIdentityUnlocked now fpNorm rows s with
  | (Throw m, s) => (Throw m, s)
  | (Ok _, s) =>
      let '(ident, s) := getIdentity now fpNorm s in
      match ident with
      | None => (Throw "identity private key not available", s)
      | Some ident =>
          let passphrase := trim passphrase in
          if negb (passphrase =s? "") then
            if String.length passphrase <? 8 then (Throw "Export passphrase must be at least 8 characters.", s)
            else match encryptKey (id_privateKey ident) passphrase with
                 | Throw m => (Throw m, s)
                 | Ok armored => (Ok armored, touch now s)
                 end
          else
            (Ok (if negb (id_armoredPriv ident =s? "") then id_armoredPriv ident else armor (id_privateKey ident)),
             touch now s)
      end
  end.

(** The three seeds: SHA-256 of a label and the armored key. *)
Definition deriveIdentitySearchSeed (now : Z) (fingerprint : string) (s : st) : res string * st :=
  let '(ident, s) := getIdentity now fingerprint s in
  match ident with
  | Some i =>
      if id_armoredPriv i =s? "" then (Throw "identity not unlocked", s)
      else (Ok (sha256 ("elvish-search-seed-v1:" +:+ id_armoredPriv i)), touch now s)
  | None => (Throw "identity not unlocked", s)
  end.

Definition account_seed (label : string) (now : Z) (s : st) : res string * st :=
  if negb (isUnlocked s) || (accountArmoredPriv (vs s) =s? "") then (Throw "account not unlocked", s)
  else (Ok (sha256 (label +:+ accountArmoredPriv (vs s))), touch now s).
Definition deriveAccountSenderIconSeed : Z -> st -> res string * st := account_seed "elvish-sender-icon-seed-v1:".
Definition deriveAccountMailCacheSeed : Z -> st -> res string * st := account_seed "elvish-mail-cache-seed-v1:".

(** ** Decryption *)

(** [message], [keys]: what [readEncryptedMessage(ciphertext)] and
    [readVerificationKeys(opts.armoredPublicKeys)] give. *)
Definition decryptToResult (now : Z) (message : res pgpmsg) (keys : res (list vkey)) (fingerprint : string)
    (rows : res (list (option idRow))) (s : st) : res (string * summary) * st :=
  let fpNorm := to_upper fingerprint in
  match ensureIdentityUnlocked now fpNorm rows s with
  | (Throw m, s) => (Throw m, s)
  | (Ok _, s) =>
      let '(ident, s) := getIdentity now fpNorm s in
      match ident with
      | None => (Throw "no unlocked identity", s)
      | Some ident =>
          match msg <~ message ;; ks <~ keys ;;
                r <~ decryptSigned msg (id_privateKey ident) ks ;; Ok (ks, r) with
          | Throw m => (Throw m, s)
          | Ok (ks, (data, signatures)) => (Ok (data, summarizeSignatureVerification signatures ks), touch now s)
          end
      end
  end.

Definition decryptToString (now : Z) (message : res pgpmsg) (fingerprint : string) (rows : res (list (option idRow)))
    (s : st) : res string * st :=
  let '(r, s) := decryptToResult now message (Ok []) fingerprint rows s in
  (x <~ r ;; Ok x.1, s).

(** [const i = fps.indexOf(d); if (i > 0) { fps.splice(i, 1); fps.unshift(d); }] *)
Fixpoint index_in (d : string) (fps : list string) : option nat :=
  match fps with
  | [] => None
  | x :: fps => if x =s? d then Some 0 else S <$> index_in d fps
  end.
Definition move_to_front (d : string) (fps : list string) : list string :=
  match index_in d fps with
  | Some (S i) => d :: take (S i) fps ++ drop (S (S i)) fps
  | _ => fps
  end.

Definition usable_rows (rows : list (option idRow)) : list idRow := List.filter row_has_secret (omap id rows).

(** The fingerprints [tryDefaultDecrypt] tries, in order. *)
Definition candidate_fingerprints (rows : list (option idRow)) (v : vault) : list string :=
  let usable := usable_rows rows in
  let fps := nonempty_strings (map (fun r => to_upper (ir_fingerprint r)) usable) in
  let defFp := match List.find ir_is_default usable with Some r => to_upper (ir_fingerprint r) | None => "" end in
  let fps := if defFp =s? "" then fps else move_to_front defFp fps in
  match fps with
  | [] =>
      let keys := map fst (identities v) in
      if defaultIdentityFingerprint v =s? "" then keys else move_to_front (defaultIdentityFingerprint v) keys
  | _ => fps
  end.

Fixpoint try_each (now : Z) (message : res pgpmsg) (rows : list (option idRow)) (fps : list string)
    (lastErr : option string) (s : st) : res (string * string) * st :=
  match fps with
  | [] => (Throw (default "no identity decrypts message" lastErr), s)
  | fp :: fps =>
      match decryptToString now message fp (Ok rows) s with
      | (Ok data, s) => (Ok (data, fp), s)
      | (Throw m, s) => try_each now message rows fps (Some m) s
      end
  end.

Definition tryDefaultDecrypt (now : Z) (message : res pgpmsg) (rows : res (list (option idRow))) (s : st)
  : res (string * string) * st :=
  if negb (isUnlocked s) then (Throw "locked", s)
  else match rows with
       | Throw m => (Throw m, s)
       | Ok rows => try_each now message rows (candidate_fingerprints rows (vs s)) None s
       end.
End Vault.
