(* ===== verification/VaultProps.v ===== *)
(** * Properties of the key vault

    What unlocking, locking, restoring and the idle timer guarantee
    ([static/auth/unlock.js], as modelled in [KeyVault]), for operations that run one after
    the other and, in the invariant, for operations that wait and overlap. *)
From Stdlib Require Import ZArith Lia.
From S2P Require Import Prelude JsString JsValue VaultStore Signature KeyVault.

Section Props.
Context `{OpenPGP} `{KeyDerivation}.

(** ** The invariant *)

(** The private key is the one of the published fingerprint. *)
Definition key_matches (k : privkey) (fp : string) : Prop :=
  fp <> "" /\ normalizeFingerprint (priv_fingerprint k) = fp.

(** An identity under its key: private key and published key agree. *)
Definition identity_ok (p : string * identity) : Prop :=
  exists fp, key_matches (id_privateKey p.2) fp /\ p.1 = fingerprintKeyId16 fp /\
    exists raw, pgpFingerprint (id_armoredPub p.2) = Ok raw /\ normalizeFingerprint raw = fp.

Record vault_ok (v : vault) : Prop := {
  vo_locked : accountPrivateKey v = None ->
    accountPublicKey v = None /\ accountArmoredPriv v = "" /\ accountFingerprint v = "" /\ identities v = [];
  vo_account : forall k, accountPrivateKey v = Some k ->
    key_matches k (accountFingerprint v) /\ accountPublicKey v <> None /\ timer v <> None;
  vo_keys : NoDup (map fst (identities v));
  vo_identities : Forall identity_ok (identities v);
  vo_default : defaultIdentityFingerprint v = "" /\ identities v = [] \/
               defaultIdentityFingerprint v ∈ map fst (identities v);
  vo_idle : (60 * 1000 <= idleMs v)%Z;
}.

(** *** Maps in insertion order *)

Lemma map_set_keys {A} k (v : A) l :
  map fst (map_set k v l) = map fst l \/ (k ∉ map fst l) /\ map fst (map_set k v l) = map fst l ++ [k].
Proof.
  induction l as [|[k' v'] l IH]; simpl; [right; split; [apply not_elem_of_nil | done]|].
  destruct (k' =s? k) eqn:E; bool_to_prop; simpl; [left; by subst|].
  destruct IH as [->|[Hn ->]]; [by left|]. right. rewrite not_elem_of_cons. done.
Qed.

Lemma map_set_in {A} k (v : A) l : k ∈ map fst (map_set k v l).
Proof.
  induction l as [|[k' v'] l IH]; simpl; [by left|]. destruct (k' =s? k) eqn:E; simpl; [by left | by right].
Qed.

Lemma map_set_old {A} k (v : A) l k' : k' ∈ map fst l -> k' ∈ map fst (map_set k v l).
Proof. destruct (map_set_keys k v l) as [->|[_ ->]]; [done|]. rewrite elem_of_app. auto. Qed.

Lemma map_set_NoDup {A} k (v : A) l : NoDup (map fst l) -> NoDup (map fst (map_set k v l)).
Proof.
  destruct (map_set_keys k v l) as [->|[Hn ->]]; [done|]. intros Hd. apply NoDup_app. split_and!; [done | | apply NoDup_singleton].
  by intros x Hx ->%list_elem_of_singleton.
Qed.

Lemma map_set_Forall {A} (P : string * A -> Prop) k v l : P (k, v) -> Forall P l -> Forall P (map_set k v l).
Proof.
  intros Hk. induction 1 as [|[k' v'] l Hx Hl IH]; simpl; [by constructor|]. destruct (k' =s? k); by constructor.
Qed.

Lemma map_get_set {A} k (v : A) l : map_get k (map_set k v l) = Some v.
Proof.
  induction l as [|[k' v'] l IH]; simpl; [by rewrite String.eqb_refl|].
  destruct (k' =s? k) eqn:E; simpl; [by rewrite String.eqb_refl | by rewrite E].
Qed.

(** *** The checks before the writes *)

Lemma check_account_ok priv pub fp k r :
  check_account priv pub fp = Ok (k, r) ->
  readPrivateKey priv = Ok k /\ key_matches k r /\ (fp = "" \/ fingerprintsEquivalent fp r = true) /\
  exists pk, readKey pub = Ok pk /\ r = normalizeFingerprint (to_upper (pub_fingerprint pk)).
Proof.
  unfold check_account, pgpFingerprint. rewrite res_bind_ok. intros (k' & Hk & Hr).
  destruct (readPrivateKey priv) as [k0|]; [|done]. simpl in Hk. injection Hk as ->.
  destruct (readKey pub) as [pk'|]; [|done]. simpl in Hr.
  destruct (fp =s? "") eqn:E1, (fingerprintsEquivalent fp _) eqn:E2; simpl in Hr; try done;
    destruct (normalizeFingerprint (to_upper (pub_fingerprint pk')) =s? "") eqn:E3; try done;
    destruct (normalizeFingerprint (priv_fingerprint k') =s? _) eqn:E4; try done; bool_to_prop; simplify_eq/=;
    (split_and!; [done..| |eauto | eauto]); by split.
Qed.

(** The check passes again on its own result. *)
Lemma check_account_again priv pub fp0 k fp :
  check_account priv pub fp0 = Ok (k, fp) -> check_account priv pub fp = Ok (k, fp).
Proof.
  unfold check_account. rewrite !res_bind_ok. intros (k' & -> & E). exists k'. split; [done|].
  destruct (pgpFingerprint _) as [pf|]; [|done]. cbn [res_bind] in *.
  destruct (negb (fp0 =s? "") && _); [done|].
  destruct (_ =s? "") eqn:E3 in E; [done|]. destruct (_ =s? _) eqn:E4 in E; [|done].
  simplify_eq/=. rewrite E3, E4. cbn [orb negb res_bind].
  assert (fingerprintsEquivalent (normalizeFingerprint pf) (normalizeFingerprint pf) = true) as ->; [|done].
  apply equivalent_keyid. autorewrite with js_rew. bool_to_prop. done.
Qed.

(** [hydrateUnlockedAccount] writes nothing, or everything: the published key is read
    for its fingerprint before the first write. *)
Lemma hydrate_inv now priv pub fp s r s' :
  hydrateUnlockedAccount now priv pub fp s = (r, s') ->
  match r with
  | Throw _ => s' = s
  | Ok f => exists k pk, check_account priv pub fp = Ok (k, f) /\ readKey pub = Ok pk /\
              s' = set_account_rest now pk priv f (set_account_key k s)
  end.
Proof.
  unfold hydrateUnlockedAccount. destruct (check_account _ _ _) as [[k f]|] eqn:E; [|by intros [= <- <-]].
  pose proof (check_account_ok _ _ _ _ _ E) as (_ & _ & _ & pk & Hp & _). rewrite Hp. intros [= <- <-]. eauto.
Qed.

Lemma open_identity_ok account row k ident :
  open_identity account row = Ok (k, ident) -> identity_ok (k, ident) /\ id_armoredPub ident = ir_armored_public row.
Proof.
  unfold open_identity. rewrite res_bind_ok. intros (w & _ & Hr). destruct (w =s? ""); [done|].
  repeat (rewrite res_bind_ok in Hr; destruct Hr as (? & ? & Hr)).
  destruct (negb _ && _); [done|]. destruct (normalizeFingerprint _ =s? "") eqn:E1; [done|].
  destruct (_ =s? _) eqn:E2 in Hr; [|done]. bool_to_prop. simplify_eq/=. split; [|done].
  eexists. split; [split; [exact E1 | exact E2]|]. split; [done|]. simpl. eauto.
Qed.

(** *** Preservation *)

Lemma touch_ok now s : vault_ok (vs s) -> vault_ok (vs (touch now s)).
Proof. intros [Hl Ha Hk Hi Hd Hm]. split; simpl; try done. intros k Hk'. destruct (Ha k Hk') as (? & ? & _). done. Qed.

Lemma zero_ok e opts s : vault_ok (vs s) -> vault_ok (vs (zero e opts s)).
Proof. intros [_ _ _ _ _ Hm]. split; simpl; try done; [apply NoDup_nil_2 | by left]. Qed.

Lemma tick_ok e now s : vault_ok (vs s) -> vault_ok (vs (tick e now s)).
Proof. intros Hs. unfold tick. destruct (timer _); [|done]. destruct (_ <=? _)%Z; [by apply zero_ok | done]. Qed.

Lemma setIdleMs_ok ms s : vault_ok (vs s) -> vault_ok (vs (setIdleMs ms s)).
Proof. intros [Hl Ha Hk Hi Hd Hm]. split; simpl; try done. lia. Qed.

Lemma account_rest_ok now pk priv fp k s :
  accountPrivateKey (vs s) = Some k -> key_matches k fp -> (60 * 1000 <= idleMs (vs s))%Z ->
  vault_ok (vs (set_account_rest now pk priv fp s)).
Proof.
  intros Hk Hm Hi. split; simpl; try done; [by rewrite Hk | | apply NoDup_nil_2 | by left].
  by intros ? [= <-]%(eq_trans (eq_sym Hk)).
Qed.

Lemma hydrate_ok now priv pub fp s : vault_ok (vs s) -> vault_ok (vs (hydrateUnlockedAccount now priv pub fp s).2).
Proof.
  intros Hs. destruct (hydrateUnlockedAccount _ _ _ _ _) as [r s'] eqn:E. apply hydrate_inv in E.
  destruct r; [|by subst]. destruct E as (k & pk & (_ & Hm & _)%check_account_ok & _ & ->).
  eapply account_rest_ok; [done | exact Hm | by destruct Hs].
Qed.

Lemma store_identity_ok now d k ident s :
  accountPrivateKey (vs s) <> None -> identity_ok (k, ident) -> vault_ok (vs s) -> vault_ok (vs (store_identity now d k ident s)).
Proof.
  intros Hu Hi [Hl Ha Hk Hf Hd Hm]. split; simpl; try done.
  - intros k' Hk'. destruct (Ha k' Hk') as (? & ? & _). done.
  - by apply map_set_NoDup.
  - by apply map_set_Forall.
  - right. destruct (d || _) eqn:E; [apply map_set_in|]. bool_to_prop.
    destruct Hd as [[? _]|Hd]; [done|]. by apply map_set_old.
Qed.

Lemma unlockIdentity_ok now row s : vault_ok (vs s) -> vault_ok (vs (unlockIdentity now row s).2).
Proof.
  intros Hs. unfold unlockIdentity. destruct (accountPrivateKey _) as [a|] eqn:E; [|done].
  destruct (open_identity a row) as [[k i]|] eqn:Eo; [|done]. apply open_identity_ok in Eo as [Hi _].
  apply store_identity_ok; [by rewrite E | done | done].
Qed.

Lemma ensure_ok now fp rows s : vault_ok (vs s) -> vault_ok (vs (ensureIdentityUnlocked now fp rows s).2).
Proof.
  intros Hs. unfold ensureIdentityUnlocked.
  destruct (negb (isUnlocked s)); [done|]. destruct (_ =s? ""); [done|]. destruct (negb _ && _); [done|].
  destruct rows as [rows|]; [|done]. destruct (find_row _ rows) as [[row|]|]; try done.
  destruct (negb _); [done|]. pose proof (unlockIdentity_ok now row s Hs) as Hu.
  by destruct (unlockIdentity now row s) as [[] ?].
Qed.

Lemma decryptToString_ok now msg fp rows s : vault_ok (vs s) -> vault_ok (vs (decryptToString now msg fp rows s).2).
Proof.
  intros Hs. unfold decryptToString, decryptToResult.
  pose proof (ensure_ok now (to_upper fp) rows s Hs) as He.
  destruct (ensureIdentityUnlocked _ _ _ _) as [[] s1]; [|done]. simpl in He.
  destruct (getIdentity now (to_upper fp) s1) as [o s2] eqn:E.
  assert (vault_ok (vs s2)) as H2.
  { unfold getIdentity in E. destruct (_ =s? ""); injection E as <- <-; by apply touch_ok. }
  destruct o; [|done]. destruct (res_bind msg _) as [[? []]|]; [by apply touch_ok | done].
Qed.

Lemma try_each_ok now msg rows fps err s : vault_ok (vs s) -> vault_ok (vs (try_each now msg rows fps err s).2).
Proof.
  revert err s. induction fps as [|fp fps IH]; simpl; intros err s Hs; [done|].
  pose proof (decryptToString_ok now msg fp (Ok rows) s Hs) as Hd.
  destruct (decryptToString _ _ _ _ _) as [[] s']; [done | by apply IH].
Qed.

(** The operations of [window.ElvishKeyVault] that change state, run to their
    end one after the other. *)
Inductive op (e : engine) : st -> st -> Prop :=
| op_unlock now me pw email s : op e s (unlockAccount e now me pw email s).2
| op_restore now email s : op e s (tryRestoreAccountFromSession e now email s).2
| op_identity now row s : op e s (unlockIdentity now row s).2
| op_ensure now fp rows s : op e s (ensureIdentityUnlocked now fp rows s).2
| op_ensure_email now email rows s : op e s (ensureIdentityUnlockedByEmail now email rows s).2
| op_decrypt now msg rows s : op e s (tryDefaultDecrypt now msg rows s).2
| op_touch now s : op e s (touch now s)
| op_zero opts s : op e s (zero e opts s)
| op_tick now s : op e s (tick e now s)
| op_idle ms s : op e s (setIdleMs ms s)
| op_trust now b s : op e s (setTrustedDevice e now b s).

Lemma op_ok e s s' : op e s s' -> vault_ok (vs s) -> vault_ok (vs s').
Proof.
  intros Hop Hs. destruct Hop.
  - unfold unlockAccount. destruct (res_bind _ _) as [priv|]; [|done].
    pose proof (hydrate_ok now priv (me_armored_public me) (me_fingerprint me) s Hs) as Hh.
    by destruct (hydrateUnlockedAccount _ _ _ _ _) as [[] ?].
  - unfold tryRestoreAccountFromSession. destruct (readPersistedAccountCache _ _) as [[c|] w]; [|done].
    destruct (negb _ && _); [done|].
    pose proof (hydrate_ok now (pc_accountArmoredPriv c) (pc_accountArmoredPub c) (pc_accountFingerprint c) (with_web w s) Hs) as Hh.
    destruct (hydrateUnlockedAccount _ _ _ _ _) as [[] ?]; [done | by apply zero_ok].
  - by apply unlockIdentity_ok.
  - by apply ensure_ok.
  - unfold ensureIdentityUnlockedByEmail. destruct (negb _); [done|]. destruct (_ =s? ""); [done|].
    unfold getIdentityByEmail. pose proof (touch_ok now s Hs) as Ht.
    destruct (negb _); [done|]. destruct rows; [|done]. destruct (List.find _ _) as [[r|]|]; try done.
    destruct (negb (row_has_secret r)); [done | by apply unlockIdentity_ok].
  - unfold tryDefaultDecrypt. destruct (negb _); [done|]. destruct rows; [|done]. by apply try_each_ok.
  - by apply touch_ok.
  - by apply zero_ok.
  - by apply tick_ok.
  - by apply setIdleMs_ok.
  - unfold setTrustedDevice, applyTrustedIdlePreference. destruct (isUnlocked _); [apply touch_ok|]; by apply setIdleMs_ok.
Qed.

(** The state when the script has been loaded. *)
Definition fresh_vault : vault := Vault None None "" "" [] "" 0 DEFAULT_IDLE_MS None.
Definition load (e : engine) (now : Z) (w : web) : st := applyTrustedIdlePreference e now (St fresh_vault w None).

Lemma load_ok e now w : vault_ok (vs (load e now w)).
Proof.
  unfold load, applyTrustedIdlePreference. apply (setIdleMs_ok _ (St fresh_vault w None)).
  split; simpl; try done; [apply NoDup_nil_2 | by left].
Qed.

(** ** Operations that overlap

    The operations await between their checks and their writes, so others run in
    between.  Here each synchronous stretch of code that writes to [state] is a step,
    and an unlock under way is what it will still write. *)

(** An unlock between its last look at [state] and its writes: an identity that was
    decrypted with the account key, or an account whose key is set and whose published
    key is awaited. *)
Inductive under_way : Type :=
| PIdentity (is_default : bool) (fpKey : string) (ident : identity)
| PAccount (pub : pubkey) (armoredPriv fp : string).

(** [sy_overtaken]: a lock, or a second unlock of the account, came while an unlock was
    under way. *)
Record sys := Sys {
  sy_st : st;
  sy_pending : list under_way;
  sy_overtaken : bool;
}.

Definition no_account (p : under_way) : Prop := if p is PAccount _ _ _ then False else True.
#[export] Instance no_account_dec p : Decision (no_account p).
Proof. destruct p; apply _. Defined.

Definition busy (p : list under_way) : bool := if p is [] then false else true.
(** The idle timer is due. *)
Definition due (now : Z) (s : st) : bool := if timer (vs s) is Some t then (t <=? now)%Z else false.

Inductive sys_step (e : engine) : sys -> sys -> Prop :=
| sys_begin_account priv pub fp0 k pk fp s p o :
    check_account priv pub fp0 = Ok (k, fp) -> readKey pub = Ok pk ->
    sys_step e (Sys s p o) (Sys (set_account_key k s) (p ++ [PAccount pk priv fp]) (o || negb (bool_decide (Forall no_account p))))
| sys_write_account now pk priv fp s p1 p2 o :
    sys_step e (Sys s (p1 ++ PAccount pk priv fp :: p2) o) (Sys (set_account_rest now pk priv fp s) (p1 ++ p2) o)
| sys_begin_identity account row k ident s p o :
    accountPrivateKey (vs s) = Some account -> open_identity account row = Ok (k, ident) ->
    sys_step e (Sys s p o) (Sys s (p ++ [PIdentity (ir_is_default row) k ident]) o)
| sys_write_identity now d k ident s p1 p2 o :
    sys_step e (Sys s (p1 ++ PIdentity d k ident :: p2) o) (Sys (store_identity now d k ident s) (p1 ++ p2) o)
| sys_touch now s p o : sys_step e (Sys s p o) (Sys (touch now s) p o)
| sys_zero opts s p o : sys_step e (Sys s p o) (Sys (zero e opts s) p (o || busy p))
| sys_tick now s p o : sys_step e (Sys s p o) (Sys (tick e now s) p (o || (due now s && busy p)))
| sys_idle ms s p o : sys_step e (Sys s p o) (Sys (setIdleMs ms s) p o)
| sys_trust now b s p o : sys_step e (Sys s p o) (Sys (setTrustedDevice e now b s) p o)
| sys_storage w s p o : sys_step e (Sys s p o) (Sys (with_web w s) p o)
| sys_cache_loaded n s p o : sys_step e (Sys s p o) (Sys (St (vs s) (ws s) (Some n)) p o).

(** *** Each operation is such steps *)

Lemma hydrate_runs e now priv pub fp s o :
  rtc (sys_step e) (Sys s [] o) (Sys (hydrateUnlockedAccount now priv pub fp s).2 [] o).
Proof.
  destruct (hydrateUnlockedAccount _ _ _ _ _) as [r s'] eqn:E. apply hydrate_inv in E.
  destruct r; [|by subst]. destruct E as (k & pk & Hc & Hk & ->).
  eapply rtc_l; [by eapply sys_begin_account|]. rewrite bool_decide_true, orb_false_r by constructor.
  apply rtc_once, (sys_write_account e now pk priv _ _ [] []).
Qed.

Lemma unlockIdentity_runs e now row s o :
  rtc (sys_step e) (Sys s [] o) (Sys (unlockIdentity now row s).2 [] o).
Proof.
  unfold unlockIdentity. destruct (accountPrivateKey _) as [a|] eqn:E; [|done].
  destruct (open_identity a row) as [[k i]|] eqn:Eo; [|done].
  eapply rtc_l; [by eapply sys_begin_identity|]. apply rtc_once, (sys_write_identity e now _ k i _ [] []).
Qed.

Lemma ensure_runs e now fp rows s o :
  rtc (sys_step e) (Sys s [] o) (Sys (ensureIdentityUnlocked now fp rows s).2 [] o).
Proof.
  unfold ensureIdentityUnlocked.
  destruct (negb (isUnlocked s)); [done|]. destruct (_ =s? ""); [done|]. destruct (negb _ && _); [done|].
  destruct rows as [rows|]; [|done]. destruct (find_row _ rows) as [[row|]|]; try done.
  destruct (negb _); [done|]. pose proof (unlockIdentity_runs e now row s o) as Hu.
  by destruct (unlockIdentity now row s) as [[] ?].
Qed.

Lemma decryptToString_runs e now msg fp rows s o :
  rtc (sys_step e) (Sys s [] o) (Sys (decryptToString now msg fp rows s).2 [] o).
Proof.
  unfold decryptToString, decryptToResult.
  pose proof (ensure_runs e now (to_upper fp) rows s o) as He.
  destruct (ensureIdentityUnlocked _ _ _ _) as [[] s1]; [|done]. simpl in He. etrans; [exact He|].
  destruct (getIdentity now (to_upper fp) s1) as [i s2] eqn:E.
  assert (s2 = touch now s1) as -> by (unfold getIdentity in E; destruct (_ =s? ""); congruence).
  eapply rtc_l; [apply sys_touch|].
  destruct i; [|apply rtc_refl]. destruct (res_bind msg _) as [[? []]|]; [apply rtc_once, sys_touch | done].
Qed.

Lemma try_each_runs e now msg rows fps err s o :
  rtc (sys_step e) (Sys s [] o) (Sys (try_each now msg rows fps err s).2 [] o).
Proof.
  revert err s. induction fps as [|fp fps IH]; simpl; intros err s; [done|].
  pose proof (decryptToString_runs e now msg fp (Ok rows) s o) as Hd.
  destruct (decryptToString _ _ _ _ _) as [[] s']; [done|]. etrans; [exact Hd | apply IH].
Qed.

(** Run alone, an operation of the interface is a sequence of steps that leaves nothing
    under way and overtakes nothing. *)
Lemma op_runs e s s' o : op e s s' -> rtc (sys_step e) (Sys s [] o) (Sys s' [] o).
Proof.
  intros Hop. destruct Hop.
  - unfold unlockAccount. destruct (res_bind _ _) as [priv|]; [|done].
    pose proof (hydrate_runs e now priv (me_armored_public me) (me_fingerprint me) s o) as Hh.
    destruct (hydrateUnlockedAccount _ _ _ _ _) as [[] ?]; [|done]. etrans; [exact Hh | apply rtc_once, sys_storage].
  - unfold tryRestoreAccountFromSession. destruct (readPersistedAccountCache _ _) as [[c|] w]; [|apply rtc_once, sys_storage].
    eapply rtc_l; [apply (sys_storage e w)|]. destruct (negb _ && _); [apply rtc_once, sys_storage|].
    pose proof (hydrate_runs e now (pc_accountArmoredPriv c) (pc_accountArmoredPub c) (pc_accountFingerprint c) (with_web w s) o) as Hh.
    destruct (hydrateUnlockedAccount _ _ _ _ _) as [[] s1]; [exact Hh|]. etrans; [exact Hh|].
    eapply rtc_l; [apply sys_storage|]. apply rtc_once.
    pose proof (sys_zero e (Some (Some false, None)) (with_web (clearPersistedAccountCache (ws s1)) s1) [] o) as Hz.
    by rewrite orb_false_r in Hz.
  - apply unlockIdentity_runs.
  - apply ensure_runs.
  - unfold ensureIdentityUnlockedByEmail. destruct (negb _); [done|]. destruct (_ =s? ""); [done|].
    unfold getIdentityByEmail. eapply rtc_l; [apply (sys_touch e now)|].
    destruct (negb _); [done|]. destruct rows; [|done]. destruct (List.find _ _) as [[r|]|]; try done.
    destruct (negb (row_has_secret r)); [done | apply unlockIdentity_runs].
  - unfold tryDefaultDecrypt. destruct (negb _); [done|]. destruct rows; [|done]. apply try_each_runs.
  - apply rtc_once, sys_touch.
  - apply rtc_once. pose proof (sys_zero e opts s [] o) as Hz. by rewrite orb_false_r in Hz.
  - apply rtc_once. pose proof (sys_tick e now s [] o) as Hz. by rewrite andb_false_r, orb_false_r in Hz.
  - apply rtc_once, sys_idle.
  - apply rtc_once, sys_trust.
Qed.

(** *** What holds however they overlap *)

Record vault_sound (v : vault) : Prop := {
  so_account : forall k, accountPrivateKey v = Some k ->
    exists pub raw, pgpFingerprint pub = Ok raw /\ key_matches k (normalizeFingerprint raw);
  so_keys : NoDup (map fst (identities v));
  so_identities : Forall identity_ok (identities v);
  so_default : defaultIdentityFingerprint v = "" /\ identities v = [] \/
               defaultIdentityFingerprint v ∈ map fst (identities v);
  so_idle : (60 * 1000 <= idleMs v)%Z;
}.

(** The account key is the one an account unlock under way has set. *)
Definition key_of_unlock (v : vault) (p : under_way) : Prop :=
  match p with
  | PAccount _ _ fp => exists k, accountPrivateKey v = Some k /\ key_matches k fp
  | PIdentity _ _ _ => accountPrivateKey v <> None
  end.
Definition pending_ok (p : under_way) : Prop :=
  if p is PIdentity _ k ident then identity_ok (k, ident) else True.

Definition accounts (p : list under_way) : nat := length (filter (fun x => ~ no_account x) p).

(** While nothing was overtaken: at most one account unlock is under way, and the
    vault is whole when there is none. *)
Definition in_order (t : sys) : Prop :=
  let v := vs (sy_st t) in let p := sy_pending t in
  Forall (key_of_unlock v) p /\ accounts p <= 1 /\ (Forall no_account p -> vault_ok v).

Record sys_inv (t : sys) : Prop := {
  si_sound : vault_sound (vs (sy_st t));
  si_pending : Forall pending_ok (sy_pending t);
  si_order : sy_overtaken t = false -> in_order t;
}.

Lemma accounts_app p q : accounts (p ++ q) = accounts p + accounts q.
Proof. unfold accounts. by rewrite filter_app, length_app. Qed.
Lemma accounts_cons x p : accounts (x :: p) = (if x is PAccount _ _ _ then 1 else 0) + accounts p.
Proof. unfold accounts. rewrite filter_cons. case_decide; destruct x; simpl in *; naive_solver. Qed.
Lemma accounts_none p : accounts p = 0 <-> Forall no_account p.
Proof.
  induction p as [|x p IH]; [by split|]. rewrite accounts_cons, Forall_cons, <- IH. destruct x; simpl; [tauto | split; [done | tauto]].
Qed.

(** Steps that keep the keys keep all of it. *)
Definition same_keys (v v' : vault) : Prop :=
  accountPrivateKey v' = accountPrivateKey v /\ identities v' = identities v /\
  defaultIdentityFingerprint v' = defaultIdentityFingerprint v /\ (60 * 1000 <= idleMs v')%Z.

Lemma same_keys_sound v v' : same_keys v v' -> vault_sound v -> vault_sound v'.
Proof. intros (Ha & Hi & Hd & Hm) [S1 S2 S3 S4 S5]. split; by rewrite ?Ha, ?Hi, ?Hd. Qed.

Lemma same_key_unlocks v v' p :
  accountPrivateKey v' = accountPrivateKey v -> Forall (key_of_unlock v) p -> Forall (key_of_unlock v') p.
Proof. intros Ha Hp. eapply Forall_impl; [exact Hp|]. intros []; simpl; by rewrite Ha. Qed.

Lemma same_keys_inv s s' p o :
  same_keys (vs s) (vs s') -> (vault_ok (vs s) -> vault_ok (vs s')) -> sys_inv (Sys s p o) -> sys_inv (Sys s' p o).
Proof.
  intros Hs Hv [I1 I2 I3]. split; [by eapply same_keys_sound | done |]. intros Ho. destruct (I3 Ho) as (A & B & C).
  split_and!; [eapply same_key_unlocks; [apply Hs | done] | done | auto].
Qed.

Lemma unlocked_sound_empty v : (60 * 1000 <= idleMs v)%Z -> identities v = [] -> defaultIdentityFingerprint v = "" ->
  (forall k, accountPrivateKey v = Some k ->
     exists pub raw, pgpFingerprint pub = Ok raw /\ key_matches k (normalizeFingerprint raw)) -> vault_sound v.
Proof. intros Hm Hi Hd Ha. split; rewrite ?Hi; try done; [apply NoDup_nil_2 | by left]. Qed.

Lemma zero_inv e opts s p o : sys_inv (Sys s p o) -> sys_inv (Sys (zero e opts s) p (o || busy p)).
Proof.
  intros [[_ _ _ _ Hm] I2 I3]. split; [by apply unlocked_sound_empty | done |].
  simpl. intros [Ho Hp]%orb_false_iff. destruct p; [|done]. destruct (I3 Ho) as (_ & _ & C).
  split_and!; [constructor | vm_compute; lia | intros _; apply zero_ok; by apply C].
Qed.

Lemma begin_account_inv priv pub fp0 k pk fp s p o :
  check_account priv pub fp0 = Ok (k, fp) -> readKey pub = Ok pk -> sys_inv (Sys s p o) ->
  sys_inv (Sys (set_account_key k s) (p ++ [PAccount pk priv fp]) (o || negb (bool_decide (Forall no_account p)))).
Proof.
  intros (_ & Hm & _ & pk' & Hk & Hf)%check_account_ok Hpk [[_ S2 S3 S4 S5] I2 I3]. split.
  - split; try done. simpl. intros ? [= <-]. exists pub, (to_upper (pub_fingerprint pk')).
    split; [by unfold pgpFingerprint; rewrite Hk | by rewrite <- Hf].
  - apply Forall_app; split; [done | by repeat constructor].
  - simpl. intros [Ho Hp]%orb_false_iff. apply negb_false_iff, bool_decide_eq_true in Hp.
    split_and!; cbn [sy_pending sy_st].
    + apply Forall_app; split; [|constructor; [simpl; eauto | done]].
      eapply Forall_impl; [exact Hp|]. by intros [].
    + apply accounts_none in Hp. rewrite accounts_app, Hp, accounts_cons. simpl. unfold accounts. simpl. lia.
    + intros [_ Hn]%Forall_app. by inversion Hn.
Qed.

Lemma write_account_inv now pk priv fp s p1 p2 o :
  sys_inv (Sys s (p1 ++ PAccount pk priv fp :: p2) o) -> sys_inv (Sys (set_account_rest now pk priv fp s) (p1 ++ p2) o).
Proof.
  intros [[S1 _ _ _ S5] I2 I3]. cbn [sy_pending sy_st] in *. split.
  - by apply unlocked_sound_empty.
  - rewrite Forall_app, Forall_cons in I2. apply Forall_app. tauto.
  - intros Ho. destruct (I3 Ho) as (A & B & _). cbn [sy_pending sy_st] in *.
    rewrite Forall_app, Forall_cons in A. destruct A as (A1 & (k & Hk & Hm) & A2).
    rewrite accounts_app, accounts_cons in B.
    split_and!; cbn [sy_pending sy_st]; [| rewrite accounts_app; lia |].
    + apply (same_key_unlocks (vs s)); [done | by apply Forall_app].
    + intros _. by eapply account_rest_ok.
Qed.

Lemma begin_identity_inv account row k ident s p o :
  accountPrivateKey (vs s) = Some account -> open_identity account row = Ok (k, ident) -> sys_inv (Sys s p o) ->
  sys_inv (Sys s (p ++ [PIdentity (ir_is_default row) k ident]) o).
Proof.
  intros Ha [Hi _]%open_identity_ok [I1 I2 I3]. split; [done | apply Forall_app; split; [done | by repeat constructor] |].
  intros Ho. destruct (I3 Ho) as (A & B & C). split_and!; cbn [sy_pending sy_st] in *.
  - apply Forall_app; split; [done|]. constructor; [simpl; by rewrite Ha | done].
  - rewrite accounts_app, accounts_cons. unfold accounts at 2. simpl. lia.
  - intros [Hn _]%Forall_app. auto.
Qed.

Lemma write_identity_inv now d k ident s p1 p2 o :
  sys_inv (Sys s (p1 ++ PIdentity d k ident :: p2) o) -> sys_inv (Sys (store_identity now d k ident s) (p1 ++ p2) o).
Proof.
  intros [[S1 S2 S3 S4 S5] I2 I3]. cbn [sy_pending sy_st] in *.
  rewrite Forall_app, Forall_cons in I2. destruct I2 as (P1 & Hi & P2). split.
  - split; simpl; [done | by apply map_set_NoDup | by apply map_set_Forall | | done].
    right. destruct (d || _) eqn:E; [apply map_set_in|]. bool_to_prop.
    destruct S4 as [[? _]|S4]; [done|]. by apply map_set_old.
  - by apply Forall_app.
  - intros Ho. destruct (I3 Ho) as (A & B & C). cbn [sy_pending sy_st] in *.
    rewrite Forall_app, Forall_cons in A, C. destruct A as (A1 & Ak & A2). rewrite accounts_app, accounts_cons in B.
    split_and!; cbn [sy_pending sy_st]; [| rewrite accounts_app; lia |].
    + apply (same_key_unlocks (vs s)); [done | by apply Forall_app].
    + intros [N1 N2]%Forall_app. apply store_identity_ok; [exact Ak | exact Hi | by apply C].
Qed.

Lemma sys_step_inv e t t' : sys_step e t t' -> sys_inv t -> sys_inv t'.
Proof.
  intros Hs Hi. pose proof (so_idle _ (si_sound _ Hi)) as Hm.
  destruct Hs as [priv pub fp0 k pk fp s p o Hc Hk | | account row k ident s p o Ha Ho | | now s p o | opts s p o | now s p o
    | ms s p o | now b s p o | |]; cbn [sy_st] in Hm.
  - by eapply begin_account_inv.
  - by apply write_account_inv.
  - by eapply begin_identity_inv.
  - by apply write_identity_inv.
  - revert Hi. apply same_keys_inv; [done | apply touch_ok].
  - by apply zero_inv.
  - unfold tick, due. destruct (timer (vs s)) as [t|]; [|by rewrite orb_false_r].
    destruct (t <=? now)%Z; [by apply zero_inv | by rewrite orb_false_r].
  - revert Hi. apply same_keys_inv; [split_and!; simpl; [done..|lia] | apply setIdleMs_ok].
  - revert Hi. apply same_keys_inv; [|intros Hv; exact (op_ok e _ _ (op_trust e now b s) Hv)].
    unfold setTrustedDevice, applyTrustedIdlePreference. destruct (isUnlocked _); simpl; split_and!; simpl; try done; lia.
  - revert Hi. by apply same_keys_inv.
  - revert Hi. by apply same_keys_inv.
Qed.

Lemma load_inv e now w : sys_inv (Sys (load e now w) [] false).
Proof.
  pose proof (load_ok e now w) as Hl. split; [|constructor|].
  - destruct Hl as [_ _ L3 L4 L5 L6]. by split.
  - intros _. split_and!; [constructor | vm_compute; lia | done].
Qed.

(** C1: however the vault's operations overlap (each may wait between its checks and its
    writes while others, locks and the idle timer among them, run): the account's private
    key is one of a published fingerprint, the open identities have distinct key ids, each
    with a private key of its published fingerprint, the default identity is one of them,
    and the idle time is at least a minute.  And as long as no lock and no second account
    unlock came while an unlock was under way, the vault is, whenever no account unlock is
    under way, either locked and holds no key at all, or unlocked with the private key of
    the fingerprint it keeps, its published key and a running idle timer. *)
Theorem vault_invariant e now w t :
  rtc (sys_step e) (Sys (load e now w) [] false) t ->
  vault_sound (vs (sy_st t)) /\
  (sy_overtaken t = false -> Forall no_account (sy_pending t) -> vault_ok (vs (sy_st t))).
Proof.
  intros Hr. assert (sys_inv t) as [I1 _ I3].
  { pose proof (load_inv e now w) as Hl. induction Hr as [|x y z Hxy _ IH]; [done|]. by eapply IH, sys_step_inv. }
  split; [done|]. intros Ho. by destruct (I3 Ho) as (_ & _ & C).
Qed.

(** Operations run to their end one after the other overtake nothing. *)
Lemma operations_in_turn e now w s :
  rtc (op e) (load e now w) s -> rtc (sys_step e) (Sys (load e now w) [] false) (Sys s [] false).
Proof. generalize (load e now w). induction 1; [done|]. etrans; [by eapply op_runs | done]. Qed.

(** locking does not stop an unlock that is under way: a lock between the
    start of [unlockIdentity] and its writes leaves a locked vault that holds the
    decrypted identity and gives it to whoever asks. *)
Theorem lock_races_unlock e now row s account k ident :
  accountPrivateKey (vs s) = Some account -> open_identity account row = Ok (k, ident) ->
  exists s', rtc (sys_step e) (Sys s [] false) (Sys s' [] true) /\
    isUnlocked s' = false /\ (getIdentity now k s').1 = Some ident /\
    ~ vault_ok (vs s').
Proof.
  intros Ha Ho. exists (store_identity now (ir_is_default row) k ident (zero e None s)). split_and!.
  - eapply rtc_l; [by eapply sys_begin_identity|]. eapply rtc_l; [apply (sys_zero e None)|].
    apply rtc_once, (sys_write_identity e now _ k ident _ [] []).
  - done.
  - apply open_identity_ok in Ho as [(fp & [Hfp Hm] & Hk & _) _]. simpl in Hk.
    assert (normalizeFingerprint fp = fp) as Hn by (rewrite <- Hm; apply normalizeFingerprint_idemp).
    assert (k <> "") as Hk0 by (rewrite Hk, keyid_nonempty; by rewrite Hn).
    unfold getIdentity. simpl. unfold str_or. rewrite (proj2 (String.eqb_neq _ _) Hk0).
    rewrite (proj2 (String.eqb_neq _ _) Hk0), Hk, keyid_idemp, <- Hk, (proj2 (String.eqb_neq _ _) Hk0). simpl.
    by rewrite String.eqb_refl.
  - intros [Hl _ _ _ _ _]. by destruct (Hl eq_refl) as (_ & _ & _ & ?).
Qed.

(** ** Unlocking *)

Lemma hydrate_throw now priv pub fp s m s' : hydrateUnlockedAccount now priv pub fp s = (Throw m, s') -> s' = s.
Proof. intros E. by apply hydrate_inv in E. Qed.

(** C4: unlocking the account is all or nothing.  When it throws, nothing has
    changed; when it returns, the password opened the wrapped secret to a private
    key whose fingerprint is that of the published key and agrees with the row,
    that key is the vault's, no identity is open, the idle timer runs from now,
    and only the storages may have changed besides. *)
Theorem unlockAccount_atomic e now me pw email s r s' :
  unlockAccount e now me pw email s = (r, s') ->
  match r with
  | Throw _ => s' = s
  | Ok fp => exists salt k wrapped bytes priv pub,
      b64ToBytes (me_kdf_salt_b64 me) = Ok salt /\
      deriveKEK pw salt (me_kdf me) (str_or (me_kdf_params_json me) "{}") = Ok k /\
      b64ToBytes (me_wrapped_secret_b64 me) = Ok wrapped /\ aesUnwrap k wrapped = Ok bytes /\
      readPrivateKey (decodeText bytes) = Ok priv /\ readKey (me_armored_public me) = Ok pub /\
      key_matches priv fp /\ fp = normalizeFingerprint (to_upper (pub_fingerprint pub)) /\
      (me_fingerprint me = "" \/ fingerprintsEquivalent (me_fingerprint me) fp = true) /\
      vs s' = Vault (Some priv) (Some pub) (decodeText bytes) fp [] "" now (idleMs (vs s))
                (Some (now + timeout_delay (idleMs (vs s))))%Z /\
      purges s' = purges s
  end.
Proof.
  unfold unlockAccount. destruct (b64ToBytes (me_kdf_salt_b64 me)) as [salt|] eqn:E1; [|by intros [= <- <-]].
  cbn [res_bind]. destruct (deriveKEK _ _ _ _) as [k|] eqn:E2; [|by intros [= <- <-]]. cbn [res_bind].
  destruct (b64ToBytes (me_wrapped_secret_b64 me)) as [wrapped|] eqn:E3; [|by intros [= <- <-]]. cbn [res_bind].
  destruct (aesUnwrap k wrapped) as [bytes|] eqn:E4; [|by intros [= <- <-]]. cbn [res_bind res_catch].
  destruct (hydrateUnlockedAccount _ _ _ _ _) as [[fp|] s1] eqn:E5; apply hydrate_inv in E5; [|intros [= <- <-]; exact E5].
  destruct E5 as (priv & pub & (Hp & Hm & Hf & pk & Hk & Hfp)%check_account_ok & Hk' & ->). intros [= <- <-].
  assert (pk = pub) as -> by congruence. exists salt, k, wrapped, bytes, priv, pub. by split_and!.
Qed.

(** ** Locking *)

(** A storage that works, or none. *)
Definition works (o : option wstore) : Prop := match o with Some s => ws_works s = true | None => True end.

Lemma cleared_unusable o : works o -> usable_cache (try_removeItem PERSIST_KEY <$> o) = None.
Proof.
  destruct o as [[items w]|]; [|done]. simpl. intros ->. unfold usable_cache, try_removeItem. simpl.
  by rewrite lookup_delete_eq.
Qed.

Lemma clear_flag_usable e w a :
  usable_cache (get_area a (clearTrustedDeviceFlag e w)) = usable_cache (get_area a w).
Proof.
  unfold clearTrustedDeviceFlag. destruct (storage e AtClearFlag w) as [b|]; [|done].
  assert (forall o, usable_cache (try_removeItem TRUSTED_DEVICE_KEY <$> o) = usable_cache o) as Hr.
  { intros [[items []]|]; try done. unfold usable_cache, try_removeItem. simpl. by rewrite lookup_delete_ne. }
  destruct a, b; simpl; by rewrite ?Hr.
Qed.

Lemma read_none e w :
  usable_cache (sessionStorage w) = None -> usable_cache (localStorage w) = None ->
  readPersistedAccountCache e w = (None, clearAllPersistedCaches w).
Proof. intros H1 H2. unfold readPersistedAccountCache. destruct (readTrustedDeviceFlag _ _ _); simpl; by rewrite H1, H2. Qed.

(** C3: a lock is complete: after [zero()] in a browser whose storages work,
    the vault is locked, every identity is gone, the mail cache is purged when its
    script is loaded, and no later [tryRestoreAccountFromSession], for any user, unlocks it again. *)
Theorem lock_is_complete e now email fp s :
  works (sessionStorage (ws s)) -> works (localStorage (ws s)) ->
  let s' := zero e None s in
  isUnlocked s' = false /\ (getIdentity now fp s').1 = None /\ purges s' = S <$> purges s /\
  exists s2, tryRestoreAccountFromSession e now email s' = (false, s2) /\ isUnlocked s2 = false.
Proof.
  intros H1 H2 s'. split_and!; [done | | done |].
  - unfold getIdentity. simpl. destruct (_ =s? ""); [done|]. by destruct (_ =s? "").
  - unfold tryRestoreAccountFromSession. cbn [s' ws zero andb].
    rewrite read_none; [eauto| |].
    + change (sessionStorage (clearTrustedDeviceFlag e ?w)) with (get_area Session (clearTrustedDeviceFlag e w)).
      rewrite clear_flag_usable. apply cleared_unusable. done.
    + change (localStorage (clearTrustedDeviceFlag e ?w)) with (get_area Local (clearTrustedDeviceFlag e w)).
      rewrite clear_flag_usable. apply cleared_unusable. done.
Qed.

(** an idle vault locks itself: when nothing touched the vault since
    [now], it is locked at the first look at the clock after the idle time, and
    neither the cached account key nor the trusted-device flag is removed. *)
Theorem idle_vault_locks e now later s :
  (60 * 1000 <= idleMs (vs s) < 2 ^ 31)%Z -> (now + idleMs (vs s) <= later)%Z ->
  let s' := tick e later (touch now s) in
  isUnlocked s' = false /\ identities (vs s') = [] /\ ws s' = ws s /\ purges s' = purges s.
Proof.
  intros Hi Hl s'. unfold s', tick. simpl.
  assert (timeout_delay (idleMs (vs s)) = idleMs (vs s)) as ->.
  { unfold timeout_delay. rewrite Z.mod_small by lia. lia. }
  rewrite (proj2 (Z.leb_le _ _)) by done. done.
Qed.

(** The idle times the vault sets itself are within [setTimeout]'s range. *)
Lemma preference_in_range e now s :
  let ms := idleMs (vs (applyTrustedIdlePreference e now s)) in
  (60 * 1000 <= ms < 2 ^ 31)%Z /\ timeout_delay ms = ms.
Proof.
  cbv zeta. assert (forall s1, idleMs (vs (if isUnlocked s1 then touch now s1 else s1)) = idleMs (vs s1)) as Hid.
  { intros s1. by destruct (isUnlocked s1). }
  unfold applyTrustedIdlePreference. rewrite Hid. by destruct (readTrustedDeviceFlag _ _ _).
Qed.

(** unlocking, going idle and coming back: the account cached by
    [unlockAccount] is restored with the same key for the same user, and refused,
    with the cache removed from both storages, for another one. *)
Theorem restore_after_idle e now later me pw email other s fp s1 :
  flag_is_set (ws s) Session = false -> ws_works <$> sessionStorage (ws s) = Some true ->
  storage e AtPersist (ws s) = Some Session -> me_armored_public me <> "" ->
  unlockAccount e now me pw email s = (Ok fp, s1) -> accountArmoredPriv (vs s1) <> "" ->
  let idle := zero e (Some (Some false, None)) s1 in
  (exists s2, tryRestoreAccountFromSession e later email idle = (true, s2) /\
     accountPrivateKey (vs s2) = accountPrivateKey (vs s1) /\ accountFingerprint (vs s2) = fp) /\
  (normalizeEmail other <> "" -> normalizeEmail other <> normalizeEmail email ->
   exists s2, tryRestoreAccountFromSession e later other idle = (false, s2) /\
     isUnlocked s2 = false /\ ws s2 = clearAllPersistedCaches (ws s1)).
Proof.
  intros Hf Hw Hst Hpub Hun Hne idle. unfold unlockAccount in Hun.
  destruct (res_bind _ _) as [priv|]; [|done].
  destruct (hydrateUnlockedAccount _ _ _ _ _) as [[r|] s0] eqn:E0; [|done]. apply hydrate_inv in E0 as (k & pk & E & Hpk & ->).
  injection Hun as Hr0 <-. subst fp. rename r into fp. cbn [vs with_web accountArmoredPriv accountPrivateKey touch set_account_rest set_account_key] in *.
  pose proof (persist_read e now priv fp email (me_armored_public me) (ws s) Hf Hw Hst Hne Hpub) as Hread. cbv zeta in Hread.
  unfold tryRestoreAccountFromSession, idle. cbn [ws zero with_web touch vs set_account_rest set_account_key]. rewrite Hread. cbn [pc_sessionEmail].
  split.
  - rewrite String.eqb_refl, andb_false_r. cbn [pc_accountArmoredPriv pc_accountArmoredPub pc_accountFingerprint].
    pose proof (check_account_again _ _ _ _ _ E) as Hc.
    unfold hydrateUnlockedAccount. rewrite Hc, Hpk. eexists. split; [done|]. done.
  - intros Ho1 Ho2. rewrite (proj2 (String.eqb_neq _ _) Ho1), (proj2 (String.eqb_neq _ _) (not_eq_sym Ho2)). simpl. eauto.
Qed.

(** nor an account unlock: a lock between the check of the key and the last writes
    leaves a locked vault, and then [unlockAccount] writes the cache the lock has
    removed, so that the next restore opens the vault without the password. *)
Lemma lock_races_account e (now later : Z) priv pub fp0 k pk fp email s :
  check_account priv pub fp0 = Ok (k, fp) -> readKey pub = Ok pk -> priv <> "" -> pub <> "" ->
  let locked := zero e None (set_account_key k s) in
  flag_is_set (ws locked) Session = false -> ws_works <$> sessionStorage (ws locked) = Some true ->
  storage e AtPersist (ws locked) = Some Session ->
  exists s', rtc (sys_step e) (Sys s [] false) (Sys s' [] true) /\ isUnlocked s' = false /\
    exists s2, tryRestoreAccountFromSession e later email s' = (true, s2) /\ accountPrivateKey (vs s2) = Some k.
Proof.
  intros Hc Hk Hpriv Hpub locked Hf Hw Hst.
  set (s1 := set_account_rest now pk priv fp locked).
  exists (with_web (persistAccountCache e now priv fp email pub (ws s1)) s1). split_and!; [| done |].
  - eapply rtc_l; [by eapply sys_begin_account|]. eapply rtc_l; [apply (sys_zero e None)|].
    rewrite bool_decide_true by constructor. cbn [negb orb busy app].
    eapply rtc_l; [apply (sys_write_account e now pk priv fp _ [] [])|]. apply rtc_once, sys_storage.
  - pose proof (persist_read e now priv fp email pub (ws locked) Hf Hw Hst Hpriv Hpub) as Hread. cbv zeta in Hread.
    unfold tryRestoreAccountFromSession. cbn [ws with_web s1 set_account_rest touch]. rewrite Hread. cbn [pc_sessionEmail].
    rewrite String.eqb_refl, andb_false_r. cbn [pc_accountArmoredPriv pc_accountArmoredPub pc_accountFingerprint].
    unfold hydrateUnlockedAccount. rewrite (check_account_again _ _ _ _ _ Hc), Hk. eexists. by split.
Qed.

(** ** Choosing an identity to decrypt with *)

Lemma index_in_split d fps i :
  index_in d fps = Some i -> fps = take i fps ++ d :: drop (S i) fps.
Proof.
  revert i. induction fps as [|x fps IH]; simpl; intros i; [done|].
  destruct (x =s? d) eqn:E; [intros [= <-]; bool_to_prop; by subst|].
  destruct (index_in d fps) as [j|]; [|done]. intros [= <-]. simpl. by rewrite <- IH.
Qed.
Lemma index_in_elem d fps : d ∈ fps -> exists i, index_in d fps = Some i.
Proof.
  induction 1 as [|x y fps Hin [i IH]]; simpl; [rewrite String.eqb_refl; eauto|].
  destruct (y =s? x); [eauto|]. rewrite IH. simpl. eauto.
Qed.

Lemma move_to_front_perm d fps : move_to_front d fps ≡ₚ fps.
Proof.
  unfold move_to_front. destruct (index_in d fps) as [[|i]|] eqn:E; [done| |done].
  apply index_in_split in E. rewrite E at 3. by rewrite <- Permutation_middle.
Qed.
Lemma move_to_front_head d fps : d ∈ fps -> head (move_to_front d fps) = Some d.
Proof.
  intros (i & Hi)%index_in_elem. unfold move_to_front. rewrite Hi. destruct i; [|done].
  apply index_in_split in Hi. by rewrite Hi.
Qed.

Lemma candidates_rows rows v :
  let fps := nonempty_strings (map (fun r => to_upper (ir_fingerprint r)) (usable_rows rows)) in
  fps <> [] ->
  candidate_fingerprints rows v ≡ₚ fps /\
  (forall r, List.find ir_is_default (usable_rows rows) = Some r -> to_upper (ir_fingerprint r) <> "" ->
     head (candidate_fingerprints rows v) = Some (to_upper (ir_fingerprint r))).
Proof.
  cbv zeta. unfold candidate_fingerprints. set (usable := usable_rows rows).
  set (fps := nonempty_strings _). intros Hne.
  assert (forall d l, match move_to_front d fps with [] => l | _ => move_to_front d fps end = move_to_front d fps) as Hm.
  { intros d l. pose proof (move_to_front_perm d fps) as Hp. destruct (move_to_front d fps); [|done].
    by apply Permutation_nil_l in Hp. }
  destruct (List.find ir_is_default usable) as [r|] eqn:Er.
  - destruct (to_upper (ir_fingerprint r) =s? "") eqn:E0; bool_to_prop.
    + split; [by destruct fps|]. by intros ? [= <-].
    + rewrite Hm. split; [apply move_to_front_perm|]. intros ? [= <-] _.
      apply move_to_front_head. apply List.find_some in Er as [Hin _].
      unfold fps, nonempty_strings. apply list_elem_of_In, List.filter_In. split; [|by rewrite (proj2 (String.eqb_neq _ _) E0)].
      apply List.in_map_iff. eauto.
  - simpl. split; [by destruct fps | done].
Qed.

Lemma try_each_spec now msg rows fps err s r s' :
  try_each now msg rows fps err s = (r, s') ->
  match r with
  | Ok (data, fp) => exists pre post s1 s2, fps = pre ++ fp :: post /\
      decryptToString now msg fp (Ok rows) s1 = (Ok data, s2) /\ s' = s2
  | Throw m => match last fps with
               | None => m = default "no identity decrypts message" err
               | Some fp => exists s1 s2, decryptToString now msg fp (Ok rows) s1 = (Throw m, s2) /\ s' = s2
               end
  end.
Proof.
  revert err s. induction fps as [|fp fps IH]; cbn [try_each]; intros err s; [by intros [= <- <-]|].
  destruct (decryptToString now msg fp (Ok rows) s) as [[data|m] s1] eqn:E.
  - intros [= <- <-]. exists [], fps, s, s1. done.
  - intros Ht. pose proof (IH _ _ Ht) as Hr. destruct r as [[data fp']|m'].
    + destruct Hr as (pre & post & s2 & s3 & -> & ? & ?). exists (fp :: pre), post, s2, s3. done.
    + destruct fps as [|fp2 fps];
        [|change (last (fp :: fp2 :: fps)) with (last (fp2 :: fps));
          destruct (last (fp2 :: fps)) eqn:El; [exact Hr | by apply last_None in El]]. simpl in Hr. subst m'. simpl in Ht. injection Ht as <-. simpl. eauto.
Qed.

(** decrypting with whatever identity fits tries the fingerprints of the
    usable rows, each of them, the default identity's first; what it returns is
    the decryption by the identity it names, and what it throws, when no
    candidate decrypts, is the failure of the last one. *)
Theorem default_decrypt_order now msg rows s r s' :
  let usable := usable_rows rows in
  let fps := nonempty_strings (map (fun r => to_upper (ir_fingerprint r)) usable) in
  let tried := candidate_fingerprints rows (vs s) in
  isUnlocked s = true -> fps <> [] -> tryDefaultDecrypt now msg (Ok rows) s = (r, s') ->
  tried ≡ₚ fps /\
  (forall d, List.find ir_is_default usable = Some d -> to_upper (ir_fingerprint d) <> "" ->
     head tried = Some (to_upper (ir_fingerprint d))) /\
  match r with
  | Ok (data, fp) => exists pre post s1, tried = pre ++ fp :: post /\
      decryptToString now msg fp (Ok rows) s1 = (Ok data, s')
  | Throw m => exists fp s1, last tried = Some fp /\ decryptToString now msg fp (Ok rows) s1 = (Throw m, s')
  end.
Proof.
  intros usable fps tried Hu Hne Ht. destruct (candidates_rows rows (vs s) Hne) as [Hp Hd].
  split; [exact Hp|]. split; [exact Hd|]. unfold tryDefaultDecrypt in Ht. rewrite Hu in Ht. cbn [negb] in Ht.
  apply try_each_spec in Ht. destruct r as [[data fp]|m].
  - destruct Ht as (pre & post & s1 & s2 & ? & ? & ->). eauto 6.
  - fold tried in Ht. destruct (last tried) as [fp|] eqn:El.
    + destruct Ht as (s1 & s2 & ? & ->). eauto.
    + apply last_None in El. unfold tried in El. rewrite El in Hp. symmetry in Hp. by apply Permutation_nil_r in Hp.
Qed.
End Props.

(** ** Witnesses

    Keys, messages and their armor are strings; a key is its fingerprint. *)
#[export] Instance toy_pgp : OpenPGP := {|
  privkey := string; pubkey := string; pgpmsg := string;
  readPrivateKey := fun s => if s =s? "" then Throw "bad key" else Ok s;
  readKey := fun s => if s =s? "" then Throw "bad key" else Ok s;
  priv_fingerprint := fun k => k;
  pub_fingerprint := fun k => k;
  readMessage := fun s => Ok s;
  decrypt := fun m _ => Ok m;
  decryptSigned := fun m k _ => if m =s? k then Ok (m, []) else Throw "wrong key";
  encryptKey := fun k _ => Ok k;
  armor := fun k => k;
|}.
#[export] Instance toy_kdf : KeyDerivation := {|
  kek := string;
  deriveKEK := fun pw _ _ _ => Ok pw;
  aesUnwrap := fun k w => if k =s? "pw" then Ok w else Throw "OperationError";
  b64ToBytes := fun s => Ok s;
  decodeText := fun s => s;
  sha256 := fun s => s;
|}.

Definition sample_me : meRow := MeRow "argon2id" "" "salt" "AA" "aa" "AA".
Definition sample_web : web := Web (Some empty_store) (Some empty_store).
Definition sample_locked : st := load sample_engine 0 sample_web.
Definition sample_unlocked : st := (unlockAccount sample_engine 5 sample_me "pw" "a@b.c" sample_locked).2.
Definition sample_row : idRow := IdRow "BB" "me@b.c" "BB" "BB" "" true.

(** Two identities are decrypted while the account is touched, and written in the other order. *)
Lemma vault_invariant_witness :
  let s := set_account_rest (H := toy_pgp) 5 "aa" "AA" "AA" (set_account_key (H := toy_pgp) "AA" sample_locked) in
  let i := @Identity toy_pgp "me@b.c" "BB" "BB" "BB" "BB" in
  let j := @Identity toy_pgp "cc@b.c" "CC" "CC" "CC" "CC" in
  vault_ok (vs (store_identity 8 true "BB" i (store_identity 7 false "CC" j (touch 6 s)))).
Proof.
  intros s i j.
  apply (vault_invariant sample_engine 0 sample_web (Sys (store_identity 8 true "BB" i (store_identity 7 false "CC" j (touch 6 s))) [] false));
    [|reflexivity | constructor].
  eapply rtc_l; [apply (sys_begin_account (H := toy_pgp) sample_engine "AA" "aa" "AA" "AA" "aa" "AA"); vm_compute; reflexivity|].
  eapply rtc_l; [apply (sys_write_account (H := toy_pgp) sample_engine 5 "aa" "AA" "AA" _ [] [])|].
  eapply rtc_l; [apply (sys_begin_identity (H := toy_pgp) sample_engine "AA" sample_row "BB" i); vm_compute; reflexivity|].
  eapply rtc_l; [apply (sys_touch sample_engine 6)|].
  eapply rtc_l; [apply (sys_begin_identity (H := toy_pgp) sample_engine "AA" (IdRow "CC" "cc@b.c" "CC" "CC" "" false) "CC" j); vm_compute; reflexivity|].
  eapply rtc_l; [apply (sys_write_identity sample_engine 7 false "CC" j _ [PIdentity true "BB" i] [])|].
  apply rtc_once, (sys_write_identity sample_engine 8 true "BB" i _ [] []).
Defined.

Lemma unlockAccount_atomic_witness :
  (unlockAccount sample_engine 5 sample_me "no" "a@b.c" sample_locked).2 = sample_locked.
Proof. apply (unlockAccount_atomic sample_engine 5 sample_me "no" "a@b.c" sample_locked (Throw "Incorrect password.")). reflexivity. Defined.

Lemma lock_is_complete_witness : isUnlocked (zero sample_engine None sample_unlocked) = false.
Proof. apply (lock_is_complete sample_engine 7 "a@b.c" "BB" sample_unlocked); vm_compute; reflexivity. Defined.

Lemma idle_vault_locks_witness :
  isUnlocked (tick sample_engine 900010 (touch 10 sample_unlocked)) = false.
Proof. apply (idle_vault_locks sample_engine 10 900010 sample_unlocked); vm_compute; [split; [discriminate | reflexivity] | discriminate]. Defined.

Lemma restore_after_idle_witness :
  exists s2, tryRestoreAccountFromSession sample_engine 9 "a@b.c" (zero sample_engine (Some (Some false, None)) sample_unlocked) = (true, s2).
Proof.
  destruct (restore_after_idle sample_engine 5 9 sample_me "pw" "a@b.c" "x@y.z" sample_locked "AA" sample_unlocked) as [(s2 & Hs & _) _];
    try (vm_compute; reflexivity); try (vm_compute; discriminate).
  exists s2. exact Hs.
Defined.

Lemma lock_races_unlock_witness :
  exists s', isUnlocked s' = false /\ exists i, (getIdentity 8 "BB" s').1 = Some i.
Proof.
  destruct (lock_races_unlock (H := toy_pgp) sample_engine 8 sample_row sample_unlocked "AA" "BB"
    (@Identity toy_pgp "me@b.c" "BB" "BB" "BB" "BB"))
    as (s' & _ & Hl & Hg & _); [reflexivity..|]. eauto.
Defined.

Lemma default_decrypt_order_witness :
  exists pre post, candidate_fingerprints [Some (IdRow "cc" "" "CC" "CC" "" false); Some sample_row] (vs sample_unlocked)
                   = pre ++ "BB" :: post.
Proof.
  destruct (default_decrypt_order (H := toy_pgp) 8 (Ok "BB") [Some (IdRow "cc" "" "CC" "CC" "" false); Some sample_row] sample_unlocked
    (Ok ("BB", "BB")) (tryDefaultDecrypt (H := toy_pgp) 8 (Ok "BB") (Ok [Some (IdRow "cc" "" "CC" "CC" "" false); Some sample_row]) sample_unlocked).2)
    as (_ & _ & pre & post & _ & Ht & _); [reflexivity | discriminate | vm_compute; reflexivity |].
  exists pre, post. exact Ht.
Defined.
