(* ===== verification/Base64.v ===== *)
(** * Base64

    [btoa] and [atob] of the web platform, and the two ways the client carries
    bytes in text: plain base64 (each script has its own copy of the helpers) and
    the URL alphabet of [static/auth/webauthn.js].  A byte string is a string:
    one character per byte. *)
From Stdlib Require Import ZArith ZifyNat Lia Ascii.
From S2P Require Import Prelude JsString.

(** ** Sextets *)

Definition byte (c : ascii) : Z := Z.of_N (code c).
Definition char_of (z : Z) : ascii := ascii_of_N (Z.to_N z).

Definition enc6 (z : Z) : ascii :=
  char_of (if z <? 26 then z + 65 else if z <? 52 then z + 71 else if z <? 62 then z - 4
           else if z =? 62 then 43 else 47)%Z.

Definition dec6 (c : ascii) : option Z :=
  if is_upper c then Some (byte c - 65)%Z
  else if is_lower c then Some (byte c - 71)%Z
  else if is_digit c then Some (byte c + 4)%Z
  else if (byte c =? 43)%Z then Some 62%Z
  else if (byte c =? 47)%Z then Some 63%Z
  else None.

(** ** [btoa] *)

(** The digits, without padding. *)
Fixpoint btoa_digits (s : string) : string :=
  match s with
  | EmptyString => EmptyString
  | String a EmptyString =>
      String (enc6 (byte a / 4)) (String (enc6 (byte a mod 4 * 16)) "")
  | String a (String b EmptyString) =>
      String (enc6 (byte a / 4)) (String (enc6 (byte a mod 4 * 16 + byte b / 16))
        (String (enc6 (byte b mod 16 * 4)) ""))
  | String a (String b (String c s)) =>
      String (enc6 (byte a / 4)) (String (enc6 (byte a mod 4 * 16 + byte b / 16))
        (String (enc6 (byte b mod 16 * 4 + byte c / 64)) (String (enc6 (byte c mod 64)) (btoa_digits s))))
  end.

Fixpoint repeat_char (c : ascii) (n : nat) : string :=
  match n with O => EmptyString | S n => String c (repeat_char c n) end.

Definition pad_len (digits : nat) : nat := (4 - digits mod 4) mod 4.

Definition btoa (s : string) : string :=
  let d := btoa_digits s in d +:+ repeat_char "=" (pad_len (String.length d)).

(** ** [atob] *)

Fixpoint decode_digits (s : string) : res string :=
  match s with
  | EmptyString => Ok EmptyString
  | String a (String b s) =>
      match dec6 a, dec6 b with
      | Some a, Some b =>
          match s with
          | EmptyString => Ok (String (char_of (a * 4 + b / 16)) "")
          | String c s =>
              match dec6 c with
              | Some c =>
                  match s with
                  | EmptyString =>
                      Ok (String (char_of (a * 4 + b / 16)) (String (char_of (b mod 16 * 16 + c / 4)) ""))
                  | String d s =>
                      match dec6 d with
                      | Some d =>
                          r <~ decode_digits s ;;
                          Ok (String (char_of (a * 4 + b / 16)) (String (char_of (b mod 16 * 16 + c / 4))
                                (String (char_of (c mod 4 * 64 + d)) r)))
                      | None => Throw "InvalidCharacterError"
                      end
                  end
              | None => Throw "InvalidCharacterError"
              end
          end
      | _, _ => Throw "InvalidCharacterError"
      end
  | String _ EmptyString => Throw "InvalidCharacterError"
  end.

(** ASCII white space, which [atob] ignores. *)
Definition is_ascii_ws (c : ascii) : bool :=
  ((code c =? 9) || (code c =? 10) || (code c =? 12) || (code c =? 13) || (code c =? 32))%N.

Definition strip_padding (s : string) : string :=
  if String.length s mod 4 =? 0 then
    if ends_with s "==" then sinit 2 s else if ends_with s "=" then sinit 1 s else s
  else s.

Definition atob (s : string) : res string :=
  decode_digits (strip_padding (filter_chars (fun c => negb (is_ascii_ws c)) s)).

(** ** The helpers of the scripts *)

(** [bytesToB64], [b64ToBytes]: the loops between bytes and characters are the
    identity here. *)
Definition bytesToB64 (bytes : string) : string := btoa bytes.
Definition b64ToBytes (b64 : string) : res string := atob b64.
(** The variant that drops white space first ([base64ToBytes]). *)
Definition base64ToBytes (raw : string) : res string := atob (filter_chars (fun c => negb (is_ws c)) raw).

(** [webauthn.js] *)
Fixpoint map_chars (f : ascii -> ascii) (s : string) : string :=
  match s with EmptyString => EmptyString | String c s => String (f c) (map_chars f s) end.
Definition url_to_std (c : ascii) : ascii :=
  if (code c =? 45)%N then "+"%char else if (code c =? 95)%N then "/"%char else c.
Definition std_to_url (c : ascii) : ascii :=
  if (code c =? 43)%N then "-"%char else if (code c =? 47)%N then "_"%char else c.

(** [.replace(/=+$/g, "")] *)
Fixpoint strip_equals (s : string) : string :=
  match s with
  | EmptyString => EmptyString
  | String c s =>
      match strip_equals s with
      | EmptyString => if (code c =? 61)%N then EmptyString else String c EmptyString
      | t => String c t
      end
  end.

Definition b64urlToBytes (value : string) : res string :=
  let normalized := map_chars url_to_std value in
  atob (normalized +:+ repeat_char "=" ((4 - String.length normalized mod 4) mod 4)).
Definition bytesToB64url (bytes : string) : string :=
  strip_equals (map_chars std_to_url (btoa bytes)).

(** ** Lemmas *)

Lemma byte_bound c : (0 <= byte c < 256)%Z.
Proof. unfold byte, code. pose proof (N_ascii_bounded c). lia. Qed.
Lemma char_of_byte c : char_of (byte c) = c.
Proof. unfold char_of, byte, code. rewrite N2Z.id. apply ascii_N_embedding. Qed.

Lemma char_eq z c : z = byte c -> char_of z = c.
Proof. intros ->. apply char_of_byte. Qed.

Lemma sextet_cases (P : Z -> bool) : forallb P (map Z.of_nat (seq 0 64)) = true -> forall z, (0 <= z < 64)%Z -> P z = true.
Proof.
  rewrite List.forallb_forall. intros H z Hz. apply H. apply List.in_map_iff. exists (Z.to_nat z).
  split; [lia|]. apply List.in_seq. lia.
Qed.

Lemma dec6_enc6 z : (0 <= z < 64)%Z -> dec6 (enc6 z) = Some z.
Proof.
  intros Hz. enough (bool_decide (dec6 (enc6 z) = Some z) = true) as H by by apply bool_decide_eq_true in H.
  revert z Hz. apply sextet_cases. vm_compute. reflexivity.
Qed.

(** The digits are letters, digits, [+] and [/]. *)
Definition is_b64 (c : ascii) : bool := if dec6 c is Some _ then true else false.
Lemma enc6_b64 z : (0 <= z < 64)%Z -> is_b64 (enc6 z) = true.
Proof. intros H. unfold is_b64. by rewrite dec6_enc6. Qed.

Ltac sextets :=
  repeat match goal with
  | c : ascii |- _ => lazymatch goal with H : (0 <= byte c < 256)%Z |- _ => fail | _ => pose proof (byte_bound c) end
  end; Z.to_euclidean_division_equations; lia.

(** Induction three characters at a time. *)
Lemma string_ind3 (P : string -> Prop) :
  P "" -> (forall a, P (String a "")) -> (forall a b, P (String a (String b ""))) ->
  (forall a b c s, P s -> P (String a (String b (String c s)))) -> forall s, P s.
Proof.
  intros H0 H1 H2 H3 s. remember (String.length s) as n eqn:Hn. revert s Hn.
  induction n as [n IH] using lt_wf_ind. intros [|a [|b [|c s]]] Hn; [done..|].
  apply H3. apply (IH (String.length s)); [subst; simpl; lia | done].
Qed.

Lemma btoa_digits_b64 s : all_chars is_b64 (btoa_digits s) = true.
Proof.
  induction s as [|a|a b|a b c s IH] using string_ind3; cbn [btoa_digits all_chars]; [done|..];
    rewrite !enc6_b64 by sextets; by rewrite ?IH.
Qed.

Lemma decode_btoa_digits s : decode_digits (btoa_digits s) = Ok s.
Proof.
  induction s as [|a|a b|a b c s IH] using string_ind3; cbn [btoa_digits decode_digits]; [done|..];
    rewrite !dec6_enc6 by sextets.
  - do 2 f_equal. apply char_eq. sextets.
  - do 2 f_equal; [|f_equal]; apply char_eq; sextets.
  - rewrite IH. cbn [res_bind]. do 2 f_equal; [|f_equal; [|f_equal]]; apply char_eq; sextets.
Qed.

Lemma btoa_digits_length s : String.length (btoa_digits s) mod 4 <> 1.
Proof.
  induction s as [|a|a b|a b c s IH] using string_ind3; cbn [btoa_digits String.length]; [done..|].
  replace (S (S (S (S (String.length (btoa_digits s)))))) with (String.length (btoa_digits s) + 1 * 4) by lia.
  by rewrite Nat.Div0.mod_add.
Qed.

Lemma b64_not_ws c : is_b64 c = true -> negb (is_ascii_ws c) = true /\ negb (is_ws c) = true /\ negb (Ascii.eqb c "=") = true.
Proof. revert c. by_char. Qed.

Lemma all_ends s c d : all_chars (fun x => negb (Ascii.eqb x c)) s = true -> ends_with s (d +:+ String c "") = false.
Proof.
  intros Hs. apply not_true_is_false. rewrite ends_with_spec. intros [a ->].
  rewrite all_chars_app, all_chars_app in Hs. simpl in Hs. rewrite Ascii.eqb_refl in Hs.
  by rewrite !andb_false_r in Hs.
Qed.

Lemma ends_with_app a b : ends_with (a +:+ b) b = true.
Proof. apply ends_with_spec. by exists a. Qed.

Lemma sinit_app a b : sinit (String.length b) (a +:+ b) = a.
Proof. unfold sinit. rewrite slength_app. replace (_ - _) with (String.length a) by lia. apply stake_app. Qed.

Lemma repeat_char_all p c n : p c = true -> all_chars p (repeat_char c n) = true.
Proof. intros H. induction n; simpl; [done|]. by rewrite H. Qed.
Lemma repeat_char_length c n : String.length (repeat_char c n) = n.
Proof. induction n; simpl; congruence. Qed.

(** Padding is added and removed: [strip_padding] undoes it. *)
Lemma strip_padded d :
  all_chars is_b64 d = true -> String.length d mod 4 <> 1 ->
  strip_padding (d +:+ repeat_char "=" (pad_len (String.length d))) = d.
Proof.
  intros Hd Hm. assert (all_chars (fun c => negb (Ascii.eqb c "=")) d = true) as Hne.
  { eapply all_chars_mono; [|exact Hd]. intros c Hc. by apply b64_not_ws. }
  pose proof (Nat.mod_upper_bound (String.length d) 4 ltac:(done)) as Hb.
  pose proof (Nat.div_mod (String.length d) 4 ltac:(done)) as Hdm.
  unfold strip_padding, pad_len. set (r := String.length d mod 4) in *. rewrite slength_app, repeat_char_length.
  assert (((String.length d + (4 - r) mod 4) mod 4 =? 0) = true) as ->.
  { apply Nat.eqb_eq. subst r. clear -Hb Hdm. zify. Z.to_euclidean_division_equations. lia. }
  destruct r as [|[|[|[|r2]]]] eqn:Er; try lia; cbn [Nat.sub Nat.modulo Nat.divmod fst snd repeat_char].
  - rewrite sapp_nil_r. pose proof (all_ends d "=" "=" Hne) as H2. simpl in H2. rewrite H2.
    pose proof (all_ends d "=" "" Hne) as H1. simpl in H1. by rewrite H1.
  - change (String "=" (String "=" "")) with "==". rewrite ends_with_app. apply (sinit_app d "==").
  - assert (ends_with (d +:+ "=") "==" = false) as ->.
    { apply not_true_is_false. rewrite ends_with_spec. intros [a Ha].
      assert (d = a +:+ "=") as ->.
      { change (a +:+ "==") with (a +:+ ("=" +:+ "=")) in Ha. rewrite <- sapp_assoc in Ha.
        rewrite <- (sinit_app d "="), Ha. by rewrite (sinit_app (a +:+ "=") "="). }
      rewrite all_chars_app in Hne. simpl in Hne. by rewrite andb_false_r in Hne. }
    change (String "=" "") with "=". rewrite ends_with_app. apply (sinit_app d "=").
Qed.

Lemma atob_padded d s :
  all_chars is_b64 d = true -> String.length d mod 4 <> 1 -> decode_digits d = Ok s ->
  atob (d +:+ repeat_char "=" (pad_len (String.length d))) = Ok s.
Proof.
  intros Hd Hm Hs. unfold atob. rewrite filter_chars_id.
  - by rewrite strip_padded.
  - rewrite all_chars_app, repeat_char_all by done. rewrite andb_true_r.
    eapply all_chars_mono; [|exact Hd]. intros c Hc. by apply b64_not_ws.
Qed.

Lemma atob_btoa s : atob (btoa s) = Ok s.
Proof. apply atob_padded; [apply btoa_digits_b64 | apply btoa_digits_length | apply decode_btoa_digits]. Qed.
#[export] Hint Rewrite atob_btoa : js_rew.

Lemma base64ToBytes_btoa s : base64ToBytes (btoa s) = Ok s.
Proof.
  unfold base64ToBytes. rewrite filter_chars_id; [apply atob_btoa|].
  unfold btoa. rewrite all_chars_app, repeat_char_all by done. rewrite andb_true_r.
  eapply all_chars_mono; [|apply btoa_digits_b64]. intros c Hc. by apply b64_not_ws.
Qed.
#[export] Hint Rewrite base64ToBytes_btoa : js_rew.

(** *** The URL alphabet *)

Lemma map_chars_app f a b : map_chars f (a +:+ b) = map_chars f a +:+ map_chars f b.
Proof. induction a; simpl; congruence. Qed.
Lemma map_chars_length f s : String.length (map_chars f s) = String.length s.
Proof. induction s; simpl; congruence. Qed.
Lemma url_std_url c : is_b64 c = true -> url_to_std (std_to_url c) = c.
Proof. revert c. by_char. Qed.
Lemma map_url_std s : all_chars is_b64 s = true -> map_chars url_to_std (map_chars std_to_url s) = s.
Proof. induction s as [|c s IH]; simpl; [done|]. rewrite andb_true_iff. intros [Hc Hs]. by rewrite url_std_url, IH. Qed.

Lemma strip_equals_pad d n :
  all_chars (fun c => negb (Ascii.eqb c "=")) d = true -> strip_equals (d +:+ repeat_char "=" n) = d.
Proof.
  induction d as [|c d IH]; simpl; intros Hd.
  - induction n as [|n IHn]; simpl; [done|]. by rewrite IHn.
  - apply andb_true_iff in Hd as [Hc Hd]. rewrite (IH Hd). destruct d; [|done].
    revert c Hc. clear. by_char.
Qed.

Lemma std_to_url_not_eq c : is_b64 c = true -> negb (Ascii.eqb (std_to_url c) "=") = true.
Proof. revert c. by_char. Qed.

Lemma bytesToB64url_digits s : bytesToB64url s = map_chars std_to_url (btoa_digits s).
Proof.
  unfold bytesToB64url, btoa. rewrite map_chars_app.
  assert (forall n, map_chars std_to_url (repeat_char "=" n) = repeat_char "=" n) as -> by (induction n as [|n IHn]; [done|]; cbn [map_chars repeat_char]; by rewrite IHn).
  apply strip_equals_pad. pose proof (btoa_digits_b64 s) as Hd. revert Hd. generalize (btoa_digits s). clear s.
  induction s as [|c s IH]; simpl; [done|]. rewrite !andb_true_iff. intros [Hc Hs]. split; [by apply std_to_url_not_eq | auto].
Qed.

Lemma b64url_back s : b64urlToBytes (bytesToB64url s) = Ok s.
Proof.
  unfold b64urlToBytes. rewrite bytesToB64url_digits, map_url_std by apply btoa_digits_b64.
  apply atob_padded; [apply btoa_digits_b64 | apply btoa_digits_length | apply decode_btoa_digits].
Qed.

(** bytes survive every text encoding the client uses: what [bytesToB64]
    and [bytesToB64url] write, [b64ToBytes], [base64ToBytes] and [b64urlToBytes]
    read back, for every byte string; and the URL form has no padding and none of
    the characters [+], [/] and [=]. *)
Theorem base64_roundtrip s :
  b64ToBytes (bytesToB64 s) = Ok s /\ base64ToBytes (bytesToB64 s) = Ok s /\
  b64urlToBytes (bytesToB64url s) = Ok s /\
  all_chars (fun c => is_alnum c || Ascii.eqb c "-" || Ascii.eqb c "_") (bytesToB64url s) = true.
Proof.
  split_and!.
  - apply atob_btoa.
  - apply base64ToBytes_btoa.
  - apply b64url_back.
  - rewrite bytesToB64url_digits. pose proof (btoa_digits_b64 s) as Hd. revert Hd. generalize (btoa_digits s). clear s.
    induction s as [|c s IH]; simpl; [done|]. rewrite !andb_true_iff. intros [Hc Hs]. split; [|auto].
    revert c Hc. clear. by_char.
Qed.
