(* ===== verification/Text.v ===== *)
(** * Text and bytes

    [TextEncoder] and [TextDecoder] on the strings of the model (code units
    below 256; a byte string is a string, one character per byte), and the hosts'
    JSON parser as the scripts use it. *)
From Stdlib Require Import ZArith NArith Lia Ascii.
From S2P Require Import Prelude JsString.

Definition char_at (n : N) : ascii := ascii_of_N n.

(** [new TextEncoder().encode(s)]: two bytes from U+0080 on. *)
Fixpoint utf8 (s : string) : string :=
  match s with
  | EmptyString => EmptyString
  | String c s =>
      let n := code c in
      if (n <? 128)%N then String c (utf8 s)
      else String (char_at (192 + n / 64)) (String (char_at (128 + n mod 64)) (utf8 s))
  end.

(** What stands for U+FFFD, and for the characters the model's strings lack. *)
Definition replacement : ascii := char_at 26.

(** ** [TextDecoder]

    The decoder of the Encoding Standard, byte by byte. Its state: how many
    continuation bytes are still expected, the bits read so far and the range
    the next byte has to be in. *)
Record pending := Pending { pd_need : nat; pd_cp : N; pd_lo : N; pd_hi : N }.

(** The code units of a code point: a surrogate pair from U+10000 on. *)
Definition units (cp : N) : string :=
  if (cp <? 256)%N then String (char_at cp) ""
  else if (cp <? 65536)%N then String replacement ""
  else String replacement (String replacement "").

(** A byte where a character may begin: what is emitted, and the state. *)
Definition lead (b : N) : string * option pending :=
  if (b <? 128)%N then (String (char_at b) "", None)
  else if ((194 <=? b) && (b <=? 223))%N then ("", Some (Pending 1 (b - 192) 128 191))
  else if ((224 <=? b) && (b <=? 239))%N then
    ("", Some (Pending 2 (b - 224) (if (b =? 224)%N then 160 else 128) (if (b =? 237)%N then 159 else 191)))
  else if ((240 <=? b) && (b <=? 244))%N then
    ("", Some (Pending 3 (b - 240) (if (b =? 240)%N then 144 else 128) (if (b =? 244)%N then 143 else 191)))
  else (String replacement "", None).

Definition decode_byte (st : option pending) (b : N) : string * option pending :=
  match st with
  | None => lead b
  | Some p =>
      if ((pd_lo p <=? b) && (b <=? pd_hi p))%N then
        let cp := (pd_cp p * 64 + (b - 128))%N in
        match pd_need p with
        | S (S n) => ("", Some (Pending (S n) cp 128 191))
        | _ => (units cp, None)
        end
      else let '(out, st) := lead b in (String replacement out, st)
  end.

Fixpoint decode_go (st : option pending) (s : string) : string :=
  match s with
  | EmptyString => match st with None => "" | Some _ => String replacement "" end
  | String c s => let '(out, st) := decode_byte st (code c) in out +:+ decode_go st s
  end.

Definition utf8_decode (s : string) : string := decode_go None s.

Definition byte_order_mark : string := String (char_at 239) (String (char_at 187) (String (char_at 191) "")).

(** [new TextDecoder().decode(bytes)]: a leading byte order mark is dropped. *)
Definition decodeText (bytes : string) : string :=
  utf8_decode (if starts_with bytes byte_order_mark then sdrop 3 bytes else bytes).

Definition is_ascii (c : ascii) : bool := (code c <? 128)%N.

Lemma code_bounded c : (code c < 256)%N.
Proof. apply N_ascii_bounded. Qed.
Lemma code_char_at n : (n < 256)%N -> code (char_at n) = n.
Proof. apply N_ascii_embedding. Qed.
Lemma char_at_code c : char_at (code c) = c.
Proof. apply ascii_N_embedding. Qed.

Lemma two_or_three (n : N) : (128 <= n)%N -> (n < 256)%N -> (n / 64 = 2 \/ n / 64 = 3)%N.
Proof.
  intros H1 H2. pose proof (N.mod_upper_bound n 64 ltac:(done)). pose proof (N.div_mod n 64 ltac:(done)).
  revert H1 H2. generalize dependent (n / 64)%N. generalize dependent (n mod 64)%N. intros; lia.
Qed.

Lemma code_small c : (code c <? 128)%N = true -> char_at (code c) = c.
Proof. intros _. apply char_at_code. Qed.

(** The two bytes of a character from U+0080 on. *)
Lemma decode_two n rest : (128 <= n)%N -> (n < 256)%N ->
  decode_go None (String (char_at (192 + n / 64)) (String (char_at (128 + n mod 64)) rest)) =
  String (char_at n) (decode_go None rest).
Proof.
  intros E Hc.
  pose proof (N.mod_upper_bound n 64 ltac:(done)) as Hm.
  pose proof (N.div_mod n 64 ltac:(done)) as Hdm.
  pose proof (two_or_three _ E Hc) as Hd. pose proof (N.le_0_l (n mod 64)) as H0.
  revert Hm Hdm Hd H0. generalize (n / 64)%N (n mod 64)%N. intros q m Hm Hdm Hd H0.
  cbn [decode_go decode_byte]. rewrite !code_char_at by lia. unfold lead.
  assert ((192 + q <? 128) = false)%N as -> by (apply N.ltb_ge; lia).
  assert ((194 <=? 192 + q) && (192 + q <=? 223) = true)%N as -> by (apply andb_true_iff; split; apply N.leb_le; lia).
  cbn [decode_byte pd_lo pd_hi pd_cp pd_need String.append].
  assert ((128 <=? 128 + m) && (128 + m <=? 191) = true)%N as -> by (apply andb_true_iff; split; apply N.leb_le; lia).
  assert ((192 + q - 192) * 64 + (128 + m - 128) = n)%N as -> by lia.
  unfold units. assert ((n <? 256)%N = true) as -> by (apply N.ltb_lt; lia). done.
Qed.

Lemma utf8_decode_utf8 s : utf8_decode (utf8 s) = s.
Proof.
  unfold utf8_decode. induction s as [|c s IH]; cbn [utf8]; [done|]. pose proof (code_bounded c) as Hc.
  destruct (code c <? 128)%N eqn:E.
  - cbn [decode_go decode_byte]. unfold lead. rewrite E. cbn [String.append]. rewrite char_at_code. by f_equal.
  - apply N.ltb_ge in E. rewrite decode_two by done. rewrite char_at_code. by f_equal.
Qed.
(** Encoded text of the model never begins with a byte order mark. *)
Lemma utf8_no_mark s : starts_with (utf8 s) byte_order_mark = false.
Proof.
  destruct s as [|c s]; [done|]. cbn [utf8]. pose proof (code_bounded c) as Hc. unfold starts_with.
  assert (forall d t, code d <> 239%N -> String.prefix byte_order_mark (String d t) = false) as P.
  { intros d t Hd. unfold byte_order_mark. rewrite prefix_cons.
    destruct (ascii_dec (char_at 239) d) as [E'|]; [|reflexivity].
    destruct Hd. rewrite <- E'. by apply code_char_at. }
  destruct (code c <? 128)%N eqn:E; apply P.
  - apply N.ltb_lt in E. lia.
  - apply N.ltb_ge in E. destruct (two_or_three _ E Hc) as [-> | ->]; by rewrite code_char_at by lia.
Qed.
Lemma decodeText_utf8 s : decodeText (utf8 s) = s.
Proof. unfold decodeText. by rewrite utf8_no_mark, utf8_decode_utf8. Qed.
Lemma utf8_ascii s : all_chars is_ascii s = true -> utf8 s = s.
Proof.
  induction s as [|c s IH]; simpl; [done|]. unfold is_ascii at 1. rewrite andb_true_iff. intros [-> Hs]. by rewrite IH.
Qed.
Lemma utf8_decode_ascii s : all_chars is_ascii s = true -> utf8_decode s = s.
Proof. intros H. rewrite <- (utf8_ascii s H) at 1. apply utf8_decode_utf8. Qed.
Lemma decodeText_ascii s : all_chars is_ascii s = true -> decodeText s = s.
Proof. intros H. rewrite <- (utf8_ascii s H) at 1. apply decodeText_utf8. Qed.
#[export] Hint Rewrite utf8_decode_utf8 decodeText_utf8 : js_rew.
