(* ===== verification/Json.v ===== *)
(** * JSON.parse

    A reader for the values of [JsValue]: numbers are integers, a character that
    is not a code unit below 256 reads as the replacement character.  What
    [JSON.stringify] prints is read back. *)
From Stdlib Require Import ZArith NArith Lia Ascii DecimalString DecimalFacts DecimalPos DecimalN DecimalZ.
From S2P Require Import Prelude JsString JsValue Text.
Open Scope Z_scope.

(** ** The reader *)

Definition json_space (c : ascii) : bool := existsb (fun n => (code c =? n)%N) [32; 9; 10; 13]%N.
Fixpoint skip_space (s : string) : string :=
  match s with String c r => if json_space c then skip_space r else s | EmptyString => s end.

Definition backslash : ascii := ascii_of_N 92.
Definition quote_mark : ascii := ascii_of_N 34.

(** The character an escape stands for. *)
Definition escape (e : ascii) : option ascii :=
  match code e with
  | 34 => Some quote_mark | 92 => Some backslash | 47 => Some "/"%char
  | 98 => Some (ascii_of_N 8) | 102 => Some (ascii_of_N 12) | 110 => Some (ascii_of_N 10)
  | 114 => Some (ascii_of_N 13) | 116 => Some (ascii_of_N 9)
  | _ => None
  end%N.
Definition unit_char (z : Z) : ascii := if z <? 256 then ascii_of_N (Z.to_N z) else replacement.

(** The rest of a string literal, after its opening quote. *)
Fixpoint unquote (s : string) : option (string * string) :=
  match s with
  | EmptyString => None
  | String c r =>
      if Ascii.eqb c quote_mark then Some ("", r)
      else if Ascii.eqb c backslash then
        match r with
        | String e r' =>
            if Ascii.eqb e "u" then
              match r' with
              | String a (String b (String d (String f r''))) =>
                  if is_hex a && is_hex b && is_hex d && is_hex f then
                    match unquote r'' with
                    | Some (t, rest) =>
                        Some (String (unit_char (hexs_val 0 (String a (String b (String d (String f "")))))) t, rest)
                    | None => None
                    end
                  else None
              | _ => None
              end
            else match escape e, unquote r' with
                 | Some x, Some (t, rest) => Some (String x t, rest)
                 | _, _ => None
                 end
        | EmptyString => None
        end
      else if (code c <? 32)%N then None
      else match unquote r with Some (t, rest) => Some (String c t, rest) | None => None end
  end.

(** An integer literal; a fraction or an exponent is outside the model. *)
Definition number (s : string) : option (jsval * string) :=
  let '(sign, body) := match s with String c r => if Ascii.eqb c "-" then (-1, r) else (1, s) | EmptyString => (1, s) end in
  let '(ds, rest) := span_chars is_digit body in
  let stop := match rest with String c _ => negb (existsb (Ascii.eqb c) ["."; "e"; "E"]%char) | EmptyString => true end in
  match ds with
  | EmptyString => None
  | String d ds' => if (Ascii.eqb d "0" && negb (ds' =s? "")) || negb stop then None
                    else Some (JNum (sign * digits_val 0 ds), rest)
  end.

(** [o[k] = v], as the reader fills an object. *)
Fixpoint put_field (k : string) (v : jsval) (fs : list (string * jsval)) : list (string * jsval) :=
  match fs with
  | [] => [(k, v)]
  | (k', v') :: fs => if k' =s? k then (k, v) :: fs else (k', v') :: put_field k v fs
  end.

(** The own properties of a value, as [...v] copies them. *)
Definition own_members (v : jsval) : list (string * jsval) :=
  match v with
  | JObj fs => fs
  | JArr l => imap (fun i x => (Z_to_string (Z.of_nat i), x)) l
  | JStr s => imap (fun i c => (Z_to_string (Z.of_nat i), JStr (String c ""))) (String.list_ascii_of_string s)
  | _ => []
  end.

Fixpoint value (fuel : nat) (s : string) : option (jsval * string) :=
  match fuel with
  | O => None
  | S f =>
      let s := skip_space s in
      match s with
      | EmptyString => None
      | String c r =>
          if Ascii.eqb c quote_mark then '(t, rest) ← unquote r; Some (JStr t, rest)
          else if Ascii.eqb c "[" then
            match skip_space r with
            | String d rest => if Ascii.eqb d "]" then Some (JArr [], rest) else '(l, rest) ← items f r; Some (JArr l, rest)
            | EmptyString => None
            end
          else if Ascii.eqb c "{" then
            match skip_space r with
            | String d rest => if Ascii.eqb d "}" then Some (JObj [], rest) else '(l, rest) ← members f [] r; Some (JObj l, rest)
            | EmptyString => None
            end
          else if starts_with s "null" then Some (JNull, sdrop 4 s)
          else if starts_with s "true" then Some (JBool true, sdrop 4 s)
          else if starts_with s "false" then Some (JBool false, sdrop 5 s)
          else number s
      end
  end
with items (fuel : nat) (s : string) : option (list jsval * string) :=
  match fuel with
  | O => None
  | S f =>
      '(v, r) ← value f s;
      match skip_space r with
      | String c r =>
          if Ascii.eqb c "," then '(l, rest) ← items f r; Some (v :: l, rest)
          else if Ascii.eqb c "]" then Some ([v], r) else None
      | EmptyString => None
      end
  end
with members (fuel : nat) (acc : list (string * jsval)) (s : string) : option (list (string * jsval) * string) :=
  match fuel with
  | O => None
  | S f =>
      match skip_space s with
      | String c r =>
          if Ascii.eqb c quote_mark then
            '(k, r) ← unquote r;
            match skip_space r with
            | String d r =>
                if Ascii.eqb d ":" then
                  '(v, r) ← value f r;
                  match skip_space r with
                  | String e r =>
                      if Ascii.eqb e "," then members f (put_field k v acc) r
                      else if Ascii.eqb e "}" then Some (put_field k v acc, r) else None
                  | EmptyString => None
                  end
                else None
            | EmptyString => None
            end
          else None
      | EmptyString => None
      end
  end.

(** [JSON.parse(text)]; [None] when it throws.  The fuel is enough: every call
    consumes a character. *)
Definition parse (text : string) : option jsval :=
  match value (S (String.length text)) text with
  | Some (v, rest) => if skip_space rest =s? "" then Some v else None
  | None => None
  end.

(** ** Lemmas *)

(** *** Integers *)

Lemma acc_digits u acc : digits_val (Zpos acc) (NilEmpty.string_of_uint u) = Zpos (Pos.of_uint_acc u acc).
Proof.
  revert acc. induction u; intros acc; cbn [NilEmpty.string_of_uint digits_val Pos.of_uint_acc]; [done|..];
    unfold digit_val; rewrite <- IHu; f_equal; vm_compute (Z.of_N _ - 48); lia.
Qed.
Lemma uint_digits u : digits_val 0 (NilEmpty.string_of_uint u) = Z.of_N (Pos.of_uint u).
Proof.
  induction u; cbn [NilEmpty.string_of_uint digits_val Pos.of_uint]; try done; try apply (acc_digits u).
Qed.
Lemma uint_all_digits u : all_chars is_digit (NilEmpty.string_of_uint u) = true.
Proof. induction u; cbn; done. Qed.

(** The decimal digits of a positive number: no leading zero. *)
Lemma pos_digits p : exists d ds, NilEmpty.string_of_uint (Pos.to_uint p) = String d ds /\ Ascii.eqb d "0" = false /\
  digits_val 0 (String d ds) = Zpos p.
Proof.
  assert (digits_val 0 (NilEmpty.string_of_uint (Pos.to_uint p)) = Zpos p) as Hv
    by (by rewrite uint_digits, DecimalPos.Unsigned.of_to).
  pose proof (DecimalPos.Unsigned.to_of (Pos.to_uint p)) as Hn. rewrite DecimalPos.Unsigned.of_to in Hn. cbn [N.to_uint] in Hn.
  destruct (Pos.to_uint p) as [|u|u|u|u|u|u|u|u|u|u] eqn:E; [by apply DecimalPos.Unsigned.to_uint_nonnil in E| |
    (do 2 eexists; split; [reflexivity|]; split; [reflexivity|exact Hv]) ..].
  exfalso. unfold Decimal.unorm in Hn. destruct (Decimal.nzhead (Decimal.D0 u)) eqn:Ez; try done.
  - injection Hn as ->. rewrite uint_digits in Hv. discriminate.
  - by apply nzhead_nonzero in Ez.
Qed.

(** What may follow a value. *)
Definition delimiter (s : string) : bool :=
  match s with String c _ => existsb (Ascii.eqb c) [","; "]"; "}"]%char | EmptyString => true end.

Lemma span_digits ds rest : all_chars is_digit ds = true -> delimiter rest = true -> span_chars is_digit (ds +:+ rest) = (ds, rest).
Proof.
  intros Hd Hr. induction ds as [|d ds IH]; cbn [String.append span_chars all_chars] in *.
  - destruct rest as [|c r]; [done|]. cbn [span_chars]. revert Hr. cbn. revert c. by_char.
  - bool_to_prop. by rewrite H, IH.
Qed.
Lemma delimiter_stops rest : delimiter rest = true ->
  match rest with String c _ => negb (existsb (Ascii.eqb c) ["."; "e"; "E"]%char) | EmptyString => true end = true.
Proof. destruct rest as [|c r]; [done|]. cbn [delimiter]. revert c. by_char. Qed.

Lemma number_digits (sign : Z) body d ds rest :
  all_chars is_digit (String d ds) = true -> (Ascii.eqb d "0" = false \/ ds = "") -> delimiter rest = true ->
  (sign, body) = (1, String d ds +:+ rest) \/ (sign = -1 /\ body = String "-" (String d ds +:+ rest)) ->
  number body = Some (JNum (sign * digits_val 0 (String d ds)), rest).
Proof.
  intros Hd H0 Hr Hb. unfold number.
  assert (Ascii.eqb d "-" = false) as Hm by (apply andb_true_iff in Hd as [Hd _]; revert Hd; clear; revert d; by_char).
  assert ((match body with String c r => if Ascii.eqb c "-" then (-1, r) else (1, body) | EmptyString => (1, body) end)
          = (sign, String d ds +:+ rest)) as ->.
  { destruct Hb as [[= -> ->]|[-> ->]]; [|done]. cbn [String.append]. by rewrite Hm. }
  rewrite (span_digits (String d ds) rest Hd Hr), (delimiter_stops rest Hr). cbn [negb]. rewrite orb_false_r.
  destruct H0 as [-> | ->]; [done|]. cbn. by rewrite andb_false_r.
Qed.

Lemma number_of_string z rest : delimiter rest = true -> number (Z_to_string z +:+ rest) = Some (JNum z, rest).
Proof.
  intros Hr. unfold Z_to_string. destruct z as [|p|p]; cbn [Z.to_int NilZero.string_of_int].
  - by rewrite (number_digits 1 _ "0" "" rest) by auto.
  - destruct (pos_digits p) as (d & ds & E & H0 & Hv).
    assert (NilZero.string_of_uint (Pos.to_uint p) = String d ds) as Es by (rewrite <- E; unfold NilZero.string_of_uint;
      destruct (Pos.to_uint p) eqn:Eu; [by apply DecimalPos.Unsigned.to_uint_nonnil in Eu|done..]).
    rewrite Es. rewrite (number_digits 1 _ d ds rest); [|by rewrite <- E, uint_all_digits|by left|done|by left].
    by rewrite Hv.
  - destruct (pos_digits p) as (d & ds & E & H0 & Hv).
    assert (NilZero.string_of_uint (Pos.to_uint p) = String d ds) as Es by (rewrite <- E; unfold NilZero.string_of_uint;
      destruct (Pos.to_uint p) eqn:Eu; [by apply DecimalPos.Unsigned.to_uint_nonnil in Eu|done..]).
    rewrite Es. rewrite (number_digits (-1) _ d ds rest); [|by rewrite <- E, uint_all_digits|by left|done|by right].
    by rewrite Hv.
Qed.

(** *** Strings *)

Lemma unquote_plain c t s rest :
  Ascii.eqb c quote_mark = false -> Ascii.eqb c backslash = false -> (code c <? 32)%N = false -> unquote t = Some (s, rest) ->
  unquote (String c t) = Some (String c s, rest).
Proof. intros H1 H2 H3 H. cbn [unquote]. by rewrite H1, H2, H3, H. Qed.
Lemma unquote_escape e x t s rest :
  Ascii.eqb e "u" = false -> escape e = Some x -> unquote t = Some (s, rest) ->
  unquote (String backslash (String e t)) = Some (String x s, rest).
Proof. intros H1 H2 H. cbn [unquote]. by rewrite H1, H2, H. Qed.
Lemma unquote_hex c a b d f t s rest :
  is_hex a && is_hex b && is_hex d && is_hex f = true ->
  unit_char (hexs_val 0 (String a (String b (String d (String f ""))))) = c -> unquote t = Some (s, rest) ->
  unquote (String backslash (String "u" (String a (String b (String d (String f t)))))) = Some (String c s, rest).
Proof. intros H1 <- H. cbn [unquote]. by rewrite H1, H. Qed.

Lemma unquote_char c t s rest : unquote t = Some (s, rest) -> unquote (quote_char c +:+ t) = Some (String c s, rest).
Proof.
  intros H.
  destruct c as [[] [] [] [] [] [] [] []];
    (match goal with |- context [quote_char ?c] => let q := eval vm_compute in (quote_char c) in change (quote_char c) with q end;
     cbn [String.append];
     first [ apply unquote_plain; [reflexivity|reflexivity|reflexivity|exact H]
           | apply unquote_escape; [reflexivity|reflexivity|exact H]
           | apply unquote_hex; [reflexivity|reflexivity|exact H] ]).
Qed.
Lemma unquote_body s rest : unquote (quote_body s +:+ String quote_mark rest) = Some (s, rest).
Proof.
  induction s as [|c s IH]; [done|]. cbn [quote_body]. rewrite sapp_assoc. by apply unquote_char.
Qed.
Lemma quote_app s rest : quote s +:+ rest = String quote_mark (quote_body s +:+ String quote_mark rest).
Proof. unfold quote, dquote. cbn [String.append]. by rewrite sapp_assoc. Qed.

(** *** Values *)

Lemma jsval_nested_ind (P : jsval -> Prop) :
  P JUndef -> P JNull -> (forall b, P (JBool b)) -> (forall z, P (JNum z)) -> P JNaN -> (forall s, P (JStr s)) ->
  (forall l, Forall P l -> P (JArr l)) -> (forall fs, Forall (fun p => P p.2) fs -> P (JObj fs)) -> forall v, P v.
Proof.
  intros H1 H2 H3 H4 H5 H6 H7 H8. fix IH 1. intros [| |b|z| |s|l|fs];
    [exact H1|exact H2|apply H3|apply H4|exact H5|apply H6| |].
  - apply H7. induction l as [|v l IHl]; constructor; [apply IH | exact IHl].
  - apply H8. induction fs as [|[k v] fs IHf]; constructor; [apply IH | exact IHf].
Qed.

(** The values that survive: no [undefined], no [NaN], each key once. *)
Fixpoint printable (v : jsval) : bool :=
  match v with
  | JUndef | JNaN => false
  | JArr l => forallb printable l
  | JObj fs => bool_decide (NoDup (map fst fs)) && forallb (fun p => printable p.2) fs
  | _ => true
  end.

Definition print_field (p : string * jsval) : string := quote p.1 +:+ ":" +:+ stringify p.2.
Lemma stringify_obj fs : forallb (fun p => printable p.2) fs = true -> stringify (JObj fs) = "{" +:+ join "," (map print_field fs) +:+ "}".
Proof.
  intros H. cbn [stringify]. do 3 f_equal. induction fs as [|[k v] fs IH]; [done|]. cbn [forallb snd] in H. bool_to_prop.
  cbn [map print_field fst snd]. rewrite <- IH by done. by destruct v.
Qed.

(** Calls a value costs the reader. *)
Fixpoint need (v : jsval) : nat :=
  match v with
  | JArr l => S (list_sum (map (fun x => S (need x)) l))
  | JObj fs => S (list_sum (map (fun p => S (need p.2)) fs))
  | _ => 1
  end.

Definition reads (v : jsval) : Prop :=
  forall n rest, (need v <= n)%nat -> delimiter rest = true -> value n (stringify v +:+ rest) = Some (v, rest).

Lemma first_char v : printable v = true -> exists c r, stringify v = String c r /\ json_space c = false /\ Ascii.eqb c "]" = false.
Proof.
  intros Hv. destruct v as [| |[]|z| |s|l|fs]; try done; try (do 2 eexists; split; [reflexivity|split; reflexivity]).
  cbn [stringify]. unfold Z_to_string. destruct z as [|p|p]; cbn [Z.to_int NilZero.string_of_int];
    try (do 2 eexists; split; [reflexivity|split; reflexivity]).
  destruct (pos_digits p) as (d & ds & E & _ & _). exists d, ds. split.
  - unfold NilZero.string_of_uint. rewrite <- E. destruct (Pos.to_uint p) eqn:Eu; [by apply DecimalPos.Unsigned.to_uint_nonnil in Eu|done..].
  - pose proof (uint_all_digits (Pos.to_uint p)) as Hd. rewrite E in Hd. cbn [all_chars] in Hd. bool_to_prop.
    split; revert select (is_digit d = true); clear; revert d; by_char.
Qed.

Lemma skip_first c r : json_space c = false -> skip_space (String c r) = String c r.
Proof. intros H. cbn [skip_space]. by rewrite H. Qed.

(** A value that is not a string, a list or an object. *)
Lemma value_atom n s c r v rest :
  s = String c r -> json_space c = false -> Ascii.eqb c quote_mark = false -> Ascii.eqb c "[" = false -> Ascii.eqb c "{" = false ->
  (if starts_with s "null" then Some (JNull, sdrop 4 s)
   else if starts_with s "true" then Some (JBool true, sdrop 4 s)
   else if starts_with s "false" then Some (JBool false, sdrop 5 s) else number s) = Some (v, rest) ->
  value (S n) s = Some (v, rest).
Proof. intros -> H1 H2 H3 H4 H. cbn [value]. rewrite skip_first by done. cbv zeta. by rewrite H2, H3, H4. Qed.

Lemma number_first z rest : exists c r, Z_to_string z +:+ rest = String c r /\ (is_digit c = true \/ c = "-"%char).
Proof.
  unfold Z_to_string. destruct z as [|p|p]; cbn [Z.to_int NilZero.string_of_int].
  - by do 2 eexists; split; [reflexivity|left].
  - destruct (pos_digits p) as (d & ds & E & _ & _). exists d, (ds +:+ rest). split.
    + unfold NilZero.string_of_uint. destruct (Pos.to_uint p) eqn:Eu; [by apply DecimalPos.Unsigned.to_uint_nonnil in Eu|by rewrite E ..].
    + left. pose proof (uint_all_digits (Pos.to_uint p)) as Hd. rewrite E in Hd. cbn [all_chars] in Hd. by bool_to_prop.
  - by do 2 eexists; split; [reflexivity|right].
Qed.

Lemma starts_other d t c r : Ascii.eqb c d = false -> starts_with (String c r) (String d t) = false.
Proof. intros H. unfold starts_with. rewrite prefix_cons. destruct (ascii_dec d c) as [->|]; [|done]. by rewrite Ascii.eqb_refl in H. Qed.

Lemma number_char c : is_digit c = true \/ c = "-"%char ->
  json_space c = false /\ Ascii.eqb c quote_mark = false /\ Ascii.eqb c "[" = false /\ Ascii.eqb c "{" = false /\
  Ascii.eqb c "n" = false /\ Ascii.eqb c "t" = false /\ Ascii.eqb c "f" = false.
Proof.
  intros [Hc | ->]; [|split_and!; reflexivity].
  assert (forall c, implb (is_digit c) (negb (json_space c) && negb (Ascii.eqb c quote_mark) && negb (Ascii.eqb c "[") &&
    negb (Ascii.eqb c "{") && negb (Ascii.eqb c "n") && negb (Ascii.eqb c "t") && negb (Ascii.eqb c "f")) = true) as P by by_char.
  specialize (P c). rewrite Hc in P. cbn [implb] in P. bool_to_prop. done.
Qed.
Lemma reads_number z : reads (JNum z).
Proof.
  intros [|n] rest Hn Hr; [cbn in Hn; lia|]. cbn [stringify]. pose proof (number_of_string z rest Hr) as Hz.
  destruct (number_first z rest) as (c & r & E & Hc). revert Hz. rewrite E. intros Hz.
  destruct (number_char c Hc) as (H1 & H2 & H3 & H4 & H5 & H6 & H7).
  apply (value_atom n (String c r) c r _ _ eq_refl H1 H2 H3 H4). by rewrite !starts_other.
Qed.
Lemma starts_self d rest : starts_with (d +:+ rest) d = true.
Proof. apply starts_with_spec. by exists rest. Qed.
Lemma reads_null : reads JNull.
Proof.
  intros [|n] rest Hn Hr; [cbn in Hn; lia|].
  apply (value_atom n ("null" +:+ rest) "n" ("ull" +:+ rest)); [reflexivity ..|]. by rewrite starts_self.
Qed.
Lemma reads_bool b : reads (JBool b).
Proof.
  intros [|n] rest Hn Hr; [cbn in Hn; lia|]. destruct b.
  - apply (value_atom n ("true" +:+ rest) "t" ("rue" +:+ rest)); [reflexivity ..|].
    change (starts_with ("true" +:+ rest) "null") with (starts_with (String "t" ("rue" +:+ rest)) (String "n" "ull")).
    by rewrite starts_other, starts_self.
  - apply (value_atom n ("false" +:+ rest) "f" ("alse" +:+ rest)); [reflexivity ..|].
    change (starts_with ("false" +:+ rest) "null") with (starts_with (String "f" ("alse" +:+ rest)) (String "n" "ull")).
    change (starts_with ("false" +:+ rest) "true") with (starts_with (String "f" ("alse" +:+ rest)) (String "t" "rue")).
    by rewrite !starts_other, starts_self.
Qed.
Lemma reads_string s : reads (JStr s).
Proof.
  intros [|n] rest Hn Hr; [cbn in Hn; lia|]. cbn [stringify]. rewrite quote_app. cbn [value].
  rewrite skip_first by done. cbv zeta. rewrite Ascii.eqb_refl, unquote_body. done.
Qed.

(** *** Lists and objects *)

Lemma items_read l rest n :
  l <> [] -> Forall reads l -> forallb printable l = true -> (list_sum (map (fun x => S (need x)) l) <= n)%nat ->
  items n (join "," (map stringify l) +:+ String "]" rest) = Some (l, rest).
Proof.
  intros Hne Hl. revert n Hne. induction Hl as [|v l Hv Hl IH]; intros n Hne Hp Hn; [done|]. clear Hne.
  cbn [forallb map list_sum] in *. bool_to_prop. destruct n as [|n]; [cbn in Hn; lia|]. cbn [items]. cbn in Hn.
  destruct l as [|w l].
  - cbn [map join String.concat]. rewrite Hv by (done || lia). done.
  - cbn [map]. rewrite join_cons by done. rewrite !sapp_assoc. rewrite Hv by (done || lia).
    cbn [mbind option_bind String.append]. rewrite skip_first by done. cbn [Ascii.eqb].
    change (stringify w :: map stringify l) with (map stringify (w :: l)). rewrite IH by (done || (cbn in *; lia)). done.
Qed.
Lemma reads_array l : Forall reads l -> forallb printable l = true -> reads (JArr l).
Proof.
  intros Hl Hp [|n] rest Hn Hr; [cbn in Hn; lia|]. cbn [stringify]. rewrite !sapp_assoc.
  cbn [String.append value]. rewrite skip_first by done. cbv zeta. cbn [need] in Hn.
  destruct l as [|v l]; [done|].
  assert (exists c r, join "," (map stringify (v :: l)) +:+ String "]" rest = String c r /\ json_space c = false /\ Ascii.eqb c "]" = false) as (c & r & E & H1 & H2).
  { cbn [forallb] in Hp. apply andb_true_iff in Hp as [Hp _]. destruct (first_char v Hp) as (c & r & Ev & H1 & H2).
    cbn [map]. destruct l; [|cbn [map]; rewrite join_cons by done]; cbn [join String.concat]; rewrite Ev; cbn [String.append]; eauto. }
  pose proof (items_read (v :: l) rest n ltac:(done) Hl Hp ltac:(lia)) as Hi. revert Hi. rewrite E. intros Hi.
  cbn [Ascii.eqb]. rewrite (skip_first c r H1), H2, Hi. done.
Qed.

Lemma put_fresh k v acc : k ∉ map fst acc -> put_field k v acc = acc ++ [(k, v)].
Proof.
  induction acc as [|[k' v'] acc IH]; cbn [map fst put_field]; [done|]. rewrite not_elem_of_cons. intros [Hk Hacc].
  rewrite (proj2 (String.eqb_neq k' k)) by congruence. by rewrite IH.
Qed.

Lemma members_read fs acc rest n :
  fs <> [] -> Forall (fun p => reads p.2) fs -> forallb (fun p => printable p.2) fs = true ->
  NoDup (map fst (acc ++ fs)) -> (list_sum (map (fun p => S (need p.2)) fs) <= n)%nat ->
  members n acc (join "," (map print_field fs) +:+ String "}" rest) = Some (acc ++ fs, rest).
Proof.
  intros Hne Hl. revert n acc Hne. induction Hl as [|[k v] fs Hv Hl IH]; intros n acc Hne Hp Hnd Hn; [done|]. clear Hne.
  cbn [forallb map list_sum snd] in *. bool_to_prop. destruct n as [|n]; [cbn in Hn; lia|]. cbn in Hn.
  assert (k ∉ map fst acc) as Hk.
  { rewrite map_app in Hnd. cbn in Hnd. apply NoDup_app in Hnd as (_ & Hd & _). intros Hin. apply (Hd _ Hin). by left. }
  assert (forall tail, members (S n) acc (print_field (k, v) +:+ tail) =
     ('(v, r) ← value n (stringify v +:+ tail);
      match skip_space r with
      | String e r => if Ascii.eqb e "," then members n (put_field k v acc) r
                      else if Ascii.eqb e "}" then Some (put_field k v acc, r) else None
      | EmptyString => None end)) as Hone.
  { intros tail. unfold print_field. cbn [fst snd]. rewrite !sapp_assoc, quote_app. cbn [members].
    rewrite skip_first by done. rewrite Ascii.eqb_refl, unquote_body. done. }
  destruct fs as [|p fs].
  - cbn [map join String.concat]. rewrite Hone, Hv by (done || lia). cbn. by rewrite put_fresh.
  - cbn [map]. rewrite join_cons by done. rewrite !sapp_assoc, Hone, Hv by (done || lia).
    cbn [mbind option_bind String.append]. rewrite skip_first by done. cbn [Ascii.eqb].
    change (print_field p :: map print_field fs) with (map print_field (p :: fs)). rewrite put_fresh by done.
    rewrite IH; [by rewrite <- app_assoc | done | done | by rewrite <- app_assoc | cbn in *; lia].
Qed.
Lemma reads_object fs :
  Forall (fun p => reads p.2) fs -> forallb (fun p => printable p.2) fs = true -> NoDup (map fst fs) -> reads (JObj fs).
Proof.
  intros Hl Hp Hnd [|n] rest Hn Hr; [cbn in Hn; lia|]. rewrite stringify_obj by done. rewrite !sapp_assoc.
  cbn [String.append value]. rewrite skip_first by done. cbv zeta. cbn [need] in Hn.
  destruct fs as [|[k v] fs]; [done|].
  pose proof (members_read ((k, v) :: fs) [] rest n ltac:(done) Hl Hp Hnd ltac:(lia)) as Hm. revert Hm.
  assert (exists r, join "," (map print_field ((k, v) :: fs)) +:+ String "}" rest = String quote_mark r) as [r E].
  { cbn [map]. destruct fs; [|cbn [map]; rewrite join_cons by done]; cbn [join String.concat];
      unfold print_field; cbn [fst]; rewrite !sapp_assoc, quote_app; eauto. }
  rewrite E. intros Hm. cbn [Ascii.eqb]. rewrite skip_first by done. cbn [Ascii.eqb quote_mark]. rewrite Hm. done.
Qed.

Lemma printable_reads v : printable v = true -> reads v.
Proof.
  induction v using jsval_nested_ind; intros Hp; try done.
  - apply reads_null.
  - apply reads_bool.
  - apply reads_number.
  - apply reads_string.
  - apply reads_array; [|exact Hp]. cbn [printable] in Hp. rewrite List.Forall_forall in H. rewrite forallb_forall in Hp.
    apply List.Forall_forall. auto.
  - cbn [printable] in Hp. apply andb_true_iff in Hp as [Hnd Hp]. apply bool_decide_eq_true in Hnd.
    apply reads_object; [|done|done]. rewrite List.Forall_forall in H. rewrite forallb_forall in Hp. apply List.Forall_forall. auto.
Qed.

(** *** Enough fuel *)

Lemma sum_le {A} (f g : A -> nat) l : (forall x, x ∈ l -> (f x <= g x)%nat) -> (list_sum (map f l) <= list_sum (map g l))%nat.
Proof.
  unfold list_sum. induction l as [|x l IH]; cbn; [lia|]. intros H. pose proof (H x ltac:(left)).
  specialize (IH ltac:(intros; apply H; by right)). lia.
Qed.
Lemma join_length {A} (f : A -> string) l : l <> [] ->
  String.length (join "," (map f l)) = (list_sum (map (fun x => S (String.length (f x))) l) - 1)%nat.
Proof.
  induction l as [|x l IH]; [done|]. intros _. destruct l as [|y l]; [cbn; lia|].
  cbn [map]. rewrite join_cons by done. rewrite !slength_app. change (f y :: map f l) with (map f (y :: l)). rewrite IH by done. cbn. lia.
Qed.

Lemma need_length v : printable v = true -> (need v <= String.length (stringify v))%nat.
Proof.
  induction v using jsval_nested_ind; intros Hp; try done; try (destruct (first_char _ Hp) as (c & r & -> & _); cbn; lia).
  - cbn [printable need stringify] in *. rewrite forallb_forall in Hp. rewrite List.Forall_forall in H.
    rewrite !slength_app. cbn [String.length]. destruct l as [|x l]; [cbn; lia|]. rewrite join_length by done.
    assert (list_sum (map (fun x => S (need x)) (x :: l)) <= list_sum (map (fun x => S (String.length (stringify x))) (x :: l)))%nat.
    { apply sum_le. intros y Hy%list_elem_of_In. specialize (H y Hy (Hp y Hy)). cbn beta. lia. }
    cbn in *. lia.
  - cbn [printable] in Hp. apply andb_true_iff in Hp as [_ Hp]. rewrite stringify_obj by done. cbn [need].
    rewrite forallb_forall in Hp. rewrite List.Forall_forall in H.
    rewrite !slength_app. cbn [String.length]. destruct fs as [|p fs]; [cbn; lia|]. rewrite join_length by done.
    assert (list_sum (map (fun p => S (need p.2)) (p :: fs)) <= list_sum (map (fun p => S (String.length (print_field p))) (p :: fs)))%nat.
    { apply sum_le. intros y Hy%list_elem_of_In. specialize (H y Hy (Hp y Hy)). cbn beta. unfold print_field. rewrite !slength_app. lia. }
    cbn in *. lia.
Qed.

Lemma parse_stringify v : printable v = true -> parse (stringify v) = Some v.
Proof.
  intros Hp. unfold parse. pose proof (printable_reads v Hp (S (String.length (stringify v))) "") as Hr.
  rewrite sapp_nil_r in Hr. rewrite Hr; [done| |done]. pose proof (need_length v Hp). lia.
Qed.

(** *** Assignment *)

Lemma put_field_keys k v fs x : x ∈ map fst (put_field k v fs) -> x = k \/ x ∈ map fst fs.
Proof.
  induction fs as [|[k' v'] fs IH]; cbn [put_field map fst]; [rewrite elem_of_cons, elem_of_nil; tauto|].
  destruct (String.eqb_spec k' k) as [->|]; cbn [map fst]; rewrite !elem_of_cons; [tauto|]. intros [->|H]; [tauto|]. destruct (IH H); tauto.
Qed.
Lemma put_field_nodup k v fs : NoDup (map fst fs) -> NoDup (map fst (put_field k v fs)).
Proof.
  induction fs as [|[k' v'] fs IH]; cbn [put_field map fst]; [intros _; apply NoDup_singleton|]. intros [Hn Hd]%NoDup_cons.
  destruct (String.eqb_spec k' k) as [->|Hne]; cbn [map fst]; constructor; [done..| |by apply IH]. by intros [->|H]%put_field_keys.
Qed.
Lemma put_printable k v fs : printable v = true -> printable (JObj fs) = true -> printable (JObj (put_field k v fs)) = true.
Proof.
  intros Hv. cbn [printable]. intros [Hd%bool_decide_eq_true Hp]%andb_true_iff. apply andb_true_iff. split; [by apply bool_decide_eq_true, put_field_nodup|].
  clear Hd. induction fs as [|[k' v'] fs IH]; cbn [put_field forallb snd] in *; [by rewrite Hv|]. apply andb_true_iff in Hp as [H1 H2].
  destruct (k' =s? k); cbn [forallb snd]; [by rewrite Hv|]. rewrite H1. by apply IH.
Qed.
Lemma field_put_eq k v fs : field k (put_field k v fs) = v.
Proof.
  induction fs as [|[k' v'] fs IH]; cbn [put_field field]; [by rewrite String.eqb_refl|]. destruct (k' =s? k) eqn:E; cbn [field]; [by rewrite String.eqb_refl|].
  by rewrite E.
Qed.
Lemma field_put_ne k k' v fs : k <> k' -> field k (put_field k' v fs) = field k fs.
Proof.
  intros Hn%not_eq_sym%String.eqb_neq. induction fs as [|[k0 v0] fs IH]; cbn [put_field field]; [by rewrite Hn|].
  destruct (String.eqb_spec k0 k') as [->|H0]; cbn [field]; [by rewrite Hn | by rewrite IH].
Qed.
