(* ===== verification/Keygen.v ===== *)
(** * Key derivation and wrapping ([static/auth/keygen.js])

    The password key (Argon2id, or PBKDF2 for old rows), AES-GCM wrapping, the
    bootstrap of a new account and the rewrapping for a new password.  WebCrypto
    and the Argon2 runtime are behind an interface; random bytes are arguments.
    The component implements [KeyVault.KeyDerivation]. *)
From Stdlib Require Import ZArith Lia.
From S2P Require Import Prelude JsString JsValue Base64 Text VaultStore Signature KeyVault VaultProps.

(** ** Interface *)

Class WebCrypto := {
  aeskey : Type;
  importKey : string -> res aeskey;                       (** [subtle.importKey("raw", ..., "AES-GCM")] *)
  pbkdf2 : string -> string -> Z -> res aeskey;           (** password, salt, iterations *)
  gcm_encrypt : aeskey -> string -> string -> string;     (** key, nonce, plaintext *)
  gcm_decrypt : aeskey -> string -> string -> res string;
  gcm_open_seal : forall k n p, gcm_decrypt k n (gcm_encrypt k n p) = Ok p;
  (** [argon2.hash] with pass, salt, time, mem, parallelism (NaN is [None]) and
      the hash length; [None] when the script is not loaded. *)
  argon2_hash : option (string -> string -> option Z -> option Z -> option Z -> Z -> res string);
}.

Definition KDF_ARGON2ID : string := "argon2id".
Definition KDF_PBKDF2 : string := "pbkdf2-sha256".
Definition KDF_PBKDF2_LEGACY : string := "pbkdf2-sha256-600k".
Definition PBKDF2_ITERATIONS : Z := 600000.
Definition ARGON2_TIME : Z := 3.
Definition ARGON2_MEM_KIB : Z := 64 * 1024.
Definition ARGON2_PARALLELISM : Z := 1.
Definition KEK_BYTES : Z := 32.

Definition isPbkdf2Sha256Kdf (hint : string) : bool := (hint =s? KDF_PBKDF2) || (hint =s? KDF_PBKDF2_LEGACY).

Section Keygen.
Context `{WebCrypto}.

(** ** Derivation *)

Record derived := Derived {
  d_kdf : string;
  d_key : aeskey;
  d_params : jsval;
}.

(** [Number((paramsHint && paramsHint.k) || d)] *)
Definition param (paramsHint : jsval) (k : string) (d : Z) : option Z :=
  let v := if truthy paramsHint then match paramsHint with JObj fs => field k fs | _ => JUndef end else paramsHint in
  js_Number (js_or v (JNum d)).
Definition num_value (n : option Z) : jsval := match n with Some z => JNum z | None => JNaN end.

Definition deriveKEKWithPBKDF2 (password salt : string) : res aeskey :=
  pbkdf2 (utf8 password) salt PBKDF2_ITERATIONS.

Definition deriveKEKWithArgon2id (password saltBytes : string) (paramsHint : jsval) : res (aeskey * jsval) :=
  match argon2_hash with
  | None => Throw "argon2 runtime not loaded"
  | Some hash =>
      let time := param paramsHint "time" ARGON2_TIME in
      let mem := param paramsHint "mem" ARGON2_MEM_KIB in
      let parallelism := param paramsHint "parallelism" ARGON2_PARALLELISM in
      h <~ hash (utf8 password) saltBytes time mem parallelism KEK_BYTES ;;
      key <~ importKey h ;;
      Ok (key, JObj [("time", num_value time); ("mem", num_value mem);
                     ("parallelism", num_value parallelism); ("hash_len", JNum KEK_BYTES)])
  end.

Definition deriveKEK (password saltBytes : string) (kdfHint kdfParams : jsval) : res derived :=
  let parsedParams := js_or kdfParams JNull in
  let '(kdfHint, parsedParams) :=
    if negb (truthy parsedParams) && (truthy kdfHint && is_object kdfHint) then
      let get k := match kdfHint with JObj fs => field k fs | _ => JUndef end in
      (js_or (js_or (get "kdf") (get "name")) (JStr ""), kdfHint)
    else (kdfHint, parsedParams) in
  let is_hint s := match kdfHint with JStr h => h =s? s | _ => false end in
  if is_hint KDF_ARGON2ID || (negb (truthy kdfHint) && (if argon2_hash is Some _ then true else false)) then
    d <~ deriveKEKWithArgon2id password saltBytes parsedParams ;;
    Ok (Derived KDF_ARGON2ID d.1 d.2)
  else if truthy kdfHint && negb (is_hint KDF_PBKDF2 || is_hint KDF_PBKDF2_LEGACY) then
    Throw ("unsupported KDF: " +:+ js_String kdfHint)
  else
    key <~ deriveKEKWithPBKDF2 password saltBytes ;;
    Ok (Derived KDF_PBKDF2 key (JObj [("iterations", JNum PBKDF2_ITERATIONS); ("hash", JStr "SHA-256")])).

(** ** AES-GCM *)

(** [nonce]: the 12 random bytes. *)
Definition aesWrap (nonce : string) (kek : aeskey) (plaintextBytes : string) : string :=
  nonce +:+ gcm_encrypt kek nonce plaintextBytes.

Definition aesUnwrap (kek : aeskey) (wrapped : string) : res string :=
  if String.length wrapped <? 12 then Throw "wrapped blob too short"
  else gcm_decrypt kek (stake 12 wrapped) (sdrop 12 wrapped).

(** ** Accounts *)

Section Accounts.
Context `{OpenPGP}.

(** [openpgp.generateKey] for a user id, as (public, private) armor, and
    [openpgp.encrypt] of a text to a key. *)
Variable generateKey : string -> string -> res (string * string).
Variable pgp_encrypt : pubkey -> string -> res string.

Definition generateAccountKey (email : string) : res (string * string) :=
  generateKey ("elvish-account:" +:+ email) email.
Definition generateIdentityKey (email : string) : res (string * string) := generateKey email email.

Definition pgpWrapToAccount (armoredPlain armoredAccountPub : string) : res string :=
  accountPub <~ readKey armoredAccountPub ;; pgp_encrypt accountPub armoredPlain.

Record account_row := AccountRow {
  ac_fingerprint : string;
  ac_armored_public : string;
  ac_wrapped_secret_b64 : string;
  ac_kdf : string;
  ac_kdf_salt_b64 : string;
  ac_kdf_params : jsval;
}.
Record identity_row := IdentityRow {
  in_email : string;
  in_fingerprint : string;
  in_armored_public : string;
  in_wrapped_secret_armored : string;
}.

(** [salt], [nonce]: 16 and 12 random bytes. *)
Definition bootstrap (salt nonce email password : string) : res (account_row * identity_row) :=
  if (email =s? "") || (password =s? "") then Throw "email and password required"
  else
    account <~ generateAccountKey email ;;
    identity <~ generateIdentityKey email ;;
    d <~ deriveKEK password salt JUndef JUndef ;;
    let wrappedAccountSecret := aesWrap nonce (d_key d) (utf8 account.2) in
    wrappedIdentitySecret <~ pgpWrapToAccount identity.2 account.1 ;;
    accountFingerprint <~ pgpFingerprint account.1 ;;
    identityFingerprint <~ pgpFingerprint identity.1 ;;
    Ok (AccountRow accountFingerprint account.1 (bytesToB64 wrappedAccountSecret) (d_kdf d) (bytesToB64 salt) (d_params d),
        IdentityRow email identityFingerprint identity.1 wrappedIdentitySecret).

(** [JSON.parse]; [None] when it throws. *)
Variable JSON_parse : string -> option jsval.

(** The row of an account, as far as rewrapping reads it. *)
Record rewrap_in := RewrapIn {
  rw_bootstrapped : bool;
  rw_kdf : string;
  rw_kdf_salt_b64 : string;
  rw_kdf_params_json : string;
  rw_wrapped_secret_b64 : string;
}.
Record rewrap_out := RewrapOut {
  ro_wrapped_secret_b64 : string;
  ro_kdf : string;
  ro_kdf_salt_b64 : string;
  ro_kdf_params_json : string;
}.

Definition rewrapAccountForNewPassword (newSalt nonce : string) (me : rewrap_in) (oldPassword newPassword : string)
  : res rewrap_out :=
  if negb (rw_bootstrapped me) then Throw "account key not bootstrapped"
  else
    saltBytes <~ Base64.b64ToBytes (rw_kdf_salt_b64 me) ;;
    let oldParams := default (JObj []) (JSON_parse (str_or (rw_kdf_params_json me) "{}")) in
    oldDerived <~ deriveKEK oldPassword saltBytes (JStr (rw_kdf me)) oldParams ;;
    wrapped <~ Base64.b64ToBytes (rw_wrapped_secret_b64 me) ;;
    privArmoredUtf8 <~ aesUnwrap (d_key oldDerived) wrapped ;;
    newDerived <~ deriveKEK newPassword newSalt (JStr KDF_ARGON2ID) JUndef ;;
    Ok (RewrapOut (bytesToB64 (aesWrap nonce (d_key newDerived) privArmoredUtf8)) (d_kdf newDerived)
          (bytesToB64 newSalt) (stringify (js_or (d_params newDerived) (JObj [])))).

(** ** What the vault is given *)

Variable digest : string -> string.

Definition keygen_derivation : KeyDerivation := {|
  kek := aeskey;
  KeyVault.deriveKEK := fun password salt kdf params_json =>
    d <~ deriveKEK password salt (JStr kdf) (default (JObj []) (JSON_parse params_json)) ;; Ok (d_key d);
  KeyVault.aesUnwrap := aesUnwrap;
  KeyVault.b64ToBytes := Base64.b64ToBytes;
  decodeText := Text.decodeText;
  sha256 := digest;
|}.
End Accounts.
End Keygen.

(** ** Lemmas *)

Section Lemmas.
Context `{WebCrypto}.

Lemma unwrap_wrap nonce k p : String.length nonce = 12 -> aesUnwrap k (aesWrap nonce k p) = Ok p.
Proof.
  intros Hn. unfold aesUnwrap, aesWrap. rewrite slength_app, Hn, (proj2 (Nat.ltb_ge _ _)) by lia.
  rewrite <- Hn, stake_app, sdrop_app. apply gcm_open_seal.
Qed.

(** Hints that ask for a new key: none, or the preferred one. *)
Definition fresh_hint (h : jsval) : Prop := h = JUndef \/ h = JStr KDF_ARGON2ID.

(** The parameters a derivation reports derive the same key again. *)
Lemma derive_again pw salt hint d :
  fresh_hint hint -> deriveKEK pw salt hint JUndef = Ok d ->
  exists d', deriveKEK pw salt (JStr (d_kdf d)) (d_params d) = Ok d' /\ d_key d' = d_key d.
Proof.
  intros Hh Hd. unfold deriveKEK, deriveKEKWithArgon2id in *. destruct argon2_hash as [hash|] eqn:Ea.
  - assert (exists h key, hash (utf8 pw) salt (Some ARGON2_TIME) (Some ARGON2_MEM_KIB) (Some ARGON2_PARALLELISM) KEK_BYTES = Ok h /\
              importKey h = Ok key /\
              d = Derived KDF_ARGON2ID key (JObj [("time", JNum ARGON2_TIME); ("mem", JNum ARGON2_MEM_KIB);
                     ("parallelism", JNum ARGON2_PARALLELISM); ("hash_len", JNum KEK_BYTES)])) as (h & key & E1 & E2 & ->).
    { destruct Hh as [-> | ->]; cbn in Hd; apply res_bind_ok in Hd as ([key p] & Hd & [= <-]);
        apply res_bind_ok in Hd as (h & E1 & Hd); apply res_bind_ok in Hd as (key2 & E2 & [= <- <-]); by exists h, key2. }
    cbn [d_kdf d_params d_key]. set (P := JObj _). cbn.
    assert (param P "time" ARGON2_TIME = Some ARGON2_TIME) as -> by reflexivity.
    assert (param P "mem" ARGON2_MEM_KIB = Some ARGON2_MEM_KIB) as -> by reflexivity.
    assert (param P "parallelism" ARGON2_PARALLELISM = Some ARGON2_PARALLELISM) as -> by reflexivity.
    rewrite E1. cbn. rewrite E2. cbn. eauto.
  - destruct Hh as [-> | ->]; cbn in Hd; [|done]. apply res_bind_ok in Hd as (key & E & [= <-]).
    cbn. rewrite E. cbn. eauto.
Qed.

Lemma kdf_params_object pw salt hint d :
  fresh_hint hint -> deriveKEK pw salt hint JUndef = Ok d -> exists fs, d_params d = JObj fs.
Proof.
  intros Hh Hd. unfold deriveKEK, deriveKEKWithArgon2id in Hd. destruct argon2_hash.
  - destruct Hh as [-> | ->]; cbn in Hd; apply res_bind_ok in Hd as ([key p] & Hd & [= <-]);
      apply res_bind_ok in Hd as (h & E1 & Hd); apply res_bind_ok in Hd as (key2 & E2 & [= <- <-]); by eexists.
  - destruct Hh as [-> | ->]; cbn in Hd; [|done]. apply res_bind_ok in Hd as (key & E & [= <-]). by eexists.
Qed.
Lemma kdf_row_nonempty pw salt hint d : fresh_hint hint -> deriveKEK pw salt hint JUndef = Ok d -> truthy (d_params d) = true.
Proof. intros Hh Hd. by destruct (kdf_params_object _ _ _ _ Hh Hd) as [fs ->]. Qed.

Lemma dispatch_argon2 pw salt params :
  deriveKEK pw salt (JStr KDF_ARGON2ID) params =
  (d <~ deriveKEKWithArgon2id pw salt (js_or params JNull) ;; Ok (Derived KDF_ARGON2ID d.1 d.2)).
Proof. unfold deriveKEK. rewrite !andb_false_r. done. Qed.

(** ** Properties *)

(** which derivation runs depends on the hint alone: Argon2id when it is
    named or nothing is named and the runtime is loaded, PBKDF2 when one of its
    two labels is named or nothing is and there is no runtime, and an error for any
    other name.  PBKDF2 always takes the built-in iteration count: the stored
    parameters do not change the key. *)
Theorem deriveKEK_dispatch pw salt hint params :
  let r := deriveKEK pw salt (JStr hint) params in
  (hint = KDF_ARGON2ID -> r = (d <~ deriveKEKWithArgon2id pw salt (js_or params JNull) ;; Ok (Derived KDF_ARGON2ID d.1 d.2))) /\
  (isPbkdf2Sha256Kdf hint = true ->
     r = (k <~ pbkdf2 (utf8 pw) salt PBKDF2_ITERATIONS ;;
          Ok (Derived KDF_PBKDF2 k (JObj [("iterations", JNum PBKDF2_ITERATIONS); ("hash", JStr "SHA-256")])))) /\
  (hint <> "" -> hint <> KDF_ARGON2ID -> isPbkdf2Sha256Kdf hint = false -> r = Throw ("unsupported KDF: " +:+ hint)).
Proof.
  cbv zeta. split_and!; [intros ->; apply dispatch_argon2|..]; unfold deriveKEK; rewrite !andb_false_r; cbn [truthy js_String].
  - unfold isPbkdf2Sha256Kdf. intros Hp. rewrite Hp, andb_false_r.
    apply orb_true_iff in Hp as [Hp|Hp]; bool_to_prop; subst hint; cbn; done.
  - unfold isPbkdf2Sha256Kdf. intros H1 H2 H3. rewrite H3.
    rewrite (proj2 (String.eqb_neq _ _) H1), (proj2 (String.eqb_neq _ _) H2). done.
Qed.

Section Roundtrip.
Context `{OpenPGP}.
Variable generateKey : string -> string -> res (string * string).
Variable pgp_encrypt : pubkey -> string -> res string.
Variable JSON_parse : string -> option jsval.
Variable digest : string -> string.
Local Abbreviation kd := (keygen_derivation JSON_parse digest).
Local Abbreviation unlockAccount := (@KeyVault.unlockAccount _ kd).

Lemma bootstrap_inv salt nonce email pw acc ident :
  bootstrap generateKey pgp_encrypt salt nonce email pw = Ok (acc, ident) ->
  exists priv d, generateAccountKey generateKey email = Ok (ac_armored_public acc, priv) /\
    deriveKEK pw salt JUndef JUndef = Ok d /\ pgpFingerprint (ac_armored_public acc) = Ok (ac_fingerprint acc) /\
    ac_wrapped_secret_b64 acc = bytesToB64 (aesWrap nonce (d_key d) (utf8 priv)) /\
    ac_kdf acc = d_kdf d /\ ac_kdf_salt_b64 acc = bytesToB64 salt /\ ac_kdf_params acc = d_params d.
Proof.
  unfold bootstrap. destruct (_ || _); [done|]. rewrite !res_bind_ok.
  intros ([pub priv] & Hg & Hr). rewrite res_bind_ok in Hr. destruct Hr as (idk & _ & Hr).
  rewrite res_bind_ok in Hr. destruct Hr as (d & Hd & Hr). cbv zeta in Hr.
  rewrite res_bind_ok in Hr. destruct Hr as (w & _ & Hr). rewrite res_bind_ok in Hr. destruct Hr as (f1 & Hf & Hr).
  rewrite res_bind_ok in Hr. destruct Hr as (f2 & _ & Hr). simplify_eq/=. exists priv, d. done.
Qed.

(** registration and login agree: the row [bootstrap] makes, once stored
    with its parameters as JSON, is opened by the key vault with the same password,
    giving back the account's private key under its fingerprint, provided OpenPGP
    reads back the pair it generated.  The server returns the key id, or another text
    that stands for the same fingerprint. *)
Theorem bootstrap_then_unlock e now salt nonce email pw acc ident priv k pub params_json served sessionEmail s :
  String.length nonce = 12 ->
  bootstrap generateKey pgp_encrypt salt nonce email pw = Ok (acc, ident) ->
  generateAccountKey generateKey email = Ok (ac_armored_public acc, priv) ->
  readPrivateKey priv = Ok k -> readKey (ac_armored_public acc) = Ok pub ->
  normalizeFingerprint (priv_fingerprint k) = normalizeFingerprint (to_upper (pub_fingerprint pub)) ->
  normalizeFingerprint (priv_fingerprint k) <> "" ->
  params_json <> "" -> JSON_parse params_json = Some (ac_kdf_params acc) -> fingerprintsEquivalent served (ac_fingerprint acc) = true ->
  let me := MeRow (ac_kdf acc) params_json (ac_kdf_salt_b64 acc) (ac_wrapped_secret_b64 acc)
              (ac_armored_public acc) served in
  exists s', unlockAccount e now me pw sessionEmail s = (Ok (normalizeFingerprint (ac_fingerprint acc)), s') /\
    accountPrivateKey (vs s') = Some k /\ accountArmoredPriv (vs s') = priv.
Proof.
  intros Hn Hb Hgen Hpr Hpu Hfp Hne Hj Hparse Hsrv me. apply bootstrap_inv in Hb as (priv' & d & Hg & Hd & Hf & A1 & A2 & A3 & A4).
  rewrite Hg in Hgen. injection Hgen as ->. unfold pgpFingerprint in Hf. rewrite Hpu in Hf. cbn in Hf. injection Hf as Hf.
  destruct (derive_again pw salt JUndef d ltac:(by left) Hd) as (d' & Hd' & Hk).
  unfold KeyVault.unlockAccount, me. cbn [me_kdf_salt_b64 me_kdf me_kdf_params_json me_wrapped_secret_b64 me_armored_public me_fingerprint].
  cbn [KeyVault.b64ToBytes KeyVault.deriveKEK KeyVault.aesUnwrap decodeText keygen_derivation].
  unfold str_or. rewrite (proj2 (String.eqb_neq _ _) Hj), Hparse, A1, A2, A3, A4. cbn [default from_option id].
  unfold Base64.b64ToBytes, bytesToB64. rewrite !atob_btoa. cbn [res_bind]. rewrite Hd'. cbn [res_bind]. rewrite Hk.
  rewrite unwrap_wrap by done. cbn [res_bind res_catch]. rewrite decodeText_utf8.
  assert (check_account priv (ac_armored_public acc) served =
            Ok (k, normalizeFingerprint (to_upper (pub_fingerprint pub)))) as Hc.
  { unfold check_account, pgpFingerprint. rewrite Hpr, Hpu. cbn [res_catch res_bind].
    assert (fingerprintsEquivalent served (normalizeFingerprint (to_upper (pub_fingerprint pub))) = true) as ->.
    { rewrite <- Hf in Hsrv. apply equivalent_keyid in Hsrv as (H1 & H2 & H3). apply equivalent_keyid. revert H2 H3.
      unfold fingerprintKeyId16. autorewrite with js_rew. done. }
    rewrite andb_false_r, <- Hfp, (proj2 (String.eqb_neq _ _) Hne), String.eqb_refl. done. }
  unfold hydrateUnlockedAccount. cbn [ac_armored_public ac_fingerprint]. rewrite Hc, Hpu, <- Hf. eexists. split; [done|]. done.
Qed.

(** What rewrapping keeps. *)
Lemma rewrap_opens newSalt nonce me old new out :
  String.length nonce = 12 ->
  rewrapAccountForNewPassword JSON_parse newSalt nonce me old new = Ok out ->
  ro_kdf out = KDF_ARGON2ID /\
  exists secret oldSalt oldKey oldWrapped params newKey newWrapped,
    Base64.b64ToBytes (rw_kdf_salt_b64 me) = Ok oldSalt /\
    deriveKEK old oldSalt (JStr (rw_kdf me)) (default (JObj []) (JSON_parse (str_or (rw_kdf_params_json me) "{}"))) = Ok oldKey /\
    Base64.b64ToBytes (rw_wrapped_secret_b64 me) = Ok oldWrapped /\ aesUnwrap (d_key oldKey) oldWrapped = Ok secret /\
    ro_kdf_params_json out = stringify params /\ Base64.b64ToBytes (ro_kdf_salt_b64 out) = Ok newSalt /\
    deriveKEK new newSalt (JStr (ro_kdf out)) params = Ok newKey /\
    Base64.b64ToBytes (ro_wrapped_secret_b64 out) = Ok newWrapped /\ aesUnwrap (d_key newKey) newWrapped = Ok secret.
Proof.
  intros Hn. unfold rewrapAccountForNewPassword. destruct (negb _); [done|]. rewrite res_bind_ok. intros (os & E1 & Hr). cbv zeta in Hr.
  rewrite res_bind_ok in Hr. destruct Hr as (od & E2 & Hr). rewrite res_bind_ok in Hr. destruct Hr as (ow & E3 & Hr).
  rewrite res_bind_ok in Hr. destruct Hr as (secret & E4 & Hr). rewrite res_bind_ok in Hr. destruct Hr as (nd & E5 & Hr).
  injection Hr as <-. cbn [ro_kdf ro_kdf_params_json ro_kdf_salt_b64 ro_wrapped_secret_b64].
  assert (fresh_hint (JStr KDF_ARGON2ID)) as Hf by by right.
  assert (d_kdf nd = KDF_ARGON2ID) as Hk.
  { pose proof E5 as E8. rewrite dispatch_argon2 in E8. by apply res_bind_ok in E8 as (? & _ & [= <-]). }
  split; [done|]. destruct (derive_again new newSalt _ nd Hf E5) as (nd' & E6 & E7).
  pose proof (kdf_row_nonempty new newSalt _ nd Hf E5) as Ht.
  exists secret, os, od, ow, (d_params nd), nd', (aesWrap nonce (d_key nd) secret).
  unfold js_or. rewrite Ht. unfold Base64.b64ToBytes, bytesToB64. rewrite !atob_btoa.
  split_and!; try done. rewrite E7. by apply unwrap_wrap.
Qed.

(** changing the password keeps the key: when rewrapping succeeds, the old
    password opened the row to some bytes, and the new row, always an Argon2id
    one, is opened to the same bytes by the new password with the salt and the
    parameters stored in it. *)
Theorem rewrap_then_unwrap newSalt nonce me old new out :
  String.length nonce = 12 ->
  rewrapAccountForNewPassword JSON_parse newSalt nonce me old new = Ok out ->
  ro_kdf out = KDF_ARGON2ID /\
  exists secret oldSalt oldKey oldWrapped params newKey newWrapped,
    Base64.b64ToBytes (rw_kdf_salt_b64 me) = Ok oldSalt /\
    deriveKEK old oldSalt (JStr (rw_kdf me)) (default (JObj []) (JSON_parse (str_or (rw_kdf_params_json me) "{}"))) = Ok oldKey /\
    Base64.b64ToBytes (rw_wrapped_secret_b64 me) = Ok oldWrapped /\ aesUnwrap (d_key oldKey) oldWrapped = Ok secret /\
    ro_kdf_params_json out = stringify params /\ Base64.b64ToBytes (ro_kdf_salt_b64 out) = Ok newSalt /\
    deriveKEK new newSalt (JStr (ro_kdf out)) params = Ok newKey /\
    Base64.b64ToBytes (ro_wrapped_secret_b64 out) = Ok newWrapped /\ aesUnwrap (d_key newKey) newWrapped = Ok secret.
Proof. apply rewrap_opens. Qed.
End Roundtrip.
End Lemmas.

(** ** Witnesses

    A cipher that prefixes the key, and an Argon2 that concatenates. *)
Lemma toy_open_seal (k n p : string) :
  (if starts_with (k +:+ p) k then Ok (sdrop (String.length k) (k +:+ p)) else Throw "OperationError") = Ok p.
Proof. rewrite (proj2 (starts_with_spec _ _)) by eauto. by rewrite sdrop_app. Qed.

#[export] Instance toy_crypto : WebCrypto := {|
  aeskey := string;
  importKey := fun b => Ok b;
  pbkdf2 := fun pw salt _ => Ok (pw +:+ salt);
  gcm_encrypt := fun k _ p => k +:+ p;
  gcm_decrypt := fun k _ c => if starts_with c k then Ok (sdrop (String.length k) c) else Throw "OperationError";
  gcm_open_seal := toy_open_seal;
  argon2_hash := Some (fun pw salt _ _ _ _ => Ok (pw +:+ salt));
|}.
Definition toy_generate (name email : string) : res (string * string) := Ok ("AB", "AB").
Definition toy_parse (s : string) : option jsval :=
  if s =s? "params" then Some (JObj [("time", JNum 3); ("mem", JNum 65536); ("parallelism", JNum 1); ("hash_len", JNum 32)]) else None.
Definition toy_row : account_row * identity_row :=
  match bootstrap (H0 := VaultProps.toy_pgp) toy_generate (fun k t => Ok t) "0123456789abcdef" "nonce-nonce-" "a@b.c" "pw" with
  | Ok r => r
  | Throw _ => (AccountRow "" "" "" "" "" JNull, IdentityRow "" "" "" "")
  end.

Lemma deriveKEK_dispatch_witness :
  deriveKEK "pw" "salt" (JStr "scrypt") JNull = Throw ("unsupported KDF: " +:+ "scrypt").
Proof. apply (deriveKEK_dispatch "pw" "salt" "scrypt" JNull); done. Defined.

Lemma bootstrap_then_unlock_witness :
  exists s', accountArmoredPriv (H := VaultProps.toy_pgp) (vs s') = "AB".
Proof.
  destruct (bootstrap_then_unlock (H0 := VaultProps.toy_pgp) toy_generate (fun k t => Ok t) toy_parse (fun s => s)
    sample_engine 1 "0123456789abcdef" "nonce-nonce-" "a@b.c" "pw" toy_row.1 toy_row.2 "AB" "AB" "AB" "params" "AB" "a@b.c"
    VaultProps.sample_locked) as (s' & _ & _ & Hs); try (vm_compute; reflexivity); try (vm_compute; discriminate).
  exists s'. exact Hs.
Defined.

Lemma rewrap_then_unwrap_witness :
  exists out, rewrapAccountForNewPassword toy_parse "fedcba9876543210" "nonce-nonce-"
    (RewrapIn true (ac_kdf toy_row.1) (ac_kdf_salt_b64 toy_row.1) "params" (ac_wrapped_secret_b64 toy_row.1)) "pw" "new" = Ok out /\
    ro_kdf out = KDF_ARGON2ID.
Proof.
  eexists. split; [vm_compute; reflexivity|].
  refine (proj1 (rewrap_then_unwrap toy_parse "fedcba9876543210" "nonce-nonce-"
    (RewrapIn true (ac_kdf toy_row.1) (ac_kdf_salt_b64 toy_row.1) "params" (ac_wrapped_secret_b64 toy_row.1)) "pw" "new" _ _ _));
    [reflexivity | vm_compute; reflexivity].
Defined.
