(* ===== verification/Srp.v ===== *)
(** * Password proof: SRP-6a ([static/auth/srp.js])

    The browser's half of the login exchange: big integers and their byte forms,
    modular exponentiation, the registration verifier, the two proofs and the
    exchange with the server.  The server's half ([internal/pake/srp.go]) is
    modelled as the specification the browser has to agree with.  SHA-256 is a
    parameter; random exponents and salts are arguments. *)
From Stdlib Require Import ZArith Zpow_facts ZifyNat Lia Ascii.
From S2P Require Import Prelude JsString JsValue Base64 Text.

Open Scope Z_scope.

(** ** The group *)

Definition GROUP_NAME : string := "rfc5054-2048".
Definition HASH_NAME : string := "sha256".
Definition N_HEX : string :=
  "AC6BDB41324A9A9BF166DE5E1389582FAF72B6651987EE07FC3192943DB56050A37329CBB4A099ED8193E0757767A13DD52312AB4B03310DCD7F48A9DA04FD50E8083969EDB767B0CF6096BEECFB71744F9A5B7CDBD7B3E8C94BBE117577A615D6C770988C0BAD946E208E24FA074E5AB3143DB5BFCE0FD108E4B82D120A93AD2CAFFFFFFFFFFFFFFFF".
Definition N : Z := hexs_val 0 N_HEX.
Definition G : Z := 2.
(** [Math.ceil(N_HEX.length / 2)] *)
Definition PAD_LEN : nat := (String.length N_HEX + 1) / 2.

(** ** Bytes and integers *)

(** [b.toString(16).padStart(2, "0")] *)
Definition byte_hex (c : ascii) : string :=
  let h := Z_to_hex (byte c) in if (String.length h <? 2)%nat then String "0" h else h.
Fixpoint hex_of_bytes (bytes : string) : string :=
  match bytes with EmptyString => "" | String c s => byte_hex c +:+ hex_of_bytes s end.

Definition bytesToBigInt (bytes : string) : Z := hexs_val 0 (str_or (hex_of_bytes bytes) "00").

(** [raw[i] = parseInt(hex.slice(2 * i, 2 * i + 2), 16)] *)
Fixpoint bytes_of_hex (hex : string) : string :=
  match hex with
  | String a (String b s) => String (char_of (hex_val a * 16 + hex_val b)) (bytes_of_hex s)
  | _ => EmptyString
  end.

(** [padLen = 0]: no padding asked for. *)
Definition bigIntToBytes (num : Z) (padLen : nat) : string :=
  let hex := Z_to_hex num in
  let hex := if (String.length hex mod 2 =? 0)%nat then hex else String "0" hex in
  let raw := bytes_of_hex hex in
  if (padLen =? 0)%nat || (padLen <=? String.length raw)%nat then raw
  else repeat_char (char_of 0) (padLen - String.length raw) +:+ raw.

(** ** [modPow] *)

(** The loop [while (e > 0n)]; [fuel] bounds the bits of [e]. *)
Fixpoint modPow_loop (fuel : nat) (result b e mod_ : Z) : option Z :=
  if e >? 0 then
    match fuel with
    | O => None
    | S fuel =>
        let result := if Z.land e 1 =? 0 then result else Z.rem (result * b) mod_ in
        modPow_loop fuel result (Z.rem (b * b) mod_) (Z.shiftr e 1) mod_
    end
  else Some result.

Definition modPow_fuel (exp : Z) : nat := S (Z.to_nat (Z.log2 exp)).

Definition modPow (base exp mod_ : Z) : Z :=
  default 0 (modPow_loop (modPow_fuel exp) 1 (Z.rem (Z.rem base mod_ + mod_) mod_) exp mod_).

(** ** The protocol *)

Section Protocol.
Variable digest : string -> string.    (* SHA-256 *)

Definition concatBytes (parts : list string) : string := join "" parts.
Definition sha256 (parts : list string) : string := digest (concatBytes parts).

Definition multiplier : Z := bytesToBigInt (sha256 [bigIntToBytes N PAD_LEN; bigIntToBytes G PAD_LEN]).

Definition computeX (username password saltBytes : string) : Z :=
  let inner := sha256 [utf8 (username +:+ ":" +:+ password)] in
  bytesToBigInt (sha256 [saltBytes; inner]).

Record registration := Registration {
  srp_salt_b64 : string;
  srp_verifier_b64 : string;
  srp_group : string;
  srp_hash : string;
}.

(** [salt]: 16 random bytes. *)
Definition createRegistration (salt username password : string) : registration :=
  let x := computeX username password salt in
  let verifier := modPow G x N in
  Registration (bytesToB64 salt) (bytesToB64 (bigIntToBytes verifier PAD_LEN)) GROUP_NAME HASH_NAME.

Record client_state := ClientState {
  username : string;
  password : string;
  cs_a : Z;
  cs_A : Z;
  client_public_b64 : string;
}.

(** [random]: 32 random bytes. *)
Definition begin (random username password : string) : client_state :=
  let a := bytesToBigInt random in
  let A := modPow G a N in
  ClientState username password a A (bytesToB64 (bigIntToBytes A PAD_LEN)).

(** [xor[i] = hN[i] ^ hG[i]], as long as [hN]. *)
Fixpoint xor_bytes (a b : string) : string :=
  match a with
  | EmptyString => EmptyString
  | String c a =>
      let '(d, b) := match b with String d b => (byte d, b) | EmptyString => (0, EmptyString) end in
      String (char_of (Z.lxor (byte c) d)) (xor_bytes a b)
  end.

Record proofs := Proofs { pr_client : string; pr_server : string }.   (* M1, M2 *)

Definition clientProof (state : client_state) (saltBytes serverPublicBytes : string) : proofs :=
  let B := bytesToBigInt serverPublicBytes in
  let A := cs_A state in
  let k := multiplier in
  let u := bytesToBigInt (sha256 [bigIntToBytes A PAD_LEN; bigIntToBytes B PAD_LEN]) in
  let x := computeX (username state) (password state) saltBytes in
  let gx := modPow G x N in
  let base := Z.rem (B - k * gx) N in
  let base := if base <? 0 then base + N else base in
  let exp := cs_a state + u * x in
  let S := modPow base exp N in
  let K := sha256 [bigIntToBytes S PAD_LEN] in
  let hN := sha256 [bigIntToBytes N PAD_LEN] in
  let hG := sha256 [bigIntToBytes G PAD_LEN] in
  let M1 := sha256 [xor_bytes hN hG; sha256 [utf8 (username state)]; saltBytes;
                    bigIntToBytes A PAD_LEN; bigIntToBytes B PAD_LEN; K] in
  Proofs M1 (sha256 [bigIntToBytes A 0; M1; K]).

(** ** The exchange *)

(** A reply: whether its status is ok, and its JSON fields as [exchange] uses
    them: the error and the server's proof are tested for truth ([""] when
    missing), the salt and the public key are what [atob] gets (["undefined"]
    when missing). *)
Record begin_reply := BeginReply {
  br_ok : bool;
  br_error : string;
  br_salt_b64 : string;
  br_server_public_b64 : string;
  br_session_id : string;
}.
Record finish_reply := FinishReply {
  fr_ok : bool;
  fr_error : string;
  fr_server_proof_b64 : string;
  fr_rest : list (string * jsval);
}.

(** [Object.assign({}, extra, own)]: own fields win. *)
Definition assign_over (extra own : list (string * jsval)) : list (string * jsval) :=
  List.filter (fun p => negb (str_mem p.1 (map fst own))) extra ++ own.

(** [post_begin], [post_finish]: the two endpoints, given the JSON body. *)
Definition exchange (post_begin : list (string * jsval) -> begin_reply) (post_finish : list (string * jsval) -> finish_reply)
    (random user pass : string) (extraFinishPayload extraBeginPayload : list (string * jsval)) : res finish_reply :=
  let state := begin random user pass in
  let b := post_begin (assign_over extraBeginPayload
             [("username", JStr user); ("client_public_b64", JStr (client_public_b64 state)); ("company", JStr "")]) in
  if negb (br_ok b) then Throw (str_or (br_error b) "SRP begin failed")
  else
    salt <~ b64ToBytes (br_salt_b64 b) ;;
    pub <~ b64ToBytes (br_server_public_b64 b) ;;
    let proof := clientProof state salt pub in
    let client_proof_b64 := bytesToB64 (pr_client proof) in
    let expected_server_proof_b64 := bytesToB64 (pr_server proof) in
    let f := post_finish (assign_over extraFinishPayload
               [("session_id", JStr (br_session_id b)); ("client_proof_b64", JStr client_proof_b64); ("company", JStr "")]) in
    if negb (fr_ok f) then Throw (str_or (fr_error f) "SRP finish failed")
    else if negb (expected_server_proof_b64 =s? "") && negb (fr_server_proof_b64 f =s? "") &&
            negb (expected_server_proof_b64 =s? fr_server_proof_b64 f)
    then Throw "SRP server proof mismatch"
    else Ok f.

End Protocol.

(** ** The server ([internal/pake/srp.go]) *)

Module Server.
Section Server.
Variable digest : string -> string.

(** [new(big.Int).SetBytes] *)
Fixpoint setBytes_go (acc : Z) (s : string) : Z :=
  match s with EmptyString => acc | String c s => setBytes_go (acc * 256 + byte c) s end.
Definition setBytes (s : string) : Z := setBytes_go 0 s.

(** [trimLeadingZeroes(n.Bytes())]: the digits in base 256. *)
Fixpoint bytes_go (fuel : nat) (n : Z) (acc : string) : string :=
  match fuel with
  | O => acc
  | S f => let acc := String (char_of (n mod 256)) acc in if n <? 256 then acc else bytes_go f (n / 256) acc
  end.
Definition trimmed (n : Z) : string := bytes_go (S (Z.to_nat (Z.log2 n))) n "".

Definition padBig (n : Z) (size : nat) : string :=
  let b := trimmed n in
  if (size <=? String.length b)%nat then b else repeat_char (char_of 0) (size - String.length b) +:+ b.

Definition multiplier : Z := setBytes (digest (padBig N PAD_LEN +:+ padBig G PAD_LEN)).
Definition scramble (A B : Z) : Z := setBytes (digest (padBig A PAD_LEN +:+ padBig B PAD_LEN)).
Definition computeX (username password salt : string) : Z :=
  setBytes (digest (salt +:+ digest (utf8 (username +:+ ":" +:+ password)))).
Definition clientProofBytes (username salt : string) (A B : Z) (key : string) : string :=
  digest (xor_bytes (digest (padBig N PAD_LEN)) (digest (padBig G PAD_LEN)) +:+ digest (utf8 username) +:+ salt +:+
          padBig A PAD_LEN +:+ padBig B PAD_LEN +:+ key).
Definition serverProofBytes (A : Z) (clientProof key : string) : string :=
  digest (trimmed A +:+ clientProof +:+ key).

(** [ComputeRegistration], the verifier. *)
Definition verifier (username password salt : string) : Z := G ^ computeX username password salt mod N.

Record session := Session { ss_B : Z; ss_M1 : string; ss_M2 : string }.

(** [NewServerSession] with the exponent [b]; [None] for its errors. *)
Definition newSession (username salt verifier clientPublic : string) (b : Z) : option session :=
  let A := setBytes clientPublic in
  if (A =? 0) || (A mod N =? 0) then None
  else
    let v := setBytes verifier in
    let B := (multiplier * v + G ^ b mod N) mod N in
    let u := scramble A B in
    if u =? 0 then None
    else
      let S := (A * (v ^ u mod N)) ^ b mod N mod N in
      let K := digest (padBig S PAD_LEN) in
      let M1 := clientProofBytes username salt A B K in
      Some (Session B M1 (serverProofBytes A M1 K)).
End Server.
End Server.

(** ** Modular exponentiation *)

Lemma modPow_loop_spec fuel r b e m :
  1 < m -> 0 <= r < m -> 0 <= b < m -> 0 <= e < 2 ^ Z.of_nat fuel ->
  modPow_loop fuel r b e m = Some ((r * b ^ e) mod m).
Proof.
  intros Hm. revert r b e. induction fuel as [|fuel IH]; intros r b e Hr Hb He; cbn [modPow_loop].
  - assert (e = 0) as -> by (simpl in He; lia). simpl. by rewrite Z.mul_1_r, Z.mod_small.
  - destruct (e >? 0) eqn:E; [|assert (e = 0) as -> by lia; by rewrite Z.mul_1_r, Z.mod_small].
    rewrite Nat2Z.inj_succ, Z.pow_succ_r in He by lia.
    assert (Z.land e 1 = e mod 2) as Hland by (exact (Z.land_ones e 1 ltac:(lia))).
    assert (0 <= e / 2 < 2 ^ Z.of_nat fuel) as He2 by (split; [apply Z.div_pos; lia | apply Z.div_lt_upper_bound; lia]).
    assert (e = 2 * (e / 2) + e mod 2) as He3 by (apply Z.div_mod; lia).
    pose proof (Z.mod_pos_bound e 2 ltac:(lia)) as Hm2.
    assert (0 <= b * b) by (apply Z.mul_nonneg_nonneg; lia). assert (0 <= r * b) by (apply Z.mul_nonneg_nonneg; lia).
    rewrite Z.shiftr_div_pow2, Z.pow_1_r, Hland, !Z.rem_mod_nonneg by lia.
    assert (b ^ e = (b * b) ^ (e / 2) * b ^ (e mod 2)) as ->.
    { rewrite He3 at 1. rewrite Z.pow_add_r, Z.pow_mul_r, Z.pow_2_r by lia. done. }
    rewrite IH; [| | apply Z.mod_pos_bound; lia | done].
    + f_equal. rewrite <- Zmult_mod_idemp_r, <- (Zpower_mod (b * b) (e / 2) m), Zmult_mod_idemp_r by lia.
      destruct (e mod 2 =? 0) eqn:E2; bool_to_prop.
      * rewrite E2, Z.pow_0_r, Z.mul_1_r. done.
      * assert (e mod 2 = 1) as -> by lia. rewrite Z.pow_1_r, Zmult_mod_idemp_l. f_equal. ring.
    + destruct (e mod 2 =? 0); [done | apply Z.mod_pos_bound; lia].
Qed.

Lemma modPow_spec base exp m : 1 < m -> 0 <= exp -> modPow base exp m = base ^ exp mod m.
Proof.
  intros Hm He. unfold modPow, modPow_fuel.
  assert (Z.rem (Z.rem base m + m) m = base mod m) as ->.
  { rewrite Z.rem_mod_nonneg; [| pose proof (Z.rem_bound_abs base m ltac:(lia)); lia | lia].
    replace (Z.rem base m + m) with (base + (1 - Z.quot base m) * m) by (pose proof (Z.quot_rem' base m); lia).
    by apply Z_mod_plus_full. }
  rewrite modPow_loop_spec; [| done | lia | apply Z.mod_pos_bound; lia |].
  - simpl default. rewrite Z.mul_1_l. by rewrite <- Zpower_mod by lia.
  - split; [done|]. rewrite Nat2Z.inj_succ, Z2Nat.id by apply Z.log2_nonneg.
    destruct (Z.eq_dec exp 0) as [->|]; [done|]. apply Z.log2_spec. lia.
Qed.

(** ** Byte forms *)

Lemma byte_hex_spec c :
  exists a b, byte_hex c = String a (String b "") /\ hex_val a * 16 + hex_val b = byte c.
Proof.
  enough (match byte_hex c with String a (String b EmptyString) => hex_val a * 16 + hex_val b =? byte c | _ => false end = true) as H.
  { destruct (byte_hex c) as [|a [|b [|]]]; try done. exists a, b. by apply Z.eqb_eq in H. }
  revert c. by_char.
Qed.

Lemma hexs_of_bytes acc s : hexs_val acc (hex_of_bytes s) = Server.setBytes_go acc s.
Proof.
  revert acc. induction s as [|c s IH]; intros acc; cbn [hex_of_bytes Server.setBytes_go]; [done|].
  destruct (byte_hex_spec c) as (a & b & -> & Hv). simpl. rewrite IH. f_equal. lia.
Qed.

(** The browser and the server read bytes as the same integer. *)
Lemma bytesToBigInt_setBytes s : bytesToBigInt s = Server.setBytes s.
Proof.
  unfold bytesToBigInt, Server.setBytes, str_or. destruct (hex_of_bytes s =s? "") eqn:E; bool_to_prop.
  - rewrite <- hexs_of_bytes, E. done.
  - apply hexs_of_bytes.
Qed.

Lemma setBytes_nonneg acc s : 0 <= acc -> 0 <= Server.setBytes_go acc s.
Proof.
  revert acc. induction s as [|c s IH]; simpl; intros acc H; [done|]. apply IH. pose proof (byte_bound c). lia.
Qed.
Lemma bytesToBigInt_nonneg s : 0 <= bytesToBigInt s.
Proof. rewrite bytesToBigInt_setBytes. by apply setBytes_nonneg. Qed.

(** *** Digits do not depend on the fuel *)

Lemma hex_go_acc f z acc : hex_go f z acc = hex_go f z "" +:+ acc.
Proof.
  revert z acc. induction f as [|f IH]; intros z acc; cbn [hex_go]; [done|].
  destruct (z <? 16); [done|]. rewrite IH, (IH _ (String _ "")), sapp_assoc. done.
Qed.
Lemma hex_go_fuel f1 f2 z :
  0 <= z < 16 ^ Z.of_nat (S f1) -> z < 16 ^ Z.of_nat (S f2) -> hex_go (S f1) z "" = hex_go (S f2) z "".
Proof.
  revert f2 z. induction f1 as [|f1 IH]; intros f2 z H1 H2.
  - cbn [hex_go]. by rewrite (proj2 (Z.ltb_lt z 16)) by (simpl in H1; lia).
  - destruct f2 as [|f2].
    + cbn [hex_go]. by rewrite (proj2 (Z.ltb_lt z 16)) by (simpl in H2; lia).
    + rewrite Nat2Z.inj_succ, Z.pow_succ_r in H1, H2 by lia.
      remember (S f1) as g1. remember (S f2) as g2. cbn [hex_go]. subst. destruct (z <? 16) eqn:E; [done|].
      rewrite hex_go_acc, (hex_go_acc (S f2)). f_equal.
      apply IH; [split; [apply Z.div_pos; lia|]|]; apply Z.div_lt_upper_bound; lia.
Qed.
Lemma log2_hex z : 0 <= z -> z < 16 ^ Z.of_nat (Z.to_nat (Z.log2 z / 4 + 1)).
Proof.
  intros Hz. pose proof (Z.log2_nonneg z). assert (0 <= Z.log2 z / 4) by (apply Z.div_pos; lia).
  rewrite Z2Nat.id by lia. change 16 with (2 ^ 4). rewrite <- Z.pow_mul_r by lia.
  destruct (Z.eq_dec z 0) as [->|]; [apply Z.pow_pos_nonneg; lia|].
  eapply Z.lt_le_trans; [apply Z.log2_spec; lia|]. apply Z.pow_le_mono_r; [lia|].
  pose proof (Z.div_mod (Z.log2 z) 4 ltac:(lia)). pose proof (Z.mod_pos_bound (Z.log2 z) 4 ltac:(lia)). lia.
Qed.
Lemma to_nat_succ z : 0 <= z -> Z.to_nat (z + 1) = S (Z.to_nat z).
Proof. intros. lia. Qed.

Lemma Z_to_hex_step z : 16 <= z -> Z_to_hex z = Z_to_hex (z / 16) +:+ String (hex_digit (z mod 16)) "".
Proof.
  intros Hz. unfold Z_to_hex. pose proof (log2_hex z ltac:(lia)) as H1.
  assert (0 <= z / 16) as Hd by (apply Z.div_pos; lia). pose proof (log2_hex (z / 16) Hd) as H2.
  pose proof (Z.log2_nonneg z). pose proof (Z.log2_nonneg (z / 16)).
  rewrite !to_nat_succ in * by (apply Z.div_pos; lia).
  set (f1 := Z.to_nat (Z.log2 z / 4)) in *. set (f2 := Z.to_nat (Z.log2 (z / 16) / 4)) in *.
  rewrite (hex_go_fuel f1 (S f2) z); [|lia|].
  - remember (S f2) as g. cbn [hex_go]. rewrite (proj2 (Z.ltb_ge z 16)) by lia. by rewrite hex_go_acc.
  - rewrite Nat2Z.inj_succ, Z.pow_succ_r by lia. pose proof (Z.div_mod z 16 ltac:(lia)).
    pose proof (Z.mod_pos_bound z 16 ltac:(lia)). lia.
Qed.

Lemma bytes_go_acc f n acc : Server.bytes_go f n acc = Server.bytes_go f n "" +:+ acc.
Proof.
  revert n acc. induction f as [|f IH]; intros n acc; cbn [Server.bytes_go]; [done|].
  destruct (n <? 256); [done|]. rewrite IH, (IH _ (String _ "")), sapp_assoc. done.
Qed.
Lemma bytes_go_fuel f1 f2 n :
  0 <= n < 256 ^ Z.of_nat (S f1) -> n < 256 ^ Z.of_nat (S f2) -> Server.bytes_go (S f1) n "" = Server.bytes_go (S f2) n "".
Proof.
  revert f2 n. induction f1 as [|f1 IH]; intros f2 n H1 H2.
  - cbn [Server.bytes_go]. by rewrite (proj2 (Z.ltb_lt n 256)) by (simpl in H1; lia).
  - destruct f2 as [|f2].
    + cbn [Server.bytes_go]. by rewrite (proj2 (Z.ltb_lt n 256)) by (simpl in H2; lia).
    + rewrite Nat2Z.inj_succ, Z.pow_succ_r in H1, H2 by lia.
      remember (S f1) as g1. remember (S f2) as g2. cbn [Server.bytes_go]. subst. destruct (n <? 256) eqn:E; [done|].
      rewrite bytes_go_acc, (bytes_go_acc (S f2)). f_equal.
      apply IH; [split; [apply Z.div_pos; lia|]|]; apply Z.div_lt_upper_bound; lia.
Qed.
Lemma log2_bytes n : 0 <= n -> n < 256 ^ Z.of_nat (S (Z.to_nat (Z.log2 n))).
Proof.
  intros Hn. pose proof (Z.log2_nonneg n). rewrite Nat2Z.inj_succ, Z2Nat.id by lia.
  change 256 with (2 ^ 8). rewrite <- Z.pow_mul_r by lia.
  destruct (Z.eq_dec n 0) as [->|]; [apply Z.pow_pos_nonneg; lia|].
  eapply Z.lt_le_trans; [apply Z.log2_spec; lia|]. apply Z.pow_le_mono_r; lia.
Qed.
Lemma trimmed_step n : 256 <= n -> Server.trimmed n = Server.trimmed (n / 256) +:+ String (char_of (n mod 256)) "".
Proof.
  intros Hn. unfold Server.trimmed. pose proof (log2_bytes n ltac:(lia)) as H1.
  assert (0 <= n / 256) as Hd by (apply Z.div_pos; lia). pose proof (log2_bytes (n / 256) Hd) as H2.
  set (f1 := Z.to_nat (Z.log2 n)) in *. set (f2 := Z.to_nat (Z.log2 (n / 256))) in *.
  rewrite (bytes_go_fuel f1 (S f2) n); [|lia|].
  - remember (S f2) as g. cbn [Server.bytes_go]. rewrite (proj2 (Z.ltb_ge n 256)) by lia. by rewrite bytes_go_acc.
  - rewrite Nat2Z.inj_succ, Z.pow_succ_r by lia. pose proof (Z.div_mod n 256 ltac:(lia)).
    pose proof (Z.mod_pos_bound n 256 ltac:(lia)). lia.
Qed.

(** *** The two encoders agree *)

Definition even_hex (n : Z) : string :=
  let h := Z_to_hex n in if (String.length h mod 2 =? 0)%nat then h else String "0" h.

Lemma even_hex_even n : (String.length (even_hex n) mod 2 = 0)%nat.
Proof.
  unfold even_hex. destruct (_ =? 0)%nat eqn:E; [by apply Nat.eqb_eq in E|]. apply Nat.eqb_neq in E.
  cbn [String.length]. revert E. generalize (String.length (Z_to_hex n)). clear n. intros k Hk.
  zify. Z.to_euclidean_division_equations. lia.
Qed.

Lemma even_hex_step n :
  256 <= n -> even_hex n = even_hex (n / 256) +:+ String (hex_digit (n / 16 mod 16)) (String (hex_digit (n mod 16)) "").
Proof.
  intros Hn. unfold even_hex. rewrite (Z_to_hex_step n), (Z_to_hex_step (n / 16)) by (try apply Z.div_le_lower_bound; lia).
  rewrite Z.div_div by lia. change (16 * 16) with 256. rewrite sapp_assoc, slength_app. cbn [String.length String.append].
  replace (String.length (Z_to_hex (n / 256)) + 2)%nat with (String.length (Z_to_hex (n / 256)) + 1 * 2)%nat by lia.
  rewrite (Nat.Div0.mod_add _ 1 2)%nat. by destruct (_ =? 0)%nat.
Qed.

Lemma bytes_of_hex_app a b :
  (String.length a mod 2 = 0)%nat -> bytes_of_hex (a +:+ b) = bytes_of_hex a +:+ bytes_of_hex b.
Proof.
  remember (String.length a) as k eqn:Hk. revert a Hk. induction k as [k IH] using lt_wf_ind.
  intros [|x [|y a]] -> Hm; [done | done |]. cbn [bytes_of_hex String.append]. f_equal.
  apply (IH (String.length a)); [simpl; lia | done |]. cbn [String.length] in Hm. revert Hm.
  generalize (String.length a). intros j Hj. zify. Z.to_euclidean_division_equations. lia.
Qed.

Lemma hex_digit_val x : 0 <= x < 16 -> hex_val (hex_digit x) = x.
Proof.
  intros Hx. assert (x ∈ map Z.of_nat (seq 0 16)) as Hin.
  { apply list_elem_of_fmap. exists (Z.to_nat x). split; [lia|]. apply elem_of_seq. lia. }
  revert Hin. clear Hx. enough (forallb (fun x => hex_val (hex_digit x) =? x) (map Z.of_nat (seq 0 16)) = true) as H.
  { rewrite List.forallb_forall in H. intros Hin%list_elem_of_In. apply H in Hin. lia. }
  reflexivity.
Qed.

Lemma small_bytes n : 0 <= n < 256 -> bytes_of_hex (even_hex n) = Server.trimmed n.
Proof.
  intros Hn. assert (n ∈ map Z.of_nat (seq 0 256)) as Hin.
  { apply list_elem_of_fmap. exists (Z.to_nat n). split; [lia|]. apply elem_of_seq. lia. }
  revert Hin. clear Hn.
  enough (forallb (fun n => bytes_of_hex (even_hex n) =s? Server.trimmed n) (map Z.of_nat (seq 0 256)) = true) as H.
  { rewrite List.forallb_forall in H. intros Hin%list_elem_of_In. apply H in Hin. by bool_to_prop. }
  vm_compute. reflexivity.
Qed.

Lemma bytes_trimmed n : 0 <= n -> bytes_of_hex (even_hex n) = Server.trimmed n.
Proof.
  intros Hn. enough (0 <= n -> bytes_of_hex (even_hex n) = Server.trimmed n) as H by by apply H.
  revert n Hn. apply (Z_lt_induction (fun n => 0 <= n -> bytes_of_hex (even_hex n) = Server.trimmed n)).
  intros n IH Hn. destruct (Z.lt_ge_cases n 256) as [Hs|Hs]; [by apply small_bytes|].
  assert (0 <= n / 256 < n) as Hq by (split; [apply Z.div_pos; lia | apply Z.div_lt; lia]).
  rewrite even_hex_step, trimmed_step, bytes_of_hex_app, IH by (lia || apply even_hex_even).
  cbn [bytes_of_hex]. rewrite !hex_digit_val by (apply Z.mod_pos_bound; lia). do 3 f_equal.
  pose proof (Z.div_mod n 16 ltac:(lia)). pose proof (Z.div_mod (n / 16) 16 ltac:(lia)).
  pose proof (Z.div_mod n 256 ltac:(lia)) as H3. pose proof (Z.div_div n 16 16 ltac:(lia) ltac:(lia)) as H4.
  change (16 * 16) with 256 in H4. lia.
Qed.

Lemma bigIntToBytes_trimmed n : 0 <= n -> bigIntToBytes n 0 = Server.trimmed n.
Proof. intros Hn. rewrite <- bytes_trimmed by done. done. Qed.

Lemma bigIntToBytes_padBig n size : 0 <= n -> size <> 0%nat -> bigIntToBytes n size = Server.padBig n size.
Proof.
  intros Hn Hs. unfold Server.padBig. rewrite <- bytes_trimmed by done. unfold bigIntToBytes. fold (even_hex n).
  destruct size; [done|]. cbn [Nat.eqb orb]. done.
Qed.

(** *** Round trip *)

Lemma setBytes_app acc a b : Server.setBytes_go acc (a +:+ b) = Server.setBytes_go (Server.setBytes_go acc a) b.
Proof. revert acc. induction a as [|c a IH]; simpl; intros acc; [done | apply IH]. Qed.

Lemma byte_char_of z : 0 <= z < 256 -> byte (char_of z) = z.
Proof.
  intros Hz. unfold byte, char_of. rewrite <- (Z2N.id z) at 2 by lia. f_equal. unfold code. apply N_ascii_embedding.
  lia.
Qed.

Lemma setBytes_trimmed n : 0 <= n -> Server.setBytes (Server.trimmed n) = n.
Proof.
  intros Hn. enough (0 <= n -> Server.setBytes (Server.trimmed n) = n) as H by by apply H.
  revert n Hn. apply (Z_lt_induction (fun n => 0 <= n -> Server.setBytes (Server.trimmed n) = n)).
  intros n IH Hn. unfold Server.setBytes in *. destruct (Z.lt_ge_cases n 256) as [Hs|Hs].
  - unfold Server.trimmed. cbn [Server.bytes_go]. rewrite (proj2 (Z.ltb_lt n 256)) by lia.
    cbn [Server.setBytes_go]. rewrite byte_char_of by (apply Z.mod_pos_bound; lia). rewrite Z.mod_small; lia.
  - assert (0 <= n / 256 < n) as Hq by (split; [apply Z.div_pos; lia | apply Z.div_lt; lia]).
    rewrite trimmed_step, setBytes_app, IH by lia. cbn [Server.setBytes_go].
    rewrite byte_char_of by (apply Z.mod_pos_bound; lia). pose proof (Z.div_mod n 256 ltac:(lia)). lia.
Qed.

Lemma setBytes_pad n s : Server.setBytes (repeat_char (char_of 0) n +:+ s) = Server.setBytes s.
Proof.
  unfold Server.setBytes. rewrite setBytes_app. f_equal. induction n as [|n IH]; [done|]. exact IH.
Qed.

Lemma bigint_roundtrip n size : 0 <= n -> bytesToBigInt (bigIntToBytes n size) = n.
Proof.
  intros Hn. rewrite bytesToBigInt_setBytes. destruct size as [|size].
  - rewrite bigIntToBytes_trimmed by done. by apply setBytes_trimmed.
  - rewrite bigIntToBytes_padBig by done. unfold Server.padBig.
    destruct (_ <=? _)%nat; rewrite ?setBytes_pad; by apply setBytes_trimmed.
Qed.

(** integers survive the wire: the bytes [bigIntToBytes] writes are the
    ones the server's [padBig] writes, unpadded and padded to the length of the
    group, both sides read any bytes as the same integer, and reading back what
    was written gives the integer. *)
Theorem bigint_bytes_agree n size bytes :
  0 <= n -> size <> 0%nat ->
  bigIntToBytes n 0 = Server.trimmed n /\ bigIntToBytes n size = Server.padBig n size /\
  bytesToBigInt bytes = Server.setBytes bytes /\
  bytesToBigInt (bigIntToBytes n size) = n /\ Server.setBytes (bigIntToBytes n size) = n.
Proof.
  intros Hn Hs. split_and!; [by apply bigIntToBytes_trimmed | by apply bigIntToBytes_padBig
    | apply bytesToBigInt_setBytes | by apply bigint_roundtrip |].
  rewrite <- bytesToBigInt_setBytes. by apply bigint_roundtrip.
Qed.

Lemma bigint_bytes_agree_witness : bytesToBigInt (bigIntToBytes 66051 256) = 66051.
Proof. apply (bigint_bytes_agree 66051 256 ""); [lia | lia]. Defined.

(** ** Agreement with the server *)

Lemma N_gt_1 : 1 < N.
Proof. vm_compute. reflexivity. Qed.
#[global] Arguments N : simpl never.
#[global] Opaque N.

Lemma PAD_LEN_pos : PAD_LEN <> 0%nat.
Proof. vm_compute. discriminate. Qed.

Lemma multiplier_agrees digest : multiplier digest = Server.multiplier digest.
Proof.
  unfold multiplier, Server.multiplier. pose proof N_gt_1.
  rewrite bytesToBigInt_setBytes, !bigIntToBytes_padBig by (apply PAD_LEN_pos || lia || (unfold G; lia)). done.
Qed.
Lemma computeX_agrees digest user pass salt : computeX digest user pass salt = Server.computeX digest user pass salt.
Proof. unfold computeX, Server.computeX. by rewrite bytesToBigInt_setBytes. Qed.

(** The shared secret: both formulas give [g ^ (b * (a + u * x))]. *)
Lemma shared_secret g n a b u x k :
  1 < n -> 0 <= a -> 0 <= b -> 0 <= u -> 0 <= x ->
  (((k * (g ^ x mod n) + g ^ b mod n) mod n - k * (g ^ x mod n)) mod n) ^ (a + u * x) mod n =
  ((g ^ a mod n) * ((g ^ x mod n) ^ u mod n)) ^ b mod n mod n.
Proof.
  intros Hn Ha Hb Hu Hx. assert (0 <= u * x) as Hux by (apply Z.mul_nonneg_nonneg; lia).
  assert (0 < n) as Hn0 by lia. assert (0 <= a + u * x) as Hs by (by apply Z.add_nonneg_nonneg).
  assert (0 <= x * u) as Hxu by (by apply Z.mul_nonneg_nonneg).
  set (v := g ^ x mod n). rewrite Zminus_mod_idemp_l.
  replace (k * v + g ^ b mod n - k * v) with (g ^ b mod n) by ring. rewrite !Zmod_mod, <- Zpower_mod by done.
  assert ((g ^ a mod n * (v ^ u mod n)) mod n = g ^ (a + u * x) mod n) as HX.
  { unfold v. rewrite <- (Zpower_mod (g ^ x) u n) by done. rewrite <- Zmult_mod.
    rewrite <- (Z.pow_mul_r g x u), <- Z.pow_add_r by done. by rewrite (Z.mul_comm x u). }
  rewrite (Zpower_mod (g ^ a mod n * (v ^ u mod n)) b n), HX, <- Zpower_mod by done.
  revert Hs. generalize (a + u * x). intros e He.
  rewrite <- (Z.pow_mul_r g b e), <- (Z.pow_mul_r g e b) by done. by rewrite Z.mul_comm.
Qed.

(** [%] and the correction of its sign. *)
Lemma rem_fix z n : 0 < n -> (if Z.rem z n <? 0 then Z.rem z n + n else Z.rem z n) = z mod n.
Proof.
  intros Hn. pose proof (Z.quot_rem' z n) as Hq. pose proof (Z.rem_bound_abs z n ltac:(lia)) as Hr.
  destruct (_ <? 0) eqn:E; bool_to_prop;
    [apply (Z.mod_unique _ _ (Z.quot z n - 1)) | apply (Z.mod_unique _ _ (Z.quot z n))]; lia.
Qed.

(** C2: with the right password the two halves agree: from the verifier
    [createRegistration] made and the public value [begin] sends, a server session
    that starts has exactly the proofs the browser computes: the client proof it
    expects and the server proof the browser will check. *)
Theorem srp_proofs_agree digest user pass salt random b verifier public ss :
  0 <= b ->
  b64ToBytes (srp_verifier_b64 (createRegistration digest salt user pass)) = Ok verifier ->
  b64ToBytes (client_public_b64 (begin random user pass)) = Ok public ->
  Server.newSession digest user salt verifier public b = Some ss ->
  let p := clientProof digest (begin random user pass) salt (Server.padBig (Server.ss_B ss) PAD_LEN) in
  pr_client p = Server.ss_M1 ss /\ pr_server p = Server.ss_M2 ss.
Proof.
  intros Hb Hv Hp Hs. pose proof N_gt_1 as HN. pose proof PAD_LEN_pos as HP. assert (0 < N) as HN0 by lia.
  unfold b64ToBytes, createRegistration, begin, bytesToB64 in Hv, Hp. cbn [srp_verifier_b64 client_public_b64] in Hv, Hp.
  rewrite atob_btoa in Hv, Hp. injection Hv as <-. injection Hp as <-.
  set (a := bytesToBigInt random) in *. set (x := computeX digest user pass salt) in *.
  assert (0 <= a) as Ha by apply bytesToBigInt_nonneg. assert (0 <= x) as Hx by apply bytesToBigInt_nonneg.
  rewrite (modPow_spec G x), (modPow_spec G a) in Hs by assumption.
  pose proof (Z.mod_pos_bound (G ^ x) N HN0) as Hvb. pose proof (Z.mod_pos_bound (G ^ a) N HN0) as HAb.
  unfold Server.newSession in Hs. rewrite <- !bytesToBigInt_setBytes, !bigint_roundtrip in Hs by (apply Hvb || apply HAb).
  destruct (_ || _); [discriminate Hs|]. destruct (Server.scramble _ _ _ =? 0); [discriminate Hs|]. injection Hs as <-.
  cbn [Server.ss_B Server.ss_M1 Server.ss_M2].
  set (B := (Server.multiplier digest * (G ^ x mod N) + G ^ b mod N) mod N).
  assert (0 <= B) as HB by (by apply Z.mod_pos_bound).
  unfold clientProof, begin. cbn [cs_A cs_a username password]. fold a x.
  rewrite <- (bigIntToBytes_padBig B PAD_LEN), bigint_roundtrip by assumption.
  rewrite multiplier_agrees, (modPow_spec G x), (modPow_spec G a) by assumption.
  assert (bytesToBigInt (sha256 digest [bigIntToBytes (G ^ a mod N) PAD_LEN; bigIntToBytes B PAD_LEN]) =
          Server.scramble digest (G ^ a mod N) B) as Hu.
  { unfold Server.scramble. rewrite bytesToBigInt_setBytes, !bigIntToBytes_padBig by (assumption || apply Hvb || apply HAb). reflexivity. }
  rewrite Hu. set (u := Server.scramble _ _ _).
  assert (0 <= u) as Hu0 by (unfold u; rewrite <- Hu; apply bytesToBigInt_nonneg).
  set (k := Server.multiplier digest) in *.
  rewrite rem_fix by assumption.
  rewrite modPow_spec; [|assumption|apply Z.add_nonneg_nonneg; [assumption|by apply Z.mul_nonneg_nonneg]].
  pose proof (shared_secret G N a b u x k HN Ha Hb Hu0 Hx) as HSS. fold B in HSS. rewrite HSS.
  set (S := ((G ^ a mod N) * ((G ^ x mod N) ^ u mod N)) ^ b mod N mod N).
  assert (0 <= S) as HS by (by apply Z.mod_pos_bound).
  unfold Server.clientProofBytes, Server.serverProofBytes.
  pose proof (Z.lt_le_incl _ _ HN0) as HN1. assert (0 <= G) as HG by discriminate. pose proof (proj1 HAb) as HA0.
  rewrite <- bigIntToBytes_trimmed, <- !bigIntToBytes_padBig by assumption.
  unfold sha256, concatBytes. cbn [join String.concat String.append]. split; reflexivity.
Qed.

(** What the server stores for a password is the verifier of the specification. *)
Lemma registration_verifier digest salt user pass :
  exists bytes, b64ToBytes (srp_verifier_b64 (createRegistration digest salt user pass)) = Ok bytes /\
    Server.setBytes bytes = Server.verifier digest user pass salt.
Proof.
  unfold b64ToBytes, createRegistration, bytesToB64. cbn [srp_verifier_b64]. rewrite atob_btoa. eexists. split; [reflexivity|].
  pose proof N_gt_1 as HN. assert (0 < N) as HN0 by lia.
  assert (0 <= computeX digest user pass salt) as Hx by apply bytesToBigInt_nonneg.
  rewrite modPow_spec by assumption.
  rewrite <- bytesToBigInt_setBytes, bigint_roundtrip by (apply Z.mod_pos_bound; lia). unfold Server.verifier. by rewrite computeX_agrees.
Qed.

Definition toy_digest (s : string) : string := String (char_of (Z.of_nat (String.length s) mod 7 + 1)) "".


Lemma srp_proofs_agree_witness :
  exists ss, Server.newSession toy_digest "u" "salt-salt-salt-s"
    (bigIntToBytes (modPow G (computeX toy_digest "u" "pw" "salt-salt-salt-s") N) PAD_LEN)
    (bigIntToBytes (modPow G (bytesToBigInt "r") N) PAD_LEN) 3 = Some ss /\
    pr_client (clientProof toy_digest (begin "r" "u" "pw") "salt-salt-salt-s" (Server.padBig (Server.ss_B ss) PAD_LEN)) = Server.ss_M1 ss.
Proof.
  eexists. split; [vm_compute; reflexivity|].
  refine (proj1 (srp_proofs_agree toy_digest "u" "pw" "salt-salt-salt-s" "r" 3 _ _ _ _ (atob_btoa _) (atob_btoa _) _)).
  - discriminate.
  - vm_compute. reflexivity.
Defined.

(** ** What the exchange checks *)

(** the exchange returns the server's last reply exactly when both
    requests succeeded, the challenge decodes, and the server's proof, if it sent
    one, is the expected one.  A reply without a proof is accepted: the browser
    does not insist on the server knowing the verifier. *)
Theorem exchange_accepts_iff digest post_begin post_finish random user pass extraFinish extraBegin f :
  let state := begin random user pass in
  let b := post_begin (assign_over extraBegin
             [("username", JStr user); ("client_public_b64", JStr (client_public_b64 state)); ("company", JStr "")]) in
  exchange digest post_begin post_finish random user pass extraFinish extraBegin = Ok f <->
  exists salt pub, br_ok b = true /\ b64ToBytes (br_salt_b64 b) = Ok salt /\
    b64ToBytes (br_server_public_b64 b) = Ok pub /\
    let proof := clientProof digest state salt pub in
    f = post_finish (assign_over extraFinish
          [("session_id", JStr (br_session_id b)); ("client_proof_b64", JStr (bytesToB64 (pr_client proof))); ("company", JStr "")]) /\
    fr_ok f = true /\
    (fr_server_proof_b64 f = "" \/ fr_server_proof_b64 f = bytesToB64 (pr_server proof) \/ bytesToB64 (pr_server proof) = "").
Proof.
  cbv zeta. unfold exchange. set (b := post_begin _). destruct (br_ok b); cbn [negb].
  2: { split; [discriminate|]. intros (? & ? & ? & _). discriminate. }
  destruct (b64ToBytes (br_salt_b64 b)) as [salt|e]; cbn [res_bind].
  2: { split; [discriminate|]. intros (? & ? & _ & ? & _). discriminate. }
  destruct (b64ToBytes (br_server_public_b64 b)) as [pub|e]; cbn [res_bind].
  2: { split; [discriminate|]. intros (? & ? & _ & _ & ? & _). discriminate. }
  set (proof := clientProof _ _ _ _). set (g := post_finish _).
  destruct (fr_ok g) eqn:Eg; cbn [negb].
  2: { split; [discriminate|]. intros (? & ? & _ & [= <-] & [= <-] & Hf & Hok & _). fold proof in Hf. fold g in Hf.
       subst f. congruence. }
  assert ((exists salt0 pub0, true = true /\ Ok salt = Ok salt0 /\ Ok pub = Ok pub0 /\
             (let proof0 := clientProof digest (begin random user pass) salt0 pub0 in
              f = post_finish (assign_over extraFinish
                    [("session_id", JStr (br_session_id b)); ("client_proof_b64", JStr (bytesToB64 (pr_client proof0))); ("company", JStr "")]) /\
              fr_ok f = true /\
              (fr_server_proof_b64 f = "" \/ fr_server_proof_b64 f = bytesToB64 (pr_server proof0) \/ bytesToB64 (pr_server proof0) = ""))) <->
          f = g /\ (fr_server_proof_b64 g = "" \/ fr_server_proof_b64 g = bytesToB64 (pr_server proof) \/ bytesToB64 (pr_server proof) = "")) as Hiff.
  { split.
    - intros (? & ? & _ & [= <-] & [= <-] & Hf & _ & Hp). fold proof in Hf, Hp. fold g in Hf. subst f. by split.
    - intros [-> Hp]. exists salt, pub. do 3 (split; [reflexivity|]). cbv zeta. fold proof g. by split. }
  rewrite Hiff. clear Hiff. generalize (bytesToB64 (pr_server proof)). intros m.
  destruct (m =s? "") eqn:E1, (fr_server_proof_b64 g =s? "") eqn:E2, (m =s? fr_server_proof_b64 g) eqn:E3; cbn [negb andb];
    bool_to_prop; (split; [intros Hg | intros [-> Hp]]); try discriminate Hg; try reflexivity;
    try (injection Hg as <-; split; [reflexivity | auto]); try (destruct Hp as [?|[?|?]]; congruence).
Qed.

(** A server that proves nothing is accepted. *)
Lemma exchange_accepts_iff_witness :
  exists f, exchange toy_digest (fun _ => BeginReply true "" (btoa "s") (btoa "p") "sid") (fun _ => FinishReply true "" "" [])
    "r" "u" "pw" [] [] = Ok f.
Proof.
  eexists. apply (exchange_accepts_iff toy_digest (fun _ => BeginReply true "" (btoa "s") (btoa "p") "sid")
    (fun _ => FinishReply true "" "" []) "r" "u" "pw" [] []).
  exists "s", "p". split; [reflexivity|]. split; [apply atob_btoa|]. split; [apply atob_btoa|].
  split; [reflexivity|]. split; [reflexivity | left; reflexivity].
Defined.
