(* ===== verification/Split.v ===== *)
(** * Where separators occur

    Lemmas on [split], [index_of] and [join] for texts whose pieces are known
    not to contain the separator: what the parsers are given by the printers. *)
From Stdlib Require Import ZArith NArith Lia Ascii.
From S2P Require Import Prelude JsString.

Definition cr : ascii := ascii_of_N 13.
Definition lf : ascii := ascii_of_N 10.
Definition tab : ascii := ascii_of_N 9.
Definition crlf : string := String cr (String lf "").
Definition lfs : string := String lf "".
Definition blank_line : string := String lf (String lf "").
Definition crlf2 : string := crlf +:+ crlf.

(** No occurrence of [sep] begins inside [a] when [z] follows. *)
Fixpoint clear (sep a z : string) : bool :=
  match a with
  | EmptyString => true
  | String _ a' => negb (String.prefix sep (a +:+ z)) && clear sep a' z
  end.

Lemma split_go_skip sep a s : split_go sep (String.length a) (a +:+ s) = split_go sep 0 s.
Proof. induction a as [|c a IH]; [done|]. cbn [String.length String.append]. exact IH. Qed.

Lemma split_go_cons sep c s :
  split_go sep 0 (String c s) =
    if String.prefix sep (String c s) then "" :: split_go sep (String.length sep - 1) s
    else match split_go sep 0 s with p :: ps => String c p :: ps | [] => [String c ""] end.
Proof. done. Qed.

Lemma prefix_app n r : String.prefix n (n +:+ r) = true.
Proof. apply prefix_spec. by exists r. Qed.

Lemma split_here sep r : sep <> "" -> split (sep +:+ r) sep = "" :: split r sep.
Proof.
  destruct sep as [|c sep]; [done|]. intros _. unfold split. cbn [String.append]. rewrite split_go_cons.
  change (String c (sep +:+ r)) with (String c sep +:+ r) at 1. rewrite prefix_app.
  cbn [String.length]. by rewrite Nat.sub_succ, Nat.sub_0_r, split_go_skip.
Qed.

Lemma split_clear sep a r : sep <> "" -> clear sep a (sep +:+ r) = true -> split (a +:+ sep +:+ r) sep = a :: split r sep.
Proof.
  intros Hs. induction a as [|c a IH]; [intros _; exact (split_here sep r Hs)|]. cbn [clear].
  rewrite andb_true_iff, negb_true_iff. intros [Hp Ha]. unfold split. cbn [String.append] in *.
  rewrite split_go_cons, Hp. specialize (IH Ha). unfold split in IH. by rewrite IH.
Qed.

Lemma split_clear_end sep a : clear sep a "" = true -> split a sep = [a].
Proof.
  induction a as [|c a IH]; [done|]. cbn [clear]. rewrite sapp_nil_r, andb_true_iff, negb_true_iff. intros [Hp Ha].
  unfold split. rewrite split_go_cons, Hp. specialize (IH Ha). unfold split in IH. by rewrite IH.
Qed.

Lemma index_of_cons n c s :
  index_of (String c s) n = if String.prefix n (String c s) then Some 0 else S <$> index_of s n.
Proof. cbn [index_of]. destruct (String.prefix n (String c s)); [done|]. by destruct (index_of s n). Qed.

Lemma index_clear sep a r : sep <> "" -> clear sep a (sep +:+ r) = true -> index_of (a +:+ sep +:+ r) sep = Some (String.length a).
Proof.
  intros Hs. induction a as [|c a IH]; cbn [clear].
  - intros _. destruct sep as [|c sep]; [done|]. cbn [String.append]. rewrite index_of_cons.
    change (String c (sep +:+ r)) with (String c sep +:+ r). by rewrite prefix_app.
  - rewrite andb_true_iff, negb_true_iff. intros [Hp Ha]. cbn [String.append] in *. rewrite index_of_cons, Hp.
    by rewrite IH.
Qed.

(** A character the separator does not have ends every occurrence. *)
Lemma prefix_stop sep a c z : no_char c sep = true -> String.prefix sep (a +:+ String c z) = String.prefix sep a.
Proof.
  revert a. unfold no_char. induction sep as [|d sep IH]; intros a; [by destruct a|]. cbn [all_chars].
  rewrite andb_true_iff, negb_true_iff. intros [Hd Hs]. destruct a as [|e a]; cbn [String.append].
  - rewrite prefix_cons. destruct (ascii_dec d c) as [->|]; [by rewrite Ascii.eqb_refl in Hd|done].
  - rewrite !prefix_cons. by destruct (ascii_dec d e); [apply IH|].
Qed.

Lemma includes_cons_false c a sep : includes (String c a) sep = false -> String.prefix sep (String c a) = false /\ includes a sep = false.
Proof.
  unfold includes. rewrite index_of_cons. destruct (String.prefix sep (String c a)); [done|].
  by destruct (index_of a sep).
Qed.

Lemma clear_stop sep a c z :
  no_char c sep = true -> includes a sep = false -> clear sep a (String c z) = true.
Proof.
  intros Hc. induction a as [|d a IH]; [done|]. cbn [clear]. intros [Hp Ha]%includes_cons_false.
  by rewrite prefix_stop, Hp, (IH Ha).
Qed.

Lemma clear_app sep a b z : clear sep (a +:+ b) z = clear sep a (b +:+ z) && clear sep b z.
Proof.
  induction a as [|c a IH]; [done|]. cbn [clear String.append]. rewrite IH, sapp_assoc. by rewrite andb_assoc.
Qed.

Lemma clear_char sep c z : no_char c sep = true -> sep <> "" -> clear sep (String c "") z = true.
Proof.
  intros Hc Hs. cbn [clear]. pose proof (prefix_stop sep "" c z Hc) as H. cbn [String.append] in *. rewrite H.
  by destruct sep.
Qed.

(** A text that holds no [sep], then a character [sep] lacks. *)
Lemma clear_piece sep a c z :
  sep <> "" -> no_char c sep = true -> includes a sep = false -> clear sep (a +:+ String c "") z = true.
Proof.
  intros Hs Hc Ha. rewrite clear_app, clear_char by done. rewrite andb_true_r. by apply clear_stop.
Qed.

Lemma clear_none sep a : sep <> "" -> includes a sep = false -> clear sep a "" = true.
Proof.
  intros Hs. induction a as [|c a IH]; [done|]. cbn [clear]. rewrite sapp_nil_r. intros [Hp Ha]%includes_cons_false.
  by rewrite Hp, IH.
Qed.

Lemma includes_refuted a sep x y : includes a sep = false -> a <> x +:+ sep +:+ y.
Proof. intros H ->. assert (includes (x +:+ sep +:+ y) sep = true) by (apply includes_spec; eauto). congruence. Qed.

Lemma includes_app_false a b sep : includes (a +:+ b) sep = false -> includes a sep = false /\ includes b sep = false.
Proof.
  intros H. split; apply not_true_iff_false; intros (x & y & ->)%includes_spec; revert H;
    apply not_false_iff_true; apply includes_spec.
  - exists x, (y +:+ b). by rewrite !sapp_assoc.
  - exists (a +:+ x), y. by rewrite !sapp_assoc.
Qed.

(** ** Lines *)

Lemma no_char_prefix c s z : no_char c s = true -> clear (String c "") s z = true.
Proof.
  unfold no_char. induction s as [|d s IH]; [done|]. cbn [all_chars clear]. rewrite andb_true_iff, negb_true_iff.
  intros [Hd Hs]. rewrite (IH Hs), andb_true_r, negb_true_iff. cbn [String.append]. rewrite prefix_cons.
  destruct (ascii_dec c d) as [->|]; [by rewrite Ascii.eqb_refl in Hd|done].
Qed.

Lemma split_lines c lines :
  lines <> [] -> Forall (fun l => no_char c l = true) lines -> split (join (String c "") lines) (String c "") = lines.
Proof.
  induction lines as [|l lines IH]; [done|]. intros _ [Hl Hls]%Forall_cons. destruct lines as [|l' lines].
  - cbn. apply split_clear_end. by apply no_char_prefix.
  - rewrite join_cons by done. rewrite split_clear; [by rewrite IH|done|]. by apply no_char_prefix.
Qed.

(** Non-empty lines: no blank line before the one that follows them. *)
Definition plain_line (l : string) : bool := negb (l =s? "") && no_char lf l.

Lemma clear_blank_line l z :
  no_char lf l = true -> match z with String c _ => c <> lf | "" => True end ->
  clear (blank_line) (l +:+ String lf "") z = true.
Proof.
  intros Hl Hz. rewrite clear_app. apply andb_true_iff. split.
  - revert Hl. unfold no_char. induction l as [|d l IH]; [done|]. cbn [all_chars clear].
    rewrite andb_true_iff, negb_true_iff. intros [Hd Hs]. rewrite (IH Hs), andb_true_r, negb_true_iff.
    cbn [String.append]. unfold blank_line. rewrite prefix_cons. destruct (ascii_dec lf d) as [He|]; [by rewrite <- He, Ascii.eqb_refl in Hd|done].
  - unfold lfs, blank_line. cbn [clear String.append]. rewrite andb_true_r, negb_true_iff, prefix_cons.
    destruct (ascii_dec lf lf); [|done]. destruct z as [|c z]; [done|]. rewrite prefix_cons.
    by destruct (ascii_dec lf c).
Qed.

Lemma clear_no_nl l z : no_char lf l = true -> clear (blank_line) l z = true.
Proof.
  unfold no_char. induction l as [|d l IH]; [done|]. cbn [all_chars clear].
  rewrite andb_true_iff, negb_true_iff. intros [Hd Hs]. rewrite (IH Hs), andb_true_r, negb_true_iff.
  cbn [String.append]. unfold blank_line. rewrite prefix_cons. destruct (ascii_dec lf d) as [He|]; [by rewrite <- He, Ascii.eqb_refl in Hd|done].
Qed.

Lemma plain_line_head l z : plain_line l = true -> match l +:+ z with String c _ => c <> lf | "" => True end.
Proof.
  unfold plain_line. destruct l as [|c l]; [done|]. unfold no_char. cbn [all_chars String.append]. intros [_ H]%andb_true_iff He.
  apply andb_true_iff in H as [H _]. by rewrite He, Ascii.eqb_refl in H.
Qed.

(** The blank line after a block of plain lines is found at the end of the block. *)
Lemma block_clear lines z :
  Forall (fun l => plain_line l = true) lines -> clear (blank_line) (join lfs lines) z = true.
Proof.
  induction lines as [|l lines IH]; [done|]. intros [Hl Hls]%Forall_cons.
  assert (no_char lf l = true) as Hn by (unfold plain_line in Hl; by apply andb_true_iff in Hl as [_ ?]).
  destruct lines as [|l' lines]; [by apply clear_no_nl|].
  rewrite join_cons by done. rewrite <- sapp_assoc, clear_app. rewrite (IH Hls), andb_true_r.
  apply clear_blank_line; [done|]. apply Forall_cons in Hls as [Hl' _].
  destruct lines as [|l'' lines]; [by apply plain_line_head|]. rewrite join_cons by done. rewrite sapp_assoc. by apply plain_line_head.
Qed.

Lemma find_blank_line lines rest :
  Forall (fun l => plain_line l = true) lines ->
  index_of (join lfs lines +:+ String lf (String lf rest)) (blank_line) =
  Some (String.length (join lfs lines)).
Proof.
  intros H. change (String lf (String lf rest)) with (blank_line +:+ rest).
  apply index_clear; [done|]. by apply block_clear.
Qed.

Lemma join_nonempty c lines : lines <> [] -> Forall (fun l => plain_line l = true) lines -> join (String c "") lines <> "".
Proof.
  destruct lines as [|l lines]; [done|]. intros _ [Hl _]%Forall_cons. unfold plain_line in Hl.
  destruct l as [|d l]; [done|]. by destruct lines.
Qed.
