(* ===== verification/Patterns.v ===== *)
(** * Regular expressions of the scripts

    One definition per regular expression (or family of them), computing the
    match the backtracking matcher finds: leftmost start, then greedy. Where
    greedy matching can fail and a shorter repetition could succeed, the
    definition says which repetition is taken. *)
From Stdlib Require Import ZArith NArith Lia Ascii.
From S2P Require Import Prelude JsString Split.

(** ** Case-insensitive tests *)

(** [/needle/i.test(s)] for a needle of ASCII lower-case text. *)
Definition ci_includes (s needle : string) : bool := includes (to_lower s) needle.
(** [/^needle/i.test(s)] *)
Definition ci_starts_with (s needle : string) : bool := starts_with (to_lower s) needle.

(** ** A key, an optional quote and a run of characters *)

Definition dquote_char : ascii := ascii_of_N 34.

(** An optional double quote. *)
Definition skip_quote (s : string) : string :=
  match s with String c r => if Ascii.eqb c dquote_char then r else s | EmptyString => s end.

(** The parameter after [key] (matched case-insensitively): the characters of
    the class [ok] after an optional quote. A place where none follows is not a
    match and the search goes on. *)
Fixpoint find_param (key : string) (ok : ascii -> bool) (s : string) : option string :=
  let here :=
    if ci_starts_with s key then
      let v := fst (span_chars ok (skip_quote (sdrop (String.length key) s))) in
      if v =s? "" then None else Some v
    else None in
  match here with
  | Some v => Some v
  | None => match s with String _ s => find_param key ok s | EmptyString => None end
  end.

Definition not_quote (c : ascii) : bool := negb (Ascii.eqb c dquote_char).
(** The classes without quote and semicolon, and without line feed or white space. *)
Definition boundary_char (c : ascii) : bool := not_quote c && negb (Ascii.eqb c ";") && negb (Ascii.eqb c lf).
Definition token_char (c : ascii) : bool := not_quote c && negb (Ascii.eqb c ";") && negb (is_ws c).

Definition re_filename : string -> option string := find_param "filename=" not_quote.
Definition re_name : string -> option string := find_param "name=" not_quote.
Definition re_boundary : string -> option string := find_param "boundary=" boundary_char.
Definition re_boundary_token : string -> option string := find_param "boundary=" token_char.

(** The parameter [protocol], with white space around the sign. *)
Fixpoint re_protocol (s : string) : option string :=
  let here :=
    if ci_starts_with s "protocol" then
      match trim_start (sdrop 8 s) with
      | String "=" r =>
          let v := fst (span_chars token_char (skip_quote (trim_start r))) in
          if v =s? "" then None else Some v
      | _ => None
      end
    else None in
  match here with
  | Some v => Some v
  | None => match s with String _ s => re_protocol s | EmptyString => None end
  end.

(** The two types of detached OpenPGP signatures. *)
Definition re_pgp_signature (s : string) : bool :=
  ci_includes s "application/pgp-signature" || ci_includes s "application/x-pgp-signature".

(** ** Blocks between a first and a last marker *)

(** The text after the first occurrence of one of two markers, which it begins
    with, up to the end of the first occurrence after it of one of two others:
    [/(?:A|B)[\s\S]*?(?:C|D)/]. No marker of a kind is a prefix of the other. *)
Definition marker_at (ms : list string) (s : string) : option string :=
  List.find (fun m => starts_with s m) ms.

Fixpoint upto_marker (ms : list string) (s : string) : option string :=
  match marker_at ms s with
  | Some m => Some m
  | None => match s with String c s => String c <$> upto_marker ms s | EmptyString => None end
  end.

Fixpoint find_block (from upto : list string) (s : string) : option string :=
  match marker_at from s with
  | Some m => (fun r => m +:+ r) <$> upto_marker upto (sdrop (String.length m) s)
  | None => match s with String _ s => find_block from upto s | EmptyString => None end
  end.

Definition BEGIN_MESSAGE : string := "-----BEGIN PGP MESSAGE-----".
Definition END_MESSAGE : string := "-----END PGP MESSAGE-----".
Definition BEGIN_SIGNED : string := "-----BEGIN PGP SIGNED MESSAGE-----".
Definition BEGIN_SIGNATURE : string := "-----BEGIN PGP SIGNATURE-----".
Definition END_SIGNATURE : string := "-----END PGP SIGNATURE-----".

(** The match, trimmed, or the empty string. *)
Definition block_text (from upto : list string) (text : string) : string :=
  match find_block from upto text with Some b => trim b | None => "" end.

(** ** Headers *)

Definition header_char (c : ascii) : bool := is_alnum c || Ascii.eqb c "-".

(** A header line: a name, a colon, white space, the rest. The dot stops at a carriage return, the lines
    hold no line feed. *)
Definition header_line (line : string) : option (string * string) :=
  let '(name, rest) := span_chars header_char line in
  match rest with
  | String ":" r =>
      let value := trim_start r in
      if (name =s? "") || some_char (Ascii.eqb cr) value then None else Some (name, value)
  | _ => None
  end.

Definition indented (line : string) : bool :=
  match line with String c _ => Ascii.eqb c " " || Ascii.eqb c tab | EmptyString => false end.

(** ** White space and line ends *)

(** [.replace(/[ \t]+\n/g, ...)]: runs of blanks before a line feed are dropped. *)
Fixpoint drop_trailing_blanks_go (pending : string) (s : string) : string :=
  match s with
  | EmptyString => pending
  | String c s =>
      if Ascii.eqb c " " || Ascii.eqb c tab then drop_trailing_blanks_go (pending +:+ String c "") s
      else if Ascii.eqb c lf then String lf (drop_trailing_blanks_go "" s)
      else pending +:+ String c (drop_trailing_blanks_go "" s)
  end.
Definition drop_trailing_blanks : string -> string := drop_trailing_blanks_go "".

(** [.replace(/\n{3,}/g, ...)]: a third line feed in a row goes. *)
Fixpoint squeeze_lines_go (run : nat) (s : string) : string :=
  match s with
  | EmptyString => ""
  | String c s =>
      if Ascii.eqb c lf then
        if (2 <=? run)%nat then squeeze_lines_go run s else String c (squeeze_lines_go (S run) s)
      else String c (squeeze_lines_go 0 s)
  end.
Definition squeeze_lines : string -> string := squeeze_lines_go 0.

(** [.replace(/\r\n/g, ...)] with a line feed. *)
Fixpoint crlf_to_lf (s : string) : string :=
  match s with
  | EmptyString => ""
  | String c s' =>
      match s' with
      | String d s'' => if Ascii.eqb c cr && Ascii.eqb d lf then String lf (crlf_to_lf s'') else String c (crlf_to_lf s')
      | EmptyString => s
      end
  end.

(** [/^\n+|\n+$/g] removed. *)
Fixpoint trim_lf_start (s : string) : string :=
  match s with String c r => if Ascii.eqb c lf then trim_lf_start r else s | EmptyString => s end.
Fixpoint trim_lf_end (s : string) : string :=
  match s with
  | EmptyString => ""
  | String c s =>
      match trim_lf_end s with
      | EmptyString => if Ascii.eqb c lf then "" else String c ""
      | r => String c r
      end
  end.

(** [.split(/\s+/).filter(Boolean)] after a trim: the words. *)
Fixpoint words_go (cur : string) (s : string) : list string :=
  match s with
  | EmptyString => if cur =s? "" then [] else [cur]
  | String c s =>
      if is_ws c then (if cur =s? "" then [] else [cur]) ++ words_go "" s else words_go (cur +:+ String c "") s
  end.
Definition words : string -> list string := words_go "".

(** ** Tags *)

(** [/<[^>]+>/g] replaced: an opening bracket, at least one other
    character and the next closing bracket. [tag_end] is what follows the tag. *)
Fixpoint after_gt (s : string) : option string :=
  match s with
  | EmptyString => None
  | String c s => if Ascii.eqb c ">" then Some s else after_gt s
  end.
Definition tag_end (s : string) : option string :=
  match s with
  | String c s => if Ascii.eqb c ">" then None else after_gt s
  | EmptyString => None
  end.
(** [skip]: inside a tag that is known to be closed. *)
Fixpoint replace_tags_go (skip : bool) (rep s : string) : string :=
  match s with
  | EmptyString => ""
  | String c s =>
      if skip then if Ascii.eqb c ">" then replace_tags_go false rep s else replace_tags_go true rep s
      else if Ascii.eqb c "<" && (if tag_end s is Some _ then true else false) then rep +:+ replace_tags_go true rep s
      else String c (replace_tags_go false rep s)
  end.
Definition replace_tags : string -> string := replace_tags_go false " ".

(** ** Mail addresses *)

(** [[^<>\s@]] *)
Definition addr_char (c : ascii) : bool :=
  negb (Ascii.eqb c "<") && negb (Ascii.eqb c ">") && negb (is_ws c) && negb (Ascii.eqb c "@").

(** [<\s*([^<>\s@]+)@([^<>\s@]+)\s*>] at the start of the text after [<]. *)
Definition bracket_here (s : string) : option (string * string) :=
  let '(l, r) := span_chars addr_char (trim_start s) in
  match r with
  | String "@" r =>
      let '(d, r) := span_chars addr_char r in
      if (l =s? "") || (d =s? "") then None
      else match trim_start r with String ">" _ => Some (l, d) | _ => None end
  | _ => None
  end.
Fixpoint re_bracket (s : string) : option (string * string) :=
  match s with
  | EmptyString => None
  | String c s =>
      match (if Ascii.eqb c "<" then bracket_here s else None) with
      | Some p => Some p
      | None => re_bracket s
      end
  end.

Definition domain_char (c : ascii) : bool := is_alnum c || Ascii.eqb c "." || Ascii.eqb c "-".

(** [[A-Z0-9.-]+\.[A-Z]{2,}] at the start: the run of domain characters is cut
    at the last dot that has one of them before it and two letters after it. *)
Fixpoint last_tld (first : bool) (s : string) : option string :=
  match s with
  | EmptyString => None
  | String c r =>
      match (if domain_char c then String c <$> last_tld false r else None) with
      | Some m => Some m
      | None =>
          if negb first && Ascii.eqb c "." then
            let letters := fst (span_chars is_alpha r) in
            if (2 <=? String.length letters)%nat then Some (String c letters) else None
          else None
      end
  end.

(** [([local]+@[A-Z0-9.-]+\.[A-Z]{2,})], leftmost. *)
Definition email_here (local : ascii -> bool) (s : string) : option string :=
  let '(l, r) := span_chars local s in
  match r with
  | String "@" r =>
      if l =s? "" then None else (fun d => l +:+ String "@" d) <$> last_tld true r
  | _ => None
  end.
Fixpoint re_email (local : ascii -> bool) (s : string) : option string :=
  match email_here local s with
  | Some m => Some m
  | None => match s with String _ s => re_email local s | EmptyString => None end
  end.

(** ** Lemmas on line ends *)

Lemma no_cr_crlf s : no_char cr s = true -> crlf_to_lf s = s.
Proof.
  unfold no_char. induction s as [|c s IH]; [done|]. cbn [all_chars crlf_to_lf].
  rewrite andb_true_iff, negb_true_iff. intros [Hc Hs].
  destruct s as [|d s]; [done|]. rewrite (Ascii.eqb_sym c cr), Hc. cbn [andb]. by rewrite IH.
Qed.
