(* ===== verification/HtmlText.v ===== *)
(** * html-plaintext.js

    The helpers that turn HTML into plain text, for display and for the search
    index, and the two small ones next to them. [DOMParser] and [URL] belong to
    the browser and are parameters. *)
From Stdlib Require Import ZArith NArith Lia Ascii.
From S2P Require Import Prelude JsString JsValue Split Base64 Patterns.

(** What the scripts ask of a parsed document: [body.textContent] and
    [body.innerHTML] once the script and style elements are removed, and
    [documentElement.textContent]. *)
Record dom := Dom {
  body_text : string -> string;
  body_inner : string -> string;
  document_text : string -> string;
}.

Section HtmlText.
(** [None]: [typeof DOMParser === "undefined"]. *)
Variable DOMParser : option dom.

Definition stripHtmlBlocks (html : string) : string :=
  match DOMParser with None => replace_tags html | Some d => body_inner d html end.

Definition decodeHtmlEntities (text : string) : string :=
  match DOMParser with Some d => document_text d text | None => text end.

Definition innerPlain (fragment : string) : string := trim (decodeHtmlEntities (replace_tags fragment)).

(** The tags that end a line: [br] and some closing tags, as whole words. *)
Definition break_names : list string :=
  ["br"; "/p"; "/div"; "/li"; "/tr"; "/h1"; "/h2"; "/h3"; "/h4"; "/h5"; "/h6"].
Definition is_word (c : ascii) : bool := is_alnum c || Ascii.eqb c "_".
Definition break_here (s : string) : bool :=
  existsb (fun n => starts_with (to_lower s) n &&
             match sdrop (String.length n) s with String c _ => negb (is_word c) | EmptyString => false end &&
             (if after_gt (sdrop (String.length n) s) is Some _ then true else false)) break_names.
Fixpoint replace_breaks_go (skip : bool) (s : string) : string :=
  match s with
  | EmptyString => ""
  | String c s =>
      if skip then if Ascii.eqb c ">" then replace_breaks_go false s else replace_breaks_go true s
      else if Ascii.eqb c "<" && break_here s then String lf (replace_breaks_go true s)
      else String c (replace_breaks_go false s)
  end.

(** The clean-up both display functions end with. *)
Definition tidy_lines (text : string) : string :=
  trim (squeeze_lines (drop_trailing_blanks (filter_chars (fun c => negb (Ascii.eqb c cr)) text))).

Definition htmlToDisplayText (html : string) : string :=
  tidy_lines (decodeHtmlEntities (replace_tags (replace_breaks_go false (stripHtmlBlocks html)))).

Definition htmlToPlainSearchText (html : string) : string :=
  trim (collapse_ws " " (decodeHtmlEntities (replace_tags (stripHtmlBlocks html)))).

(** The variant of [protected/open.js]. *)
Definition htmlToDisplayText_open (html : string) : string :=
  match DOMParser with
  | None => trim (collapse_ws " " (replace_tags html))
  | Some d => tidy_lines (body_text d html)
  end.
End HtmlText.

Definition alphanumerics : string := "abcdefghijklmnopqrstuvwxyz0123456789".

(** [bytes]: what [crypto.getRandomValues] wrote. *)
Definition randomAlphanumeric (bytes : string) : string :=
  map_chars (fun b => default "0"%char (String.get (Z.to_nat (byte b mod Z.of_nat (String.length alphanumerics))) alphanumerics))
    bytes.

Record url := Url { origin : string; pathname : string; href : string }.

(** [parse]: [new URL(raw, base)], [None] when it throws. *)
Definition validatedSameOriginScriptURL (parse : string -> string -> option url) (location raw baseHref : string) : res string :=
  let base := str_or baseHref location in
  match parse raw base, parse base "" with
  | Some u, Some b =>
      if negb (origin u =s? origin b) then Throw "script URL must be same-origin"
      else if negb (starts_with (pathname u) "/static/") then Throw "script URL path not allowed"
      else Ok (href u)
  | _, _ => Throw "Invalid URL"
  end.

(** ** Lemmas *)

Lemma randomAlphanumeric_length bytes : String.length (randomAlphanumeric bytes) = String.length bytes.
Proof. unfold randomAlphanumeric. generalize (fun b => default "0"%char (String.get (Z.to_nat (byte b mod Z.of_nat (String.length alphanumerics))) alphanumerics)) as f. intros f. induction bytes as [|c s IH]; cbn [map_chars String.length]; [done|]. by rewrite IH. Qed.

(** What is shown never has three line feeds in a row, nor a carriage return. *)
Lemma squeeze_no_triple run s n : (run <= 2)%nat -> (3 <= n + run)%nat ->
  ~ exists b, squeeze_lines_go run s = repeat_char lf n +:+ b /\ (n > 0)%nat.
Proof.
  revert run n. induction s as [|c s IH]; intros run n Hr Hn (b & E & Hp); cbn [squeeze_lines_go] in E.
  - destruct n; [lia|]. discriminate E.
  - destruct n as [|n]; [lia|]. destruct (Ascii.eqb c lf) eqn:Ec.
    + destruct (2 <=? run)%nat eqn:E2.
      * apply (IH run (S n) Hr Hn). exists b. split; [exact E|lia].
      * apply Nat.leb_gt in E2. injection E as _ E. destruct n as [|n]; [lia|].
        apply (IH (S run) (S n)); [lia|lia|]. exists b. split; [exact E|lia].
    + injection E as E _. subst c. by rewrite Ascii.eqb_refl in Ec.
Qed.
