(* ===== verification/RichText.v ===== *)
(** * The text of a message that was written with the editor ([static/mail/compose.jsx])

    [htmlToPlainText]: the HTML of the editor as the plain text that is sent, one global
    replacement after the other. Each regular expression is a function that gives, at a
    place where it matches, the length of the match and its replacement. The theorems are
    about lines of text ([typed]), as the document of the editor writes them. *)
From Stdlib Require Import ZArith Lia Ascii.
From stdpp Require Import strings list.
From S2P Require Import Prelude JsString JsValue Split Patterns HtmlText.
Local Open Scope nat_scope.

(** ** Matching *)

(** [s.replace(/.../g, f)]; [skip]: characters of the match still to be passed over. *)
Fixpoint replace_matches (here : string -> option (nat * string)) (skip : nat) (s : string) : string :=
  match s with
  | EmptyString => ""
  | String c s' =>
      match skip with
      | S k => replace_matches here k s'
      | O =>
          match here s with
          | Some (n, rep) => rep +:+ replace_matches here (Nat.pred n) s'
          | None => String c (replace_matches here 0 s')
          end
      end
  end.
(** [s.match(/.../g) || []], each match made into something. *)
Fixpoint all_matches {A} (here : string -> option (nat * A)) (skip : nat) (s : string) : list A :=
  match s with
  | EmptyString => []
  | String _ s' =>
      match skip with
      | S k => all_matches here k s'
      | O => match here s with Some (n, a) => a :: all_matches here (Nat.pred n) s' | None => all_matches here 0 s' end
      end
  end.

(** [<name[^>]*>], any case: what follows it. *)
Definition tag_open (names : list string) (s : string) : option string :=
  match List.find (ci_starts_with s) names with Some n => after_gt (sdrop (String.length n) s) | None => None end.
(** [([\s\S]*?)] up to the first of some closing tags: the content and what follows the tag. *)
Fixpoint upto_close (closes : list string) (s : string) : option (string * string) :=
  match List.find (ci_starts_with s) closes with
  | Some n => Some ("", sdrop (String.length n) s)
  | None => match s with String c s => (fun p => (String c p.1, p.2)) <$> upto_close closes s | EmptyString => None end
  end.
Definition element (opens closes : list string) (f : string -> string) (s : string) : option (nat * string) :=
  r ← tag_open opens s; p ← upto_close closes r; Some (String.length s - String.length p.2, f p.1).
Definition replace_element (opens closes : list string) (f : string -> string) (s : string) : string := replace_matches (element opens closes f) 0 s.
(** A closing tag on its own. *)
Definition literal (pat rep : string) (s : string) : option (nat * string) := if ci_starts_with s pat then Some (String.length pat, rep) else None.

(** [<pre[^>]*><code[^>]*>([\s\S]*?)</code></pre>] *)
Definition pre_block (f : string -> string) (s : string) : option (nat * string) :=
  r ← tag_open ["<pre"] s; r ← tag_open ["<code"] r; p ← upto_close ["</code></pre>"] r;
  Some (String.length s - String.length p.2, f p.1).

(** [<li[^>]*>([\s\S]*?)</li>], the whole match; [</?li[^>]*>] *)
Definition item (s : string) : option (nat * string) :=
  r ← tag_open ["<li"] s; p ← upto_close ["</li>"] r;
  let n := String.length s - String.length p.2 in Some (n, stake n s).
Definition li_tag (s : string) : option (nat * string) := r ← tag_open ["</li"; "<li"] s; Some (String.length s - String.length r, "").

(** [href=], white space, a quoted value, [[^>]*>], the content up to [</a>] at one place, and at the last place of the tag
    where it matches: the run before it is greedy. *)
Definition href_here (q : ascii) (s : string) : option (string * (string * string)) :=
  if ci_starts_with s "href=" then
    match trim_start (sdrop 5 s) with
    | String c r =>
        if Ascii.eqb c q then
          let '(v, r) := span_chars (fun d => negb (Ascii.eqb d q)) r in
          match r with String _ r => r ← after_gt r; p ← upto_close ["</a>"] r; Some (v, p) | EmptyString => None end
        else None
    | EmptyString => None
    end
  else None.
Fixpoint href_go (q : ascii) (s : string) : option (string * (string * string)) :=
  match (match s with String c r => if Ascii.eqb c ">" then None else href_go q r | EmptyString => None end) with
  | Some x => Some x
  | None => href_here q s
  end.
Definition anchor (q : ascii) (f : string -> string -> string) (s : string) : option (nat * string) :=
  if ci_starts_with s "<a" then
    match sdrop 2 s with
    | String c r => if Ascii.eqb c ">" then None else x ← href_go q r; Some (String.length s - String.length x.2.2, f x.1 x.2.1)
    | EmptyString => None
    end
  else None.

(** [<br\s*\/?>] *)
Definition br_tag (s : string) : option (nat * string) :=
  if ci_starts_with s "<br" then
    let r := trim_start (sdrop 3 s) in
    let r := match r with String "/" r' => r' | _ => r end in
    match r with String ">" r => Some (String.length s - String.length r, lfs) | _ => None end
  else None.

(** ** From HTML to text *)

Section Text.
Variable DOMParser : option dom.
Local Abbreviation inner := (innerPlain DOMParser).

Definition heading (mark content : string) : string := lfs +:+ mark +:+ " " +:+ inner content +:+ lfs.
Definition quote_block (content : string) : string := lfs +:+ join lfs (map (fun l => "> " +:+ trim l) (split (inner content) lfs)) +:+ lfs.
Definition fence : string := "```".
Definition code_block (content : string) : string := lfs +:+ fence +:+ lfs +:+ inner content +:+ lfs +:+ fence +:+ lfs.
Definition item_text (i : string) : string := inner (replace_matches li_tag 0 i).
Definition bullets (content : string) : string := lfs +:+ join lfs (map (fun i => "- " +:+ item_text i) (all_matches item 0 content)) +:+ lfs.
Definition numbered (content : string) : string :=
  lfs +:+ join lfs (imap (fun n i => Z_to_string (Z.of_nat n + 1) +:+ ". " +:+ item_text i) (all_matches item 0 content)) +:+ lfs.
Definition link_text (href content : string) : string :=
  let linkText := inner content in
  if (linkText =s? href) || (linkText =s? "") then href else linkText +:+ " (" +:+ href +:+ ")".
Definition between (mark content : string) : string := mark +:+ inner content +:+ mark.

(** The elements, in the order they are replaced. *)
Definition replace_blocks (t : string) : string :=
  let t := replace_element ["<h1"] ["</h1>"] (heading "#") t in
  let t := replace_element ["<h2"] ["</h2>"] (heading "##") t in
  let t := replace_element ["<h3"] ["</h3>"] (heading "###") t in
  let t := replace_element ["<blockquote"] ["</blockquote>"] quote_block t in
  let t := replace_matches (pre_block code_block) 0 t in
  let t := replace_element ["<code"] ["</code>"] (between "`") t in
  let t := replace_element ["<ul"] ["</ul>"] bullets t in
  replace_element ["<ol"] ["</ol>"] numbered t.
Definition replace_inline (t : string) : string :=
  let t := replace_matches (anchor dquote_char link_text) 0 t in
  let t := replace_matches (anchor "'" link_text) 0 t in
  let t := replace_element ["<b"; "<strong"] ["</b>"; "</strong>"] (between "**") t in
  let t := replace_element ["<i"; "<em"] ["</i>"; "</em>"] (between "_") t in
  let t := replace_element ["<u"] ["</u>"] inner t in
  replace_element ["<s"; "<strike"; "<del"] ["</s>"; "</strike>"; "</del>"] (between "~") t.
Definition replace_ends (t : string) : string :=
  let t := replace_matches br_tag 0 t in
  let t := replace_matches (literal "</p>" blank_line) 0 t in
  replace_matches (literal "</div>" lfs) 0 t.
Definition htmlToPlainText (html : string) : string :=
  if html =s? "" then ""
  else trim (squeeze_lines (inner (replace_ends (replace_inline (replace_blocks (stripHtmlBlocks DOMParser html)))))).
End Text.

(** ** Text without closing tags *)

Definition slash_next (s : string) : bool := match s with String c _ => Ascii.eqb c "/" | EmptyString => false end.
(** The only closing tag is [k], at the end. *)
Fixpoint closed_by (k s : string) : bool :=
  match s with
  | EmptyString => true
  | String c r => if Ascii.eqb c "<" && slash_next r then s =s? k else closed_by k r
  end.
Definition is_close (k c : string) : bool := starts_with c "</" && negb (ci_starts_with k c).

Lemma lower_char_symbol c d : lower_char c = d -> (d = "<" \/ d = "/")%char -> c = d.
Proof. intros <-. destruct c as [ [] [] [] [] [] [] [] [] ]; vm_compute; intuition congruence. Qed.
Lemma ci_close s c : starts_with c "</" = true -> ci_starts_with s c = true -> exists r, s = String "<" (String "/" r).
Proof.
  intros [x ->]%starts_with_spec [y Hs]%starts_with_spec. destruct s as [|c1 [|c2 r] ]; [done | done |].
  cbn [to_lower] in Hs. injection Hs as H1 H2 _. apply lower_char_symbol in H1 as ->; [|by left]. apply lower_char_symbol in H2 as ->; [|by right]. by exists r.
Qed.
Lemma closed_by_text k s : no_char "<" s = true -> closed_by k s = true.
Proof.
  unfold no_char. induction s as [|c s IH]; [done|]. cbn [all_chars closed_by]. intros [H1%negb_true_iff H2]%andb_true_iff. rewrite Ascii.eqb_sym, H1. by apply IH.
Qed.
Lemma closed_by_tail k c s : closed_by k (String c s) = true -> no_char "<" (sdrop 1 k) = true -> closed_by k s = true.
Proof.
  cbn [closed_by]. destruct (Ascii.eqb c "<" && slash_next s); [|done]. intros <-%String.eqb_eq Hk. by apply closed_by_text.
Qed.

Section Closed.
Variable k : string.
Hypothesis Hk : no_char "<" (sdrop 1 k) = true.

Lemma closed_by_suffix a s : closed_by k (a +:+ s) = true -> closed_by k s = true.
Proof. induction a as [|c a IH]; [done|]. cbn [String.append]. intros H%closed_by_tail; [by apply IH | done]. Qed.
Lemma upto_close_none closes s : closed_by k s = true -> forallb (is_close k) closes = true -> upto_close closes s = None.
Proof.
  intros Hs Hc. assert (forall s, closed_by k s = true -> List.find (ci_starts_with s) closes = None) as Hf.
  { clear s Hs. intros s Hs. destruct (List.find _ closes) as [n|] eqn:E; [|done]. apply List.find_some in E as [Hin Hn].
    apply forallb_forall with (x := n) in Hc; [|done]. apply andb_true_iff in Hc as [H1 H2%negb_true_iff]. destruct (ci_close s n H1 Hn) as [r ->].
    cbn in Hs. apply String.eqb_eq in Hs. congruence. }
  induction s as [|c s IH]; cbn [upto_close]; rewrite Hf by done; [done|]. rewrite IH; [done|]. by apply closed_by_tail in Hs.
Qed.
Lemma after_gt_suffix s r : after_gt s = Some r -> exists a, s = a +:+ r.
Proof.
  induction s as [|c s IH]; [done|]. cbn [after_gt]. destruct (Ascii.eqb c ">"); [intros [= <-]; by exists (String c "")|].
  intros [a ->]%IH. by exists (String c a).
Qed.
Lemma tag_open_suffix names s r : tag_open names s = Some r -> exists a, s = a +:+ r.
Proof.
  unfold tag_open. destruct (List.find _ names) as [n|]; [|done]. intros [a Ha]%after_gt_suffix. exists (stake (String.length n) s +:+ a).
  by rewrite sapp_assoc, <- Ha, stake_sdrop.
Qed.
Lemma element_none opens closes f s : closed_by k s = true -> forallb (is_close k) closes = true -> element opens closes f s = None.
Proof.
  intros Hs Hc. unfold element. destruct (tag_open opens s) as [r|] eqn:E; [|done]. cbn. apply tag_open_suffix in E as [a ->].
  rewrite upto_close_none; [done | by apply closed_by_suffix in Hs | done].
Qed.
Lemma pre_block_none f s : closed_by k s = true -> is_close k "</code></pre>" = true -> pre_block f s = None.
Proof.
  intros Hs Hc. unfold pre_block. destruct (tag_open ["<pre"] s) as [r|] eqn:E; [|done]. apply tag_open_suffix in E as [a ->]. cbn.
  destruct (tag_open ["<code"] r) as [r'|] eqn:E; [|done]. apply tag_open_suffix in E as [a' ->]. cbn. apply closed_by_suffix, closed_by_suffix in Hs.
  rewrite upto_close_none; [done | done|]. cbn. by rewrite Hc.
Qed.
Lemma trim_start_suffix s : exists a, s = a +:+ trim_start s.
Proof. destruct (trim_start_factor s) as (a & H & _). by exists a. Qed.
Lemma href_here_none q s : closed_by k s = true -> is_close k "</a>" = true -> href_here q s = None.
Proof.
  intros Hs Hc. unfold href_here. destruct (ci_starts_with s "href="); [|done]. rewrite <- (stake_sdrop 5 s) in Hs. apply closed_by_suffix in Hs.
  destruct (trim_start_suffix (sdrop 5 s)) as [a Ha]. rewrite Ha in Hs. apply closed_by_suffix in Hs. destruct (trim_start (sdrop 5 s)) as [|c r]; [done|].
  destruct (Ascii.eqb c q); [|done]. apply closed_by_tail in Hs; [|done]. destruct (span_chars _ r) as [v r'] eqn:E.
  rewrite <- (span_chars_app (fun d => negb (Ascii.eqb d q)) r), E in Hs. apply closed_by_suffix in Hs. cbn [snd] in Hs. destruct r' as [|d r']; [done|].
  apply closed_by_tail in Hs; [|done]. destruct (after_gt r') as [r2|] eqn:Eg; [|done]. apply after_gt_suffix in Eg as [b ->]. cbn.
  rewrite upto_close_none; [done | by apply closed_by_suffix in Hs|]. cbn. by rewrite Hc.
Qed.
Lemma anchor_none q f s : closed_by k s = true -> is_close k "</a>" = true -> anchor q f s = None.
Proof.
  intros Hs Hc. unfold anchor. destruct (ci_starts_with s "<a"); [|done]. rewrite <- (stake_sdrop 2 s) in Hs. apply closed_by_suffix in Hs.
  destruct (sdrop 2 s) as [|c r]; [done|]. destruct (Ascii.eqb c ">"); [done|]. apply closed_by_tail in Hs; [|done].
  assert (href_go q r = None) as ->; [|done]. induction r as [|d r IH]; cbn [href_go]; [by apply href_here_none|].
  rewrite href_here_none by done. destruct (Ascii.eqb d ">"); [done|]. rewrite IH; [done|]. by apply closed_by_tail in Hs.
Qed.
Lemma literal_none pat rep s : closed_by k s = true -> is_close k pat = true -> literal pat rep s = None.
Proof.
  intros Hs [H1 H2%negb_true_iff]%andb_true_iff. unfold literal. destruct (ci_starts_with s pat) eqn:E; [|done].
  destruct (ci_close s pat H1 E) as [r ->]. cbn in Hs. apply String.eqb_eq in Hs. congruence.
Qed.

(** Where nothing matches, nothing is replaced. *)
Lemma replace_matches_id here s : (forall s, closed_by k s = true -> here s = None) -> closed_by k s = true -> replace_matches here 0 s = s.
Proof.
  intros Hh. induction s as [|c s IH]; [done|]. intros Hs. cbn [replace_matches]. rewrite Hh by done. rewrite IH; [done|]. by apply closed_by_tail in Hs.
Qed.
End Closed.

(** ** Lines and gaps *)

(** Lines in which an empty line that follows an empty line ([gap]) is left out. *)
Fixpoint one_gap (gap : bool) (lines : list string) : list string :=
  match lines with
  | [] => []
  | l :: ls =>
      if l =s? "" then if gap then one_gap true ls else l :: one_gap true ls
      else l :: one_gap false ls
  end.

Lemma squeeze_line run l s : l <> "" -> no_char lf l = true -> squeeze_lines_go run (l +:+ s) = l +:+ squeeze_lines_go 0 s.
Proof.
  unfold no_char. revert run. induction l as [|c l IH]; [done|]. cbn [all_chars String.append squeeze_lines_go]. intros run _ [H1%negb_true_iff H2]%andb_true_iff.
  rewrite Ascii.eqb_sym, H1. destruct l as [|c' l]; [done|]. by rewrite IH.
Qed.
Lemma one_gap_nonempty gap ls l : l <> "" -> one_gap gap (ls ++ [l]) <> [].
Proof.
  intros Hl%String.eqb_neq. revert gap. induction ls as [|x ls IH]; intros gap; cbn [app one_gap]; [by rewrite Hl|].
  destruct (x =s? ""); [|done]. destruct gap; [apply IH | done].
Qed.
Lemma squeeze_gaps ls l (gap : bool) : l <> "" -> Forall (fun l => no_char lf l = true) (ls ++ [l]) ->
  squeeze_lines_go (if gap then 2 else 1) (join lfs (ls ++ [l])) = join lfs (one_gap gap (ls ++ [l])).
Proof.
  intros Hl. assert ((l =s? "") = false) as Hl' by (by apply String.eqb_neq). revert gap. induction ls as [|x ls IH]; intros gap; cbn [app]; intros [Hx Hls]%Forall_cons.
  - cbn [one_gap]. rewrite Hl'. change (join lfs [l]) with l. rewrite <- (sapp_nil_r l) at 1. rewrite squeeze_line by done. apply sapp_nil_r.
  - rewrite join_cons by (by destruct ls). cbn [one_gap]. destruct (String.eqb_spec x "") as [->|Hne].
    + pose proof (IH true Hls) as Hi. pose proof (one_gap_nonempty true ls l Hl) as Hn. cbn [String.append]. destruct gap; [exact Hi|].
      rewrite join_cons by done. cbn [String.append]. rewrite <- Hi. reflexivity.
    + rewrite squeeze_line by done. rewrite join_cons by (by apply one_gap_nonempty). by rewrite <- (IH false Hls).
Qed.
Lemma squeeze_no_gap run s : run <= 2 -> includes (squeeze_lines_go run s) (lfs +:+ lfs +:+ lfs) = false.
Proof.
  intros Hr. apply not_true_iff_false. intros (a & b & E)%includes_spec. revert run Hr a E. induction s as [|c s IH]; intros run Hr a E.
  - by destruct a.
  - destruct a as [|x a].
    + apply (squeeze_no_triple run (String c s) 3 Hr); [lia|]. exists b. split; [exact E | lia].
    + cbn [squeeze_lines_go] in E. destruct (Ascii.eqb c lf); [destruct (Nat.leb_spec 2 run)|].
      * by apply (IH run Hr (String x a)).
      * injection E as _ E. by apply (IH (S run) ltac:(lia) a).
      * injection E as _ E. by apply (IH 0 ltac:(lia) a).
Qed.
Lemma squeeze_app run a b : exists x r, squeeze_lines_go run (a +:+ b) = x +:+ squeeze_lines_go r b.
Proof.
  revert run. induction a as [|c a IH]; intros run; [by exists "", run|]. cbn [String.append squeeze_lines_go].
  destruct (Ascii.eqb c lf); [destruct (2 <=? run)|].
  - apply IH.
  - destruct (IH (S run)) as (x & r & ->). by exists (String c x), r.
  - destruct (IH 0) as (x & r & ->). by exists (String c x), r.
Qed.
Lemma trim_end_last s : trim_end s = s -> s = "" \/ exists a c, s = a +:+ String c "" /\ is_ws c = false.
Proof.
  induction s as [|c s IH]; [by left|]. cbn [trim_end]. intros H. right. destruct (trim_end s) as [|y z] eqn:E.
  - destruct (is_ws c) eqn:Hc; [done|]. injection H as <-. by exists "", c.
  - injection H as H. subst s. destruct (IH eq_refl) as [|(a & x & -> & Hx)]; [done|]. by exists (String c a), x.
Qed.
Lemma trim_end_kept a c : is_ws c = false -> trim_end (a +:+ String c "") = a +:+ String c "".
Proof.
  intros Hc. induction a as [|x a IH]; cbn [String.append trim_end]; [by rewrite Hc|]. rewrite IH. by destruct a.
Qed.
Lemma trim_end_shorter s : String.length (trim_end s) <= String.length s.
Proof.
  induction s as [|c s IH]; [done|]. cbn [trim_end]. destruct (trim_end s); [destruct (is_ws c)|]; cbn [String.length] in *; lia.
Qed.
Lemma trim_end_drops a c : is_ws c = true -> trim_end (a +:+ String c "") = trim_end a.
Proof. intros Hc. induction a as [|x a IH]; cbn [String.append trim_end]; [by rewrite Hc|]. by rewrite IH. Qed.
Lemma join_empty_end ls : ls <> [] -> exists a, join lfs (ls ++ [""]) = a +:+ lfs.
Proof.
  induction ls as [|x ls IH]; [done|]. intros _. cbn [app]. rewrite join_cons by (by destruct ls). destruct ls as [|y ls].
  - by exists x.
  - destruct IH as [a ->]; [done|]. exists (x +:+ lfs +:+ a). by rewrite !sapp_assoc.
Qed.
Lemma split_pieces c s : Forall (fun l => no_char c l = true) (split s (String c "")).
Proof.
  unfold split. induction s as [|x s IH]; [by repeat constructor|]. rewrite split_go_cons, prefix_cons. change (String.length _ - 1) with 0.
  destruct (ascii_dec c x) as [_|Hx]; [by destruct s; constructor|]. pose proof (split_go_nonempty (String c "") 0 s) as Hn.
  destruct (split_go _ 0 s) as [|p ps]; [done|]. apply Forall_cons in IH as [Hp Hps]. constructor; [|done].
  unfold no_char in *. cbn [all_chars]. rewrite Hp. by destruct (Ascii.eqb_spec c x).
Qed.
(** A text without white space at its ends, shortened: its lines with one gap at most. *)
Lemma squeeze_trimmed u : trim u = u -> squeeze_lines u = join lfs (one_gap false (split u lfs)) /\ trim (squeeze_lines u) = squeeze_lines u.
Proof.
  intros Hu. destruct (String.eqb_spec u "") as [->|Hne]; [done|].
  assert (trim_start u = u) as Hs by (rewrite <- Hu; unfold trim; apply trim_start_end, trim_start_idemp).
  assert (trim_end u = u) as He by (rewrite <- Hu; unfold trim; apply trim_end_idemp).
  split.
  - pose proof (split_pieces lf u) as Hp. pose proof (split_join lfs u ltac:(done)) as Hj. change (String lf "") with lfs in Hp.
    pose proof (split_go_nonempty lfs 0 u) as Hn. fold (split u lfs) in Hn. revert Hp Hj Hn. generalize (split u lfs). intros lines Hp Hj Hn.
    destruct (exists_last Hn) as (ls & l & ->).
    assert (l <> "") as Hl.
    { intros ->. destruct ls as [|x ls]; [by rewrite <- Hj in Hne|]. destruct (join_empty_end (x :: ls) ltac:(done)) as [a Ha].
      rewrite Ha in Hj. rewrite <- Hj in He. change lfs with (String lf "") in He. rewrite trim_end_drops in He by done.
      pose proof (trim_end_shorter a) as Hle. rewrite He, slength_app in Hle. cbn in Hle. lia. }
    pose proof (squeeze_gaps ls l false Hl Hp) as <-. cbn [negb]. rewrite Hj. unfold squeeze_lines.
    assert (exists x r, u = x +:+ r /\ x <> "" /\ no_char lf x = true) as (x & r & -> & Hx & Hxl).
    { apply trim_start_nows in Hs. destruct u as [|c u]; [done|]. exists (String c ""), u. split_and!; [done|done|]. revert Hs. clear. revert c. by_char. }
    by rewrite !squeeze_line by done.
  - destruct (trim_end_last u He) as [|(a & c & E & Hc)]; [done|]. unfold trim.
    assert (Ascii.eqb c lf = false) as Hlf by (revert Hc; clear; revert c; by_char).
    assert (trim_start (squeeze_lines u) = squeeze_lines u) as ->.
    { apply trim_start_nows. apply trim_start_nows in Hs. unfold squeeze_lines. destruct u as [|x u]; [done|]. cbn [squeeze_lines_go].
      destruct (Ascii.eqb_spec x lf) as [->|]; [done | exact Hs]. }
    unfold squeeze_lines. rewrite E. destruct (squeeze_app 0 a (String c "")) as (x & r & ->). cbn [squeeze_lines_go]. rewrite Hlf. by apply trim_end_kept.
Qed.

(** ** What is sent *)

(** What the serializer of a document makes of typed characters, and the HTML of lines of text:
    what the editor holds ([innerHTML]) when its lines are separated by [<br>]. *)
Definition escape_char (c : ascii) : string :=
  if Ascii.eqb c "&" then "&amp;" else if Ascii.eqb c "<" then "&lt;" else if Ascii.eqb c ">" then "&gt;"
  else if (code c =? 160)%N then "&nbsp;" else String c "".
Fixpoint escape (t : string) : string := match t with String c t => escape_char c +:+ escape t | EmptyString => "" end.
Definition typed (lines : list string) : string := join "<br>" (map escape lines).

(** Characters a document can hold as text: the parser drops NUL and makes a line feed of a
    carriage return. The [inert] ones are written as they are. *)
Definition typeable (c : ascii) : bool := negb (Ascii.eqb c cr) && negb (code c =? 0)%N.
Definition inert (c : ascii) : bool :=
  negb (Ascii.eqb c "<") && negb (Ascii.eqb c ">") && negb (Ascii.eqb c "&") && negb (Ascii.eqb c cr) && negb (code c =? 0)%N && negb (code c =? 160)%N.

Lemma escape_app a b : escape (a +:+ b) = escape a +:+ escape b.
Proof. induction a as [|c a IH]; [done|]. cbn [String.append escape]. by rewrite IH, sapp_assoc. Qed.
Lemma escape_no_tag t : no_char "<" (escape t) = true.
Proof.
  unfold no_char. induction t as [|c t IH]; [done|]. cbn [escape]. rewrite all_chars_app, IH, andb_true_r. clear. revert c. by_char.
Qed.
Lemma escape_inert t : all_chars inert t = true -> escape t = t.
Proof.
  induction t as [|c t IH]; [done|]. cbn [all_chars escape]. intros [Hc Ht]%andb_true_iff. rewrite IH by done.
  assert (escape_char c = String c "") as ->; [|done]. revert Hc. clear. revert c. by_char.
Qed.
Lemma escape_join lines : escape (join lfs lines) = join lfs (map escape lines).
Proof.
  induction lines as [|l [|l' ls] IH]; [done | done |]. cbn [map] in *. by rewrite !join_cons, !escape_app, IH by done.
Qed.
Lemma escape_lead c : escape_char c = String c "" \/ exists r, escape_char c = String "&" r.
Proof. unfold escape_char. repeat (destruct (_ : bool); [by right; eexists|]). by left. Qed.
Lemma escape_nil t : escape t = "" -> t = "".
Proof. destruct t as [|c t]; [done|]. cbn [escape]. by destruct (escape_lead c) as [->|[r ->] ]. Qed.
(** White space at the beginning of what is typed is white space of its first line. *)
Lemma typed_lead ws lines body :
  Forall (fun l => all_chars typeable l = true) lines -> all_chars is_ws ws = true -> typed lines = ws +:+ body ->
  exists lines', body = typed lines' /\ Forall (fun l => all_chars typeable l = true) lines' /\ trim (join lfs lines') = trim (join lfs lines).
Proof.
  revert lines. induction ws as [|w ws IH]; intros lines Hl Hws E; [by exists lines|]. cbn [all_chars] in Hws. apply andb_true_iff in Hws as [Hw Hws].
  destruct lines as [|[|c l] ls]; [done | exfalso | ].
  - destruct ls; [done|]. unfold typed in E. cbn [map] in E. rewrite join_cons in E by done. injection E as <- _. done.
  - apply Forall_cons in Hl as [Hc Hl]. cbn [all_chars] in Hc. apply andb_true_iff in Hc as [Hc Hc'].
    assert (is_ws c = true /\ typed (l :: ls) = ws +:+ body) as [Hcw E'].
    { assert (typed (String c l :: ls) = escape_char c +:+ typed (l :: ls)) as Ht.
      { unfold typed. cbn [map escape]. destruct ls; [done|]. cbn [map]. by rewrite !join_cons, sapp_assoc by done. }
      rewrite Ht in E. destruct (escape_lead c) as [Hes|(r & Hes)]; rewrite Hes in E; injection E as <- E; [done|discriminate Hw]. }
    destruct (IH (l :: ls) ltac:(by constructor) Hws E') as (lines' & ? & ? & Ht). exists lines'. split_and!; [done|done|]. rewrite Ht, join_cons_char.
    unfold trim. cbn [trim_start]. by rewrite Hcw.
Qed.

Section Sent.
Variable d : dom.
(** What a document gives back of text: its characters, but white space at the beginning may go. *)
Hypothesis parsed : forall t, all_chars typeable t = true -> trim (document_text d (escape t)) = trim t.

Lemma inert_no c t : all_chars inert t = true -> inert c = false -> no_char c t = true.
Proof. intros Ht Hc. unfold no_char. revert Ht. apply all_chars_mono. intros x Hx. apply negb_true_iff, Ascii.eqb_neq. intros <-. congruence. Qed.
Lemma replace_tags_text t : no_char "<" t = true -> replace_tags t = t.
Proof.
  unfold replace_tags, no_char. induction t as [|c t IH]; [done|]. cbn [all_chars replace_tags_go]. intros [H1%negb_true_iff H2]%andb_true_iff.
  rewrite Ascii.eqb_sym, H1. cbn [andb]. by rewrite IH.
Qed.
Lemma inner_typed t : all_chars typeable t = true -> innerPlain (Some d) (escape t) = trim t.
Proof. intros Ht. unfold innerPlain. rewrite replace_tags_text by apply escape_no_tag. by apply parsed. Qed.
Lemma parsed_inert t : all_chars inert t = true -> trim (document_text d t) = trim t.
Proof.
  intros Ht. rewrite <- (escape_inert t) at 1 by done. apply parsed. revert Ht. apply all_chars_mono. clear. by_char.
Qed.
Lemma inner_text t : all_chars inert t = true -> innerPlain (Some d) t = trim t.
Proof. intros Ht. unfold innerPlain. rewrite replace_tags_text by (by apply inert_no). by apply parsed_inert. Qed.

Ltac replace_nothing k Hk t := repeat match goal with
  | |- context [replace_matches ?m 0 t] => rewrite (replace_matches_id k Hk m t) by
      (first [done | intros ? ?; first [apply (element_none k Hk); [done | cbn [forallb]; repeat (apply andb_true_iff; split); done]
        | by apply (pre_block_none k Hk) | by apply (anchor_none k Hk) | by apply (literal_none k)] ])
  end.
Lemma blocks_id k t : closed_by k t = true -> no_char "<" (sdrop 1 k) = true ->
  forallb (is_close k) ["</h1>"; "</h2>"; "</h3>"; "</blockquote>"; "</code></pre>"; "</code>"; "</ul>"; "</ol>"] = true -> replace_blocks (Some d) t = t.
Proof. intros Ht Hk Hc. cbn [forallb] in Hc. bool_to_prop. unfold replace_blocks, replace_element. cbv zeta. by replace_nothing k Hk t. Qed.
Lemma inline_id t : closed_by "" t = true -> replace_inline (Some d) t = t.
Proof. intros Ht. assert (no_char "<" (sdrop 1 "") = true) as Hk by done. unfold replace_inline, replace_element. cbv zeta. by replace_nothing "" Hk t. Qed.

Lemma closed_by_app k l s : no_char "<" l = true -> closed_by k (l +:+ s) = closed_by k s.
Proof.
  unfold no_char. induction l as [|c l IH]; [done|]. cbn [all_chars String.append closed_by]. intros [H1%negb_true_iff H2]%andb_true_iff.
  rewrite Ascii.eqb_sym, H1. cbn [andb]. by apply IH.
Qed.
Lemma br_tag_text c s : Ascii.eqb "<" c = false -> br_tag (String c s) = None.
Proof.
  intros Hc%Ascii.eqb_neq. unfold br_tag. destruct (ci_starts_with _ _) eqn:E; [|done]. exfalso. apply starts_with_spec in E as [r Hr]. cbn [to_lower] in Hr.
  injection Hr as Hr _. apply lower_char_symbol in Hr; [done | by left].
Qed.
Lemma replace_text here l s : (forall c s, Ascii.eqb "<" c = false -> here (String c s) = None) -> no_char "<" l = true ->
  replace_matches here 0 (l +:+ s) = l +:+ replace_matches here 0 s.
Proof.
  intros Hh. unfold no_char. induction l as [|c l IH]; [done|]. cbn [all_chars String.append replace_matches]. intros [H1%negb_true_iff H2]%andb_true_iff.
  by rewrite Hh, IH by done.
Qed.
Lemma br_tag_here s : br_tag ("<br>" +:+ s) = Some (4, lfs).
Proof.
  unfold br_tag. change (ci_starts_with ("<br>" +:+ s) "<br") with true. cbn -[String.length Nat.sub]. cbn [String.length]. f_equal. f_equal. lia.
Qed.
Lemma replace_br_break s : replace_matches br_tag 0 ("<br>" +:+ s) = lfs +:+ replace_matches br_tag 0 s.
Proof. change ("<br>" +:+ s) with (String "<" ("br>" +:+ s)). cbn [replace_matches]. change (String "<" ("br>" +:+ s)) with ("<br>" +:+ s). rewrite br_tag_here. reflexivity. Qed.

(** Lines, as the editor holds them. *)
Definition plain_lines (lines : list string) : Prop := Forall (fun l => all_chars inert l = true) lines.
Lemma inert_text l : all_chars inert l = true -> no_char "<" l = true.
Proof. intros H. by apply inert_no. Qed.
Lemma typed_closed lines : closed_by "" (typed lines) = true.
Proof.
  unfold typed. induction lines as [|l [|l' ls] IH]; [done | | ].
  - change (join "<br>" (map escape [l])) with (escape l). apply closed_by_text, escape_no_tag.
  - cbn [map] in *. rewrite join_cons, closed_by_app by (done || apply escape_no_tag). exact IH.
Qed.
Lemma typed_broken lines : replace_matches br_tag 0 (typed lines) = escape (join lfs lines).
Proof.
  rewrite escape_join. unfold typed. induction lines as [|l [|l' ls] IH]; [done | | ].
  - change (join ?x (map escape [l])) with (escape l). rewrite <- (sapp_nil_r (escape l)) at 1.
    rewrite replace_text by (apply br_tag_text || apply escape_no_tag). apply sapp_nil_r.
  - cbn [map] in *. by rewrite !join_cons, replace_text, replace_br_break, IH by (done || apply br_tag_text || apply escape_no_tag).
Qed.
Lemma typeable_lines lines : Forall (fun l => all_chars typeable l = true) lines -> all_chars typeable (join lfs lines) = true.
Proof.
  induction 1 as [|l [|l' ls] Hl _ IH]; [done | by change (join lfs [l]) with l | ]. by rewrite join_cons, !all_chars_app, Hl, IH by done.
Qed.
Lemma ends_typed lines : replace_ends (typed lines) = escape (join lfs lines).
Proof.
  assert (no_char "<" (sdrop 1 "") = true) as Hk by done. unfold replace_ends. cbv zeta. rewrite typed_broken.
  assert (closed_by "" (escape (join lfs lines)) = true) as Hc by (apply closed_by_text, escape_no_tag).
  by replace_nothing "" Hk (escape (join lfs lines)).
Qed.

(** C38: what is typed is sent: of lines of text that the editor separates by [<br>] (any
    characters but NUL and carriage returns; [&], [<], [>] and the non-breaking space, which the
    editor holds as entities, among them) the text sent is these lines, without the white space
    around the text, with one empty line at most between two others; three line feeds in a row
    are nowhere in it. The browser's parser is the hypothesis: it gives text back with its
    entities decoded, and may drop white space at the beginning. *)
Theorem typed_lines_are_sent lines ws :
  Forall (fun l => all_chars typeable l = true) lines ->
  all_chars is_ws ws = true -> typed lines = ws +:+ body_inner d (typed lines) ->
  let sent := htmlToPlainText (Some d) (typed lines) in
  sent = join lfs (one_gap false (split (trim (join lfs lines)) lfs)) /\
  includes sent (lfs +:+ lfs +:+ lfs) = false.
Proof.
  intros Hl Hws Hb. cbv zeta. assert (htmlToPlainText (Some d) (typed lines) = squeeze_lines (trim (join lfs lines))) as ->.
  2: { split; [apply squeeze_trimmed, trim_idemp | apply squeeze_no_gap; lia]. }
  destruct (typed_lead ws lines _ Hl Hws Hb) as (lines' & E & Hl' & Ht).
  assert (trim (squeeze_lines (trim (join lfs lines))) = squeeze_lines (trim (join lfs lines))) as <- by apply squeeze_trimmed, trim_idemp.
  unfold htmlToPlainText. destruct (String.eqb_spec (typed lines) "") as [E0|_].
  - assert (escape (join lfs lines) = "") as Hj by (by rewrite <- typed_broken, E0). by apply escape_nil in Hj as ->.
  - cbn [stripHtmlBlocks]. rewrite E, (blocks_id ""), inline_id, ends_typed, inner_typed, Ht by (done || apply typed_closed || by apply typeable_lines). done.
Qed.
Lemma sdrop_all s : sdrop (String.length s) s = "".
Proof. by induction s. Qed.
Lemma all_chars_trim p s : all_chars p s = true -> all_chars p (trim s) = true.
Proof.
  intros Hs. destruct (trim_start_factor s) as (x & E & _). rewrite E, all_chars_app in Hs. apply andb_true_iff in Hs as [_ Hs]. clear E. unfold trim.
  induction (trim_start s) as [|c r IH]; [done|]. cbn [all_chars] in Hs. apply andb_true_iff in Hs as [H1 H2]. specialize (IH H2). cbn [trim_end].
  destruct (trim_end r) as [|y z]; [destruct (is_ws c); [done|]|]; cbn [all_chars] in *; rewrite H1; exact IH.
Qed.
Lemma upto_close_here k closes m : closed_by "" m = true -> forallb (fun c => starts_with c "</") closes = true ->
  List.find (ci_starts_with k) closes = Some k -> slash_next k = false -> upto_close closes (m +:+ k) = Some (m, "").
Proof.
  intros Hm Hc Hk Hs. induction m as [|c m IH].
  - cbn [String.append]. destruct k as [|x k]; cbn [upto_close]; rewrite Hk; [done|]. by rewrite sdrop_all.
  - cbn [String.append upto_close]. destruct (List.find (ci_starts_with (String c (m +:+ k))) closes) as [n|] eqn:E.
    + exfalso. apply List.find_some in E as [Hin Hn]. apply forallb_forall with (x := n) in Hc; [|done]. destruct (ci_close _ n Hc Hn) as [r Hr].
      injection Hr as -> Hr. cbn [closed_by] in Hm. destruct m as [|c2 m]; [cbn in Hr; by rewrite Hr in Hs|]. cbn [String.append] in Hr; injection Hr as -> _. done.
    + rewrite IH; [done|]. by apply closed_by_tail in Hm.
Qed.
Lemma replace_done here n s : String.length s <= n -> replace_matches here n s = "".
Proof. revert n. induction s as [|c s IH]; intros n Hn; [done|]. cbn [String.length] in Hn. destruct n; [lia|]. cbn [replace_matches]. apply IH. lia. Qed.
Lemma tag_open_text names c s : forallb (fun n => starts_with n "<") names = true -> Ascii.eqb "<" c = false -> tag_open names (String c s) = None.
Proof.
  intros Hn Hc%Ascii.eqb_neq. unfold tag_open. destruct (List.find _ names) as [n|] eqn:E; [|done]. exfalso. apply List.find_some in E as [Hin E].
  apply forallb_forall with (x := n) in Hn; [|done]. apply starts_with_spec in Hn as [x ->]. apply starts_with_spec in E as [r Hr]. cbn [to_lower String.append] in Hr.
  injection Hr as Hr _. apply lower_char_symbol in Hr; [done | by left].
Qed.
Lemma replace_tags_bold b c : no_char "<" b = true -> no_char "<" c = true -> replace_tags (b +:+ "<b>" +:+ c) = b +:+ " " +:+ c.
Proof.
  unfold replace_tags, no_char. intros Hb Hc. induction b as [|x b IH].
  - transitivity (" " +:+ replace_tags c); [reflexivity|]. by rewrite replace_tags_text.
  - cbn [all_chars String.append replace_tags_go] in *. apply andb_true_iff in Hb as [H1%negb_true_iff H2]. rewrite Ascii.eqb_sym, H1. cbn [andb]. by rewrite IH.
Qed.

Lemma ends_text t : all_chars inert t = true -> replace_ends t = t.
Proof.
  intros Ht. assert (no_char "<" (sdrop 1 "") = true) as Hk by done. assert (closed_by "" t = true) as Hc by (by apply closed_by_text, inert_text).
  unfold replace_ends. cbv zeta. assert (replace_matches br_tag 0 t = t) as ->.
  { rewrite <- (sapp_nil_r t) at 1. rewrite replace_text by (apply br_tag_text || by apply inert_text). apply sapp_nil_r. }
  by replace_nothing "" Hk t.
Qed.
Lemma bold_replaced a b c : plain_lines [a; b; c] ->
  replace_matches (element ["<b"; "<strong"] ["</b>"; "</strong>"] (between (Some d) "**")) 0 (a +:+ "<br>" +:+ b +:+ "<b>" +:+ c +:+ "</b>") =
    a +:+ "**" +:+ trim (b +:+ " " +:+ c) +:+ "**".
Proof.
  intros [Ha [Hb [Hc _]%Forall_cons]%Forall_cons]%Forall_cons. rewrite replace_text; [|intros x s Hx; unfold element; by rewrite tag_open_text | by apply inert_text].
  f_equal. set (m := b +:+ "<b>" +:+ c). assert ("<br>" +:+ b +:+ "<b>" +:+ c +:+ "</b>" = String "<" ("br>" +:+ m +:+ "</b>")) as ->.
  { unfold m. by rewrite !sapp_assoc. }
  assert (closed_by "" m = true) as Hm.
  { unfold m. rewrite closed_by_app by (by apply inert_text). change (closed_by "" c = true). by apply closed_by_text, inert_text. }
  cbn [replace_matches]. unfold element. change (tag_open ["<b"; "<strong"] (String "<" ("br>" +:+ m +:+ "</b>"))) with (Some (m +:+ "</b>")). cbn [mbind option_bind].
  rewrite upto_close_here by done. cbn [mbind option_bind fst snd]. rewrite replace_done by (cbn [String.length]; lia). rewrite sapp_nil_r. unfold between.
  assert (innerPlain (Some d) m = trim (b +:+ " " +:+ c)) as ->; [|done]. unfold innerPlain. unfold m. rewrite replace_tags_bold by (by apply inert_text).
  apply parsed_inert. by rewrite !all_chars_app, Hb, Hc.
Qed.

(** a line break before bold text is lost: the expression for [<b>] takes [<br>] for the
    beginning of the bold text, so the break goes and the marks are put around all that
    follows it. *)
Theorem break_before_bold_is_lost a b c : plain_lines [a; b; c] ->
  let html := a +:+ "<br>" +:+ b +:+ "<b>" +:+ c +:+ "</b>" in
  body_inner d html = html ->
  htmlToPlainText (Some d) html = trim (squeeze_lines (trim (a +:+ "**" +:+ trim (b +:+ " " +:+ c) +:+ "**"))).
Proof.
  intros Hl html Hb. pose proof Hl as [Ha [Hb' [Hc _]%Forall_cons]%Forall_cons]%Forall_cons.
  assert (no_char "<" (sdrop 1 "</b>") = true) as Hk by done. assert (closed_by "</b>" html = true) as Hh.
  { unfold html. rewrite closed_by_app by (by apply inert_text). change (closed_by "</b>" (b +:+ "<b>" +:+ c +:+ "</b>") = true).
    rewrite closed_by_app by (by apply inert_text). change (closed_by "</b>" (c +:+ "</b>") = true). by rewrite closed_by_app by (by apply inert_text). }
  unfold htmlToPlainText. assert ((html =s? "") = false) as -> by (unfold html; by destruct a). cbn [stripHtmlBlocks].
  rewrite Hb, (blocks_id "</b>") by done. unfold replace_inline, replace_element. cbv zeta. replace_nothing "</b>" Hk html.
  unfold html. rewrite bold_replaced by done. set (t := a +:+ _). assert (all_chars inert t = true) as Ht.
  { unfold t. rewrite !all_chars_app, Ha, all_chars_trim; [done|]. by rewrite !all_chars_app, Hb', Hc. }
  assert (no_char "<" (sdrop 1 "") = true) as Hk' by done. assert (closed_by "" t = true) as Hc' by (by apply closed_by_text, inert_text).
  replace_nothing "" Hk' t. by rewrite ends_text, inner_text.
Qed.
End Sent.

(** ** Witnesses *)

Section Samples.
(** A parser of text: the entities decoded. *)
Fixpoint sample_decode (s : string) : string :=
  match s with
  | String "&" (String "a" (String "m" (String "p" (String ";" r)))) => String "&" (sample_decode r)
  | String "&" (String "l" (String "t" (String ";" r))) => String "<" (sample_decode r)
  | String "&" (String "g" (String "t" (String ";" r))) => String ">" (sample_decode r)
  | String "&" (String "n" (String "b" (String "s" (String "p" (String ";" r))))) => String (ascii_of_N 160) (sample_decode r)
  | String c r => String c (sample_decode r)
  | EmptyString => ""
  end.
Definition sample_dom : dom := Dom (fun h => h) (fun h => h) (fun h => trim (sample_decode h)).
Lemma sample_escape t : sample_decode (escape t) = t.
Proof.
  induction t as [|c t IH]; [done|]. cbn [escape]. transitivity (String c (sample_decode (escape t))); [|by rewrite IH].
  destruct c as [ [] [] [] [] [] [] [] [] ]; reflexivity.
Qed.
Lemma sample_parsed t : all_chars typeable t = true -> trim (document_text sample_dom (escape t)) = trim t.
Proof. intros _. cbn [sample_dom document_text]. by rewrite sample_escape, trim_idemp. Qed.
Lemma typed_lines_are_sent_witness :
  typed ["1 < 2 & more,"; ""; ""; ""; "see you. "] = "1 &lt; 2 &amp; more,<br><br><br><br>see you. " /\
  htmlToPlainText (Some sample_dom) (typed ["1 < 2 & more,"; ""; ""; ""; "see you. "]) = "1 < 2 & more," +:+ blank_line +:+ "see you.".
Proof.
  split; [reflexivity|].
  refine (eq_trans (proj1 (typed_lines_are_sent sample_dom sample_parsed ["1 < 2 & more,"; ""; ""; ""; "see you. "] "" _ _ _)) _);
    [repeat constructor | reflexivity | reflexivity | vm_compute; reflexivity].
Defined.
Lemma break_before_bold_is_lost_witness : htmlToPlainText (Some sample_dom) "Dear all,<br>the meeting is <b>at noon</b>" = "Dear all,**the meeting is  at noon**".
Proof.
  refine (eq_trans (break_before_bold_is_lost sample_dom _ "Dear all," "the meeting is " "at noon" _ _) _); [|repeat constructor | reflexivity | vm_compute; reflexivity].
  apply sample_parsed.
Defined.
End Samples.
