(* ===== verification/Mime.v ===== *)
(** * MIME

    The reader of decrypted messages. [mail/mail-app.jsx] and
    [protected/open.js] hold the same parser twice, with two decoders of bodies
    and two tests for what is a message; [auth/unlock.js] and
    [mail/search/worker.js] hold its header and transfer decoders once more.
    The common text is defined once; the modules [App] and [Open] are the two
    readers. Strings are the code units of JS strings and byte strings are one
    character per byte (file [JsString]). *)
From Stdlib Require Import ZArith NArith Lia Ascii.
From stdpp Require Import gmap strings.
From S2P Require Import Prelude JsString JsValue Split Base64 Text Patterns HtmlText.

(** ** Headers *)

Definition headers := gmap string string.

(** [String(headers[k] || "")] *)
Definition header (hs : headers) (k : string) : string := default "" (hs !! k).

Fixpoint header_loop (lines : list string) (current : string) (hs : headers) : option headers :=
  match lines with
  | [] => Some hs
  | line :: lines =>
      if line =s? "" then None
      else if indented line then
        if current =s? "" then None
        else header_loop lines current (<[current := header hs current +:+ " " +:+ trim line]> hs)
      else
        match header_line line with
        | None => None
        | Some (name, value) => header_loop lines (to_lower name) (<[to_lower name := value]> hs)
        end
  end.

Definition parseHeaderBlock (headerBlock : string) : option headers := header_loop (split headerBlock lfs) "" ∅.

(** ** Transfer encodings *)

(** [.replace(/=\r?\n/g, ...)]: soft line breaks removed. *)
Fixpoint remove_soft_breaks (s : string) : string :=
  match s with
  | EmptyString => ""
  | String c s' =>
      if Ascii.eqb c "=" then
        match s' with
        | String d s'' =>
            if Ascii.eqb d lf then remove_soft_breaks s''
            else match s'' with
                 | String e s''' =>
                     if Ascii.eqb d cr && Ascii.eqb e lf then remove_soft_breaks s''' else String c (remove_soft_breaks s')
                 | EmptyString => String c (remove_soft_breaks s')
                 end
        | EmptyString => s
        end
      else String c (remove_soft_breaks s')
  end.

(** An equals sign and two hexadecimal digits are a byte, anything else stands
    for itself. *)
Fixpoint quoted_bytes (s : string) : string :=
  match s with
  | EmptyString => ""
  | String c s' =>
      match s' with
      | String d (String e s'') =>
          if Ascii.eqb c "=" && is_hex d && is_hex e
          then String (char_of (hexs_val 0 (String d (String e "")))) (quoted_bytes s'')
          else String c (quoted_bytes s')
      | _ => String c (quoted_bytes s')
      end
  end.

Definition quotedPrintableToBytes (raw : string) : string := quoted_bytes (remove_soft_breaks raw).

Definition normalizedEncoding (transferEncoding : string) : string := to_lower (trim transferEncoding).

Definition decodeTransferBytes (body transferEncoding : string) : res string :=
  let encoding := normalizedEncoding transferEncoding in
  if encoding =s? "base64" then base64ToBytes body
  else if encoding =s? "quoted-printable" then Ok (quotedPrintableToBytes body)
  else Ok (utf8 body).

Definition decodeAttachmentBytes (body transferEncoding : string) : res string :=
  if normalizedEncoding transferEncoding =s? "base64" then base64ToBytes body else Ok body.

Definition is_identity_encoding (encoding : string) : bool :=
  (encoding =s? "") || (encoding =s? "7bit") || (encoding =s? "8bit") || (encoding =s? "binary").

(** ** Multipart bodies *)

Definition trimmed_part (rawPart : string) : option string :=
  let part := trim rawPart in
  if (part =s? "") || (part =s? "--") then None
  else
    let part := if ends_with part "--" then trim (sinit 2 part) else part in
    if part =s? "" then None else Some part.

Definition splitMultipartBody (body boundary : string) : list string :=
  omap trimmed_part (split body ("--" +:+ boundary)).

Definition kind_of (contentType : string) : string :=
  to_lower (trim (hd "" (split contentType ";"))).

Definition scoreBodyText (contentType bodyText : string) : Z :=
  if trim bodyText =s? "" then 0
  else
    let kind := kind_of contentType in
    if kind =s? "text/plain" then 3
    else if kind =s? "text/html" then 2
    else if starts_with kind "text/" then 1
    else 0.

Record attachment := Attachment { file_name : string; content_type : string; bytes : string }.

Record entity := Entity {
  bodyText : string;
  bodyHtml : string;
  bodyScore : Z;
  attachments : list attachment;
}.
Definition empty_entity : entity := Entity "" "" 0 [].

(** What is handed to the page. *)
Record envelope := Envelope { e_text : string; e_html : string; e_attachments : list attachment }.

(** The headers and body of a part: what comes before and after its first
    blank line, unless it begins with it. *)
Definition part_of (part : string) : option (headers * string) :=
  match index_of part blank_line with
  | Some (S i) => (fun hs => (hs, sdrop (S i + 2) part)) <$> parseHeaderBlock (stake (S i) part)
  | _ => None
  end.

(** What a container has collected from its parts so far. *)
Definition merge (acc child : entity) : entity :=
  let html := if trim (bodyHtml child) =s? "" then bodyHtml acc else bodyHtml child in
  let atts := attachments acc ++ attachments child in
  if (bodyScore acc <? bodyScore child)%Z then Entity (bodyText child) html (bodyScore child) atts
  else Entity (bodyText acc) html (bodyScore acc) atts.

Fixpoint merge_parts (parse : headers -> string -> res entity) (parts : list string) (acc : entity) : res entity :=
  match parts with
  | [] => Ok acc
  | part :: parts =>
      match part_of part with
      | None => merge_parts parse parts acc
      | Some (hs, body) => child <~ parse hs body ;; merge_parts parse parts (merge acc child)
      end
  end.

Definition is_signature_kind (kind : string) : bool :=
  (kind =s? "application/pgp-signature") || (kind =s? "application/x-pgp-signature").

Definition part_filename (disposition contentType : string) : string :=
  match re_filename disposition with Some f => f | None => default "" (re_name contentType) end.

Definition isAttachment (kind disposition filename : string) : bool :=
  negb (is_signature_kind kind) &&
  (ci_includes disposition "attachment" ||
   (negb (filename =s? "") && negb (starts_with kind "multipart/") && negb (kind =s? "text/plain") &&
    negb (kind =s? "text/html"))).

Section Entity.
(** The two readers decode bodies and HTML differently. *)
Variable decodeMailBody : string -> string -> res string.
Variable htmlToDisplayText : string -> string.

(** The leaf at the end of [parseMimeEntity]. *)
Definition parse_leaf (kind body transferEncoding : string) : res entity :=
  decodedBody <~ decodeMailBody body transferEncoding ;;
  if kind =s? "text/html" then
    let text := htmlToDisplayText decodedBody in
    Ok (Entity text decodedBody (scoreBodyText kind text) [])
  else if starts_with kind "text/" || (kind =s? "") then
    Ok (Entity decodedBody "" (scoreBodyText (str_or kind "text/plain") decodedBody) [])
  else Ok empty_entity.

(** [room]: 8 less the depth; a container is opened while it is positive. *)
Fixpoint parseMimeEntity (room : nat) (hs : headers) (body : string) : res entity :=
  let contentType := header hs "content-type" in
  let disposition := header hs "content-disposition" in
  let transferEncoding := header hs "content-transfer-encoding" in
  let kind := kind_of contentType in
  let filename := part_filename disposition contentType in
  if isAttachment kind disposition filename then
    data <~ decodeAttachmentBytes body transferEncoding ;;
    Ok (Entity "" "" 0
          [Attachment (str_or filename "attachment.bin") (str_or kind "application/octet-stream") data])
  else
    match room, (if starts_with kind "multipart/" then re_boundary contentType else None) with
    | S room, Some boundary =>
        let parts := splitMultipartBody body boundary in
        if (kind =s? "multipart/signed") &&
           re_pgp_signature (to_lower (trim (default "" (re_protocol contentType))))
        then
          match part_of (hd "" parts) with
          | Some (hs, body) => parseMimeEntity room hs body
          | None => Ok empty_entity
          end
        else merge_parts (parseMimeEntity room) parts empty_entity
    | _, _ => parse_leaf kind body transferEncoding
    end.

(** The body, or the whole text decoded when the parser found nothing. *)
Definition envelope_of (hs : headers) (body : string) : res envelope :=
  env <~ parseMimeEntity 8 hs body ;;
  if (0 <? bodyScore env)%Z || negb (match attachments env with [] => true | _ => false end) ||
     starts_with (to_lower (header hs "content-type")) "multipart/"
  then Ok (Envelope (bodyText env) (bodyHtml env) (attachments env))
  else
    text <~ decodeMailBody body (header hs "content-transfer-encoding") ;;
    Ok (Envelope text "" []).
End Entity.

(** ** protected/open.js *)

Module Open.
Section Open.
Variable DOMParser : option dom.

(** The functions this file shares with the mail client, word for word. *)
Definition parseHeaderBlock : string -> option headers := Mime.parseHeaderBlock.
Definition decodeAttachmentBytes : string -> string -> res string := Mime.decodeAttachmentBytes.
Definition splitMultipartBody : string -> string -> list string := Mime.splitMultipartBody.
Definition scoreBodyText : string -> string -> Z := Mime.scoreBodyText.

Definition bytesToUtf8 (b : string) : string := decodeText b.

(** The bytes of a quoted-printable body become characters one by one. *)
Definition decodeMailBody (body transferEncoding : string) : res string :=
  let encoding := normalizedEncoding transferEncoding in
  if is_identity_encoding encoding then Ok body
  else if encoding =s? "quoted-printable" then Ok (quoted_bytes (remove_soft_breaks body))
  else if encoding =s? "base64" then b <~ base64ToBytes body ;; Ok (bytesToUtf8 b)
  else Ok body.

Definition parseMimeEntity : nat -> headers -> string -> res entity :=
  Mime.parseMimeEntity decodeMailBody (htmlToDisplayText_open DOMParser).

Definition parseMimeEnvelope (text : string) : res envelope :=
  let normalized := crlf_to_lf text in
  match part_of normalized with
  | None => Ok (Envelope text "" [])
  | Some (hs, body) => envelope_of decodeMailBody (htmlToDisplayText_open DOMParser) hs body
  end.
End Open.

(** [path.slice(path.indexOf("/m/") + 3)] without the slashes at its end. *)
Fixpoint strip_slashes (s : string) : string :=
  match s with
  | EmptyString => ""
  | String c s =>
      match strip_slashes s with
      | EmptyString => if Ascii.eqb c "/" then "" else String c ""
      | r => String c r
      end
  end.
Definition readToken (pathname : string) : string :=
  match index_of pathname "/m/" with None => "" | Some i => strip_slashes (sdrop (i + 3) pathname) end.
End Open.

(** ** mail/mail-app.jsx *)

Module App.
Section App.
Variable DOMParser : option dom.

Definition decodeQuotedPrintable (text : string) : string :=
  if includes text "=" then decodeText (quotedPrintableToBytes text) else text.

Definition decode (body transferEncoding : string) : string :=
  let encoding := normalizedEncoding transferEncoding in
  if is_identity_encoding encoding then body
  else if encoding =s? "quoted-printable" then decodeQuotedPrintable body
  else if encoding =s? "base64" then
    match base64ToBytes body with Ok b => decodeText b | Throw _ => body end
  else body.
Definition decodeMailBody (body transferEncoding : string) : res string := Ok (decode body transferEncoding).

Definition known_headers : list string :=
  ["from"; "to"; "cc"; "subject"; "date"; "message-id"; "in-reply-to"; "references"; "reply-to"; "mime-version";
   "content-type"; "content-transfer-encoding"; "content-disposition"].

Record parsed := Parsed { p_headers : option headers; totalHeaders : nat; knownHeaders : nat }.
Definition no_headers : parsed := Parsed None 0 0.

Fixpoint header_loop (lines : list string) (current : string) (hs : headers) (total known : nat) : parsed :=
  match lines with
  | [] => Parsed (Some hs) total known
  | line :: lines =>
      if line =s? "" then no_headers
      else if indented line then
        if current =s? "" then no_headers
        else header_loop lines current (<[current := header hs current +:+ " " +:+ trim line]> hs) total known
      else
        match header_line line with
        | None => no_headers
        | Some (name, value) =>
            let current := to_lower name in
            header_loop lines current (<[current := value]> hs) (S total)
              (if str_mem current known_headers then S known else known)
        end
  end.
Definition parseHeaderBlock (headerBlock : string) : parsed := header_loop (split headerBlock lfs) "" ∅ 0 0.

Definition parseMimeEntity : nat -> headers -> string -> res entity :=
  Mime.parseMimeEntity decodeMailBody (htmlToDisplayText DOMParser).

Definition looksLikeFullMessageHeaders (p : parsed) : bool :=
  (if p_headers p is Some _ then true else false) && (2 <=? totalHeaders p)%nat && (2 <=? knownHeaders p)%nat.

Definition looksLikeMimeEntityHeaders (p : parsed) : bool :=
  match p_headers p with
  | None => false
  | Some hs =>
      let get k := to_lower (trim (header hs k)) in
      let contentType := get "content-type" in
      let transferEncoding := get "content-transfer-encoding" in
      negb (contentType =s? "") &&
      (starts_with contentType "multipart/" || starts_with contentType "text/" ||
       includes (get "content-disposition") "attachment" ||
       (transferEncoding =s? "base64") || (transferEncoding =s? "quoted-printable"))
  end.

Definition looksLikeDisplayableEnvelope (p : parsed) : bool :=
  looksLikeFullMessageHeaders p || looksLikeMimeEntityHeaders p.

Definition HEADER_LIMIT : Z := 32 * 1024.

Definition extractDisplayEnvelope (text : string) : res envelope :=
  let normalized := crlf_to_lf text in
  let raw := Ok (Envelope text "" []) in
  match index_of normalized blank_line with
  | Some (S i) =>
      let headerBlock := stake (S i) normalized in
      if (HEADER_LIMIT <? Z.of_nat (String.length headerBlock))%Z then raw
      else
        let p := parseHeaderBlock headerBlock in
        match looksLikeDisplayableEnvelope p, p_headers p with
        | true, Some hs => envelope_of decodeMailBody (htmlToDisplayText DOMParser) hs (sdrop (S i + 2) normalized)
        | _, _ => raw
        end
  | _ => raw
  end.

Definition extractDisplayBody (text : string) : res string := e <~ extractDisplayEnvelope text ;; Ok (e_text e).
End App.
End App.

(** ** Lemmas on text *)

Lemma trim_end_app_ws a w : all_chars is_ws w = true -> trim_end (a +:+ w) = trim_end a.
Proof.
  intros Hw. induction a as [|c a IH]; cbn [String.append trim_end].
  - induction w as [|d w IHw]; [done|]. cbn [all_chars] in Hw. apply andb_true_iff in Hw as [Hd Hw].
    cbn [trim_end]. by rewrite (IHw Hw), Hd.
  - by rewrite IH.
Qed.
Lemma trim_start_ws w a : all_chars is_ws w = true -> trim_start (w +:+ a) = trim_start a.
Proof.
  induction w as [|c w IH]; [done|]. cbn [all_chars String.append trim_start]. intros [-> Hw]%andb_true_iff. by apply IH.
Qed.
Lemma trim_all_ws w : all_chars is_ws w = true -> trim w = "".
Proof.
  intros Hw. unfold trim. rewrite <- (sapp_nil_r w), trim_start_ws by done. reflexivity.
Qed.
Lemma trim_app_ws p w : all_chars is_ws w = true -> trim (p +:+ w) = trim p.
Proof.
  intros Hw. induction p as [|c p IH]; [by apply trim_all_ws|]. unfold trim in *. cbn [String.append trim_start].
  destruct (is_ws c); [exact IH|]. exact (trim_end_app_ws (String c p) w Hw).
Qed.
(** White space around a text does not survive [trim]. *)
Lemma trim_around w p w' : all_chars is_ws w = true -> all_chars is_ws w' = true -> trim (w +:+ p +:+ w') = trim p.
Proof. intros Hw Hw'. unfold trim. rewrite trim_start_ws by done. by apply trim_app_ws. Qed.

Lemma span_chars_stop p a c r : all_chars p a = true -> p c = false -> span_chars p (a +:+ String c r) = (a, String c r).
Proof.
  intros Ha Hc. induction a as [|d a IH]; cbn [String.append span_chars]; [by rewrite Hc|].
  cbn [all_chars] in Ha. apply andb_true_iff in Ha as [-> Ha]. by rewrite (IH Ha).
Qed.

Lemma some_char_no c s : some_char (Ascii.eqb c) s = negb (no_char c s).
Proof. unfold no_char. induction s as [|d s IH]; [done|]. cbn [some_char all_chars]. rewrite IH. by destruct (Ascii.eqb c d). Qed.

(** ** Headers read back *)

(** A header field as it is written: name, value, continuation lines. *)
Record field_spec := FieldSpec { f_name : string; f_value : string; f_folds : list string }.

Definition field_lines (f : field_spec) : list string :=
  (f_name f +:+ ": " +:+ f_value f) :: map (fun c => " " +:+ c) (f_folds f).
Definition print_headers (fs : list field_spec) : string := join lfs (fs ≫= field_lines).

(** The value with its continuation lines unfolded. *)
Definition unfolded (f : field_spec) : string := foldl (fun v c => v +:+ " " +:+ trim c) (f_value f) (f_folds f).
Definition header_map (fs : list field_spec) : headers :=
  foldl (fun m f => <[to_lower (f_name f) := unfolded f]> m) ∅ fs.

Definition one_line (s : string) : bool := no_char lf s && no_char cr s.
Definition valid_field (f : field_spec) : bool :=
  negb (f_name f =s? "") && all_chars header_char (f_name f) && one_line (f_value f) &&
  (trim_start (f_value f) =s? f_value f) && forallb (fun c => no_char lf c) (f_folds f).

Lemma header_char_props c : header_char c = true -> c <> ":"%char /\ c <> " "%char /\ c <> tab /\ c <> lf.
Proof. revert c. by_char. Qed.

Lemma header_line_print f : valid_field f = true ->
  header_line (f_name f +:+ ": " +:+ f_value f) = Some (f_name f, f_value f).
Proof.
  unfold valid_field, one_line, header_line. rewrite !andb_true_iff, !negb_true_iff.
  intros ((((Hn & Hc) & _ & Hcr) & Ht) & _). change (": " +:+ f_value f) with (String ":" (" " +:+ f_value f)).
  rewrite span_chars_stop by done. rewrite Hn. cbn [String.append trim_start is_ws orb].
  change (is_ws " ") with true. cbn [orb]. apply String.eqb_eq in Ht. rewrite Ht.
  by rewrite some_char_no, Hcr.
Qed.

Lemma field_line_plain f : valid_field f = true -> Forall (fun l => plain_line l = true) (field_lines f).
Proof.
  unfold valid_field, field_lines, one_line. rewrite !andb_true_iff, negb_true_iff.
  intros ((((Hn & Hc) & Hlf & _) & _) & Hf). constructor.
  - unfold plain_line. apply andb_true_iff. split; [by destruct (f_name f)|].
    unfold no_char. rewrite !all_chars_app. rewrite andb_true_iff, andb_true_iff. split; [|split; [done|exact Hlf]].
    eapply all_chars_mono; [|exact Hc]. intros c Hh. apply negb_true_iff, Ascii.eqb_neq.
    intros <-. by apply header_char_props in Hh as (_ & _ & _ & ?).
  - apply Forall_fmap, Forall_forall. intros c Hin. unfold plain_line. cbn. rewrite forallb_forall in Hf.
    apply Hf, list_elem_of_In. exact Hin.
Qed.

Lemma not_indented_print f : valid_field f = true ->
  indented (f_name f +:+ ": " +:+ f_value f) = false /\ (f_name f +:+ ": " +:+ f_value f =s? "") = false.
Proof.
  unfold valid_field. rewrite !andb_true_iff. intros ((((Hn & Hc) & _) & _) & _).
  destruct (f_name f) as [|c n]; [done|]. split; [|done]. cbn [String.append indented all_chars] in *.
  apply andb_true_iff in Hc as [Hc _]. apply header_char_props in Hc as (_ & H1 & H2 & _).
  apply orb_false_iff. by rewrite !Ascii.eqb_neq.
Qed.

Lemma header_set (hs : headers) k v : header (<[k := v]> hs) k = v.
Proof. unfold header, headers in *. by rewrite lookup_insert_eq. Qed.

(** The lines of a field are consumed, and leave its unfolded value. *)
Lemma folds_loop folds lines cur hs :
  cur <> "" ->
  header_loop (map (fun c => " " +:+ c) folds ++ lines) cur hs =
  header_loop lines cur (if folds is [] then hs else <[cur := foldl (fun v c => v +:+ " " +:+ trim c) (header hs cur) folds]> hs).
Proof.
  intros Hc. revert hs. induction folds as [|c folds IH]; intros hs; [done|].
  cbn [map app header_loop String.append]. change (String " " c =s? "") with false. cbn [indented Ascii.eqb].
  change (indented (String " " c)) with true. apply String.eqb_neq in Hc as Hb. rewrite Hb.
  change (trim (String " " c)) with (trim c). rewrite IH.
  destruct folds as [|d folds]; [done|]. rewrite header_set. unfold headers in *. by rewrite insert_insert_eq.
Qed.

Lemma field_loop f lines cur hs : valid_field f = true ->
  header_loop (field_lines f ++ lines) cur hs = header_loop lines (to_lower (f_name f)) (<[to_lower (f_name f) := unfolded f]> hs).
Proof.
  intros Hv. destruct (not_indented_print f Hv) as [Hi He]. unfold field_lines. cbn [app header_loop].
  rewrite He, Hi, (header_line_print f Hv).
  assert (to_lower (f_name f) <> "") as Hne.
  { unfold valid_field in Hv. rewrite !andb_true_iff in Hv. destruct Hv as ((((Hn & _) & _) & _) & _). by destruct (f_name f). }
  rewrite folds_loop by done. unfold unfolded. destruct (f_folds f) as [|c folds]; [done|].
  rewrite header_set. unfold headers in *. by rewrite insert_insert_eq.
Qed.

Lemma fields_loop fs cur hs : Forall (fun f => valid_field f = true) fs ->
  header_loop (fs ≫= field_lines) cur hs = Some (foldl (fun m f => <[to_lower (f_name f) := unfolded f]> m) hs fs).
Proof.
  intros H. revert cur hs. induction H as [|f fs Hf _ IH]; intros cur hs; [done|].
  cbn [mbind list_bind foldl]. rewrite field_loop by done. apply IH.
Qed.

Lemma fields_plain fs : Forall (fun f => valid_field f = true) fs -> Forall (fun l => plain_line l = true) (fs ≫= field_lines).
Proof. induction 1 as [|f fs Hf _ IH]; [constructor|]. cbn [mbind list_bind]. apply Forall_app. split; [by apply field_line_plain|exact IH]. Qed.

Lemma fields_lines_nonempty fs : fs <> [] -> fs ≫= field_lines <> [].
Proof. by destruct fs. Qed.

(** A header block reads back: whatever fields are written, folded or not,
    the parser returns the map from the names in lower case to the unfolded
    values, the last field of a name winning. *)
Theorem header_block_roundtrip fs :
  fs <> [] -> Forall (fun f => valid_field f = true) fs -> parseHeaderBlock (print_headers fs) = Some (header_map fs).
Proof.
  intros Hne H. unfold parseHeaderBlock, print_headers, lfs. rewrite split_lines.
  - by apply fields_loop.
  - by apply fields_lines_nonempty.
  - eapply Forall_impl; [by apply fields_plain|]. intros l. unfold plain_line. by rewrite andb_true_iff; intros [_ ?].
Qed.

(** The headers and the body of a part that is written as such. *)
Lemma part_of_print fs body :
  fs <> [] -> Forall (fun f => valid_field f = true) fs ->
  part_of (print_headers fs +:+ blank_line +:+ body) = Some (header_map fs, body).
Proof.
  intros Hne H. pose proof (header_block_roundtrip fs Hne H) as Hp.
  pose proof (fields_plain fs H) as Hl. pose proof (fields_lines_nonempty fs Hne) as Hln.
  assert (index_of (print_headers fs +:+ blank_line +:+ body) blank_line = Some (String.length (print_headers fs))) as Hi
    by exact (find_blank_line _ body Hl).
  assert (print_headers fs <> "") as Hj by exact (join_nonempty lf _ Hln Hl).
  unfold part_of. rewrite Hi. destruct (print_headers fs) as [|c s] eqn:E; [done|]. cbn [String.length].
  change (S (String.length s)) with (String.length (String c s)). rewrite stake_app, Hp. cbn [fmap option_fmap option_map].
  f_equal. f_equal. rewrite <- sapp_assoc. change 2 with (String.length blank_line). rewrite <- slength_app. apply sdrop_app.
Qed.

Definition sample_fields : list field_spec :=
  [FieldSpec "Content-Type" "multipart/mixed;" ["boundary=b1"]; FieldSpec "X-Note" "one" ["two "; " three"]].
Lemma header_block_roundtrip_witness :
  header (default ∅ (parseHeaderBlock (print_headers sample_fields))) "x-note" = "one two three".
Proof.
  rewrite (header_block_roundtrip sample_fields) by (discriminate || (repeat constructor)). vm_compute. reflexivity.
Defined.

(** ** Parts read back *)

Fixpoint print_parts (boundary : string) (parts : list string) : string :=
  match parts with
  | [] => "--" +:+ boundary +:+ "--" +:+ lfs
  | p :: ps => "--" +:+ boundary +:+ lfs +:+ p +:+ lfs +:+ print_parts boundary ps
  end.
Definition print_multipart (boundary preamble : string) (parts : list string) : string :=
  preamble +:+ lfs +:+ print_parts boundary parts.

Definition valid_boundary (b : string) : bool := negb (b =s? "") && no_char lf b.
(** A part as a composer leaves it: no white space around it, no delimiter in it. *)
Definition valid_part (b p : string) : bool :=
  negb (p =s? "") && (trim p =s? p) && negb (ends_with p "--") && negb (includes p ("--" +:+ b)).

Lemma split_parts b parts pre :
  valid_boundary b = true -> Forall (fun p => includes p ("--" +:+ b) = false) parts -> clear ("--" +:+ b) pre (print_parts b parts) = true ->
  split (pre +:+ print_parts b parts) ("--" +:+ b) =
  pre :: map (fun p => lfs +:+ p +:+ lfs) parts ++ ["--" +:+ lfs].
Proof.
  unfold valid_boundary. rewrite andb_true_iff, negb_true_iff. intros [Hb Hlf] Hp. revert pre.
  assert (forall s, "--" +:+ b +:+ s = ("--" +:+ b) +:+ s) as Hassoc by (intros; by rewrite sapp_assoc).
  assert ("--" +:+ b <> "") as Hne by done.
  assert (no_char lf ("--" +:+ b) = true) as Hn by exact Hlf.
  induction Hp as [|p ps Hi Hps IH]; intros pre; cbn [print_parts map app]; rewrite Hassoc; intros Hc;
    rewrite split_clear by done; f_equal.
  - apply split_clear_end. destruct b as [|c b]; [done|].
    apply (clear_piece _ "--"); [done|done|reflexivity].
  - rewrite <- !(sapp_assoc _ _ (print_parts _ _)). rewrite IH; [done|].
    unfold lfs. rewrite !clear_app. rewrite !clear_char by done. rewrite andb_true_r. cbn [andb].
    by apply clear_stop.
Qed.

Lemma trimmed_part_around p : trimmed_part (lfs +:+ p +:+ lfs) = trimmed_part p.
Proof. unfold trimmed_part. by rewrite trim_around. Qed.
Lemma valid_part_trimmed b p : valid_part b p = true -> trimmed_part p = Some p /\ includes p ("--" +:+ b) = false.
Proof.
  unfold valid_part, trimmed_part. rewrite !andb_true_iff, !negb_true_iff. intros (((Hne & Ht) & He) & Hi).
  apply String.eqb_eq in Ht. rewrite Ht, Hne. split; [|done]. destruct (p =s? "--") eqn:E.
  - apply String.eqb_eq in E as ->. discriminate He.
  - cbn [orb]. by rewrite He, Hne.
Qed.

(** The parts of a printed body, each as the splitter leaves it. *)
Lemma split_printed b preamble parts :
  valid_boundary b = true -> includes preamble ("--" +:+ b) = false ->
  Forall (fun p => includes p ("--" +:+ b) = false) parts ->
  splitMultipartBody (print_multipart b preamble parts) b =
  match trimmed_part (preamble +:+ lfs) with Some p => [p] | None => [] end ++ omap trimmed_part parts.
Proof.
  intros Hb Hpre Hp. unfold splitMultipartBody, print_multipart.
  rewrite <- sapp_assoc, split_parts; [|done|done|].
  - cbn [omap list_omap].
    replace (omap trimmed_part (map (fun p => lfs +:+ p +:+ lfs) parts ++ ["--" +:+ lfs])) with (omap trimmed_part parts).
    + by destruct (trimmed_part (preamble +:+ lfs)).
    + clear Hp. induction parts as [|p ps IH]; [done|]. cbn [map app omap list_omap]. by rewrite trimmed_part_around, IH.
  - apply clear_piece; [done| |done]. unfold valid_boundary in Hb. by apply andb_true_iff in Hb as [_ ?].
Qed.

(** A multipart body reads back: the parts that were written are returned in
    their order, unchanged, after the text before the first delimiter when that
    is not blank. *)
Theorem multipart_roundtrip b preamble parts :
  valid_boundary b = true -> includes preamble ("--" +:+ b) = false ->
  Forall (fun p => valid_part b p = true) parts ->
  splitMultipartBody (print_multipart b preamble parts) b =
  match trimmed_part (preamble +:+ lfs) with Some p => [p] | None => [] end ++ parts.
Proof.
  intros Hb Hpre Hp. rewrite split_printed; [|done|done|].
  - f_equal. induction Hp as [|p ps Hv _ IH]; [done|]. cbn [omap list_omap].
    by rewrite (proj1 (valid_part_trimmed b p Hv)), IH.
  - eapply Forall_impl; [exact Hp|]. intros p Hv. by apply (valid_part_trimmed b p).
Qed.
Lemma multipart_roundtrip_witness :
  splitMultipartBody (print_multipart "b1" "This is a message." ["A: 1"; "B: 2"]) "b1" = ["This is a message."; "A: 1"; "B: 2"].
Proof.
  rewrite (multipart_roundtrip "b1" "This is a message." ["A: 1"; "B: 2"]) by (reflexivity || (repeat constructor)).
  vm_compute. reflexivity.
Defined.

(** ** What a container shows *)

Definition all_attachments (cs : list entity) : list attachment := cs ≫= attachments.
Definition shown_html (cs : list entity) : string :=
  foldl (fun h c => if trim (bodyHtml c) =s? "" then h else bodyHtml c) "" cs.

(** [e] is what a container shows whose parts are [cs]: all attachments in
    order, the last HTML body that is not blank, and the text of the first of
    the parts with the highest score, none when no part has a positive one. *)
Definition container_of (cs : list entity) (e : entity) : Prop :=
  attachments e = all_attachments cs /\ bodyHtml e = shown_html cs /\
  Forall (fun c => (bodyScore c <= bodyScore e)%Z) cs /\
  ((bodyScore e = 0)%Z /\ bodyText e = "" \/
   exists l c r, cs = l ++ c :: r /\ bodyScore c = bodyScore e /\ bodyText c = bodyText e /\ (0 < bodyScore e)%Z /\
                 Forall (fun d => (bodyScore d < bodyScore e)%Z) l).

Lemma container_snoc cs e c : container_of cs e -> container_of (cs ++ [c]) (merge e c).
Proof.
  intros (Ha & Hh & Hs & Ht). unfold merge, container_of. rewrite Forall_app, Forall_singleton.
  assert (all_attachments (cs ++ [c]) = attachments e ++ attachments c) as ->.
  { rewrite Ha. unfold all_attachments. rewrite bind_app. cbn. by rewrite app_nil_r. }
  assert (shown_html (cs ++ [c]) = if trim (bodyHtml c) =s? "" then bodyHtml e else bodyHtml c) as ->.
  { rewrite Hh. unfold shown_html. by rewrite foldl_app. }
  assert (0 <= bodyScore e)%Z as H0 by (destruct Ht as [[-> _]|(? & ? & ? & _ & _ & _ & ? & _)]; lia).
  destruct (bodyScore e <? bodyScore c)%Z eqn:E; cbn [attachments bodyHtml bodyScore bodyText].
  - apply Z.ltb_lt in E. split_and!; [done|done| |lia|].
    + eapply Forall_impl; [exact Hs|]. cbn. lia.
    + right. exists cs, c, []. split_and!; [done|done|done|lia|]. eapply Forall_impl; [exact Hs|]. cbn. lia.
  - apply Z.ltb_ge in E. split_and!; [done|done|done|lia|].
    destruct Ht as [?|(l & d & r & -> & ? & ? & ? & ?)]; [by left|]. right. exists l, d, (r ++ [c]).
    rewrite <- app_assoc. done.
Qed.

(** A container shows all attachments of its readable parts in order, the
    last HTML body that is not blank and the text of the first part of the
    highest score; parts without a header block are passed over, and the
    container fails only when a part fails. *)
Theorem container_shows_best parse parts e :
  merge_parts parse parts empty_entity = Ok e ->
  exists cs, Forall2 (fun p c => parse p.1 p.2 = Ok c) (omap part_of parts) cs /\ container_of cs e.
Proof.
  assert (forall cs0 acc, container_of cs0 acc -> merge_parts parse parts acc = Ok e ->
    exists cs, Forall2 (fun p c => parse p.1 p.2 = Ok c) (omap part_of parts) cs /\ container_of (cs0 ++ cs) e) as H.
  { induction parts as [|p parts IH]; intros cs0 acc Hc; cbn [merge_parts].
    - intros [= <-]. exists []. split; [constructor|by rewrite app_nil_r].
    - cbn [omap list_omap]. destruct (part_of p) as [[hs body]|]; [|by apply IH].
      intros (c & Hp & Hm)%res_bind_ok. destruct (IH _ _ (container_snoc _ _ c Hc) Hm) as (cs & Hf & Hcs).
      exists (c :: cs). split; [by constructor|]. by rewrite <- app_assoc in Hcs. }
  intros Hm. destruct (H [] empty_entity) as (cs & ? & ?); [|done|by exists cs].
  split_and!; [done|done|constructor|by left].
Qed.
Definition sample_parse (hs : headers) (body : string) : res entity :=
  Ok (Entity body "" (Z.of_nat (String.length body)) []).
Lemma container_shows_best_witness :
  exists e, merge_parts sample_parse ["A: 1" +:+ blank_line +:+ "xx"; "junk"; "B: 2" +:+ blank_line +:+ "yyy"] empty_entity = Ok e /\
  exists cs, Forall2 (fun p c => sample_parse p.1 p.2 = Ok c)
    (omap part_of ["A: 1" +:+ blank_line +:+ "xx"; "junk"; "B: 2" +:+ blank_line +:+ "yyy"]) cs /\ container_of cs e.
Proof. eexists. split; [vm_compute; reflexivity|]. apply container_shows_best. vm_compute. reflexivity. Defined.

(** ** Quoted-printable *)

(** Every byte escaped: what a composer may send. *)
Fixpoint qp_encode (bytes : string) : string :=
  match bytes with
  | EmptyString => ""
  | String c s => String "=" (String (hex_digit (byte c / 16)) (String (hex_digit (byte c mod 16)) (qp_encode s)))
  end.

Lemma qp_digits c :
  is_hex (hex_digit (byte c / 16)) = true /\ is_hex (hex_digit (byte c mod 16)) = true /\
  Ascii.eqb (hex_digit (byte c / 16)) lf = false /\ Ascii.eqb (hex_digit (byte c / 16)) cr = false /\
  Ascii.eqb (hex_digit (byte c / 16)) "=" = false /\ Ascii.eqb (hex_digit (byte c mod 16)) "=" = false /\
  char_of (hexs_val 0 (String (hex_digit (byte c / 16)) (String (hex_digit (byte c mod 16)) ""))) = c.
Proof.
  enough (is_hex (hex_digit (byte c / 16)) && is_hex (hex_digit (byte c mod 16)) &&
    negb (Ascii.eqb (hex_digit (byte c / 16)) lf) && negb (Ascii.eqb (hex_digit (byte c / 16)) cr) &&
    negb (Ascii.eqb (hex_digit (byte c / 16)) "=") && negb (Ascii.eqb (hex_digit (byte c mod 16)) "=") &&
    Ascii.eqb (char_of (hexs_val 0 (String (hex_digit (byte c / 16)) (String (hex_digit (byte c mod 16)) "")))) c = true) as H.
  { rewrite !andb_true_iff, !negb_true_iff, Ascii.eqb_eq in H. tauto. }
  revert c. by_char.
Qed.

Lemma remove_soft_breaks_encoded b : remove_soft_breaks (qp_encode b) = qp_encode b.
Proof.
  induction b as [|c b IH]; [done|]. destruct (qp_digits c) as (_ & _ & H1 & H2 & H3 & H4 & _).
  cbn [qp_encode remove_soft_breaks]. rewrite Ascii.eqb_refl, H1, H2, H3, H4. cbn [andb]. by rewrite IH.
Qed.

Lemma quoted_bytes_encoded b : quoted_bytes (qp_encode b) = b.
Proof.
  induction b as [|c b IH]; [done|]. destruct (qp_digits c) as (H1 & H2 & _ & _ & _ & _ & H3).
  cbn [qp_encode quoted_bytes]. by rewrite Ascii.eqb_refl, H1, H2, H3, IH.
Qed.

Lemma utf8_fixed s : utf8 s = s -> all_chars is_ascii s = true.
Proof.
  induction s as [|c s IH]; [done|]. cbn [utf8 all_chars]. unfold is_ascii at 1.
  destruct (code c <? 128)%N eqn:E; [intros [= H]; by rewrite IH|].
  intros [= H0 H]. exfalso. apply (f_equal String.length) in H. cbn [String.length] in H.
  assert (forall s, String.length s <= String.length (utf8 s))%nat as Hl.
  { clear. induction s as [|c s IH]; [done|]. cbn [utf8]. destruct (code c <? 128)%N; cbn [String.length]; lia. }
  specialize (Hl s). lia.
Qed.

(** The two readers disagree on quoted-printable text: of the body that
    encodes the UTF-8 form of a text, the mail client shows the text, the
    protected page shows one character per byte, which is the text only when it is
    ASCII; of the base64 form both show the text. *)
Theorem quoted_printable_readers_disagree s :
  App.decodeMailBody (qp_encode (utf8 s)) "quoted-printable" = Ok s /\
  Open.decodeMailBody (qp_encode (utf8 s)) "quoted-printable" = Ok (utf8 s) /\
  (utf8 s = s <-> all_chars is_ascii s = true) /\
  App.decodeMailBody (btoa (utf8 s)) "base64" = Ok s /\
  Open.decodeMailBody (btoa (utf8 s)) "base64" = Ok s.
Proof.
  unfold App.decodeMailBody, Open.decodeMailBody, App.decode.
  change (normalizedEncoding "quoted-printable") with "quoted-printable".
  change (normalizedEncoding "base64") with "base64".
  change (is_identity_encoding "quoted-printable") with false. change (is_identity_encoding "base64") with false.
  change ("quoted-printable" =s? "quoted-printable") with true. change ("base64" =s? "quoted-printable") with false.
  change ("base64" =s? "base64") with true. cbv iota. rewrite base64ToBytes_btoa. cbn [res_bind].
  unfold Open.bytesToUtf8. rewrite decodeText_utf8, remove_soft_breaks_encoded, quoted_bytes_encoded. split_and!.
  - f_equal. unfold App.decodeQuotedPrintable. destruct (includes (qp_encode (utf8 s)) "=") eqn:E.
    + unfold quotedPrintableToBytes. by rewrite remove_soft_breaks_encoded, quoted_bytes_encoded, decodeText_utf8.
    + destruct s as [|c s]; [done|]. exfalso. cbn [utf8] in E.
      destruct (code c <? 128)%N; cbn [qp_encode] in E; apply includes_cons_false in E as [E _]; discriminate E.
  - done.
  - split; [apply utf8_fixed|apply utf8_ascii].
  - done.
  - done.
Qed.

(** One level of a container that is not a signed one. *)
Lemma parse_container dec html room hs body b :
  let ct := header hs "content-type" in
  isAttachment (kind_of ct) (header hs "content-disposition") (part_filename (header hs "content-disposition") ct) = false ->
  starts_with (kind_of ct) "multipart/" = true -> (kind_of ct =s? "multipart/signed") = false -> re_boundary ct = Some b ->
  parseMimeEntity dec html (S room) hs body = merge_parts (parseMimeEntity dec html room) (splitMultipartBody body b) empty_entity.
Proof. cbv zeta. intros H1 H2 H3 H4. cbn [parseMimeEntity]. by rewrite H1, H2, H4, H3. Qed.

(** The header loops of the two readers agree. *)
Lemma app_headers_agree block : App.p_headers (App.parseHeaderBlock block) = parseHeaderBlock block.
Proof.
  assert (forall lines cur hs t k, App.p_headers (App.header_loop lines cur hs t k) = header_loop lines cur hs) as H; [|apply H].
  induction lines as [|l lines IH]; intros cur hs t k; [done|].
  cbn [App.header_loop header_loop]. destruct (l =s? ""); [done|]. destruct (indented l).
  - destruct (cur =s? ""); [done|apply IH].
  - destruct (header_line l) as [[n v]|]; [apply IH|done].
Qed.

(** ** Whole messages read back *)

Lemma crlf_line l r : no_char cr l = true -> crlf_to_lf (l +:+ crlf +:+ r) = l +:+ lfs +:+ crlf_to_lf r.
Proof.
  unfold no_char. induction l as [|c l IH]; [done|]. cbn [all_chars String.append]. rewrite andb_true_iff, negb_true_iff.
  intros [Hc Hl]. specialize (IH Hl). cbn [crlf_to_lf]. rewrite <- IH, (Ascii.eqb_sym c cr), Hc. cbn [andb].
  by destruct (l +:+ crlf +:+ r).
Qed.
Lemma crlf_lines ls body :
  ls <> [] -> Forall (fun l => no_char cr l = true) ls ->
  crlf_to_lf (join crlf (ls ++ [""; body])) = join lfs ls +:+ blank_line +:+ crlf_to_lf body.
Proof.
  intros Hne H. induction H as [|l ls Hl Hls IH]; [done|]. destruct ls as [|l' ls].
  - cbn [app]. rewrite !join_cons by done. rewrite crlf_line by done.
    change (crlf_to_lf ("" +:+ crlf +:+ join crlf [body])) with ("" +:+ lfs +:+ crlf_to_lf body). done.
  - cbn [app] in *. rewrite join_cons by done. rewrite crlf_line by done. rewrite IH by done.
    rewrite (join_cons lfs l (l' :: ls)) by done. by rewrite !sapp_assoc.
Qed.

Lemma header_map_snoc fs f k :
  header (header_map (fs ++ [f])) k = if to_lower (f_name f) =s? k then unfolded f else header (header_map fs) k.
Proof.
  unfold header_map. rewrite foldl_app. cbn [foldl]. unfold header, headers.
  destruct (to_lower (f_name f) =s? k) eqn:E.
  - apply String.eqb_eq in E as ->. by rewrite lookup_insert_eq.
  - apply String.eqb_neq in E. by rewrite lookup_insert_ne.
Qed.
Lemma header_absent fs k : Forall (fun f => to_lower (f_name f) <> k) fs -> header (header_map fs) k = "".
Proof.
  induction fs as [|f fs IH] using rev_ind; [done|]. rewrite Forall_app, Forall_singleton. intros [Hf Hk].
  rewrite header_map_snoc. apply String.eqb_neq in Hk as ->. by apply IH.
Qed.

Definition known_count (fs : list field_spec) : nat :=
  length (List.filter (fun f => str_mem (to_lower (f_name f)) App.known_headers) fs).

Lemma app_folds_loop folds lines cur hs t k :
  cur <> "" ->
  App.header_loop (map (fun c => " " +:+ c) folds ++ lines) cur hs t k =
  App.header_loop lines cur (if folds is [] then hs else <[cur := foldl (fun v c => v +:+ " " +:+ trim c) (header hs cur) folds]> hs) t k.
Proof.
  intros Hc. revert hs. induction folds as [|c folds IH]; intros hs; [done|].
  cbn [map app App.header_loop String.append]. change (String " " c =s? "") with false.
  change (indented (String " " c)) with true. apply String.eqb_neq in Hc as Hb. rewrite Hb.
  change (trim (String " " c)) with (trim c). rewrite IH.
  destruct folds as [|d folds]; [done|]. rewrite header_set. unfold headers in *. by rewrite insert_insert_eq.
Qed.

Lemma app_fields_loop fs cur hs t k : Forall (fun f => valid_field f = true) fs ->
  App.header_loop (fs ≫= field_lines) cur hs t k =
  App.Parsed (Some (foldl (fun m f => <[to_lower (f_name f) := unfolded f]> m) hs fs)) (t + length fs) (k + known_count fs).
Proof.
  intros H. revert cur hs t k. induction H as [|f fs Hf _ IH]; intros cur hs t k; [cbn; by rewrite !Nat.add_0_r|].
  cbn [mbind list_bind foldl]. destruct (not_indented_print f Hf) as [Hi He]. unfold field_lines at 1.
  cbn [app App.header_loop]. rewrite He, Hi, (header_line_print f Hf).
  assert (to_lower (f_name f) <> "") as Hne.
  { unfold valid_field in Hf. rewrite !andb_true_iff in Hf. destruct Hf as ((((Hn & _) & _) & _) & _). by destruct (f_name f). }
  rewrite app_folds_loop by done. rewrite IH.
  assert ((if f_folds f is [] then <[to_lower (f_name f) := f_value f]> hs
           else <[to_lower (f_name f) := foldl (fun v c => v +:+ " " +:+ trim c)
                    (header (<[to_lower (f_name f) := f_value f]> hs) (to_lower (f_name f))) (f_folds f)]>
                  (<[to_lower (f_name f) := f_value f]> hs)) = <[to_lower (f_name f) := unfolded f]> hs) as ->.
  { unfold unfolded. destruct (f_folds f); [done|]. rewrite header_set. unfold headers in *. by rewrite insert_insert_eq. }
  unfold known_count. cbn [List.filter length]. f_equal; [lia|]. destruct (str_mem _ _); cbn [length]; lia.
Qed.

(** A message whose header block is written as such is recognised, and its
    entity is what the parser makes of the header map and the body. *)
Lemma extract_print DOM fs text body :
  fs <> [] -> Forall (fun f => valid_field f = true) fs ->
  (Z.of_nat (String.length (print_headers fs)) <= App.HEADER_LIMIT)%Z -> 2 <= known_count fs ->
  crlf_to_lf text = print_headers fs +:+ blank_line +:+ body ->
  App.extractDisplayEnvelope DOM text = envelope_of App.decodeMailBody (htmlToDisplayText DOM) (header_map fs) body.
Proof.
  intros Hne H Hlen Hk Ht. pose proof (fields_plain fs H) as Hl. pose proof (fields_lines_nonempty fs Hne) as Hln.
  assert (App.parseHeaderBlock (print_headers fs) = App.Parsed (Some (header_map fs)) (length fs) (known_count fs)) as Hp.
  { unfold App.parseHeaderBlock, print_headers, lfs. rewrite split_lines.
    - by rewrite app_fields_loop.
    - done.
    - eapply Forall_impl; [exact Hl|]. intros l. unfold plain_line. by rewrite andb_true_iff; intros [_ ?]. }
  assert (index_of (crlf_to_lf text) blank_line = Some (String.length (print_headers fs))) as Hi
    by (rewrite Ht; exact (find_blank_line _ body Hl)).
  assert (print_headers fs <> "") as Hj by exact (join_nonempty lf _ Hln Hl).
  unfold App.extractDisplayEnvelope. rewrite Hi, Ht. destruct (print_headers fs) as [|c s] eqn:E; [done|]. cbn [String.length].
  change (S (String.length s)) with (String.length (String c s)). rewrite stake_app.
  assert ((App.HEADER_LIMIT <? Z.of_nat (String.length (String c s)))%Z = false) as -> by (apply Z.ltb_ge; exact Hlen).
  rewrite Hp. unfold App.looksLikeDisplayableEnvelope, App.looksLikeFullMessageHeaders. cbn [App.p_headers App.totalHeaders App.knownHeaders].
  assert (2 <= length fs) as Hf by (unfold known_count in Hk; pose proof (List.filter_length_le (fun f => str_mem (to_lower (f_name f)) App.known_headers) fs); lia).
  rewrite (proj2 (Nat.leb_le _ _) Hf), (proj2 (Nat.leb_le _ _) Hk). cbn [andb orb].
  rewrite <- sapp_assoc. change 2 with (String.length blank_line). rewrite <- slength_app. by rewrite sdrop_app.
Qed.
