(* ===== verification/Payload.v ===== *)
(** * OpenPGP payloads

    How [auth/unlock.js] and [mail/search/worker.js] find the OpenPGP message in
    what the server stored (armored text, binary packets, a PGP/MIME message),
    and how [auth/unlock.js] finds signed material inside a decrypted message. *)
From Stdlib Require Import ZArith NArith Lia Ascii.
From stdpp Require Import gmap strings.
From S2P Require Import Prelude JsString JsValue Split Base64 Text Signature Patterns HtmlText Mime.

(** ** Armor *)

Definition looksLikeArmoredMessage (text : string) : bool :=
  starts_with (trim_start text) BEGIN_MESSAGE || starts_with (trim_start text) BEGIN_SIGNED.

Definition extractArmoredBlock (text : string) : string :=
  block_text [BEGIN_MESSAGE; BEGIN_SIGNED] [END_MESSAGE; END_SIGNATURE] text.

Definition extractArmoredCleartextSignedBlock (text : string) : string := block_text [BEGIN_SIGNED] [END_SIGNATURE] text.
Definition extractArmoredDetachedSignatureBlob (text : string) : string := block_text [BEGIN_SIGNATURE] [END_SIGNATURE] text.

(** The decoders of [auth/unlock.js] are those of the mail client. *)
Definition parseMimeHeaders : string -> option headers := Mime.parseHeaderBlock.
Definition quotedPrintableToBytes : string -> string := Mime.quotedPrintableToBytes.
Definition decodeTransferBytes : string -> string -> res string := Mime.decodeTransferBytes.

(** ** PGP/MIME *)

(** [/version:\s*1/i] *)
Fixpoint re_version_1 (s : string) : bool :=
  (ci_starts_with s "version:" && starts_with (trim_start (sdrop 8 s)) "1") ||
  match s with String _ s => re_version_1 s | EmptyString => false end.

(** One part of the body: [None] to go on to the next, else what it holds. *)
Definition payload_part (rawPart : string) : option (res string) :=
  let part := trim rawPart in
  if (part =s? "") || (part =s? "--") then None
  else
    let part := if ends_with part "--" then trim (sinit 2 part) else part in
    match part_of part with
    | None => None
    | Some (hs, body) =>
        let partBody := trim_lf_end (trim_lf_start body) in
        let partType := header hs "content-type" in
        let is_pgp := ci_includes partType "application/pgp-encrypted" in
        if is_pgp && re_version_1 partBody then None
        else if ci_includes partType "application/octet-stream" || is_pgp || looksLikeArmoredMessage partBody then
          Some (decoded <~ decodeTransferBytes partBody (header hs "content-transfer-encoding") ;;
                let armored := extractArmoredBlock (decodeText decoded) in
                Ok (if armored =s? "" then decoded else utf8 armored))
        else None
    end.

Fixpoint first_payload (rawParts : list string) : res (option string) :=
  match rawParts with
  | [] => Ok None
  | p :: ps => match payload_part p with None => first_payload ps | Some r => b <~ r ;; Ok (Some b) end
  end.

Definition extractPGPMimePayload (bytes : string) : res (option string) :=
  match part_of (crlf_to_lf (decodeText bytes)) with
  | None => Ok None
  | Some (hs, body) =>
      let contentType := header hs "content-type" in
      match re_boundary contentType with
      | Some b => if ci_includes contentType "multipart/encrypted" then first_payload (split body ("--" +:+ b)) else Ok None
      | None => Ok None
      end
  end.

(** The call of [openpgp.readMessage]. *)
Inductive pgp_source := ArmoredMessage (text : string) | BinaryMessage (data : string).

Definition read_bytes (bytes : string) : res pgp_source :=
  if looksLikeArmoredMessage (decodeText (stake 160 bytes)) then Ok (ArmoredMessage (decodeText bytes))
  else
    let embeddedArmored := extractArmoredBlock (decodeText bytes) in
    if negb (embeddedArmored =s? "") then Ok (ArmoredMessage embeddedArmored)
    else
      pgpMimePayload <~ extractPGPMimePayload bytes ;;
      match pgpMimePayload with
      | Some p =>
          if p =s? "" then Ok (BinaryMessage bytes)
          else
            let armored := extractArmoredBlock (decodeText p) in
            Ok (if armored =s? "" then BinaryMessage p else ArmoredMessage armored)
      | None => Ok (BinaryMessage bytes)
      end.

Inductive ciphertext := CText (text : string) | CBytes (bytes : string).

Definition readEncryptedMessage (c : ciphertext) : res pgp_source :=
  match c with
  | CText text =>
      let armored := extractArmoredBlock text in
      if armored =s? "" then read_bytes (utf8 text) else Ok (ArmoredMessage armored)
  | CBytes bytes => read_bytes bytes
  end.

(** ** Signed material inside a decrypted message *)

Fixpoint first_content_type (lines : list string) : string :=
  match lines with
  | [] => ""
  | line :: lines =>
      let line := trim line in
      let value := trim_start (sdrop 13 line) in
      if ci_starts_with line "content-type:" && negb (value =s? "") && negb (some_char (Ascii.eqb cr) value)
      then trim value else first_content_type lines
  end.
Definition extractContentTypeValue (headerText : string) : string :=
  first_content_type (split (crlf_to_lf headerText) lfs).

Definition extractMimeBoundary (contentTypeHeaderValue : string) : string :=
  trim (default "" (re_boundary_token contentTypeHeaderValue)).

Definition is_eol (c : ascii) : bool := Ascii.eqb c cr || Ascii.eqb c lf.
Fixpoint trim_eol_end (s : string) : string :=
  match s with
  | EmptyString => ""
  | String c s =>
      match trim_eol_end s with
      | EmptyString => if is_eol c then "" else String c ""
      | r => String c r
      end
  end.

(** One part: the line end after the delimiter goes, and the two hyphens of a
    closing delimiter. *)
Definition loose_part (p : string) : option string :=
  let p := if starts_with p crlf then sdrop 2 p else if starts_with p lfs then sdrop 1 p else p in
  let q := trim_eol_end p in
  let p := trim_end (if ends_with q "--" then sinit 2 q else p) in
  if p =s? "" then None else Some p.

Definition splitMimePartsLoose (body boundary : string) : list string :=
  let b := trim boundary in
  if b =s? "" then [] else omap loose_part (tl (split body ("--" +:+ b))).

(** The header of a text and what follows its first blank line, CRLF first. *)
Definition split_at_blank (text : string) : option (string * string) :=
  match index_of text crlf2 with
  | Some i => Some (stake i text, sdrop (i + 4) text)
  | None =>
      match index_of text blank_line with
      | Some i => Some (stake i text, sdrop (i + 2) text)
      | None => None
      end
  end.

Definition bad (error : string) : summary := Summary BadSignature true [] "" error.

Section Nested.
(** [openpgp.verify] of a detached signature over bytes, and
    [readCleartextMessage] with [verify], which an older library lacks; both
    with the keys. *)
Variable verify_detached : string -> string -> list vkey -> res (list signature).
Variable verify_cleartext : option (string -> list vkey -> res (list signature)).

Definition summarize_or_bad (r : res (list signature)) (keys : list vkey) : summary :=
  match r with Ok sigs => summarizeSignatureVerification sigs keys | Throw e => bad e end.

(** The signature part: its armored blob, or the error. *)
Definition detached_blob (sigPartRaw : string) : res string :=
  match split_at_blank sigPartRaw with
  | None => Throw "signature part malformed"
  | Some (_, sigBody) =>
      let sigArmored := extractArmoredDetachedSignatureBlob sigBody in
      if sigArmored =s? "" then Throw "missing detached signature" else Ok sigArmored
  end.

Definition verify_multipart (ctValue body : string) (keys : list vkey) : summary :=
  let boundary := extractMimeBoundary ctValue in
  if boundary =s? "" then bad "multipart/signed missing boundary"
  else
    match splitMimePartsLoose body boundary with
    | signedPart :: sigPartRaw :: _ =>
        match detached_blob sigPartRaw with
        | Throw e => bad e
        | Ok sigArmored => summarize_or_bad (verify_detached sigArmored (utf8 signedPart) keys) keys
        end
    | _ => bad "multipart/signed missing parts"
    end.

(** [keys]: what [readVerificationKeys] returned. *)
Definition verifyNestedSignedPayloadAfterDecrypt (decryptedRfc822 : string) (keys : list vkey) : option summary :=
  match keys with
  | [] => None
  | _ =>
      match split_at_blank decryptedRfc822 with
      | None => None
      | Some (headerText, body) =>
          let ctValue := extractContentTypeValue headerText in
          if (kind_of ctValue =s? "multipart/signed") && re_pgp_signature ctValue
          then Some (verify_multipart ctValue body keys)
          else
            let cleartextArmored := extractArmoredCleartextSignedBlock (trim_start body) in
            match verify_cleartext with
            | Some v => if cleartextArmored =s? "" then None else Some (summarize_or_bad (v cleartextArmored keys) keys)
            | None => None
            end
      end
  end.
End Nested.

(** ** Detached signatures *)

Lemma trim_eol_end_app s w : all_chars is_eol w = true -> trim_eol_end (s +:+ w) = trim_eol_end s.
Proof.
  intros Hw. induction s as [|c s IH]; cbn [String.append trim_eol_end].
  - induction w as [|d w IHw]; [done|]. cbn [all_chars] in Hw. apply andb_true_iff in Hw as [Hd Hw].
    cbn [trim_eol_end]. by rewrite (IHw Hw), Hd.
  - by rewrite IH.
Qed.

(** A part as it stands between two delimiter lines. *)
Definition between (s : string) : string := crlf +:+ s +:+ crlf.

Lemma loose_part_between s :
  ends_with (trim_eol_end s) "--" = false -> trim_end s <> "" -> loose_part (between s) = Some (trim_end s).
Proof.
  intros He Hs. unfold loose_part, between.
  assert (starts_with (crlf +:+ s +:+ crlf) crlf = true) as -> by (apply starts_with_spec; by eexists).
  change 2 with (String.length crlf). rewrite sdrop_app. rewrite trim_eol_end_app, He by done.
  rewrite trim_end_app_ws by done. by rewrite (proj2 (String.eqb_neq _ _) Hs).
Qed.

Lemma clear_between sep s z :
  sep <> "" -> no_char lf sep = true -> no_char cr sep = true -> includes s sep = false -> clear sep (between s) z = true.
Proof.
  intros Hne Hl Hc Hs. unfold between, crlf. change (String cr (String lf "")) with (String cr "" +:+ String lf "").
  rewrite !clear_app, !clear_char by done. cbn [andb]. rewrite !andb_true_r. by apply clear_stop.
Qed.

(** [preamble], two parts and the closing delimiter. *)
Definition print_signed (b preamble signed sig : string) : string :=
  preamble +:+ crlf +:+ ("--" +:+ b) +:+ between signed +:+ ("--" +:+ b) +:+ between sig +:+ ("--" +:+ b) +:+ ("--" +:+ crlf).

Definition mime_boundary (b : string) : bool := negb (b =s? "") && no_char lf b && no_char cr b && (trim b =s? b).

Lemma split_signed b preamble signed sig :
  mime_boundary b = true -> includes preamble ("--" +:+ b) = false -> includes signed ("--" +:+ b) = false ->
  includes sig ("--" +:+ b) = false ->
  split (print_signed b preamble signed sig) ("--" +:+ b) =
    [preamble +:+ crlf; between signed; between sig; "--" +:+ crlf].
Proof.
  unfold mime_boundary. rewrite !andb_true_iff, negb_true_iff. intros (((Hb & Hl) & Hc) & _) Hp Hs Hg.
  assert ("--" +:+ b <> "") as Hne by done.
  unfold print_signed. rewrite <- (sapp_assoc preamble crlf). rewrite split_clear; [|done|].
  2: { change crlf with (String cr "" +:+ String lf ""). rewrite !clear_app, !clear_char by done. cbn [andb].
       rewrite !andb_true_r. by apply clear_stop. }
  rewrite split_clear; [|done|by apply clear_between].
  rewrite split_clear; [|done|by apply clear_between]. do 3 f_equal.
  apply split_clear_end. destruct b as [|c b]; [done|]. change ("--" +:+ crlf) with ("--" +:+ String cr "" +:+ String lf "").
  rewrite !clear_app, !clear_char by done. cbn [andb]. rewrite andb_true_r. by apply clear_stop.
Qed.

(** The bytes a detached signature is checked against, when one is found: of a
    signed part, the text without the white space at its end. *)
Lemma signed_part_checked_trimmed verify_detached b preamble signed sig ctValue blob keys :
  mime_boundary b = true -> extractMimeBoundary ctValue = b ->
  includes preamble ("--" +:+ b) = false -> includes signed ("--" +:+ b) = false -> includes sig ("--" +:+ b) = false ->
  ends_with (trim_eol_end signed) "--" = false -> trim_end signed <> "" ->
  ends_with (trim_eol_end sig) "--" = false -> trim_end sig <> "" -> detached_blob (trim_end sig) = Ok blob ->
  verify_multipart verify_detached ctValue (print_signed b preamble signed sig) keys =
    summarize_or_bad (verify_detached blob (utf8 (trim_end signed)) keys) keys /\
  (utf8 (trim_end signed) = utf8 signed <-> trim_end signed = signed).
Proof.
  intros Hb Hct Hp Hs Hg Hse Hsn Hge Hgn Hblob. split.
  - unfold verify_multipart. rewrite Hct. pose proof Hb as Hb'. unfold mime_boundary in Hb'.
    rewrite !andb_true_iff, negb_true_iff in Hb'. destruct Hb' as (((Hb0 & _) & _) & Hbt).
    rewrite Hb0. unfold splitMimePartsLoose. apply String.eqb_eq in Hbt. rewrite Hbt, Hb0.
    rewrite split_signed by done. cbn [tl omap list_omap]. rewrite !loose_part_between by done. by rewrite Hblob.
  - split; [|congruence]. intros H. apply (f_equal decodeText) in H. by rewrite !decodeText_utf8 in H.
Qed.

(** A block is only found in a text that holds its last marker. *)
Lemma upto_marker_includes m s r : upto_marker [m] s = Some r -> includes s m = true.
Proof.
  revert r. induction s as [|c s IH]; intros r; cbn [upto_marker marker_at List.find]; unfold starts_with.
  - destruct (String.prefix m "") eqn:E; [|done]. intros _. apply prefix_spec in E as [x Hx].
    apply includes_spec. by exists "", x.
  - destruct (String.prefix m (String c s)) eqn:E.
    + intros _. apply prefix_spec in E as [x ->]. apply includes_spec. by exists "", x.
    + destruct (upto_marker [m] s) as [t|]; [|done]. intros _. specialize (IH t eq_refl).
      apply includes_spec in IH as (x & y & ->). apply includes_spec. by exists (String c x), y.
Qed.
Lemma includes_sdrop n s m : includes (sdrop n s) m = true -> includes s m = true.
Proof.
  intros (x & y & E)%includes_spec. apply includes_spec. exists (stake n s +:+ x), y.
  by rewrite sapp_assoc, <- E, stake_sdrop.
Qed.
Lemma find_block_includes from m s r : find_block from [m] s = Some r -> includes s m = true.
Proof.
  revert r. induction s as [|c s IH]; intros r; cbn [find_block]; [by destruct (marker_at from "") as [f|]; [destruct (upto_marker _ _) eqn:E; [intros _; apply upto_marker_includes in E; by destruct f|]|]|].
  destruct (marker_at from (String c s)) as [f|].
  - destruct (upto_marker [m] _) eqn:E; [|done]. intros _. apply upto_marker_includes in E. by apply includes_sdrop in E.
  - intros H. apply IH in H. apply (includes_sdrop 1 (String c s)). by destruct s.
Qed.
Lemma no_blob s : includes s END_SIGNATURE = false -> extractArmoredDetachedSignatureBlob s = "".
Proof.
  intros H. unfold extractArmoredDetachedSignatureBlob, block_text. destruct (find_block _ _ s) eqn:E; [|done].
  apply find_block_includes in E. congruence.
Qed.

Lemma split_at_blank_some s : includes s crlf2 = true -> exists h n, split_at_blank s = Some (h, sdrop n s).
Proof. unfold includes, split_at_blank. destruct (index_of s crlf2) as [i|]; [|done]. intros _. by eexists _, (i + 4). Qed.

Lemma trim_eol_end_stop s c : is_eol c = false -> trim_eol_end (s +:+ String c "") = s +:+ String c "".
Proof. intros Hc. induction s as [|d s IH]; cbn [String.append trim_eol_end]; [by rewrite Hc|]. rewrite IH. by destruct s. Qed.
Lemma trim_end_stop s c : is_ws c = false -> trim_end (s +:+ String c "") = s +:+ String c "".
Proof. intros Hc. induction s as [|d s IH]; cbn [String.append trim_end]; [by rewrite Hc|]. rewrite IH. by destruct s. Qed.
Lemma sinit_of_app a b : sinit (String.length b) (a +:+ b) = a.
Proof. unfold sinit. rewrite slength_app, Nat.add_sub. apply stake_app. Qed.

(** What is left of a part that ends with the closing armor line. *)
Definition END_CUT : string := "-----END PGP SIGNATURE---".
Lemma loose_part_armor h w :
  all_chars is_eol w = true -> loose_part (between (h +:+ END_SIGNATURE +:+ w)) = Some (h +:+ END_CUT).
Proof.
  intros Hw. unfold loose_part, between.
  assert (starts_with (crlf +:+ (h +:+ END_SIGNATURE +:+ w) +:+ crlf) crlf = true) as -> by (apply starts_with_spec; by eexists).
  rewrite (sdrop_app crlf ((h +:+ END_SIGNATURE +:+ w) +:+ crlf) : sdrop 2 _ = _).
  assert (trim_eol_end ((h +:+ END_SIGNATURE +:+ w) +:+ crlf) = h +:+ END_SIGNATURE) as ->.
  { rewrite trim_eol_end_app by done. rewrite <- (sapp_assoc h), trim_eol_end_app by done.
    change END_SIGNATURE with ("-----END PGP SIGNATURE----" +:+ String "-" ""). rewrite <- (sapp_assoc h).
    by apply trim_eol_end_stop. }
  change END_SIGNATURE with (END_CUT +:+ "--"). rewrite <- (sapp_assoc h).
  assert (ends_with ((h +:+ END_CUT) +:+ "--") "--" = true) as -> by (apply ends_with_spec; by eexists).
  rewrite (sinit_of_app (h +:+ END_CUT) "--" : sinit 2 _ = _).
  change END_CUT with ("-----END PGP SIGNATURE--" +:+ String "-" ""). rewrite <- (sapp_assoc h), trim_end_stop by done.
  destruct ((h +:+ "-----END PGP SIGNATURE--") +:+ String "-" "") eqn:E; [|done].
  apply (f_equal String.length) in E. rewrite !slength_app in E. cbn in E. lia.
Qed.

(** A detached signature is never found: a signature part ends with the
    closing line of its armor, the splitter takes the last two hyphens of that line
    for the end of the message, and every message of type multipart/signed is
    reported as a bad signature, whatever was signed and with whatever keys. *)
Theorem detached_signature_never_found verify_detached b preamble signed h w ctValue keys :
  mime_boundary b = true -> extractMimeBoundary ctValue = b ->
  includes preamble ("--" +:+ b) = false -> includes signed ("--" +:+ b) = false ->
  includes (h +:+ END_SIGNATURE +:+ w) ("--" +:+ b) = false ->
  ends_with (trim_eol_end signed) "--" = false -> trim_end signed <> "" ->
  includes h crlf2 = true -> includes (h +:+ END_CUT) END_SIGNATURE = false -> all_chars is_eol w = true ->
  verify_multipart verify_detached ctValue (print_signed b preamble signed (h +:+ END_SIGNATURE +:+ w)) keys =
    bad "missing detached signature".
Proof.
  intros Hb Hct Hp Hs Hg Hse Hsn Hh Hm Hw.
  unfold verify_multipart. rewrite Hct. pose proof Hb as Hb'. unfold mime_boundary in Hb'.
  rewrite !andb_true_iff, negb_true_iff in Hb'. destruct Hb' as (((Hb0 & _) & _) & Hbt).
  rewrite Hb0. unfold splitMimePartsLoose. apply String.eqb_eq in Hbt. rewrite Hbt, Hb0.
  rewrite split_signed by done. cbn [tl omap list_omap]. rewrite loose_part_between, loose_part_armor by done.
  unfold detached_blob. destruct (split_at_blank_some (h +:+ END_CUT)) as (hd & n & ->).
  - apply includes_spec in Hh as (x & y & ->). apply includes_spec. exists x, (y +:+ END_CUT). by rewrite !sapp_assoc.
  - rewrite no_blob; [done|]. apply not_true_iff_false. intros Hi%includes_sdrop. congruence.
Qed.

Definition sample_sig : string := "Content-Type: application/pgp-signature" +:+ crlf2 +:+ BEGIN_SIGNATURE +:+ crlf +:+ "wnUE" +:+ crlf.
Definition sample_signed : string :=
  "Content-Type: multipart/signed; protocol=application/pgp-signature; boundary=b1" +:+ crlf2 +:+
  print_signed "b1" "" ("A: 1" +:+ crlf2 +:+ "text") (sample_sig +:+ END_SIGNATURE +:+ "").
Lemma detached_signature_never_found_witness :
  verifyNestedSignedPayloadAfterDecrypt (fun _ _ _ => Ok [Signature None VResolves]) None sample_signed [Some "AA"] =
  Some (bad "missing detached signature").
Proof.
  refine (eq_trans _ (f_equal Some (detached_signature_never_found (fun _ _ _ => Ok [Signature None VResolves]) "b1" ""
    ("A: 1" +:+ crlf2 +:+ "text") sample_sig ""
    "multipart/signed; protocol=application/pgp-signature; boundary=b1" [Some "AA"] _ _ _ _ _ _ _ _ _ _)));
    first [discriminate | vm_compute; reflexivity].
Defined.
