(* ===== verification/Addresses.v ===== *)
(** * Mail addresses

    The address helpers of the two front ends: the list splitters of
    [compose.jsx] and [mail-app.jsx], the canonical forms, and
    [lib/mail-address.js]. *)
From Stdlib Require Import ZArith NArith Lia Ascii.
From S2P Require Import Prelude JsString JsValue Split Patterns.

(** ** Address lists *)

(** [cur.replace(/\s+/g, " ").trim()], dropped when empty. *)
Definition push_token (cur : string) : list string :=
  let t := trim (collapse_ws " " cur) in if t =s? "" then [] else [t].

(** The loop: separators count outside angle brackets only. *)
Fixpoint split_addresses (is_sep : ascii -> bool) (depth : nat) (cur : string) (raw : string) : list string :=
  match raw with
  | EmptyString => push_token cur
  | String c raw =>
      if Ascii.eqb c dquote_char then split_addresses is_sep depth (cur +:+ String c "") raw
      else
        let depth := if Ascii.eqb c "<" then S depth else if Ascii.eqb c ">" then Nat.pred depth else depth in
        if is_sep c && (depth =? 0) then push_token cur ++ split_addresses is_sep depth "" raw
        else split_addresses is_sep depth (cur +:+ String c "") raw
  end.

Definition one_line_list (value : string) : string := trim (replace_all lfs " " (crlf_to_lf value)).

Definition splitAddressList (value : string) : list string :=
  let raw := one_line_list value in
  if raw =s? "" then [] else split_addresses (fun c => Ascii.eqb c "," || Ascii.eqb c ";") 0 "" raw.

(** [[A-Z0-9._%+-]], any case *)
Definition local_char (c : ascii) : bool :=
  is_alnum c || Ascii.eqb c "." || Ascii.eqb c "_" || Ascii.eqb c "%" || Ascii.eqb c "+" || Ascii.eqb c "-".

Definition bracket_address (raw : string) : option string := (fun p => p.1 +:+ "@" +:+ p.2) <$> re_bracket raw.

Definition canonicalEmailToken (display : string) : string :=
  let raw := trim display in
  if raw =s? "" then ""
  else match bracket_address raw with
       | Some a => to_lower (trim a)
       | None => match re_email local_char raw with Some a => to_lower (trim a) | None => to_lower raw end
       end.

Definition nonempty (l : list string) : list string := List.filter (fun s => negb (s =s? "")) l.

Definition toRecipientsForPGP (toField : string) : list string := nonempty (map canonicalEmailToken (splitAddressList toField)).
Definition singleComposeRecipient (toField : string) : string :=
  match toRecipientsForPGP toField with [x] => x | _ => "" end.

(** ** mail-app.jsx *)

Definition splitMailAddressListHeader (value : string) : list string :=
  let raw := one_line_list value in
  if raw =s? "" then [] else split_addresses (fun c => Ascii.eqb c ",") 0 "" raw.

(** ** lib/mail-address.js *)

(** The characters of the local part of an address. *)
Definition sender_char (c : ascii) : bool :=
  is_alnum c || some_char (Ascii.eqb c) ".!#$%&'*+/=?^_`{|}~-".

Definition canonicalizeSenderId (fromValue : string) : string :=
  let raw := trim fromValue in
  if raw =s? "" then ""
  else match bracket_address raw with
       | Some a => to_lower (trim a)
       | None => match re_email sender_char raw with
                 | Some a => to_lower (trim a)
                 | None => to_lower (collapse_ws " " raw)
                 end
       end.

(** [typeof v.k === "string" && v.k.trim()] *)
Definition trimmed_field (k : string) (fs : list (string * jsval)) : string :=
  match field k fs with JStr s => trim s | _ => "" end.
Definition extractArmoredPublicKey (record : jsval) : string :=
  match record with
  | JObj fs => str_or (trimmed_field "armored_public" fs) (str_or (trimmed_field "armoredPub" fs) (trimmed_field "armored" fs))
  | _ => ""
  end.

Definition upper_hex (c : ascii) : bool := in_range 48 57 c || in_range 65 70 c.
Definition normalizeFingerprintHex (s : string) : string := filter_chars upper_hex (to_upper s).

Definition fingerprintsMatch (a b : string) : bool :=
  let x := normalizeFingerprintHex a in
  let y := normalizeFingerprintHex b in
  if (x =s? "") || (y =s? "") then false
  else if x =s? y then true
  else (16 <=? String.length x) && (16 <=? String.length y) &&
       (ends_with x (slast 16 y) || ends_with y (slast 16 x)).

(** ** Lists read back *)

(** No separator outside angle brackets, and every bracket closed at the end. *)
Fixpoint closed_token (is_sep : ascii -> bool) (depth : nat) (t : string) : bool :=
  match t with
  | EmptyString => depth =? 0
  | String c t =>
      if Ascii.eqb c dquote_char then closed_token is_sep depth t
      else
        let depth := if Ascii.eqb c "<" then S depth else if Ascii.eqb c ">" then Nat.pred depth else depth in
        negb (is_sep c && (depth =? 0)) && closed_token is_sep depth t
  end.

(** An address as it is displayed: one line, single spaces, none at the ends. *)
Definition clean_token (is_sep : ascii -> bool) (t : string) : bool :=
  negb (t =s? "") && (trim t =s? t) && (collapse_ws " " t =s? t) && no_char lf t && no_char cr t && closed_token is_sep 0 t.

Lemma split_token is_sep depth cur t rest :
  closed_token is_sep depth t = true ->
  split_addresses is_sep depth cur (t +:+ rest) = split_addresses is_sep 0 (cur +:+ t) rest.
Proof.
  revert depth cur. induction t as [|c t IH]; intros depth cur; cbn [closed_token].
  - intros ->%Nat.eqb_eq. by rewrite sapp_nil_r.
  - cbn [String.append split_addresses]. rewrite (sapp_cons c t), <- sapp_assoc.
    destruct (Ascii.eqb c dquote_char); [by apply IH|]. intros [H1%negb_true_iff H2]%andb_true_iff. rewrite H1. by apply IH.
Qed.

Lemma push_clean is_sep t : clean_token is_sep t = true -> push_token t = [t] /\ push_token (" " +:+ t) = [t].
Proof.
  unfold clean_token, push_token. rewrite !andb_true_iff, negb_true_iff. intros (((((Hne & Ht) & Hc) & _) & _) & _).
  apply String.eqb_eq in Ht, Hc. rewrite Hc, Ht, Hne. split; [done|].
  assert (trim (collapse_ws " " (" " +:+ t)) = t) as ->; [|by rewrite Hne].
  destruct t as [|c t]; [done|]. pose proof (trim_nonempty_trimmed _ _ Ht) as Hw.
  unfold collapse_ws in *. cbn [String.append collapse_ws_go] in *. change (is_ws " ") with true. cbv iota.
  rewrite Hw in *. cbn [String.append]. rewrite Hc. unfold trim in *. cbn [trim_start] in *. change (is_ws " ") with true. cbv iota.
  rewrite Hw in *. exact Ht.
Qed.

Lemma split_list is_sep l cur :
  is_sep ","%char = true -> Forall (fun t => clean_token is_sep t = true) l -> l <> [] -> (cur = "" \/ cur = " ") ->
  split_addresses is_sep 0 cur (join ", " l) = l.
Proof.
  intros Hs H. revert cur. induction H as [|t l Ht Hl IH]; intros cur Hne Hcur; [done|].
  assert (push_token (cur +:+ t) = [t]) as Hp by (destruct (push_clean _ _ Ht); by destruct Hcur as [-> | ->]).
  assert (closed_token is_sep 0 t = true) as Hc by (unfold clean_token in Ht; by apply andb_true_iff in Ht as [_ ?]).
  destruct l as [|t' l].
  - cbn [join String.concat]. rewrite <- (sapp_nil_r t) at 1. by rewrite split_token.
  - rewrite join_cons by done. rewrite split_token by done. cbn [String.append split_addresses].
    change (Ascii.eqb "," dquote_char) with false. change (Ascii.eqb "," "<") with false. change (Ascii.eqb "," ">") with false.
    rewrite Hs. cbn [andb]. change (0 =? 0) with true. cbv iota. rewrite Hp. cbn [app]. f_equal.
    destruct (Ascii.eqb " " dquote_char) eqn:E; [discriminate E|]. change (Ascii.eqb " " "<") with false. change (Ascii.eqb " " ">") with false.
    cbv iota. destruct (is_sep " "%char && (0 =? 0)) eqn:E2; [|by apply IH; [|right]].
    rewrite andb_true_r in E2. cbn [push_token collapse_ws]. by apply IH; [|left].
Qed.

Lemma trim_end_app_keep a b : trim_end b <> "" -> trim_end (a +:+ b) = a +:+ trim_end b.
Proof.
  intros Hb. induction a as [|c a IH]; [done|]. cbn [String.append trim_end]. rewrite IH.
  destruct (a +:+ trim_end b) eqn:E; [|done]. by destruct a, (trim_end b).
Qed.

Lemma no_char_app c a b : no_char c (a +:+ b) = no_char c a && no_char c b.
Proof. apply all_chars_app. Qed.

Lemma list_one_line is_sep l : Forall (fun t => clean_token is_sep t = true) l -> l <> [] -> one_line_list (join ", " l) = join ", " l.
Proof.
  intros H Hne.
  assert (forall t, clean_token is_sep t = true -> no_char lf t = true /\ no_char cr t = true /\ trim t = t /\ t <> "") as Hc.
  { intros t. unfold clean_token. rewrite !andb_true_iff, negb_true_iff. intros (((((? & ?) & _) & ?) & ?) & _).
    split_and!; [done|done|by apply String.eqb_eq|by apply String.eqb_neq]. }
  assert (no_char lf (join ", " l) = true /\ no_char cr (join ", " l) = true) as [Hl Hr].
  { clear Hne. induction H as [|t l Ht _ IH]; [done|]. destruct (Hc t Ht) as (? & ? & _). destruct l as [|t' l]; [done|].
    rewrite join_cons by done. rewrite !no_char_app. destruct IH as [-> ->]. by repeat (apply conj || apply andb_true_iff). }
  unfold one_line_list. rewrite no_cr_crlf by done. unfold replace_all. rewrite split_clear_end by (by apply no_char_prefix).
  cbn [join String.concat]. clear Hl Hr.
  assert (trim_end (join ", " l) = join ", " l /\ (match join ", " l with String c _ => is_ws c = false | "" => False end)) as [He Hh].
  { induction H as [|t l Ht Hls IH]; [done|]. destruct (Hc t Ht) as (_ & _ & Htr & Hn).
    destruct t as [|c t]; [done|]. pose proof (trim_nonempty_trimmed _ _ Htr) as Hw. destruct l as [|t' l].
    - cbn [join String.concat]. unfold trim in Htr. cbn [trim_start] in Htr. rewrite Hw in Htr. done.
    - destruct IH as [IH1 IH2]; [done|]. rewrite join_cons by done. split; [|done].
      assert (join ", " (t' :: l) <> "") as Hj by (intros E; by rewrite E in IH2).
      assert (trim_end (", " +:+ join ", " (t' :: l)) = ", " +:+ join ", " (t' :: l)) as Hs
        by (rewrite trim_end_app_keep; by rewrite IH1).
      rewrite trim_end_app_keep; by rewrite Hs. }
  unfold trim. destruct (join ", " l) as [|c s]; [done|]. cbn [trim_start]. rewrite Hh. done.
Qed.

(** Address lists read back: a list of displayed addresses, joined the way
    the composer writes To and Cc headers, is split into the same addresses by the
    reader's splitter, and by the composer's when no address holds a semicolon. *)
Theorem address_list_roundtrip l :
  l <> [] ->
  (Forall (fun t => clean_token (fun c => Ascii.eqb c ",") t = true) l -> splitMailAddressListHeader (join ", " l) = l) /\
  (Forall (fun t => clean_token (fun c => Ascii.eqb c "," || Ascii.eqb c ";") t = true) l -> splitAddressList (join ", " l) = l).
Proof.
  intros Hne. unfold splitMailAddressListHeader, splitAddressList.
  assert (forall f, Forall (fun t => clean_token f t = true) l -> (join ", " l =s? "") = false) as Hj.
  { intros f H. destruct H as [|t l Ht Hl]; [done|]. apply String.eqb_neq. intros E. destruct t as [|c t]; [done|].
    destruct l; [discriminate E|]. rewrite join_cons in E by done. discriminate E. }
  split; intros H; rewrite (list_one_line _ _ H Hne), (Hj _ H); apply split_list; auto.
Qed.
Lemma address_list_roundtrip_witness :
  splitMailAddressListHeader (join ", " ["Ann <ann@x.org>"; "bob@y.org"]) = ["Ann <ann@x.org>"; "bob@y.org"].
Proof. refine (proj1 (address_list_roundtrip _ _) _); [discriminate|repeat (constructor; [vm_compute; reflexivity|]); constructor]. Defined.

(** A comma inside a quoted name is taken for a separator all the same. *)
Lemma quoted_comma_is_split :
  splitMailAddressListHeader (dquote +:+ "Doe, Ann" +:+ dquote +:+ " <ann@x.org>") =
    [dquote +:+ "Doe"; "Ann" +:+ dquote +:+ " <ann@x.org>"].
Proof. vm_compute. reflexivity. Qed.
