(* ===== verification/Reader.v ===== *)
(** * mail-app.jsx: what the reader computes

    The functions of the mail client between the decrypted text and the
    components that show it: keys found in attachments, the keys a signature is
    checked with, the labels of signature states, the description of an
    undecryptable blob, RFC 2047 words, the metadata recovered from a body and
    the payloads the cache keeps. *)
From Stdlib Require Import ZArith NArith Lia Ascii.
From stdpp Require Import gmap strings.
From S2P Require Import Prelude JsString JsValue Split Base64 Text Signature Patterns HtmlText Mime Addresses.

(** ** Public keys in attachments *)

Definition BEGIN_KEY : string := "-----BEGIN PGP PUBLIC KEY BLOCK-----".
Definition END_KEY : string := "-----END PGP PUBLIC KEY BLOCK-----".

(** [text.match(/BEGIN[\s\S]*?END/g)]; [skip]: characters of the last match
    still to pass over. *)
Fixpoint all_blocks (from upto : string) (skip : nat) (s : string) : list string :=
  match s with
  | EmptyString => []
  | String c r =>
      match skip with
      | S k => all_blocks from upto k r
      | O =>
          if starts_with s from then
            match upto_marker [upto] (sdrop (String.length from) s) with
            | Some b => (from +:+ b) :: all_blocks from upto (String.length from + String.length b - 1) r
            | None => all_blocks from upto 0 r
            end
          else all_blocks from upto 0 r
      end
  end.

Definition looks_key (ct fn : string) : bool :=
  includes ct "application/pgp-keys" || includes ct "pgp-key" || ends_with fn ".asc".

(** The blocks of one attachment, none when it is passed over. *)
Definition attachment_blocks (a : attachment) : list string :=
  let ct := to_lower (content_type a) in
  let fn := to_lower (file_name a) in
  if negb (looks_key ct fn) && negb (ct =s? "") && negb (starts_with ct "text/") then []
  else all_blocks BEGIN_KEY END_KEY 0 (decodeText (bytes a)).

(** Trimmed, each once, in order of appearance. *)
Definition add_block (seen : list string) (b : string) : list string :=
  let t := trim b in if (t =s? "") || str_mem t seen then seen else seen ++ [t].

Definition extractPublicKeysFromMimeAttachments (attachments : list attachment) : list string :=
  foldl (fun seen a => foldl add_block seen (attachment_blocks a)) [] attachments.

(** ** The keys a signature is checked with *)

(** [v && v.k] of a record that may be missing. *)
Definition opt_field (v : jsval) (k : string) : jsval := match v with JObj fs => field k fs | _ => JUndef end.
(** [canonicalizeSenderId] on any value: [String(v || "")]. *)
Definition senderOf (v : jsval) : string := canonicalizeSenderId (js_String (js_or v (JStr ""))).

Record directory_hit := DirectoryHit { dh_armored : string; dh_source : string }.
Record combined := Combined {
  cb_senderEmail : string;
  cb_combinedArmored : string;
  cb_localIdentity : option jsval;
  cb_trustedContactRecord : option jsval;
  cb_directoryHit : option directory_hit;
  cb_attachmentArmoreds : list string;
}.

Definition nonempty_list (l : list string) : list string := List.filter (fun s => negb (s =s? "")) l.
Definition push_new (parts : list string) (arm : string) : list string :=
  if (arm =s? "") || str_mem arm parts then parts else parts ++ [arm].

Section Verification.
(** [ElvishMailManifest.getContactKey] and [lookupKey] for an address, [None]
    where the API is missing. *)
Variable getContactKey lookupKey : option (string -> res jsval).

Definition trusted_record (senderEmail : string) : option jsval :=
  match getContactKey with
  | None => None
  | Some get =>
      match get senderEmail with
      | Ok record =>
          match opt_field record "trusted" with
          | JBool true => if extractArmoredPublicKey record =s? "" then None else Some record
          | _ => None
          end
      | Throw _ => None
      end
  end.

Definition directory_record (senderEmail : string) : option directory_hit :=
  match lookupKey with
  | None => None
  | Some lookup =>
      match lookup senderEmail with
      | Ok record =>
          let arm := extractArmoredPublicKey record in
          if arm =s? "" then None
          else Some (DirectoryHit arm (let s := opt_field record "source" in
                                       if truthy s then js_String s else "directory lookup"))
      | Throw _ => None
      end
  end.

Definition buildCombinedVerificationArmored (fromValue : string) (identities : list jsval)
    (attachmentArmoredList : list string) : combined :=
  let senderEmail := canonicalizeSenderId fromValue in
  let attachmentArmoreds := nonempty_list attachmentArmoredList in
  if senderEmail =s? "" then Combined "" "" None None None attachmentArmoreds
  else
    let localIdentity :=
      List.find (fun i => (senderOf (opt_field i "email") =s? senderEmail) && negb (extractArmoredPublicKey i =s? "")) identities in
    let trusted := match localIdentity with Some _ => None | None => trusted_record senderEmail end in
    let parts :=
      match localIdentity, trusted with
      | Some i, _ => [extractArmoredPublicKey i]
      | None, Some r => [extractArmoredPublicKey r]
      | None, None => []
      end in
    let parts := foldl push_new parts attachmentArmoreds in
    let directoryHit := directory_record senderEmail in
    let parts := match directoryHit with Some d => push_new parts (dh_armored d) | None => parts end in
    Combined senderEmail (join (lfs +:+ lfs) (nonempty_list parts)) localIdentity trusted directoryHit attachmentArmoreds.
End Verification.

(** [fingerprint]: [openpgp.readKey(...).getFingerprint()] of an armored key. *)
Fixpoint pickArmoredKeyForSignerFingerprint (fingerprint : string -> res string) (candidates : list string)
    (signerFingerprint : string) : option string :=
  let want := normalizeFingerprintHex signerFingerprint in
  if want =s? "" then None
  else
    match candidates with
    | [] => None
    | armored :: rest =>
        let hit :=
          if armored =s? "" then false
          else match fingerprint armored with
               | Ok f =>
                   let fp := normalizeFingerprintHex f in
                   negb (fp =s? "") && ((fp =s? want) || ((16 <=? String.length want) && ends_with fp (slast 16 want)))
               | Throw _ => false
               end in
        if hit then Some armored else pickArmoredKeyForSignerFingerprint fingerprint rest signerFingerprint
    end.

(** ** Signature states *)

Definition unsigned_summary : summary := Summary Unsigned false [] "" "".

Definition mergeNestedSignatureVerification (outer inner : option summary) : summary :=
  let o := default unsigned_summary outer in
  match inner with
  | None => o
  | Some i =>
      if negb (su_signed i) then o
      else
        match su_status i with
        | Verified =>
            Summary Verified (su_signed i) (match su_signerKeyIDs i with [] => su_signerKeyIDs o | l => l end)
              (str_or (su_signerFingerprint i) (su_signerFingerprint o)) (su_error i)
        | _ => match su_status o with Verified => o | _ => i end
        end
  end.

Record sig_state := SigState {
  ss_status : string;
  ss_displayTrust : string;
  ss_source : string;
  ss_trustHint : string;
  ss_error : string;
}.
Record sig_label := SigLabel { sl_tone : string; sl_label : string; sl_title : string }.

Definition describeSignatureState (state : sig_state) : option sig_label :=
  let in_state s := ss_status state =s? s in
  if in_state "checking" then
    Some (SigLabel "dim" "VERIFYING SIGNATURE" "Resolving sender key and checking the OpenPGP signature.")
  else if in_state "verified" then
    if ss_displayTrust state =s? "trusted" then
      Some (SigLabel "ok" "TRUSTED SIGNER"
        (if ss_source state =s? "" then "Signature verified with a trusted key for this sender."
         else "Signature verified; key is trusted (" +:+ ss_source state +:+ ")."))
    else if ss_displayTrust state =s? "untrusted" then
      Some (SigLabel "warn" "UNTRUSTED SIGNER"
        (str_or (ss_trustHint state) "The signature checks out, but this key is not in your trusted contacts. Trust the sender key to treat future mail from this fingerprint as trusted."))
    else
      Some (SigLabel "ok" "SIGNATURE VERIFIED"
        (if ss_source state =s? "" then "OpenPGP signature verified." else "Verified with " +:+ ss_source state +:+ "."))
  else if in_state "missing_public_key" then
    Some (SigLabel "warn" "SIGNER KEY UNAVAILABLE"
      (str_or (ss_error state) "The message appears to be signed, but no trusted sender key was available."))
  else if in_state "bad_signature" then
    Some (SigLabel "err" "BAD SIGNATURE" (str_or (ss_error state) "The message signature could not be verified."))
  else if in_state "unsigned" then
    Some (SigLabel "dim" "UNSIGNED MESSAGE" "No OpenPGP signature was found on this decrypted message.")
  else if in_state "error" then
    Some (SigLabel "warn" "SIGNATURE UNKNOWN" (str_or (ss_error state) "Signature verification could not be completed."))
  else None.

(** ** Blobs that do not decrypt *)

Definition byte_pair (c : ascii) : string :=
  let h := Z_to_hex (byte c) in if (String.length h <? 2) then String "0" h else h.
Fixpoint hex_list (s : string) : list string :=
  match s with EmptyString => [] | String c s => byte_pair c :: hex_list s end.
Definition hexPreview (bytes : string) (max : nat) : string := join " " (hex_list (stake max bytes)).

(** NUL is shown as a backslash and a zero. *)
Fixpoint show_nul (s : string) : string :=
  match s with
  | EmptyString => ""
  | String c s => (if (code c =? 0)%N then "\0" else String c "") +:+ show_nul s
  end.
Definition utf8Preview (bytes : string) (max : nat) : string := show_nul (decodeText (stake max bytes)).

Definition plain_ws (c : ascii) : bool := Ascii.eqb c " " || Ascii.eqb c tab || Ascii.eqb c cr || Ascii.eqb c lf.
Fixpoint first_byte (s : string) : option Z :=
  match s with EmptyString => None | String c s => if plain_ws c then first_byte s else Some (byte c) end.

(** [/^(mime-version:|...)/im]: at the start of a line. *)
Definition mime_starts : list string := ["mime-version:"; "content-type:"; "from:"; "to:"; "subject:"; "date:"].
Definition mime_line (line : string) : bool := existsb (ci_starts_with line) mime_starts.
Definition has_mime_headers (text : string) : bool := existsb mime_line (split (replace_all (String cr "") lfs text) lfs).

(** The value after a content-type field: white space, then characters up to a
    line feed or a semicolon; when only white space is left, what was skipped
    serves as the value and is trimmed away. *)
Definition value_char (c : ascii) : bool := negb (Ascii.eqb c lf) && negb (Ascii.eqb c ";").
Fixpoint re_content_type (s : string) : option string :=
  let here :=
    if ci_starts_with s "content-type:" then
      let '(ws, r) := span_chars is_ws (sdrop 13 s) in
      let v := fst (span_chars value_char r) in
      if negb (v =s? "") then Some (trim v)
      else if some_char value_char ws then Some "" else None
    else None in
  match here with
  | Some v => Some v
  | None => match s with String _ s => re_content_type s | EmptyString => None end
  end.

Record blob_description := BlobDescription {
  bd_byteLength : nat;
  bd_detectedKind : string;
  bd_looksArmoredMessage : bool;
  bd_looksSignedMessage : bool;
  bd_looksPGPMime : bool;
  bd_looksMimeHeaders : bool;
  bd_looksBinaryOpenPGP : bool;
  bd_contentType : string;
  bd_boundary : string;
  bd_firstNonWhitespaceByte : option Z;
  bd_firstBytesHex : string;
  bd_utf8Preview : string;
  bd_hint : string;
}.

Definition describeEncryptedBlob (bytes : string) : blob_description :=
  let preview := utf8Preview (stake 4096 bytes) (String.length (stake 4096 bytes)) in
  let normalized := crlf_to_lf preview in
  let leadingPreview := trim_start normalized in
  let first := first_byte bytes in
  let looksArmoredMessage := starts_with leadingPreview BEGIN_MESSAGE in
  let looksSignedMessage := starts_with leadingPreview BEGIN_SIGNED in
  let looksMimeHeaders := has_mime_headers normalized in
  let looksPGPMime := ci_includes normalized "multipart/encrypted" && ci_includes normalized "application/pgp-encrypted" in
  let looksBinaryOpenPGP :=
    match first with Some b => (192 <=? b)%Z || (Z.land b 192 =? 128)%Z | None => false end in
  let '(detectedKind, hint) :=
    if looksArmoredMessage then
      ("armored-openpgp-message", "Blob looks like ASCII-armored OpenPGP and should be parseable by openpgp.readMessage.")
    else if looksSignedMessage then
      ("pgp-signed-message", "Blob looks like a signed cleartext message, not an encrypted OpenPGP message.")
    else if looksPGPMime then
      ("pgp-mime-message", "Blob looks like full PGP/MIME email. openpgp.readMessage expects the encrypted payload part, not the outer multipart MIME wrapper.")
    else if looksBinaryOpenPGP then
      ("binary-openpgp-packets", "Blob starts like binary OpenPGP packets and should be parseable as binaryMessage.")
    else if looksMimeHeaders then
      ("mime-message", "Blob looks like an RFC 822/MIME message rather than raw OpenPGP ciphertext.")
    else ("unknown", "Blob does not clearly look like armored or binary OpenPGP ciphertext.") in
  BlobDescription (String.length bytes) detectedKind looksArmoredMessage looksSignedMessage looksPGPMime looksMimeHeaders
    looksBinaryOpenPGP (trim (default "" (re_content_type normalized))) (default "" (re_boundary normalized)) first
    (hexPreview bytes 24) preview hint.
