(* ===== verification/Recovered.v ===== *)
(** * mail-app.jsx: recovered metadata and replies

    What the client reads from the headers of a decrypted message, how it
    merges that into the message of the list, what it keeps in the cache, and
    the draft of a reply. *)
From Stdlib Require Import ZArith NArith Lia Ascii.
From stdpp Require Import gmap strings.
From S2P Require Import Prelude JsString JsValue Split Base64 Text Patterns HtmlText Mime Addresses Reader.

(** ** Small forms *)

Definition one_space (s : string) : string := trim (collapse_ws " " s).

Definition makePreviewSnippet (text : string) (max : nat) : string := stake max (one_space text).

Definition normalizeAngleMessageId (mid : string) : string :=
  let s := trim mid in
  if s =s? "" then ""
  else if negb (starts_with s "<") && includes s "@" then "<" +:+ s +:+ ">" else s.

Definition replySubjectLine (subj : string) : string :=
  let s := trim subj in
  if s =s? "" then "Re: " else if ci_starts_with s "re:" then s else "Re: " +:+ s.

Definition escape_text (s : string) : string :=
  replace_all ">" "&gt;" (replace_all "<" "&lt;" (replace_all "&" "&amp;" s)).
Definition formatQuotedReplyBodyHtml (plain : string) : string :=
  let t := trim_end plain in
  if t =s? "" then "<p><br></p>"
  else "<p><br></p><blockquote>" +:+ join "<br>" (map escape_text (split t lfs)) +:+ "</blockquote>".

(** ** RFC 2047 *)

Section RFC2047.
(** [new TextDecoder(label).decode(bytes)] for a label other than UTF-8; [None]
    when the label is unknown. *)
Variable decode_label : string -> string -> option string.

Definition decode_charset (label bytes : string) : string :=
  if label =s? "utf-8" then decodeText bytes
  else match decode_label label bytes with Some t => t | None => decodeText bytes end.

Definition decodeRFC2047Word (charsetRaw encodingRaw payloadRaw : string) : option string :=
  let charset := to_lower (map_chars (fun c => if Ascii.eqb c "_" then "-"%char else c) (trim (str_or charsetRaw "UTF-8"))) in
  let encoding := to_upper encodingRaw in
  let label := if charset =s? "utf8" then "utf-8" else charset in
  if encoding =s? "B" then
    match base64ToBytes payloadRaw with Ok b => Some (decode_charset label b) | Throw _ => None end
  else if encoding =s? "Q" then
    Some (decode_charset label (quoted_bytes (map_chars (fun c => if Ascii.eqb c "_" then " "%char else c) payloadRaw)))
  else None.

Definition not_question (c : ascii) : bool := negb (Ascii.eqb c "?").

(** An encoded word at the start of the text: what stands for it, or [None]. The
    lengths of the charset and of the payload give its length. *)
Definition word_here (s : string) : option (string * nat) :=
  if starts_with s "=?" then
    let '(charset, r) := span_chars not_question (sdrop 2 s) in
    match r with
    | String _ (String e (String q r')) =>
        if negb (charset =s? "") && (some_char (Ascii.eqb e) "BbQq") && Ascii.eqb q "?" then
          let '(payload, r'') := span_chars not_question r' in
          if starts_with r'' "?=" then
            let n := 2 + String.length charset + 3 + String.length payload + 2 in
            Some (default (stake n s) (decodeRFC2047Word charset (String e "") payload), n)
          else None
        else None
    | _ => None
    end
  else None.

Fixpoint decode_words (skip : nat) (s : string) : string :=
  match s with
  | EmptyString => ""
  | String c r =>
      match skip with
      | S k => decode_words k r
      | O => match word_here s with
             | Some (t, n) => t +:+ decode_words (n - 1) r
             | None => String c (decode_words 0 r)
             end
      end
  end.
Definition decodeRFC2047HeaderDisplay (raw : string) : string :=
  if includes raw "=?" then decode_words 0 raw else raw.

(** ** Placeholders *)

Definition isProtectedSubjectPlaceholder (subject : string) : bool :=
  let normalized := to_lower (trim subject) in
  (normalized =s? "") || (normalized =s? "...") || (normalized =s? "encrypted message").

Definition normalizeRecoveredSubject (subject : string) : string :=
  let normalized := trim (decodeRFC2047HeaderDisplay subject) in
  if isProtectedSubjectPlaceholder normalized then "" else normalized.

Definition normalizeRecoveredAddress (value : string) : string :=
  let normalized := one_space (decodeRFC2047HeaderDisplay value) in
  if (normalized =s? "") || (normalized =s? "[encrypted header]") || (normalized =s? "(missing from)") then "" else normalized.

Definition recovered_list (addrs : list string) : list string := nonempty_list (map normalizeRecoveredAddress addrs).
Definition hasMeaningfulRecipients (addrs : list string) : bool :=
  negb (match recovered_list addrs with [] => true | _ => false end).

(** ** Messages *)

(** An attachment row as the list and the cache keep it. *)
Record att_row := AttRow { ar_file_name : string; ar_content_type : string; ar_size_bytes : Z; ar_bytes : option string }.

Record message := Message {
  m_provenance : string;
  m_subject : string;
  m_from_addr : string;
  m_to_addrs : list string;
  m_cc_addrs : list string;
  m_rfc_message_id : string;
  m_in_reply_to : string;
  m_references : string;
  m_reply_to : string;
  m_thread_id : string;
  m_preview : string;
  m_attachments : list att_row;
  m_has_attachments : bool;
  m_headerDecrypted : bool;
}.

Definition shouldRecoverMetadataFromBody (m : message) : bool :=
  (m_provenance m =s? "already_encrypted") &&
  ((normalizeRecoveredSubject (m_subject m) =s? "") || (normalizeRecoveredAddress (m_from_addr m) =s? "") ||
   negb (hasMeaningfulRecipients (m_to_addrs m))).

(** What [extractDecryptedMessageMetadata] returns. *)
Record recovered := Recovered {
  r_subject : string;
  r_from_addr : string;
  r_to_addrs : list string;
  r_cc_addrs : list string;
  r_rfc_message_id : string;
  r_in_reply_to : string;
  r_references : string;
  r_reply_to : string;
  r_preview : string;
  r_attachments : list att_row;
}.

Definition att_row_of (a : attachment) : att_row :=
  AttRow (file_name a) (content_type a) (Z.of_nat (String.length (bytes a))) (Some (bytes a)).

Variable DOMParser : option dom.

Definition extractDecryptedMessageMetadata (text : string) (envelopeOptional : option envelope) : res (option recovered) :=
  let normalized := crlf_to_lf text in
  match index_of normalized blank_line with
  | Some (S i) =>
      let parsed := App.parseHeaderBlock (stake (S i) normalized) in
      match App.looksLikeFullMessageHeaders parsed, App.p_headers parsed with
      | true, Some hs =>
          env <~ (match envelopeOptional with Some e => Ok e | None => App.extractDisplayEnvelope DOMParser text end) ;;
          let get k := one_space (header hs k) in
          let toHeader := get "to" in
          let toParts := splitMailAddressListHeader toHeader in
          Ok (Some (Recovered (trim (header hs "subject")) (get "from")
                (match toParts with [] => if toHeader =s? "" then [] else [toHeader] | _ => toParts end)
                (splitMailAddressListHeader (get "cc")) (normalizeAngleMessageId (header hs "message-id"))
                (get "in-reply-to") (get "references") (get "reply-to") (makePreviewSnippet (e_text env) 240)
                (map att_row_of (e_attachments env))))
      | _, _ => Ok None
      end
  | _ => Ok None
  end.

Definition mergeRecoveredMessageData (m : message) (r : recovered) : message :=
  let or_keep (new old : string) := if trim new =s? "" then old else new in
  let or_list (new old : list string) := match recovered_list new with [] => old | l => l end in
  let nextAttachments := match r_attachments r with [] => m_attachments m | l => l end in
  Message (m_provenance m)
    (str_or (normalizeRecoveredSubject (r_subject r)) (m_subject m))
    (str_or (normalizeRecoveredAddress (r_from_addr r)) (m_from_addr m))
    (or_list (r_to_addrs r) (m_to_addrs m)) (or_list (r_cc_addrs r) (m_cc_addrs m))
    (str_or (r_rfc_message_id r) (m_rfc_message_id m))
    (or_keep (r_in_reply_to r) (m_in_reply_to m)) (or_keep (r_references r) (m_references m))
    (or_keep (r_reply_to r) (m_reply_to m)) (m_thread_id m) (str_or (r_preview r) (m_preview m))
    nextAttachments (m_has_attachments m || negb (match nextAttachments with [] => true | _ => false end)) true.

(** ** What the cache keeps *)

(** Rows without their bytes. *)
Definition normalizeAttachmentSummary (a : att_row) : att_row :=
  AttRow (str_or (ar_file_name a) "attachment.bin") (str_or (ar_content_type a) "application/octet-stream")
    (ar_size_bytes a) None.

Definition buildRecoveredHeaderPayload (r : option recovered) (env : option envelope) : option recovered :=
  match r, env with
  | None, None => None
  | _, _ =>
      let get {A} (f : recovered -> A) (d : A) : A := match r with Some r => f r | None => d end in
      let atts := match r, env with
                  | Some r, _ => map normalizeAttachmentSummary (r_attachments r)
                  | None, Some e => map normalizeAttachmentSummary (map att_row_of (e_attachments e))
                  | None, None => []
                  end in
      Some (Recovered (normalizeRecoveredSubject (get r_subject "")) (normalizeRecoveredAddress (get r_from_addr ""))
        (recovered_list (get r_to_addrs [])) (recovered_list (get r_cc_addrs [])) (get r_rfc_message_id "")
        (get r_in_reply_to "") (get r_references "") (get r_reply_to "")
        (str_or (get r_preview "") (makePreviewSnippet (match env with Some e => e_text e | None => "" end) 240)) atts)
  end.

Record cached_envelope := CachedEnvelope {
  ce_bodyText : string;
  ce_bodyHtml : string;
  ce_attachments : list att_row;
  ce_recovered : option recovered;
}.

Definition buildCachedEnvelopePayload (env : option envelope) (r : option recovered) : option cached_envelope :=
  (fun e => CachedEnvelope (e_text e) (e_html e) (map normalizeAttachmentSummary (map att_row_of (e_attachments e)))
              (buildRecoveredHeaderPayload r (Some e))) <$> env.

(** A cached payload is shown again as it is; the bytes stay missing. *)
Definition inflateCachedEnvelopePayload (p : option cached_envelope) : option cached_envelope := p.

Definition envelopeHasHydratedAttachmentBytes (attachments : list att_row) : bool :=
  forallb (fun a => if ar_bytes a is Some _ then true else false) attachments.

(** The writes of [persistRecoveredArtifacts], in order. *)
Inductive persist_call :=
  | PutHeader (version : string) (payload : recovered)
  | PutEnvelope (version : string) (payload : cached_envelope)
  | RefreshHeader (ciphertextB64 : string).

(** [version]: the empty string without a cache. [encrypt_stub]: the header
    stub encrypted to the identity that decrypted, [None] without the vault, the
    fingerprint or the public key. *)
Definition persistRecoveredArtifacts (version : string) (encrypt_stub : option (recovered -> res string))
    (r : option recovered) (env : option envelope) : list persist_call * res unit :=
  match buildRecoveredHeaderPayload r env with
  | None => ([], Ok tt)
  | Some p =>
      let calls := if version =s? "" then []
                   else PutHeader version p ::
                        match buildCachedEnvelopePayload env r with Some c => [PutEnvelope version c] | None => [] end in
      let meaningful := negb (r_subject p =s? "") || negb (r_from_addr p =s? "") ||
                        negb (match r_to_addrs p with [] => true | _ => false end) in
      match r, encrypt_stub with
      | Some _, Some enc =>
          if meaningful then
            match enc p with
            | Ok armored => (calls ++ [RefreshHeader (bytesToB64 (utf8 armored))], Ok tt)
            | Throw e => (calls, Throw e)
            end
          else (calls, Ok tt)
      | _, _ => (calls, Ok tt)
      end
  end.
End RFC2047.

(** ** Replies *)

Definition referencesChainForReply (m : message) : string :=
  let tokens := words (m_references m) in
  let mid := trim (m_rfc_message_id m) in
  let tokens := if (mid =s? "") || str_mem mid tokens then tokens else tokens ++ [mid] in
  let out := join " " tokens in
  if (4000 <? Z.of_nat (String.length out))%Z then trim (slast (Z.to_nat 4000) out) else out.

Definition angled (s : string) : string := if starts_with s "<" then s else "<" +:+ s +:+ ">".
Definition inReplyToForReply (m : message) : string :=
  let mid := trim (m_rfc_message_id m) in
  if negb (mid =s? "") then angled mid
  else let t := trim (m_thread_id m) in if t =s? "" then "" else angled t.

Record draft := Draft {
  df_to : string;
  df_cc : string;
  df_bcc : string;
  df_subject : string;
  df_bodyHtml : string;
  df_inReplyTo : string;
  df_references : string;
  df_showCc : bool;
}.

(** The addresses of the user: the account's and those of the identities. *)
Definition own_addresses (identities : list string) (accountEmail : string) : list string :=
  nonempty_list (map canonicalizeSenderId (accountEmail :: identities)).

Definition is_outgoing (m : message) (self : list string) : bool :=
  let fromCanon := canonicalizeSenderId (trim (m_from_addr m)) in
  negb (fromCanon =s? "") && str_mem fromCanon self.

(** The loop over the copies: each address once, none of [on_to] and of [self]. *)
Fixpoint collect_cc (self on_to : list string) (ds : list string) : list string :=
  match ds with
  | [] => []
  | d :: ds =>
      let c := canonicalizeSenderId d in
      if (c =s? "") || str_mem c self || str_mem c on_to then collect_cc self on_to ds
      else d :: collect_cc self (c :: on_to) ds
  end.

Definition joined (ds : list string) : string := join ", " (nonempty_list (map trim ds)).

(** The To field: the other recipients of an own message, else the reply address. *)
Definition reply_to_field (m : message) (self : list string) : string :=
  let fromDisp := trim (m_from_addr m) in
  if is_outgoing m self then
    str_or (joined (List.filter (fun d => negb (str_mem (canonicalizeSenderId d) self)) (m_to_addrs m))) fromDisp
  else str_or (trim (m_reply_to m)) fromDisp.

Definition on_to (toDisp : string) : list string := nonempty_list (map canonicalizeSenderId (splitMailAddressListHeader toDisp)).

(** The addresses a reply to all may copy. *)
Definition cc_candidates (m : message) (self : list string) : list string :=
  if is_outgoing m self then m_cc_addrs m else m_to_addrs m ++ m_cc_addrs m.

Definition reply_cc (m : message) (self : list string) (replyAll : bool) : list string :=
  if replyAll then collect_cc self (on_to (reply_to_field m self)) (cc_candidates m self) else [].

(** [identities]: their addresses. *)
Definition buildReplyComposeDraft (m : message) (identities : list string) (accountEmail : string) (replyAll : bool) : draft :=
  let self := own_addresses identities accountEmail in
  Draft (reply_to_field m self) (joined (reply_cc m self replyAll)) "" (replySubjectLine (m_subject m)) "<p><br></p>"
    (inReplyToForReply m) (referencesChainForReply m) replyAll.

(** ** Copies of a reply *)

Lemma collect_cc_spec self on ds :
  Forall (fun d => canonicalizeSenderId d <> "" /\ (canonicalizeSenderId d ∉ self) /\ (canonicalizeSenderId d ∉ on)) (collect_cc self on ds) /\
  NoDup (map canonicalizeSenderId (collect_cc self on ds)) /\
  (forall d, d ∈ ds -> canonicalizeSenderId d <> "" -> canonicalizeSenderId d ∉ self -> canonicalizeSenderId d ∉ on ->
     canonicalizeSenderId d ∈ map canonicalizeSenderId (collect_cc self on ds)).
Proof.
  revert on. induction ds as [|d ds IH]; intros on; cbn [collect_cc].
  - split_and!; [constructor|constructor|]. intros d Hd. by apply elem_of_nil in Hd.
  - destruct ((canonicalizeSenderId d =s? "") || _ || _) eqn:E.
    + destruct (IH on) as (H1 & H2 & H3). split_and!; [done|done|]. intros x [->|Hx]%elem_of_cons He Hs Ho; [|by apply H3].
      rewrite !orb_true_iff in E. destruct E as [[E%String.eqb_eq|E%str_mem_spec]|E%str_mem_spec]; done.
    + rewrite !orb_false_iff in E. destruct E as [[E1%String.eqb_neq E2%str_mem_false] E3%str_mem_false].
      destruct (IH (canonicalizeSenderId d :: on)) as (H1 & H2 & H3). split_and!.
      * constructor; [done|]. eapply Forall_impl; [exact H1|]. cbn. intros x (? & ? & Hx). rewrite elem_of_cons in Hx. tauto.
      * cbn [map]. constructor; [|done]. intros (x & Hx & Hin)%list_elem_of_fmap. rewrite Forall_forall in H1.
        destruct (H1 _ Hin) as (_ & _ & Hn). apply Hn. rewrite <- Hx. by left.
      * intros x [->|Hx]%elem_of_cons He Hs Ho; cbn [map]; [by left|]. destruct (decide (canonicalizeSenderId x = canonicalizeSenderId d)) as [->|Hne]; [by left|].
        right. apply H3; [done|done|done|]. intros [?|?]%elem_of_cons; done.
Qed.

(** Whom a reply copies: a plain reply nobody; a reply to all every other
    recipient exactly once. No copy is an address of the user or one that is in the
    To field already, and no candidate that is neither is left out. *)
Theorem reply_copies_others_once m self replyAll :
  (replyAll = false -> reply_cc m self replyAll = []) /\
  Forall (fun d => canonicalizeSenderId d <> "" /\ (canonicalizeSenderId d ∉ self) /\
                   (canonicalizeSenderId d ∉ on_to (reply_to_field m self))) (reply_cc m self replyAll) /\
  NoDup (map canonicalizeSenderId (reply_cc m self replyAll)) /\
  (replyAll = true -> forall d, d ∈ cc_candidates m self -> canonicalizeSenderId d <> "" -> canonicalizeSenderId d ∉ self ->
     canonicalizeSenderId d ∉ on_to (reply_to_field m self) ->
     canonicalizeSenderId d ∈ map canonicalizeSenderId (reply_cc m self replyAll)).
Proof.
  unfold reply_cc. destruct replyAll; [|split_and!; [done|constructor|constructor|done]].
  destruct (collect_cc_spec self (on_to (reply_to_field m self)) (cc_candidates m self)) as (? & ? & ?).
  split_and!; [done|done|done|auto].
Qed.
Definition sample_message : message :=
  Message "client_encrypted" "Plans" "Ann <ann@x.org>" ["me@x.org"; "Bob <bob@x.org>"] ["BOB@x.org"; "eve@y.org"; "ann@x.org"]
    "<1@x.org>" "" "" "" "" "" [] false true.
Lemma reply_copies_others_once_witness :
  reply_cc sample_message (own_addresses [] "me@x.org") true = ["Bob <bob@x.org>"; "eve@y.org"] /\
  (forall d, d ∈ cc_candidates sample_message (own_addresses [] "me@x.org") -> canonicalizeSenderId d <> "" ->
     canonicalizeSenderId d ∉ own_addresses [] "me@x.org" ->
     canonicalizeSenderId d ∉ on_to (reply_to_field sample_message (own_addresses [] "me@x.org")) ->
     canonicalizeSenderId d ∈ map canonicalizeSenderId (reply_cc sample_message (own_addresses [] "me@x.org") true)).
Proof.
  split; [vm_compute; reflexivity|].
  exact (proj2 (proj2 (proj2 (reply_copies_others_once sample_message (own_addresses [] "me@x.org") true))) eq_refl).
Defined.
