(* ===== verification/Compose.v ===== *)
(** * compose.jsx

    What the composer builds and sends: address lists, the header stub, the
    RFC 5322 text, the PGP/MIME wrapper and the two send modes. OpenPGP, the
    clock and the random bytes are arguments; the two endpoints are the request
    records the send functions return. *)
From Stdlib Require Import ZArith NArith Lia Ascii.
From stdpp Require Import gmap strings.
From S2P Require Import Prelude JsString JsValue Split Base64 Text Patterns HtmlText Mime Payload Addresses.

(** ** Passwords *)

(** The label of the empty password is a dash. *)
Definition passwordStrength (pw : string) : nat * string :=
  if pw =s? "" then (0, "-")
  else
    let one (b : bool) : nat := if b then 1 else 0 in
    let s := one (12 <=? String.length pw) + one (16 <=? String.length pw) +
             one (some_char is_upper pw && some_char is_lower pw) + one (some_char is_digit pw) +
             one (some_char (fun c => negb (is_alnum c)) pw) in
    (s, default "" (["weak"; "weak"; "ok"; "good"; "strong"; "strong"] !! Nat.min s 5)).

(** ** The header stub *)

Record summary_row := SummaryRow { sr_file_name : string; sr_content_type : string; sr_size_bytes : Z }.
Definition summary_json (r : summary_row) : jsval :=
  JObj [("file_name", JStr (sr_file_name r)); ("content_type", JStr (sr_content_type r)); ("size_bytes", JNum (sr_size_bytes r))].
Definition strings_json (l : list string) : jsval := JArr (map JStr l).

Definition buildHeaderStub (from : string) (to cc bcc : list string) (subject : string)
    (attachmentSummaries : list summary_row) (inReplyTo references : string) : jsval :=
  JObj ([("subject", JStr subject); ("from", JStr from); ("to", strings_json to); ("cc", strings_json cc)] ++
        (if bcc is [] then [] else [("bcc", strings_json bcc)]) ++
        (if inReplyTo =s? "" then [] else [("in_reply_to", JStr (trim inReplyTo))]) ++
        (if references =s? "" then [] else [("references", JStr (trim references))]) ++
        (if attachmentSummaries is [] then [] else [("attachments", JArr (map summary_json attachmentSummaries))])).

Definition extractPrimaryEmailForFilename (fromValue : string) : string :=
  let raw := trim fromValue in
  match bracket_address raw with
  | Some a => to_lower (trim a)
  | None => match re_email local_char raw with Some a => to_lower (trim a) | None => "sender" end
  end.

(** Runs of other characters become one underscore. *)
Definition safe_char (c : ascii) : bool := is_alnum c || Ascii.eqb c "." || Ascii.eqb c "_" || Ascii.eqb c "-".
Fixpoint safe_name_go (in_run : bool) (s : string) : string :=
  match s with
  | EmptyString => ""
  | String c s =>
      if safe_char c then String c (safe_name_go false s)
      else if in_run then safe_name_go true s else String "_" (safe_name_go true s)
  end.

Definition publicKeyAscFilename (fromValue : string) : string :=
  "public-" +:+ safe_name_go false (extractPrimaryEmailForFilename fromValue) +:+ ".asc".

(** Every line end becomes CRLF. *)
Definition cr_to_lf : string -> string := map_chars (fun c => if Ascii.eqb c cr then lf else c).
Fixpoint lf_to_crlf (s : string) : string :=
  match s with
  | EmptyString => ""
  | String c s => if Ascii.eqb c lf then crlf +:+ lf_to_crlf s else String c (lf_to_crlf s)
  end.
Definition normalizeCRLF (text : string) : string := lf_to_crlf (cr_to_lf (crlf_to_lf text)).
Definition drop_last_crlf (s : string) : string := if ends_with s crlf then sinit 2 s else s.

Definition buildSenderPublicKeyAttachmentSummary (fromValue armoredPub : string) : option summary_row :=
  let arm := trim armoredPub in
  if arm =s? "" then None
  else Some (SummaryRow (publicKeyAscFilename fromValue) "application/pgp-keys"
               (Z.of_nat (String.length (utf8 (normalizeCRLF arm +:+ crlf))))).

Definition whole_address (raw : string) : option (string * string) :=
  let '(l, r) := span_chars addr_char raw in
  match r with
  | String "@" r => let '(d, r) := span_chars addr_char r in
                    if (l =s? "") || (d =s? "") || negb (r =s? "") then None else Some (l, d)
  | _ => None
  end.
Definition extractDomain (from : string) : string :=
  let raw := trim from in
  match re_bracket raw with
  | Some (_, d) => to_lower d
  | None => match whole_address raw with Some (_, d) => to_lower d | None => "elvish.local" end
  end.

(** ** The PGP/MIME wrapper *)

(** What the host supplies: [randomHex], [Date.now] and [toUTCString]. *)
Record host := Host { hex_a : string; hex_b : string; now_ms : string; utc_date : string }.

Definition dq : string := dquote.
Definition header_when (b : bool) (line : string) : list string := if b then [line] else [].
Definition list_header (l : list string) : string := join ", " l.

Definition pgp_boundary (h : host) : string := "=_elvish_" +:+ hex_a h.

(** The header lines. *)
Definition pgp_header_lines (h : host) (from : string) (to cc : list string) (subject inReplyTo references : string) : list string :=
  let irt := trim inReplyTo in
  let refs := trim references in
  let ccList := nonempty cc in
  [ "Message-ID: <" +:+ now_ms h +:+ "." +:+ hex_b h +:+ "@" +:+ extractDomain from +:+ ">";
    "Date: " +:+ utc_date h;
    "From: " +:+ str_or from "anonymous";
    "To: " +:+ list_header to ] ++
  header_when (negb (match ccList with [] => true | _ => false end)) ("Cc: " +:+ list_header ccList) ++
  header_when (negb (subject =s? "")) ("Subject: " +:+ subject) ++
  header_when (negb (irt =s? "")) ("In-Reply-To: " +:+ irt) ++
  header_when (negb (refs =s? "")) ("References: " +:+ refs) ++
  [ "Content-Type: multipart/encrypted; protocol=" +:+ dq +:+ "application/pgp-encrypted" +:+ dq +:+ "; boundary=" +:+ dq +:+
      pgp_boundary h +:+ dq;
    "MIME-Version: 1.0" ].

Definition buildPGPMIMEMessage (h : host) (from : string) (to cc : list string)
    (subject armoredCiphertext inReplyTo references : string) : string :=
  let boundary := pgp_boundary h in
  join crlf (pgp_header_lines h from to cc subject inReplyTo references ++
    [ "";
      "This is an OpenPGP/MIME encrypted message.";
      "--" +:+ boundary;
      "Content-Type: application/pgp-encrypted";
      "Content-Description: PGP/MIME version identification";
      "";
      "Version: 1";
      "--" +:+ boundary;
      "Content-Type: application/octet-stream; name=" +:+ dq +:+ "encrypted.asc" +:+ dq;
      "Content-Disposition: inline; filename=" +:+ dq +:+ "encrypted.asc" +:+ dq;
      "Content-Transfer-Encoding: 7bit";
      "";
      drop_last_crlf (normalizeCRLF armoredCiphertext);
      "--" +:+ boundary +:+ "--";
      "" ]).

(** ** The RFC 5322 text *)

Record rfc_opts := RfcOpts {
  o_attachPublicKey : bool;
  o_senderArmoredPublic : string;
  o_ccDisplay : list string;
  o_bccDisplay : list string;
  o_inReplyTo : string;
  o_references : string;
}.

Definition addr_headers (to : list string) (subject : string) (o : rfc_opts) : list string :=
  let ccJoin := list_header (nonempty (o_ccDisplay o)) in
  let bccJoin := list_header (nonempty (o_bccDisplay o)) in
  let irt := trim (o_inReplyTo o) in
  let refs := trim (o_references o) in
  [ "To: " +:+ list_header to ] ++
  header_when (negb (ccJoin =s? "")) ("Cc: " +:+ ccJoin) ++
  header_when (negb (bccJoin =s? "")) ("Bcc: " +:+ bccJoin) ++
  [ "Subject: " +:+ str_or subject "(no subject)" ] ++
  header_when (negb (irt =s? "")) ("In-Reply-To: " +:+ irt) ++
  header_when (negb (refs =s? "")) ("References: " +:+ refs).

Definition wants_attach (o : rfc_opts) : bool := o_attachPublicKey o && negb (trim (o_senderArmoredPublic o) =s? "").

Definition text_type : string :=
  "Content-Type: text/plain; charset=" +:+ dq +:+ "utf-8" +:+ dq +:+ "; protected-headers=" +:+ dq +:+ "v1" +:+ dq.

Definition plain_lines (h : host) (from : string) (to : list string) (subject : string) (o : rfc_opts) : list string :=
  [ "Date: " +:+ utc_date h; "From: " +:+ str_or from "anonymous" ] ++ addr_headers to subject o ++
  [ text_type; "Content-Transfer-Encoding: 8bit"; "MIME-Version: 1.0" ].

Definition mix_boundary (h : host) : string := "=_elvish_mix_" +:+ hex_a h.

Definition mixed_lines (h : host) (from : string) (to : list string) (subject body : string) (o : rfc_opts) : list string :=
  let fn := publicKeyAscFilename from in
  let boundary := mix_boundary h in
  let keyBody := drop_last_crlf (normalizeCRLF (trim (o_senderArmoredPublic o))) in
  [ "Date: " +:+ utc_date h; "From: " +:+ str_or from "anonymous" ] ++ addr_headers to subject o ++
  [ "MIME-Version: 1.0";
    "Content-Type: multipart/mixed; boundary=" +:+ dq +:+ boundary +:+ dq;
    "";
    "--" +:+ boundary;
    text_type;
    "Content-Transfer-Encoding: 8bit";
    "";
    body;
    "";
    "--" +:+ boundary;
    "Content-Type: application/pgp-keys; name=" +:+ dq +:+ fn +:+ dq;
    "Content-Disposition: attachment; filename=" +:+ dq +:+ fn +:+ dq;
    "Content-Transfer-Encoding: 7bit";
    "";
    keyBody;
    "";
    "--" +:+ boundary +:+ "--";
    "" ].

(** The bytes. *)
Definition buildRFC5322 (h : host) (from : string) (to : list string) (subject body : string) (o : rfc_opts) : string :=
  utf8 (join crlf (if wants_attach o then mixed_lines h from to subject body o
                   else plain_lines h from to subject o ++ [""; body])).

(** ** Sending with OpenPGP *)

Record direct := Direct {
  d_from : string;
  d_recipient : string;
  d_subject : string;
  d_body : string;
  d_recipientArmored : string;
  d_senderArmored : string;
  d_senderFingerprint : string;
  d_localDelivery : bool;
  d_attachPublicKey : bool;
  d_cc : list string;
  d_bcc : list string;
  d_inReplyTo : string;
  d_references : string;
}.

Inductive posted :=
  | EncryptedMessage (recipient headerCiphertextB64 bodyCiphertextB64 senderHeaderCiphertextB64 senderBodyCiphertextB64
                      fromAddr : string) (toAddrs : list string)
  | Outbox (payloadCiphertextB64 : string) (recipientSummary : list string)
           (senderHeaderCiphertextB64 senderBodyCiphertextB64 fromAddr : string).

Section Send.
(** [encryptAndSignToRecipient(pub, bytes, fingerprint)] and [encryptToRecipient(pub, text)]. *)
Variable encrypt_sign : string -> string -> string -> res string.
Variable encrypt : string -> string -> res string.

Definition direct_opts (d : direct) : rfc_opts :=
  RfcOpts (d_attachPublicKey d && negb (trim (d_senderArmored d) =s? "")) (d_senderArmored d) (nonempty (d_cc d))
    (nonempty (d_bcc d)) (trim (d_inReplyTo d)) (trim (d_references d)).

(** The bytes that are encrypted to the recipient and to the sender. *)
Definition direct_text (h : host) (d : direct) : string :=
  buildRFC5322 h (d_from d) [d_recipient d] (d_subject d) (d_body d) (direct_opts d).

Definition direct_stub (d : direct) : jsval :=
  buildHeaderStub (d_from d) [d_recipient d] (nonempty (map canonicalEmailToken (nonempty (d_cc d))))
    (nonempty (map canonicalEmailToken (nonempty (d_bcc d)))) (d_subject d)
    (if o_attachPublicKey (direct_opts d)
     then match buildSenderPublicKeyAttachmentSummary (d_from d) (d_senderArmored d) with Some r => [r] | None => [] end
     else [])
    (trim (d_inReplyTo d)) (trim (d_references d)).

(** [loaded]: openpgp.js and the key vault are there. [h]: the values drawn for the text; [h']: those for the wrapper. *)
Definition sendPGPDirect (loaded : bool) (h h' : host) (d : direct) : res posted :=
  if negb loaded then Throw "crypto subsystem not loaded" else
  let rfc822 := direct_text h d in
  let stub := stringify (direct_stub d) in
  armoredBody <~ encrypt_sign (d_recipientArmored d) rfc822 (d_senderFingerprint d) ;;
  let bodyCiphertextB64 := bytesToB64 (utf8 armoredBody) in
  copies <~ (if d_senderArmored d =s? "" then Ok ("", "")
             else
               senderArmoredBody <~ encrypt_sign (d_senderArmored d) rfc822 (d_senderFingerprint d) ;;
               senderHeader <~ encrypt (d_senderArmored d) stub ;;
               Ok (bytesToB64 (utf8 senderHeader), bytesToB64 (utf8 senderArmoredBody))) ;;
  if d_localDelivery d then
    headerCiphertext <~ encrypt (d_recipientArmored d) stub ;;
    Ok (EncryptedMessage (d_recipient d) (bytesToB64 (utf8 headerCiphertext)) bodyCiphertextB64 copies.1 copies.2
          (d_from d) [d_recipient d])
  else
    Ok (Outbox (bytesToB64 (utf8 (buildPGPMIMEMessage h' (d_from d) [d_recipient d] (nonempty (d_cc d)) (d_subject d) armoredBody
                                    (trim (d_inReplyTo d)) (trim (d_references d)))))
          [d_recipient d] copies.1 copies.2 (d_from d)).
End Send.
