(* ===== verification/ComposeProps.v ===== *)
(** * Composer and reader together

    What the composer writes, read by the mail client: the plain form, the form
    with the sender's public key attached, and the blind copies. *)
From Stdlib Require Import ZArith NArith Lia Ascii.
From stdpp Require Import gmap strings.
From S2P Require Import Prelude JsString JsValue Split Base64 Text Patterns HtmlText Mime Payload Addresses Reader Compose.

(** ** The header as fields *)

Local Abbreviation F n v := (FieldSpec n v []).
Definition when (b : bool) (f : field_spec) : list field_spec := if b then [f] else [].

Definition addr_fields (to : list string) (subject : string) (o : rfc_opts) : list field_spec :=
  let ccJoin := list_header (nonempty (o_ccDisplay o)) in
  let bccJoin := list_header (nonempty (o_bccDisplay o)) in
  let irt := trim (o_inReplyTo o) in
  let refs := trim (o_references o) in
  [F "To" (list_header to)] ++ when (negb (ccJoin =s? "")) (F "Cc" ccJoin) ++ when (negb (bccJoin =s? "")) (F "Bcc" bccJoin) ++
  [F "Subject" (str_or subject "(no subject)")] ++ when (negb (irt =s? "")) (F "In-Reply-To" irt) ++
  when (negb (refs =s? "")) (F "References" refs).

Definition text_value : string := sdrop 14 text_type.

Definition head_fields (h : host) (from : string) (to : list string) (subject : string) (o : rfc_opts) : list field_spec :=
  [F "Date" (utc_date h); F "From" (str_or from "anonymous")] ++ addr_fields to subject o.
Definition plain_tail : list field_spec :=
  [F "Content-Type" text_value; F "Content-Transfer-Encoding" "8bit"; F "MIME-Version" "1.0"].
Definition mixed_tail (h : host) : list field_spec :=
  [F "MIME-Version" "1.0"; F "Content-Type" ("multipart/mixed; boundary=" +:+ dq +:+ mix_boundary h +:+ dq)].
Definition tail_fields (h : host) (o : rfc_opts) : list field_spec := if wants_attach o then mixed_tail h else plain_tail.

(** The fields of a composed message. *)
Definition message_fields (h : host) (from : string) (to : list string) (subject : string) (o : rfc_opts) : list field_spec :=
  head_fields h from to subject o ++ tail_fields h o.

Definition print_field (f : field_spec) : string := f_name f +:+ ": " +:+ f_value f.

Lemma fields_of_folds fs : Forall (fun f => f_folds f = []) fs -> fs ≫= field_lines = map print_field fs.
Proof. induction 1 as [|f fs Hf _ IH]; [done|]. cbn [mbind list_bind map]. rewrite <- IH. unfold field_lines. by rewrite Hf. Qed.

Lemma when_printed b f : header_when b (print_field f) = map print_field (when b f).
Proof. by destruct b. Qed.

Lemma addr_printed to subject o : addr_headers to subject o = map print_field (addr_fields to subject o).
Proof.
  unfold addr_headers, addr_fields. rewrite !map_app, <- !when_printed. reflexivity.
Qed.
Lemma when_folds b f : f_folds f = [] -> Forall (fun f => f_folds f = []) (when b f).
Proof. destruct b; by repeat constructor. Qed.
Lemma message_folds h from to subject o : Forall (fun f => f_folds f = []) (message_fields h from to subject o).
Proof.
  unfold message_fields, head_fields, addr_fields, tail_fields. rewrite !Forall_app.
  split_and!; try (by repeat constructor); try (by apply when_folds). destruct (wants_attach o); by repeat constructor.
Qed.

Lemma no_cr_field f : valid_field f = true -> no_char cr (print_field f) = true.
Proof.
  unfold valid_field, one_line, print_field. rewrite !andb_true_iff. intros ((((_ & Hc) & _ & Hcr) & _) & _).
  unfold no_char. rewrite !all_chars_app, !andb_true_iff. split_and!; [|done|exact Hcr].
  eapply all_chars_mono; [|exact Hc]. intros c. revert c. by_char.
Qed.

(** CRLF lines, a blank one and more of them. *)
Lemma crlf_block ls rest :
  ls <> [] -> rest <> [] -> Forall (fun l => no_char cr l = true) ls ->
  crlf_to_lf (join crlf (ls ++ "" :: rest)) = join lfs ls +:+ blank_line +:+ crlf_to_lf (join crlf rest).
Proof.
  intros Hne Hr H.
  assert (join crlf (ls ++ "" :: rest) = join crlf (ls ++ [""; join crlf rest])) as ->; [|by apply crlf_lines].
  clear H. induction ls as [|l ls IH]; [done|]. destruct ls as [|l' ls].
  - cbn [app]. rewrite !join_cons by (done || (by destruct rest)). reflexivity.
  - cbn [app] in *. rewrite (join_cons crlf l) by done. rewrite (join_cons crlf l (l' :: _)) by done. by rewrite IH.
Qed.

(** A composed message, read as the client reads it: its fields, a blank line,
    the rest with line feeds. *)
Lemma composed_text h from to subject body o rest :
  (if wants_attach o then mixed_lines h from to subject body o else plain_lines h from to subject o ++ [""; body]) =
    map print_field (message_fields h from to subject o) ++ "" :: rest ->
  rest <> [] -> forallb valid_field (message_fields h from to subject o) = true ->
  crlf_to_lf (decodeText (buildRFC5322 h from to subject body o)) =
    print_headers (message_fields h from to subject o) +:+ blank_line +:+ crlf_to_lf (join crlf rest).
Proof.
  intros Hl Hr Hv. unfold buildRFC5322. rewrite decodeText_utf8, Hl. rewrite crlf_block; [|done|done|].
  - unfold print_headers. by rewrite fields_of_folds by apply message_folds.
  - rewrite forallb_forall in Hv. apply Forall_fmap, Forall_forall. intros f Hf. cbn. apply no_cr_field, Hv.
    by apply list_elem_of_In.
Qed.

Lemma plain_text h from to subject body o :
  wants_attach o = false -> forallb valid_field (message_fields h from to subject o) = true ->
  crlf_to_lf (decodeText (buildRFC5322 h from to subject body o)) =
    print_headers (message_fields h from to subject o) +:+ blank_line +:+ crlf_to_lf body.
Proof.
  intros Ha Hv. rewrite (composed_text h from to subject body o [body]); [done| |done|done].
  rewrite Ha. unfold message_fields, tail_fields, plain_lines, head_fields. rewrite Ha, !map_app, addr_printed.
  rewrite <- !app_assoc. reflexivity.
Qed.

(** The two parts of a message with the key. *)
Definition text_part (body : string) : string :=
  text_type +:+ lfs +:+ "Content-Transfer-Encoding: 8bit" +:+ blank_line +:+ crlf_to_lf body +:+ lfs.
Definition sent_key (o : rfc_opts) : string := drop_last_crlf (normalizeCRLF (trim (o_senderArmoredPublic o))).
Definition key_part (fn key : string) : string :=
  "Content-Type: application/pgp-keys; name=" +:+ dq +:+ fn +:+ dq +:+ lfs +:+
  "Content-Disposition: attachment; filename=" +:+ dq +:+ fn +:+ dq +:+ lfs +:+
  "Content-Transfer-Encoding: 7bit" +:+ blank_line +:+ key +:+ lfs.

(** ** The plain form *)

Lemma no_name l k : forallb (fun f => negb (to_lower (f_name f) =s? k)) l = true -> Forall (fun f => to_lower (f_name f) <> k) l.
Proof. intros H. apply Forall_forall. intros f Hf%list_elem_of_In. rewrite forallb_forall in H. apply H in Hf. by apply negb_true_iff, String.eqb_neq in Hf. Qed.

(** Only fields of these names come before the last ones. *)
Lemma head_names h from to subject o k :
  str_mem k ["date"; "from"; "to"; "cc"; "bcc"; "subject"; "in-reply-to"; "references"] = false ->
  Forall (fun f => to_lower (f_name f) <> k) (head_fields h from to subject o).
Proof.
  intros Hk. assert (forall n, str_mem (to_lower n) ["date"; "from"; "to"; "cc"; "bcc"; "subject"; "in-reply-to"; "references"] = true -> to_lower n <> k) as H
    by (intros n Hn E; congruence).
  unfold head_fields, addr_fields. rewrite !Forall_app.
  assert (forall b n v, str_mem (to_lower n) ["date"; "from"; "to"; "cc"; "bcc"; "subject"; "in-reply-to"; "references"] = true ->
            Forall (fun f => to_lower (f_name f) <> k) (when b (F n v))) as Hw
    by (intros [] n v Hn; repeat constructor; by apply H).
  split_and!; try (by apply Hw); repeat constructor; by apply H.
Qed.

Lemma known_message h from to subject o : 2 <= known_count (message_fields h from to subject o).
Proof. unfold message_fields, known_count, head_fields. cbn [app List.filter f_name]. change (str_mem (to_lower "Date") App.known_headers) with true. change (str_mem (to_lower "From") App.known_headers) with true. cbn [length]. lia. Qed.

(** A text leaf in the encoding the composer declares. *)
Lemma plain_envelope DOM hs body :
  header hs "content-type" = text_value -> header hs "content-transfer-encoding" = "8bit" -> header hs "content-disposition" = "" ->
  envelope_of App.decodeMailBody (htmlToDisplayText DOM) hs body = Ok (Envelope body "" []).
Proof.
  intros Hct Hcte Hcd. unfold envelope_of. cbn [parseMimeEntity]. rewrite Hct, Hcte, Hcd.
  change (kind_of text_value) with "text/plain".
  change (isAttachment "text/plain" "" (part_filename "" text_value)) with false.
  change (starts_with "text/plain" "multipart/") with false. cbv iota.
  assert (parse_leaf App.decodeMailBody (htmlToDisplayText DOM) "text/plain" body "8bit" =
            Ok (Entity body "" (scoreBodyText "text/plain" body) [])) as -> by reflexivity.
  cbn [res_bind bodyScore attachments bodyText bodyHtml negb].
  change (App.decodeMailBody body "8bit") with (Ok body). cbn [res_bind].
  change (starts_with (to_lower text_value) "multipart/") with false.
  by destruct ((0 <? scoreBodyText "text/plain" body)%Z || false || false).
Qed.

(** C37: What is written is read: a message composed without an attached key is
    shown by the client with its body as typed, line ends aside, no HTML and no
    attachments, for all header values without line ends, as long as its headers
    stay within the 32 KiB the reader looks at. *)
Theorem composed_message_reads_back DOM h from to subject body o :
  wants_attach o = false -> forallb valid_field (message_fields h from to subject o) = true ->
  (Z.of_nat (String.length (print_headers (message_fields h from to subject o))) <= App.HEADER_LIMIT)%Z ->
  App.extractDisplayEnvelope DOM (decodeText (buildRFC5322 h from to subject body o)) = Ok (Envelope (crlf_to_lf body) "" []).
Proof.
  intros Ha Hv Hl.
  rewrite (extract_print DOM (message_fields h from to subject o) _ (crlf_to_lf body));
    [|done| |done|apply known_message|by apply plain_text].
  2: { apply Forall_forall. intros f Hf%list_elem_of_In. rewrite forallb_forall in Hv. by apply Hv. }
  assert (message_fields h from to subject o = ((head_fields h from to subject o ++ [F "Content-Type" text_value]) ++
            [F "Content-Transfer-Encoding" "8bit"]) ++ [F "MIME-Version" "1.0"]) as ->.
  { unfold message_fields, tail_fields. rewrite Ha, <- !app_assoc. reflexivity. }
  apply plain_envelope; rewrite !header_map_snoc; [reflexivity..|]. cbn [f_name].
  change (to_lower "MIME-Version" =s? "content-disposition") with false.
  change (to_lower "Content-Transfer-Encoding" =s? "content-disposition") with false.
  change (to_lower "Content-Type" =s? "content-disposition") with false. cbv iota. by apply header_absent, head_names.
Qed.

Definition sample_host : host := Host "0a1b" "2c3d" "1700000000000" "Tue, 14 Nov 2023 22:13:20 GMT".
Definition sample_opts : rfc_opts := RfcOpts false "" [] ["eve@x.org"; "dan@x.org"] "" "".
Lemma composed_message_reads_back_witness :
  App.extractDisplayEnvelope None (decodeText (buildRFC5322 sample_host "a@x.org" ["b@x.org"] "Hi" ("one" +:+ crlf +:+ "two") sample_opts)) =
  Ok (Envelope ("one" +:+ lfs +:+ "two") "" []).
Proof.
  refine (composed_message_reads_back None sample_host "a@x.org" ["b@x.org"] "Hi" ("one" +:+ crlf +:+ "two") sample_opts _ _ _);
    vm_compute; first [reflexivity | discriminate].
Defined.

(** ** The form with the key *)

Definition mixed_rest (h : host) (from body : string) (o : rfc_opts) : list string :=
  [ "--" +:+ mix_boundary h; text_type; "Content-Transfer-Encoding: 8bit"; ""; body; ""; "--" +:+ mix_boundary h;
    "Content-Type: application/pgp-keys; name=" +:+ dq +:+ publicKeyAscFilename from +:+ dq;
    "Content-Disposition: attachment; filename=" +:+ dq +:+ publicKeyAscFilename from +:+ dq;
    "Content-Transfer-Encoding: 7bit"; ""; sent_key o; ""; "--" +:+ mix_boundary h +:+ "--"; "" ].

Definition rest_lines (h : host) (from body : string) (o : rfc_opts) : list string :=
  if wants_attach o then mixed_rest h from body o else [body].

Lemma message_text h from to subject body o :
  forallb valid_field (message_fields h from to subject o) = true ->
  crlf_to_lf (decodeText (buildRFC5322 h from to subject body o)) =
    print_headers (message_fields h from to subject o) +:+ blank_line +:+ crlf_to_lf (join crlf (rest_lines h from body o)).
Proof.
  intros Hv. unfold rest_lines. apply composed_text; [|by destruct (wants_attach o)|done].
  unfold message_fields, tail_fields, head_fields.
  destruct (wants_attach o); [unfold mixed_lines|unfold plain_lines]; rewrite !map_app, addr_printed, <- !app_assoc; reflexivity.
Qed.

Lemma addr_bcc to subject o pre : header (header_map (pre ++ addr_fields to subject o)) "bcc" =
  if list_header (nonempty (o_bccDisplay o)) =s? "" then header (header_map (pre ++ [F "To" (list_header to)])) "bcc" else list_header (nonempty (o_bccDisplay o)).
Proof.
  unfold addr_fields. set (bcc := list_header (nonempty (o_bccDisplay o))).
  assert (forall l b n v, to_lower n <> "bcc" -> header (header_map (l ++ when b (F n v))) "bcc" = header (header_map l) "bcc") as Hw.
  { intros l [] n v Hn; cbn [when]; [|by rewrite app_nil_r]. rewrite header_map_snoc. cbn [f_name].
    by apply String.eqb_neq in Hn as ->. }
  rewrite !app_assoc. rewrite !Hw by done. rewrite header_map_snoc.
  change (to_lower (f_name (F "Subject" (str_or subject "(no subject)"))) =s? "bcc") with false. cbv iota.
  destruct (bcc =s? "") eqn:E; cbn [negb when].
  - rewrite app_nil_r. by apply Hw.
  - rewrite header_map_snoc. reflexivity.
Qed.

Lemma header_map_tail a tl k :
  Forall (fun f => to_lower (f_name f) <> k) tl -> header (header_map (a ++ tl)) k = header (header_map a) k.
Proof.
  induction tl as [|f tl IH] using rev_ind; [by rewrite app_nil_r|]. rewrite Forall_app, Forall_singleton. intros [Ht Hf].
  rewrite app_assoc, header_map_snoc. apply String.eqb_neq in Hf as ->. by apply IH.
Qed.

Lemma nonempty_idemp l : nonempty (nonempty l) = nonempty l.
Proof.
  unfold nonempty. induction l as [|x l IH]; [done|]. cbn [List.filter].
  destruct (x =s? "") eqn:E; cbn [negb]; [done|]. cbn [List.filter]. rewrite E. cbn [negb]. by rewrite IH.
Qed.

(** Blind copies are not blind: whenever a message with blind copies is
    sent with OpenPGP, the text that is encrypted to the recipient has a Bcc header
    that names all of them, with or without an attached key. *)
Theorem bcc_reaches_recipient encrypt_sign encrypt h h' d p :
  sendPGPDirect encrypt_sign encrypt true h h' d = Ok p ->
  forallb valid_field (message_fields h (d_from d) [d_recipient d] (d_subject d) (direct_opts d)) = true ->
  list_header (nonempty (d_bcc d)) <> "" ->
  exists armored hs body,
    encrypt_sign (d_recipientArmored d) (direct_text h d) (d_senderFingerprint d) = Ok armored /\
    match p with
    | EncryptedMessage r _ b _ _ _ _ => r = d_recipient d /\ b = bytesToB64 (utf8 armored)
    | Outbox b _ _ _ _ => exists irt refs, b = bytesToB64 (utf8 (buildPGPMIMEMessage h' (d_from d) [d_recipient d]
                             (nonempty (d_cc d)) (d_subject d) armored irt refs))
    end /\
    part_of (crlf_to_lf (decodeText (direct_text h d))) = Some (hs, body) /\
    header hs "bcc" = list_header (nonempty (d_bcc d)).
Proof.
  unfold sendPGPDirect. cbn [negb]. rewrite res_bind_ok. intros (armored & Henc & Hs) Hv Hb.
  rewrite res_bind_ok in Hs. destruct Hs as (copies & _ & Hs). exists armored.
  set (o := direct_opts d) in *. set (fs := message_fields h (d_from d) [d_recipient d] (d_subject d) o) in *.
  eexists (header_map fs), _. split_and!; [done| | |].
  - destruct (d_localDelivery d).
    + rewrite res_bind_ok in Hs. destruct Hs as (hc & _ & [= <-]). done.
    + injection Hs as <-. by do 2 eexists.
  - unfold direct_text. rewrite message_text by done. apply part_of_print; [done|].
    apply Forall_forall. intros f Hf%list_elem_of_In. rewrite forallb_forall in Hv. by apply Hv.
  - assert (header (header_map fs) "bcc" = header (header_map (head_fields h (d_from d) [d_recipient d] (d_subject d) o)) "bcc") as ->.
    { apply header_map_tail. unfold tail_fields. destruct (wants_attach o); apply no_name; reflexivity. }
    unfold head_fields. rewrite addr_bcc. change (nonempty (o_bccDisplay o)) with (nonempty (nonempty (d_bcc d))).
    rewrite nonempty_idemp.
    by apply String.eqb_neq in Hb as ->.
Qed.

Definition sample_direct : direct :=
  Direct "a@x.org" "b@x.org" "Hi" "text" "PUB-B" "" "AA" true false [] ["eve@x.org"; "dan@x.org"] "" "".
Definition toy_encrypt_sign (pub data fp : string) : res string := Ok (pub +:+ "|" +:+ data).
Lemma bcc_reaches_recipient_witness :
  exists armored hs body, toy_encrypt_sign "PUB-B" (direct_text sample_host sample_direct) "AA" = Ok armored /\
    part_of (crlf_to_lf (decodeText (direct_text sample_host sample_direct))) = Some (hs, body) /\
    header hs "bcc" = "eve@x.org, dan@x.org".
Proof.
  destruct (bcc_reaches_recipient toy_encrypt_sign (fun _ s => Ok s) sample_host sample_host sample_direct _ eq_refl)
    as (armored & hs & body & H1 & _ & H2 & H3); [vm_compute; reflexivity|vm_compute; discriminate|].
  exists armored, hs, body. split; [exact H1|]. split; [exact H2|exact H3].
Defined.

Lemma crlf_two c d s : crlf_to_lf (String c (String d s)) =
  if Ascii.eqb c cr && Ascii.eqb d lf then String lf (crlf_to_lf s) else String c (crlf_to_lf (String d s)).
Proof. done. Qed.
(** CRLF splits the conversion of a text, whatever comes before it. *)
Lemma crlf_app s r : crlf_to_lf (s +:+ crlf +:+ r) = crlf_to_lf s +:+ lfs +:+ crlf_to_lf r.
Proof.
  enough (forall n s, String.length s < n -> crlf_to_lf (s +:+ crlf +:+ r) = crlf_to_lf s +:+ lfs +:+ crlf_to_lf r) as H
    by (apply (H (S (String.length s))); lia). clear s.
  induction n as [|n IH]; intros s Hn; [lia|]. destruct s as [|c [|d s]]; [done| |].
  - cbn [String.append]. unfold crlf. cbn [String.append crlf_to_lf]. by destruct (Ascii.eqb c cr).
  - cbn [String.append]. rewrite !crlf_two. cbn [String.length] in Hn. destruct (Ascii.eqb c cr && Ascii.eqb d lf).
    + rewrite IH by lia. done.
    + change (String d (s +:+ crlf +:+ r)) with (String d s +:+ crlf +:+ r). rewrite IH by (cbn [String.length]; lia). done.
Qed.

Lemma mixed_body h from body o :
  all_chars is_hex (hex_a h) = true -> no_char cr (publicKeyAscFilename from) = true ->
  crlf_to_lf (join crlf (mixed_rest h from body o)) =
    print_parts (mix_boundary h) [text_part body; key_part (publicKeyAscFilename from) (crlf_to_lf (sent_key o))].
Proof.
  intros Hh Hf. unfold mixed_rest.
  assert (no_char cr (mix_boundary h) = true) as Hb.
  { unfold mix_boundary, no_char. rewrite all_chars_app. apply andb_true_iff. split; [done|].
    eapply all_chars_mono; [|exact Hh]. intros c. revert c. by_char. }
  assert (forall a b, no_char cr a = true -> no_char cr b = true -> no_char cr (a +:+ b) = true) as Happ
    by (intros a b Ha Hb'; unfold no_char in *; by rewrite all_chars_app, Ha).
  repeat (rewrite join_cons by done). rewrite !crlf_app. unfold text_part, key_part. cbn [print_parts].
  rewrite (no_cr_crlf ("--" +:+ mix_boundary h)), (no_cr_crlf text_type), (no_cr_crlf "Content-Transfer-Encoding: 8bit"),
    (no_cr_crlf ""), (no_cr_crlf "Content-Transfer-Encoding: 7bit"), (no_cr_crlf ("--" +:+ mix_boundary h +:+ "--")) by (reflexivity || auto).
  rewrite (no_cr_crlf ("Content-Type: application/pgp-keys; name=" +:+ _)) by (repeat (apply Happ; [reflexivity|]); by apply Happ).
  rewrite (no_cr_crlf ("Content-Disposition: attachment; filename=" +:+ _)) by (repeat (apply Happ; [reflexivity|]); by apply Happ).
  rewrite !sapp_assoc. reflexivity.
Qed.

(** *** The parts as the reader sees them *)

Lemma find_param_step key ok c s :
  ci_starts_with (String c s) key = false -> find_param key ok (String c s) = find_param key ok s.
Proof. intros H. cbn [find_param]. by rewrite H. Qed.
Lemma find_param_here key ok s v r :
  ci_starts_with s key = true -> span_chars ok (skip_quote (sdrop (String.length key) s)) = (v, r) -> v <> "" ->
  find_param key ok s = Some v.
Proof. intros H1 H2 Hv. apply String.eqb_neq in Hv. destruct s; cbn [find_param]; rewrite H1, H2; cbn [fst]; by rewrite Hv. Qed.

Lemma quoted_span ok v : all_chars ok v = true -> ok dquote_char = false -> span_chars ok (v +:+ dq) = (v, dq).
Proof. intros. unfold dq, dquote. by apply span_chars_stop. Qed.

Lemma boundary_of_type b :
  all_chars boundary_char b = true -> b <> "" ->
  re_boundary ("multipart/mixed; boundary=" +:+ dq +:+ b +:+ dq) = Some b.
Proof.
  intros Hb Hne. unfold re_boundary. cbn [String.append].
  do 17 (rewrite find_param_step by reflexivity). apply find_param_here with dq; [reflexivity| |done].
  by apply quoted_span.
Qed.
Lemma filename_of_disposition fn :
  all_chars not_quote fn = true -> fn <> "" -> re_filename ("attachment; filename=" +:+ dq +:+ fn +:+ dq) = Some fn.
Proof.
  intros Hb Hne. unfold re_filename. cbn [String.append].
  do 12 (rewrite find_param_step by reflexivity). apply find_param_here with dq; [reflexivity| |done].
  by apply quoted_span.
Qed.

Lemma ends_char a c : ends_with (a +:+ String c "") "--" = true -> c = "-"%char.
Proof.
  intros (x & E)%ends_with_spec. change "--" with ("-" +:+ String "-" "") in E. rewrite <- sapp_assoc in E.
  revert E. generalize (x +:+ "-"). induction a as [|d a IH]; intros y E.
  - destruct y as [|e y]; [by injection E|]. destruct y; discriminate E.
  - destruct y as [|e y]; [destruct a; discriminate E|]. injection E as _ E. by apply IH in E.
Qed.

(** A part that begins and ends with something visible, the end not a hyphen. *)
Lemma trimmed_visible c a t d w :
  is_ws c = false -> is_ws d = false -> d <> "-"%char -> all_chars is_ws w = true ->
  trimmed_part (String c a +:+ t +:+ String d "" +:+ w) = Some (String c a +:+ t +:+ String d "").
Proof.
  intros Hc Hd Hne Hw. unfold trimmed_part.
  assert (trim (String c a +:+ t +:+ String d "" +:+ w) = String c a +:+ t +:+ String d "") as ->.
  { rewrite <- (sapp_assoc t), <- (sapp_assoc (String c a)), trim_app_ws by done. unfold trim.
    cbn [String.append trim_start]. rewrite Hc. change (String c (a +:+ t +:+ String d "")) with (String c a +:+ t +:+ String d "").
    rewrite <- sapp_assoc. by apply Payload.trim_end_stop. }
  assert ((String c a +:+ t +:+ String d "" =s? "--") = false) as ->.
  { apply String.eqb_neq. intros E. apply Hne. rewrite <- sapp_assoc in E.
    apply (ends_char (String c a +:+ t)). rewrite E. reflexivity. }
  assert (ends_with (String c a +:+ t +:+ String d "") "--" = false) as ->.
  { apply not_true_iff_false. intros E. rewrite <- sapp_assoc in E. by apply ends_char in E. }
  reflexivity.
Qed.

Definition KEY_CUT : string := "-----END PGP PUBLIC KEY BLOCK---".

(** A part that ends with the closing line of a public key loses two hyphens. *)
Lemma trimmed_key c a w :
  is_ws c = false -> all_chars is_ws w = true ->
  trimmed_part (String c a +:+ END_KEY +:+ w) = Some (String c a +:+ KEY_CUT).
Proof.
  intros Hc Hw. unfold trimmed_part.
  assert (trim (String c a +:+ END_KEY +:+ w) = String c a +:+ END_KEY) as ->.
  { rewrite <- (sapp_assoc (String c a)), trim_app_ws by done. unfold trim. cbn [String.append trim_start]. rewrite Hc.
    change (String c (a +:+ END_KEY)) with (String c a +:+ "-----END PGP PUBLIC KEY BLOCK----" +:+ String "-" "").
    rewrite <- sapp_assoc. by apply Payload.trim_end_stop. }
  change END_KEY with (KEY_CUT +:+ "--").
  assert ((String c a +:+ KEY_CUT +:+ "--" =s? "--") = false) as ->.
  { apply String.eqb_neq. intros E. apply (f_equal String.length) in E. rewrite !slength_app in E. cbn in E. lia. }
  assert (((String c a +:+ KEY_CUT +:+ "--") =s? "") = false) as -> by done. cbn [orb].
  rewrite <- sapp_assoc. assert (ends_with ((String c a +:+ KEY_CUT) +:+ "--") "--" = true) as -> by (apply ends_with_spec; by eexists).
  rewrite (Payload.sinit_of_app (String c a +:+ KEY_CUT) "--" : sinit 2 _ = _).
  assert (trim (String c a +:+ KEY_CUT) = String c a +:+ KEY_CUT) as ->; [|done].
  unfold trim. cbn [String.append trim_start]. rewrite Hc.
  change (String c (a +:+ KEY_CUT)) with (String c a +:+ "-----END PGP PUBLIC KEY BLOCK--" +:+ String "-" "").
  rewrite <- sapp_assoc. by apply Payload.trim_end_stop.
Qed.

Definition text_fields : list field_spec := [F "Content-Type" text_value; F "Content-Transfer-Encoding" "8bit"].
Definition key_fields (fn : string) : list field_spec :=
  [F "Content-Type" ("application/pgp-keys; name=" +:+ dq +:+ fn +:+ dq);
   F "Content-Disposition" ("attachment; filename=" +:+ dq +:+ fn +:+ dq);
   F "Content-Transfer-Encoding" "7bit"].

Definition file_char (c : ascii) : bool := safe_char c.
Lemma file_char_line fn : all_chars file_char fn = true -> no_char lf fn = true /\ no_char cr fn = true /\ all_chars not_quote fn = true.
Proof.
  intros H. split_and!; (eapply all_chars_mono; [|exact H]); intros c; revert c; by_char.
Qed.

Lemma key_fields_valid fn : all_chars file_char fn = true -> Forall (fun f => valid_field f = true) (key_fields fn).
Proof.
  intros (H1 & H2 & _)%file_char_line. unfold key_fields.
  assert (forall a, no_char lf a = true -> no_char cr a = true -> one_line (a +:+ dq +:+ fn +:+ dq) = true) as Ho.
  { intros a Ha Hb. unfold one_line, no_char in *. rewrite !all_chars_app, Ha, Hb, H1, H2. done. }
  assert (forall n a, valid_field (F n a) = negb (n =s? "") && all_chars header_char n && one_line a && (trim_start a =s? a) && true) as Hv by done.
  constructor; [|constructor; [|constructor; [reflexivity|constructor]]]; rewrite Hv, Ho by done; cbn [andb];
    by rewrite andb_true_r; apply String.eqb_refl.
Qed.

Lemma text_leaf DOM t : trim t <> "" ->
  App.parseMimeEntity DOM 7 (header_map text_fields) t = Ok (Entity t "" 3 []).
Proof.
  intros Ht. unfold App.parseMimeEntity. cbn [parseMimeEntity].
  change (header (header_map text_fields) "content-type") with text_value.
  change (header (header_map text_fields) "content-disposition") with "".
  change (header (header_map text_fields) "content-transfer-encoding") with "8bit".
  change (kind_of text_value) with "text/plain".
  change (isAttachment "text/plain" "" (part_filename "" text_value)) with false.
  change (starts_with "text/plain" "multipart/") with false. cbv iota.
  assert (scoreBodyText "text/plain" t = 3%Z) as Hs by (unfold scoreBodyText; by apply String.eqb_neq in Ht as ->).
  rewrite <- Hs. reflexivity.
Qed.

Lemma key_leaf DOM fn key : all_chars file_char fn = true -> fn <> "" ->
  App.parseMimeEntity DOM 7 (header_map (key_fields fn)) key = Ok (Entity "" "" 0 [Attachment fn "application/pgp-keys" key]).
Proof.
  intros Hf Hne. apply file_char_line in Hf as (_ & _ & Hq). unfold App.parseMimeEntity. cbn [parseMimeEntity].
  change (header (header_map (key_fields fn)) "content-type") with ("application/pgp-keys; name=" +:+ dq +:+ fn +:+ dq).
  change (header (header_map (key_fields fn)) "content-disposition") with ("attachment; filename=" +:+ dq +:+ fn +:+ dq).
  change (header (header_map (key_fields fn)) "content-transfer-encoding") with "7bit".
  change (kind_of ("application/pgp-keys; name=" +:+ dq +:+ fn +:+ dq)) with "application/pgp-keys".
  unfold part_filename. rewrite filename_of_disposition by done.
  assert (isAttachment "application/pgp-keys" ("attachment; filename=" +:+ dq +:+ fn +:+ dq) fn = true) as -> by reflexivity.
  unfold str_or. apply String.eqb_neq in Hne as ->. reflexivity.
Qed.

Lemma visible_not_blank t d : is_ws d = false -> trim (t +:+ String d "") <> "".
Proof.
  intros Hd. induction t as [|c t IH]; [unfold trim; cbn; by rewrite Hd; cbn; rewrite Hd|].
  unfold trim in *. cbn [String.append trim_start]. destruct (is_ws c); [exact IH|].
  change (String c (t +:+ String d "")) with (String c t +:+ String d ""). by rewrite Payload.trim_end_stop.
Qed.

Lemma no_blocks s skip : includes s END_KEY = false -> all_blocks BEGIN_KEY END_KEY skip s = [].
Proof.
  revert skip. induction s as [|c s IH]; intros skip H; [done|]. pose proof (includes_cons_false _ _ _ H) as [_ Hs].
  cbn [all_blocks]. destruct skip; [|by apply IH]. destruct (starts_with (String c s) BEGIN_KEY); [|by apply IH].
  destruct (upto_marker [END_KEY] _) eqn:E; [|by apply IH].
  apply Payload.upto_marker_includes, Payload.includes_sdrop in E. congruence.
Qed.

Lemma safe_name_safe r s : all_chars file_char (safe_name_go r s) = true.
Proof.
  revert r. induction s as [|c s IH]; intros r; [done|]. cbn [safe_name_go]. destruct (safe_char c) eqn:E.
  - cbn [all_chars]. unfold file_char at 1. by rewrite E, IH.
  - destruct r; [apply IH|]. cbn [all_chars]. by rewrite IH.
Qed.
Lemma filename_safe from : all_chars file_char (publicKeyAscFilename from) = true /\ publicKeyAscFilename from <> "".
Proof. unfold publicKeyAscFilename. split; [|done]. by rewrite !all_chars_app, safe_name_safe. Qed.

Lemma mixed_boundary h : all_chars is_hex (hex_a h) = true ->
  all_chars boundary_char (mix_boundary h) = true /\ valid_boundary (mix_boundary h) = true.
Proof.
  intros H. unfold valid_boundary, mix_boundary, no_char. rewrite !all_chars_app.
  split; (apply andb_true_iff; split; [done|]); try (apply andb_true_iff; split; [done|]);
    (eapply all_chars_mono; [|exact H]); intros c; revert c; by_char.
Qed.

(** The parts a reader splits the body of such a message into. *)
Lemma mixed_parts h from body o t d w k :
  all_chars is_hex (hex_a h) = true ->
  crlf_to_lf body = t +:+ String d "" +:+ w -> is_ws d = false -> d <> "-"%char -> all_chars is_ws w = true ->
  crlf_to_lf (sent_key o) = k +:+ END_KEY ->
  includes (text_part body) ("--" +:+ mix_boundary h) = false ->
  includes (key_part (publicKeyAscFilename from) (k +:+ END_KEY)) ("--" +:+ mix_boundary h) = false ->
  splitMultipartBody (crlf_to_lf (join crlf (mixed_rest h from body o))) (mix_boundary h) =
    [print_headers text_fields +:+ blank_line +:+ t +:+ String d "";
     print_headers (key_fields (publicKeyAscFilename from)) +:+ blank_line +:+ k +:+ KEY_CUT].
Proof.
  intros Hh Hb Hd Hne Hw Hk Ht Hkp. destruct (mixed_boundary h Hh) as [_ Hvb].
  destruct (filename_safe from) as [Hf _]. apply file_char_line in Hf as (_ & Hcr & _).
  rewrite mixed_body by done. rewrite Hk. unfold splitMultipartBody.
  change (print_parts _ ?l) with ("" +:+ print_parts (mix_boundary h) l). rewrite split_parts; [|done|by repeat constructor|done].
  cbn [map app omap list_omap]. rewrite !trimmed_part_around.
  change (trimmed_part "") with (@None string). change (trimmed_part ("--" +:+ lfs)) with (@None string). cbv iota.
  assert (text_part body = print_headers text_fields +:+ blank_line +:+ t +:+ String d "" +:+ (w +:+ lfs)) as ->.
  { unfold text_part. rewrite Hb, !sapp_assoc. reflexivity. }
  assert (key_part (publicKeyAscFilename from) (k +:+ END_KEY) =
            print_headers (key_fields (publicKeyAscFilename from)) +:+ blank_line +:+ k +:+ END_KEY +:+ lfs) as ->.
  { unfold key_part, print_headers, key_fields. cbn [mbind list_bind field_lines f_name f_value f_folds map app].
    repeat (rewrite join_cons by done). rewrite !sapp_assoc. reflexivity. }
  pose proof (trimmed_visible "C" (sdrop 1 (print_headers text_fields) +:+ blank_line) t d (w +:+ lfs) eq_refl Hd Hne) as E1.
  rewrite <- (sapp_assoc _ blank_line (t +:+ _)).
  change (print_headers text_fields +:+ blank_line) with (String "C" (sdrop 1 (print_headers text_fields) +:+ blank_line)).
  rewrite E1 by (by rewrite all_chars_app, Hw).
  set (hk := print_headers (key_fields (publicKeyAscFilename from))).
  assert (hk = String "C" (sdrop 1 hk)) as Eh by reflexivity. rewrite Eh.
  rewrite <- !(sapp_assoc (String "C" (sdrop 1 hk))), <- (sapp_assoc _ k (END_KEY +:+ lfs)).
  change ((String "C" (sdrop 1 hk) +:+ blank_line) +:+ k) with (String "C" ((sdrop 1 hk +:+ blank_line) +:+ k)).
  rewrite trimmed_key by done.
  change (String "C" ((sdrop 1 hk +:+ blank_line) +:+ k)) with ((String "C" (sdrop 1 hk) +:+ blank_line) +:+ k).
  change (String "C" (sdrop 1 (print_headers text_fields) +:+ blank_line)) with (print_headers text_fields +:+ blank_line).
  by rewrite !sapp_assoc.
Qed.

(** An attached key does not arrive: of a message composed with the
    sender's public key, the reader shows the text as typed up to white space at its
    end, but the attached file lacks the last two hyphens of its closing line, which
    the splitter of parts takes for the end of the message, and no key is found in
    it. *)
Theorem attached_key_is_cut DOM h from to subject body o t d w k :
  wants_attach o = true -> forallb valid_field (message_fields h from to subject o) = true ->
  (Z.of_nat (String.length (print_headers (message_fields h from to subject o))) <= App.HEADER_LIMIT)%Z ->
  all_chars is_hex (hex_a h) = true ->
  crlf_to_lf body = t +:+ String d "" +:+ w -> is_ws d = false -> d <> "-"%char -> all_chars is_ws w = true ->
  crlf_to_lf (sent_key o) = k +:+ END_KEY -> includes (decodeText (k +:+ KEY_CUT)) END_KEY = false ->
  includes (text_part body) ("--" +:+ mix_boundary h) = false ->
  includes (key_part (publicKeyAscFilename from) (k +:+ END_KEY)) ("--" +:+ mix_boundary h) = false ->
  let file := Attachment (publicKeyAscFilename from) "application/pgp-keys" (k +:+ KEY_CUT) in
  App.extractDisplayEnvelope DOM (decodeText (buildRFC5322 h from to subject body o)) =
    Ok (Envelope (t +:+ String d "") "" [file]) /\
  extractPublicKeysFromMimeAttachments [file] = [].
Proof.
  intros Ha Hv Hl Hh Hb Hd Hne Hw Hk Hnk Ht Hkp file. split.
  - rewrite (extract_print DOM (message_fields h from to subject o) _ (crlf_to_lf (join crlf (mixed_rest h from body o))));
      [|done| |done|apply known_message|].
    2: { apply Forall_forall. intros f Hf%list_elem_of_In. rewrite forallb_forall in Hv. by apply Hv. }
    2: { rewrite message_text by done. unfold rest_lines. by rewrite Ha. }
    set (hm := header_map (message_fields h from to subject o)).
    set (ct := "multipart/mixed; boundary=" +:+ dq +:+ mix_boundary h +:+ dq).
    assert (message_fields h from to subject o =
              (head_fields h from to subject o ++ [F "MIME-Version" "1.0"]) ++ [F "Content-Type" ct]) as Hm.
    { unfold message_fields, tail_fields. rewrite Ha, <- app_assoc. reflexivity. }
    assert (header hm "content-type" = ct) as Hct by (unfold hm; rewrite Hm, header_map_snoc; reflexivity).
    assert (header hm "content-disposition" = "") as Hcd.
    { unfold hm. rewrite Hm, !header_map_snoc. cbn [f_name]. change (to_lower "Content-Type" =s? "content-disposition") with false.
      change (to_lower "MIME-Version" =s? "content-disposition") with false. cbv iota. by apply header_absent, head_names. }
    destruct (mixed_boundary h Hh) as [Hbc _]. destruct (filename_safe from) as [Hfs Hfn].
    assert (kind_of ct = "multipart/mixed") as Hkd by reflexivity.
    unfold envelope_of. rewrite (parse_container _ _ 7 hm _ (mix_boundary h)); rewrite ?Hct, ?Hcd, ?Hkd; [|..|by apply boundary_of_type].
    2: { unfold isAttachment. change (starts_with "multipart/mixed" "multipart/") with true. by rewrite andb_false_r. }
    2-3: reflexivity.
    rewrite (mixed_parts h from body o t d w k) by done. cbn [merge_parts].
    rewrite part_of_print by (done || (by repeat constructor)).
    change (Mime.parseMimeEntity App.decodeMailBody (htmlToDisplayText DOM) 7) with (App.parseMimeEntity DOM 7).
    rewrite text_leaf by (by apply visible_not_blank). cbn [res_bind].
    rewrite part_of_print by (done || by apply key_fields_valid).
    rewrite key_leaf by done. reflexivity.
  - unfold extractPublicKeysFromMimeAttachments, attachment_blocks, file. cbn [foldl content_type file_name bytes].
    change (looks_key (to_lower "application/pgp-keys") _) with true. cbn [negb andb]. by rewrite no_blocks.
Qed.

Definition key_opts : rfc_opts :=
  RfcOpts true (BEGIN_KEY +:+ crlf +:+ crlf +:+ "mDMEZ" +:+ crlf +:+ END_KEY) [] [] "" "".
Lemma attached_key_is_cut_witness :
  App.extractDisplayEnvelope None (decodeText (buildRFC5322 sample_host "a@x.org" ["b@x.org"] "Hi" "see you." key_opts)) =
  Ok (Envelope "see you." "" [Attachment "public-a_x.org.asc" "application/pgp-keys"
        ((BEGIN_KEY +:+ lfs +:+ lfs +:+ "mDMEZ" +:+ lfs) +:+ KEY_CUT)]).
Proof.
  refine (proj1 (attached_key_is_cut None sample_host "a@x.org" ["b@x.org"] "Hi" "see you." key_opts "see you" "." ""
    (BEGIN_KEY +:+ lfs +:+ lfs +:+ "mDMEZ" +:+ lfs) _ _ _ _ _ _ _ _ _ _ _ _));
    first [discriminate | vm_compute; first [reflexivity | discriminate]].
Defined.
