(* ===== verification/ProtectedLink.v ===== *)
(** * Protected links

    The composer's protected-link mode ([mail/compose.jsx]) and the recipient's
    page ([protected/open.js]): the message key under the password, the sealed
    body, the requests, and the phases of the page. *)
From Stdlib Require Import ZArith NArith Lia Ascii.
From stdpp Require Import gmap strings.
From S2P Require Import Prelude JsString JsValue Split Base64 Text Patterns HtmlText Mime Addresses Keygen ComposeProps.

Section Link.
Context `{WebCrypto}.
Variable JSON_parse : string -> option jsval.
Variable DOMParser : option dom.

(** ** compose.jsx: sending *)

Record link_request := LinkRequest {
  lr_subject_hint : string;
  lr_recipient_emails : list string;
  lr_notify_recipients : bool;
  lr_notify_from_addr : string;
  lr_ttl_seconds : Z;
  lr_max_views : Z;
  lr_kdf : string;
  lr_kdf_salt_b64 : string;
  lr_kdf_params_json : string;
  lr_wrapped_msg_key_b64 : string;
  lr_body_ciphertext_b64 : string;
}.

(** The loop over the recipients: canonical, each once. *)
Fixpoint distinct_recipients (seen : list string) (displays : list string) : list string :=
  match displays with
  | [] => []
  | d :: ds =>
      let c := canonicalEmailToken d in
      if (c =s? "") || str_mem c seen then distinct_recipients seen ds else c :: distinct_recipients (c :: seen) ds
  end.

Definition link_text (from subject body : string) : string :=
  "From: " +:+ str_or from "anonymous" +:+ crlf +:+ "Subject: " +:+ str_or subject "(no subject)" +:+ crlf +:+ crlf +:+ body.

(** [msgKeyBytes], [msgNonce], [salt], [wrapNonce]: random bytes. *)
Definition sendProtectedLink (msgKeyBytes msgNonce salt wrapNonce : string) (from to cc subject body password : string)
    (ttlSeconds maxViews : Z) (notify : bool) : res link_request :=
  let recipients := distinct_recipients [] (splitAddressList to ++ splitAddressList cc) in
  msgKey <~ importKey msgKeyBytes ;;
  let payloadCt := msgNonce +:+ gcm_encrypt msgKey msgNonce (utf8 (link_text from subject body)) in
  d <~ deriveKEK password salt JUndef JUndef ;;
  let wrapped := aesWrap wrapNonce (d_key d) msgKeyBytes in
  Ok (LinkRequest subject recipients notify from ttlSeconds maxViews (d_kdf d) (bytesToB64 salt)
        (stringify (js_or (d_params d) (JObj []))) (bytesToB64 wrapped) (bytesToB64 payloadCt)).

(** ** protected/open.js: opening *)

Definition open_deriveKEK (password salt : string) (kdfHint params : jsval) : res aeskey :=
  d <~ deriveKEK password salt kdfHint (js_or params (JObj [])) ;; Ok (d_key d).

Definition open_aesUnwrap (kek : aeskey) (wrappedBytes : string) : res string :=
  if String.length wrappedBytes <? 12 then Throw "wrapped key too short"
  else gcm_decrypt kek (stake 12 wrappedBytes) (sdrop 12 wrappedBytes).

Definition aesOpen (msgKeyBytes payloadBytes : string) : res string :=
  if String.length payloadBytes <? 12 then Throw "ciphertext too short"
  else key <~ importKey msgKeyBytes ;; gcm_decrypt key (stake 12 payloadBytes) (sdrop 12 payloadBytes).

(** The reply of the open endpoint. *)
Record open_reply := OpenReply {
  or_status : Z;
  or_kdf : string;
  or_kdf_salt_b64 : string;
  or_kdf_params_json : string;
  or_wrapped_msg_key_b64 : string;
  or_ciphertext_b64 : string;
  or_views_remaining : option Z;
  or_burned : bool;
}.
Definition reply_ok (r : open_reply) : bool := (200 <=? or_status r)%Z && (or_status r <=? 299)%Z.

Record opened := Opened { op_text : string; op_viewsRemaining : option Z; op_burned : bool }.

Definition unlockAndDecrypt (r : open_reply) (password : string) : res opened :=
  if (or_status r =? 410)%Z then Throw "link expired or all views consumed"
  else if (or_status r =? 404)%Z then Throw "link not found"
  else if (or_status r =? 429)%Z then Throw "too many attempts - slow down"
  else if negb (reply_ok r) then Throw ("HTTP " +:+ Z_to_string (or_status r))
  else
    salt <~ Base64.b64ToBytes (or_kdf_salt_b64 r) ;;
    wrapped <~ Base64.b64ToBytes (or_wrapped_msg_key_b64 r) ;;
    cipher <~ Base64.b64ToBytes (or_ciphertext_b64 r) ;;
    let params := if or_kdf_params_json r =s? "" then JStr "" else default (JObj []) (JSON_parse (or_kdf_params_json r)) in
    kek <~ open_deriveKEK password salt (JStr (or_kdf r)) params ;;
    msgKey <~ open_aesUnwrap kek wrapped ;;
    plain <~ aesOpen msgKey cipher ;;
    Ok (Opened (decodeText plain) (or_views_remaining r) (or_burned r)).

(** ** The page

    In the texts shown, a slash stands for the middle dot and a hyphen for the dash. *)

Inductive phase := Locked | Decrypted | Burned.
Record page := Page {
  pg_phase : phase;
  pg_status : string;
  pg_err : string;
  pg_shown : option envelope;
}.

Record link_meta := LinkMeta { lm_status : Z; lm_expired : bool }.

(** [loadMeta] and [renderMeta]. *)
Definition init (pathname : string) (meta : link_meta) (p : page) : page :=
  if Open.readToken pathname =s? "" then Page (pg_phase p) "error" "no token in URL" (pg_shown p)
  else if negb ((200 <=? lm_status meta)%Z && (lm_status meta <=? 299)%Z) then Page Burned "error" (pg_err p) (pg_shown p)
  else if lm_expired meta then Page Burned "burned" (pg_err p) (pg_shown p)
  else Page (pg_phase p) "locked / awaiting password" (pg_err p) (pg_shown p).

(** The submit handler. [reply]: what the open endpoint answers. *)
Definition submit (reply : open_reply) (pw : string) (p : page) : page :=
  if pw =s? "" then Page (pg_phase p) (pg_status p) "password required" (pg_shown p)
  else
    match r <~ unlockAndDecrypt reply pw ;;
          e <~ Open.parseMimeEnvelope DOMParser (op_text r) ;; Ok (r, e)
    with
    | Throw e => Page (pg_phase p) "locked / awaiting password" e (pg_shown p)
    | Ok (r, e) =>
        Page Decrypted
          (if op_burned r then "burned / last view"
           else match op_viewsRemaining r with
                | Some n => if (0 <=? n)%Z then "decrypted / " +:+ Z_to_string n +:+ " views remain" else "decrypted"
                | None => "decrypted"
                end) "" (Some e)
    end.
End Link.

(** ** Sending and opening *)

Section Roundtrip.
Context `{WebCrypto}.
Variable JSON_parse : string -> option jsval.
Variable DOMParser : option dom.

Definition link_fields (from subject : string) : list field_spec :=
  [FieldSpec "From" (str_or from "anonymous") []; FieldSpec "Subject" (str_or subject "(no subject)") []].

Lemma link_text_lines from subject body :
  link_text from subject body = join crlf (map (fun f => f_name f +:+ ": " +:+ f_value f) (link_fields from subject) ++ [""; body]).
Proof.
  unfold link_text, link_fields. cbn [map app f_name f_value]. repeat (rewrite join_cons by done). rewrite !sapp_assoc. reflexivity.
Qed.

Lemma link_text_shown from subject body :
  forallb valid_field (link_fields from subject) = true ->
  Open.parseMimeEnvelope DOMParser (link_text from subject body) = Ok (Envelope (crlf_to_lf body) "" []).
Proof.
  intros Hv. assert (Forall (fun f => valid_field f = true) (link_fields from subject)) as Hf
    by (apply Forall_forall; intros f Hf%list_elem_of_In; rewrite forallb_forall in Hv; by apply Hv).
  unfold Open.parseMimeEnvelope.
  assert (crlf_to_lf (link_text from subject body) = print_headers (link_fields from subject) +:+ blank_line +:+ crlf_to_lf body) as ->.
  { rewrite link_text_lines, crlf_lines; [reflexivity|done|].
    apply Forall_fmap. eapply Forall_impl; [exact Hf|]. intros f Hff. exact (no_cr_field f Hff). }
  rewrite part_of_print by done. unfold envelope_of.
  assert (header (header_map (link_fields from subject)) "content-type" = "") as Hct by reflexivity.
  assert (header (header_map (link_fields from subject)) "content-disposition" = "") as Hcd by reflexivity.
  assert (header (header_map (link_fields from subject)) "content-transfer-encoding" = "") as Hte by reflexivity.
  assert (Mime.parseMimeEntity Open.decodeMailBody (htmlToDisplayText_open DOMParser) 8 (header_map (link_fields from subject)) (crlf_to_lf body) =
            Ok (Entity (crlf_to_lf body) "" (scoreBodyText "text/plain" (crlf_to_lf body)) [])) as -> by reflexivity.
  rewrite Hct, Hte. cbn [res_bind bodyScore attachments bodyText bodyHtml].
  change (Open.decodeMailBody (crlf_to_lf body) "") with (Ok (crlf_to_lf body)). cbn [res_bind].
  by destruct (_ || _).
Qed.

(** C39: A protected link opens: when sending succeeds, for a sender address and a subject
    that hold no line break and do not begin with white space, a recipient who gets
    back what was stored and types the same password is shown the body as typed, CR LF
    line ends being single line feeds; the page leaves the locked phase with no error, and its
    status is what the server says of the views: the last one when the link is burned, else
    how many remain when there is a count that is not negative, else only that the message
    is decrypted. *)
Theorem protected_link_roundtrip msgKeyBytes msgNonce salt wrapNonce from to cc subject body password ttl views notify req reply p :
  String.length msgNonce = 12 -> String.length wrapNonce = 12 -> password <> "" ->
  sendProtectedLink msgKeyBytes msgNonce salt wrapNonce from to cc subject body password ttl views notify = Ok req ->
  forallb valid_field (link_fields from subject) = true ->
  reply_ok reply = true ->
  or_kdf reply = lr_kdf req -> or_kdf_salt_b64 reply = lr_kdf_salt_b64 req ->
  or_kdf_params_json reply = lr_kdf_params_json req -> or_wrapped_msg_key_b64 reply = lr_wrapped_msg_key_b64 req ->
  or_ciphertext_b64 reply = lr_body_ciphertext_b64 req ->
  (forall d, deriveKEK password salt JUndef JUndef = Ok d -> JSON_parse (stringify (d_params d)) = Some (d_params d)) ->
  let p' := submit JSON_parse DOMParser reply password p in
  pg_phase p' = Decrypted /\ pg_shown p' = Some (Envelope (crlf_to_lf body) "" []) /\ pg_err p' = "" /\
  (or_burned reply = true -> pg_status p' = "burned / last view") /\
  (or_burned reply = false ->
     (forall n, (0 <= n)%Z -> or_views_remaining reply = Some n -> pg_status p' = "decrypted / " +:+ Z_to_string n +:+ " views remain") /\
     ((forall n, or_views_remaining reply = Some n -> (n < 0)%Z) -> pg_status p' = "decrypted")).
Proof.
  intros Hn Hw Hpw Hsend Hv Hok E1 E2 E3 E4 E5 Hjson p'.
  pose proof (link_text_shown from subject body Hv) as Hshow. revert Hsend Hshow. unfold sendProtectedLink.
  generalize (link_text from subject body). intros plain Hsend Hshow.
  apply res_bind_ok in Hsend as (key & Hkey & Hsend).
  apply res_bind_ok in Hsend as (d & Hd & [= <-]). cbn [lr_kdf lr_kdf_salt_b64 lr_kdf_params_json lr_wrapped_msg_key_b64 lr_body_ciphertext_b64] in *.
  assert (unlockAndDecrypt JSON_parse reply password = Ok (Opened plain (or_views_remaining reply) (or_burned reply))) as Hu.
  { pose proof (kdf_row_nonempty _ _ _ _ ltac:(by left) Hd) as Ht.
    destruct (derive_again _ _ _ _ ltac:(by left) Hd) as (d' & Hd' & Hk).
    unfold unlockAndDecrypt. pose proof Hok as Hok'. unfold reply_ok in Hok'. apply andb_true_iff in Hok' as [L1 L2].
    apply Z.leb_le in L1. apply Z.leb_le in L2.
    rewrite !(proj2 (Z.eqb_neq _ _)) by lia. rewrite Hok. cbn [negb].
    rewrite E2, E4, E5, E1, E3. unfold Base64.b64ToBytes, bytesToB64. rewrite !atob_btoa. cbn [res_bind].
    unfold js_or. rewrite Ht, (Hjson d Hd). cbn [default from_option id].
    assert ((stringify (d_params d) =s? "") = false) as -> by (by destruct (kdf_params_object _ _ _ _ ltac:(by left) Hd) as [fs ->]).
    unfold open_deriveKEK, js_or. rewrite Ht, Hd'. cbn [res_bind]. rewrite Hk. unfold open_aesUnwrap, aesWrap.
    rewrite slength_app, Hw. change (12 + _ <? 12) with false. rewrite <- Hw, stake_app, sdrop_app, gcm_open_seal. cbn [res_bind].
    unfold aesOpen. rewrite slength_app, Hn. change (12 + _ <? 12) with false. rewrite Hkey. cbn [res_bind].
    rewrite <- Hn, stake_app, sdrop_app, gcm_open_seal. cbn [res_bind]. by rewrite decodeText_utf8. }
  unfold p', submit. apply String.eqb_neq in Hpw as ->. rewrite Hu. cbn [res_bind op_text].
  rewrite Hshow. cbn [res_bind op_burned op_viewsRemaining pg_phase pg_shown pg_err pg_status]. split_and!; [done|done|done|by intros ->|].
  intros ->. split.
  - intros n Hn0 ->. by rewrite (proj2 (Z.leb_le 0 n)).
  - destruct (or_views_remaining reply) as [n|]; [|done]. intros Hneg. specialize (Hneg n eq_refl). by rewrite (proj2 (Z.leb_gt 0 n)).
Qed.
End Roundtrip.

Definition toy_link : res link_request :=
  sendProtectedLink "mmmmmmmmmmmmmmmm" "nonce-nonce1" "0123456789abcdef" "nonce-nonce2" "a@x.org" "b@x.org" "" "Hi" "see you" "pw" 3600 1 true.
Definition toy_json (s : string) : option jsval :=
  Some (JObj [("time", JNum 3); ("mem", JNum 65536); ("parallelism", JNum 1); ("hash_len", JNum 32)]).
Definition toy_reply (req : link_request) (views : option Z) (burned : bool) : open_reply :=
  OpenReply 200 (lr_kdf req) (lr_kdf_salt_b64 req) (lr_kdf_params_json req) (lr_wrapped_msg_key_b64 req) (lr_body_ciphertext_b64 req) views burned.
Lemma protected_link_roundtrip_witness :
  exists req, toy_link = Ok req /\
    let p' views burned := submit toy_json None (toy_reply req views burned) "pw" (Page Locked "" "" None) in
    pg_shown (p' (Some 0%Z) true) = Some (Envelope "see you" "" []) /\ pg_status (p' (Some 0%Z) true) = "burned / last view" /\
    pg_status (p' (Some 2%Z) false) = "decrypted / 2 views remain" /\ pg_status (p' None false) = "decrypted".
Proof.
  destruct toy_link as [req|] eqn:E; [|vm_compute in E; discriminate E]. exists req. split; [done|].
  assert (forall d, deriveKEK "pw" "0123456789abcdef" JUndef JUndef = Ok d -> toy_json (stringify (d_params d)) = Some (d_params d)) as Hj
    by (intros d Hd; vm_compute in Hd; injection Hd as <-; reflexivity).
  pose proof (fun views burned => protected_link_roundtrip toy_json None "mmmmmmmmmmmmmmmm" "nonce-nonce1" "0123456789abcdef" "nonce-nonce2"
    "a@x.org" "b@x.org" "" "Hi" "see you" "pw" 3600 1 true req (toy_reply req views burned) (Page Locked "" "" None)
    eq_refl eq_refl ltac:(discriminate) E eq_refl eq_refl eq_refl eq_refl eq_refl eq_refl eq_refl Hj) as Hopen.
  cbv zeta. split_and!.
  - apply (Hopen (Some 0%Z) true).
  - by apply (Hopen (Some 0%Z) true).
  - by refine (proj1 (proj2 (proj2 (proj2 (proj2 (Hopen (Some 2%Z) false)))) _) 2%Z _ _).
  - by refine (proj2 (proj2 (proj2 (proj2 (proj2 (Hopen None false)))) _) _).
Defined.
