(* ===== verification/Outbound.v ===== *)
(** * Outbound mail and the key vault

    The PGP/MIME wrapper the composer posts to the outbox, given to the function
    with which the vault finds the OpenPGP message in stored bytes. *)
From Stdlib Require Import ZArith NArith Lia Ascii.
From stdpp Require Import gmap strings.
From S2P Require Import Prelude JsString JsValue Split Base64 Text Patterns HtmlText Mime Payload Addresses Compose.

(** ** Finding a block *)

Lemma find_block_skip a b upto pre z :
  clear a pre z = true -> clear b pre z = true -> find_block [a; b] upto (pre +:+ z) = find_block [a; b] upto z.
Proof.
  induction pre as [|c pre IH]; [done|]. cbn [clear String.append find_block]. rewrite !andb_true_iff, !negb_true_iff.
  intros [H1 H2] [H3 H4]. unfold marker_at. cbn [List.find]. unfold starts_with. rewrite H1, H3. by apply IH.
Qed.

Lemma upto_marker_print m m' inner post :
  clear m inner (m +:+ post) = true -> clear m' inner (m +:+ post) = true ->
  upto_marker [m; m'] (inner +:+ m +:+ post) = Some (inner +:+ m).
Proof.
  induction inner as [|c inner IH]; cbn [clear String.append].
  - intros _ _. assert (marker_at [m; m'] (m +:+ post) = Some m) as E
      by (unfold marker_at; cbn [List.find]; unfold starts_with; by rewrite prefix_app).
    destruct (m +:+ post); cbn [upto_marker]; by rewrite E.
  - rewrite !andb_true_iff, !negb_true_iff. intros [H1 H2] [H3 H4]. cbn [upto_marker]. unfold marker_at. cbn [List.find].
    unfold starts_with. rewrite H1, H3. by rewrite (IH H2 H4).
Qed.

Lemma find_block_print b m m' inner post f :
  marker_at [b; f] (b +:+ inner +:+ m +:+ post) = Some b ->
  clear m inner (m +:+ post) = true -> clear m' inner (m +:+ post) = true ->
  find_block [b; f] [m; m'] (b +:+ inner +:+ m +:+ post) = Some (b +:+ inner +:+ m).
Proof.
  intros Hb H1 H2. assert (find_block [b; f] [m; m'] (b +:+ inner +:+ m +:+ post) =
    (fun r => b +:+ r) <$> upto_marker [m; m'] (sdrop (String.length b) (b +:+ inner +:+ m +:+ post))) as ->.
  { destruct (b +:+ inner +:+ m +:+ post); cbn [find_block]; by rewrite Hb. }
  rewrite sdrop_app, upto_marker_print by done. done.
Qed.

Lemma clear_no_head c sep a z : no_char c a = true -> clear (String c sep) a z = true.
Proof.
  unfold no_char. induction a as [|d a IH]; [done|]. cbn [all_chars clear String.append].
  rewrite !andb_true_iff, !negb_true_iff. intros [Hd Ha]. split; [|by apply IH].
  rewrite prefix_cons. destruct (ascii_dec c d) as [He|]; [|done]. by rewrite He, Ascii.eqb_refl in Hd.
Qed.

(** Lines without the marker, each followed by CRLF. *)
Lemma clear_crlf_lines sep ls z :
  sep <> "" -> no_char lf sep = true -> no_char cr sep = true -> Forall (fun l => includes l sep = false) ls ->
  clear sep (String.concat "" (map (fun l => l +:+ crlf) ls)) z = true.
Proof.
  intros Hs Hl Hc H. induction H as [|l ls Hi _ IH]; [done|]. cbn [map].
  assert (String.concat "" ((l +:+ crlf) :: map (fun l => l +:+ crlf) ls) = (l +:+ crlf) +:+ String.concat "" (map (fun l => l +:+ crlf) ls)) as ->.
  { cbn [String.concat]. destruct (map _ ls); [by rewrite sapp_nil_r|]. reflexivity. }
  rewrite clear_app, IH, andb_true_r. change crlf with (String cr "" +:+ String lf ""). rewrite !clear_app, !clear_char by done.
  cbn [andb]. rewrite !andb_true_r. by apply clear_stop.
Qed.

Lemma join_crlf_app ls rest : rest <> [] ->
  join crlf (ls ++ rest) = String.concat "" (map (fun l => l +:+ crlf) ls) +:+ join crlf rest.
Proof.
  intros Hr. induction ls as [|l ls IH]; [done|]. cbn [app map]. rewrite join_cons by (by destruct ls, rest).
  rewrite IH. cbn [String.concat]. destruct (map _ ls); cbn [String.concat]; by rewrite ?sapp_assoc.
Qed.

(** ** The wrapper *)

Definition wrapper_lines (h : host) : list string :=
  [ ""; "This is an OpenPGP/MIME encrypted message."; "--" +:+ pgp_boundary h; "Content-Type: application/pgp-encrypted";
    "Content-Description: PGP/MIME version identification"; ""; "Version: 1"; "--" +:+ pgp_boundary h;
    "Content-Type: application/octet-stream; name=" +:+ dq +:+ "encrypted.asc" +:+ dq;
    "Content-Disposition: inline; filename=" +:+ dq +:+ "encrypted.asc" +:+ dq; "Content-Transfer-Encoding: 7bit"; "" ].

Lemma message_shape h from to cc subject armored irt refs :
  buildPGPMIMEMessage h from to cc subject armored irt refs =
  String.concat "" (map (fun l => l +:+ crlf) (pgp_header_lines h from to cc subject irt refs ++ wrapper_lines h)) +:+
  drop_last_crlf (normalizeCRLF armored) +:+ crlf +:+ "--" +:+ pgp_boundary h +:+ "--" +:+ crlf.
Proof.
  transitivity (join crlf ((pgp_header_lines h from to cc subject irt refs ++ wrapper_lines h) ++
    [drop_last_crlf (normalizeCRLF armored); "--" +:+ pgp_boundary h +:+ "--"; ""])).
  - unfold buildPGPMIMEMessage. rewrite <- app_assoc. reflexivity.
  - rewrite join_crlf_app by done. f_equal. repeat (rewrite join_cons by done). rewrite !sapp_assoc. reflexivity.
Qed.

(** The lines of the wrapper hold no marker of a message. *)
Lemma wrapper_unmarked h : all_chars is_hex (hex_a h) = true ->
  Forall (fun l => includes l BEGIN_MESSAGE = false /\ includes l BEGIN_SIGNED = false) (wrapper_lines h).
Proof.
  intros Hh.
  assert (no_char "-" (pgp_boundary h) = true) as Hb.
  { unfold pgp_boundary, no_char. rewrite all_chars_app. apply andb_true_iff. split; [done|].
    eapply all_chars_mono; [|exact Hh]. intros c. revert c. by_char. }
  assert (forall m, includes ("--" +:+ pgp_boundary h) ("---" +:+ m) = false) as Hm.
  { intros m. apply not_true_iff_false. intros (x & y & E)%includes_spec.
    assert (clear ("---" +:+ m) ("--" +:+ pgp_boundary h) "" = true) as Hc.
    { rewrite clear_app. apply andb_true_iff. split; [reflexivity|]. by apply (clear_no_head "-" ("--" +:+ m)). }
    rewrite E in Hc. revert Hc. clear. induction x as [|c x IH].
    - cbn [String.append]. change (String "-" ?r) with (String "-" r). cbn [clear]. rewrite sapp_nil_r.
      change (String "-" (String "-" (String "-" (m +:+ y)))) with (("---" +:+ m) +:+ y). rewrite prefix_app. done.
    - cbn [String.append clear]. intros [_ H]%andb_true_iff. by apply IH. }
  unfold wrapper_lines. repeat constructor; (reflexivity || apply Hm).
Qed.

Lemma trim_block x : trim (BEGIN_MESSAGE +:+ x +:+ END_MESSAGE) = BEGIN_MESSAGE +:+ x +:+ END_MESSAGE.
Proof.
  assert (BEGIN_MESSAGE +:+ x +:+ END_MESSAGE =
            String "-" (sdrop 1 BEGIN_MESSAGE +:+ x +:+ "-----END PGP MESSAGE----") +:+ String "-" "") as E.
  { cbn [String.append]. rewrite !sapp_assoc. reflexivity. }
  rewrite E. unfold trim. cbn [String.append trim_start]. change (is_ws "-") with false. cbv iota.
  exact (trim_end_stop (String "-" (sdrop 1 BEGIN_MESSAGE +:+ x +:+ "-----END PGP MESSAGE----")) "-" eq_refl).
Qed.

(** C40: What is posted to the outbox opens: the vault, given the bytes of the
    PGP/MIME message the composer builds, hands OpenPGP exactly the armored block
    that was wrapped, with CRLF line ends, whatever the headers, as long as no header
    holds an armor line. *)
Theorem outbound_message_opens h from to cc subject armored irt refs inner :
  all_chars is_hex (hex_a h) = true ->
  Forall (fun l => includes l BEGIN_MESSAGE = false /\ includes l BEGIN_SIGNED = false)
    (pgp_header_lines h from to cc subject irt refs) ->
  drop_last_crlf (normalizeCRLF armored) = BEGIN_MESSAGE +:+ (inner +:+ lfs) +:+ END_MESSAGE ->
  includes inner END_MESSAGE = false -> includes inner END_SIGNATURE = false ->
  readEncryptedMessage (CBytes (utf8 (buildPGPMIMEMessage h from to cc subject armored irt refs))) =
    Ok (ArmoredMessage (drop_last_crlf (normalizeCRLF armored))).
Proof.
  intros Hh Hl Hb Hi1 Hi2. unfold readEncryptedMessage, read_bytes. rewrite decodeText_utf8.
  set (text := buildPGPMIMEMessage h from to cc subject armored irt refs).
  assert (looksLikeArmoredMessage (decodeText (stake 160 (utf8 text))) = false) as ->.
  { assert (exists t, text = String "M" t) as [t ->] by (eexists; reflexivity).
    assert (stake 160 (utf8 (String "M" t)) = String "M" (stake 159 (utf8 t))) as -> by reflexivity.
    generalize (stake 159 (utf8 t)). intros r.
    assert (decodeText (String "M" r) = String "M" (decode_go None r)) as -> by reflexivity. reflexivity. }
  assert (extractArmoredBlock text = drop_last_crlf (normalizeCRLF armored)) as ->; [|by rewrite Hb].
  unfold extractArmoredBlock, block_text, text. rewrite message_shape, Hb.
  pose proof (wrapper_unmarked h Hh) as Hw.
  rewrite find_block_skip.
  - set (post := crlf +:+ "--" +:+ pgp_boundary h +:+ "--" +:+ crlf). rewrite !sapp_assoc.
    rewrite <- (sapp_assoc inner lfs). rewrite find_block_print.
    + rewrite <- (sapp_assoc inner lfs). apply trim_block.
    + unfold marker_at. cbn [List.find]. unfold starts_with. by rewrite prefix_app.
    + by apply (clear_piece END_MESSAGE inner lf).
    + by apply (clear_piece END_SIGNATURE inner lf).
  - apply clear_crlf_lines; [done|done|done|]. apply Forall_app. split; (eapply Forall_impl; [eassumption|]); intros l [? _]; done.
  - apply clear_crlf_lines; [done|done|done|]. apply Forall_app. split; (eapply Forall_impl; [eassumption|]); intros l [_ ?]; done.
Qed.

Definition sample_armor : string := BEGIN_MESSAGE +:+ lfs +:+ lfs +:+ "wV4D" +:+ lfs +:+ END_MESSAGE +:+ lfs.
Definition outbound_host : host := Host "0a1b" "2c3d" "1700000000000" "Tue, 14 Nov 2023 22:13:20 GMT".
Lemma outbound_message_opens_witness :
  readEncryptedMessage (CBytes (utf8 (buildPGPMIMEMessage outbound_host "a@x.org" ["b@y.org"] [] "Hi" sample_armor "" ""))) =
  Ok (ArmoredMessage (drop_last_crlf (normalizeCRLF sample_armor))).
Proof.
  refine (outbound_message_opens outbound_host "a@x.org" ["b@y.org"] [] "Hi" sample_armor "" ""
    (crlf +:+ crlf +:+ "wV4D" +:+ String cr "") _ _ _ _ _);
    [reflexivity|repeat (constructor; [split; vm_compute; reflexivity|]); constructor|vm_compute; reflexivity..].
Defined.
