(* ===== verification/Http.v ===== *)
(** * Requests

    Programs that call [fetch]: a free monad whose one operation sends a request
    and continues with the answer, run against a server given as a step function
    or as a recorded conversation.  URLs are put together and resolved the way
    the browser does it: [encodeURIComponent], [URLSearchParams] and the removal
    of dot segments. *)
From Stdlib Require Import ZArith NArith Lia Ascii.
From S2P Require Import Prelude JsString JsValue Base64 Text Split.

(** ** Requests and answers *)

Inductive http_method := GET | POST | PUT | PATCH | DELETE.

Record request := Request {
  rq_method : http_method;
  rq_url : string;                    (** absolute, as it goes on the wire *)
  rq_credentials : string;
  rq_content_type : option string;
  rq_body : option string;
}.

Record response := Response {
  rp_status : Z;
  rp_json : option jsval;             (** [json()]; [None] when it rejects *)
  rp_bytes : string;                  (** [arrayBuffer()] *)
}.

(** [resp.ok] *)
Definition rp_ok (r : response) : bool := ((200 <=? rp_status r) && (rp_status r <=? 299))%Z.

(** ** Programs *)

Inductive prog (A : Type) : Type :=
| Ret (a : A)
| Raise (msg : string)
| Fetch (rq : request) (k : option response -> prog A).   (* [None]: the promise rejects *)
Arguments Ret {A} a.
Arguments Raise {A} msg.
Arguments Fetch {A} rq k.

Fixpoint bind {A B} (p : prog A) (f : A -> prog B) : prog B :=
  match p with
  | Ret a => f a
  | Raise m => Raise m
  | Fetch rq k => Fetch rq (fun r => bind (k r) f)
  end.
Notation "x <- p ;; k" := (bind p (fun x => k))
  (at level 100, p at next level, right associativity) : js_scope.

Definition lift {A} (m : res A) : prog A := match m with Ok a => Ret a | Throw e => Raise e end.

(** [await fetch(...)] *)
Definition send (rq : request) : prog response :=
  Fetch rq (fun r => match r with Some rp => Ret rp | None => Raise "Failed to fetch" end).

(** Against a server with a state. *)
Fixpoint run {S A} (srv : S -> request -> S * option response) (s : S) (p : prog A) : S * res A :=
  match p with
  | Ret a => (s, Ok a)
  | Raise m => (s, Throw m)
  | Fetch rq k => let '(s, r) := srv s rq in run srv s (k r)
  end.

(** A conversation: each request with its answer, and the outcome. *)
Inductive runs {A} : prog A -> list (request * option response) -> res A -> Prop :=
| runs_ret a : runs (Ret a) [] (Ok a)
| runs_raise m : runs (Raise m) [] (Throw m)
| runs_fetch rq k r tr out : runs (k r) tr out -> runs (Fetch rq k) ((rq, r) :: tr) out.

(** The conversation a server makes. *)
Definition logging {S} (srv : S -> request -> S * option response)
    (st : S * list (request * option response)) (rq : request) : (S * list (request * option response)) * option response :=
  let '(s, r) := srv st.1 rq in ((s, st.2 ++ [(rq, r)]), r).

(** ** URLs *)

(** Upper-case hexadecimal digits. *)
Definition hex_upper (n : N) : ascii := if (n <? 10)%N then char_at (n + 48) else char_at (n + 55).
Definition percent (c : ascii) : string :=
  String "%" (String (hex_upper (code c / 16)) (String (hex_upper (code c mod 16)) "")).

(** The characters [encodeURIComponent] keeps. *)
Definition uri_kept (c : ascii) : bool :=
  is_alnum c || existsb (Ascii.eqb c) ["-"; "_"; "."; "!"; "~"; "*"; "'"; "("; ")"]%char.

Fixpoint percent_encode (keep : ascii -> bool) (bytes : string) : string :=
  match bytes with
  | EmptyString => ""
  | String c s => (if keep c then String c "" else percent c) +:+ percent_encode keep s
  end.
Definition encodeURIComponent (s : string) : string := percent_encode uri_kept (utf8 s).

(** The percent decoding of the server, then UTF-8. *)
Fixpoint percent_decode (s : string) : string :=
  match s with
  | EmptyString => ""
  | String c s' =>
      if Ascii.eqb c "%" then
        match s' with
        | String a (String b s'') =>
            if is_hex a && is_hex b then String (char_of (16 * hex_val a + hex_val b)) (percent_decode s'')
            else String c (percent_decode s')
        | _ => String c (percent_decode s')
        end
      else String c (percent_decode s')
  end.
Definition decodeURIComponent (s : string) : string := utf8_decode (percent_decode s).

(** [URLSearchParams]: a space is a plus sign. *)
Definition form_kept (c : ascii) : bool := is_alnum c || existsb (Ascii.eqb c) ["-"; "_"; "."; "*"]%char.
Fixpoint form_encode (bytes : string) : string :=
  match bytes with
  | EmptyString => ""
  | String c s =>
      (if Ascii.eqb c " " then "+" else if form_kept c then String c "" else percent c) +:+ form_encode s
  end.
Definition search_params (l : list (string * string)) : string :=
  join "&" (map (fun p => form_encode (utf8 p.1) +:+ "=" +:+ form_encode (utf8 p.2)) l).

(** *** Resolution of a path

    The segments "." and ".." are taken out, also when a dot is written %2e. *)
Definition dot_of (s : string) : string := replace_all "%2e" "." (to_lower s).
Definition single_dot (s : string) : bool := dot_of s =s? ".".
Definition double_dot (s : string) : bool := dot_of s =s? "..".

Fixpoint dots (acc segs : list string) : list string :=     (* [acc]: last segment first *)
  match segs with
  | [] => rev acc
  | s :: rest =>
      let close acc := match rest with [] => "" :: acc | _ => acc end in
      if double_dot s then dots (close (tl acc)) rest
      else if single_dot s then dots (close acc) rest
      else dots (s :: acc) rest
  end.
(** [path] begins with a slash and has no query. *)
Definition normalise_path (path : string) : string := "/" +:+ join "/" (dots [] (split (sdrop 1 path) "/")).

(** A quote in the query of an http URL is escaped. *)
Fixpoint escape_quotes (q : string) : string :=
  match q with
  | EmptyString => ""
  | String c q => (if Ascii.eqb c "'" then "%27" else String c "") +:+ escape_quotes q
  end.

Section Origin.
Variable origin : string.           (** [window.location.origin] *)

(** [path] with a query ([""]: none), against the origin. *)
Definition resolve (path query : string) : string :=
  origin +:+ normalise_path path +:+ (if query =s? "" then "" else "?" +:+ escape_quotes query).

(** [fetch(path, {method, credentials: 'include'})], without and with a JSON body. *)
Definition call (m : http_method) (path : string) : request := Request m (resolve path "") "include" None None.
Definition json_body (body : jsval) : option string := match body with JUndef => None | _ => Some (stringify body) end.
Definition call_json (m : http_method) (path : string) (body : jsval) : request :=
  Request m (resolve path "") "include" (Some "application/json") (json_body body).
Definition call_query (m : http_method) (path query : string) : request := Request m (resolve path query) "include" None None.
End Origin.

(** ** Lemmas *)

Lemma runs_bind_inv {A B} (p : prog A) (f : A -> prog B) tr out :
  runs (bind p f) tr out ->
  (exists tr1 tr2 a, tr = tr1 ++ tr2 /\ runs p tr1 (Ok a) /\ runs (f a) tr2 out) \/
  (exists m, out = Throw m /\ runs p tr (Throw m)).
Proof.
  revert tr. induction p as [a|m|rq k IH]; cbn [bind]; intros tr Hr.
  - left. exists [], tr, a. split_and!; [done | constructor | done].
  - inversion Hr; subst. right. exists m. split; [done | constructor].
  - inversion Hr as [| |? ? r tr' ? Hr']; subst. apply IH in Hr' as [(t1 & t2 & a & -> & H1 & H2)|(m & -> & H1)].
    + left. exists ((rq, r) :: t1), t2, a. split_and!; [done | by constructor | done].
    + right. exists m. split; [done | by constructor].
Qed.

Lemma runs_lift {A} (m : res A) tr out : runs (lift m) tr out <-> tr = [] /\ out = m.
Proof.
  split.
  - destruct m; cbn; intros Hr; by inversion Hr; subst.
  - intros [-> ->]. destruct m; constructor.
Qed.

(** What is left of a program after a conversation that it has not finished. *)
Inductive after {A} : prog A -> list (request * option response) -> prog A -> Prop :=
| after_none p : after p [] p
| after_fetch rq k r tr q : after (k r) tr q -> after (Fetch rq k) ((rq, r) :: tr) q.

Lemma after_bind {A B} (f : A -> prog B) p tr q : after p tr q -> after (bind p f) tr (bind q f).
Proof. induction 1; by constructor. Qed.

Lemma after_throw {A} (p : prog A) tr m : runs p tr (Throw m) -> after p tr (Raise m).
Proof. intros Hr. remember (Throw m) as out eqn:E. induction Hr; simplify_eq/=; constructor; auto. Qed.

Lemma runs_exists {A} (p : prog A) : exists tr out, runs p tr out.
Proof.
  induction p as [a|m|rq k IH]; [by eexists _, _; constructor | by eexists _, _; constructor |].
  destruct (IH None) as (tr & out & Hr). eexists _, _. by constructor.
Qed.

Lemma run_bind {S A B} (srv : S -> request -> S * option response) (p : prog A) (f : A -> prog B) s :
  run srv s (bind p f) = let '(s', r) := run srv s p in match r with Ok a => run srv s' (f a) | Throw m => (s', Throw m) end.
Proof.
  revert s. induction p as [a|m|rq k IH]; intros s; cbn [bind run]; [done..|]. destruct (srv s rq) as [s1 r]. apply IH.
Qed.

(** Every run against a server is a conversation. *)
Lemma run_runs {S A} (srv : S -> request -> S * option response) (p : prog A) s :
  exists tr, runs p tr (run srv s p).2.
Proof.
  revert s. induction p as [a|m|rq k IH]; intros s; cbn [run].
  - exists []. constructor.
  - exists []. constructor.
  - destruct (srv s rq) as [s' r]. destruct (IH r s') as [tr Hr]. exists ((rq, r) :: tr). by constructor.
Qed.

Lemma hex_upper_ok n : (n < 16)%N -> is_hex (hex_upper n) = true /\ hex_val (hex_upper n) = Z.of_N n.
Proof.
  intros Hn. assert (In n (map N.of_nat (seq 0 16))) as Hin.
  { apply in_map_iff. exists (N.to_nat n). split; [apply N2Nat.id|]. apply in_seq. lia. }
  clear Hn. cbn in Hin. repeat destruct Hin as [<-|Hin]; [by vm_compute ..|done].
Qed.

Lemma percent_decode_percent c rest : percent_decode (percent c +:+ rest) = String c (percent_decode rest).
Proof.
  unfold percent. pose proof (code_bounded c) as Hc.
  assert (code c / 16 < 16)%N as H1 by (apply N.Div0.div_lt_upper_bound; lia).
  assert (code c mod 16 < 16)%N as H2 by (apply N.mod_lt; lia).
  destruct (hex_upper_ok _ H1) as [E1 V1], (hex_upper_ok _ H2) as [E2 V2].
  cbn [String.append percent_decode]. rewrite Ascii.eqb_refl, E1, E2, V1, V2. cbn [andb]. f_equal.
  unfold char_of. rewrite <- (char_at_code c) at 3. unfold char_at. f_equal.
  pose proof (N.div_mod (code c) 16 ltac:(done)). lia.
Qed.

Lemma percent_decode_encode keep s :
  (forall c, keep c = true -> Ascii.eqb c "%" = false) -> percent_decode (percent_encode keep s) = s.
Proof.
  intros Hk. induction s as [|c s IH]; cbn [percent_encode]; [done|]. destruct (keep c) eqn:E.
  - cbn [String.append percent_decode]. by rewrite (Hk c E), IH.
  - by rewrite percent_decode_percent, IH.
Qed.

Lemma uri_kept_percent c : uri_kept c = true -> Ascii.eqb c "%" = false.
Proof. revert c. by_char. Qed.

Lemma decode_encode_component s : decodeURIComponent (encodeURIComponent s) = s.
Proof.
  unfold decodeURIComponent, encodeURIComponent. rewrite percent_decode_encode by apply uri_kept_percent.
  apply utf8_decode_utf8.
Qed.

Lemma encode_component_inj a b : encodeURIComponent a = encodeURIComponent b -> a = b.
Proof. intros H. rewrite <- (decode_encode_component a), H. apply decode_encode_component. Qed.

(** What is left in an encoded component. *)
Definition component_char (c : ascii) : bool := uri_kept c || Ascii.eqb c "%".
Lemma percent_chars c : all_chars component_char (percent c) = true.
Proof. revert c. by_char. Qed.
Lemma percent_encode_chars s : all_chars component_char (percent_encode uri_kept s) = true.
Proof.
  induction s as [|c s IH]; cbn [percent_encode]; [done|]. rewrite all_chars_app, IH.
  destruct (uri_kept c) eqn:E; [|by rewrite percent_chars]. cbn [all_chars]. unfold component_char. by rewrite E.
Qed.
Lemma component_no_char c s : component_char c = false -> no_char c (encodeURIComponent s) = true.
Proof.
  intros Hc. apply (all_chars_mono component_char); [|apply percent_encode_chars].
  intros d Hd. apply negb_true_iff, Ascii.eqb_neq. intros <-. congruence.
Qed.

(** A segment with no slash stays one segment. *)
Lemma split_slash a rest : no_char "/" a = true -> split (a +:+ "/" +:+ rest) "/" = a :: split rest "/".
Proof. intros H. apply split_clear; [done|]. by apply no_char_prefix. Qed.
Lemma split_no_slash a : no_char "/" a = true -> split a "/" = [a].
Proof. intros H. apply split_clear_end. rewrite <- (sapp_nil_r a) at 1. rewrite sapp_nil_r. by apply no_char_prefix. Qed.
