(* ===== verification/Handlers.v ===== *)
(** * Handlers

    What the handlers of the pages are made of: requests that are tried, and steps over a
    state that is kept when a step throws, with Hoare triples for every answer of the server
    and equations for one server. *)
From Stdlib Require Import ZArith Lia Ascii.
From stdpp Require Import strings list.
From S2P Require Import Prelude JsString JsValue Http.
Local Open Scope nat_scope.

(** ** Requests that are tried *)

(** [try { p } catch (e) { h(e) }] around requests, and its outcome as a value. *)
Fixpoint try_catch {A} (p : prog A) (h : string -> prog A) : prog A :=
  match p with
  | Ret a => Ret a
  | Raise e => h e
  | Fetch rq k => Fetch rq (fun r => try_catch (k r) h)
  end.
Definition attempt {A} (p : prog A) : prog (res A) := try_catch (x <- p ;; Ret (Ok x)) (fun e => Ret (Throw e)).

(** ** Steps over a state *)

Section State.
Context {S : Type}.

Definition M (A : Type) : Type := S -> prog (S * res A).
Definition hret {A} (a : A) : M A := fun s => Ret (s, Ok a).
Definition hthrow {A} (m : string) : M A := fun s => Ret (s, Throw m).
Definition hbind {A B} (x : M A) (f : A -> M B) : M B :=
  fun s => p <- x s ;; match p with (s, Ok a) => f a s | (s, Throw m) => Ret (s, Throw m) end.
(** A state setter, and a look at the state. *)
Definition modify (f : S -> S) : M unit := fun s => Ret (f s, Ok tt).
Definition gets {A} (f : S -> A) : M A := fun s => Ret (s, Ok (f s)).
(** An awaited call. *)
Definition await {A} (p : prog A) : M A := fun s => r <- attempt p ;; Ret (s, r).
(** [try { x } catch (e) { h(e) }] and [try { x } finally { f }]. *)
Definition hcatch {A} (x : M A) (h : string -> M A) : M A :=
  fun s => p <- x s ;; match p with (s, Ok a) => Ret (s, Ok a) | (s, Throw m) => h m s end.
Definition hfinally {A} (x : M A) (f : S -> S) : M A := fun s => p <- x s ;; Ret (f p.1, p.2).
End State.
Arguments M : clear implicits.
Notation "x <== m ;;; k" := (hbind m (fun x => k)) (at level 100, m at next level, right associativity) : js_scope.

(** ** Lemmas *)

Lemma runs_try_catch {A} (p : prog A) h tr out :
  runs (try_catch p h) tr out ->
  (exists a, out = Ok a /\ runs p tr (Ok a)) \/
  exists t1 t2 m, tr = t1 ++ t2 /\ runs p t1 (Throw m) /\ runs (h m) t2 out.
Proof.
  revert tr. induction p as [a|m|rq k IH]; cbn [try_catch]; intros tr Hr.
  - inversion Hr; subst. left. exists a. split; [done | constructor].
  - right. exists [], tr, m. split_and!; [done | constructor | done].
  - inversion Hr as [| |? ? r tr' ? Hr']; subst. apply IH in Hr' as [(a & -> & H1)|(t1 & t2 & m & -> & H1 & H2)].
    + left. exists a. split; [done | by constructor].
    + right. exists ((rq, r) :: t1), t2, m. split_and!; [done | by constructor | done].
Qed.

Lemma runs_attempt {A} (p : prog A) tr out : runs (attempt p) tr out -> exists r, out = Ok r /\ runs p tr r.
Proof.
  unfold attempt. intros [(r & -> & Hr)|(t1 & t2 & m & -> & H1 & H2)]%runs_try_catch.
  - apply runs_bind_inv in Hr as [(t1 & t2 & a & -> & H1 & H2)|(m & ? & ?)]; [|done].
    inversion H2; subst. rewrite app_nil_r. eauto.
  - inversion H2; subst. rewrite app_nil_r. apply runs_bind_inv in H1 as [(t1' & t2' & a & -> & H1 & H3)|(m' & [= <-] & H1)].
    + inversion H3.
    + eauto.
Qed.

(** A handler whose steps are tried and whose outcome is turned into a state. *)
Lemma runs_handler {A B} (p : prog A) (f : res A -> B) tr out :
  runs (bind (attempt p) (fun r => Ret (f r))) tr out -> exists r, out = Ok (f r) /\ runs p tr r.
Proof.
  intros [(t1 & t2 & r & -> & H1 & H2)|(m & -> & H1)]%runs_bind_inv.
  - inversion H2; subst. rewrite app_nil_r. apply runs_attempt in H1 as (r' & [= <-] & H1). eauto.
  - apply runs_attempt in H1 as (? & ? & ?). done.
Qed.

Lemma run_attempt {S A} (srv : S -> request -> S * option response) (p : prog A) s :
  run srv s (attempt p) = let '(s', r) := run srv s p in (s', Ok r).
Proof.
  unfold attempt. revert s. induction p as [a|m|rq k IH]; intros s; cbn [bind try_catch run]; [done..|]. destruct (srv s rq) as [s1 r]. apply IH.
Qed.

Lemma after_try_catch {A} (h : string -> prog A) p tr q : after p tr q -> after (try_catch p h) tr (try_catch q h).
Proof. induction 1; by constructor. Qed.
Lemma after_attempt {A} (p : prog A) tr q : after p tr q -> after (attempt p) tr (attempt q).
Proof. intros. by apply after_try_catch, after_bind. Qed.

Section Triples.
Context {S : Type}.
Local Abbreviation M := (M S).

Lemma runs_hbind {A B} (x : M A) (f : A -> M B) s tr out :
  runs (hbind x f s) tr out ->
  (exists tr1 tr2 s1 a, tr = tr1 ++ tr2 /\ runs (x s) tr1 (Ok (s1, Ok a)) /\ runs (f a s1) tr2 out) \/
  (exists s1 m, out = Ok (s1, Throw m) /\ runs (x s) tr (Ok (s1, Throw m))) \/
  (exists m, out = Throw m /\ runs (x s) tr (Throw m)).
Proof.
  unfold hbind. intros [(tr1 & tr2 & [s1 [a|m]] & -> & H1 & H2)|(m & -> & H1)]%runs_bind_inv.
  - left. eauto 7.
  - inversion H2; subst. rewrite app_nil_r. right; left. eauto.
  - right; right. eauto.
Qed.

Lemma runs_hcatch {A} (x : M A) h s tr out :
  runs (hcatch x h s) tr out ->
  (exists s1 a, out = Ok (s1, Ok a) /\ runs (x s) tr out) \/
  (exists t1 t2 s1 m, tr = t1 ++ t2 /\ runs (x s) t1 (Ok (s1, Throw m)) /\ runs (h m s1) t2 out) \/
  (exists m, out = Throw m /\ runs (x s) tr (Throw m)).
Proof.
  unfold hcatch. intros [(t1 & t2 & [s1 [a|m] ] & -> & H1 & H2)|(m & -> & H1)]%runs_bind_inv.
  - left. inversion H2; subst. rewrite app_nil_r. eauto.
  - right; left. eauto 8.
  - right; right. eauto.
Qed.
Lemma runs_await {A} (p : prog A) (s : S) tr out : runs (await p s) tr out -> exists r, out = Ok (s, r) /\ runs p tr r.
Proof. apply runs_handler. Qed.

(** [try { x } catch (e) { h(e) } finally { f }], where [x] never rejects. *)
Lemma runs_guarded (x : M unit) (h : string -> S -> S) f s tr out : runs (hfinally (hcatch x (fun m => modify (h m))) f s) tr out ->
  (forall m, ~ runs (x s) tr (Throw m)) ->
  exists s1 r, runs (x s) tr (Ok (s1, r)) /\ out = Ok (f (match r with Ok _ => s1 | Throw e => h e s1 end), Ok tt).
Proof.
  unfold hfinally. intros [(t1 & t2 & [s1 r] & -> & H1 & H2)|(m & -> & H1)]%runs_bind_inv Hn.
  - inversion H2; subst t2 out. rewrite app_nil_r in *.
    apply runs_hcatch in H1 as [(s2 & [] & [= -> ->] & H1)|[(u1 & u2 & s2 & e & -> & H1 & H3)|(e & [=] & _)] ].
    + by exists s2, (Ok tt).
    + inversion H3; subst. rewrite app_nil_r in *. by exists s2, (Throw e).
  - exfalso. apply runs_hcatch in H1 as [(s2 & a & [=] & _)|[(u1 & u2 & s2 & e & -> & H1 & H3)|(e & _ & H1)] ]; [inversion H3 | by apply Hn in H1].
Qed.

(** From [P], [x] never rejects, ends in [Q] when it returns and in [E] when it throws. *)
Definition triple {A} (P : S -> Prop) (x : M A) (Q : S -> Prop) (E : S -> Prop) : Prop :=
  forall s tr out, P s -> runs (x s) tr out ->
    exists s' r, out = Ok (s', r) /\ match r with Ok _ => Q s' | Throw _ => E s' end.

Lemma triple_bind {A B} P (x : M A) (f : A -> M B) Q R E :
  triple P x Q E -> (forall a, triple Q (f a) R E) -> triple P (hbind x f) R E.
Proof.
  intros Hx Hf s tr out Hp [(tr1 & tr2 & s1 & a & -> & H1 & H2)|[(s1 & m & -> & H1)|(m & -> & H1)]]%runs_hbind;
    apply Hx in H1 as (s2 & r & Er & Hq); try done; simplify_eq.
  - by apply (Hf a) in H2.
  - by exists s2, (Throw m).
Qed.
Lemma triple_modify (P Q E : S -> Prop) f : (forall s, P s -> Q (f s)) -> triple P (modify f) Q E.
Proof. intros Hf s tr out Hp Hr. inversion Hr; subst. eexists _, _. split; [done|]. by apply Hf. Qed.
Lemma triple_await {A} (P E : S -> Prop) (p : prog A) : (forall s, P s -> E s) -> triple P (await p) P E.
Proof.
  intros He s tr out Hp (r & -> & Hr)%runs_handler. eexists _, _. split; [done|]. destruct r; [done|]. by apply He.
Qed.
Lemma triple_throw {A} (P Q E : S -> Prop) m : (forall s, P s -> E s) -> triple P (@hthrow S A m) Q E.
Proof. intros He s tr out Hp Hr. inversion Hr; subst. eexists _, _. split; [done|]. by apply He. Qed.
Lemma triple_ret {A} (P E : S -> Prop) (a : A) : triple P (hret a) P E.
Proof. intros s tr out Hp Hr. inversion Hr; subst. by eexists _, _. Qed.


Lemma triple_gets {A} (P Q E : S -> Prop) (f : S -> A) : (forall s, P s -> Q s) -> triple P (gets f) Q E.
Proof. intros Hf s tr out Hp Hr. inversion Hr; subst. eexists _, _. split; [done|]. by apply Hf. Qed.
Lemma triple_catch {A} P (x : M A) h Q E E' :
  triple P x Q E -> (forall m, triple E (h m) Q E') -> triple P (hcatch x h) Q E'.
Proof.
  intros Hx Hh s tr out Hp. unfold hcatch. intros [(t1 & t2 & [s1 [a|m]] & -> & H1 & H2)|(m & -> & H1)]%runs_bind_inv;
    apply Hx in H1 as (s2 & r & Er & Hq); try done; simplify_eq.
  - inversion H2; subst. by exists s2, (Ok a).
  - by apply (Hh m) in H2.
Qed.
Lemma triple_finally {A} P (x : M A) f (Q E Q' E' : S -> Prop) :
  triple P x Q E -> (forall s, Q s -> Q' (f s)) -> (forall s, E s -> E' (f s)) -> triple P (hfinally x f) Q' E'.
Proof.
  intros Hx Hq He s tr out Hp. unfold hfinally. intros [(t1 & t2 & [s1 r1] & -> & H1 & H2)|(m & -> & H1)]%runs_bind_inv;
    apply Hx in H1 as (s2 & r & Er & Hr); try done; simplify_eq.
  inversion H2; subst. eexists _, _. split; [done|]. destruct r; auto.
Qed.
Lemma triple_consequence {A} (P P' Q Q' E E' : S -> Prop) (x : M A) :
  triple P x Q E -> (forall s, P' s -> P s) -> (forall s, Q s -> Q' s) -> (forall s, E s -> E' s) -> triple P' x Q' E'.
Proof. intros Hx Hp Hq He s tr out Hs Hr. destruct (Hx s tr out (Hp s Hs) Hr) as (s' & r & -> & H). eexists _, _. split; [done|]. destruct r; auto. Qed.
End Triples.

(** *** Against one server *)

Section Run.
Context {S T : Type}.
Variable srv : T -> request -> T * option response.

Lemma run_hbind {A B} (x : M S A) (f : A -> M S B) sv s sv' s' a :
  run srv sv (x s) = (sv', Ok (s', Ok a)) -> run srv sv (hbind x f s) = run srv sv' (f a s').
Proof. intros Hx. unfold hbind. by rewrite run_bind, Hx. Qed.
Lemma run_hbind_throw {A B} (x : M S A) (f : A -> M S B) sv s sv' s' m :
  run srv sv (x s) = (sv', Ok (s', Throw m)) -> run srv sv (hbind x f s) = (sv', Ok (s', Throw m)).
Proof. intros Hx. unfold hbind. by rewrite run_bind, Hx. Qed.
Lemma run_await_res {A} (p : prog A) sv (s : S) sv' r : run srv sv p = (sv', r) -> run srv sv (await p s) = (sv', Ok (s, r)).
Proof. intros Hp. unfold await. by rewrite run_bind, run_attempt, Hp. Qed.
Lemma run_await {A} (p : prog A) sv (s : S) sv' a : run srv sv p = (sv', Ok a) -> run srv sv (await p s) = (sv', Ok (s, Ok a)).
Proof. apply run_await_res. Qed.
Lemma run_hcatch {A} (x : M S A) h sv s :
  run srv sv (hcatch x h s) =
    match run srv sv (x s) with
    | (sv', Ok (s', Throw m)) => run srv sv' (h m s')
    | p => p
    end.
Proof. unfold hcatch. rewrite run_bind. by destruct (run srv sv (x s)) as [sv' [[s' [a|m]]|m]]. Qed.
Lemma run_hfinally {A} (x : M S A) f sv s :
  run srv sv (hfinally x f s) =
    match run srv sv (x s) with
    | (sv', Ok (s', r)) => (sv', Ok (f s', r))
    | p => p
    end.
Proof. unfold hfinally. rewrite run_bind. by destruct (run srv sv (x s)) as [sv' [[s' r]|m]]. Qed.
End Run.
