(* ===== verification/JsDate.v ===== *)
(** * Dates

    [new Date(ms).toISOString()]: the proleptic Gregorian calendar, for the years
    the extended format needs no sign for. *)
From Stdlib Require Import ZArith Lia Ascii.
From S2P Require Import Prelude JsString.
Open Scope Z_scope.

Fixpoint zeros (n : nat) : string := match n with O => "" | S n => String "0" (zeros n) end.
(** A number, at least [w] digits wide. *)
Definition pad (w : nat) (z : Z) : string :=
  let s := Z_to_string z in zeros (w - String.length s) +:+ s.

(** Year, month and day of a day number (0 is 1970-01-01): eras of 400 years that
    begin on the first of March. *)
Definition civil (day : Z) : Z * Z * Z :=
  let z := day + 719468 in
  let era := z / 146097 in
  let doe := z mod 146097 in
  let yoe := (doe - doe / 1460 + doe / 36524 - doe / 146096) / 365 in
  let doy := doe - (365 * yoe + yoe / 4 - yoe / 100) in
  let mp := (5 * doy + 2) / 153 in
  let d := doy - (153 * mp + 2) / 5 + 1 in
  let m := if mp <? 10 then mp + 3 else mp - 9 in
  (yoe + era * 400 + (if m <=? 2 then 1 else 0), m, d).

Definition ms_per_day : Z := 86400000.

Definition toISOString (ms : Z) : string :=
  let '(y, m, d) := civil (ms / ms_per_day) in
  let t := ms mod ms_per_day in
  pad 4 y +:+ "-" +:+ pad 2 m +:+ "-" +:+ pad 2 d +:+ "T" +:+
  pad 2 (t / 3600000) +:+ ":" +:+ pad 2 (t / 60000 mod 60) +:+ ":" +:+ pad 2 (t / 1000 mod 60) +:+ "." +:+ pad 3 (t mod 1000) +:+ "Z".

Example iso_epoch : toISOString 0 = "1970-01-01T00:00:00.000Z".
Proof. reflexivity. Qed.
Example iso_leap : toISOString 1709210096789 = "2024-02-29T12:34:56.789Z".
Proof. reflexivity. Qed.

(** The date is never empty. *)
Lemma toISOString_nonempty ms : toISOString ms <> "".
Proof.
  unfold toISOString. destruct (civil _) as [[y m] d]. intros H. apply (f_equal String.length) in H.
  rewrite !slength_app in H. cbn in H. lia.
Qed.
