(* ===== verification/Manifest.v ===== *)
(** * The mail API client ([static/mail/mail-manifest.js])

    Every function of [window.ElvishMailManifest] as a program that sends
    requests.  Identifiers and addresses are strings; values that go into a JSON
    body are JavaScript values, [undefined] standing for a missing option. *)
From Stdlib Require Import ZArith NArith Lia Ascii.
From S2P Require Import Prelude JsString JsValue Base64 Text Split Http.

(** A parameter with a default. *)
Definition default_to (v d : jsval) : jsval := match v with JUndef => d | _ => v end.
Definition API : string := "/api/v1/mail".

(** ** What is made of an answer *)

(** [resp.json().catch(() => ({}))] *)
Definition json_or_empty (r : response) : jsval := default (JObj []) (rp_json r).
(** [resp.json()] *)
Definition json (r : response) : prog jsval := match rp_json r with Some v => Ret v | None => Raise "SyntaxError" end.
(** [`${label} ${resp.status}`] *)
Definition with_status (label : string) (r : response) : string := label +:+ " " +:+ Z_to_string (rp_status r).
(** [throw new Error(err.error || `label status`)] *)
Definition throw_error (err : jsval) (label : string) (r : response) {A} : prog A :=
  e <- lift (getp err "error") ;; Raise (js_String (js_or e (JStr (with_status label r)))).

(** The three ways the functions read an answer. *)
Definition expect (label : string) (r : response) : prog jsval :=
  if negb (rp_ok r) then Raise (with_status label r) else json r.
Definition expect_or_error (label : string) (r : response) : prog jsval :=
  if negb (rp_ok r) then throw_error (json_or_empty r) label r else json r.
Definition body_or_error (label : string) (r : response) : prog jsval :=
  let body := json_or_empty r in
  if negb (rp_ok r) then throw_error body label r else Ret body.

Section Client.
Variable origin : string.
Local Abbreviation get path := (send (call origin GET path)).
Local Abbreviation get_query path q := (send (call_query origin GET path q)).
Local Abbreviation bare m path := (send (call origin m path)).
Local Abbreviation with_json m path body := (send (call_json origin m path body)).
Local Abbreviation enc := encodeURIComponent.

(** ** Messages *)

Definition fetchManifests (folder limit before : jsval) : prog jsval :=
  let q := [("folder", js_String (default_to folder (JStr "inbox"))); ("limit", js_String (default_to limit (JNum 50)))] ++
           (if truthy before then [("before", js_String before)] else []) in
  r <- get_query (API +:+ "/messages") (search_params q) ;;
  if negb (rp_ok r) then
    e <- lift (getp (json_or_empty r) "error") ;;
    let detail := match e with JStr s => s | _ => "" end in
    Raise (with_status "mail messages" r +:+ (if detail =s? "" then "" else ": " +:+ detail))
  else json r.

Definition fetchManifest (id : string) : prog jsval :=
  r <- get (API +:+ "/messages/" +:+ enc id) ;; expect "mail manifest" r.

Definition fetchBlob (id : string) : prog string :=
  r <- get (API +:+ "/messages/" +:+ enc id +:+ "/blob") ;;
  if negb (rp_ok r) then Raise (with_status "mail blob" r) else Ret (rp_bytes r).

Definition setMessageRead (id : string) (read : jsval) : prog jsval :=
  r <- with_json PATCH (API +:+ "/messages/" +:+ enc id) (JObj [("read", JBool (truthy (default_to read (JBool true))))]) ;;
  expect_or_error "mail patch" r.

Definition moveMessage (id : string) (folder : jsval) : prog jsval :=
  r <- with_json PATCH (API +:+ "/messages/" +:+ enc id) (JObj [("folder", folder)]) ;;
  expect_or_error "mail move" r.

Definition refreshMessageHeader (id : string) (headerCiphertextB64 : jsval) : prog jsval :=
  r <- with_json PATCH (API +:+ "/messages/" +:+ enc id) (JObj [("header_ciphertext_b64", headerCiphertextB64)]) ;;
  expect_or_error "mail header refresh" r.

Definition deleteMessage (id : string) (permanent : jsval) : prog jsval :=
  r <- send (call_query origin DELETE (API +:+ "/messages/" +:+ enc id)
              (if truthy permanent then search_params [("mode", "permanent")] else "")) ;;
  expect_or_error "mail delete" r.

Definition postEncryptedMessage (recipient headerCiphertextB64 bodyCiphertextB64 senderHeaderCiphertextB64
    senderBodyCiphertextB64 fromAddr toAddrs : jsval) : prog jsval :=
  r <- with_json POST (API +:+ "/messages")
    (JObj [("recipient", recipient);
           ("header_ciphertext_b64", headerCiphertextB64);
           ("body_ciphertext_b64", bodyCiphertextB64);
           ("sender_header_ciphertext_b64", js_or senderHeaderCiphertextB64 (JStr ""));
           ("sender_body_ciphertext_b64", js_or senderBodyCiphertextB64 (JStr ""));
           ("from_addr", js_or fromAddr JNull);
           ("to_addrs", js_or toAddrs (JArr []))]) ;;
  expect "mail post" r.

Definition postOutbox (payloadCiphertextB64 recipientSummary senderHeaderCiphertextB64 senderBodyCiphertextB64 fromAddr : jsval)
  : prog jsval :=
  r <- with_json POST (API +:+ "/outbox")
    (JObj [("payload_ciphertext_b64", payloadCiphertextB64);
           ("recipient_summary", js_or recipientSummary (JArr []));
           ("sender_header_ciphertext_b64", js_or senderHeaderCiphertextB64 (JStr ""));
           ("sender_body_ciphertext_b64", js_or senderBodyCiphertextB64 (JStr ""));
           ("from_addr", js_or fromAddr (JStr ""))]) ;;
  expect "mail outbox" r.

Definition getOutbox (id : string) : prog jsval :=
  r <- get (API +:+ "/outbox/" +:+ enc id) ;; expect "outbox get" r.

Definition getMailSettings : prog jsval :=
  r <- get (API +:+ "/settings") ;; expect "mail settings" r.

Definition setMailSettings (body : jsval) : prog jsval :=
  r <- with_json POST (API +:+ "/settings") body ;; expect_or_error "mail settings save" r.

Definition postOutboxPlain (fromAddr toAddrs subject bodyText : jsval) : prog jsval :=
  r <- with_json POST (API +:+ "/outbox-plain")
    (JObj [("from_addr", fromAddr); ("to_addrs", js_or toAddrs (JArr [])); ("subject", js_or subject (JStr ""));
           ("body_text", js_or bodyText (JStr ""))]) ;;
  expect_or_error "outbox-plain" r.

Definition createProtectedLink (body : jsval) : prog jsval :=
  r <- with_json POST (API +:+ "/protected-links") body ;; expect_or_error "protected-links" r.

(** ** Keys and identities *)

(** [o.k = v] on an object: in place, or at the end. *)
Fixpoint set_field (k : string) (v : jsval) (fs : list (string * jsval)) : list (string * jsval) :=
  match fs with
  | [] => [(k, v)]
  | (k', v') :: fs => if k' =s? k then (k, v) :: fs else (k', v') :: set_field k v fs
  end.

(** Both spellings of the armored key are filled in from each other. *)
Definition fill_armored (hit : jsval) : jsval :=
  match hit with
  | JObj fs =>
      let fs := if truthy (field "armored" fs) && negb (truthy (field "armored_public" fs))
                then set_field "armored_public" (field "armored" fs) fs else fs in
      let fs := if truthy (field "armored_public" fs) && negb (truthy (field "armored" fs))
                then set_field "armored" (field "armored_public" fs) fs else fs in
      JObj fs
  | _ => hit
  end.

Definition lookupKey (email : string) : prog jsval :=
  r <- get_query "/api/v1/keys/lookup" (search_params [("email", email)]) ;;
  if (rp_status r =? 404)%Z then Ret JNull
  else if negb (rp_ok r) then Raise (with_status "keys lookup" r)
  else hit <- json r ;; Ret (fill_armored hit).

Definition listIdentities : prog jsval :=
  r <- get "/api/v1/identities" ;; expect "identities list" r.

Definition setDefaultIdentity (fingerprint : string) : prog jsval :=
  r <- bare POST ("/api/v1/identities/" +:+ enc fingerprint +:+ "/default") ;; expect "identity default" r.

Definition deleteIdentity (fingerprint : string) : prog jsval :=
  r <- bare DELETE ("/api/v1/identities/" +:+ enc fingerprint) ;; expect "identity delete" r.

Definition updateIdentityProfile (fingerprint : string) (payload : jsval) : prog jsval :=
  r <- with_json PATCH ("/api/v1/identities/" +:+ enc fingerprint) (js_or payload (JObj [])) ;;
  expect_or_error "identity update" r.

Definition lookupVisibleIdentityProfile (email : jsval) : prog jsval :=
  r <- get_query "/api/v1/identities/visible-profile"
         (search_params [("email", trim (js_String (js_or email (JStr ""))))]) ;;
  expect_or_error "identity visible profile" r.

Definition createIdentity (payload : jsval) : prog jsval :=
  r <- with_json POST "/api/v1/identities" payload ;; expect_or_error "identity create" r.

Definition getContactKey (email : string) : prog jsval :=
  r <- get ("/api/v1/keys/contacts/" +:+ enc email) ;;
  if (rp_status r =? 404)%Z then Ret JNull else expect "contacts get" r.

Definition putContactKey (email armoredPublic source trusted : jsval) : prog jsval :=
  let body := [("email", email); ("armored_public", armoredPublic); ("source", js_or source (JStr "manual"))] ++
              match trusted with JBool b => [("trusted", JBool b)] | _ => [] end in
  r <- with_json POST "/api/v1/keys/contacts" (JObj body) ;; expect_or_error "contacts put" r.

Definition deleteContactKey (email : string) (fingerprint : jsval) : prog jsval :=
  let q := if truthy fingerprint then "fingerprint=" +:+ enc (js_String fingerprint) else "" in
  r <- send (call_query origin DELETE ("/api/v1/keys/contacts/" +:+ enc email) q) ;;
  expect_or_error "contacts delete" r.

Definition listContactKeys (opts : jsval) : prog jsval :=
  trustedOnly <- lift (if truthy opts then getp opts "trustedOnly" else Ok opts) ;;
  r <- get_query "/api/v1/keys/contacts" (if truthy trustedOnly then "trusted=1" else "") ;;
  expect "contacts list" r.

(** ** Account, folders, filters, domains *)

Definition cancelAccountDeletion : prog jsval :=
  r <- bare POST "/api/auth/account-delete/cancel" ;; body_or_error "account delete cancel" r.
Definition getDeletePolicy : prog jsval :=
  r <- get "/api/v1/account/delete-policy" ;; body_or_error "delete policy" r.
Definition setDeletePolicy (payload : jsval) : prog jsval :=
  r <- with_json PUT "/api/v1/account/delete-policy" payload ;; body_or_error "delete policy save" r.
Definition getBillingStatus : prog jsval :=
  r <- get "/api/v1/billing/status" ;; expect "billing" r.

Definition listMailboxFolders : prog jsval :=
  r <- get "/api/v1/mailbox/folders" ;; expect "folders" r.
Definition createMailboxFolder (name : jsval) : prog jsval :=
  r <- with_json POST "/api/v1/mailbox/folders" (JObj [("name", name)]) ;; expect_or_error "folder create" r.
Definition deleteMailboxFolder (name : string) : prog jsval :=
  r <- bare DELETE ("/api/v1/mailbox/folders/" +:+ enc name) ;; expect_or_error "folder delete" r.

Definition listFilters : prog jsval :=
  r <- get "/api/v1/filters" ;; expect "filters" r.
Definition createFilter (body : jsval) : prog jsval :=
  r <- with_json POST "/api/v1/filters" body ;; expect_or_error "filter create" r.
Definition updateFilter (id : string) (body : jsval) : prog jsval :=
  r <- with_json PUT ("/api/v1/filters/" +:+ enc id) body ;; expect_or_error "filter update" r.
Definition deleteFilter (id : string) : prog jsval :=
  r <- bare DELETE ("/api/v1/filters/" +:+ enc id) ;; expect_or_error "filter delete" r.

Definition listCustomDomains : prog jsval :=
  r <- get "/api/v1/custom-domains" ;; expect "domains" r.
Definition listUsableDomains : prog jsval :=
  r <- get "/api/v1/mail/usable-domains" ;; expect "usable-domains" r.
Definition addCustomDomain (domain : jsval) : prog jsval :=
  r <- with_json POST "/api/v1/custom-domains" (JObj [("domain", domain)]) ;; expect_or_error "domain add" r.
Definition deleteCustomDomain (domain : string) : prog jsval :=
  r <- bare DELETE ("/api/v1/custom-domains/" +:+ enc domain) ;; expect_or_error "domain delete" r.
Definition verifyCustomDomain (domain : string) : prog jsval :=
  r <- bare POST ("/api/v1/custom-domains/" +:+ enc domain +:+ "/verify") ;; expect_or_error "domain verify" r.
Definition setDomainCatchall (domain : string) (identityFingerprint : jsval) : prog jsval :=
  let none := is_nullish identityFingerprint || match identityFingerprint with JStr s => s =s? "" | _ => false end in
  r <- with_json PUT ("/api/v1/custom-domains/" +:+ enc domain +:+ "/catchall")
         (JObj [("identity_fingerprint", if none then JNull else identityFingerprint)]) ;;
  expect_or_error "catchall" r.

Definition listSMTPCredentials : prog jsval :=
  r <- get "/api/v1/smtp-submission" ;; expect "smtp list" r.
Definition createSMTPCredential (body : jsval) : prog jsval :=
  r <- with_json POST "/api/v1/smtp-submission" body ;; expect_or_error "smtp create" r.
Definition regenerateSMTPCredential (id : string) : prog jsval :=
  r <- bare POST ("/api/v1/smtp-submission/" +:+ enc id +:+ "/regenerate") ;; expect_or_error "smtp regenerate" r.
Definition deleteSMTPCredential (id : string) : prog jsval :=
  r <- bare DELETE ("/api/v1/smtp-submission/" +:+ enc id) ;; expect_or_error "smtp delete" r.

(** ** Two-factor authentication *)

Definition getTwoFactorStatus : prog jsval :=
  r <- get "/api/auth/2fa" ;; expect_or_error "2fa status" r.
Definition beginTOTPSetup (label : jsval) : prog jsval :=
  r <- with_json POST "/api/auth/2fa/totp/begin" (JObj [("label", js_or label (JStr ""))]) ;; body_or_error "totp begin" r.
Definition confirmTOTPSetup (setupId code : jsval) : prog jsval :=
  r <- with_json POST "/api/auth/2fa/totp/confirm" (JObj [("setup_id", setupId); ("code", code)]) ;; body_or_error "totp confirm" r.
Definition verifyTwoFactorTOTP (code : jsval) : prog jsval :=
  r <- with_json POST "/api/auth/2fa/verify/totp" (JObj [("code", code)]) ;; body_or_error "totp verify" r.
Definition verifyTwoFactorRecovery (code : jsval) : prog jsval :=
  r <- with_json POST "/api/auth/2fa/verify/recovery" (JObj [("code", code)]) ;; body_or_error "recovery verify" r.
Definition regenerateRecoveryCodes : prog jsval :=
  r <- bare POST "/api/auth/2fa/recovery/regenerate" ;; body_or_error "recovery regenerate" r.
Definition beginWebAuthnRegistration : prog jsval :=
  r <- bare POST "/api/auth/2fa/webauthn/register/begin" ;; body_or_error "webauthn begin register" r.
Definition finishWebAuthnRegistration (challengeId credential label : jsval) : prog jsval :=
  r <- with_json POST "/api/auth/2fa/webauthn/register/finish"
         (JObj [("challenge_id", challengeId); ("credential", credential); ("label", js_or label (JStr ""))]) ;;
  body_or_error "webauthn finish register" r.
Definition beginWebAuthnVerification : prog jsval :=
  r <- bare POST "/api/auth/2fa/verify/webauthn/begin" ;; body_or_error "webauthn begin verify" r.
Definition finishWebAuthnVerification (challengeId credential : jsval) : prog jsval :=
  r <- with_json POST "/api/auth/2fa/verify/webauthn/finish" (JObj [("challenge_id", challengeId); ("credential", credential)]) ;;
  body_or_error "webauthn finish verify" r.
Definition deleteTOTPFactor (id : string) : prog jsval :=
  r <- bare DELETE ("/api/auth/2fa/totp/" +:+ enc id) ;; body_or_error "totp delete" r.
Definition deleteWebAuthnCredential (id : string) : prog jsval :=
  r <- bare DELETE ("/api/auth/2fa/webauthn/" +:+ enc id) ;; body_or_error "webauthn delete" r.

(** ** The exported object

    [window.ElvishMailManifest]: the functions that send one request. *)
Inductive api_call : Type -> Type :=
| FetchManifests (folder limit before : jsval) : api_call jsval
| FetchManifest (id : string) : api_call jsval
| FetchBlob (id : string) : api_call string
| SetMessageRead (id : string) (read : jsval) : api_call jsval
| MoveMessage (id : string) (folder : jsval) : api_call jsval
| RefreshMessageHeader (id : string) (header : jsval) : api_call jsval
| DeleteMessage (id : string) (permanent : jsval) : api_call jsval
| PostEncryptedMessage (recipient header body senderHeader senderBody from to : jsval) : api_call jsval
| PostOutbox (payload summary senderHeader senderBody from : jsval) : api_call jsval
| PostOutboxPlain (from to subject body : jsval) : api_call jsval
| CreateProtectedLink (body : jsval) : api_call jsval
| GetOutbox (id : string) : api_call jsval
| GetMailSettings : api_call jsval
| SetMailSettings (body : jsval) : api_call jsval
| LookupKey (email : string) : api_call jsval
| ListIdentities : api_call jsval
| SetDefaultIdentity (fingerprint : string) : api_call jsval
| DeleteIdentity (fingerprint : string) : api_call jsval
| UpdateIdentityProfile (fingerprint : string) (payload : jsval) : api_call jsval
| LookupVisibleIdentityProfile (email : jsval) : api_call jsval
| GetContactKey (email : string) : api_call jsval
| PutContactKey (email armored source trusted : jsval) : api_call jsval
| ListContactKeys (opts : jsval) : api_call jsval
| DeleteContactKey (email : string) (fingerprint : jsval) : api_call jsval
| CancelAccountDeletion : api_call jsval
| GetDeletePolicy : api_call jsval
| SetDeletePolicy (payload : jsval) : api_call jsval
| GetBillingStatus : api_call jsval
| CreateIdentity (payload : jsval) : api_call jsval
| ListMailboxFolders : api_call jsval
| CreateMailboxFolder (name : jsval) : api_call jsval
| DeleteMailboxFolder (name : string) : api_call jsval
| ListFilters : api_call jsval
| CreateFilter (body : jsval) : api_call jsval
| UpdateFilter (id : string) (body : jsval) : api_call jsval
| DeleteFilter (id : string) : api_call jsval
| ListCustomDomains : api_call jsval
| ListUsableDomains : api_call jsval
| AddCustomDomain (domain : jsval) : api_call jsval
| DeleteCustomDomain (domain : string) : api_call jsval
| VerifyCustomDomain (domain : string) : api_call jsval
| SetDomainCatchall (domain : string) (fingerprint : jsval) : api_call jsval
| ListSMTPCredentials : api_call jsval
| CreateSMTPCredential (body : jsval) : api_call jsval
| RegenerateSMTPCredential (id : string) : api_call jsval
| DeleteSMTPCredential (id : string) : api_call jsval
| GetTwoFactorStatus : api_call jsval
| BeginTOTPSetup (label : jsval) : api_call jsval
| ConfirmTOTPSetup (setupId code : jsval) : api_call jsval
| VerifyTwoFactorTOTP (code : jsval) : api_call jsval
| VerifyTwoFactorRecovery (code : jsval) : api_call jsval
| RegenerateRecoveryCodes : api_call jsval
| BeginWebAuthnRegistration : api_call jsval
| FinishWebAuthnRegistration (challengeId credential label : jsval) : api_call jsval
| BeginWebAuthnVerification : api_call jsval
| FinishWebAuthnVerification (challengeId credential : jsval) : api_call jsval
| DeleteTOTPFactor (id : string) : api_call jsval
| DeleteWebAuthnCredential (id : string) : api_call jsval.

Definition perform {A} (c : api_call A) : prog A :=
  match c with
  | FetchManifests folder limit before => fetchManifests folder limit before
  | FetchManifest id => fetchManifest id
  | FetchBlob id => fetchBlob id
  | SetMessageRead id read => setMessageRead id read
  | MoveMessage id folder => moveMessage id folder
  | RefreshMessageHeader id header => refreshMessageHeader id header
  | DeleteMessage id permanent => deleteMessage id permanent
  | PostEncryptedMessage recipient header body sh sb from to => postEncryptedMessage recipient header body sh sb from to
  | PostOutbox payload summary sh sb from => postOutbox payload summary sh sb from
  | PostOutboxPlain from to subject body => postOutboxPlain from to subject body
  | CreateProtectedLink body => createProtectedLink body
  | GetOutbox id => getOutbox id
  | GetMailSettings => getMailSettings
  | SetMailSettings body => setMailSettings body
  | LookupKey email => lookupKey email
  | ListIdentities => listIdentities
  | SetDefaultIdentity fp => setDefaultIdentity fp
  | DeleteIdentity fp => deleteIdentity fp
  | UpdateIdentityProfile fp payload => updateIdentityProfile fp payload
  | LookupVisibleIdentityProfile email => lookupVisibleIdentityProfile email
  | GetContactKey email => getContactKey email
  | PutContactKey email armored source trusted => putContactKey email armored source trusted
  | ListContactKeys opts => listContactKeys opts
  | DeleteContactKey email fp => deleteContactKey email fp
  | CancelAccountDeletion => cancelAccountDeletion
  | GetDeletePolicy => getDeletePolicy
  | SetDeletePolicy payload => setDeletePolicy payload
  | GetBillingStatus => getBillingStatus
  | CreateIdentity payload => createIdentity payload
  | ListMailboxFolders => listMailboxFolders
  | CreateMailboxFolder name => createMailboxFolder name
  | DeleteMailboxFolder name => deleteMailboxFolder name
  | ListFilters => listFilters
  | CreateFilter body => createFilter body
  | UpdateFilter id body => updateFilter id body
  | DeleteFilter id => deleteFilter id
  | ListCustomDomains => listCustomDomains
  | ListUsableDomains => listUsableDomains
  | AddCustomDomain domain => addCustomDomain domain
  | DeleteCustomDomain domain => deleteCustomDomain domain
  | VerifyCustomDomain domain => verifyCustomDomain domain
  | SetDomainCatchall domain fp => setDomainCatchall domain fp
  | ListSMTPCredentials => listSMTPCredentials
  | CreateSMTPCredential body => createSMTPCredential body
  | RegenerateSMTPCredential id => regenerateSMTPCredential id
  | DeleteSMTPCredential id => deleteSMTPCredential id
  | GetTwoFactorStatus => getTwoFactorStatus
  | BeginTOTPSetup label => beginTOTPSetup label
  | ConfirmTOTPSetup setupId code => confirmTOTPSetup setupId code
  | VerifyTwoFactorTOTP code => verifyTwoFactorTOTP code
  | VerifyTwoFactorRecovery code => verifyTwoFactorRecovery code
  | RegenerateRecoveryCodes => regenerateRecoveryCodes
  | BeginWebAuthnRegistration => beginWebAuthnRegistration
  | FinishWebAuthnRegistration challengeId credential label => finishWebAuthnRegistration challengeId credential label
  | BeginWebAuthnVerification => beginWebAuthnVerification
  | FinishWebAuthnVerification challengeId credential => finishWebAuthnVerification challengeId credential
  | DeleteTOTPFactor id => deleteTOTPFactor id
  | DeleteWebAuthnCredential id => deleteWebAuthnCredential id
  end.

(** The two lookups answer [null] to a 404. *)
Definition when_missing {A} (c : api_call A) : option A :=
  match c with LookupKey _ => Some JNull | GetContactKey _ => Some JNull | _ => None end.

(** The identifier a call puts into the path, with what surrounds it. *)
Definition path_of {A} (c : api_call A) : option (list string * string * list string) :=
  match c with
  | FetchManifest id | SetMessageRead id _ | MoveMessage id _ | RefreshMessageHeader id _ | DeleteMessage id _ =>
      Some (["api"; "v1"; "mail"; "messages"], id, [])
  | FetchBlob id => Some (["api"; "v1"; "mail"; "messages"], id, ["blob"])
  | GetOutbox id => Some (["api"; "v1"; "mail"; "outbox"], id, [])
  | SetDefaultIdentity id => Some (["api"; "v1"; "identities"], id, ["default"])
  | DeleteIdentity id | UpdateIdentityProfile id _ => Some (["api"; "v1"; "identities"], id, [])
  | GetContactKey id | DeleteContactKey id _ => Some (["api"; "v1"; "keys"; "contacts"], id, [])
  | DeleteMailboxFolder id => Some (["api"; "v1"; "mailbox"; "folders"], id, [])
  | UpdateFilter id _ | DeleteFilter id => Some (["api"; "v1"; "filters"], id, [])
  | DeleteCustomDomain id => Some (["api"; "v1"; "custom-domains"], id, [])
  | VerifyCustomDomain id => Some (["api"; "v1"; "custom-domains"], id, ["verify"])
  | SetDomainCatchall id _ => Some (["api"; "v1"; "custom-domains"], id, ["catchall"])
  | RegenerateSMTPCredential id => Some (["api"; "v1"; "smtp-submission"], id, ["regenerate"])
  | DeleteSMTPCredential id => Some (["api"; "v1"; "smtp-submission"], id, [])
  | DeleteTOTPFactor id => Some (["api"; "auth"; "2fa"; "totp"], id, [])
  | DeleteWebAuthnCredential id => Some (["api"; "auth"; "2fa"; "webauthn"], id, [])
  | _ => None
  end.
End Client.

(** ** Lemmas *)

Lemma runs_send {A} rq (k : response -> prog A) tr out :
  runs (bind (send rq) k) tr out ->
  (exists r tr', tr = (rq, Some r) :: tr' /\ runs (k r) tr' out) \/
  (tr = [(rq, None)] /\ out = Throw "Failed to fetch").
Proof.
  cbn [send bind]. intros Hr. inversion Hr as [| |? ? [r|] tr' ? Hr']; subst; cbn [bind] in Hr'.
  - left. by exists r, tr'.
  - right. by inversion Hr'.
Qed.

(** What follows an answer sends nothing, and returns a value only after success. *)
Definition concludes {A} (ok : A -> Prop) (p : prog A) : Prop :=
  forall tr out, runs p tr out -> tr = [] /\ forall v, out = Ok v -> ok v.

Lemma concludes_ret {A} (ok : A -> Prop) v : ok v -> concludes ok (Ret v).
Proof. intros Hv tr out Hr. inversion Hr; subst. by split; [|intros ? [= <-]]. Qed.
Lemma concludes_raise {A} (ok : A -> Prop) m : concludes ok (Raise m).
Proof. intros tr out Hr. by inversion Hr; subst. Qed.
Lemma concludes_lift {A B} (m : res A) (k : A -> prog B) ok : (forall a, concludes ok (k a)) -> concludes ok (bind (lift m) k).
Proof. intros Hk. destruct m; cbn; [apply Hk | apply concludes_raise]. Qed.
#[local] Hint Resolve concludes_ret concludes_raise concludes_lift : js.

Lemma concludes_json (ok : jsval -> Prop) r : (forall v, ok v) -> concludes ok (json r).
Proof. intros H. unfold json. destruct (rp_json r); auto with js. Qed.
Lemma concludes_error {A} (ok : A -> Prop) err label r : concludes ok (throw_error err label r).
Proof. unfold throw_error. auto with js. Qed.
#[local] Hint Resolve concludes_json concludes_error : js.
Lemma concludes_expect label r : concludes (fun _ => rp_ok r = true) (expect label r).
Proof. unfold expect. destruct (rp_ok r); cbn [negb]; auto with js. Qed.
Lemma concludes_expect_or_error label r : concludes (fun _ => rp_ok r = true) (expect_or_error label r).
Proof. unfold expect_or_error. destruct (rp_ok r); cbn [negb]; auto with js. Qed.
Lemma concludes_body_or_error label r : concludes (fun _ => rp_ok r = true) (body_or_error label r).
Proof. unfold body_or_error. destruct (rp_ok r); cbn [negb]; auto with js. Qed.
#[local] Hint Resolve concludes_expect concludes_expect_or_error concludes_body_or_error : js.

(** A call: one request, then a conclusion that depends on the answer. *)
Definition one_request {A} (rq : request) (ok : response -> A -> Prop) (p : prog A) : Prop :=
  forall tr out, runs p tr out ->
  exists r, tr = [(rq, r)] /\ forall v, out = Ok v -> exists rp, r = Some rp /\ ok rp v.

Lemma one_send {A} rq (k : response -> prog A) (ok : response -> A -> Prop) :
  (forall r, concludes (ok r) (k r)) -> one_request rq ok (bind (send rq) k).
Proof.
  intros Hk tr out Hr. apply runs_send in Hr as [(r & tr' & -> & Hr)|(-> & ->)].
  - apply Hk in Hr as [-> Hv]. exists (Some r). split; [done|]. intros v Hout. exists r. auto.
  - by exists None.
Qed.

Lemma one_request_mono {A} rq (ok ok' : response -> A -> Prop) p :
  (forall r v, ok r v -> ok' r v) -> one_request rq ok p -> one_request rq ok' p.
Proof.
  intros H Hp tr out Hr. destruct (Hp _ _ Hr) as (r & -> & Hv). exists r. split; [done|].
  intros v Hout. destruct (Hv v Hout) as (rp & -> & ?). eauto.
Qed.

(** The statement shared by the calls: one request, and success of the answer. *)
Definition answers {A} (missing : option A) (r : response) (v : A) : Prop :=
  rp_ok r = true \/ (rp_status r = 404%Z /\ missing = Some v).

Lemma one_plain rq (k : response -> prog jsval) missing :
  (forall r, concludes (fun _ => rp_ok r = true) (k r)) -> one_request rq (answers missing) (bind (send rq) k).
Proof. intros Hk. apply (one_request_mono rq (fun r _ => rp_ok r = true)); [by left|]. by apply one_send. Qed.
#[local] Hint Resolve one_plain : js.

Lemma when_404 r (k : prog jsval) :
  concludes (fun _ => rp_ok r = true) k ->
  concludes (answers (Some JNull) r) (if (rp_status r =? 404)%Z then Ret JNull else k).
Proof.
  intros Hk. destruct (rp_status r =? 404)%Z eqn:E.
  - apply concludes_ret. right. split; [by apply Z.eqb_eq | done].
  - intros tr out Hr. destruct (Hk _ _ Hr) as [-> Hv]. split; [done|]. left. eauto.
Qed.

Lemma call_one_request origin {A} (c : api_call A) :
  (exists rq, one_request rq (answers (when_missing c)) (perform origin c)) \/
  (exists m, perform origin c = Raise m).
Proof.
  destruct c; cbn [perform when_missing]; try (left; eexists; apply one_plain; intros r; auto with js; fail).
  - (* fetchManifests *) left. eexists. apply one_plain. intros r. destruct (rp_ok r); cbn [negb]; auto with js.
  - (* fetchBlob *) left. eexists. unfold fetchBlob. apply (one_request_mono _ (fun r _ => rp_ok r = true)); [by left|].
    apply one_send. intros r. destruct (rp_ok r); cbn [negb]; auto with js.
  - (* lookupKey *) left. eexists. apply one_send. intros r. apply when_404. destruct (rp_ok r); cbn [negb]; [|auto with js].
    unfold json. destruct (rp_json r); cbn [bind]; auto with js.
  - (* getContactKey *) left. eexists. apply one_send. intros r. apply when_404. auto with js.
  - (* listContactKeys *) unfold listContactKeys. destruct (if truthy opts then _ else _) as [v|m]; cbn [lift bind].
    + left. eexists. apply one_plain. auto with js.
    + right. by eexists.
Qed.

(** *** Paths *)

Lemma replace_all_cons pat rep c s :
  String.prefix pat (String c s) = false -> replace_all pat rep (String c s) = String c (replace_all pat rep s).
Proof.
  intros H. unfold replace_all, split. cbn [split_go]. rewrite H. fold (split s pat).
  destruct (split s pat) as [|p ps] eqn:E; [by apply split_go_nonempty in E|]. unfold join. by rewrite join_cons_char.
Qed.
Lemma dot_of_kept b s : uri_kept b = true -> dot_of (String b s) = String (lower_char b) (dot_of s).
Proof.
  intros Hb. unfold dot_of. cbn [to_lower]. apply replace_all_cons. rewrite prefix_cons.
  assert (forall c, uri_kept c = true -> Ascii.eqb "%" (lower_char c) = false) as P by by_char.
  specialize (P b Hb). destruct (ascii_dec "%" (lower_char b)) as [E|]; [|done]. by rewrite <- E in P.
Qed.
Lemma dot_of_percent b s : uri_kept b = false -> exists rest, dot_of (percent b +:+ s) = String "%" rest.
Proof.
  intros Hb. unfold dot_of, percent. cbn [String.append to_lower].
  rewrite replace_all_cons; [by eexists|].
  assert (forall c s', uri_kept c = false ->
    String.prefix "%2e" (String (lower_char "%") (String (lower_char (hex_upper (code c / 16))) (String (lower_char (hex_upper (code c mod 16))) s'))) = false)
    as P by (intros c s'; revert c; by_char).
  by apply P.
Qed.

Local Abbreviation pe := (percent_encode uri_kept).
Lemma dot_of_nil bs : dot_of (pe bs) = "" -> bs = "".
Proof.
  destruct bs as [|b bs]; [done|]. cbn [percent_encode]. destruct (uri_kept b) eqn:E; cbn [String.append].
  - by rewrite dot_of_kept.
  - by destruct (dot_of_percent b (pe bs) E) as [? ->].
Qed.
Lemma dot_of_dot bs r : dot_of (pe bs) = String "." r -> exists bs', bs = String "." bs' /\ dot_of (pe bs') = r.
Proof.
  destruct bs as [|b bs]; [done|]. cbn [percent_encode]. destruct (uri_kept b) eqn:E; cbn [String.append].
  - rewrite dot_of_kept by done. intros [= Hb <-]. exists bs. split; [f_equal|done].
    revert Hb. clear. revert b. by_char.
  - destruct (dot_of_percent b (pe bs) E) as [? ->]. done.
Qed.

(** Only the identifiers "." and ".." are dot segments once encoded. *)
Definition proper_id (id : string) : bool := negb (id =s? ".") && negb (id =s? "..").
Definition plain_segment (s : string) : bool := negb (single_dot s) && negb (double_dot s) && no_char "/" s.

Lemma utf8_dots id n : utf8 id = n -> all_chars is_ascii n = true -> id = n.
Proof. intros H Hn. rewrite <- (utf8_decode_utf8 id), H. by apply utf8_decode_ascii. Qed.

Lemma component_plain id : proper_id id = true -> plain_segment (encodeURIComponent id) = true.
Proof.
  unfold proper_id, plain_segment. intros Hp. bool_to_prop.
  rewrite component_no_char, andb_true_r by done. unfold single_dot, double_dot, encodeURIComponent.
  rewrite andb_true_iff, !negb_true_iff, !String.eqb_neq.
  split; intros (bs & E1 & E2)%dot_of_dot.
  - apply dot_of_nil in E2 as ->. by apply utf8_dots in E1.
  - apply dot_of_dot in E2 as (bs' & -> & E2%dot_of_nil). subst bs'. by apply utf8_dots in E1.
Qed.

Lemma dots_plain acc segs : Forall (fun s => plain_segment s = true) segs -> dots acc segs = rev acc ++ segs.
Proof.
  intros H. revert acc. induction H as [|s segs Hs H IH]; intros acc; cbn [dots]; [by rewrite app_nil_r|].
  unfold plain_segment in Hs. bool_to_prop. destruct (double_dot s); [done|].
  destruct (single_dot s); [done|]. rewrite IH. cbn [rev]. by rewrite <- app_assoc.
Qed.

Lemma normalise_plain segs :
  segs <> [] -> Forall (fun s => plain_segment s = true) segs -> normalise_path ("/" +:+ join "/" segs) = "/" +:+ join "/" segs.
Proof.
  intros Hne Hs. unfold normalise_path. change (sdrop 1 ("/" +:+ join "/" segs)) with (join "/" segs).
  rewrite (split_lines "/"); [by rewrite dots_plain|done|].
  eapply Forall_impl; [exact Hs|]. intros s Hp. unfold plain_segment in Hp. by bool_to_prop.
Qed.

(** *** What the server sees *)

(** The URL of an identifier between fixed segments. *)
Definition url_with (origin : string) (pre : list string) (seg : string) (post : list string) (query : string) : string :=
  origin +:+ "/" +:+ join "/" (pre ++ [seg] ++ post) +:+ query.

(** A query string: none, or one that begins with a question mark. *)
Definition is_query (q : string) : Prop := q = "" \/ exists r, q = "?" +:+ r.

Lemma resolve_plain origin pre id post query :
  proper_id id = true -> Forall (fun s => plain_segment s = true) pre -> Forall (fun s => plain_segment s = true) post ->
  exists q, is_query q /\
    resolve origin ("/" +:+ join "/" (pre ++ [encodeURIComponent id] ++ post)) query =
    url_with origin pre (encodeURIComponent id) post q.
Proof.
  intros Hid H1 H2. eexists. split; [|unfold resolve, url_with; rewrite normalise_plain; [by rewrite sapp_assoc|by destruct pre|]].
  - destruct (query =s? ""); [by left | right; by eexists].
  - apply Forall_app. split; [done|]. apply Forall_app. split; [|done]. apply Forall_singleton. by apply component_plain.
Qed.

Definition first_request {A} (p : prog A) : option request := match p with Fetch rq _ => Some rq | _ => None end.
Lemma runs_first {A} (p : prog A) rq r tr out : runs p ((rq, r) :: tr) out -> first_request p = Some rq.
Proof. intros Hr. by inversion Hr; subst. Qed.

Lemma first_url origin {A} (c : api_call A) pre id post :
  path_of c = Some (pre, id, post) ->
  exists rq query, first_request (perform origin c) = Some rq /\ rq_credentials rq = "include" /\
    rq_url rq = resolve origin ("/" +:+ join "/" (pre ++ [encodeURIComponent id] ++ post)) query /\
    Forall (fun s => plain_segment s = true) pre /\ Forall (fun s => plain_segment s = true) post.
Proof.
  destruct c; intros [= <- <- <-]; cbn [perform]; (do 2 eexists; split; [reflexivity|]; split; [reflexivity|]; split;
    [reflexivity | split; repeat constructor]).
Qed.

(** ** Properties *)

(** a failure is never mistaken for a result.  Whatever the server answers, a
    call of the client sends at most one request, and it returns a value only when
    the answer arrived with a success status, except that the two key lookups
    turn a 404 into null. *)
Theorem failures_are_reported origin {A} (c : api_call A) tr v :
  runs (perform origin c) tr (Ok v) ->
  exists rq r, tr = [(rq, Some r)] /\ (rp_ok r = true \/ (rp_status r = 404%Z /\ when_missing c = Some v)).
Proof.
  intros Hr. destruct (call_one_request origin c) as [[rq H]|[m E]].
  - destruct (H _ _ Hr) as (r & -> & Hv). destruct (Hv v eq_refl) as (rp & -> & Hok). by exists rq, rp.
  - rewrite E in Hr. inversion Hr.
Qed.

(** an identifier stays where it was put.  A call that names a message, key,
    folder, filter, domain or factor sends one request to the origin of the page, with
    credentials, whose path has the identifier as one segment between the fixed ones:
    it holds no slash, question mark or hash, and decodes to the identifier.  The
    identifiers "." and ".." are the exception. *)
Theorem identifiers_stay_in_place origin {A} (c : api_call A) pre id post tr out :
  path_of c = Some (pre, id, post) -> proper_id id = true -> runs (perform origin c) tr out ->
  exists rq r seg q, tr = [(rq, r)] /\ rq_credentials rq = "include" /\
    rq_url rq = url_with origin pre seg post q /\ is_query q /\
    no_char "/" seg = true /\ no_char "?" seg = true /\ no_char "#" seg = true /\ decodeURIComponent seg = id.
Proof.
  intros Hp Hid Hr. destruct (first_url origin c _ _ _ Hp) as (rq & query & Hf & Hc & Hu & H1 & H2).
  destruct (resolve_plain origin pre id post query Hid H1 H2) as (q & Hq & Hres).
  destruct (call_one_request origin c) as [[rq' H]|[m E]]; [|by rewrite E in Hf].
  destruct (H _ _ Hr) as (r & -> & _). pose proof (runs_first _ _ _ _ _ Hr) as Hf'. rewrite Hf in Hf'. injection Hf' as <-.
  exists rq, r, (encodeURIComponent id), q. rewrite Hu, Hres. split_and!; try done; try (by apply component_no_char).
  apply decode_encode_component.
Qed.

(** Dot segments are removed before the request is sent. *)
Example dots_leave_the_folder :
  exists rq, first_request (perform "https://mail.example" (FetchManifest "..")) = Some rq /\
    rq_url rq = "https://mail.example/api/v1/mail/".
Proof. eexists. split; reflexivity. Qed.

(** ** Witnesses *)

Lemma failures_are_reported_witness : exists tr rq r,
  runs (perform "https://mail.example" (LookupKey "a@b.c")) tr (Ok JNull) /\ tr = [(rq, Some r)].
Proof.
  pose (r := Response 404 None "").
  assert (exists rq, runs (perform "https://mail.example" (LookupKey "a@b.c")) [(rq, Some r)] (Ok JNull)) as [rq Hr].
  { eexists. cbn [perform]. apply runs_fetch. cbn. constructor. }
  destruct (failures_are_reported _ _ _ _ Hr) as (rq' & r' & E & _). by exists [(rq, Some r)], rq', r'.
Defined.

Lemma identifiers_stay_in_place_witness : exists rq seg q,
  rq_url rq = url_with "https://mail.example" ["api"; "v1"; "mail"; "messages"] seg ["blob"] q /\
  decodeURIComponent seg = "a/../b?c#d%2e".
Proof.
  assert (exists rq, runs (perform "https://mail.example" (FetchBlob "a/../b?c#d%2e"))
            [(rq, Some (Response 200 None "bytes"))] (Ok "bytes")) as [rq Hr].
  { eexists. cbn [perform]. apply runs_fetch. cbn. constructor. }
  destruct (identifiers_stay_in_place "https://mail.example" (FetchBlob "a/../b?c#d%2e")
    ["api"; "v1"; "mail"; "messages"] "a/../b?c#d%2e" ["blob"] _ _ eq_refl ltac:(vm_compute; reflexivity) Hr)
    as (rq' & r & seg & q & _ & _ & Hu & _ & _ & _ & _ & Hd).
  by exists rq', seg, q.
Defined.
