(* ===== verification/Accounts.v ===== *)
(** * Accounts and generated identities ([static/mail/mail-manifest.js])

    The functions of the API client that work with keys and passwords: generated
    addresses and their keys, the change of the password, the deletion of the
    account.  Random bytes and the clock are arguments; OpenPGP, WebCrypto and
    SHA-256 are the interfaces of the vault and of the key generation. *)
From Stdlib Require Import ZArith NArith Lia Ascii.
From S2P Require Import Prelude JsString JsValue Base64 Text Split HtmlText JsDate Http Signature KeyVault Keygen Srp Manifest.
Open Scope Z_scope.

(** [String(v || '').trim().toLowerCase()] *)
Definition canon (s : string) : string := to_lower (trim s).

(** ** Addresses *)

Definition parseAccountAddress (accountEmail : string) : res (string * string) :=
  let email := canon accountEmail in
  let at_ := match index_of email "@" with Some (S n) => Some (S n) | _ => None end in
  let localPart := match at_ with Some n => stake n email | None => "" end in
  let domain := match at_ with Some n => sdrop (n + 1) email | None => "" end in
  if (localPart =s? "") || (domain =s? "") then Throw "Invalid account email" else Ok (localPart, domain).

Definition resolveIdentityDomain (domain accountEmail : string) : res string :=
  let d := canon domain in
  if negb (d =s? "") then Ok d
  else match parseAccountAddress accountEmail with
       | Ok (_, ad) => if negb (ad =s? "") then Ok ad else Throw "Choose a mail domain"
       | Throw _ => Throw "Choose a mail domain"
       end.

Definition mailbox_char (c : ascii) : bool :=
  is_lower c || is_digit c || Ascii.eqb c "." || Ascii.eqb c "_" || Ascii.eqb c "-".

Definition validateMailboxLocalPartForIdentity (local : string) : res string :=
  let s := canon local in
  if (String.length s <? 3)%nat || (64 <? String.length s)%nat then Throw "Local part must be 3-64 characters"
  else if includes s ".." then Throw "Local part cannot contain consecutive dots"
  else if starts_with s "." || ends_with s "." then Throw "Local part cannot start or end with a dot"
  else if negb (negb (s =s? "") && all_chars mailbox_char s)
       then Throw "Use only letters, digits, dots, hyphens, and underscores in the local part"
  else Ok s.

Definition tag_char (c : ascii) : bool := is_lower c || is_digit c || Ascii.eqb c "_" || Ascii.eqb c "-".
Definition validatePlusTagFromName (name : string) : res string :=
  let tag := stake 30 (filter_chars tag_char (canon name)) in
  if tag =s? "" then Throw "Plus tag required (letters, digits, hyphens, underscores)" else Ok tag.

Record generated := Generated { g_email : string; g_expiresAt : string }.

(** [random]: 14 random bytes; [now]: [Date.now()]. *)
Definition buildGeneratedIdentityAddress (random : string) (now : Z) (type domain localPart name : string) : res generated :=
  let dom := canon domain in
  if dom =s? "" then Throw "Choose a domain"
  else if type =s? "alias" then
    local <~ validateMailboxLocalPartForIdentity localPart ;; Ok (Generated (local +:+ "@" +:+ dom) "")
  else if type =s? "plus" then
    base <~ validateMailboxLocalPartForIdentity localPart ;;
    tag <~ validatePlusTagFromName name ;;
    Ok (Generated (base +:+ "+" +:+ tag +:+ "@" +:+ dom) "")
  else
    let rand := randomAlphanumeric random in
    Ok (Generated ("d_" +:+ rand +:+ "@" +:+ dom) (toISOString (now + 30 * 86400000))).

(** Which scripts the page has loaded. *)
Record loaded := Loaded { ld_openpgp : bool; ld_keygen : bool; ld_srp : bool }.

Section Accounts.
Context `{WebCrypto} `{OpenPGP}.
Variable generateKey : string -> string -> res (string * string).    (* name, email: public, private armor *)
Variable pgp_encrypt : pubkey -> string -> res string.
Variable JSON_parse : string -> option jsval.
Variable digest : string -> string.
Variable origin : string.
Variable scripts : loaded.

(** [{ ...o, k: v }], [o] an object or nothing. *)
Definition spread (v : jsval) (own : list (string * jsval)) : jsval :=
  JObj (fold_left (fun fs p => set_field p.1 p.2 fs) own (match v with JObj fs => fs | _ => [] end)).

Definition createGeneratedIdentity (random : string) (now : Z) (accountEmail type name domainOpt localPart : string) : prog jsval :=
  if negb (ld_openpgp scripts) || negb (ld_keygen scripts) then Raise "OpenPGP / keygen not loaded - refresh the page"
  else
    meRes <- send (call origin GET "/api/v1/account-key/me") ;;
    if negb (rp_ok meRes) then Raise ("Could not load account key (" +:+ Z_to_string (rp_status meRes) +:+ ")")
    else
      me <- json meRes ;;
      bootstrapped <- lift (getp me "bootstrapped") ;;
      if negb (truthy bootstrapped) then Raise "Generate or unlock account keys first (unlock mail)"
      else
        domain <- lift (resolveIdentityDomain domainOpt accountEmail) ;;
        lp <- (if (type =s? "plus") && (trim localPart =s? "") then
                 match parseAccountAddress accountEmail with
                 | Ok (l, _) => Ret l
                 | Throw _ => Raise "Local part (before +) is required for plus addresses"
                 end
               else Ret localPart) ;;
        g <- lift (buildGeneratedIdentityAddress random now type domain lp name) ;;
        let email := g_email g in
        idKp <- lift (generateKey email email) ;;
        accountPublic <- lift (getp me "armored_public") ;;
        wrappedArmored <- lift (pgpWrapToAccount pgp_encrypt idKp.2 (js_String accountPublic)) ;;
        let wrappedB64 := bytesToB64 (utf8 wrappedArmored) in
        let payload :=
          [("email", JStr email); ("armored_public", JStr idKp.1); ("algorithm", JStr "openpgp-ecc-curve25519");
           ("primary_uid", JStr email); ("wrapped_secret_b64", JStr wrappedB64); ("is_default", JBool false)] ++
          (if g_expiresAt g =s? "" then [] else [("expires_at", JStr (g_expiresAt g))]) in
        result <- createIdentity origin (JObj payload) ;;
        Ret (spread result [("email", JStr email); ("expires_at", if g_expiresAt g =s? "" then JNull else JStr (g_expiresAt g))]).

(** ** The password exchange over requests ([static/auth/srp.js], [exchange]) *)

(** [b64ToBytes(o.k)]: the argument of [atob] is turned into a string. *)
Definition b64_field (o : jsval) (k : string) : res string :=
  v <~ getp o k ;; Base64.b64ToBytes (js_String v).

Definition exchange (random beginUrl finishUrl username password : string) (extraFinishPayload extraBeginPayload : list (string * jsval)) : prog jsval :=
  let state := Srp.begin random username password in
  beginRes <- send (call_json origin POST beginUrl
    (JObj (assign_over extraBeginPayload
      [("username", JStr username); ("client_public_b64", JStr (client_public_b64 state)); ("company", JStr "")]))) ;;
  let beginJSON := json_or_empty beginRes in
  if negb (rp_ok beginRes) then e <- lift (getp beginJSON "error") ;; Raise (js_String (js_or e (JStr "SRP begin failed")))
  else
    salt <- lift (b64_field beginJSON "salt_b64") ;;
    server_public <- lift (b64_field beginJSON "server_public_b64") ;;
    let proof := Srp.clientProof digest state salt server_public in
    session_id <- lift (getp beginJSON "session_id") ;;
    finishRes <- send (call_json origin POST finishUrl
      (JObj (assign_over extraFinishPayload
        [("session_id", session_id); ("client_proof_b64", JStr (bytesToB64 (pr_client proof))); ("company", JStr "")]))) ;;
    let finishJSON := json_or_empty finishRes in
    if negb (rp_ok finishRes) then e <- lift (getp finishJSON "error") ;; Raise (js_String (js_or e (JStr "SRP finish failed")))
    else
      let expected := bytesToB64 (pr_server proof) in
      server_proof <- lift (if expected =s? "" then Ok JUndef else getp finishJSON "server_proof_b64") ;;
      if truthy server_proof && negb (match server_proof with JStr s => s =s? expected | _ => false end)
      then Raise "SRP server proof mismatch"
      else Ret finishJSON.

(** [auth && auth.user && auth.user.username] *)
Definition auth_username (auth : jsval) : res jsval :=
  if negb (truthy auth) then Ok auth
  else u <~ getp auth "user" ;; if negb (truthy u) then Ok u else getp u "username".

(** The user name of the session; user names are strings. *)
Definition current_user : prog string :=
  authRes <- send (call origin GET "/api/auth/me") ;;
  if negb (rp_ok authRes) then Raise (with_status "auth me" authRes)
  else
    auth <- json authRes ;;
    username <- lift (auth_username auth) ;;
    if negb (truthy username) then Raise "missing auth username" else Ret (js_String username).

(** The account row as the rewrapping reads it. *)
Definition rewrap_row (me : jsval) : res rewrap_in :=
  b <~ getp me "bootstrapped" ;; kdf <~ getp me "kdf" ;; salt <~ getp me "kdf_salt_b64" ;;
  params <~ getp me "kdf_params_json" ;; wrapped <~ getp me "wrapped_secret_b64" ;;
  Ok (RewrapIn (truthy b) (js_String (js_or kdf (JStr ""))) (js_String salt) (js_String (js_or params (JStr ""))) (js_String wrapped)).

(** The random bytes the change of a password draws. *)
Record password_randoms := PasswordRandoms { rnd_kdf_salt : string; rnd_nonce : string; rnd_srp_salt : string; rnd_srp : string }.

Definition changePassword (rnd : password_randoms) (currentPassword newPassword : string) : prog jsval :=
  meRes <- send (call origin GET "/api/v1/account-key/me") ;;
  if negb (rp_ok meRes) then Raise (with_status "account key" meRes)
  else
    me <- json meRes ;;
    username <- current_user ;;
    if negb (ld_keygen scripts) then Raise "crypto not loaded"
    else if negb (ld_srp scripts) then Raise "SRP not loaded"
    else
      row <- lift (rewrap_row me) ;;
      ak <- lift (rewrapAccountForNewPassword JSON_parse (rnd_kdf_salt rnd) (rnd_nonce rnd) row currentPassword newPassword) ;;
      let srp := Srp.createRegistration digest (rnd_srp_salt rnd) username newPassword in
      exchange (rnd_srp rnd) "/api/auth/password/begin" "/api/auth/password/finish" username currentPassword
        [("new_srp_salt_b64", JStr (srp_salt_b64 srp));
         ("new_srp_verifier_b64", JStr (srp_verifier_b64 srp));
         ("new_srp_group", JStr (srp_group srp));
         ("new_srp_hash", JStr (srp_hash srp));
         ("account_key", JObj [("wrapped_secret_b64", JStr (ro_wrapped_secret_b64 ak));
                               ("kdf", JStr (ro_kdf ak));
                               ("kdf_salt_b64", JStr (ro_kdf_salt_b64 ak));
                               ("kdf_params_json", JStr (ro_kdf_params_json ak))])] [].

Definition runAccountDeleteAction (random password : string) (confirmation : jsval) (finishPath : string) : prog jsval :=
  username <- current_user ;;
  if negb (ld_srp scripts) then Raise "SRP not loaded"
  else exchange random "/api/auth/account-delete/begin" finishPath username password [("confirmation", confirmation)] [].

Definition deleteAccount (random password : string) (confirmation : jsval) : prog jsval :=
  runAccountDeleteAction random password confirmation "/api/auth/account-delete/now".
Definition scheduleAccountDeletion (random password : string) (confirmation : jsval) : prog jsval :=
  runAccountDeleteAction random password confirmation "/api/auth/account-delete/schedule".

(** ** Headers *)

Definition base64ToBytes (s : string) : res string := Base64.atob s.
Definition bytesToBase64 (b : string) : string := Base64.btoa b.

(** [vault.decryptForIdentity]; no vault is [None]. *)
Definition decryptHeader (vault : option (string -> string -> res string)) (headerCiphertextB64 identityFingerprint : string) : jsval :=
  match vault with
  | Some decryptForIdentity =>
      if headerCiphertextB64 =s? "" then JNull
      else match
        (cipher <~ base64ToBytes headerCiphertextB64 ;;
         text <~ decryptForIdentity identityFingerprint cipher ;;
         res_of_option "SyntaxError" (JSON_parse text))
      with Ok v => v | Throw _ => JNull end
  | None => JNull
  end.
End Accounts.

(** ** The rules of the server ([internal/httpserver/api_identities.go]) *)

Module Rules.
Definition lower_alnum (c : ascii) : bool := is_lower c || is_digit c.
(** [strings.LastIndex(email, "@")]: the parts around it. *)
Fixpoint last_at (s : string) : option (string * string) :=
  match s with
  | EmptyString => None
  | String c s' =>
      match last_at s' with
      | Some (a, b) => Some (String c a, b)
      | None => if Ascii.eqb c "@" then Some ("", s') else None
      end
  end.

(** The loop of [NormalizeAndValidateUsername]: a dot is neither first nor last. *)
Fixpoint username_chars (first : bool) (s : string) : bool :=
  match s with
  | EmptyString => true
  | String c s' =>
      (is_lower c || is_digit c || Ascii.eqb c "_" || Ascii.eqb c "-" ||
       (Ascii.eqb c "." && negb (first || (s' =s? "")))) && username_chars false s'
  end.
Definition NormalizeAndValidateUsername (raw : string) : option string :=
  let s := canon raw in
  if (s =s? "") || includes s "@" || (String.length s <? 3)%nat || (64 <? String.length s)%nat || includes s ".." then None
  else if username_chars true s then Some s else None.

Definition isDisposableGeneratedLocalPart (local : string) : bool :=
  negb (String.length local <? 10)%nat && starts_with local "d_" &&
  all_chars lower_alnum (sdrop 2 local) && (8 <=? String.length (sdrop 2 local))%nat.

Definition validatePlusTagLocal (tag : string) : bool :=
  let tag := canon tag in
  (1 <=? String.length tag)%nat && (String.length tag <=? 30)%nat && all_chars tag_char tag.

(** [allowed]: the platform's own domain and the verified ones of the user. *)
Definition validateIdentityMailboxEmailForUser (allowed : string -> bool) (email : string) (isDisposable : bool) : bool :=
  match last_at (canon email) with
  | None => false
  | Some (local, domain) =>
      if (local =s? "") || (domain =s? "") then false
      else if negb (allowed domain) then false
      else if isDisposable then isDisposableGeneratedLocalPart local
      else match split local "+" with
           | [_] => (if NormalizeAndValidateUsername local is Some _ then true else false) &&
                    negb (isDisposableGeneratedLocalPart local)
           | [before; after] => (if NormalizeAndValidateUsername before is Some _ then true else false) &&
                                validatePlusTagLocal after
           | _ => false
           end
  end.
End Rules.

(** ** Lemmas *)

Lemma runs_lift_ok {A B} (m : res A) (k : A -> prog B) tr v :
  runs (bind (lift m) k) tr (Ok v) -> exists a, m = Ok a /\ runs (k a) tr (Ok v).
Proof. destruct m; cbn; intros Hr; [eauto | inversion Hr]. Qed.
Lemma runs_send_ok {A} rq (k : response -> prog A) tr v :
  runs (bind (send rq) k) tr (Ok v) -> exists r tr', tr = (rq, Some r) :: tr' /\ runs (k r) tr' (Ok v).
Proof. intros [(r & tr' & -> & Hr)|(-> & ?)]%runs_send; [eauto | done]. Qed.
Lemma runs_json_ok {A} r (k : jsval -> prog A) tr v :
  runs (bind (json r) k) tr (Ok v) -> exists j, rp_json r = Some j /\ runs (k j) tr (Ok v).
Proof. unfold json. destruct (rp_json r); cbn; intros Hr; [eauto | inversion Hr]. Qed.
Lemma runs_raise_ok {A} m tr (v : A) : ~ runs (Raise m) tr (Ok v).
Proof. intros Hr. inversion Hr. Qed.
Lemma runs_bind_ok {A B} (p : prog A) (f : A -> prog B) tr v :
  runs (bind p f) tr (Ok v) -> exists tr1 tr2 a, tr = tr1 ++ tr2 /\ runs p tr1 (Ok a) /\ runs (f a) tr2 (Ok v).
Proof. intros [?|(? & ? & ?)]%runs_bind_inv; [done | done]. Qed.
Lemma runs_ret_ok {A} (a v : A) tr : runs (Ret a) tr (Ok v) -> tr = [] /\ v = a.
Proof. intros Hr. by inversion Hr; subst. Qed.

(** *** Texts that trimming and lower-casing leave alone *)

Definition settled (c : ascii) : bool := negb (is_ws c) && Ascii.eqb (lower_char c) c.
Lemma trim_settled s : all_chars settled s = true -> trim s = s.
Proof.
  intros H. assert (trim_start s = s) as E.
  { destruct s as [|c s]; [done|]. cbn in *. unfold settled in H. bool_to_prop. by destruct (is_ws c). }
  unfold trim. rewrite E. clear E. induction s as [|c s IH]; [done|]. cbn [all_chars trim_end] in *. bool_to_prop.
  rewrite IH by done. destruct s; [|done]. unfold settled in *. bool_to_prop. by destruct (is_ws c).
Qed.
Lemma lower_settled s : all_chars settled s = true -> to_lower s = s.
Proof.
  induction s as [|c s IH]; [done|]. cbn [all_chars to_lower]. unfold settled at 1. intros H. bool_to_prop.
  rewrite IH by done. f_equal. by apply Ascii.eqb_eq.
Qed.
Lemma canon_settled s : all_chars settled s = true -> canon s = s.
Proof. intros H. unfold canon. by rewrite trim_settled, lower_settled. Qed.
Lemma mailbox_settled c : mailbox_char c = true -> settled c = true.
Proof. revert c. by_char. Qed.
Lemma tag_settled c : tag_char c = true -> settled c = true.
Proof. revert c. by_char. Qed.

Lemma includes_char c s : no_char c s = true -> includes s (String c "") = false.
Proof.
  intros H. destruct (includes s (String c "")) eqn:E; [|done]. apply includes_spec in E as (a & b & ->).
  unfold no_char in H. rewrite !all_chars_app in H. cbn [all_chars] in H. rewrite Ascii.eqb_refl in H. bool_to_prop. done.
Qed.
Lemma no_char_of (p : ascii -> bool) c s : p c = false -> all_chars p s = true -> no_char c s = true.
Proof. intros Hc. apply all_chars_mono. intros d Hd. apply negb_true_iff, Ascii.eqb_neq. intros <-. congruence. Qed.

Lemma split_at_char c a rest : no_char c a = true -> split (a +:+ String c rest) (String c "") = a :: split rest (String c "").
Proof. intros H. apply (split_clear (String c "") a rest); [done|]. by apply no_char_prefix. Qed.
Lemma split_whole c a : no_char c a = true -> split a (String c "") = [a].
Proof. intros H. apply split_clear_end. by apply no_char_prefix. Qed.

(** *** The checks of the client imply those of the server *)

Lemma last_at_none s : no_char "@" s = true -> Rules.last_at s = None.
Proof.
  induction s as [|c s IH]; [done|]. unfold no_char in *. cbn [all_chars Rules.last_at]. intros H. bool_to_prop.
  rewrite IH by done. by rewrite Ascii.eqb_sym, H.
Qed.
Lemma last_at_app a b : no_char "@" b = true -> Rules.last_at (a +:+ String "@" b) = Some (a, b).
Proof. intros H. induction a as [|c a IH]; cbn [String.append Rules.last_at]; [by rewrite last_at_none|]. by rewrite IH. Qed.

Lemma username_loop first s :
  all_chars mailbox_char s = true -> ends_with s "." = false -> (first = true -> starts_with s "." = false) ->
  Rules.username_chars first s = true.
Proof.
  revert first. induction s as [|c s IH]; intros first Hc He Hf; [done|]. cbn [all_chars Rules.username_chars] in *.
  apply andb_true_iff in Hc as [Hc Hs]. cbn [ends_with] in He. apply orb_false_iff in He as [Hx He].
  rewrite IH; [rewrite andb_true_r|done|done|done].
  destruct (Ascii.eqb c ".") eqn:Ed; [|unfold mailbox_char in Hc; rewrite Ed in Hc; cbn; by rewrite orb_false_r in *].
  apply Ascii.eqb_eq in Ed as ->. assert (first = false) as ->.
  { destruct first; [|done]. specialize (Hf eq_refl).
    assert (starts_with (String "." s) "." = true) by (apply starts_with_spec; by exists s). congruence. }
  destruct (s =s? "") eqn:Es; [|done]. bool_to_prop. by subst.
Qed.

Lemma validated_local local s :
  validateMailboxLocalPartForIdentity local = Ok s ->
  s = canon local /\ all_chars mailbox_char s = true /\ Rules.NormalizeAndValidateUsername s = Some s.
Proof.
  unfold validateMailboxLocalPartForIdentity. set (t := canon local).
  destruct (_ || _) eqn:E1; [done|]. destruct (includes t "..") eqn:E2; [done|]. destruct (starts_with t "." || _) eqn:E3; [done|].
  destruct (negb (negb (t =s? "") && _)) eqn:E4; [done|]. intros [= <-]. bool_to_prop. do 2 (split; [done|]).
  assert (canon t = t) as Ht by (apply canon_settled; eapply all_chars_mono; [apply mailbox_settled|done]).
  unfold Rules.NormalizeAndValidateUsername. rewrite Ht.
  rewrite (proj2 (String.eqb_neq t "")) by done. rewrite includes_char by (by apply (no_char_of mailbox_char)).
  rewrite (proj2 (Nat.ltb_ge _ _)) by done. rewrite (proj2 (Nat.ltb_ge _ _)) by done. rewrite E2. cbn [orb].
  by rewrite username_loop.
Qed.

Lemma validated_tag name tag :
  validatePlusTagFromName name = Ok tag -> all_chars tag_char tag = true /\ Rules.validatePlusTagLocal tag = true.
Proof.
  unfold validatePlusTagFromName. pose proof (filter_chars_all tag_char (canon name)) as Hu.
  pose proof (all_chars_stake tag_char 30 _ Hu) as Hc. pose proof (slength_stake 30 (filter_chars tag_char (canon name))) as Hl.
  revert Hc Hl. generalize (stake 30 (filter_chars tag_char (canon name))) as v. intros v Hc Hl.
  destruct (v =s? "") eqn:E; [done|]. intros [= <-]. bool_to_prop. split; [done|]. unfold Rules.validatePlusTagLocal. cbv zeta.
  rewrite canon_settled by (eapply all_chars_mono; [apply tag_settled|done]).
  rewrite Hc, andb_true_r, andb_true_iff, !Nat.leb_le. split; [|lia]. destruct v; [done|]. cbn. lia.
Qed.

Lemma random_char n : Rules.lower_alnum (default "0"%char (String.get n alphanumerics)) = true.
Proof. do 36 (destruct n as [|n]; [reflexivity|]). by destruct n. Qed.
Lemma random_chars bytes : all_chars Rules.lower_alnum (randomAlphanumeric bytes) = true.
Proof.
  unfold randomAlphanumeric. induction bytes as [|c s IH]; [done|]. cbn [map_chars all_chars]. by rewrite random_char, IH.
Qed.
Lemma random_disposable bytes : String.length bytes = 14%nat -> Rules.isDisposableGeneratedLocalPart ("d_" +:+ randomAlphanumeric bytes) = true.
Proof.
  intros Hl. unfold Rules.isDisposableGeneratedLocalPart. change (sdrop 2 ("d_" +:+ randomAlphanumeric bytes)) with (randomAlphanumeric bytes).
  pose proof (random_chars bytes) as Hc. pose proof (randomAlphanumeric_length bytes) as Hr.
  rewrite (proj2 (starts_with_spec _ _)) by eauto. rewrite slength_app, Hr, Hl. cbn [andb negb]. by rewrite Hc.
Qed.

(** The domains the server can allow: no at sign, already canonical. *)
Definition plain_domain (d : string) : bool := all_chars settled d && no_char "@" d.

Lemma address_checked allowed local dom expires :
  plain_domain dom = true -> dom <> "" -> local <> "" -> all_chars settled local = true -> allowed dom = true ->
  Rules.validateIdentityMailboxEmailForUser allowed (local +:+ String "@" dom) expires =
  (if expires then Rules.isDisposableGeneratedLocalPart local
   else match split local "+" with
        | [_] => (if Rules.NormalizeAndValidateUsername local is Some _ then true else false) &&
                 negb (Rules.isDisposableGeneratedLocalPart local)
        | [before; after] => (if Rules.NormalizeAndValidateUsername before is Some _ then true else false) &&
                             Rules.validatePlusTagLocal after
        | _ => false
        end).
Proof.
  unfold plain_domain. intros Hd H1 H2 Hl Ha. bool_to_prop. unfold Rules.validateIdentityMailboxEmailForUser.
  rewrite canon_settled by (rewrite all_chars_app, Hl; cbn [all_chars]; done).
  rewrite last_at_app by done.
  rewrite (proj2 (String.eqb_neq _ _) H1), (proj2 (String.eqb_neq _ _) H2), Ha. done.
Qed.

(** An address the client builds passes the rules of the server, save for an alias
    that looks like a disposable address. *)
Lemma built_address_checked allowed random now type domain localPart name g :
  String.length random = 14%nat -> plain_domain (canon domain) = true -> allowed (canon domain) = true ->
  buildGeneratedIdentityAddress random now type domain localPart name = Ok g ->
  Rules.validateIdentityMailboxEmailForUser allowed (g_email g) (negb (g_expiresAt g =s? "")) =
    negb ((type =s? "alias") && Rules.isDisposableGeneratedLocalPart (canon localPart)).
Proof.
  intros Hr Hd Ha. unfold buildGeneratedIdentityAddress. set (dom := canon domain) in *.
  destruct (dom =s? "") eqn:Ed; [done|]. bool_to_prop. destruct (type =s? "alias") eqn:Et; [|destruct (type =s? "plus")].
  - intros (s & Hv & [= <-])%res_bind_ok. cbn [g_email g_expiresAt]. pose proof (validated_local _ _ Hv) as (-> & Hc & Hn).
    rewrite address_checked; try done; [|by intros E; rewrite E in Hn|eapply all_chars_mono; [apply mailbox_settled|done]].
    cbn [negb]. rewrite split_whole by (by apply (no_char_of mailbox_char)). by rewrite Hn.
  - intros (s & Hv & Hg)%res_bind_ok. apply res_bind_ok in Hg as (tag & Ht & [= <-]). cbn [g_email g_expiresAt].
    pose proof (validated_local _ _ Hv) as (_ & Hc & Hn). pose proof (validated_tag _ _ Ht) as [Hct Hnt].
    change (s +:+ "+" +:+ tag +:+ "@" +:+ dom) with (s +:+ String "+" (tag +:+ String "@" dom)).
    replace (s +:+ String "+" (tag +:+ String "@" dom)) with ((s +:+ String "+" tag) +:+ String "@" dom) by (by rewrite sapp_assoc).
    rewrite address_checked; try done.
    + cbn [negb]. rewrite split_at_char, split_whole by (by eapply no_char_of; [|done]). by rewrite Hn, Hnt.
    + by destruct s.
    + rewrite all_chars_app, (all_chars_mono _ _ _ mailbox_settled Hc). cbn [all_chars].
      by rewrite (all_chars_mono _ _ _ tag_settled Hct).
  - intros [= <-]. cbn [g_email g_expiresAt andb negb].
    rewrite (proj2 (String.eqb_neq _ _) (toISOString_nonempty _)).
    change (String "d" (String "_" (randomAlphanumeric random +:+ String "@" dom)))
      with (("d_" +:+ randomAlphanumeric random) +:+ String "@" dom).
    rewrite address_checked; try done; [by apply random_disposable|].
    rewrite all_chars_app, (all_chars_mono Rules.lower_alnum settled _ ltac:(by_char) (random_chars random)). done.
Qed.

(** Follow a successful run through the next operation of the program. *)
Ltac run_step H :=
  cbv zeta in H;
  lazymatch type of H with
  | runs (bind (lift _) _) _ _ => apply runs_lift_ok in H as (? & ? & H)
  | runs (bind (send _) _) _ _ => apply runs_send_ok in H as (? & ? & -> & H)
  | runs (bind (json _) _) _ _ => apply runs_json_ok in H as (? & ? & H)
  | runs (bind _ _) _ _ => apply runs_bind_ok in H as (? & ? & ? & -> & ? & H)
  | runs (Raise _) _ _ => by apply runs_raise_ok in H
  | runs (Ret _) _ _ => apply runs_ret_ok in H as [-> ->]
  | runs (if ?b then _ else _) _ _ => destruct b eqn:?; cbn [negb] in H
  end.
Ltac run_steps H := repeat (run_step H; try (by apply runs_raise_ok in H)).

Section Facts.
Context `{WebCrypto} `{OpenPGP}.
Variable generateKey : string -> string -> res (string * string).
Variable pgp_encrypt : pubkey -> string -> res string.
Variable JSON_parse : string -> option jsval.
Variable digest : string -> string.
Variable origin : string.
Variable scripts : loaded.

(** The local part a plus address gets when none is given. *)
Lemma default_local_part type localPart account tr lp :
  runs (if (type =s? "plus") && (trim localPart =s? "") then
          match parseAccountAddress account with
          | Ok (l, _) => Ret l
          | Throw _ => Raise "Local part (before +) is required for plus addresses"
          end
        else Ret localPart) tr (Ok lp) ->
  tr = [] /\ ((type =s? "plus") = false -> lp = localPart).
Proof.
  destruct (type =s? "plus"); cbn [andb].
  - destruct (trim localPart =s? ""); [destruct (parseAccountAddress account) as [[l d]|m]|]; intros Hr;
      (by apply runs_raise_ok in Hr) || (by apply runs_ret_ok in Hr as [-> ->]).
  - intros [-> ->]%runs_ret_ok. done.
Qed.

Lemma current_user_ok tr user : runs (current_user origin) tr (Ok user) -> exists r, tr = [(call origin GET "/api/auth/me", Some r)].
Proof. unfold current_user. intros Hr. run_steps Hr. eauto. Qed.

(** A finished exchange: what the second request carries. *)
Lemma exchange_ok random beginUrl finishUrl user pass extra extra0 tr v :
  runs (exchange digest origin random beginUrl finishUrl user pass extra extra0) tr (Ok v) ->
  exists rq1 r1 r2 own, tr = [(rq1, Some r1); (call_json origin POST finishUrl (JObj (assign_over extra own)), Some r2)] /\
    rq1 = call_json origin POST beginUrl (JObj (assign_over extra0 [("username", JStr user);
            ("client_public_b64", JStr (client_public_b64 (Srp.begin random user pass))); ("company", JStr "")])) /\
    rp_ok r1 = true /\ rp_ok r2 = true /\ map fst own = ["session_id"; "client_proof_b64"; "company"].
Proof.
  unfold exchange. intros Hr. run_steps Hr.
  match goal with E : negb (rp_ok ?r) = false, E' : negb (rp_ok ?r') = false |- context [(_, Some ?r) :: (call_json _ _ _ (JObj (assign_over _ ?own)), _) :: _] =>
    eexists _, r, r', own end.
  split_and!; try reflexivity; by apply negb_false_iff.
Qed.

(** ** Properties *)

(** A stored account row and a password that opens it. *)
Definition row_opens (kdf salt_b64 wrapped_b64 : string) (params : jsval) (pw secret : string) : Prop :=
  exists salt key wrapped, Base64.b64ToBytes salt_b64 = Ok salt /\ deriveKEK pw salt (JStr kdf) params = Ok key /\
    Base64.b64ToBytes wrapped_b64 = Ok wrapped /\ aesUnwrap (d_key key) wrapped = Ok secret.

(** C34: a password change that succeeds sends two reads and the two steps of the
    exchange, in this order, and what it asks the server to store belongs together:
    the new row of the account key opens with the new password to the secret the old
    row held under the current one, and the verifier is the one of the new password. *)
Theorem password_change_keeps_the_key rnd current new tr v :
  String.length (rnd_nonce rnd) = 12%nat ->
  runs (changePassword JSON_parse digest origin scripts rnd current new) tr (Ok v) ->
  exists user me row secret params ak own r0 r1 r2 rq r3,
    let reg := Srp.createRegistration digest (rnd_srp_salt rnd) user new in
    let body := [("new_srp_salt_b64", JStr (srp_salt_b64 reg)); ("new_srp_verifier_b64", JStr (srp_verifier_b64 reg));
                 ("new_srp_group", JStr (srp_group reg)); ("new_srp_hash", JStr (srp_hash reg));
                 ("account_key", JObj [("wrapped_secret_b64", JStr (ro_wrapped_secret_b64 ak)); ("kdf", JStr (ro_kdf ak));
                    ("kdf_salt_b64", JStr (ro_kdf_salt_b64 ak)); ("kdf_params_json", JStr (ro_kdf_params_json ak))])] in
    tr = [(call origin GET "/api/v1/account-key/me", Some r0); (call origin GET "/api/auth/me", Some r1); (rq, Some r2);
          (call_json origin POST "/api/auth/password/finish" (JObj (body ++ own)), Some r3)] /\
    rq_url rq = resolve origin "/api/auth/password/begin" "" /\
    rp_json r0 = Some me /\ rewrap_row me = Ok row /\
    row_opens (rw_kdf row) (rw_kdf_salt_b64 row) (rw_wrapped_secret_b64 row)
      (default (JObj []) (JSON_parse (str_or (rw_kdf_params_json row) "{}"))) current secret /\
    ro_kdf_params_json ak = stringify params /\
    row_opens (ro_kdf ak) (ro_kdf_salt_b64 ak) (ro_wrapped_secret_b64 ak) params new secret /\
    (exists bytes, Base64.b64ToBytes (srp_verifier_b64 reg) = Ok bytes /\
       Server.setBytes bytes = Server.verifier digest user new (rnd_srp_salt rnd)).
Proof.
  intros Hn Hr. unfold changePassword in Hr. run_steps Hr.
  apply exchange_ok in Hr as (rq1 & r1 & r2 & own & -> & -> & _ & _ & Hown).
  match goal with E : runs (current_user origin) _ _ |- _ => apply current_user_ok in E as [ra ->] end.
  match goal with E : rewrapAccountForNewPassword _ _ _ _ _ _ = Ok _ |- _ =>
    destruct (rewrap_opens JSON_parse _ _ _ _ _ _ Hn E)
      as (Hk & secret & oldSalt & oldKey & oldWrapped & params & newKey & newWrapped & O1 & O2 & O3 & O4 & P & N1 & N2 & N3 & N4) end.
  do 3 eexists. exists secret, params. eexists _, own. do 5 eexists. cbv zeta.
  split; [unfold assign_over; rewrite Hown; reflexivity|]. split; [reflexivity|]. split; [eassumption|]. split; [eassumption|].
  split; [|split; [exact P | split; [|apply registration_verifier]]].
  - by exists oldSalt, oldKey, oldWrapped.
  - by exists (rnd_kdf_salt rnd), newKey, newWrapped.
Qed.

(** a generated identity that is accepted was asked for in the right words: after
    reading the account row the client sends one request, whose address the server's
    own rules allow, provided the domain is one the server allows and an alias does not
    look like a disposable address.  It carries the public key made for that address,
    and the private key only as encrypted to the account key of the row. *)
Theorem generated_identity_is_acceptable allowed random now account type name domain localPart tr v :
  String.length random = 14%nat ->
  (forall d, resolveIdentityDomain domain account = Ok d -> plain_domain d = true /\ allowed d = true) ->
  (type = "alias" -> Rules.isDisposableGeneratedLocalPart (canon localPart) = false) ->
  runs (createGeneratedIdentity generateKey pgp_encrypt origin scripts random now account type name domain localPart) tr (Ok v) ->
  exists r0 r1 me g pub priv accountPublic wrapped,
    tr = [(call origin GET "/api/v1/account-key/me", Some r0);
          (call_json origin POST "/api/v1/identities" (JObj
            ([("email", JStr (g_email g)); ("armored_public", JStr pub); ("algorithm", JStr "openpgp-ecc-curve25519");
              ("primary_uid", JStr (g_email g)); ("wrapped_secret_b64", JStr (bytesToB64 (utf8 wrapped)));
              ("is_default", JBool false)] ++
             (if g_expiresAt g =s? "" then [] else [("expires_at", JStr (g_expiresAt g))]))), Some r1)] /\
    rp_json r0 = Some me /\ getp me "armored_public" = Ok accountPublic /\
    generateKey (g_email g) (g_email g) = Ok (pub, priv) /\
    pgpWrapToAccount pgp_encrypt priv (js_String accountPublic) = Ok wrapped /\
    Rules.validateIdentityMailboxEmailForUser allowed (g_email g) (negb (g_expiresAt g =s? "")) = true.
Proof.
  intros Hn Hdom Halias Hr. unfold createGeneratedIdentity, createIdentity in Hr. run_steps Hr.
  match goal with E : runs (if _ then (match _ with _ => _ end) else _) _ _ |- _ =>
    apply default_local_part in E as [-> Hlp] end.
  match goal with E : runs (bind (send _) _) _ _ |- _ =>
    apply runs_send_ok in E as (r1 & ? & -> & E); apply concludes_expect_or_error in E as [-> _] end.
  match goal with E : resolveIdentityDomain _ _ = Ok ?d |- _ => destruct (Hdom d E) as [Hd Ha] end.
  match goal with K : generateKey _ _ = Ok ?kp |- _ => destruct kp as [pub priv] end.
  match goal with E : buildGeneratedIdentityAddress _ _ _ ?d _ _ = Ok ?g |- _ =>
    assert (canon d = d) as Hcd by (apply canon_settled; unfold plain_domain in Hd; by bool_to_prop);
    rewrite <- Hcd in Hd, Ha; pose proof (built_address_checked allowed _ _ _ _ _ _ _ Hn Hd Ha E) as Hg;
    do 3 eexists; (exists g, pub, priv); do 2 eexists end.
  split; [reflexivity|]. do 4 (split; [eassumption|]). rewrite Hg. apply negb_true_iff, andb_false_iff.
  destruct (type =s? "alias") eqn:Et; [right | by left]. bool_to_prop. rewrite Hlp by (by rewrite Et). auto.
Qed.
End Facts.

(** ** Witnesses

    A server that knows one account. *)
Definition toy_origin : string := "https://mail.example".
Definition toy_me : jsval :=
  JObj [("bootstrapped", JBool true); ("kdf", JStr (ac_kdf toy_row.1)); ("kdf_salt_b64", JStr (ac_kdf_salt_b64 toy_row.1));
        ("kdf_params_json", JStr "params"); ("wrapped_secret_b64", JStr (ac_wrapped_secret_b64 toy_row.1));
        ("armored_public", JStr "AB")].
Definition toy_answer (url : string) : jsval :=
  if url =s? toy_origin +:+ "/api/v1/account-key/me" then toy_me
  else if url =s? toy_origin +:+ "/api/auth/me" then JObj [("user", JObj [("username", JStr "u")])]
  else if url =s? toy_origin +:+ "/api/auth/password/begin" then
    JObj [("salt_b64", JStr (btoa "s")); ("server_public_b64", JStr (btoa "p")); ("session_id", JStr "sid")]
  else JObj [].
Definition toy_server (_ : unit) (rq : request) : unit * option response :=
  (tt, Some (Response 200 (Some (toy_answer (rq_url rq))) "")).
Definition toy_randoms : password_randoms := PasswordRandoms "fedcba9876543210" "nonce-nonce-" "salt-salt-salt-s" "r".

Lemma password_change_keeps_the_key_witness : exists tr v,
  runs (changePassword toy_parse toy_digest toy_origin (Loaded true true true) toy_randoms "pw" "new") tr (Ok v) /\ length tr = 4%nat.
Proof.
  destruct (run_runs toy_server (changePassword toy_parse toy_digest toy_origin (Loaded true true true) toy_randoms "pw" "new") tt) as [tr Hr].
  assert ((run toy_server tt (changePassword toy_parse toy_digest toy_origin (Loaded true true true) toy_randoms "pw" "new")).2 = Ok (JObj [])) as E
    by (vm_compute; reflexivity).
  rewrite E in Hr. exists tr, (JObj []). split; [exact Hr|].
  pose proof (password_change_keeps_the_key toy_parse toy_digest toy_origin (Loaded true true true) toy_randoms "pw" "new"
    tr (JObj []) eq_refl Hr) as T.
  destruct T as (? & ? & ? & ? & ? & ? & ? & ? & ? & ? & ? & ? & T). cbv zeta in T. destruct T as [T _]. rewrite T. reflexivity.
Defined.

Lemma generated_identity_is_acceptable_witness : exists g,
  Rules.validateIdentityMailboxEmailForUser (fun d => d =s? "mail.example") (g_email g) (negb (g_expiresAt g =s? "")) = true.
Proof.
  pose (p := createGeneratedIdentity (H0 := VaultProps.toy_pgp) toy_generate (fun k t => Ok t) toy_origin (Loaded true true true)
               "0123456789abcd" 0 "u@mail.example" "disposable" "" "" "").
  destruct (run_runs toy_server p tt) as [tr Hr].
  pose (v := match (run toy_server tt p).2 with Ok v => v | Throw _ => JNull end).
  assert ((run toy_server tt p).2 = Ok v) as E by (vm_compute; reflexivity). rewrite E in Hr.
  destruct (generated_identity_is_acceptable (H0 := VaultProps.toy_pgp) toy_generate (fun k t => Ok t) toy_origin (Loaded true true true)
    (fun d => d =s? "mail.example") "0123456789abcd" 0 "u@mail.example" "disposable" "" "" "" tr v eq_refl)
    as (r0 & r1 & me & g & pub & priv & ap & w & Htr & _ & _ & _ & _ & Hg); [| |exact Hr|].
  - intros d Hd. vm_compute in Hd. injection Hd as <-. split; reflexivity.
  - discriminate.
  - exists g. exact Hg.
Defined.
