(* ===== verification/ComposeWindow.v ===== *)
(** * The compose window ([static/mail/compose.jsx], [ElvishMailCompose])

    What is typed, the key of the recipient that is looked up while it is typed, and what the
    button sends. A lookup is split where it waits, so that others can begin and end in
    between; sending is a program over requests. The timings that [ElvishPerf] takes of a
    send are left out. *)
From Stdlib Require Import ZArith Lia Ascii.
From stdpp Require Import strings list relations.
From S2P Require Import Prelude JsString JsValue Json Split Base64 Patterns HtmlText RichText Addresses Keygen KeyVault FilterEngine Compose ProtectedLink Http Handlers Manifest.
Local Open Scope nat_scope.

(** ** The state *)

Inductive send_mode := PgpMode | LinkMode.
Inductive key_status := Idle | NeedsSingle | Checking | Missing | Found | Failed | Manual.

(** [recipientMeta] *)
Record meta := Meta { m_source : jsval; m_fingerprint : jsval; m_email : string; m_armoredPublic : string }.

Record draft := Draft { from : string; to : string; cc : string; bcc : string; showCc : bool; inReplyTo : string; references : string; subject : string; body : string }.
Record key_panel := KeyPanel {
  recipientArmored : string;
  recipientMeta : option meta;
  keyError : string;
  lookupBusy : bool;
  keyStatus : key_status;
  manualKeyOverride : bool;
  manualKeyEmail : string;
  uploadedKeyName : string;
}.
Record link_panel := LinkPanel { pwd : string; pwdConfirm : string; ttlSeconds : Z; maxViews : Z; notify : bool; linkResult : option jsval }.
(** [seq]: [lookupSeqRef.current]. The toast belongs to the page. *)
Record window := Window {
  opened : bool;
  mode : send_mode;
  text : draft;
  key : key_panel;
  link : link_panel;
  saveToAddressBook : bool;
  attachPublicKey : bool;
  expanded : bool;
  editorKey : nat;
  busy : bool;
  err : string;
  seq : nat;
  toast : option string;
}.

Definition empty_draft (sender : string) : draft := Draft sender "" "" "" false "" "" "" "".
Definition no_key : key_panel := KeyPanel "" None "" false Idle false "" "".
(** [useState] *)
Definition mounted (defaultFrom : string) : window :=
  Window false PgpMode (empty_draft defaultFrom) no_key (LinkPanel "" "" (7 * 24 * 60 * 60)%Z 0 true None) true false false 0 false "" 0 None.

Definition set_mode (m : send_mode) (s : window) : window :=
  Window (opened s) m (text s) (key s) (link s) (saveToAddressBook s) (attachPublicKey s) (expanded s) (editorKey s) (busy s) (err s) (seq s) (toast s).
Definition set_text (d : draft) (s : window) : window :=
  Window (opened s) (mode s) d (key s) (link s) (saveToAddressBook s) (attachPublicKey s) (expanded s) (editorKey s) (busy s) (err s) (seq s) (toast s).
Definition set_key (k : key_panel) (s : window) : window :=
  Window (opened s) (mode s) (text s) k (link s) (saveToAddressBook s) (attachPublicKey s) (expanded s) (editorKey s) (busy s) (err s) (seq s) (toast s).
Definition set_link (l : link_panel) (s : window) : window :=
  Window (opened s) (mode s) (text s) (key s) l (saveToAddressBook s) (attachPublicKey s) (expanded s) (editorKey s) (busy s) (err s) (seq s) (toast s).
Definition set_options (save attach wide : bool) (s : window) : window :=
  Window (opened s) (mode s) (text s) (key s) (link s) save attach wide (editorKey s) (busy s) (err s) (seq s) (toast s).
Definition set_busy (b : bool) (s : window) : window :=
  Window (opened s) (mode s) (text s) (key s) (link s) (saveToAddressBook s) (attachPublicKey s) (expanded s) (editorKey s) b (err s) (seq s) (toast s).
Definition set_err (m : string) (s : window) : window :=
  Window (opened s) (mode s) (text s) (key s) (link s) (saveToAddressBook s) (attachPublicKey s) (expanded s) (editorKey s) (busy s) m (seq s) (toast s).
Definition set_seq (n : nat) (s : window) : window :=
  Window (opened s) (mode s) (text s) (key s) (link s) (saveToAddressBook s) (attachPublicKey s) (expanded s) (editorKey s) (busy s) (err s) n (toast s).
Definition onToast (m : string) (s : window) : window :=
  Window (opened s) (mode s) (text s) (key s) (link s) (saveToAddressBook s) (attachPublicKey s) (expanded s) (editorKey s) (busy s) (err s) (seq s) (Some m).
(** The page closes and opens the window: [onClose], [setComposeOpen]. *)
Definition set_open (b : bool) (s : window) : window :=
  Window b (mode s) (text s) (key s) (link s) (saveToAddressBook s) (attachPublicKey s) (expanded s) (editorKey s) (busy s) (err s) (seq s) (toast s).

Definition set_keyError (m : string) (k : key_panel) : key_panel :=
  KeyPanel (recipientArmored k) (recipientMeta k) m (lookupBusy k) (keyStatus k) (manualKeyOverride k) (manualKeyEmail k) (uploadedKeyName k).
Definition set_lookupBusy (b : bool) (k : key_panel) : key_panel :=
  KeyPanel (recipientArmored k) (recipientMeta k) (keyError k) b (keyStatus k) (manualKeyOverride k) (manualKeyEmail k) (uploadedKeyName k).
Definition set_keyStatus (st : key_status) (k : key_panel) : key_panel :=
  KeyPanel (recipientArmored k) (recipientMeta k) (keyError k) (lookupBusy k) st (manualKeyOverride k) (manualKeyEmail k) (uploadedKeyName k).
Definition set_recipient (armored : string) (m : option meta) (k : key_panel) : key_panel :=
  KeyPanel armored m (keyError k) (lookupBusy k) (keyStatus k) (manualKeyOverride k) (manualKeyEmail k) (uploadedKeyName k).
Definition set_manual (b : bool) (email name : string) (k : key_panel) : key_panel :=
  KeyPanel (recipientArmored k) (recipientMeta k) (keyError k) (lookupBusy k) (keyStatus k) b email name.
Definition on_key (f : key_panel -> key_panel) (s : window) : window := set_key (f (key s)) s.

(** ** Opening and closing *)

(** [d.k != null ? String(d.k) : ""] *)
Definition draft_field (d : jsval) (k : string) : string := match prop d k with JUndef | JNull => "" | v => js_String v end.
Definition draft_of (sender : string) (initialDraft : jsval) : draft :=
  match initialDraft with
  | JObj _ | JArr _ =>
      let f := draft_field initialDraft in
      Draft sender (f "to") (f "cc") (f "bcc") (truthy (prop initialDraft "showCc")) (f "inReplyTo") (f "references") (f "subject") (f "bodyHtml")
  | _ => empty_draft sender
  end.
(** The effect on [open], [initialDraft] and [defaultFrom]. *)
Definition open_effect (initialDraft : jsval) (defaultFrom : string) (s : window) : window :=
  if opened s then
    Window true (mode s) (draft_of (str_or defaultFrom (from (text s))) initialDraft) (key s) (link s) (saveToAddressBook s) (attachPublicKey s) (expanded s)
      (S (editorKey s)) (busy s) (err s) (seq s) (toast s)
  else
    Window false PgpMode (empty_draft (from (text s))) no_key
      (LinkPanel "" "" (ttlSeconds (link s)) (maxViews (link s)) (notify (link s)) None) (saveToAddressBook s) false false (editorKey s) (busy s) ""
      (seq s) (toast s).

(** ** Looking for the key of the recipient *)

(** [l_preserve], [l_force]: as the lookup was begun; [l_contact]: what the address book had
    answered, once it has. *)
Record lookup := Lookup { l_seq : nat; l_target : string; l_preserve : bool; l_force : bool; l_contact : option jsval }.
Inductive progress := Done (m : option meta) | Ask (l : lookup).

Definition error_text (m : string) : string := str_or m "Error".

Definition when (b : bool) (f : key_panel -> key_panel) (k : key_panel) : key_panel := if b then f k else k.
(** [detectRecipientKey] until its first request. [s0]: the window its function was made in. *)
Definition begin_lookup (force : bool) (s0 s : window) : window * option lookup :=
  match toRecipientsForPGP (to (text s0)) with
  | [] => (on_key (fun k => when force (set_keyError "enter a recipient first") (set_keyStatus Idle k)) s, None)
  | [target] =>
      let preserve := manualKeyOverride (key s0) && (manualKeyEmail (key s0) =s? target) && negb (recipientArmored (key s0) =s? "") in
      let s := set_seq (S (seq s)) s in
      (on_key (fun k => set_keyStatus Checking (when force (set_keyError "") (set_lookupBusy true k))) s, Some (Lookup (seq s) target preserve force None))
  | _ =>
      (on_key (fun k => when force (set_keyError "PGP direct encrypts to one To address (Cc/Bcc are copied on headers only)") (set_keyStatus NeedsSingle k)) s, None)
  end.
Definition current (l : lookup) (s : window) : bool := l_seq l =? seq s.
(** [hit && hit.armored_public ? hit : null]; the server sends strings. *)
Definition hit_of (hit : jsval) : option string := if truthy (prop hit "armored_public") then Some (js_String (prop hit "armored_public")) else None.

(** The ends of a lookup that is still the last one begun. *)
Definition lookup_found (l : lookup) (hit : jsval) (armored : string) (s : window) : window * option meta :=
  let contactHit := match l_contact l with Some c => truthy c | None => false end in
  let m := Meta (js_or (prop hit "source") (JStr (if contactHit then "address-book" else "?"))) (prop hit "fingerprint") (l_target l) armored in
  (on_key (fun k => set_lookupBusy false (when (negb (l_preserve l)) (fun k => set_manual false "" "" (set_recipient armored (Some m) k)) (set_keyStatus Found k))) s, Some m).
Definition lookup_missing (l : lookup) (s : window) : window :=
  on_key (fun k => set_lookupBusy false (when (l_force l) (set_keyError ("no key found for " +:+ l_target l))
                                          (when (negb (l_preserve l)) (set_recipient "" None) (set_keyStatus Missing k)))) s.
Definition lookup_failed (l : lookup) (m : string) (s : window) : window :=
  on_key (fun k => set_lookupBusy false (when (l_force l) (set_keyError (error_text m))
                                          (when (negb (l_preserve l)) (fun k => set_recipient (recipientArmored k) None k) (set_keyStatus Failed k)))) s.

(** The answers of the address book and of the directory. *)
Definition contact_answered (l : lookup) (r : res jsval) (s : window) : window * progress :=
  if negb (current l s) then (s, Done None)
  else
    match r with
    | Throw m => (lookup_failed l m s, Done None)
    | Ok contactHit =>
        let l := Lookup (l_seq l) (l_target l) (l_preserve l) (l_force l) (Some contactHit) in
        match hit_of contactHit with
        | Some armored => let '(s, m) := lookup_found l contactHit armored s in (s, Done m)
        | None => (s, Ask l)
        end
    end.
Definition lookup_answered (l : lookup) (r : res jsval) (s : window) : window * option meta :=
  if negb (current l s) then (s, None)
  else
    match r with
    | Throw m => (lookup_failed l m s, None)
    | Ok hit => match hit_of hit with Some armored => lookup_found l hit armored s | None => (lookup_missing l s, None) end
    end.

(** The effect on the recipient, and the timer of 350 ms it leaves: the window whose lookup
    the timer begins. *)
Definition forget_lookups (st : key_status) (s : window) : window :=
  on_key (fun k => when (negb (manualKeyOverride k)) (set_recipient "" None) (set_keyStatus st (set_lookupBusy false k))) (set_seq (S (seq s)) s).
Definition key_effect (s : window) : window * option window :=
  match mode s with
  | LinkMode => (on_key (set_lookupBusy false) (set_seq (S (seq s)) s), None)
  | PgpMode =>
      match toRecipientsForPGP (to (text s)) with
      | [] => (forget_lookups Idle s, None)
      | [_] => (s, Some s)
      | _ => (forget_lookups NeedsSingle s, None)
      end
  end.

(** ** A key that is entered *)

Definition is_manual (v : jsval) : bool := starts_with (js_String (js_or v (JStr ""))) "manual".
Definition handleManualKeyChange (next : string) (s : window) : window :=
  let target := singleComposeRecipient (to (text s)) in
  let old := recipientMeta (key s) in
  on_key (fun k =>
    let k := set_keyError "" k in
    if negb (trim next =s? "") then
      let fingerprint := match old with Some m => if is_manual (m_source m) then m_fingerprint m else JStr "" | None => JStr "" end in
      set_keyStatus Manual (set_manual true target "" (set_recipient next (Some (Meta (JStr "manual") fingerprint target next)) k))
    else set_keyStatus Idle (set_manual false "" "" (set_recipient next None k))) s.
Definition clearManualKey (s : window) : window :=
  on_key (fun k => set_keyStatus Idle (set_keyError "" (set_manual false "" "" (set_recipient "" None k)))) s.

(** [handleManualKeyUpload], until the file is read. *)
Definition upload (s : window) : window := on_key (set_keyError "") s.
(** The text of the file, when it is a public key. *)
Definition uploaded_key (content : res string) : res string :=
  t <~ content ;;
  let armored := trim t in
  if armored =s? "" then Throw "public key file is empty"
  else if ci_includes armored "begin pgp private key" || ci_includes armored "begin private key" then Throw "private key material is not allowed here"
  else Ok armored.
(** [handleManualKeyUpload] from the file's text on: [to0], the recipient when the file was
    chosen, [fingerprint], what the key's fingerprint is. *)
Definition uploaded (to0 name : string) (content : res string) (fingerprint : string -> res string) (s : window) : window :=
  match (armored <~ uploaded_key content ;; fp <~ fingerprint armored ;; Ok (armored, fp)) with
  | Throw m => on_key (set_keyError (error_text m)) s
  | Ok (armored, fp) =>
      let target := singleComposeRecipient to0 in
      on_key (fun k => set_keyStatus Manual (set_manual true target name (set_recipient armored (Some (Meta (JStr "manual upload") (JStr fp) target armored)) k))) s
  end.

(** ** Sending *)

(** What the key vault promises: the fingerprint of the identity it has opened for an address
    ([KeyVault.ensureIdentityUnlockedByEmail]), and the two encryptions. *)
Class Vault := {
  ensureIdentityUnlockedByEmail : string -> res string;
  encryptAndSignToRecipient : string -> string -> string -> res string;
  encryptToRecipient : string -> string -> res string;
}.
(** The values that are drawn for a message and its wrapper, and for a link. *)
Record draws := Draws { d_host : host; d_wrapper : host; d_msgKey : string; d_msgNonce : string; d_salt : string; d_wrapNonce : string }.

(** To which key a message goes, how, and what the address book is to keep. *)
Record route := Route { r_armored : string; r_local : bool; r_entry : option (string * (string * jsval)) }.

Definition manualTargetMatch (k : key_panel) (recipient : string) : bool :=
  manualKeyOverride k && (manualKeyEmail k =s? recipient) && negb (recipientArmored k =s? "").
Definition needs_lookup (k : key_panel) (recipient : string) : bool :=
  negb (manualTargetMatch k recipient) && match recipientMeta k with Some m => negb (m_email m =s? recipient) | None => true end.
Definition is_local (v : jsval) : bool := match v with JStr s => s =s? "local" | _ => false end.
Definition meta_key (m : option meta) : string := match m with Some m => m_armoredPublic m | None => "" end.
Definition route_of (k : key_panel) (recipient : string) (routingMeta : option meta) : res route :=
  if (recipientArmored k =s? "") && (meta_key routingMeta =s? "") then Throw "recipient public key required"
  else
    let manual := manualTargetMatch k recipient in
    let localDelivery := negb manual && match routingMeta with Some m => is_local (m_source m) && (m_email m =s? recipient) | None => false end in
    let routeArmored :=
      if manual then recipientArmored k
      else if localDelivery && negb (meta_key routingMeta =s? "") then meta_key routingMeta
      else str_or (recipientArmored k) (meta_key routingMeta) in
    Ok (Route routeArmored localDelivery
          (if manual then Some (recipient, (recipientArmored k, JStr (if uploadedKeyName k =s? "" then "manual" else "manual upload")))
           else match routingMeta with
                | Some m => if m_email m =s? "" then None else Some (m_email m, (routeArmored, m_source m))
                | None => None
                end)).

(** [identities.find((i) => i && i.email === from)] *)
Definition sender_identity (identities : list jsval) (sender : string) : option jsval :=
  List.find (fun i => truthy i && match prop i "email" with JStr e => e =s? sender | _ => false end) identities.

(** [r && r.id ? r.id.slice(0, 8) : ""] *)
Definition outbox_id (r : jsval) : res string :=
  if truthy r && truthy (prop r "id") then
    match prop r "id" with
    | JStr id => Ok (stake 8 id)
    | JArr l => Ok (js_String (JArr (take 8 l)))
    | _ => Throw "r.id.slice is not a function"
    end
  else Ok "".
Definition sent_text (localDelivery : bool) (r : jsval) : res string :=
  if localDelivery then Ok "Delivered signed PGP message locally"
  else id <~ outbox_id r ;; Ok ("Queued signed PGP message " +:+ String (ascii_of_N 183) "" +:+ " outbox " +:+ id).

Section Send.
Context `{Vault, WebCrypto}.
Variable DOMParser : option dom.
Variable origin : string.
Variable loaded : bool.                  (** OpenPGP.js and the key vault are there *)
Variable keygen : bool.                  (** [window.ElvishKeygen] is there *)
Variable identities : list jsval.
Variable dr : draws.
Local Abbreviation M := (Handlers.M window).

(** [detectRecipientKey], when nothing else happens in between. *)
Definition detectRecipientKey (force : bool) (s0 : window) : M (option meta) := fun s =>
  match begin_lookup force s0 s with
  | (s, None) => Ret (s, Ok None)
  | (s, Some l) =>
      r <- attempt (getContactKey origin (l_target l)) ;;
      match contact_answered l r s with
      | (s, Done m) => Ret (s, Ok m)
      | (s, Ask l) => r <- attempt (lookupKey origin (l_target l)) ;; let '(s, m) := lookup_answered l r s in Ret (s, Ok m)
      end
  end.

Definition of_res {A} (r : res A) : M A := match r with Ok a => hret a | Throw m => hthrow m end.

(** The arguments of [sendPGPDirect]. *)
Definition direct_of (s0 : window) (recipient plainTextBody senderArmored fingerprint : string) (r : route) : direct :=
  let t := text s0 in
  Direct (from t) recipient (subject t) plainTextBody (r_armored r) senderArmored fingerprint (r_local r) (attachPublicKey s0)
    (splitAddressList (cc t)) (splitAddressList (bcc t)) (inReplyTo t) (references t).
(** The request at the end of [sendPGPDirect]. *)
Definition post (p : posted) : prog jsval :=
  match p with
  | EncryptedMessage recipient header body sh sb fromAddr toAddrs =>
      postEncryptedMessage origin (JStr recipient) (JStr header) (JStr body) (JStr sh) (JStr sb) (JStr fromAddr) (strings_json toAddrs)
  | Outbox payload summary sh sb fromAddr => postOutbox origin (JStr payload) (strings_json summary) (JStr sh) (JStr sb) (JStr fromAddr)
  end.
Definition encrypted (d : direct) : res posted := sendPGPDirect encryptAndSignToRecipient encryptToRecipient loaded (d_host dr) (d_wrapper dr) d.

(** The identity of the sender: its public key and its fingerprint. *)
Definition sender (s0 : window) : res (string * string) :=
  match sender_identity identities (from (text s0)) with
  | None => Throw "sender identity public key unavailable"
  | Some i =>
      if negb (truthy (prop i "armored_public")) then Throw "sender identity public key unavailable"
      else
        fp <~ (if truthy (prop i "fingerprint") then Ok (js_String (prop i "fingerprint")) else ensureIdentityUnlockedByEmail (from (text s0))) ;;
        if fp =s? "" then Throw "sender identity signing key unavailable" else Ok (js_String (prop i "armored_public"), fp)
  end.

(** The address book keeps the key; that it cannot is no error. *)
Definition save_contact (s0 : window) (r : route) : M unit :=
  match r_entry r with
  | Some (email, (armored, source)) =>
      if saveToAddressBook s0 && negb (email =s? "")
      then hcatch (_ <== await (putContactKey origin (JStr email) (JStr armored) source (JBool true)) ;;; hret tt) (fun _ => hret tt)
      else hret tt
  | None => hret tt
  end.
(** From the key of the recipient on. *)
Definition send_direct (s0 : window) (recipient plainTextBody : string) (routingMeta : option meta) : M unit :=
  r <== of_res (route_of (key s0) recipient routingMeta) ;;;
  i <== of_res (sender s0) ;;;
  p <== of_res (encrypted (direct_of s0 recipient plainTextBody i.1 i.2 r)) ;;;
  answer <== await (post p) ;;;
  _ <== save_contact s0 r ;;;
  m <== of_res (sent_text (r_local r) answer) ;;;
  _ <== modify (onToast m) ;;;
  modify (set_open false).
Definition send_pgp (s0 : window) (plainTextBody : string) : M unit :=
  match toRecipientsForPGP (to (text s0)) with
  | [] => hthrow "recipient (To:) required"
  | [recipient] =>
      routingMeta <== (if needs_lookup (key s0) recipient then detectRecipientKey true s0 else hret (recipientMeta (key s0))) ;;;
      send_direct s0 recipient plainTextBody routingMeta
  | _ => hthrow "PGP direct encrypts to exactly one To address. Cc/Bcc are added to headers only; use a protected link for multi-recipient delivery."
  end.

Definition link_json (q : link_request) : jsval :=
  JObj [("subject_hint", JStr (lr_subject_hint q)); ("recipient_emails", strings_json (lr_recipient_emails q));
        ("notify_recipients", JBool (lr_notify_recipients q)); ("notify_from_addr", JStr (lr_notify_from_addr q)); ("ttl_seconds", JNum (lr_ttl_seconds q));
        ("max_views", JNum (lr_max_views q)); ("kdf", JStr (lr_kdf q)); ("kdf_salt_b64", JStr (lr_kdf_salt_b64 q));
        ("kdf_params_json", JStr (lr_kdf_params_json q)); ("wrapped_msg_key_b64", JStr (lr_wrapped_msg_key_b64 q));
        ("body_ciphertext_b64", JStr (lr_body_ciphertext_b64 q))].
Definition link_request_of (s0 : window) (plainTextBody : string) : res link_request :=
  if negb keygen then Throw "crypto subsystem not loaded"
  else
    let t := text s0 in let l := link s0 in
    sendProtectedLink (d_msgKey dr) (d_msgNonce dr) (d_salt dr) (d_wrapNonce dr) (from t) (to t) (cc t) (subject t) plainTextBody (pwd l)
      (ttlSeconds l) (maxViews l) (notify l).
Definition link_checks (s0 : window) (plainTextBody : string) : res unit :=
  let l := link s0 in
  if pwd l =s? "" then Throw "password required"
  else if String.length (pwd l) <? 12 then Throw "password must be at least 12 chars"
  else if negb (pwd l =s? pwdConfirm l) then Throw "passwords do not match"
  else if plainTextBody =s? "" then Throw "body required"
  else Ok tt.
Definition send_link (s0 : window) (plainTextBody : string) : M unit :=
  _ <== of_res (link_checks s0 plainTextBody) ;;;
  q <== of_res (link_request_of s0 plainTextBody) ;;;
  r <== await (createProtectedLink origin (link_json q)) ;;;
  _ <== modify (fun s => set_link (LinkPanel (pwd (link s)) (pwdConfirm (link s)) (ttlSeconds (link s)) (maxViews (link s)) (notify (link s)) (Some r)) s) ;;;
  modify (onToast "Protected link created").

(** [s0]: the window when the button was drawn. *)
Definition handleSend (s0 : window) : M unit :=
  if busy s0 then hret tt
  else
    _ <== modify (set_err "") ;;;
    _ <== modify (set_busy true) ;;;
    let plainTextBody := htmlToPlainText DOMParser (body (text s0)) in
    hfinally
      (hcatch (match mode s0 with PgpMode => send_pgp s0 plainTextBody | LinkMode => send_link s0 plainTextBody end)
         (fun m => modify (set_err (error_text m))))
      (set_busy false).

(** The effect on [open]: whether the key of the sender is attached. [cancelled]: the window
    was closed before the answer. *)
Definition load_attach_default (cancelled : bool) : M unit := fun s =>
  if negb (opened s) then Ret (s, Ok tt)
  else
    r <- attempt (payload <- getMailSettings origin ;; Ret (truthy (prop (js_or (prop payload "settings") (JObj [])) "attach_public_key_default"))) ;;
    Ret (if cancelled then s else set_options (saveToAddressBook s) (match r with Ok b => b | Throw _ => false end) (expanded s) s, Ok tt).
End Send.

(** ** What happens to the window *)

(** [known]: for which address a key was named by the server, or entered by the user. The
    lookups and the uploads are those that wait. *)
Record machine := Machine {
  win : window;
  timer : option window;
  lookups : list lookup;
  uploads : list (string * (string * res string));
  known : list (string * string);
}.
Definition with_win (w : window) (m : machine) : machine := Machine w (timer m) (lookups m) (uploads m) (known m).
Definition start (defaultFrom : string) : machine := Machine (mounted defaultFrom) None [] [] [].
Definition option_cons {A} (o : option A) (l : list A) : list A := match o with Some a => a :: l | None => l end.
(** A lookup begins: by the timer, the button next to the key, or a send. *)
Definition begin_in (force : bool) (s0 : window) (tm : option window) (m : machine) : machine :=
  let '(w, l) := begin_lookup force s0 (win m) in Machine w tm (option_cons l (lookups m)) (uploads m) (known m).
Definition named (l : lookup) (r : res jsval) (m : machine) : list (string * string) :=
  option_cons (match r with Ok j => (fun a => (l_target l, a)) <$> hit_of j | Throw _ => None end) (known m).
Definition drop_lookup (l : lookup) (ls : list lookup) : list lookup := List.filter (fun l' => negb (l_seq l' =? l_seq l)) ls.
Definition answer_in (l : lookup) (r : res jsval) (m : machine) : machine :=
  let rest := drop_lookup l (lookups m) in
  match l_contact l with
  | None =>
      match contact_answered l r (win m) with
      | (w, Ask l') => Machine w (timer m) (l' :: rest) (uploads m) (named l r m)
      | (w, Done _) => Machine w (timer m) rest (uploads m) (named l r m)
      end
  | Some _ => Machine (lookup_answered l r (win m)).1 (timer m) rest (uploads m) (named l r m)
  end.
Definition enter_in (next : string) (m : machine) : machine :=
  Machine (handleManualKeyChange next (win m)) (timer m) (lookups m) (uploads m) ((singleComposeRecipient (to (text (win m))), next) :: known m).
Definition upload_in (name : string) (content : res string) (m : machine) : machine :=
  Machine (upload (win m)) (timer m) (lookups m) ((to (text (win m)), (name, content)) :: uploads m) (known m).
Definition uploaded_in (fingerprint : string -> res string) (u : string * (string * res string)) (m : machine) : machine :=
  Machine (uploaded u.1 u.2.1 u.2.2 fingerprint (win m)) (timer m) (lookups m) (uploads m)
    (option_cons (match uploaded_key u.2.2 with Ok a => Some (singleComposeRecipient u.1, a) | Throw _ => None end) (known m)).

(** [step_other]: what is typed, the window shown and closed, and all a send does besides its
    lookup leave the key alone. *)
Inductive step : machine -> machine -> Prop :=
| step_other m w : key w = key (win m) -> seq w = seq (win m) -> step m (with_win w m)
| step_open m d f : step m (with_win (open_effect d f (win m)) m)
| step_effect m : step m (Machine (key_effect (win m)).1 (key_effect (win m)).2 (lookups m) (uploads m) (known m))
| step_fire m w0 : timer m = Some w0 -> step m (begin_in false w0 None m)
| step_force m : step m (begin_in true (win m) (timer m) m)
| step_answer m l r : l ∈ lookups m -> step m (answer_in l r m)
| step_enter m next : step m (enter_in next m)
| step_clear m : step m (with_win (clearManualKey (win m)) m)
| step_upload m name content : step m (upload_in name content m)
| step_uploaded m fingerprint u : u ∈ uploads m -> step m (uploaded_in fingerprint u m).

(** *** The key that is shown *)

(** The key belongs to the address it is shown for. *)
Definition owned (ks : list (string * string)) (k : key_panel) : Prop :=
  (forall mt, recipientMeta k = Some mt -> recipientArmored k = m_armoredPublic mt /\ (m_email mt, recipientArmored k) ∈ ks) /\
  (manualKeyOverride k = true -> recipientArmored k <> "" -> (manualKeyEmail k, recipientArmored k) ∈ ks).
Definition in_order (m : machine) : Prop := Forall (fun l => l_seq l <= seq (win m)) (lookups m).

Lemma owned_mono ks ks' k : owned ks k -> (forall x, x ∈ ks -> x ∈ ks') -> owned ks' k.
Proof. intros [H1 H2] Hs. split; [intros mt Hm; destruct (H1 mt Hm); auto | auto]. Qed.
Lemma owned_cons o ks k : owned ks k -> owned (option_cons o ks) k.
Proof. intros Hk. apply (owned_mono ks); [exact Hk|]. intros x Hx. destruct o; [by right | done]. Qed.
(** A key without an address. *)
Lemma owned_none ks k : recipientMeta k = None -> (manualKeyOverride k = true -> recipientArmored k <> "" -> (manualKeyEmail k, recipientArmored k) ∈ ks) -> owned ks k.
Proof. intros Hm Hk. split; [by rewrite Hm | exact Hk]. Qed.
Lemma owned_one ks k mt : recipientMeta k = Some mt -> recipientArmored k = m_armoredPublic mt -> (m_email mt, recipientArmored k) ∈ ks ->
  (manualKeyOverride k = true -> manualKeyEmail k = m_email mt) -> owned ks k.
Proof. intros Hm Ha Hin Hk. split; [intros ? [= <-]%(eq_trans (eq_sym Hm)); done | intros Ho _; by rewrite (Hk Ho)]. Qed.
(** The same key, override and address. *)
Lemma owned_same ks k k' : owned ks k -> recipientArmored k' = recipientArmored k -> recipientMeta k' = recipientMeta k ->
  manualKeyOverride k' = manualKeyOverride k -> manualKeyEmail k' = manualKeyEmail k -> owned ks k'.
Proof. intros Hk E1 E2 E3 E4. unfold owned. by rewrite E1, E2, E3, E4. Qed.
Lemma owned_no_key ks : owned ks no_key.
Proof. by apply owned_none. Qed.

Lemma forget_owned ks st s : owned ks (key s) -> owned ks (key (forget_lookups st s)).
Proof.
  intros Hk. unfold forget_lookups, when. cbn. destruct (manualKeyOverride (key s)) eqn:E; cbn; [by apply (owned_same _ (key s))|].
  apply owned_none; cbn; [done | by rewrite E].
Qed.
Lemma effect_owned ks s : owned ks (key s) -> owned ks (key (key_effect s).1).
Proof.
  intros Hk. unfold key_effect. destruct (mode s); [|by apply (owned_same _ (key s))].
  destruct (toRecipientsForPGP _) as [|x [|]]; cbn [fst]; [by apply forget_owned | done | by apply forget_owned].
Qed.
Lemma begin_owned ks force s0 s : owned ks (key s) -> owned ks (key (begin_lookup force s0 s).1).
Proof.
  intros Hk. unfold begin_lookup, when. destruct (toRecipientsForPGP _) as [|x [|]]; destruct force; by apply (owned_same _ (key s)).
Qed.
Lemma found_owned ks l hit armored s : owned ks (key s) -> (l_target l, armored) ∈ ks -> owned ks (key (lookup_found l hit armored s).1).
Proof.
  intros Hk Hin. unfold lookup_found, when. destruct (l_preserve l); cbn; [by apply (owned_same _ (key s))|]. by eapply owned_one.
Qed.
Lemma failed_owned ks l m s : owned ks (key s) -> owned ks (key (lookup_failed l m s)).
Proof.
  intros Hk. unfold lookup_failed, when. destruct (l_preserve l), (l_force l); cbn; try by apply (owned_same _ (key s)).
  all: apply owned_none; [done | apply Hk].
Qed.
Lemma missing_owned ks l s : owned ks (key s) -> owned ks (key (lookup_missing l s)).
Proof. intros Hk. unfold lookup_missing, when. destruct (l_preserve l), (l_force l); cbn; try by apply (owned_same _ (key s)). all: by apply owned_none. Qed.
Lemma answer_owned l r m : owned (known m) (key (win m)) -> owned (known (answer_in l r m)) (key (win (answer_in l r m))).
Proof.
  intros Hk. assert (owned (named l r m) (key (win m))) as Hn by (by apply owned_cons).
  unfold answer_in, contact_answered, lookup_answered. destruct (l_contact l) as [c|], (negb (current l (win m))); [done | | done |];
    (destruct r as [x|e]; [|by apply failed_owned]); unfold named in *; cbn [fst win known] in *; destruct (hit_of x) as [a|]; cbn in *.
  - apply found_owned; [done | left].
  - by apply missing_owned.
  - exact (found_owned _ (Lookup (l_seq l) (l_target l) (l_preserve l) (l_force l) (Some x)) x a (win m) Hn (list_elem_of_here _ _)).
  - done.
Qed.
Lemma enter_owned ks next s : owned ks (key s) -> owned ((singleComposeRecipient (to (text s)), next) :: ks) (key (handleManualKeyChange next s)).
Proof.
  intros Hk. unfold handleManualKeyChange. cbn [key on_key set_key]. destruct (negb (trim next =s? "")); cbn.
  - eapply owned_one; [reflexivity | done | left | done].
  - by apply owned_none.
Qed.
Lemma uploaded_owned fingerprint u m : owned (known m) (key (win m)) -> owned (known (uploaded_in fingerprint u m)) (key (win (uploaded_in fingerprint u m))).
Proof.
  intros Hk. unfold uploaded_in, uploaded. cbn [win known]. destruct (uploaded_key u.2.2) as [a|e] eqn:E; cbn [res_bind option_cons].
  - destruct (fingerprint a); cbn; [eapply owned_one; [reflexivity | done | left | done] | by apply (owned_cons (Some _))].
  - by apply (owned_same _ (key (win m))).
Qed.
Lemma step_owned m m' : step m m' -> owned (known m) (key (win m)) -> owned (known m') (key (win m')).
Proof.
  destruct 1 as [m w Hw _|m d f|m|m w0 _|m|m l r _|m next|m|m name content|m fp u _]; intros Hk; cbn [with_win win known].
  - by rewrite Hw.
  - unfold open_effect. destruct (opened (win m)); [done|]. apply owned_no_key.
  - by apply effect_owned.
  - unfold begin_in. pose proof (begin_owned (known m) false w0 (win m) Hk). by destruct (begin_lookup _ _ _).
  - unfold begin_in. pose proof (begin_owned (known m) true (win m) (win m) Hk). by destruct (begin_lookup _ _ _).
  - by apply answer_owned.
  - by apply enter_owned.
  - by apply owned_none.
  - by apply (owned_same _ (key (win m))).
  - by apply uploaded_owned.
Qed.
Lemma reached_owned f m : rtc step (start f) m -> owned (known m) (key (win m)).
Proof.
  assert (forall a b, rtc step a b -> owned (known a) (key (win a)) -> owned (known b) (key (win b))) as H.
  { induction 1 as [|a b c Hs _ IH]; [done|]. intros Ha. by apply IH, (step_owned a). }
  intros Hr. apply (H _ _ Hr), owned_no_key.
Qed.

(** *** The order of lookups *)

Lemma in_order_seq n ls k : n <= k -> Forall (fun l => l_seq l <= n) ls -> Forall (fun l => l_seq l <= k) ls.
Proof. intros Hn Hl. eapply Forall_impl; [exact Hl|]. cbn. lia. Qed.
Lemma effect_seq s : seq s <= seq (key_effect s).1.
Proof. unfold key_effect. destruct (mode s); cbn; [|lia]. destruct (toRecipientsForPGP _) as [|x [|]]; cbn; lia. Qed.
Lemma begin_in_order force s0 tm m : in_order m -> in_order (begin_in force s0 tm m).
Proof.
  unfold in_order, begin_in, begin_lookup. intros Hm. destruct (toRecipientsForPGP _) as [|x [|]]; cbn; [done | | done].
  constructor; cbn; [lia|]. by apply (in_order_seq (seq (win m))); [lia|].
Qed.
Lemma answered_seq l r s : seq (contact_answered l r s).1 = seq s /\ seq (lookup_answered l r s).1 = seq s.
Proof. unfold contact_answered, lookup_answered. destruct (negb (current l s)); [done|]. destruct r as [j|e]; [destruct (hit_of j)|]; done. Qed.
Lemma asked_seq l r s w l' : contact_answered l r s = (w, Ask l') -> l_seq l' = l_seq l.
Proof. unfold contact_answered. destruct (negb _); [done|]. destruct r as [j|e]; [|done]. destruct (hit_of j); cbn; by intros [= _ <-]. Qed.
Lemma drop_in_order n l ls : Forall (fun l => l_seq l <= n) ls -> Forall (fun l => l_seq l <= n) (drop_lookup l ls).
Proof. unfold drop_lookup. intros Hl. apply Forall_forall. intros x Hx%list_elem_of_In%filter_In. rewrite Forall_forall in Hl. apply Hl, list_elem_of_In, Hx. Qed.
Lemma step_ordered m m' : step m m' -> in_order m -> in_order m'.
Proof.
  destruct 1 as [m w _ Hw|m d f|m|m w0 _|m|m l r Hl|m next|m|m name content|m fp u _]; intros Hm; try exact Hm.
  - unfold in_order. cbn. by rewrite Hw.
  - unfold in_order, open_effect. cbn. by destruct (opened (win m)).
  - apply (in_order_seq (seq (win m))); [apply effect_seq | exact Hm].
  - by apply begin_in_order.
  - by apply begin_in_order.
  - unfold in_order, answer_in. destruct (answered_seq l r (win m)) as [E1 E2]. pose proof (drop_in_order _ l _ Hm) as Hd.
    destruct (l_contact l); cbn; [by rewrite E2|]. destruct (contact_answered l r (win m)) as [w [o|l'] ] eqn:E; cbn in *; rewrite E1; [done|].
    constructor; [|done]. rewrite (asked_seq _ _ _ _ _ E). unfold in_order in Hm. rewrite Forall_forall in Hm. by apply Hm.
  - unfold in_order, uploaded_in, uploaded. cbn. by destruct (uploaded_key _) as [a|e]; cbn; [destruct (fp a)|].
Qed.
Lemma reached_ordered f m : rtc step (start f) m -> in_order m.
Proof.
  assert (forall a b, rtc step a b -> in_order a -> in_order b) as H by (induction 1 as [|a b c Hs _ IH]; [done|]; intros Ha; by apply IH, (step_ordered a)).
  intros Hr. apply (H _ _ Hr). constructor.
Qed.

(** a closed window forgets: whatever happened before, once the window is closed its
    effects leave no text, no key and no password in it, and none of the lookups that are
    still on their way brings a key back. *)
Theorem closed_window_forgets f m d : rtc step (start f) m -> opened (win m) = false ->
  let w := (key_effect (open_effect d f (win m))).1 in
  key w = no_key /\ text w = empty_draft (from (text (win m))) /\ pwd (link w) = "" /\ linkResult (link w) = None /\
  forall l r, l ∈ lookups m -> contact_answered l r w = (w, Done None) /\ lookup_answered l r w = (w, None).
Proof.
  intros Hr Ho w. pose proof (reached_ordered f m Hr) as Hi. unfold w, open_effect. rewrite Ho. split; [done|]. split_and!; [done.. |].
  intros l r Hl. unfold in_order in Hi. rewrite Forall_forall in Hi. specialize (Hi l Hl).
  assert (forall s, seq (win m) < seq s -> negb (current l s) = true) as Hc by (intros s Hs; unfold current; destruct (Nat.eqb_spec (l_seq l) (seq s)); [lia | done]).
  unfold contact_answered, lookup_answered. rewrite Hc; [done|]. change (seq (win m) < S (seq (win m))). lia.
Qed.

(** ** What is sent *)

Section Sent.
Context `{Vault, WebCrypto}.
Variable DOMParser : option dom.
Variable origin : string.
Variable loaded keygen : bool.
Variable identities : list jsval.
Variable dr : draws.
Local Abbreviation send s := (handleSend DOMParser origin loaded keygen identities dr s s).
Local Abbreviation direct_send s b p m := (send_direct origin loaded identities dr s b p m).

Lemma runs_of_res {A B} (r : res A) (f : A -> M window B) (s : window) tr out : runs (hbind (of_res r) f s) tr out ->
  (exists a, r = Ok a /\ runs (f a s) tr out) \/ (exists m, r = Throw m /\ tr = [] /\ out = Ok (s, Throw m)).
Proof.
  unfold hbind. destruct r as [a|m]; cbn; intros Hr; [left; by exists a|]. right. exists m. by inversion Hr; subst.
Qed.
Lemma runs_modify {B} (g : window -> window) (f : unit -> M window B) (s : window) tr out : runs (hbind (modify g) f s) tr out -> runs (f tt (g s)) tr out.
Proof. done. Qed.

(** A direct send: nothing is sent, or one message, encrypted as its route says. *)
Lemma direct_runs s b p m s0 tr out : runs (direct_send s b p m s0) tr out ->
  (tr = [] /\ exists e, out = Ok (s0, Throw e)) \/
  exists r i q t1 t2 a, route_of (key s) b m = Ok r /\ sender identities s = Ok i /\
    encrypted loaded dr (direct_of s b p i.1 i.2 r) = Ok q /\ tr = t1 ++ t2 /\ runs (post origin q) t1 a.
Proof.
  unfold send_direct. intros [(r & Hr & H1)|(e & _ & -> & ->)]%runs_of_res; [|left; eauto].
  apply runs_of_res in H1 as [(i & Hi & H1)|(e & _ & -> & ->)]; [|left; eauto].
  apply runs_of_res in H1 as [(q & Hq & H1)|(e & _ & -> & ->)]; [|left; eauto]. right.
  apply runs_hbind in H1 as [(t1 & t2 & s1 & j & -> & (a & _ & Ha)%runs_await & _)|[(s1 & e & _ & (a & _ & Ha)%runs_await)|(e & _ & (a & ? & _)%runs_await)] ];
    [by exists r, i, q, t1, t2, a | | done].
  exists r, i, q, tr, [], a. by rewrite app_nil_r.
Qed.

Lemma triple_of_res {A} P (r : res A) : triple P (of_res r) P P.
Proof. destruct r; [apply triple_ret | by apply triple_throw]. Qed.
(** A lookup leaves the rest of the window alone. *)
Definition key_free (P : window -> Prop) : Prop := forall s k n, P s -> P (set_key k (set_seq n s)).
Lemma set_key_eta s : set_key (key s) (set_seq (seq s) s) = s.
Proof. by destruct s. Qed.
Lemma begin_free P force s0 s : key_free P -> P s -> P (begin_lookup force s0 s).1.
Proof.
  intros HP Hs. unfold begin_lookup. destruct (toRecipientsForPGP _) as [|x [|]]; cbn [fst]; try exact (HP s _ (seq s) Hs). exact (HP s _ (S (seq s)) Hs).
Qed.
Lemma answered_free P l r s : key_free P -> P s -> P (contact_answered l r s).1 /\ P (lookup_answered l r s).1.
Proof.
  intros HP Hs. unfold contact_answered, lookup_answered. destruct (negb (current l s)); [by split|].
  destruct r as [j|e]; [destruct (hit_of j)|]; split; try exact Hs; exact (HP s _ (seq s) Hs).
Qed.
Lemma triple_detect P force s : key_free P -> triple P (detectRecipientKey origin force s) P P.
Proof.
  intros HP s1 tr out Hs. unfold detectRecipientKey. pose proof (begin_free P force s s1 HP Hs) as Hb. destruct (begin_lookup force s s1) as [s2 [l|] ]; cbn [fst] in Hb.
  - intros [(t1 & t2 & r & -> & _ & H2)|(e & -> & (? & [=] & _)%runs_attempt)]%runs_bind_inv.
    destruct (answered_free P l r s2 HP Hb) as [Hc _].
    destruct (contact_answered l r s2) as [s3 [o|l'] ]; [inversion H2; subst; by eexists _, _|]. cbn [fst] in Hc.
    apply runs_bind_inv in H2 as [(u1 & u2 & r' & -> & _ & H3)|(e & -> & (? & [=] & _)%runs_attempt)].
    destruct (answered_free P l' r' s3 HP Hc) as [_ Hd]. destruct (lookup_answered l' r' s3). inversion H3; subst. by eexists _, _.
  - intros Hr. inversion Hr; subst. by eexists _, _.
Qed.
Lemma triple_save P s r : triple P (save_contact origin s r) P P.
Proof.
  unfold save_contact. destruct (r_entry r) as [ [e [a v] ]|]; [|apply triple_ret]. destruct (_ && _); [|apply triple_ret].
  apply triple_catch with (E := P); [|intros m; apply triple_ret]. apply triple_bind with (Q := P); [by apply triple_await|]. intros j. apply triple_ret.
Qed.
(** What follows an accepted message: the window closes, or an error is thrown in it. *)
Definition open_now (s : window) : Prop := opened s = true.
Definition after_post (s : window) (r : route) (answer : jsval) : M window unit :=
  _ <== save_contact origin s r ;;;
  m <== of_res (sent_text (r_local r) answer) ;;;
  _ <== modify (onToast m) ;;;
  modify (set_open false).
Lemma triple_after s r j : triple open_now (after_post s r j) (fun s => opened s = false) open_now.
Proof.
  apply triple_bind with (Q := open_now); [apply triple_save|]. intros _. apply triple_bind with (Q := open_now); [apply triple_of_res|]. intros x.
  apply triple_bind with (Q := open_now); [by apply triple_modify|]. intros _. by apply triple_modify.
Qed.
Lemma triple_direct s b p m : triple open_now (direct_send s b p m) (fun s => opened s = false) open_now.
Proof.
  unfold send_direct. repeat (apply triple_bind with (Q := open_now); [apply triple_of_res|]; intros ?).
  apply triple_bind with (Q := open_now); [by apply triple_await|]. intros j. apply triple_after.
Qed.
Lemma triple_pgp s p : triple open_now (send_pgp origin loaded identities dr s p) (fun s => opened s = false) open_now.
Proof.
  unfold send_pgp. destruct (toRecipientsForPGP _) as [|b [|]]; [by apply triple_throw | | by apply triple_throw].
  apply triple_bind with (Q := open_now); [destruct (needs_lookup _ _); [apply triple_detect; by intros ??? | apply triple_ret]|]. intros m. apply triple_direct.
Qed.
Lemma triple_link s p : triple open_now (send_link origin keygen dr s p) (fun s => opened s = true /\ linkResult (link s) <> None) open_now.
Proof.
  unfold send_link. repeat (apply triple_bind with (Q := open_now); [apply triple_of_res|]; intros ?).
  apply triple_bind with (Q := open_now); [by apply triple_await|]. intros j.
  apply triple_bind with (Q := fun s => opened s = true /\ linkResult (link s) <> None); [by apply triple_modify|]. intros _. by apply triple_modify.
Qed.
Lemma never_rejects {A} P Q E (x : M window A) s tr m : triple P x Q E -> P s -> ~ runs (x s) tr (Throw m).
Proof. intros Ht Hs Hr. by destruct (Ht s tr _ Hs Hr) as (s' & r & [=] & _). Qed.

Lemma direct_accepts s b p m s0 tr s1 : runs (direct_send s b p m s0) tr (Ok (s1, Ok tt)) ->
  exists d q t1 t2 j, d_from d = from (text s) /\ d_recipient d = b /\ d_subject d = subject (text s) /\ d_body d = p /\
    encrypted loaded dr d = Ok q /\ tr = t1 ++ t2 /\ runs (post origin q) t1 (Ok j).
Proof.
  unfold send_direct. intros [(r & _ & H1)|(e & _ & _ & [=])]%runs_of_res. apply runs_of_res in H1 as [(i & _ & H1)|(e & _ & _ & [=])].
  apply runs_of_res in H1 as [(q & Hq & H1)|(e & _ & _ & [=])].
  apply runs_hbind in H1 as [(t1 & t2 & s2 & j & -> & (a & [= <- <-] & Ha)%runs_await & _)|[(s2 & e & [=] & _)|(e & [=] & _)] ].
  eexists _, q, t1, t2, j. split_and!; [..|exact Hq | done | exact Ha]; done.
Qed.
(** A link that was made, and the request it came from. *)
Lemma link_accepts s p s0 tr s1 : runs (send_link origin keygen dr s p s0) tr (Ok (s1, Ok tt)) ->
  let t := text s in let l := link s in
  12 <= String.length (pwd l) /\ pwd l = pwdConfirm l /\ p <> "" /\
  exists q answer,
    sendProtectedLink (d_msgKey dr) (d_msgNonce dr) (d_salt dr) (d_wrapNonce dr) (from t) (to t) (cc t) (subject t) p (pwd l)
      (ttlSeconds l) (maxViews l) (notify l) = Ok q /\
    runs (createProtectedLink origin (link_json q)) tr (Ok answer) /\ linkResult (link s1) = Some answer.
Proof.
  unfold send_link. intros [(u & Hc & H1)|(e & _ & _ & [=])]%runs_of_res. cbv zeta.
  assert (12 <= String.length (pwd (link s)) /\ pwd (link s) = pwdConfirm (link s) /\ p <> "") as (Hl & Hp & Hb).
  { unfold link_checks in Hc. destruct (pwd (link s) =s? ""); [done|]. destruct (_ <? 12) eqn:E1; [done|].
    destruct (_ =s? pwdConfirm _) eqn:E2; [|done]. destruct (p =s? "") eqn:E3; [done|]. by bool_to_prop. }
  split_and!; [done..|]. apply runs_of_res in H1 as [(q & Hq & H1)|(e & _ & _ & [=])].
  unfold link_request_of in Hq. destruct keygen; [|done].
  apply runs_hbind in H1 as [(t1 & t2 & s2 & j & -> & (a & [= <- <-] & Ha)%runs_await & H2)|[(s2 & e & [=] & _)|(e & [=] & _)] ].
  apply runs_modify in H2. inversion H2; subst. exists q, j. rewrite app_nil_r. by split_and!.
Qed.
(** A send: what it comes to, by its mode. *)
Definition sending (s : window) : M window unit :=
  let p := htmlToPlainText DOMParser (body (text s)) in
  match mode s with PgpMode => send_pgp origin loaded identities dr s p | LinkMode => send_link origin keygen dr s p end.
Definition started (s : window) : window := set_busy true (set_err "" s).
Lemma handle_runs s tr out : busy s = false -> opened s = true -> runs (send s) tr out ->
  exists s1 r, runs (sending s (started s)) tr (Ok (s1, r)) /\
    out = Ok (set_busy false (match r with Ok _ => s1 | Throw e => set_err (error_text e) s1 end), Ok tt).
Proof.
  unfold handleSend. intros -> Ho Hr. apply runs_modify in Hr. apply runs_modify in Hr. apply (runs_guarded (sending s)) in Hr; [exact Hr|].
  intros m. unfold sending. destruct (mode s); (eapply never_rejects; [first [apply triple_pgp | apply triple_link] | exact Ho]).
Qed.

(** The key of a route that was not looked up. *)
Lemma route_owned ks k b r : owned ks k -> needs_lookup k b = false -> route_of k b (recipientMeta k) = Ok r -> (b, r_armored r) ∈ ks.
Proof.
  intros [H1 H2] Hn. unfold route_of, needs_lookup in *.
  destruct ((recipientArmored k =s? "") && (meta_key (recipientMeta k) =s? "")); [done|]. intros E. injection E as <-. cbn [r_armored].
  destruct (manualTargetMatch k b) eqn:Em; cbn [negb andb] in *.
  - unfold manualTargetMatch in Em. bool_to_prop. subst b. by apply H2.
  - destruct (recipientMeta k) as [mt|]; [|done]. apply negb_false_iff, String.eqb_eq in Hn as <-. destruct (H1 mt eq_refl) as [Ha Hin]. cbn [meta_key] in *.
    rewrite <- Ha in *. destruct (_ && negb _); [done|]. unfold str_or. by destruct (recipientArmored k =s? _).
Qed.

(** C7: the key that is shown is the key that is used: in every window that can be reached,
    however lookups, uploads and input have overlapped, a message to one recipient whose key
    is not looked up again is encrypted with a key that the server named, or the user
    entered, for that recipient, or is not sent. *)
Theorem shown_key_is_used f m b tr out : rtc step (start f) m ->
  let s := win m in
  opened s = true -> mode s = PgpMode -> busy s = false -> toRecipientsForPGP (to (text s)) = [b] -> needs_lookup (key s) b = false -> runs (send s) tr out ->
  tr = [] \/
  exists d q t1 t2 a, d_recipient d = b /\ (b, d_recipientArmored d) ∈ known m /\ encrypted loaded dr d = Ok q /\ tr = t1 ++ t2 /\ runs (post origin q) t1 a.
Proof.
  intros Hm s Ho Hp Hb Ht Hn Hr. apply handle_runs in Hr as (s1 & r & Hr & _); [|done..]. unfold sending in Hr. rewrite Hp in Hr. unfold send_pgp in Hr. rewrite Ht, Hn in Hr.
  change (runs (direct_send s b (htmlToPlainText DOMParser (body (text s))) (recipientMeta (key s)) (started s)) tr (Ok (s1, r))) in Hr.
  apply direct_runs in Hr as [[-> _]|(rt & i & q & t1 & t2 & a & Hrt & _ & Hq & -> & Ha)]; [by left|]. right.
  eexists _, q, t1, t2, a. split_and!; [| | exact Hq | done | exact Ha]; [done|]. cbn. by apply (route_owned _ (key s)); [apply (reached_owned f)| |].
Qed.

(** C13: a send ends, whatever is answered, with the buttons working again, in one of three
    ways: with the window closed, when the server has accepted the encrypted message made
    from the sender, the one recipient, the subject and the text of the window; with the
    server's answer to the link request in the window, when the password has twelve
    characters and was repeated, there is a text, and the only request made was that for
    the link from the window's sender, recipients, subject, text, password, lifetime,
    number of views and notification; or else with the window open and an error in it. *)
Theorem send_settles s tr out : opened s = true -> busy s = false -> runs (send s) tr out ->
  let t := text s in let l := link s in
  let body := htmlToPlainText DOMParser (body t) in
  exists s', out = Ok (s', Ok tt) /\ busy s' = false /\
    (opened s' = false -> mode s = PgpMode /\ exists b d q t0 t1 t2 j,
       toRecipientsForPGP (to t) = [b] /\ d_from d = from t /\ d_recipient d = b /\ d_subject d = subject t /\ d_body d = body /\
       encrypted loaded dr d = Ok q /\ tr = t0 ++ t1 ++ t2 /\ runs (post origin q) t1 (Ok j)) /\
    (opened s' = true -> err s' <> "" \/
       mode s = LinkMode /\ 12 <= String.length (pwd l) /\ pwd l = pwdConfirm l /\ body <> "" /\ exists q answer,
         sendProtectedLink (d_msgKey dr) (d_msgNonce dr) (d_salt dr) (d_wrapNonce dr) (from t) (to t) (cc t) (subject t) body (pwd l)
           (ttlSeconds l) (maxViews l) (notify l) = Ok q /\
         runs (createProtectedLink origin (link_json q)) tr (Ok answer) /\ linkResult (link s') = Some answer).
Proof.
  intros Ho Hb Hr. apply handle_runs in Hr as (s1 & r & Hr & ->); [|done..]. eexists. split; [done|]. split; [done|]. unfold sending in Hr.
  assert (open_now (started s)) as Hst by exact Ho. destruct (mode s) eqn:Em.
  - destruct (triple_pgp s _ (started s) tr _ Hst Hr) as (s2 & r2 & E & Hs2). injection E as <- <-. destruct r as [ []|e].
    + split; [|cbn; rewrite Hs2; done]. intros _. split; [done|]. unfold send_pgp in Hr. destruct (toRecipientsForPGP _) as [|b [|]] eqn:Eb; [by inversion Hr | | by inversion Hr].
      apply runs_hbind in Hr as [(t0 & t' & s3 & m & -> & _ & H2)|[(s3 & m & [=] & _)|(m & [=] & _)] ].
      apply direct_accepts in H2 as (d & q & t1 & t2 & j & H1 & H2 & H3 & H4 & Hq & -> & Ha). exists b, d, q, t0, t1, t2, j. by split_and!.
    + split; [unfold open_now in Hs2; cbn; by rewrite Hs2|]. intros _. left. cbn. by apply str_or_nonempty.
  - destruct (triple_link s _ (started s) tr _ Hst Hr) as (s2 & r2 & E & Hs2). injection E as <- <-. destruct r as [ []|e].
    + destruct Hs2 as [H1 H2]. split; [cbn; by rewrite H1|]. intros _. right. split; [done|].
      apply link_accepts in Hr as (? & ? & ? & q & answer & Hq & Ha & Hl). split_and!; [done..|]. exists q, answer. by split_and!.
    + split; [unfold open_now in Hs2; cbn; by rewrite Hs2|]. intros _. left. cbn. by apply str_or_nonempty.
Qed.

(** *** Against one server *)

Section Server.
Context {T : Type}.
Variable srv : T -> request -> T * option response.

Lemma run_of_res {A} (r : res A) st (s : window) : run srv st (of_res r s) = (st, Ok (s, r)).
Proof. by destruct r. Qed.
(** A lookup that fails at its first request, or ends there. *)
Lemma run_detect_first s b st st1 r o : toRecipientsForPGP (to (text s)) = [b] -> run srv st (getContactKey origin b) = (st1, r) ->
  (forall s' l, l_target l = b -> l_seq l = seq s' -> exists s'', contact_answered l r s' = (s'', Done (o l)) /\ opened s'' = opened s' /\ err s'' = err s') ->
  exists l s', l_target l = b /\ opened s' = opened s /\ err s' = "" /\ run srv st (detectRecipientKey origin true s (started s)) = (st1, Ok (s', Ok (o l))).
Proof.
  intros Ht Hr Ha. unfold detectRecipientKey, begin_lookup. rewrite Ht. cbn [l_target]. rewrite run_bind, run_attempt, Hr.
  match goal with |- context [contact_answered ?l r ?s'] => destruct (Ha s' l eq_refl eq_refl) as (s'' & -> & Ho & He); exists l, s'' end. by split_and!.
Qed.
(** The message that follows. *)
Lemma run_direct s b p m st s0 st1 r i q j : route_of (key s) b m = Ok r -> sender identities s = Ok i ->
  encrypted loaded dr (direct_of s b p i.1 i.2 r) = Ok q -> run srv st (post origin q) = (st1, Ok j) ->
  run srv st (direct_send s b p m s0) = run srv st1 (after_post s r j s0).
Proof.
  intros Hr Hi Hq Hp. unfold send_direct. erewrite run_hbind by (by rewrite run_of_res, Hr). erewrite run_hbind by (by rewrite run_of_res, Hi).
  erewrite run_hbind by (by rewrite run_of_res, Hq). by erewrite run_hbind by (by apply run_await).
Qed.
Lemma run_handle_pgp s b st st1 s1 m : mode s = PgpMode -> busy s = false -> toRecipientsForPGP (to (text s)) = [b] -> needs_lookup (key s) b = true ->
  run srv st (detectRecipientKey origin true s (started s)) = (st1, Ok (s1, Ok m)) ->
  run srv st (send s) = match run srv st1 (direct_send s b (htmlToPlainText DOMParser (body (text s))) m s1) with
                        | (st2, Ok (s2, Ok _)) => (st2, Ok (set_busy false s2, Ok tt))
                        | (st2, Ok (s2, Throw e)) => (st2, Ok (set_busy false (set_err (error_text e) s2), Ok tt))
                        | (st2, Throw e) => (st2, Throw e)
                        end.
Proof.
  intros Hp Hb Ht Hn Hd. unfold handleSend. rewrite Hb. erewrite run_hbind by reflexivity. erewrite run_hbind by reflexivity. cbv zeta. rewrite Hp.
  rewrite run_hfinally, run_hcatch. unfold send_pgp. rewrite Ht, Hn. erewrite run_hbind by exact Hd.
  by destruct (run srv st1 _) as [st2 [ [s2 [ []|e] ]|e] ].
Qed.

Lemma run_after s r j st st' s1 m : sent_text (r_local r) j = Ok m -> run srv st (save_contact origin s r s1) = (st', Ok (s1, Ok tt)) ->
  run srv st (after_post s r j s1) = (st', Ok (set_open false (onToast m s1), Ok tt)).
Proof. intros Hm Hs. unfold after_post. erewrite run_hbind by exact Hs. erewrite run_hbind by (by rewrite run_of_res, Hm). by erewrite run_hbind by reflexivity. Qed.
Lemma sent_id id : exists m, sent_text false (JObj [("id", JStr id)]) = Ok m.
Proof. destruct id; eexists; reflexivity. Qed.

(** a lookup that fails sends the message under the key of the one before: the key of a
    recipient is shown, another one is typed, the lookup of its key fails; then a send, whose
    own lookup fails as well, encrypts the message to the new recipient with the old key, the
    server accepts it, and the window closes without an error. *)
Theorem failed_lookup_uses_old_key s0 t b mt e0 w l st st1 st2 e i q id :
  recipientMeta (key s0) = Some mt -> recipientArmored (key s0) <> "" -> manualKeyOverride (key s0) = false -> mode s0 = PgpMode -> busy s0 = false -> opened s0 = true ->
  toRecipientsForPGP (to t) = [b] ->
  begin_lookup false (set_text t s0) (set_text t s0) = (w, Some l) ->
  let s := (contact_answered l (Throw e0) w).1 in
  run srv st (getContactKey origin b) = (st1, Throw e) -> sender identities s = Ok i ->
  encrypted loaded dr (direct_of s b (htmlToPlainText DOMParser (body t)) i.1 i.2 (Route (recipientArmored (key s0)) false None)) = Ok q ->
  run srv st1 (post origin q) = (st2, Ok (JObj [("id", JStr id)])) ->
  keyStatus (key s) = Failed /\ exists s', run srv st (send s) = (st2, Ok (s', Ok tt)) /\ opened s' = false /\ err s' = "".
Proof.
  intros Hm Ha Hman Hmode Hbusy Ho Ht Hbg s Hc Hi Hq Hp. unfold begin_lookup in Hbg. change (text (set_text t s0)) with t in Hbg. rewrite Ht in Hbg. injection Hbg as <- <-.
  assert (s = lookup_failed (Lookup (S (seq s0)) b (manualKeyOverride (key s0) && (manualKeyEmail (key s0) =s? b) && negb (recipientArmored (key s0) =s? "")) false None) e0
    (on_key (fun k => set_keyStatus Checking (set_lookupBusy true k)) (set_seq (S (seq s0)) (set_text t s0)))) as Es.
  { unfold s, contact_answered, current. cbn [seq set_seq set_text on_key set_key l_seq]. by rewrite Nat.eqb_refl. }
  rewrite Hman in Es. cbn [andb] in Es. assert (recipientMeta (key s) = None /\ recipientArmored (key s) = recipientArmored (key s0) /\ manualKeyOverride (key s) = false /\
    mode s = PgpMode /\ busy s = false /\ opened s = true /\ text s = t /\ keyStatus (key s) = Failed) as (H1 & H2 & H3 & H4 & H5 & H6 & H7 & H8) by (by rewrite Es).
  clearbody s. clear Es. split; [exact H8|]. assert (needs_lookup (key s) b = true) as Hn by (unfold needs_lookup, manualTargetMatch; by rewrite H1, H3).
  assert (toRecipientsForPGP (to (text s)) = [b]) as Hts by (by rewrite H7).
  destruct (run_detect_first s b st st1 (Throw e) (fun _ => None) Hts Hc) as (l' & s1 & _ & Hos & Hes & Hd).
  { intros s' l' _ Hl. unfold contact_answered, current. rewrite Hl, Nat.eqb_refl. cbn [negb]. eexists. by split_and!. }
  rewrite (run_handle_pgp s b st st1 s1 None) by done. rewrite H7.
  assert (route_of (key s) b None = Ok (Route (recipientArmored (key s0)) false None)) as Hr.
  { unfold route_of, manualTargetMatch. rewrite H2, H3. apply String.eqb_neq in Ha. rewrite Ha. cbn. unfold str_or. by rewrite Ha. }
  rewrite (run_direct s b _ None st1 s1 st2 _ i q _ Hr Hi Hq Hp).
  destruct (sent_id id) as [text Htext]. rewrite (run_after s (Route (recipientArmored (key s0)) false None) _ st2 st2 s1 text Htext eq_refl).
  eexists. split; [reflexivity|]. by split.
Qed.

(** C8: a message that is sent at once is sent under the key of the recipient before, and the
    address book learns it: when a key shown was looked up (not entered by hand) for one
    address, another single recipient is typed whose key the server does not keep locally,
    the box that saves to the address book is on, and the button is pressed before the key
    is looked up, then, nothing else failing, the lookup of the send finds the right key in
    the address book, but the message is encrypted with the old one, and the server is asked to keep that as the trusted key of
    the new recipient. *)
Theorem quick_send_keeps_old_key s b mt hit k' st st1 st2 st3 saved i q id :
  recipientMeta (key s) = Some mt -> m_email mt <> b -> recipientArmored (key s) <> "" -> manualKeyOverride (key s) = false ->
  mode s = PgpMode -> busy s = false -> opened s = true -> saveToAddressBook s = true -> toRecipientsForPGP (to (text s)) = [b] -> b <> "" ->
  run srv st (getContactKey origin b) = (st1, Ok hit) -> hit_of hit = Some k' -> is_local (prop hit "source") = false -> truthy (prop hit "source") = true ->
  sender identities s = Ok i ->
  let route := Route (recipientArmored (key s)) false (Some (b, (recipientArmored (key s), prop hit "source"))) in
  encrypted loaded dr (direct_of s b (htmlToPlainText DOMParser (body (text s))) i.1 i.2 route) = Ok q ->
  run srv st1 (post origin q) = (st2, Ok (JObj [("id", JStr id)])) ->
  run srv st2 (putContactKey origin (JStr b) (JStr (recipientArmored (key s))) (prop hit "source") (JBool true)) = (st3, saved) ->
  exists s', run srv st (send s) = (st3, Ok (s', Ok tt)) /\ opened s' = false /\ err s' = "".
Proof.
  intros Hm Hne Ha Hman Hmode Hbusy Ho Hsave Ht Hb Hc Hh Hloc Htr Hi route Hq Hp Hput. apply String.eqb_neq in Ha, Hne, Hb.
  assert (needs_lookup (key s) b = true) as Hn by (unfold needs_lookup, manualTargetMatch; by rewrite Hm, Hman, Hne).
  set (m := fun l => Some (Meta (prop hit "source") (prop hit "fingerprint") (l_target l) k')).
  destruct (run_detect_first s b st st1 (Ok hit) m Ht Hc) as (l & s1 & Hl & Hos & Hes & Hd).
  { intros s' l _ Hl. unfold contact_answered, current. rewrite Hl, Nat.eqb_refl, Hh. cbn [negb]. unfold lookup_found, m. cbn [l_target l_contact]. unfold js_or. rewrite Htr.
    eexists. by split_and!. }
  rewrite (run_handle_pgp s b st st1 s1 (m l)) by done. unfold m. rewrite Hl.
  assert (route_of (key s) b (Some (Meta (prop hit "source") (prop hit "fingerprint") b k')) = Ok route) as Hr.
  { unfold route_of, manualTargetMatch. rewrite Hman, Ha. cbn [andb negb m_source m_email]. rewrite Hloc, Hb. cbn [andb]. unfold str_or. by rewrite Ha. }
  rewrite (run_direct s b _ _ st1 s1 st2 route i q _ Hr Hi Hq Hp).
  destruct (sent_id id) as [text Htext]. rewrite (run_after s route _ st2 st3 s1 text Htext).
  - eexists. split; [reflexivity|]. by split.
  - unfold save_contact, route. cbn [r_entry]. rewrite Hsave, Hb. cbn [andb negb]. rewrite run_hcatch. unfold route in *. 
    destruct saved as [v|e].
    + by erewrite run_hbind by (apply run_await, Hput).
    + by erewrite run_hbind_throw by (apply run_await_res, Hput).
Qed.

(** The button that says it is done makes another link. *)
Lemma done_makes_another_link s r0 q st st1 r : mode s = LinkMode -> busy s = false -> linkResult (link s) = Some r0 ->
  let p := htmlToPlainText DOMParser (body (text s)) in
  link_checks s p = Ok tt -> link_request_of keygen dr s p = Ok q -> run srv st (createProtectedLink origin (link_json q)) = (st1, Ok r) ->
  exists s', run srv st (send s) = (st1, Ok (s', Ok tt)) /\ opened s' = opened s /\ linkResult (link s') = Some r.
Proof.
  intros Hm Hb _ p Hc Hq Hr. unfold handleSend. rewrite Hb. erewrite run_hbind by reflexivity. erewrite run_hbind by reflexivity. cbv zeta. rewrite Hm.
  rewrite run_hfinally, run_hcatch. fold p. unfold send_link. erewrite run_hbind by (by rewrite run_of_res, Hc). erewrite run_hbind by (by rewrite run_of_res, Hq).
  erewrite run_hbind by (by apply run_await). erewrite run_hbind by reflexivity. eexists. by split_and!.
Qed.
End Server.
End Sent.

(** ** Witnesses *)

Section Samples.
Definition sample_origin : string := "https://mail.example".
Local Instance sample_vault : Vault := {|
  ensureIdentityUnlockedByEmail _ := Throw "account locked";
  encryptAndSignToRecipient pub t _ := Ok ("for " +:+ pub +:+ ": " +:+ t);
  encryptToRecipient pub t := Ok ("for " +:+ pub +:+ ": " +:+ t);
|}.
Local Existing Instance toy_crypto.
Definition sample_draws : draws := Draws (Host "0a1b" "2c3d" "1700000000000" "now") (Host "4e5f" "6071" "1700000000000" "now") "mmmmmmmmmmmmmmmm" "nonce-nonce1" "0123456789abcdef" "nonce-nonce2".
Definition sample_identities : list jsval :=
  [JObj [("email", JStr "me@x.org"); ("armored_public", JStr "MY KEY"); ("fingerprint", JStr "0F0F")]].
Definition sample_text (recipient : string) : draft := Draft "me@x.org" recipient "" "" false "" "" "Lunch" "At noon?".
Definition sample_hit (k : string) : jsval := JObj [("armored_public", JStr k); ("source", JStr "wkd"); ("fingerprint", JStr "ABCD")].
(** A server whose directory is down or knows every key, and that accepts everything. *)
Definition sample_server (up : bool) (_ : unit) (rq : request) : unit * option response :=
  (tt, if includes (rq_url rq) "/keys/contacts/" then (if up then Some (Response 200 (Some (sample_hit "KEY OF BOB")) "") else None)
       else Some (Response 200 (Some (JObj [("id", JStr "0123456789")])) "")).
Local Abbreviation sample_send s := (handleSend None sample_origin true true sample_identities sample_draws s s).

(** Ann is typed, and her key found. *)
Definition typed : machine := with_win (set_open true (set_text (sample_text "Ann <ann@x.org>") (mounted "me@x.org"))) (start "me@x.org").
Definition waiting : machine := Machine (key_effect (win typed)).1 (key_effect (win typed)).2 (lookups typed) (uploads typed) (known typed).
Definition asked : machine := begin_in false (win typed) None waiting.
Definition sample_lookup : lookup := Lookup 1 "ann@x.org" false false None.
Definition ready : machine := answer_in sample_lookup (Ok (sample_hit "KEY OF ANN")) asked.
Lemma ready_reached : rtc step (start "me@x.org") ready.
Proof.
  eapply rtc_l; [by apply (step_other (start "me@x.org") (win typed))|]. eapply rtc_l; [apply (step_effect typed)|].
  eapply rtc_l; [by apply (step_fire waiting (win typed))|]. apply rtc_once, step_answer. vm_compute. left.
Qed.

Lemma closed_window_forgets_witness :
  key (win asked) <> no_key /\ key (key_effect (open_effect JNull "me@x.org" (set_open false (win asked)))).1 = no_key.
Proof.
  split; [intros E; apply (f_equal keyStatus) in E; vm_compute in E; discriminate E|]. refine (proj1 (closed_window_forgets "me@x.org" (with_win (set_open false (win asked)) asked) JNull _ eq_refl)).
  eapply rtc_l; [by apply (step_other (start "me@x.org") (win typed))|]. eapply rtc_l; [apply (step_effect typed)|].
  eapply rtc_l; [by apply (step_fire waiting (win typed))|]. apply rtc_once. by apply (step_other asked).
Defined.

Lemma shown_key_is_used_witness : exists tr out, runs (sample_send (win ready)) tr out /\ tr <> [] /\
  exists d, d_recipient d = "ann@x.org" /\ ("ann@x.org", d_recipientArmored d) ∈ known ready.
Proof.
  destruct (run_runs (sample_server true) (sample_send (win ready)) tt) as [tr Hr].
  assert (tr <> []) as Hne.
  { intros ->. assert ((run (sample_server true) tt (sample_send (win ready))).2 = Ok (set_open false (set_busy false (onToast ("Queued signed PGP message " +:+ String (ascii_of_N 183) "" +:+ " outbox 01234567")
      (set_err "" (win ready)))), Ok tt)) as E by (vm_compute; reflexivity). rewrite E in Hr. vm_compute in Hr. inversion Hr. }
  exists tr, (run (sample_server true) tt (sample_send (win ready))).2. split; [exact Hr|]. split; [exact Hne|].
  destruct (shown_key_is_used None sample_origin true true sample_identities sample_draws "me@x.org" ready "ann@x.org" tr _ ready_reached
    eq_refl eq_refl eq_refl ltac:(vm_compute; reflexivity) ltac:(vm_compute; reflexivity) Hr) as [Ht|(d & q & t1 & t2 & a & Hd & Hk & _)]; [by destruct Hne|]. exists d. split; [exact Hd | exact Hk].
Defined.

(** A link to Ann; with the server of the samples it is made. *)
Definition linking : window :=
  set_link (LinkPanel "correct horse battery" "correct horse battery" 86400 3 false None)
    (set_mode LinkMode (set_open true (set_text (Draft "me@x.org" "Ann <ann@x.org>" "" "" false "" "" "Lunch" "At noon?") (mounted "me@x.org")))).
Lemma send_settles_witness :
  (exists s, (run (sample_server true) tt (sample_send (win ready))).2 = Ok (s, Ok tt) /\ busy s = false) /\
  (exists s q, (run (sample_server true) tt (sample_send linking)).2 = Ok (s, Ok tt) /\ opened s = true /\
     lr_recipient_emails q = ["ann@x.org"] /\ linkResult (link s) = Some (JObj [("id", JStr "0123456789")])).
Proof.
  split.
  - destruct (run_runs (sample_server true) (sample_send (win ready)) tt) as [tr Hr].
    destruct (send_settles None sample_origin true true sample_identities sample_draws (win ready) tr _ eq_refl eq_refl Hr) as (s & Hs & Hb & _).
    exists s. split; [exact Hs | exact Hb].
  - destruct (run_runs (sample_server true) (sample_send linking) tt) as [tr Hr].
    destruct (send_settles None sample_origin true true sample_identities sample_draws linking tr _ eq_refl eq_refl Hr) as (s & Hs & _ & _ & He).
    assert (opened s = true /\ err s = "" /\ linkResult (link s) = Some (JObj [("id", JStr "0123456789")])) as (Ho & Hn & Hl).
    { set (f := fun r : res (window * res unit) => match r with Ok (s, _) => Some (opened s, err s, linkResult (link s)) | Throw _ => None end).
      assert (f (Ok (s, Ok tt)) = Some (true, "", Some (JObj [("id", JStr "0123456789")]))) as E by (rewrite <- Hs; vm_compute; reflexivity).
      by injection E. }
    destruct (He Ho) as [Hx|(_ & _ & _ & _ & q & answer & Hq & _ & _)]; [by rewrite Hn in Hx|].
    exists s, q. split; [exact Hs|]. split; [exact Ho|]. split; [|exact Hl].
    set (f := fun r : res link_request => match r with Ok q => Some (lr_recipient_emails q) | Throw _ => None end).
    assert (f (Ok q) = Some ["ann@x.org"]) as E by (rewrite <- Hq; vm_compute; reflexivity). by injection E.
Defined.

Definition sample_route : route := Route "KEY OF ANN" false None.
Lemma failed_lookup_uses_old_key_witness : exists s', 
  let s := (contact_answered (Lookup 2 "bob@x.org" false false None) (Throw "keys lookup 503") (begin_lookup false (set_text (sample_text "bob@x.org") (win ready)) (set_text (sample_text "bob@x.org") (win ready))).1).1 in
  run (sample_server false) tt (sample_send s) = (tt, Ok (s', Ok tt)) /\ opened s' = false /\ ~ ("bob@x.org", "KEY OF ANN") ∈ known ready.
Proof.
  destruct (failed_lookup_uses_old_key None sample_origin true true sample_identities sample_draws (sample_server false) (win ready) (sample_text "bob@x.org") "bob@x.org"
    (Meta (JStr "wkd") (JStr "ABCD") "ann@x.org" "KEY OF ANN") "keys lookup 503"
    (begin_lookup false (set_text (sample_text "bob@x.org") (win ready)) (set_text (sample_text "bob@x.org") (win ready))).1 (Lookup 2 "bob@x.org" false false None) tt tt tt "Failed to fetch" ("MY KEY", "0F0F") 
    (match encrypted true sample_draws (direct_of (set_text (sample_text "bob@x.org") (win ready)) "bob@x.org" "At noon?" "MY KEY" "0F0F" sample_route) with Ok q => q | Throw _ => Compose.Outbox "" [] "" "" "" end)
    "0123456789") as [_ (s' & Hs & Ho & _)]; try (vm_compute; reflexivity); [intros E; vm_compute in E; discriminate E|].
  exists s'. split; [exact Hs|]. split; [exact Ho|]. vm_compute. intros Hin. apply list_elem_of_singleton in Hin. discriminate Hin.
Defined.

Lemma quick_send_keeps_old_key_witness : exists s',
  run (sample_server true) tt (sample_send (set_text (sample_text "bob@x.org") (win ready))) = (tt, Ok (s', Ok tt)) /\ opened s' = false /\
  recipientArmored (key (win ready)) = "KEY OF ANN".
Proof.
  destruct (quick_send_keeps_old_key None sample_origin true true sample_identities sample_draws (sample_server true) (set_text (sample_text "bob@x.org") (win ready)) "bob@x.org"
    (Meta (JStr "wkd") (JStr "ABCD") "ann@x.org" "KEY OF ANN") (sample_hit "KEY OF BOB") "KEY OF BOB" tt tt tt tt (Ok (JObj [("id", JStr "0123456789")])) ("MY KEY", "0F0F")
    (match encrypted true sample_draws (direct_of (set_text (sample_text "bob@x.org") (win ready)) "bob@x.org" "At noon?" "MY KEY" "0F0F" sample_route) with Ok q => q | Throw _ => Compose.Outbox "" [] "" "" "" end)
    "0123456789") as (s' & Hs & Ho & _); try (vm_compute; reflexivity); [intros E; vm_compute in E; discriminate E.. |].
  exists s'. split; [exact Hs|]. split; [exact Ho | reflexivity].
Defined.
End Samples.
