(* ===== verification/Idb.v ===== *)
(** * IndexedDB

    What the client uses of IndexedDB ([static/mail/search/db.js]) and of values
    sealed with AES-GCM ([static/mail/search/key.js]), in a monad over the state of
    a script and the database.

    A transaction is live while its own requests are being answered.  When the
    script awaits something else, the browser has nothing left to do for the
    transaction and commits it: a later request on it is refused with
    [TransactionInactiveError].  WebCrypto answers from another task, so awaiting
    it ends the transaction.  Requests on a live transaction succeed. *)
From Stdlib Require Import ZArith Lia Ascii.
From stdpp Require Import gmap strings.
From S2P Require Import Prelude JsString JsValue Base64 Text Json VaultStore Signature KeyVault Keygen.

(** ** Promises *)

(** How a promise settles; [Forever]: it does not. *)
Inductive promise (A : Type) : Type :=
| Resolved (a : A)
| Rejected (msg : string)
| Forever.
Arguments Resolved {A} a.
Arguments Rejected {A} msg.
Arguments Forever {A}.

(** ** The database *)

Abbreviation store := (gmap string jsval).
Abbreviation database := (gmap string store).

Record tx := Tx { tx_stores : list string; tx_write : bool; tx_live : bool }.

(** [w_draws]: how many random values were drawn so far. *)
Record world := World { w_db : database; w_tx : option tx; w_draws : nat }.

Definition set_tx (t : option tx) (w : world) : world := World (w_db w) t (w_draws w).
Definition set_db (d : database) (w : world) : world := World d (w_tx w) (w_draws w).

Definition io (S A : Type) : Type := S * world -> promise A * (S * world).

Section Monad.
Context {S : Type}.
Definition ret {A} (a : A) : io S A := fun s => (Resolved a, s).
Definition reject {A} (m : string) : io S A := fun s => (Rejected m, s).
Definition forever {A} : io S A := fun s => (Forever, s).
Definition io_bind {A B} (m : io S A) (k : A -> io S B) : io S B := fun s =>
  match m s with
  | (Resolved a, s) => k a s
  | (Rejected e, s) => (Rejected e, s)
  | (Forever, s) => (Forever, s)
  end.
(** [.catch(() => v)] *)
Definition or_else {A} (m : io S A) (v : A) : io S A := fun s =>
  match m s with (Rejected _, s) => (Resolved v, s) | r => r end.
Definition get_state : io S S := fun s => (Resolved s.1, s).
Definition put_state (x : S) : io S unit := fun s => (Resolved tt, (x, s.2)).
Definition of_res {A} (m : res A) : io S A := match m with Ok a => ret a | Throw e => reject e end.
End Monad.
Notation "x <-- m ;; k" := (io_bind m (fun x => k))
  (at level 100, m at next level, right associativity) : js_scope.

Fixpoint for_each {S A} (l : list A) (f : A -> io S unit) : io S unit :=
  match l with [] => ret tt | a :: l => _ <-- f a ;; for_each l f end.

(** ** [db.js] *)

Definition STORE_META : string := "meta".
Definition STORE_HEADERS : string := "headers".
Definition STORE_TERMS : string := "terms".
Definition STORE_DOCS : string := "docs".
Definition STORE_MAIL_META : string := "mail_meta".
Definition STORE_MAIL_HEADERS : string := "mail_headers".
Definition STORE_MAIL_ENVELOPES : string := "mail_envelopes".
Definition ALL_STORES : list string :=
  [STORE_META; STORE_HEADERS; STORE_TERMS; STORE_DOCS; STORE_MAIL_META; STORE_MAIL_HEADERS; STORE_MAIL_ENVELOPES].

(** The stores that are missing are created when the version is upgraded. *)
Definition create_missing (d : database) (name : string) : database :=
  match d !! name with Some _ => d | None => <[name := (∅ : store)]> d end.

Section Db.
Context {S : Type}.
Local Abbreviation io := (io S).

Definition openDB : io unit := fun s =>
  (Resolved tt, (s.1, set_db (fold_left create_missing ALL_STORES (w_db s.2)) s.2)).

(** [db.transaction(stores, mode)] *)
Definition transaction (stores : list string) (write : bool) : io unit := fun s =>
  if forallb (fun n => match w_db s.2 !! n with Some _ => true | None => false end) stores
  then (Resolved tt, (s.1, set_tx (Some (Tx stores write true)) s.2))
  else (Rejected "NotFoundError", s).

(** A request on a store of the current transaction. *)
Definition on_store {A} (name : string) (write : bool) (k : store -> A * store) : io A := fun s =>
  match w_tx s.2 with
  | Some t =>
      if negb (str_mem name (tx_stores t)) then (Rejected "NotFoundError", s)
      else if negb (tx_live t) then (Rejected "TransactionInactiveError", s)
      else if write && negb (tx_write t) then (Rejected "ReadOnlyError", s)
      else match w_db s.2 !! name with
           | Some st => let '(a, st') := k st in
               (Resolved a, (s.1, if write then set_db (<[name := st']> (w_db s.2)) s.2 else s.2))
           | None => (Rejected "NotFoundError", s)
           end
  | None => (Rejected "InvalidStateError", s)
  end.

(** [undefined] when the key is missing. *)
Definition get (name key : string) : io jsval := on_store name false (fun st => (default JUndef (st !! key), st)).
Definition put (name key : string) (value : jsval) : io unit := on_store name true (fun st => (tt, <[key := value]> st)).
Definition del (name key : string) : io unit := on_store name true (fun st => (tt, delete key st)).
Definition clear (name : string) : io unit := on_store name true (fun _ => (tt, ∅)).
Definition count (name : string) : io nat := on_store name false (fun st => (size st, st)).

(** Awaiting the completion of the transaction; after it, no event comes. *)
Definition complete : io unit := fun s =>
  match w_tx s.2 with
  | Some t => if tx_live t then (Resolved tt, (s.1, set_tx (Some (Tx (tx_stores t) (tx_write t) false)) s.2)) else (Forever, s)
  | None => (Forever, s)
  end.

Definition clearAll : io unit :=
  _ <-- transaction [STORE_META; STORE_HEADERS; STORE_TERMS; STORE_DOCS] true ;;
  _ <-- clear STORE_META ;; _ <-- clear STORE_HEADERS ;; _ <-- clear STORE_TERMS ;; _ <-- clear STORE_DOCS ;;
  complete.

(** Awaiting WebCrypto. *)
Definition end_tx (w : world) : world :=
  match w_tx w with Some t => set_tx (Some (Tx (tx_stores t) (tx_write t) false)) w | None => w end.
Definition crypto {A} (m : res A) : io A := fun s => of_res m (s.1, end_tx s.2).
End Db.

(** ** [key.js] *)

Section Keys.
Context `{WebCrypto} {S : Type}.
(** [subtle.deriveKey] for HKDF with SHA-256: seed, salt, info. *)
Variable hkdf : string -> string -> string -> res aeskey.
(** The 12 bytes of the n-th draw. *)
Variable random_nonce : nat -> string.
Local Abbreviation io := (io S).

Definition SALT_V1 : string := utf8 "elvish-search-v1".
Definition INFO : string := utf8 "search".

(** An argument that is a byte array, or something else. *)
Inductive buffer := Bytes (b : string) | Other (v : jsval).

(** [x instanceof Uint8Array ? x : encode(String(x || ''))] *)
Definition to_bytes (x : buffer) : string :=
  match x with Bytes b => b | Other v => utf8 (js_String (js_or v (JStr ""))) end.

Definition deriveScopedKey (seedBytes saltBytes infoBytes : buffer) : io aeskey :=
  match seedBytes with
  | Bytes seed =>
      if seed =s? "" then reject "search/key: empty seed"
      else crypto (hkdf seed (to_bytes saltBytes) (to_bytes infoBytes))
  | Other _ => reject "search/key: empty seed"
  end.

Definition deriveIndexKey (identitySearchSeed : buffer) : io aeskey := deriveScopedKey identitySearchSeed (Bytes SALT_V1) (Bytes INFO).
Definition deriveScopedKeyFromLabel (seedBytes label : buffer) : io aeskey :=
  let labelBytes := Bytes (to_bytes label) in deriveScopedKey seedBytes labelBytes labelBytes.

Definition b64encode (bytes : string) : string := btoa bytes.
Definition b64decode (str : string) : res string := atob str.

Definition draw : io string := fun s =>
  (Resolved (random_nonce (w_draws s.2)), (s.1, World (w_db s.2) (w_tx s.2) (Datatypes.S (w_draws s.2)))).

Definition sealJSON (key : aeskey) (value : jsval) : io jsval :=
  nonce <-- draw ;;
  let plaintext := utf8 (stringify value) in
  ct <-- crypto (Ok (gcm_encrypt key nonce plaintext)) ;;
  ret (JObj [("nonce_b64", JStr (b64encode nonce)); ("ciphertext_b64", JStr (b64encode ct))]).

Definition openJSON (key : aeskey) (envelope : jsval) : io jsval :=
  match envelope with
  | JObj fs =>
      match field "nonce_b64" fs, field "ciphertext_b64" fs with
      | JStr n, JStr c =>
          nonce <-- of_res (b64decode n) ;;
          ct <-- of_res (b64decode c) ;;
          pt <-- crypto (gcm_decrypt key nonce ct) ;;
          of_res (res_of_option "SyntaxError" (Json.parse (Text.decodeText pt)))
      | _, _ => ret JNull
      end
  | _ => ret JNull
  end.
End Keys.

(** ** Lemmas *)

Section Facts.
Context {S : Type}.

(** The database has the stores [names]. *)
Definition has_stores (names : list string) (d : database) : Prop := Forall (fun n => is_Some (d !! n)) names.

Lemma has_stores_forallb names d :
  has_stores names d -> forallb (fun n => match d !! n with Some _ => true | None => false end) names = true.
Proof. intros H. apply forallb_forall. intros n Hn%list_elem_of_In. by destruct (proj1 (Forall_forall _ _) H n Hn) as [st ->]. Qed.

Lemma create_missing_keeps d n m : is_Some (d !! m) -> is_Some (create_missing d n !! m).
Proof.
  intros Hm. unfold create_missing. destruct (d !! n) eqn:E; [done|]. destruct (decide (n = m)) as [->|Hne].
  - rewrite lookup_insert_eq. eauto.
  - by rewrite lookup_insert_ne.
Qed.
Lemma create_missing_creates d n : is_Some (create_missing d n !! n).
Proof. unfold create_missing. destruct (d !! n) eqn:E; [rewrite E; eauto | rewrite lookup_insert_eq; eauto]. Qed.
Lemma create_missing_value d n m st : d !! m = Some st -> create_missing d n !! m = Some st.
Proof.
  intros Hm. unfold create_missing. destruct (d !! n) eqn:E; [done|].
  rewrite lookup_insert_ne; [done|]. intros ->. congruence.
Qed.
Lemma fold_create_keeps names d m : is_Some (d !! m) -> is_Some (fold_left create_missing names d !! m).
Proof. revert d. induction names as [|n names IH]; intros d Hm; [done|]. apply IH. by apply create_missing_keeps. Qed.
Lemma opened_has_stores names d : has_stores names (fold_left create_missing names d).
Proof.
  revert d. induction names as [|n names IH]; intros d; [constructor|]. constructor.
  - cbn [fold_left]. apply fold_create_keeps, create_missing_creates.
  - apply IH.
Qed.
Lemma opened_keeps names d m st : d !! m = Some st -> fold_left create_missing names d !! m = Some st.
Proof. revert d. induction names as [|n names IH]; intros d Hm; [done|]. cbn. by apply IH, create_missing_value. Qed.

Lemma opened_same names d : has_stores names d -> fold_left create_missing names d = d.
Proof.
  revert d. induction names as [|n names IH]; intros d Hs; [done|]. apply Forall_cons in Hs as [[st Hn] Hs]. cbn [fold_left].
  assert (create_missing d n = d) as -> by (unfold create_missing; by rewrite Hn). by apply IH.
Qed.

(** Requests on a live transaction. *)
Lemma transaction_run names write (s : S) w :
  has_stores names (w_db w) -> transaction names write (s, w) = (Resolved tt, (s, set_tx (Some (Tx names write true)) w)).
Proof. intros Hn. unfold transaction. cbn [snd fst]. by rewrite has_stores_forallb. Qed.
Lemma get_run name names write key (s : S) d n st :
  str_mem name names = true -> d !! name = Some st ->
  get name key (s, World d (Some (Tx names write true)) n) = (Resolved (default JUndef (st !! key)), (s, World d (Some (Tx names write true)) n)).
Proof. intros Hm Hst. unfold get, on_store. cbn [snd fst w_tx w_db tx_stores tx_live tx_write]. rewrite Hm, Hst. done. Qed.
Lemma put_run name names key value (s : S) d n st :
  str_mem name names = true -> d !! name = Some st ->
  put name key value (s, World d (Some (Tx names true true)) n) =
  (Resolved tt, (s, World (<[name := <[key := value]> st]> d) (Some (Tx names true true)) n)).
Proof. intros Hm Hst. unfold put, on_store. cbn [snd fst w_tx w_db tx_stores tx_live tx_write]. rewrite Hm, Hst. done. Qed.

(** Once the transaction has ended, every request on it is refused. *)
Lemma put_refused name key value (s : S) w t :
  w_tx w = Some t -> tx_live t = false -> exists m, put name key value (s, w) = (Rejected m, (s, w)).
Proof. intros Ht Hl. unfold put, on_store. cbn [snd]. rewrite Ht, Hl. cbn [negb]. destruct (str_mem _ _); cbn [negb]; eauto. Qed.

Lemma end_tx_db w : w_db (end_tx w) = w_db w.
Proof. unfold end_tx. by destruct (w_tx w). Qed.
Lemma end_tx_draws w : w_draws (end_tx w) = w_draws w.
Proof. unfold end_tx. by destruct (w_tx w). Qed.
Lemma end_tx_dead w t : w_tx (end_tx w) = Some t -> tx_live t = false.
Proof. unfold end_tx. destruct (w_tx w) eqn:E; cbn; [by intros [= <-] | congruence]. Qed.
End Facts.

(** Sealing, then opening. *)
Section Sealed.
Context `{WebCrypto} {S : Type}.
Variable random_nonce : nat -> string.

(** The envelope of a value, under the nonce of a draw. *)
Definition envelope (key : aeskey) (nonce : string) (value : jsval) : jsval :=
  JObj [("nonce_b64", JStr (b64encode nonce)); ("ciphertext_b64", JStr (b64encode (gcm_encrypt key nonce (utf8 (stringify value)))))].

Lemma sealJSON_run key value (s : S) w :
  sealJSON random_nonce key value (s, w) =
  (Resolved (envelope key (random_nonce (w_draws w)) value), (s, end_tx (World (w_db w) (w_tx w) (Datatypes.S (w_draws w))))).
Proof. done. Qed.

Lemma openJSON_run key nonce value (s : S) w :
  printable value = true -> openJSON key (envelope key nonce value) (s, w) = (Resolved value, (s, end_tx w)).
Proof.
  intros Hp. unfold openJSON, envelope, b64decode, b64encode.
  rewrite field_app_l, field_app_r by done. rewrite field_app_l. unfold io_bind, crypto. rewrite !atob_btoa. cbn [of_res ret].
  rewrite gcm_open_seal. cbn [of_res ret fst snd]. rewrite decodeText_utf8, parse_stringify by done. done.
Qed.
End Sealed.
