(* ===== verification/MailCache.v ===== *)
(** * The mail cache ([static/mail/mail-cache.js])

    Headers and envelopes of messages kept in IndexedDB, sealed under a key that
    is derived from the unlocked account.  Every method awaits the sealing before
    it opens a transaction. *)
From Stdlib Require Import ZArith Lia Ascii.
From stdpp Require Import gmap strings.
From S2P Require Import Prelude JsString JsValue Base64 Text Json VaultStore Signature KeyVault Keygen JsDate Idb.

Definition META_KEY : string := "v1".
Definition CACHE_LABEL : string := "elvish-mail-cache-v1".

Section MailCache.
Context `{WebCrypto}.
Variable hkdf : string -> string -> string -> res aeskey.
Variable random_nonce : nat -> string.

(** The fields of the one instance; a database that was opened is [true]. *)
Record cache := Cache { db : bool; cacheKey : option aeskey; accountFingerprint : string }.
Definition empty_cache : cache := Cache false None "".

Local Abbreviation io := (io cache).

Definition clearStores : io unit :=
  this <-- get_state ;;
  if negb (db this) then ret tt
  else
    _ <-- transaction [STORE_MAIL_META; STORE_MAIL_HEADERS; STORE_MAIL_ENVELOPES] true ;;
    _ <-- clear STORE_MAIL_META ;; _ <-- clear STORE_MAIL_HEADERS ;; _ <-- clear STORE_MAIL_ENVELOPES ;;
    complete.

(** [now]: [Date.now()]. *)
Definition ensureMeta (now : Z) : io unit :=
  this <-- get_state ;;
  match db this, cacheKey this with
  | true, Some key =>
      _ <-- transaction [STORE_MAIL_META] false ;;
      existingEnv <-- Idb.get STORE_MAIL_META META_KEY ;;
      existing <-- (if truthy existingEnv then or_else (openJSON key existingEnv) JNull else ret JNull) ;;
      fp <-- of_res (if truthy existing then getp existing "account_fingerprint" else Ok existing) ;;
      _ <-- (if truthy fp && negb (match fp with JStr s => s =s? accountFingerprint this | _ => false end)
             then clearStores else ret tt) ;;
      sealed <-- sealJSON random_nonce key
        (JObj [("schema_version", JNum 1); ("account_fingerprint", JStr (accountFingerprint this)); ("updated_at", JStr (toISOString now))]) ;;
      _ <-- transaction [STORE_MAIL_META] true ;;
      _ <-- put STORE_MAIL_META META_KEY sealed ;;
      complete
  | _, _ => ret tt
  end.

(** [mailCacheSeed]: [None] when it is not a byte array. *)
Definition start (now : Z) (accountFp : jsval) (mailCacheSeed : option string) : io unit :=
  match mailCacheSeed with
  | Some seed =>
      if seed =s? "" then reject "mail cache requires mailCacheSeed"
      else
        _ <-- openDB ;;
        this <-- get_state ;;
        _ <-- put_state (Cache true (cacheKey this) (accountFingerprint this)) ;;
        key <-- deriveScopedKeyFromLabel hkdf (Bytes seed) (Other (JStr CACHE_LABEL)) ;;
        let fp := to_upper (trim (js_String (js_or accountFp (JStr "")))) in
        _ <-- put_state (Cache true (Some key) fp) ;;
        ensureMeta now
  | None => reject "mail cache requires mailCacheSeed"
  end.

Definition purge : io unit :=
  this <-- get_state ;;
  _ <-- (if negb (db this) then
           _ <-- openDB ;; put_state (Cache true (cacheKey this) (accountFingerprint this))
         else ret tt) ;;
  clearStores.

(** The envelopes of the messages that have one, in order. *)
Fixpoint read_entries (messageIDs : list jsval) : io (list (string * jsval)) :=
  match messageIDs with
  | [] => ret []
  | messageID :: rest =>
      let key := trim (js_String (js_or messageID (JStr ""))) in
      if key =s? "" then read_entries rest
      else
        env <-- Idb.get STORE_MAIL_HEADERS key ;;
        entries <-- read_entries rest ;;
        ret (if truthy env then (key, env) :: entries else entries)
  end.

(** [out[key] = opened] for those that open. *)
Fixpoint open_entries (key : aeskey) (out : list (string * jsval)) (entries : list (string * jsval)) : io (list (string * jsval)) :=
  match entries with
  | [] => ret out
  | (k, env) :: rest =>
      opened <-- or_else (openJSON key env) JNull ;;
      open_entries key (if truthy opened then put_field k opened out else out) rest
  end.

Definition getHeaders (messageIDs : jsval) : io jsval :=
  this <-- get_state ;;
  match db this, cacheKey this, messageIDs with
  | true, Some key, JArr ((_ :: _) as ids) =>
      _ <-- transaction [STORE_MAIL_HEADERS] false ;;
      entries <-- read_entries ids ;;
      out <-- open_entries key [] entries ;;
      ret (JObj out)
  | _, _, _ => ret (JObj [])
  end.

(** The sealed record of [putHeader] and [putEnvelope]. *)
Definition versioned (now : Z) (version payload : jsval) : jsval :=
  JObj [("version", JStr (js_String (js_or version (JStr "")))); ("payload", payload); ("cached_at", JStr (toISOString now))].

Definition put_entry (store_name : string) (now : Z) (messageID version payload : jsval) : io unit :=
  this <-- get_state ;;
  match db this, cacheKey this with
  | true, Some key =>
      if negb (truthy messageID) || negb (truthy payload) then ret tt
      else
        sealed <-- sealJSON random_nonce key (versioned now version payload) ;;
        _ <-- transaction [store_name] true ;;
        _ <-- put store_name (js_String messageID) sealed ;;
        complete
  | _, _ => ret tt
  end.
Definition putHeader (now : Z) (messageID version payload : jsval) : io unit := put_entry STORE_MAIL_HEADERS now messageID version payload.
Definition putEnvelope (now : Z) (messageID version payload : jsval) : io unit := put_entry STORE_MAIL_ENVELOPES now messageID version payload.

Definition getEnvelope (messageID : jsval) : io jsval :=
  this <-- get_state ;;
  match db this, cacheKey this with
  | true, Some key =>
      if negb (truthy messageID) then ret JNull
      else
        _ <-- transaction [STORE_MAIL_ENVELOPES] false ;;
        env <-- Idb.get STORE_MAIL_ENVELOPES (js_String messageID) ;;
        if negb (truthy env) then ret JNull else or_else (openJSON key env) JNull
  | _, _ => ret JNull
  end.
End MailCache.

Definition extractVersion (message : jsval) : res string :=
  if negb (truthy message) then Ok ""
  else
    let part k := v <~ getp message k ;; Ok (js_String (js_or v (JStr ""))) in
    parts <~ res_mapM part ["id"; "body_blob_ref"; "body_size_bytes"; "header_ciphertext_b64"] ;;
    Ok (join ":" parts).

Definition unwrapVersionedPayload (entry version : jsval) : res jsval :=
  if negb (truthy entry) then Ok JNull
  else
    v <~ getp entry "version" ;;
    if negb (match v with JStr s => s =s? js_String (js_or version (JStr "")) | _ => false end) then Ok JNull
    else
      payload <~ getp entry "payload" ;;
      if negb (truthy payload) then Ok JNull else Ok payload.

(** ** Lemmas *)

Section Facts.
Context `{WebCrypto}.
Variable random_nonce : nat -> string.

(** The cache is open under a key. *)
Definition ready (c : cache) (key : aeskey) (w : world) : Prop :=
  db c = true /\ cacheKey c = Some key /\ has_stores ALL_STORES (w_db w).

(** One sealed entry is written; nothing else in the database changes. *)
Lemma put_entry_run store_name now messageID version payload c key w st :
  ready c key w -> w_db w !! store_name = Some st -> truthy messageID = true -> truthy payload = true ->
  exists t, put_entry random_nonce store_name now messageID version payload (c, w) =
    (Resolved tt, (c, World (<[store_name := <[js_String messageID := envelope key (random_nonce (w_draws w)) (versioned now version payload)]> st]> (w_db w))
                        t (S (w_draws w)))).
Proof.
  intros (Hdb & Hkey & _) Hst Hid Hp. unfold put_entry, io_bind, get_state. cbn [fst]. rewrite Hdb, Hkey, Hid, Hp. cbn [negb orb].
  rewrite sealJSON_run. rewrite transaction_run.
  2: { rewrite end_tx_db. constructor; [by exists st | constructor]. }
  unfold set_tx. rewrite end_tx_db, end_tx_draws. cbn [w_db w_draws].
  rewrite (put_run _ _ _ _ _ _ _ st); [eexists; reflexivity | apply str_mem_spec; left | exact Hst].
Qed.

Lemma read_one key key' (env : jsval) (c : cache) d n st :
  trim key = key -> key <> "" -> d !! STORE_MAIL_HEADERS = Some st -> st !! key = Some env -> truthy env = true ->
  key' = JStr key ->
  read_entries [key'] (c, World d (Some (Tx [STORE_MAIL_HEADERS] false true)) n) =
    (Resolved [(key, env)], (c, World d (Some (Tx [STORE_MAIL_HEADERS] false true)) n)).
Proof.
  intros Ht Hne Hst Henv Htr ->. cbn [read_entries]. unfold js_or. cbn [truthy].
  rewrite (proj2 (String.eqb_neq _ _) Hne). cbn [negb js_String]. rewrite Ht, (proj2 (String.eqb_neq _ _) Hne).
  unfold io_bind. rewrite (get_run _ _ _ _ _ _ _ st); [|reflexivity|exact Hst]. rewrite Henv. cbn [default from_option id].
  cbn [ret]. by rewrite Htr.
Qed.

Lemma getHeaders_run c key w id nonce entry st :
  ready c key w -> trim id = id -> id <> "" -> w_db w !! STORE_MAIL_HEADERS = Some st ->
  st !! id = Some (envelope key nonce entry) -> printable entry = true -> truthy entry = true ->
  exists w2, getHeaders (JArr [JStr id]) (c, w) = (Resolved (JObj [(id, entry)]), (c, w2)) /\ w_db w2 = w_db w.
Proof.
  intros (Hdb & Hkey & Hall) Ht Hne Hst Henv Hp Htr. unfold getHeaders, io_bind at 1, get_state. cbn [fst]. rewrite Hdb, Hkey.
  unfold io_bind at 1. rewrite transaction_run by (constructor; [by exists st | constructor]). unfold set_tx.
  unfold io_bind at 1. erewrite read_one; [|exact Ht|exact Hne|exact Hst|exact Henv|done|done].
  cbn [open_entries]. unfold io_bind, or_else. rewrite openJSON_run by done. rewrite Htr. cbn [put_field ret].
  eexists. split; [reflexivity|]. by rewrite end_tx_db.
Qed.

Lemma version_string version : js_String (js_or (JStr version) (JStr "")) = version.
Proof. unfold js_or. cbn [truthy]. destruct (version =s? "") eqn:E; [bool_to_prop; by subst | done]. Qed.
Lemma versioned_unwrap now version other payload :
  truthy payload = true ->
  unwrapVersionedPayload (versioned now (JStr version) payload) (JStr other) = Ok (if version =s? other then payload else JNull).
Proof.
  intros Hp. unfold unwrapVersionedPayload, versioned. cbn [truthy negb getp res_bind]. rewrite field_app_l, !version_string.
  destruct (version =s? other); cbn [negb]; [|done]. rewrite field_app_r by done. rewrite field_app_l. cbn [res_bind]. by rewrite Hp.
Qed.

(** ** Properties *)

(** what the cache stores it gives back.  After a header was put under an
    identifier and a version, reading it returns exactly the record of that message,
    whose payload is handed out for this version and withheld for any other; the
    envelopes of the message are untouched. *)
Theorem cached_header_reads_back c key w now id version payload :
  ready c key w -> trim id = id -> id <> "" -> truthy payload = true -> printable payload = true ->
  exists w1 w2 entry,
    putHeader random_nonce now (JStr id) (JStr version) payload (c, w) = (Resolved tt, (c, w1)) /\
    getHeaders (JArr [JStr id]) (c, w1) = (Resolved (JObj [(id, entry)]), (c, w2)) /\
    unwrapVersionedPayload entry (JStr version) = Ok payload /\
    (forall other, other <> version -> unwrapVersionedPayload entry (JStr other) = Ok JNull) /\
    ready c key w2 /\ w_db w2 !! STORE_MAIL_ENVELOPES = w_db w !! STORE_MAIL_ENVELOPES.
Proof.
  intros Hr Ht Hne Hp Hprint. pose proof Hr as (Hdb & Hkey & Hst).
  destruct (proj1 (Forall_forall _ _) Hst STORE_MAIL_HEADERS ltac:(set_solver)) as [st Hs].
  assert (truthy (JStr id) = true) as Hid by (cbn; by rewrite (proj2 (String.eqb_neq _ _) Hne)).
  destruct (put_entry_run STORE_MAIL_HEADERS now (JStr id) (JStr version) payload c key w st Hr Hs Hid Hp) as [t Hput].
  set (entry := versioned now (JStr version) payload) in *. set (w1 := World _ t _) in Hput.
  assert (ready c key w1) as Hr1.
  { split; [done|]. split; [done|]. apply Forall_forall. intros n Hn. cbn [w1 w_db].
    destruct (decide (STORE_MAIL_HEADERS = n)) as [<-|Hd]; [rewrite lookup_insert_eq; by eexists|].
    rewrite lookup_insert_ne by done. by apply (proj1 (Forall_forall _ _) Hst). }
  destruct (getHeaders_run c key w1 id (random_nonce (w_draws w)) entry
    (<[id := envelope key (random_nonce (w_draws w)) entry]> st) Hr1 Ht Hne) as (w2 & Hget & Hdb2).
  - cbn [w1 w_db]. by rewrite lookup_insert_eq.
  - by rewrite lookup_insert_eq.
  - unfold entry, versioned. cbn [printable map fst snd forallb]. by rewrite Hprint.
  - done.
  - exists w1, w2, entry. split; [exact Hput|]. split; [exact Hget|]. unfold entry. rewrite versioned_unwrap, String.eqb_refl by done.
    split; [done|]. split; [intros other Ho; rewrite versioned_unwrap by done; by rewrite (proj2 (String.eqb_neq _ _)) by congruence|].
    split; [split; [done|]; split; [done|]; rewrite Hdb2; apply Hr1|]. rewrite Hdb2. cbn [w1 w_db]. by rewrite lookup_insert_ne.
Qed.

(** Writing the record of the account, when the one in the store does not open. *)
Lemma ensureMeta_other_key now c key w st nonce ct :
  ready c key w -> w_db w !! STORE_MAIL_META = Some st ->
  st !! META_KEY = Some (JObj [("nonce_b64", JStr (b64encode nonce)); ("ciphertext_b64", JStr (b64encode ct))]) ->
  gcm_decrypt key nonce ct = Throw "OperationError" ->
  exists w' env, ensureMeta random_nonce now (c, w) = (Resolved tt, (c, w')) /\
    w_db w' = <[STORE_MAIL_META := <[META_KEY := env]> st]> (w_db w).
Proof.
  intros (Hdb & Hkey & Hall) Hst Hm Hdec. unfold ensureMeta, io_bind at 1, get_state. cbn [fst]. rewrite Hdb, Hkey.
  unfold io_bind at 1. rewrite transaction_run by (constructor; [by exists st | constructor]). unfold set_tx.
  unfold io_bind at 1. rewrite (get_run _ _ _ _ _ _ _ st) by (reflexivity || exact Hst). rewrite Hm. cbn [default from_option id truthy].
  unfold io_bind at 1, or_else, openJSON. rewrite field_app_l, field_app_r by done. rewrite field_app_l.
  unfold io_bind at 1 2 3, b64decode, b64encode. rewrite !atob_btoa. cbn [of_res ret]. unfold crypto. rewrite Hdec.
  cbn [of_res reject fst snd]. unfold io_bind at 1. cbn [of_res ret truthy andb]. unfold io_bind at 1. cbn [ret].
  unfold io_bind at 1. rewrite sealJSON_run. unfold io_bind at 1.
  rewrite transaction_run by (rewrite end_tx_db; constructor; [by exists st | constructor]).
  unfold set_tx. rewrite end_tx_db, end_tx_draws. cbn [w_db w_draws end_tx w_tx].
  unfold io_bind. rewrite (put_run _ _ _ _ _ _ _ st) by (reflexivity || exact Hst).
  do 2 eexists. split; reflexivity.
Qed.

Variable hkdf : string -> string -> string -> res aeskey.

(** A record that does not open under the key of the account cannot show that the
    account changed: the messages of the previous account stay in the database. *)
Theorem account_switch_keeps_messages c w now fp seed key nonce ct st :
  seed <> "" -> hkdf seed (utf8 CACHE_LABEL) (utf8 CACHE_LABEL) = Ok key ->
  has_stores ALL_STORES (w_db w) -> w_db w !! STORE_MAIL_META = Some st ->
  st !! META_KEY = Some (JObj [("nonce_b64", JStr (b64encode nonce)); ("ciphertext_b64", JStr (b64encode ct))]) ->
  gcm_decrypt key nonce ct = Throw "OperationError" ->
  exists c' w', start hkdf random_nonce now fp (Some seed) (c, w) = (Resolved tt, (c', w')) /\
    w_db w' !! STORE_MAIL_HEADERS = w_db w !! STORE_MAIL_HEADERS /\
    w_db w' !! STORE_MAIL_ENVELOPES = w_db w !! STORE_MAIL_ENVELOPES.
Proof.
  intros Hs Hk Hall Hst Hm Hdec. unfold start. rewrite (proj2 (String.eqb_neq _ _) Hs).
  unfold io_bind at 1, openDB. cbn [fst snd]. rewrite opened_same by done. unfold io_bind at 1, get_state. cbn [fst].
  unfold io_bind at 1, put_state at 1. cbn [snd]. unfold io_bind at 1, deriveScopedKeyFromLabel, deriveScopedKey.
  rewrite (proj2 (String.eqb_neq _ _) Hs). change (to_bytes (Bytes (to_bytes (Other (JStr CACHE_LABEL))))) with (utf8 CACHE_LABEL).
  unfold crypto. rewrite Hk. cbn [of_res ret fst snd]. unfold io_bind at 1, put_state. cbn [snd].
  destruct (ensureMeta_other_key now (Cache true (Some key) (to_upper (trim (js_String (js_or fp (JStr ""))))))
    key (end_tx (set_db (w_db w) w)) st nonce ct) as (w' & env & -> & Hdb); try done.
  { split; [done|]. split; [done|]. by rewrite end_tx_db. }
  { by rewrite end_tx_db. }
  do 2 eexists. split; [reflexivity|]. rewrite Hdb, end_tx_db. cbn [set_db w_db]. by rewrite !lookup_insert_ne.
Qed.
End Facts.

(** ** Witnesses *)

Definition toy_world : world := World (fold_left create_missing ALL_STORES ∅) None 0.

Lemma cached_header_reads_back_witness : exists w1 w2 entry,
  putHeader (H := toy_crypto) (fun n => "nonce-nonce-") 0 (JStr "m1") (JStr "v1") (JStr "subject") (Cache true (Some "key") "FP", toy_world) =
    (Resolved tt, (Cache (H := toy_crypto) true (Some "key") "FP", w1)) /\
  getHeaders (H := toy_crypto) (JArr [JStr "m1"]) (Cache true (Some "key") "FP", w1) =
    (Resolved (JObj [("m1", entry)]), (Cache (H := toy_crypto) true (Some "key") "FP", w2)).
Proof.
  destruct (cached_header_reads_back (H := toy_crypto) (fun n => "nonce-nonce-") (Cache (H := toy_crypto) true (Some "key") "FP") "key" toy_world 0 "m1" "v1" (JStr "subject"))
    as (w1 & w2 & entry & H1 & H2 & _); try reflexivity; try discriminate.
  - split; [reflexivity|]. split; [reflexivity|]. apply opened_has_stores.
  - by exists w1, w2, entry.
Defined.
