(* ===== verification/SearchText.v ===== *)
(** * Words of a message ([static/mail/search/tokenize.js])

    Tokens, and the terms of a text with their frequency and positions. *)
From Stdlib Require Import ZArith NArith Lia Ascii.
From stdpp Require Import list.
From S2P Require Import Prelude JsString.

Definition STOP_WORDS : list string :=
  ["a"; "an"; "and"; "are"; "as"; "at"; "be"; "but"; "by"; "for"; "from";
   "has"; "have"; "i"; "if"; "in"; "into"; "is"; "it"; "its"; "me"; "my";
   "no"; "not"; "of"; "on"; "or"; "so"; "that"; "the"; "this"; "to";
   "was"; "we"; "were"; "will"; "with"; "you"; "your"].

(** [[\p{Letter}\p{Number}]] below 256. *)
Definition word_char (c : ascii) : bool :=
  is_alnum c || existsb (fun n => (code c =? n)%N) [170; 178; 179; 181; 185; 186; 188; 189; 190]%N ||
  (in_range 192 255 c && negb (code c =? 215)%N && negb (code c =? 247)%N).

(** A piece of the text as [Intl.Segmenter] cuts it. *)
Record part := Part { segment : string; part_index : nat; isWordLike : bool }.
Definition segmenter := string -> list part.

(** The cached segmenter: not asked for yet ([null]), absent ([false]) or there. *)
Inductive cached_segmenter := NotAsked | Absent | There (s : segmenter).
(** [intl]: what the host offers; a constructor that throws is [Some None]. *)
Definition getSegmenter (intl : option (option segmenter)) (c : cached_segmenter) : option segmenter * cached_segmenter :=
  match c with
  | There s => (Some s, c)
  | Absent => (None, c)
  | NotAsked => match intl with Some (Some s) => (Some s, There s) | _ => (None, Absent) end
  end.

Record token := Token { term : string; position : nat }.

(** The pieces of the fallback expression: the maximal runs of word characters. *)
Fixpoint runs_of (n : nat) (current : string) (start : nat) (s : string) : list part :=
  match s with
  | EmptyString => if current =s? "" then [] else [Part current start true]
  | String c s =>
      if word_char c then runs_of (S n) (current +:+ String c "") (if current =s? "" then n else start) s
      else (if current =s? "" then [] else [Part current start true]) ++ runs_of (S n) "" 0 s
  end.
Definition fallback_segments (text : string) : list part := runs_of 0 "" 0 text.

Definition tokenize (seg : option segmenter) (includeStopWords : bool) (text : string) : list token :=
  let stops := if includeStopWords then [] else STOP_WORDS in
  if text =s? "" then []
  else
    let parts := match seg with Some s => s text | None => fallback_segments text end in
    flat_map (fun p =>
      if negb (isWordLike p) then []
      else
        let w := to_lower (segment p) in
        if (String.length w <? 2)%nat || str_mem w stops then [] else [Token w (part_index p)]) parts.

(** ** Terms *)

Record bucket := Bucket { b_term : string; tf : nat; positions : list nat }.

(** The bucket of a token, found or made, in the order of a Map. *)
Fixpoint add_token (t : token) (map : list bucket) : list bucket :=
  match map with
  | [] => [Bucket (term t) 1 [position t]]
  | b :: map =>
      if b_term b =s? term t
      then Bucket (b_term b) (S (tf b)) (if length (positions b) <? 64 then positions b ++ [position t] else positions b) :: map
      else b :: add_token t map
  end.
Definition uniqueTerms (tokens : list token) : list bucket := fold_left (fun m t => add_token t m) tokens [].

(** ** Lemmas *)

Definition of_term (w : string) (tokens : list token) : list token := List.filter (fun t => term t =s? w) tokens.

(** A bucket after one more token. *)
Definition bump (t : token) (b : bucket) : bucket :=
  Bucket (b_term b) (S (tf b)) (if length (positions b) <? 64 then positions b ++ [position t] else positions b).

Lemma add_token_forall (P : bucket -> Prop) t m :
  NoDup (map b_term m) -> (forall b, b ∈ m -> b_term b <> term t -> P b) ->
  (forall b, b ∈ m -> b_term b = term t -> P (bump t b)) ->
  (term t ∉ map b_term m -> P (Bucket (term t) 1 [position t])) -> Forall P (add_token t m).
Proof.
  induction m as [|b m IH]; cbn [add_token map]; intros Hnd Ho Hb Hn.
  - constructor; [|constructor]. apply Hn. by apply not_elem_of_nil.
  - apply NoDup_cons in Hnd as [Hb' Hnd]. destruct (b_term b =s? term t) eqn:E; bool_to_prop; constructor.
    + apply Hb; [left | done].
    + apply Forall_forall. intros b' Hin. apply Ho; [by right|]. intros Heq. apply Hb'. rewrite E, <- Heq. by apply list_elem_of_fmap_2.
    + apply Ho; [left | done].
    + apply IH; [done|..]; intros; [apply Ho; [by right|done] | apply Hb; [by right|done]|].
      apply Hn. apply not_elem_of_cons. by split; [congruence|].
Qed.

(** What the buckets hold after some tokens. *)
Definition counts (tokens : list token) (m : list bucket) : Prop :=
  NoDup (map b_term m) /\ (forall w, w ∈ map b_term m <-> w ∈ map term tokens) /\
  Forall (fun b => tf b = length (of_term (b_term b) tokens) /\
                   positions b = take 64 (map position (of_term (b_term b) tokens))) m.

Lemma add_token_terms t m : map b_term (add_token t m) = if str_mem (term t) (map b_term m) then map b_term m else map b_term m ++ [term t].
Proof.
  induction m as [|b m IH]; cbn [add_token map]; [done|]. unfold str_mem. fold str_mem.
  destruct (b_term b =s? term t) eqn:E; cbn [orb map b_term]; [done|]. rewrite IH. by destruct (str_mem _ _).
Qed.

Lemma of_term_snoc w tokens t : of_term w (tokens ++ [t]) = of_term w tokens ++ (if term t =s? w then [t] else []).
Proof. unfold of_term. by rewrite List.filter_app. Qed.

Lemma take_snoc_64 {A} (l : list A) x : take 64 (l ++ [x]) = if length (take 64 l) <? 64 then take 64 l ++ [x] else take 64 l.
Proof.
  rewrite length_take. destruct (_ <? _) eqn:E; bool_to_prop.
  - rewrite (take_ge l) by lia. by rewrite take_ge by (rewrite length_app; cbn; lia).
  - by rewrite take_app_le by lia.
Qed.

Lemma of_term_none w tokens : w ∉ map term tokens -> of_term w tokens = [].
Proof.
  unfold of_term. induction tokens as [|t tokens IH]; cbn [map]; [done|]. rewrite not_elem_of_cons. intros [Hw Ht].
  cbn. rewrite (proj2 (String.eqb_neq _ _)) by congruence. auto.
Qed.

Lemma add_token_counts tokens t m : counts tokens m -> counts (tokens ++ [t]) (add_token t m).
Proof.
  intros (Hnd & Hin & Hall). split; [|split].
  - rewrite add_token_terms. destruct (str_mem _ _) eqn:E; [done|]. apply str_mem_false in E.
    apply NoDup_app. split; [done|]. split; [|apply NoDup_singleton]. intros w Hw ->%list_elem_of_singleton. done.
  - intros w. rewrite add_token_terms, map_app, elem_of_app, <- Hin. cbn [map]. destruct (str_mem _ _) eqn:E.
    + apply str_mem_spec in E. rewrite list_elem_of_singleton. split; [by left|]. intros [?| ->]; done.
    + by rewrite elem_of_app.
  - rewrite Forall_forall in Hall. apply add_token_forall; [done|..].
    + intros b Hb Hne. rewrite of_term_snoc, (proj2 (String.eqb_neq _ _)) by congruence. rewrite app_nil_r. by apply Hall.
    + intros b Hb Heq. destruct (Hall b Hb) as [Htf Hpos]. unfold bump. cbn [tf positions b_term].
      rewrite of_term_snoc, Heq, String.eqb_refl, length_app, map_app. rewrite Heq in Htf, Hpos. cbn [length map].
      split; [lia|]. by rewrite take_snoc_64, <- Hpos.
    + intros Hn. cbn [tf positions b_term]. rewrite of_term_snoc, of_term_none, String.eqb_refl; [done|]. by rewrite <- Hin.
Qed.

Lemma uniqueTerms_counts tokens : counts tokens (uniqueTerms tokens).
Proof.
  unfold uniqueTerms. assert (forall past m, counts past m -> counts (past ++ tokens) (fold_left (fun m t => add_token t m) tokens m)) as P.
  { induction tokens as [|t tokens IH]; intros past m Hm; [by rewrite app_nil_r|]. cbn [fold_left].
    rewrite (cons_middle t), app_assoc. apply IH. by apply add_token_counts. }
  apply (P [] []). split_and!; [constructor | set_solver | constructor].
Qed.

(** The distinct words of a list, in the order they first occur. *)
Definition distinct (l : list string) : list string :=
  fold_left (fun acc w => if str_mem w acc then acc else acc ++ [w]) l [].
Lemma uniqueTerms_order tokens : map b_term (uniqueTerms tokens) = distinct (map term tokens).
Proof.
  unfold uniqueTerms, distinct. assert (forall m, map b_term (fold_left (fun m t => add_token t m) tokens m) =
    fold_left (fun acc w => if str_mem w acc then acc else acc ++ [w]) (map term tokens) (map b_term m)) as P; [|apply (P [])].
  induction tokens as [|t tokens IH]; intros m; [done|]. cbn [fold_left map]. by rewrite IH, add_token_terms.
Qed.

(** the terms of a text: each term of the tokens once, in the order of its first
    token, with the number of its tokens and the positions of the first 64. *)
Theorem uniqueTerms_spec tokens :
  let m := uniqueTerms tokens in
  map b_term m = distinct (map term tokens) /\ NoDup (map b_term m) /\ (forall w, w ∈ map b_term m <-> w ∈ map term tokens) /\
  (forall b, b ∈ m -> tf b = length (of_term (b_term b) tokens) /\ 0 < tf b /\
     positions b = take 64 (map position (of_term (b_term b) tokens))).
Proof.
  cbv zeta. destruct (uniqueTerms_counts tokens) as (H1 & H2 & H3). split_and!; [apply uniqueTerms_order|done|done|].
  intros b Hb. destruct (proj1 (Forall_forall _ _) H3 b Hb) as [Ht Hp]. split_and!; [done| |done]. rewrite Ht.
  assert (b_term b ∈ map term tokens) as (t & Hin & Hbt)%list_elem_of_fmap by (apply H2; by apply list_elem_of_fmap_2).
  destruct (of_term (b_term b) tokens) as [|x l] eqn:E; cbn; [|lia]. exfalso.
  apply (List.in_nil (a := t)). rewrite <- E. apply List.filter_In. split; [by apply list_elem_of_In|].
  apply String.eqb_eq. congruence.
Qed.

(** Tokens are at least two characters long and no stop words. *)
Lemma tokenize_words seg text t : In t (tokenize seg false text) -> 2 <= String.length (term t) /\ term t ∉ STOP_WORDS.
Proof.
  unfold tokenize. destruct (text =s? ""); [done|]. intros Hin. apply in_flat_map in Hin as (p & _ & Ht).
  destruct (isWordLike p); cbn [negb] in Ht; [|done].
  destruct (_ <? 2) eqn:E1; [done|]. destruct (str_mem _ STOP_WORDS) eqn:E2; [done|]. cbn [orb] in Ht.
  destruct Ht as [<-|[]]. cbn [term]. split; [by bool_to_prop | by apply str_mem_false].
Qed.

Example terms_of_text :
  map (fun b => (b_term b, tf b, positions b)) (uniqueTerms (tokenize None false "The key, the KEY and a lock.")) =
  [("key", 2, [4; 13]); ("lock", 1, [23])].
Proof. reflexivity. Qed.
