(* ===== verification/SearchIndex.v ===== *)
(** * The search worker ([static/mail/search/worker.js])

    The worker that keeps an index of message bodies: its state, the handler of
    each message, the postings and the ranking.  A handler runs on its own; the
    requests of other messages between two of its awaits are not interleaved here
    ([LocalSearch] orders messages and replies).  Scores are binary64 numbers;
    [Math.log] is a parameter, as are the browser and OpenPGP. *)
From Stdlib Require Import ZArith Lia Ascii SpecFloat.
From stdpp Require Import gmap strings list.
From S2P Require Import Prelude JsString JsValue Base64 Text Json Patterns HtmlText Mime Payload.
From S2P Require Import VaultStore Signature KeyVault Keygen JsDate Idb SearchText.

(** ** Doubles *)

Definition prec : Z := 53.
Definition emax : Z := 1024.
Definition double := spec_float.
Definition of_Z (z : Z) : double := binary_normalize prec emax z 0 false.
Definition fadd : double -> double -> double := SFadd prec emax.
Definition fsub : double -> double -> double := SFsub prec emax.
Definition fmul : double -> double -> double := SFmul prec emax.
Definition fdiv : double -> double -> double := SFdiv prec emax.
(** A property used as a number: integers, else NaN. *)
Definition to_double (v : jsval) : double := match v with JNum z => of_Z z | _ => S754_nan end.
(** [Math.max(a, b)] for [a] that is a number. *)
Definition fmax (a b : double) : double := match b with S754_nan => S754_nan | _ => if SFltb a b then b else a end.

(** ** Finding the body *)

(** Copies of the functions of [auth/unlock.js]. *)
Module Copies.
Definition looksLikeArmoredMessage : string -> bool := Payload.looksLikeArmoredMessage.
Definition extractArmoredBlock : string -> string := Payload.extractArmoredBlock.
Definition parseMimeHeaders : string -> option headers := Payload.parseMimeHeaders.
Definition base64ToBytes : string -> res string := Base64.base64ToBytes.
Definition quotedPrintableToBytes : string -> string := Payload.quotedPrintableToBytes.
Definition decodeTransferBytes : string -> string -> res string := Payload.decodeTransferBytes.
Definition extractPGPMimePayload : string -> res (option string) := Payload.extractPGPMimePayload.
(** The worker is given bytes. *)
Definition readEncryptedMessage (cipher : string) : res pgp_source := Payload.readEncryptedMessage (CBytes cipher).
End Copies.

(** [sep > 0]: a message that begins with the blank line is all body. *)
Definition mimeToText (DOMParser : option dom) (bytes : string) : string :=
  let text := Text.decodeText bytes in
  let body := match index_of text (String (ascii_of_N 13) (String (ascii_of_N 10) (String (ascii_of_N 13) (String (ascii_of_N 10) "")))) with
              | Some (S n) => sdrop (S n + 4) text
              | _ => text
              end in
  let body := match index_of body BEGIN_SIGNATURE with Some n => stake n body | None => body end in
  htmlToPlainSearchText DOMParser body.

(** ** Messages *)

Record hit := Hit { h_message_id : jsval; h_score : double; h_snippet : jsval; h_indexed_at : jsval }.

Inductive request :=
| RInit (identityFingerprint identityArmoredPrivate : string) (identitySearchSeed : buffer) (openpgpScriptUrl : string)
| RIndex (messageId : jsval) (blobUrl : string)
| RSearch (q : jsval) (limit : jsval) (requestId : jsval)
| RCancel (messageId : string)
| RPurge
| RUnknown (kind : string).

Definition kind_of (r : request) : string :=
  match r with
  | RInit _ _ _ _ => "init" | RIndex _ _ => "index" | RSearch _ _ _ => "search" | RCancel _ => "cancel"
  | RPurge => "purge" | RUnknown k => k
  end.

(** What the worker posts; the measured times of [indexed] are left out. *)
Inductive reply :=
| Ready (identity : string)
| Indexed (messageId : string) (termCount : nat) (cached : bool)
| SearchResult (requestId : jsval) (hits : list hit)
| Purged
| Error (error where_ : string).

Section Worker.
Context `{WebCrypto}.
Variable hkdf : string -> string -> string -> res aeskey.
Variable random_nonce : nat -> string.
Variable log : double -> double.
Variable DOMParser : option dom.
Variable segmenter : option SearchText.segmenter.
(** [new URL(raw, base)], the address of the worker, and [importScripts]. *)
Variable parse_url : string -> string -> option url.
Variable location : string.
Variable importScripts : string -> res unit.
(** [fetch]: the bytes of the answer when its status is ok. *)
Variable fetch_blob : string -> res string.
(** [openpgp.readMessage], [readPrivateKey] and [decrypt] for a private key. *)
Variable openpgp_decrypt : pgp_source -> string -> res string.
Variable now : Z.

Record worker := Worker {
  wk_db : bool;
  indexKey : option aeskey;
  identityFingerprint : string;
  identityArmoredPrivate : string;
  openpgpReady : bool;
  openpgp_defined : bool;           (** [typeof openpgp !== 'undefined'] *)
  inflight : gmap string nat;       (** the controller of each message *)
  aborted : list nat;
  controllers : nat;                (** how many were made *)
  posted : list reply;
}.

Local Abbreviation io := (io worker).

Definition update (f : worker -> worker) : io unit := w <-- get_state ;; put_state (f w).
Definition post (r : reply) : io unit := update (fun w =>
  Worker (wk_db w) (indexKey w) (identityFingerprint w) (identityArmoredPrivate w) (openpgpReady w) (openpgp_defined w)
    (inflight w) (aborted w) (controllers w) (posted w ++ [r])).

(** ** Postings *)

(** The index of the posting of a message; [postings[i].message_id] of [null] throws. *)
Fixpoint find_posting (messageId : string) (postings : list jsval) : res (option nat) :=
  match postings with
  | [] => Ok None
  | p :: ps =>
      id <~ getp p "message_id" ;;
      if match id with JStr s => s =s? messageId | _ => false end then Ok (Some 0%nat)
      else i <~ find_posting messageId ps ;; Ok (S <$> i)
  end.

Definition posting (messageId : string) (b : bucket) : jsval :=
  JObj [("message_id", JStr messageId); ("tf", JNum (Z.of_nat (tf b)));
        ("positions", JArr (map (fun n => JNum (Z.of_nat n)) (positions b)))].

(** The record of a term with the posting of a message replaced or added. *)
Definition merge_posting (messageId : string) (b : bucket) (merged : jsval) : res jsval :=
  match merged with
  | JObj fs =>
      match field "postings" fs with
      | JArr postings =>
          oldIdx <~ find_posting messageId postings ;;
          let '(df, postings) :=
            match oldIdx with
            | Some i => (field "df" fs, delete i postings)
            | None => (match field "df" fs with JNum d => JNum (d + 1) | _ => JNaN end, postings)
            end in
          Ok (JObj (put_field "postings" (JArr (postings ++ [posting messageId b])) (put_field "df" df fs)))
      | _ => Throw "TypeError"
      end
  | _ => Throw "TypeError"
  end.

Definition new_record (b : bucket) : jsval := JObj [("term", JStr (b_term b)); ("df", JNum 0); ("postings", JArr [])].

Definition write_term (key : aeskey) (messageId : string) (b : bucket) : io unit :=
  existing <-- Idb.get STORE_TERMS (b_term b) ;;
  open <-- (if truthy existing then openJSON key existing else ret JNull) ;;
  merged <-- of_res (merge_posting messageId b (js_or open (new_record b))) ;;
  sealed <-- sealJSON random_nonce key merged ;;
  put STORE_TERMS (b_term b) sealed.

Definition writePostings (key : aeskey) (messageId : string) (terms : list bucket) (snippet : string) : io unit :=
  _ <-- transaction [STORE_TERMS; STORE_DOCS] true ;;
  _ <-- for_each terms (write_term key messageId) ;;
  sealed <-- sealJSON random_nonce key
    (JObj [("indexed_at", JStr (toISOString now)); ("term_count", JNum (Z.of_nat (length terms))); ("snippet", JStr snippet)]) ;;
  _ <-- put STORE_DOCS messageId sealed ;;
  complete.

(** ** Handlers *)

Definition writeMeta (key : aeskey) : io unit :=
  this <-- get_state ;;
  _ <-- transaction [STORE_META] true ;;
  sealed <-- sealJSON random_nonce key
    (JObj [("schema_version", JNum 1); ("identity_fingerprint", JStr (identityFingerprint this)); ("last_indexed_at", JStr (toISOString now))]) ;;
  _ <-- put STORE_META "v1" sealed ;;
  complete.

Definition set_openpgp (ready defined : bool) (w : worker) : worker :=
  Worker (wk_db w) (indexKey w) (identityFingerprint w) (identityArmoredPrivate w) ready defined (inflight w) (aborted w) (controllers w) (posted w).

Definition load_openpgp (openpgpScriptUrl : string) : io unit :=
  this <-- get_state ;;
  if openpgpReady this then ret tt
  else if openpgp_defined this then update (set_openpgp true true)
  else if negb (openpgpScriptUrl =s? "") then
    src <-- of_res (validatedSameOriginScriptURL parse_url location openpgpScriptUrl location) ;;
    _ <-- of_res (importScripts src) ;;
    update (set_openpgp true true)
  else ret tt.

Definition handleInit (fp priv : string) (identitySearchSeed : buffer) (openpgpScriptUrl : string) : io unit :=
  match identitySearchSeed with
  | Other _ => reject "init requires identitySearchSeed"
  | Bytes _ =>
      _ <-- update (fun w => Worker (wk_db w) (indexKey w) fp priv (openpgpReady w) (openpgp_defined w)
                               (inflight w) (aborted w) (controllers w) (posted w)) ;;
      key <-- deriveIndexKey hkdf identitySearchSeed ;;
      _ <-- update (fun w => Worker (wk_db w) (Some key) fp priv (openpgpReady w) (openpgp_defined w)
                               (inflight w) (aborted w) (controllers w) (posted w)) ;;
      _ <-- openDB ;;
      _ <-- update (fun w => Worker true (indexKey w) fp priv (openpgpReady w) (openpgp_defined w)
                               (inflight w) (aborted w) (controllers w) (posted w)) ;;
      _ <-- load_openpgp openpgpScriptUrl ;;
      writeMeta key
  end.

Definition pgpDecrypt (cipher : string) : io string :=
  this <-- get_state ;;
  if negb (openpgpReady this) || negb (openpgp_defined this) then reject "openpgp.js not loaded"
  else
    message <-- of_res (Copies.readEncryptedMessage cipher) ;;
    crypto (openpgp_decrypt message (identityArmoredPrivate this)).

(** [inflight.get(id).abort()] and [inflight.delete(id)] *)
Definition set_inflight (m : gmap string nat) (ab : list nat) (n : nat) (w : worker) : worker :=
  Worker (wk_db w) (indexKey w) (identityFingerprint w) (identityArmoredPrivate w) (openpgpReady w) (openpgp_defined w) m ab n (posted w).
Definition abort_of (id : string) (w : worker) : list nat :=
  match inflight w !! id with Some c => aborted w ++ [c] | None => aborted w end.

(** [try { m } finally { f }] *)
Definition finally {A} (m : io A) (f : io unit) : io A := fun s =>
  match m s with
  | (Forever, s) => (Forever, s)
  | (r, s) => match f s with (Resolved _, s) => (r, s) | (Rejected e, s) => (Rejected e, s) | (Forever, s) => (Forever, s) end
  end.

Definition handleIndex (messageId : jsval) (blobUrl : string) : io unit :=
  this <-- get_state ;;
  match wk_db this, indexKey this with
  | true, Some key =>
      let id := js_String (js_or messageId (JStr "")) in
      if id =s? "" then ret tt
      else
        _ <-- transaction [STORE_DOCS] false ;;
        existingDoc <-- Idb.get STORE_DOCS id ;;
        if truthy existingDoc then post (Indexed id 0%nat true)
        else
          _ <-- update (fun w => set_inflight (<[id := controllers w]> (inflight w)) (abort_of id w) (S (controllers w)) w) ;;
          finally
            (cipher <-- crypto (fetch_blob blobUrl) ;;
             plaintext <-- pgpDecrypt cipher ;;
             let text := mimeToText DOMParser plaintext in
             let terms := uniqueTerms (tokenize segmenter false text) in
             _ <-- writePostings key id terms (stake 240 text) ;;
             post (Indexed id (length terms) false))
            (update (fun w => set_inflight (delete id (inflight w)) (aborted w) (controllers w) w))
  | _, _ => reject "worker not initialized"
  end.

Definition handleCancel (id : string) : io unit :=
  update (fun w => set_inflight (delete id (inflight w)) (abort_of id w) (controllers w) w).

(** *** Search *)

Definition k1 : double := fdiv (of_Z 12) (of_Z 10).
Definition b_ : double := fdiv (of_Z 3) (of_Z 4).
Definition half : double := fdiv (of_Z 1) (of_Z 2).

Definition idf (N : nat) (df : jsval) : double :=
  log (fadd (of_Z 1) (fdiv (fadd (fsub (of_Z (Z.of_nat N)) (to_double df)) half) (fadd (to_double df) half))).
(** The share of one posting in the score of its message. *)
Definition increment (idf avgdl : double) (tf dl : jsval) : double :=
  let norm := fadd (fsub (of_Z 1) b_) (fdiv (fmul b_ (to_double dl)) (fmax (of_Z 1) avgdl)) in
  let tfWeight := fdiv (fmul (to_double tf) (fadd k1 (of_Z 1))) (fadd (to_double tf) (fmul k1 norm)) in
  fmul idf tfWeight.

(** The Map of scores: message identifiers in the order of their first posting. *)
Fixpoint add_score (id : string) (inc : double) (scores : list (string * double)) : list (string * double) :=
  match scores with
  | [] => [(id, fadd (of_Z 0) inc)]
  | (k, s) :: rest => if k =s? id then (k, fadd (if SFeqb s (of_Z 0) || (if s is S754_nan then true else false) then of_Z 0 else s) inc) :: rest
                      else (k, s) :: add_score id inc rest
  end.

(** [sort((a, b) => b[1] - a[1])]: stable, a difference that is NaN counts as 0. *)
Fixpoint insert_ranked (x : string * double) (l : list (string * double)) : list (string * double) :=
  match l with
  | [] => [x]
  | y :: l' => if SFltb (of_Z 0) (fsub y.2 x.2) then y :: insert_ranked x l' else x :: l
  end.
Definition rank (scores : list (string * double)) : list (string * double) := foldr insert_ranked [] scores.

(** The cursor: the callback awaits WebCrypto and then moves the cursor of a
    transaction that has ended; what it throws settles nothing. *)
Fixpoint cursor (key : aeskey) (envs : list jsval) (total : Z) (n : nat) : io (Z * nat) :=
  match envs with
  | [] => ret (total, n)
  | env :: envs => fun s =>
      match openJSON key env s with
      | (Resolved doc, s) =>
          let '(total, n) := match doc with
                             | JObj fs => match field "term_count" fs with JNum c => ((total + c)%Z, S n) | _ => (total, n) end
                             | _ => (total, n)
                             end in
          if match w_tx s.2 with Some t => tx_live t | None => false end then cursor key envs total n s else (Forever, s)
      | (_, s) => (Forever, s)
      end
  end.
Definition averageDocLength (key : aeskey) : io double :=
  envs <-- on_store STORE_DOCS false (fun st => (map snd (map_to_list st), st)) ;;
  r <-- cursor key envs 0%Z 0%nat ;;
  ret (if Nat.eqb r.2 0 then of_Z 1 else fdiv (of_Z r.1) (of_Z (Z.of_nat r.2))).
Definition countDocs : io nat := count STORE_DOCS.

(** [store.get(key)] for a key that has to be a string. *)
Definition get_doc (key : aeskey) (id : string) : io jsval :=
  env <-- Idb.get STORE_DOCS id ;;
  if truthy env then openJSON key env else ret JNull.

Definition score_posting (key : aeskey) (idf avgdl : double) (scores : list (string * double)) (p : jsval) : io (list (string * double)) :=
  mid <-- of_res (getp p "message_id") ;;
  doc <-- get_doc key (js_String mid) ;;
  let dl := match doc with JObj fs => js_or (field "term_count" fs) (JNum 0) | _ => JNum 0 end in
  tf <-- of_res (getp p "tf") ;;
  ret (add_score (js_String mid) (increment idf avgdl tf dl) scores).

Fixpoint score_postings (key : aeskey) (idf avgdl : double) (ps : list jsval) (scores : list (string * double)) : io (list (string * double)) :=
  match ps with
  | [] => ret scores
  | p :: ps => scores <-- score_posting key idf avgdl scores p ;; score_postings key idf avgdl ps scores
  end.

Fixpoint score_terms (key : aeskey) (N : nat) (avgdl : double) (terms : list bucket) (scores : list (string * double)) : io (list (string * double)) :=
  match terms with
  | [] => ret scores
  | b :: terms =>
      env <-- Idb.get STORE_TERMS (b_term b) ;;
      opened <-- (if truthy env then openJSON key env else ret JNull) ;;
      scores <-- (if negb (truthy opened) then ret scores
                  else
                    df <-- of_res (getp opened "df") ;;
                    postings <-- of_res (getp opened "postings") ;;
                    match postings with
                    | JArr ps => score_postings key (idf N df) avgdl ps scores
                    | _ => reject "TypeError"
                    end) ;;
      score_terms key N avgdl terms scores
  end.

Fixpoint read_hits (key : aeskey) (ranked : list (string * double)) : io (list hit) :=
  match ranked with
  | [] => ret []
  | (id, score) :: ranked =>
      doc <-- get_doc key id ;;
      let '(snippet, indexed_at) := match doc with JObj fs => (field "snippet" fs, field "indexed_at" fs) | _ => (JStr "", JNull) end in
      rest <-- read_hits key ranked ;;
      ret (Hit (JStr id) score snippet indexed_at :: rest)
  end.

(** [Math.max(1, Math.min(100, Number(limit) || 25))] *)
Definition clamp_limit (limit : jsval) : nat :=
  Z.to_nat (Z.max 1 (Z.min 100 (match js_Number limit with Some z => if (z =? 0)%Z then 25 else z | None => 25 end))).

Definition handleSearch (q limit : jsval) : io (list hit) :=
  this <-- get_state ;;
  match wk_db this, indexKey this with
  | true, Some key =>
      let q := trim (js_String (js_or q (JStr ""))) in
      if q =s? "" then ret []
      else
        let queryTerms := uniqueTerms (tokenize segmenter false q) in
        match queryTerms with
        | [] => ret []
        | _ =>
            _ <-- transaction [STORE_TERMS; STORE_DOCS] false ;;
            N <-- countDocs ;;
            avgdl <-- averageDocLength key ;;
            scores <-- score_terms key N avgdl queryTerms [] ;;
            read_hits key (take (clamp_limit limit) (rank scores))
        end
  | _, _ => reject "worker not initialized"
  end.

(** *** The handler of messages *)

Definition dispatch (r : request) : io unit :=
  match r with
  | RInit fp priv seed url =>
      _ <-- handleInit fp priv seed url ;;
      this <-- get_state ;;
      post (Ready (identityFingerprint this))
  | RIndex messageId blobUrl => handleIndex messageId blobUrl
  | RSearch q limit requestId => hits <-- handleSearch q limit ;; post (SearchResult requestId hits)
  | RCancel id => handleCancel id
  | RPurge =>
      this <-- get_state ;;
      _ <-- (if wk_db this then clearAll else ret tt) ;;
      post Purged
  | RUnknown kind => post (Error ("unknown kind: " +:+ kind) "")
  end.
(** What is thrown is posted; a promise that never settles posts nothing. *)
Definition onmessage (r : request) (s : worker * world) : worker * world :=
  match dispatch r s with
  | (Rejected e, s) => snd (post (Error e (kind_of r)) s)
  | (_, s) => s
  end.
End Worker.

(** ** Lemmas *)

Section Facts.
Context `{WebCrypto}.
Variable hkdf : string -> string -> string -> res aeskey.
Variable random_nonce : nat -> string.
Variable log : double -> double.
Variable DOMParser : option dom.
Variable segmenter : option SearchText.segmenter.
Variable parse_url : string -> string -> option url.
Variable location : string.
Variable importScripts : string -> res unit.
Variable fetch_blob : string -> res string.
Variable openpgp_decrypt : pgp_source -> string -> res string.
Variable now : Z.
Local Abbreviation io := (Idb.io worker).
Local Abbreviation onmessage := (onmessage hkdf random_nonce log DOMParser segmenter parse_url location importScripts fetch_blob openpgp_decrypt now).

(** *** Requests after WebCrypto are refused

    A computation that leaves the database alone and settles, and one that always
    ends in a rejection. *)
Definition quiet {A} (m : io A) : Prop := forall s, w_db (m s).2.2 = w_db s.2 /\ (m s).1 <> Forever.
Definition refused {A} (m : io A) : Prop := forall s, w_db (m s).2.2 = w_db s.2 /\ exists e, (m s).1 = Rejected e.

Lemma quiet_bind {A B} (m : io A) (k : A -> io B) : quiet m -> (forall a, quiet (k a)) -> quiet (io_bind m k).
Proof.
  intros Hm Hk s. unfold io_bind. destruct (Hm s) as [H1 H2]. destruct (m s) as [[a|e|] s']; cbn in *; [|done|done].
  destruct (Hk a s') as [H3 H4]. split; [congruence | done].
Qed.
Lemma refused_bind {A B} (m : io A) (k : A -> io B) : quiet m -> (forall a, refused (k a)) -> refused (io_bind m k).
Proof.
  intros Hm Hk s. unfold io_bind. destruct (Hm s) as [H1 H2]. destruct (m s) as [[a|e|] s']; cbn in *; [|eauto|done].
  destruct (Hk a s') as [H3 H4]. split; [congruence | done].
Qed.
Lemma refused_early {A B} (m : io A) (k : A -> io B) : refused m -> refused (io_bind m k).
Proof.
  intros Hm s. unfold io_bind. destruct (Hm s) as [H1 [e H2]]. destruct (m s) as [[a|e'|] s']; cbn in *; try done. eauto.
Qed.
Lemma refused_quiet {A} (m : io A) : refused m -> quiet m.
Proof. intros Hm s. destruct (Hm s) as [H1 [e H2]]. split; [done | by rewrite H2]. Qed.

Lemma quiet_ret {A} (a : A) : quiet (ret a).
Proof. by intros s. Qed.
Lemma quiet_res {A} (m : res A) : quiet (of_res m).
Proof. by intros s; destruct m. Qed.
Lemma quiet_crypto {A} (m : res A) : quiet (crypto m).
Proof. intros s. unfold crypto. destruct m; cbn; by rewrite end_tx_db. Qed.
Lemma quiet_get name key : quiet (Idb.get name key).
Proof. intros s. unfold Idb.get, on_store. destruct (w_tx s.2); [|done]. repeat (destruct (_ : bool); [done|]). cbn. by destruct (w_db s.2 !! name). Qed.
Lemma quiet_transaction names write : quiet (transaction names write).
Proof. intros s. unfold transaction. by destruct (forallb _ _). Qed.
Lemma quiet_seal key v : quiet (sealJSON random_nonce key v).
Proof. intros [s w]. rewrite sealJSON_run. cbn. by rewrite end_tx_db. Qed.
Lemma quiet_state : quiet get_state.
Proof. by intros s. Qed.
Lemma quiet_open key v : quiet (openJSON key v).
Proof.
  unfold openJSON. destruct v; try apply quiet_ret. destruct (field _ _); try apply quiet_ret. destruct (field "ciphertext_b64" _); try apply quiet_ret.
  repeat (apply quiet_bind; [apply quiet_res || apply quiet_crypto | intros]). apply quiet_res.
Qed.

(** A request right after sealing is refused. *)
Lemma seal_then_put {A} key v name k (cont : unit -> io A) :
  refused (io_bind (sealJSON random_nonce key v) (fun sealed => io_bind (put name k sealed) cont)).
Proof.
  intros [s w]. set (w1 := end_tx (World (w_db w) (w_tx w) (S (w_draws w)))).
  assert (w_db w1 = w_db w) as Hdb by (unfold w1; by rewrite end_tx_db).
  assert (exists m, put name k (envelope key (random_nonce (w_draws w)) v) (s, w1) = (Rejected m, (s, w1))) as [m Hm].
  { destruct (w_tx w1) as [t|] eqn:E.
    - apply (put_refused _ _ _ _ _ t); [done|]. by apply end_tx_dead in E.
    - unfold put, on_store. cbn [snd]. rewrite E. eauto. }
  assert (io_bind (sealJSON random_nonce key v) (fun sealed => io_bind (put name k sealed) cont) (s, w) = (Rejected m, (s, w1))) as ->.
  { unfold io_bind. rewrite sealJSON_run. fold w1. by rewrite Hm. }
  cbn. eauto.
Qed.
Lemma io_bind_ret_r {A} (m : io A) s : io_bind m ret s = m s.
Proof. unfold io_bind. destruct (m s) as [[a|e|] s']; done. Qed.

Lemma write_term_refused key id b : refused (write_term random_nonce key id b).
Proof.
  unfold write_term. apply refused_bind; [apply quiet_get|]. intros existing. apply refused_bind; [destruct (truthy existing); [apply quiet_open | apply quiet_ret]|].
  intros open. apply refused_bind; [apply quiet_res|]. intros merged s.
  assert ((sealed <-- sealJSON random_nonce key merged ;; put STORE_TERMS (b_term b) sealed) s =
          (sealed <-- sealJSON random_nonce key merged ;; x <-- put STORE_TERMS (b_term b) sealed ;; ret x) s) as ->;
    [|apply seal_then_put].
  unfold io_bind at 1 2. destruct (sealJSON random_nonce key merged s) as [[a|e|] s']; [by rewrite io_bind_ret_r|done|done].
Qed.

Lemma writePostings_refused key id terms snippet : refused (writePostings random_nonce now key id terms snippet).
Proof.
  unfold writePostings. apply refused_bind; [apply quiet_transaction|]. intros _. destruct terms as [|b terms].
  - apply refused_bind; [apply quiet_ret|]. intros _. apply seal_then_put.
  - apply refused_early. cbn [for_each]. apply refused_early, write_term_refused.
Qed.
Lemma writeMeta_refused key : refused (writeMeta random_nonce now key).
Proof.
  unfold writeMeta. apply refused_bind; [apply quiet_state|]. intros this. apply refused_bind; [apply quiet_transaction|].
  intros _. apply seal_then_put.
Qed.

(** *** The state of the script *)

(** A computation that leaves the state of the script alone. *)
Definition same {A} (m : io A) : Prop := forall s, (m s).2.1 = s.1.
Lemma same_bind {A B} (m : io A) (k : A -> io B) : same m -> (forall a, same (k a)) -> same (io_bind m k).
Proof.
  intros Hm Hk s. unfold io_bind. specialize (Hm s). destruct (m s) as [[a|e|] s']; cbn in *; [|done|done]. rewrite <- Hm. apply Hk.
Qed.
Lemma same_on_store {A} name write (k : gmap string jsval -> A * gmap string jsval) : same (on_store name write k).
Proof.
  intros s. unfold on_store. destruct (w_tx s.2); [|done]. repeat (destruct (_ : bool); [done|]). destruct (w_db s.2 !! name); [|done].
  by destruct (k _).
Qed.
Lemma same_ret {A} (a : A) : same (ret a).
Proof. by intros s. Qed.
Lemma same_res {A} (m : res A) : same (of_res m).
Proof. by intros s; destruct m. Qed.
Lemma same_crypto {A} (m : res A) : same (crypto m).
Proof. intros s. by destruct m. Qed.
Lemma same_transaction names write : same (transaction names write).
Proof. intros s. unfold transaction. by destruct (forallb _ _). Qed.
Lemma same_seal key v : same (sealJSON random_nonce key v).
Proof. by intros [s w]. Qed.
Lemma same_complete : same complete.
Proof. intros s. unfold complete. destruct (w_tx s.2); [|done]. by destruct (tx_live _). Qed.
Lemma same_open key v : same (openJSON key v).
Proof.
  unfold openJSON. destruct v; try apply same_ret. destruct (field _ _); try apply same_ret. destruct (field "ciphertext_b64" _); try apply same_ret.
  repeat (apply same_bind; [apply same_res || apply same_crypto | intros]). apply same_res.
Qed.
Lemma same_for_each {A} (l : list A) f : (forall a, same (f a)) -> same (for_each l f).
Proof. intros Hf. induction l as [|a l IH]; [apply same_ret|]. apply same_bind; [apply Hf | done]. Qed.
#[local] Hint Resolve same_on_store same_ret same_res same_crypto same_transaction same_seal same_complete same_open : js.

Lemma writePostings_same key id terms snippet : same (writePostings random_nonce now key id terms snippet).
Proof.
  unfold writePostings. apply same_bind; [auto with js|intros _]. apply same_bind.
  - apply same_for_each. intros b. unfold write_term. repeat (apply same_bind; [|intros]); try (by auto with js).
    + apply same_on_store.
    + destruct (truthy _); auto with js.
    + apply same_on_store.
  - intros _. apply same_bind; [auto with js|intros sealed]. apply same_bind; [apply same_on_store|auto with js].
Qed.

(** *** The invariant: an empty index, and replies that bring nothing *)

Definition empty_index (d : gmap string (gmap string jsval)) : Prop :=
  default ∅ (d !! STORE_TERMS) = ∅ /\ default ∅ (d !! STORE_DOCS) = ∅.
Definition harmless (r : reply) : Prop :=
  match r with Ready _ | Indexed _ _ _ => False | SearchResult _ hits => hits = [] | Purged | Error _ _ => True end.
Definition idle_index (s : worker * world) : Prop := empty_index (w_db s.2) /\ Forall harmless (posted s.1).

(** The invariant is kept, and a value that is returned satisfies [R]. *)
Definition yields {A} (m : io A) (R : A -> Prop) : Prop :=
  forall s, idle_index s -> idle_index (m s).2 /\ match (m s).1 with Resolved a => R a | _ => True end.

Lemma yields_bind {A B} (m : io A) (k : A -> io B) R R' :
  yields m R -> (forall a, R a -> yields (k a) R') -> yields (io_bind m k) R'.
Proof.
  intros Hm Hk s Hs. unfold io_bind. destruct (Hm s Hs) as [H1 H2]. destruct (m s) as [[a|e|] s']; cbn in *; [|done|done]. by apply Hk.
Qed.
Lemma yields_mono {A} (m : io A) (R R' : A -> Prop) : (forall a, R a -> R' a) -> yields m R -> yields m R'.
Proof. intros H' Hm s Hs. destruct (Hm s Hs) as [H1 H2]. split; [done|]. destruct (m s).1; auto. Qed.
Lemma yields_same {A} (m : io A) : same m -> quiet m -> yields m (fun _ => True).
Proof.
  intros H1 H2 s [Hs1 Hs2]. split; [|by destruct (m s).1]. split; [by rewrite (proj1 (H2 s)) | by rewrite H1].
Qed.
Lemma yields_refused {A} (m : io A) : same m -> refused m -> yields m (fun _ => False).
Proof.
  intros H1 H2 s [Hs1 Hs2]. destruct (H2 s) as [Hd [e He]]. rewrite He. split; [|done]. split; [by rewrite Hd | by rewrite H1].
Qed.
Lemma yields_update f : (forall w, posted (f w) = posted w) -> yields (update f) (fun _ => True).
Proof. intros Hf s [Hs1 Hs2]. split; [|done]. split; [done|]. cbn. by rewrite Hf. Qed.
Lemma yields_post r : harmless r -> yields (post r) (fun _ => True).
Proof. intros Hr s [Hs1 Hs2]. split; [|done]. split; [done|]. cbn. apply Forall_app. split; [done|]. by constructor. Qed.
Lemma yields_ret {A} (a : A) (R : A -> Prop) : R a -> yields (ret a) R.
Proof. by intros Ha s Hs. Qed.
Lemma yields_reject {A} m (R : A -> Prop) : yields (reject m) R.
Proof. by intros s Hs. Qed.
Lemma yields_finally {A} (m : io A) f (R : A -> Prop) : yields m R -> yields f (fun _ => True) -> yields (finally m f) R.
Proof.
  intros Hm Hf s Hs. unfold finally. destruct (Hm s Hs) as [H1 H2]. destruct (m s) as [[a|e|] s']; cbn in *; [| |done];
    destruct (Hf s' H1) as [H3 _]; destruct (f s') as [[u|e'|] s'']; cbn in *; done.
Qed.

(** Looking into the empty stores. *)
Lemma yields_get name key : name = STORE_TERMS \/ name = STORE_DOCS -> yields (Idb.get name key) (fun v => v = JUndef).
Proof.
  intros Hn s Hs. split; [apply (yields_same _ (same_on_store _ _ _) (quiet_get name key) s Hs)|].
  unfold Idb.get, on_store. destruct (w_tx s.2); [|done]. repeat (destruct (_ : bool); [done|]). cbn [andb].
  destruct Hs as [[H1 H2] _]. destruct (w_db s.2 !! name) as [st|] eqn:E; [|done].
  assert (st = ∅) as ->. { destruct Hn as [-> | ->]; [rewrite E in H1 | rewrite E in H2]; done. }
  cbn. by rewrite lookup_empty.
Qed.
Lemma insert_empty (d : gmap string (gmap string jsval)) n m : default ∅ (d !! n) = ∅ -> default ∅ (<[m := ∅]> d !! n) = ∅.
Proof.
  intros Hn. destruct (decide (m = n)) as [->|Hne]; [by rewrite lookup_insert_eq | by rewrite lookup_insert_ne].
Qed.
Lemma empty_create d name : empty_index d -> empty_index (create_missing d name).
Proof.
  intros [H1 H2]. unfold create_missing, empty_index. destruct (d !! name) eqn:E; [done|].
  split; by apply insert_empty.
Qed.
Lemma yields_openDB : yields openDB (fun _ => True).
Proof.
  intros s [Hs1 Hs2]. split; [|done]. split; [|done]. cbn [openDB snd set_db w_db].
  generalize ALL_STORES as names. intros names. revert Hs1. generalize (w_db s.2) as d.
  induction names as [|n names IH]; intros d Hd; [done|]. apply IH. by apply empty_create.
Qed.
Lemma yields_clear name : yields (clear name) (fun _ => True).
Proof.
  intros s [Hs1 Hs2]. unfold clear, on_store. destruct (w_tx s.2); [|done]. repeat (destruct (_ : bool); [done|]).
  destruct (w_db s.2 !! name) eqn:E; [|done]. split; [|done]. split; [|done]. destruct Hs1 as [H1 H2].
  split; by apply insert_empty.
Qed.

(** *** Handlers *)

Local Abbreviation any := (fun _ => True).
Lemma yields_get_state : yields get_state any.
Proof. by intros s Hs. Qed.
Lemma yields_res {A} (m : res A) : yields (of_res m) any.
Proof. apply yields_same; [apply same_res | apply quiet_res]. Qed.
Lemma yields_crypto {A} (m : res A) : yields (crypto m) any.
Proof. apply yields_same; [apply same_crypto | apply quiet_crypto]. Qed.
Lemma yields_transaction names write : yields (transaction names write) any.
Proof. apply yields_same; [apply same_transaction | apply quiet_transaction]. Qed.
#[local] Hint Resolve yields_get_state yields_res yields_crypto yields_transaction yields_openDB yields_clear yields_reject : js.
#[local] Hint Extern 1 (yields (ret tt) _) => apply yields_ret : js.
#[local] Hint Extern 1 (yields (update _) _) => apply yields_update; done : js.

(** Sequence through the next operation, when what it returns does not matter. *)
Ltac next :=
  lazymatch goal with |- yields (io_bind _ _) _ => eapply (yields_bind _ _ any); [solve [auto with js] | intros ? _] end.

Lemma yields_complete : yields complete any.
Proof. intros s [H1 H2]. unfold complete. destruct (w_tx s.2); [|done]. by destruct (tx_live _). Qed.
Lemma yields_clearAll : yields clearAll any.
Proof. unfold clearAll. repeat next. apply yields_complete. Qed.
Lemma yields_load url : yields (load_openpgp parse_url location importScripts url) any.
Proof.
  unfold load_openpgp. next. destruct (openpgpReady _); [auto with js|]. destruct (openpgp_defined _); [auto with js|].
  destruct (negb (url =s? "")); [|auto with js]. repeat next. auto with js.
Qed.
Lemma yields_init fp priv seed url :
  yields (handleInit hkdf random_nonce parse_url location importScripts now fp priv seed url) (fun _ => False).
Proof.
  unfold handleInit. destruct seed as [b|v]; [|apply yields_reject]. next.
  eapply (yields_bind _ _ any).
  - unfold deriveIndexKey, deriveScopedKey. destruct (b =s? ""); auto with js.
  - intros key _. repeat next. eapply (yields_bind _ _ any); [apply yields_load|intros _ _].
    apply yields_refused; [|apply writeMeta_refused]. unfold writeMeta. repeat (apply same_bind; [|intros]); try (by auto with js); try apply same_on_store.
Qed.
Lemma yields_index messageId url :
  yields (handleIndex random_nonce DOMParser segmenter fetch_blob openpgp_decrypt now messageId url) any.
Proof.
  unfold handleIndex. next. destruct (wk_db _); [|auto with js]. destruct (indexKey _) as [key|]; [|auto with js].
  destruct (_ =s? ""); [auto with js|]. next. eapply yields_bind; [apply yields_get; by right|]. intros doc ->. cbn [truthy]. next.
  apply yields_finally; [|auto with js]. next. eapply (yields_bind _ _ any).
  - unfold pgpDecrypt. next. destruct (_ || _); [auto with js|]. repeat next. auto with js.
  - intros plaintext _. cbv zeta. eapply yields_bind; [apply yields_refused; [apply writePostings_same | apply writePostings_refused]|].
    intros ? [].
Qed.
Lemma yields_terms key N avgdl terms : yields (score_terms log key N avgdl terms []) (fun scores => scores = []).
Proof.
  induction terms as [|b terms IH]; cbn [score_terms]; [by apply yields_ret|].
  eapply yields_bind; [apply yields_get; by left|]. intros env ->. cbn [truthy].
  eapply (yields_bind _ _ (fun v => v = JNull)); [by apply yields_ret|]. intros opened ->. cbn [truthy negb].
  eapply (yields_bind _ _ (fun scores => scores = [])); [by apply yields_ret|]. intros scores ->. exact IH.
Qed.
Lemma all_docs_empty s : idle_index s -> exists r,
  on_store STORE_DOCS false (fun st : gmap string jsval => (map snd (map_to_list st), st)) s = (r, s) /\
  (r = Resolved [] \/ exists e, r = Rejected e).
Proof.
  intros [[_ Hd] _]. assert (forall e, exists r : promise (list jsval), (Rejected e, s) = (r, s) /\ (r = Resolved [] \/ exists e, r = Rejected e)) as Hrej.
  { intros e. exists (Rejected e). split; [done|]. right. by exists e. }
  unfold on_store. destruct (w_tx s.2); [|apply Hrej]. repeat (destruct (_ : bool); [apply Hrej|]). cbn [andb].
  destruct (w_db s.2 !! STORE_DOCS) as [st|]; [|apply Hrej]. cbn in Hd. subst st. eexists. split; [by destruct s|by left].
Qed.
Lemma yields_search q limit : yields (handleSearch log segmenter q limit) (fun hits => hits = []).
Proof.
  unfold handleSearch. next. destruct (wk_db _); [|auto with js]. destruct (indexKey _) as [key|]; [|auto with js].
  destruct (_ =s? ""); [by apply yields_ret|]. destruct (uniqueTerms _); [by apply yields_ret|]. next.
  eapply (yields_bind _ _ any); [apply yields_same; [apply same_on_store|]|intros N _].
  { intros s. unfold countDocs, count, on_store. destruct (w_tx s.2); [|done]. repeat (destruct (_ : bool); [done|]). cbn. by destruct (w_db s.2 !! _). }
  eapply (yields_bind _ _ any); [|intros avgdl _].
  { unfold averageDocLength. intros s Hs. destruct (all_docs_empty s Hs) as (r & E & Hr).
    unfold io_bind. rewrite E. destruct Hr as [-> | [e ->]]; done. }
  eapply yields_bind; [apply yields_terms|]. intros scores ->. cbn [rank foldr]. rewrite take_nil. by apply yields_ret.
Qed.

Lemma onmessage_idle r s : idle_index s -> idle_index (onmessage r s).
Proof.
  intros Hs. unfold SearchIndex.onmessage.
  assert (yields (dispatch hkdf random_nonce log DOMParser segmenter parse_url location importScripts fetch_blob openpgp_decrypt now r) any) as Hd.
  { destruct r; cbn [dispatch].
    - eapply yields_bind; [apply yields_init|]. intros ? [].
    - apply yields_index.
    - eapply yields_bind; [apply yields_search|]. intros hits ->. by apply yields_post.
    - unfold handleCancel. auto with js.
    - next. eapply (yields_bind _ _ any); [destruct (wk_db _); [apply yields_clearAll | auto with js]|]. intros _ _. by apply yields_post.
    - by apply yields_post. }
  destruct (Hd s Hs) as [H1 _]. destruct (dispatch _ _ _ _ _ _ _ _ _ _ _ _ s) as [[a|e|] s']; [done| |done]. cbn [snd].
  by apply (yields_post (Error e (kind_of r)) I s').
Qed.

(** *** What is posted *)

(** A computation that posts only replies that satisfy [P]. *)
Definition posts {A} (P : reply -> Prop) (m : io A) : Prop := forall s, Forall P (posted s.1) -> Forall P (posted (m s).2.1).

Lemma posts_bind {A B} P (m : io A) (k : A -> io B) : posts P m -> (forall a, posts P (k a)) -> posts P (io_bind m k).
Proof. intros Hm Hk s Hs. unfold io_bind. specialize (Hm s Hs). destruct (m s) as [[a|e|] s']; cbn in *; [|done|done]. by apply Hk. Qed.
Lemma posts_same {A} P (m : io A) : same m -> posts P m.
Proof. intros Hm s Hs. by rewrite Hm. Qed.
Lemma posts_update P f : (forall w, posted (f w) = posted w) -> posts P (update f).
Proof. intros Hf s Hs. cbn. by rewrite Hf. Qed.
Lemma posts_post P r : P r -> posts P (post r).
Proof. intros Hr s Hs. cbn. apply Forall_app. split; [done|]. by constructor. Qed.
Lemma posts_reject {A} P e : posts P (reject e : io A).
Proof. by intros s. Qed.
Lemma posts_finally {A} P (m : io A) f : posts P m -> posts P f -> posts P (finally m f).
Proof.
  intros Hm Hf s Hs. unfold finally. specialize (Hm s Hs). destruct (m s) as [[a|e|] s']; cbn in *; [| |done];
    specialize (Hf s' Hm); destruct (f s') as [[u|e'|] s'']; done.
Qed.
Lemma posts_state P : posts P get_state.
Proof. by intros s. Qed.
Lemma posts_for_each {A} P (l : list A) f : (forall a, posts P (f a)) -> posts P (for_each l f).
Proof. intros Hf. induction l as [|a l IH]; [apply posts_same, same_ret|]. apply posts_bind; [apply Hf | done]. Qed.
#[local] Hint Resolve posts_reject posts_state posts_for_each : js.
#[local] Hint Extern 1 (posts _ (ret _)) => apply posts_same, same_ret : js.
#[local] Hint Extern 1 (posts _ (of_res _)) => apply posts_same, same_res : js.
#[local] Hint Extern 1 (posts _ (crypto _)) => apply posts_same, same_crypto : js.
#[local] Hint Extern 1 (posts _ (transaction _ _)) => apply posts_same, same_transaction : js.
#[local] Hint Extern 1 (posts _ (sealJSON _ _ _)) => apply posts_same, same_seal : js.
#[local] Hint Extern 1 (posts _ (openJSON _ _)) => apply posts_same, same_open : js.
#[local] Hint Extern 1 (posts _ complete) => apply posts_same, same_complete : js.
#[local] Hint Extern 1 (posts _ (on_store _ _ _)) => apply posts_same, same_on_store : js.
#[local] Hint Extern 1 (posts _ (Idb.get _ _)) => apply posts_same, same_on_store : js.
#[local] Hint Extern 1 (posts _ (put _ _ _)) => apply posts_same, same_on_store : js.
#[local] Hint Extern 1 (posts _ (clear _)) => apply posts_same, same_on_store : js.
#[local] Hint Extern 1 (posts _ (update _)) => apply posts_update; done : js.

(** Through a body, one operation or one case at a time. *)
Ltac through :=
  repeat first
    [ solve [auto with js]
    | lazymatch goal with
      | |- posts _ (io_bind _ _) => apply posts_bind; [|intros ?]
      | |- posts _ (match ?x with _ => _ end) => destruct x
      | |- posts _ (let _ := _ in _) => cbv zeta
      | |- posts _ (finally _ _) => apply posts_finally
      end ].

Lemma posts_cursor P key envs total n : posts P (cursor key envs total n).
Proof.
  revert total n. induction envs as [|e envs IH]; intros total n; cbn [cursor]; [auto with js|]. intros s Hs.
  pose proof (same_open key e s) as He. destruct (openJSON key e s) as [[doc|m|] s']; cbn in He |- *; [|by rewrite He|by rewrite He].
  destruct (match doc with JObj fs => _ | _ => _ end) as [t n']. destruct (match w_tx s'.2 with Some _ => _ | None => _ end); [|cbn; by rewrite He].
  apply IH. by rewrite He.
Qed.
Lemma posts_scores P key i avgdl ps scores : posts P (score_postings key i avgdl ps scores).
Proof. revert scores. induction ps as [|p ps IH]; intros scores; cbn [score_postings]; unfold score_posting, get_doc; through. Qed.
Lemma posts_terms P key N avgdl terms scores : posts P (score_terms log key N avgdl terms scores).
Proof. revert scores. induction terms as [|b terms IH]; intros scores; cbn [score_terms]; through. apply posts_scores. Qed.
Lemma posts_hits P key ranked : posts P (read_hits key ranked).
Proof. induction ranked as [|[id sc] ranked IH]; cbn [read_hits]; unfold get_doc; through. Qed.
#[local] Hint Resolve posts_cursor posts_scores posts_terms posts_hits : js.
Lemma posts_search P q limit : posts P (handleSearch log segmenter q limit).
Proof. unfold handleSearch, averageDocLength, countDocs, count. through. Qed.
Lemma posts_index (P : reply -> Prop) messageId url : (forall id n c, P (Indexed id n c)) ->
  posts P (handleIndex random_nonce DOMParser segmenter fetch_blob openpgp_decrypt now messageId url).
Proof.
  intros HP. unfold handleIndex, pgpDecrypt. through; try (by apply posts_post). apply posts_same, writePostings_same.
Qed.
Lemma posts_init P fp priv seed url : posts P (handleInit hkdf random_nonce parse_url location importScripts now fp priv seed url).
Proof.
  unfold handleInit, load_openpgp, writeMeta, deriveIndexKey, deriveScopedKey. through; apply posts_same; first [apply same_on_store | done].
Qed.

(** A message is answered with a result only when it is a search, under its id. *)
Definition answers_to (r : request) (p : reply) : Prop :=
  match p with SearchResult id _ => exists q l, r = RSearch q l id | _ => True end.
Lemma onmessage_answers r s : Forall (answers_to r) (posted s.1) -> Forall (answers_to r) (posted (onmessage r s).1).
Proof.
  intros Hs. unfold SearchIndex.onmessage.
  assert (posts (answers_to r) (dispatch hkdf random_nonce log DOMParser segmenter parse_url location importScripts fetch_blob openpgp_decrypt now r)) as Hd.
  { destruct r; cbn [dispatch].
    - apply posts_bind; [apply posts_init|intros []]. through. by apply posts_post.
    - by apply posts_index.
    - apply posts_bind; [apply posts_search|intros hits]. apply posts_post. cbn. eauto.
    - unfold handleCancel. through.
    - unfold clearAll. through; by apply posts_post.
    - by apply posts_post. }
  specialize (Hd s Hs). destruct (dispatch _ _ _ _ _ _ _ _ _ _ _ _ s) as [[a|e|] s']; [done| |done]. cbn [snd].
  by apply posts_post.
Qed.

(** ** Properties *)

(** The worker as it starts. *)
Definition fresh_worker (defined : bool) : worker := Worker false None "" "" false defined ∅ [] 0 [].

(** nothing is ever indexed.  The worker seals a record between opening a
    transaction and writing to it, and by then the browser has ended the transaction:
    whatever messages a fresh worker is sent, on a database whose index is empty, it
    stays empty, the worker never reports that it is ready or has indexed a message,
    and every search it answers has no hits. *)
Theorem nothing_is_ever_indexed defined d rs :
  empty_index d ->
  let '(wk, w) := fold_left (fun s r => onmessage r s) rs (fresh_worker defined, World d None 0) in
  empty_index (w_db w) /\
  Forall (fun p => match p with Ready _ | Indexed _ _ _ => False | SearchResult _ hits => hits = [] | Purged | Error _ _ => True end) (posted wk).
Proof.
  intros Hd. assert (idle_index (fresh_worker defined, World d None 0)) as Hs by (split; [done | constructor]).
  revert Hs. generalize (fresh_worker defined, World d None 0) as s. induction rs as [|r rs IH]; intros [wk w] Hs; [exact Hs|].
  cbn [fold_left]. apply IH. by apply onmessage_idle.
Qed.
End Facts.

(** ** Witnesses *)

Definition sample_requests : list request :=
  [RInit "FP" "key" (Bytes "seed") ""; RIndex (JStr "m1") "/blob"; RSearch (JStr "body") (JNum 25) (JNum 1)].
Definition sample_onmessage : request -> worker (H := toy_crypto) * world -> worker (H := toy_crypto) * world :=
  onmessage (H := toy_crypto) (fun s _ _ => Ok s) (fun _ => "nonce-nonce-") (fun x => x) None None
    (fun _ _ => None) "" (fun _ => Ok tt) (fun _ => Ok "body") (fun _ _ => Ok "a plain body text") 0.
Lemma nothing_is_ever_indexed_witness :
  let '(wk, w) := fold_left (fun s r => sample_onmessage r s) sample_requests (fresh_worker (H := toy_crypto) true, World ∅ None 0) in
  posted wk = [Error "TransactionInactiveError" "init"; Error "TransactionInactiveError" "index"; SearchResult (JNum 1) []] /\
  empty_index (w_db w).
Proof.
  assert (let '(wk, w) := fold_left (fun s r => sample_onmessage r s) sample_requests (fresh_worker (H := toy_crypto) true, World ∅ None 0) in
    posted wk = [Error "TransactionInactiveError" "init"; Error "TransactionInactiveError" "index"; SearchResult (JNum 1) []]) as A by (vm_compute; reflexivity).
  pose proof (nothing_is_ever_indexed (H := toy_crypto) (fun s _ _ => Ok s) (fun _ => "nonce-nonce-") (fun x => x) None None
      (fun _ _ => None) "" (fun _ => Ok tt) (fun _ => Ok "body") (fun _ _ => Ok "a plain body text") 0 true ∅ sample_requests
      (conj eq_refl eq_refl)) as T.
  change (onmessage (H := toy_crypto) _ _ _ _ _ _ _ _ _ _ _) with sample_onmessage in T.
  destruct (fold_left _ _ _) as [wk w]. split; [exact A|exact (proj1 T)].
Defined.
