(* ===== verification/LocalSearch.v ===== *)
(** * The client of the search worker ([static/mail/search/search.js])

    [LocalSearch] sends requests to a worker and waits for an answer that carries
    the id of the request, or for six seconds.  The worker is known through the
    interface [Backend]; the client, the worker and the two queues of messages
    between them make a step relation.  [searchAll] merges the hits of the worker
    with those of the server and of the headers. *)
From Stdlib Require Import ZArith Lia SpecFloat.
From stdpp Require Import gmap strings list.
From S2P Require Import Prelude JsString JsValue VaultStore KeyVault Keygen Idb SearchText SearchIndex Http Manifest.

Definition REQUEST_TIMEOUT_MS : Z := 6000.

(** ** The worker as the client sees it

    A script and what outlives it; [boot] starts a script, [handle] takes one
    message and returns what is posted meanwhile. *)
Class Backend := {
  script : Type;
  shared : Type;
  boot : shared -> script * shared;
  handle : SearchIndex.request -> script * shared -> (script * shared) * list reply;
}.

(** Results are posted only in answer to a search, under its id. *)
Class Answers (B : Backend) : Prop := answers r st : Forall (answers_to r) (handle r st).2.

Definition reply_kind (r : reply) : string :=
  match r with
  | Ready _ => "ready" | Indexed _ _ _ => "indexed" | SearchResult _ _ => "searchResult" | Purged => "purged" | Error _ _ => "error"
  end.
Definition reply_id (r : reply) : jsval := match r with SearchResult id _ => id | _ => JUndef end.

(** ** The client *)

Section Client.
Context {B : Backend}.

(** The method a request belongs to, and what its promise is resolved with. *)
Inductive method := Start | Purge | Search.
Inductive answer := Data (r : reply) | Hits (l : list hit).

Record slot := Slot { expected : list string; owner : method; timer : nat }.
Record timeout := Timeout { due : Z; request_id : Z; waiting : method }.

(** A worker that was started, with the messages on their way to it and from it. *)
Record connection := Connection { wk : script; inbox : list SearchIndex.request; outbox : list reply }.

Record state := State {
  worker : option connection;
  ready : bool;
  pending : gmap Z slot;
  nextRequestId : Z;
  timers : gmap nat timeout;          (** by handle *)
  handles : nat;
  clock : Z;
  settled : list (Z * method * res answer);   (** the calls of [resolve] and [reject] *)
  returned : list (res answer);               (** the promises of [searchBody], as they settle *)
  dispatched : list reply;                    (** the events [elvish-search-*] *)
  world : shared;
}.

Definition new_client (w : shared) (now : Z) : state := State None false ∅ 1 ∅ 0 now [] [] [] w.

Definition set_worker c s := State c (ready s) (pending s) (nextRequestId s) (timers s) (handles s) (clock s) (settled s) (returned s) (dispatched s) (world s).
Definition set_pending p t s := State (worker s) (ready s) p (nextRequestId s) t (handles s) (clock s) (settled s) (returned s) (dispatched s) (world s).
Definition set_returned l s := State (worker s) (ready s) (pending s) (nextRequestId s) (timers s) (handles s) (clock s) (settled s) l (dispatched s) (world s).
Definition set_dispatched l s := State (worker s) (ready s) (pending s) (nextRequestId s) (timers s) (handles s) (clock s) (settled s) (returned s) l (world s).
Definition set_clock t s := State (worker s) (ready s) (pending s) (nextRequestId s) (timers s) (handles s) t (settled s) (returned s) (dispatched s) (world s).
Definition take_id s := (nextRequestId s,
  State (worker s) (ready s) (pending s) (nextRequestId s + 1) (timers s) (handles s) (clock s) (settled s) (returned s) (dispatched s) (world s)).

(** [this.worker.postMessage] *)
Definition postMessage (r : SearchIndex.request) (s : state) : state :=
  match worker s with
  | Some c => set_worker (Some (Connection (wk c) (inbox c ++ [r]) (outbox c))) s
  | None => s
  end.

(** [send]: the timer, the entry of [pending] and the message. *)
Definition send (who : method) (msg : Z -> SearchIndex.request) (expectedKinds : list string) (requestId : option Z) (s : state) : state :=
  let '(id, s) := match requestId with Some id => (id, s) | None => take_id s end in
  let h := handles s in
  let s := State (worker s) (ready s) (<[id := Slot expectedKinds who h]> (pending s)) (nextRequestId s)
             (<[h := Timeout (clock s + REQUEST_TIMEOUT_MS) id who]> (timers s)) (S h) (clock s) (settled s) (returned s) (dispatched s) (world s) in
  postMessage (msg id) s.

(** [resolve] or [reject], and what the method does after its [await]. *)
Definition settle (id : Z) (who : method) (r : res answer) (s : state) : state :=
  State (worker s) (match who, r with Start, Ok _ => true | _, _ => ready s end) (pending s) (nextRequestId s) (timers s) (handles s) (clock s)
    (settled s ++ [(id, who, r)])
    (match who with Search => returned s ++ [r] | _ => returned s end) (dispatched s) (world s).

(** *** The methods *)

Definition start (identityFingerprint identityArmoredPrivate : string) (identitySearchSeed : buffer) (openpgpScriptUrl : string) (s : state) : state :=
  let '(sc, w) := boot (world s) in
  let s := State (Some (Connection sc [] [])) (ready s) (pending s) (nextRequestId s) (timers s) (handles s) (clock s) (settled s) (returned s) (dispatched s) w in
  send Start (fun _ => RInit identityFingerprint identityArmoredPrivate identitySearchSeed openpgpScriptUrl) ["ready"] None s.

Definition indexMessage (messageId : jsval) (blobUrl : string) (s : state) : state :=
  match worker s with None => s | Some _ => postMessage (RIndex messageId blobUrl) s end.
Definition cancel (messageId : string) (s : state) : state :=
  match worker s with None => s | Some _ => postMessage (RCancel messageId) s end.
Definition purge (s : state) : state :=
  match worker s with None => s | Some _ => send Purge (fun _ => RPurge) ["purged"] None s end.
Definition searchBody (q limit : jsval) (s : state) : state :=
  match worker s, ready s with
  | Some _, true =>
      let '(requestId, s) := take_id s in
      send Search (fun id => RSearch q limit (JNum id)) ["searchResult"] (Some requestId) s
  | _, _ => set_returned (returned s ++ [Ok (Hits [])]) s
  end.

(** The handler of messages from the worker. *)
Definition onMessage (data : reply) (s : state) : state :=
  if (reply_kind data =s? "indexed") || (reply_kind data =s? "error") then set_dispatched (dispatched s ++ [data]) s
  else
    match reply_id data with
    | JNum id =>
        match pending s !! id with
        | Some sl =>
            if (id =? 0)%Z then s
            else
              let s := set_pending (delete id (pending s)) (delete (timer sl) (timers s)) s in
              settle id (owner sl)
                (match data with
                 | SearchResult _ hits => Ok (Hits hits)
                 | _ => if str_mem (reply_kind data) (expected sl) then Ok (Data data)
                        else Throw ("unexpected kind " +:+ reply_kind data)
                 end) s
        | None => s
        end
    | _ => s                           (* no id, or no key of [pending] *)
    end.

(** A timer goes off. *)
Definition expire (h : nat) (s : state) : state :=
  match timers s !! h with
  | Some t =>
      settle (request_id t) (waiting t) (Throw "search worker timeout")
        (set_pending (delete (request_id t) (pending s)) (delete h (timers s)) s)
  | None => s
  end.

(** ** The client, its worker and the time *)

Inductive step : state -> state -> Prop :=
| step_start fp priv seed url s : step s (start fp priv seed url s)
| step_index id url s : step s (indexMessage id url s)
| step_cancel id s : step s (cancel id s)
| step_purge s : step s (purge s)
| step_search q limit s : step s (searchBody q limit s)
| step_worker c r rest st out s :               (* the worker takes a message *)
    worker s = Some c -> inbox c = r :: rest -> handle r (wk c, world s) = (st, out) ->
    step s (State (Some (Connection st.1 rest (outbox c ++ out))) (ready s) (pending s) (nextRequestId s) (timers s) (handles s) (clock s)
              (settled s) (returned s) (dispatched s) st.2)
| step_reply c p rest s :                       (* the client takes an answer *)
    worker s = Some c -> outbox c = p :: rest ->
    step s (onMessage p (set_worker (Some (Connection (wk c) (inbox c) rest)) s))
| step_expire h t s : timers s !! h = Some t -> (due t <= clock s)%Z -> step s (expire h s)
| step_clock t s : (clock s <= t)%Z -> step s (set_clock t s).

(** *** Lemmas *)

(** Ids and handles are fresh, a request that waits has its timer and the other way
    round, and what was settled does not wait. *)
Record consistent (s : state) : Prop := {
  ids_fresh : forall id sl, pending s !! id = Some sl -> (0 < id < nextRequestId s)%Z;
  settled_old : Forall (fun x => (0 < x.1.1 < nextRequestId s)%Z /\ pending s !! x.1.1 = None) (settled s);
  settled_once : NoDup (map (fun x => x.1.1) (settled s));
  handles_fresh : forall h t, timers s !! h = Some t -> h < handles s;
  timer_armed : forall id sl, pending s !! id = Some sl ->
    exists d, timers s !! timer sl = Some (Timeout d id (owner sl)) /\ (d <= clock s + REQUEST_TIMEOUT_MS)%Z;
  timer_owned : forall h t, timers s !! h = Some t -> exists sl, pending s !! request_id t = Some sl /\ timer sl = h;
  accounted : forall id, (0 < id < nextRequestId s)%Z -> is_Some (pending s !! id) \/ id ∈ map (fun x => x.1.1) (settled s);
  next_positive : (0 < nextRequestId s)%Z;
}.

(** The parts [consistent] looks at. *)
Definition ledger (s : state) := (pending s, nextRequestId s, timers s, handles s, clock s, settled s).
Lemma consistent_ledger s s' : ledger s = ledger s' -> consistent s -> consistent s'.
Proof. intros [= E1 E2 E3 E4 E5 E6] []. constructor; rewrite <- ?E1, <- ?E2, <- ?E3, <- ?E4, <- ?E5, <- ?E6; done. Qed.

Lemma consistent_post r s : consistent s -> consistent (postMessage r s).
Proof. apply consistent_ledger. unfold postMessage. by destruct (worker s). Qed.

(** A new request under a fresh id. *)
Definition enrol (who : method) (kinds : list string) (s : state) : state :=
  State (worker s) (ready s) (<[nextRequestId s := Slot kinds who (handles s)]> (pending s)) (nextRequestId s + 1)
    (<[handles s := Timeout (clock s + REQUEST_TIMEOUT_MS) (nextRequestId s) who]> (timers s)) (S (handles s)) (clock s)
    (settled s) (returned s) (dispatched s) (world s).
Lemma send_enrol who msg kinds s : send who msg kinds None s = postMessage (msg (nextRequestId s)) (enrol who kinds s).
Proof. done. Qed.
Lemma search_enrol q limit s c : worker s = Some c -> ready s = true ->
  searchBody q limit s = postMessage (RSearch q limit (JNum (nextRequestId s))) (enrol Search ["searchResult"] s).
Proof. intros Hc Hr. unfold searchBody. by rewrite Hc, Hr. Qed.

Lemma consistent_enrol who kinds s : consistent s -> consistent (enrol who kinds s).
Proof.
  intros []. constructor; cbn [enrol pending nextRequestId timers handles clock settled].
  - intros id sl [[<- _]|[_ H]]%lookup_insert_Some; [lia|]. apply ids_fresh0 in H. lia.
  - eapply Forall_impl; [exact settled_old0|]. intros x [H1 H2]. split; [lia|]. rewrite lookup_insert_ne; [done|lia].
  - done.
  - intros h t [[<- _]|[_ H]]%lookup_insert_Some; [lia|]. apply handles_fresh0 in H. lia.
  - intros id sl [[<- <-]|[_ H]]%lookup_insert_Some; cbn [timer owner].
    + exists (clock s + REQUEST_TIMEOUT_MS)%Z. rewrite lookup_insert_eq. split; [done|lia].
    + destruct (timer_armed0 _ _ H) as (d & Hd & Hle). exists d. split; [|done]. rewrite lookup_insert_ne; [done|].
      apply handles_fresh0 in Hd. lia.
  - intros h t [[<- <-]|[_ H]]%lookup_insert_Some; cbn [request_id].
    + eexists. rewrite lookup_insert_eq. by split.
    + destruct (timer_owned0 _ _ H) as (sl & Hs & Hh). exists sl. split; [|done]. rewrite lookup_insert_ne; [done|]. apply ids_fresh0 in Hs. lia.
  - intros id Hid. destruct (decide (id = nextRequestId s)) as [->|Hne]; [left; rewrite lookup_insert_eq; by eexists|].
    rewrite lookup_insert_ne by done. apply accounted0. lia.
  - lia.
Qed.

(** A request leaves [pending] together with its timer, and is settled. *)
Lemma consistent_release id sl who r s : pending s !! id = Some sl -> consistent s ->
  consistent (settle id who r (set_pending (delete id (pending s)) (delete (timer sl) (timers s)) s)).
Proof.
  intros Hid []. constructor; cbn [settle set_pending pending nextRequestId timers handles clock settled].
  - intros id' sl' [_ H]%lookup_delete_Some. by apply ids_fresh0 in H.
  - apply Forall_app. split.
    + eapply Forall_impl; [exact settled_old0|]. intros x [H1 H2]. split; [done|]. apply lookup_delete_None. by right.
    + constructor; [|done]. cbn. split; [by apply ids_fresh0 in Hid|]. by rewrite lookup_delete_eq.
  - rewrite map_app. apply NoDup_app. split_and!; [done| |apply NoDup_singleton].
    intros x Hx [= ->]%list_elem_of_singleton. apply list_elem_of_fmap in Hx as (y & -> & Hy).
    pose proof (proj1 (Forall_forall _ _) settled_old0 y Hy) as [_ Hn]. congruence.
  - intros h t [_ H]%lookup_delete_Some. by apply handles_fresh0 in H.
  - intros id' sl' [Hne H]%lookup_delete_Some. destruct (timer_armed0 _ _ H) as (d & Hd & Hle). exists d. split; [|done].
    apply lookup_delete_Some. split; [|done]. intros E. destruct (timer_armed0 _ _ Hid) as (d' & Hd' & _). congruence.
  - intros h t [Hne H]%lookup_delete_Some. destruct (timer_owned0 _ _ H) as (sl' & Hs & <-). exists sl'. split; [|done].
    apply lookup_delete_Some. split; [|done]. intros E. apply Hne. congruence.
  - intros id' H. rewrite map_app, elem_of_app. destruct (decide (id' = id)) as [->|Hne]; [right; right; by apply list_elem_of_singleton|].
    rewrite lookup_delete_ne by done. destruct (accounted0 _ H); auto.
  - done.
Qed.

Lemma consistent_onMessage p s : consistent s -> consistent (onMessage p s).
Proof.
  intros Hs. unfold onMessage. destruct (_ || _); [by eapply consistent_ledger, Hs|].
  destruct (reply_id p) as [| | |id| | | |]; try done. destruct (pending s !! id) as [sl|] eqn:E; [|done]. destruct (id =? 0)%Z; [done|].
  by apply consistent_release.
Qed.
Lemma consistent_expire h s : consistent s -> consistent (expire h s).
Proof.
  intros Hs. unfold expire. destruct (timers s !! h) as [t|] eqn:E; [|done].
  destruct (timer_owned s Hs _ _ E) as (sl & Hsl & <-). by apply consistent_release.
Qed.
Lemma consistent_send who msg kinds s : consistent s -> consistent (send who msg kinds None s).
Proof. intros Hs. rewrite send_enrol. by apply consistent_post, consistent_enrol. Qed.

Lemma consistent_step s s' : step s s' -> consistent s -> consistent s'.
Proof.
  intros [fp priv seed url s1|id url s1|id s1|s1|q limit s1|c r rest st out s1 Hc Hi Hh|c p rest s1 Hc Ho|h t s1 Ht Hd|t s1 Hle] Hs.
  - unfold start. destruct (boot (world s1)) as [sc w]. by apply consistent_send, (consistent_ledger s1).
  - unfold indexMessage. destruct (worker s1); [|done]. by apply consistent_post.
  - unfold cancel. destruct (worker s1); [|done]. by apply consistent_post.
  - unfold purge. destruct (worker s1); [|done]. by apply consistent_send.
  - destruct (worker s1) as [c|] eqn:Hc, (ready s1) eqn:Hr.
    2-4: unfold searchBody; rewrite Hc, ?Hr; by apply (consistent_ledger s1).
    rewrite (search_enrol _ _ _ c Hc Hr). by apply consistent_post, consistent_enrol.
  - by apply (consistent_ledger s1).
  - apply consistent_onMessage. by apply (consistent_ledger s1).
  - by apply consistent_expire.
  - destruct Hs. constructor; try done. cbn. intros id sl H. destruct (timer_armed0 _ _ H) as (d & Hd & Hle'). exists d. split; [done|lia].
Qed.
Lemma consistent_new w now : consistent (new_client w now).
Proof. constructor; cbn; try done; try (by intros ?? H; rewrite lookup_empty in H); try constructor. intros. lia. Qed.

Lemma reachable_consistent w now s : rtc step (new_client w now) s -> consistent s.
Proof.
  intros H. pose proof (consistent_new w now) as Hs. revert Hs. induction H as [|s1 s2 s3 H12 _ IH]; [done|].
  intros Hs. by apply IH, (consistent_step s1).
Qed.

(** ** Properties *)

(** C35: every request that was sent waits or was settled once.  A request that waits has
    a timer that goes off within six seconds, and when it does the promise is rejected
    and the request forgotten; no id is used twice and no promise is settled twice. *)
Theorem requests_settle_once w now s : rtc step (new_client w now) s ->
  NoDup (map (fun x => x.1.1) (settled s)) /\
  (forall id, (0 < id < nextRequestId s)%Z -> is_Some (pending s !! id) \/ id ∈ map (fun x => x.1.1) (settled s)) /\
  (forall id sl, pending s !! id = Some sl ->
     (id ∉ map (fun x => x.1.1) (settled s)) /\
     (exists d, timers s !! timer sl = Some (Timeout d id (owner sl)) /\ (d <= clock s + REQUEST_TIMEOUT_MS)%Z) /\
     settled (expire (timer sl) s) = settled s ++ [(id, owner sl, Throw "search worker timeout")] /\
     pending (expire (timer sl) s) = delete id (pending s)).
Proof.
  intros Hs%reachable_consistent. split_and!; [apply settled_once; done | by apply accounted|]. intros id sl Hid.
  destruct (timer_armed s Hs _ _ Hid) as (d & Hd & Hle). split_and!; [|by exists d|unfold expire; by rewrite Hd..].
  intros (x & -> & Hx)%list_elem_of_fmap. pose proof (proj1 (Forall_forall _ _) (settled_old s Hs) x Hx) as [_ Hn]. congruence.
Qed.
(** *** A worker that answers searches only *)

Definition is_search (r : SearchIndex.request) : bool := match r with RSearch _ _ _ => true | _ => false end.

(** No search was sent, no result is on its way, and requests only ran out of time. *)
Record unstarted (s : state) : Prop := {
  not_ready : ready s = false;
  no_search : forall c, worker s = Some c -> Forall (fun r => is_search r = false) (inbox c) /\
                Forall (fun p => reply_id p = JUndef) (outbox c);
  only_timeouts : Forall (fun x => x.1.2 <> Search /\ x.2 = Throw "search worker timeout") (settled s);
  no_search_waits : forall h t, timers s !! h = Some t -> waiting t <> Search;
  nothing_found : Forall (fun r => r = Ok (Hits [])) (returned s);
}.

Lemma unstarted_post r s : is_search r = false -> unstarted s -> unstarted (postMessage r s).
Proof.
  intros Hr []. unfold postMessage. destruct (worker s) as [c|] eqn:E; [|constructor; by rewrite ?E].
  constructor; try done. cbn. intros ? [= <-]. cbn. destruct (no_search0 c eq_refl) as [H1 H2]. split; [|done].
  apply Forall_app. split; [done|]. by constructor.
Qed.
Lemma unstarted_enrol who kinds s : who <> Search -> unstarted s -> unstarted (enrol who kinds s).
Proof.
  intros Hw []. constructor; try done. cbn. intros h t [[<- <-]|[_ H]]%lookup_insert_Some; [done|]. by apply no_search_waits0 in H.
Qed.
Lemma unstarted_send who msg kinds s : who <> Search -> is_search (msg (nextRequestId s)) = false ->
  unstarted s -> unstarted (send who msg kinds None s).
Proof. intros Hw Hm Hs. rewrite send_enrol. by apply unstarted_post, unstarted_enrol. Qed.

Lemma unstarted_onMessage p s : reply_id p = JUndef -> unstarted s -> unstarted (onMessage p s).
Proof.
  intros Hp Hs. unfold onMessage. destruct (_ || _); [by destruct Hs|]. by rewrite Hp.
Qed.
Lemma unstarted_expire h t s : timers s !! h = Some t -> unstarted s -> unstarted (expire h s).
Proof.
  intros Ht []. unfold expire. rewrite Ht. pose proof (no_search_waits0 _ _ Ht) as Hw.
  constructor; cbn [settle set_pending ready worker settled timers returned]; try done.
  - by destruct (waiting t).
  - apply Forall_app. split; [done|]. by constructor.
  - intros h' t' [_ H]%lookup_delete_Some. by apply no_search_waits0 in H.
  - by destruct (waiting t).
Qed.

Context `{!Answers B}.

Lemma unstarted_worker c r rest st out s : worker s = Some c -> inbox c = r :: rest -> handle r (wk c, world s) = (st, out) ->
  unstarted s ->
  unstarted (State (Some (Connection st.1 rest (outbox c ++ out))) (ready s) (pending s) (nextRequestId s) (timers s) (handles s) (clock s)
              (settled s) (returned s) (dispatched s) st.2).
Proof.
  intros Hc Hi Hh []. constructor; try done. cbn. intros ? [= <-]. cbn. destruct (no_search0 c Hc) as [H1 H2].
  rewrite Hi in H1. apply Forall_cons in H1 as [Hr Hrest]. split; [done|]. apply Forall_app. split; [done|].
  pose proof (answers r (wk c, world s)) as Ha. rewrite Hh in Ha. eapply Forall_impl; [exact Ha|].
  intros [| |id hits| |] Hp; try done. destruct Hp as (q & l & ->). done.
Qed.

Lemma unstarted_step s s' : step s s' -> unstarted s -> unstarted s'.
Proof.
  intros [fp priv seed url s1|id url s1|id s1|s1|q limit s1|c r rest st out s1 Hc Hi Hh|c p rest s1 Hc Ho|h t s1 Ht Hd|t s1 Hle] Hs.
  - unfold start. destruct (boot (world s1)) as [sc w]. apply unstarted_send; [done..|]. destruct Hs. constructor; try done.
    cbn. by intros ? [= <-].
  - unfold indexMessage. destruct (worker s1); [|done]. by apply unstarted_post.
  - unfold cancel. destruct (worker s1); [|done]. by apply unstarted_post.
  - unfold purge. destruct (worker s1); [|done]. by apply unstarted_send.
  - destruct Hs. unfold searchBody. rewrite not_ready0. assert (match worker s1 with Some _ | None => set_returned (returned s1 ++ [Ok (Hits [])]) s1 end =
      set_returned (returned s1 ++ [Ok (Hits [])]) s1) as -> by by destruct (worker s1).
    constructor; try done. cbn. apply Forall_app. split; [done|]. by constructor.
  - by apply (unstarted_worker c r).
  - pose proof (no_search s1 Hs c Hc) as [H1 H2]. rewrite Ho in H2. apply Forall_cons in H2 as [Hp Hrest].
    apply unstarted_onMessage; [done|]. destruct Hs. constructor; try done. cbn. by intros ? [= <-].
  - by apply (unstarted_expire h t).
  - by destruct Hs.
Qed.

Lemma reachable_unstarted w now s : rtc step (new_client w now) s -> unstarted s.
Proof.
  intros H. assert (unstarted (new_client w now)) as Hs by (constructor; cbn; try done; by intros ?? Hh; rewrite lookup_empty in Hh).
  revert Hs. induction H as [|s1 s2 s3 H12 _ IH]; [done|]. intros Hs. by apply IH, (unstarted_step s1).
Qed.

(** the search never starts.  [start] waits for an answer under the id of its
    request, and the worker answers [init] and [purge] without one: whatever the worker
    does, as long as it posts results only in answer to searches, [ready] stays false,
    [start] and [purge] only end in a timeout, no search is sent, and every search of
    message bodies finds nothing. *)
Theorem search_never_starts w now s : rtc step (new_client w now) s ->
  ready s = false /\
  Forall (fun x => x.2 = Throw "search worker timeout") (settled s) /\
  (forall c, worker s = Some c -> Forall (fun r => is_search r = false) (inbox c)) /\
  Forall (fun r => r = Ok (Hits [])) (returned s).
Proof.
  intros Hs%reachable_unstarted. split_and!; try by destruct Hs.
  - eapply Forall_impl; [apply only_timeouts, Hs|]. by intros x [].
  - intros c Hc. by apply (no_search s Hs c Hc).
Qed.
End Client.

(** ** The worker of this repository *)

Section Worker.
Context `{WebCrypto}.
Variable hkdf : string -> string -> string -> res aeskey.
Variable random_nonce : nat -> string.
Variable log : double -> double.
Variable DOMParser : option HtmlText.dom.
Variable segmenter : option SearchText.segmenter.
Variable parse_url : string -> string -> option HtmlText.url.
Variable location : string.
Variable importScripts : string -> res unit.
Variable fetch_blob : string -> res string.
Variable openpgp_decrypt : Payload.pgp_source -> string -> res string.
Variable now : Z.

Definition forget_posted (w : SearchIndex.worker) : SearchIndex.worker :=
  Worker (wk_db w) (indexKey w) (identityFingerprint w) (identityArmoredPrivate w) (openpgpReady w) (openpgp_defined w)
    (inflight w) (aborted w) (controllers w) [].

(** A new script finds the database as the last one left it. *)
#[export] Instance search_worker : Backend := {|
  script := SearchIndex.worker;
  shared := Idb.world;
  boot w := (fresh_worker false, World (w_db w) None (w_draws w));
  handle r st :=
    let st := onmessage hkdf random_nonce log DOMParser segmenter parse_url location importScripts fetch_blob openpgp_decrypt now r (forget_posted st.1, st.2) in
    (st, posted st.1);
|}.
#[export] Instance search_worker_answers : Answers search_worker.
Proof. intros r st. cbn. apply onmessage_answers. constructor. Qed.
End Worker.

(** ** The search over all sources ([searchAll]) *)

(** A row of any source; ids are what the source put there. *)
Record row := Row {
  r_message_id : jsval;
  r_id : jsval;
  r_score : option double;
  r_source : string;
  r_fields : list (string * jsval);
}.
Definition row_of_hit (h : hit) : row :=
  Row (h_message_id h) JUndef (Some (h_score h)) "local-body" [("snippet", h_snippet h); ("indexed_at", h_indexed_at h)].

Definition serverMetadataSearch (origin q : string) (fields : list string) (limit : nat) : prog (list row) :=
  resp <- Http.send (call_query origin GET "/api/v1/mail/search/metadata"
            (search_params [("q", q); ("fields", join "," fields); ("limit", Z_to_string (Z.of_nat limit))])) ;;
  if negb (rp_ok resp) then
    if (rp_status resp =? 400)%Z then Ret [] else Raise (with_status "metadata search" resp)
  else
    body <- json resp ;;
    hits <- lift (getp body "hits") ;;
    match js_or hits (JArr []) with
    | JArr l => lift (res_mapM (fun h =>
        res_bind (getp h "id") (fun id =>
        Ok (Row id id (Some (of_Z 1)) "server-metadata" (match h with JObj fs => fs | _ => [] end)))) l)
    | _ => Raise "TypeError"
    end.

(** What [Map] says of two ids; ids that are objects are never the same object. *)
Definition same_id (a b : jsval) : bool :=
  match a, b with
  | JStr x, JStr y => x =s? y
  | JNum x, JNum y => (x =? y)%Z
  | JBool x, JBool y => Bool.eqb x y
  | _, _ => false
  end.

Record merged := Merged { m_id : jsval; m_row : row; m_score : option double; sources : list string }.

(** [s || 0] *)
Definition score_or_0 (s : option double) : double :=
  match s with
  | None => of_Z 0
  | Some x => if SFeqb x (of_Z 0) || (if x is S754_nan then true else false) then of_Z 0 else x
  end.

Definition ident (r : row) : jsval := js_or (r_message_id r) (r_id r).

(** The body of the loop over the rows. *)
Fixpoint add_row (r : row) (seen : list merged) : list merged :=
  match seen with
  | [] => [Merged (ident r) r (r_score r) [r_source r]]
  | cur :: rest =>
      if same_id (m_id cur) (ident r) then
        Merged (m_id cur) (m_row cur) (Some (fadd (score_or_0 (m_score cur)) (score_or_0 (r_score r))))
          (if str_mem (r_source r) (sources cur) then sources cur else sources cur ++ [r_source r]) :: rest
      else cur :: add_row r rest
  end.
Definition merge_rows (all : list row) : list merged :=
  fold_left (fun seen r => if truthy (ident r) then add_row r seen else seen) all [].

(** [sort((a, b) => (b.score || 0) - (a.score || 0))] *)
Fixpoint insert_merged (x : merged) (l : list merged) : list merged :=
  match l with
  | [] => [x]
  | y :: l' => if SFltb (of_Z 0) (fsub (score_or_0 (m_score y)) (score_or_0 (m_score x))) then y :: insert_merged x l' else x :: l
  end.
Definition rank_rows (limit : nat) (all : list row) : list merged := take limit (foldr insert_merged [] (merge_rows all)).

(** The rows of the worker and of the headers as their promises settle; the
    rejection of the first source in this order is reported. *)
Definition searchAll (origin q : string) (body : res (list hit)) (fields : option (list string)) (limit : nat)
    (headersFallback : option (string -> nat -> res (list row))) : prog (list merged) :=
  if q =s? "" then Ret []
  else
    local <- lift body ;;
    server <- (match fields with Some (f :: fs) => serverMetadataSearch origin q (f :: fs) limit | _ => Ret [] end) ;;
    headers <- (match headersFallback with Some h => lift (h q limit) | None => Ret [] end) ;;
    Ret (rank_rows limit (map row_of_hit local ++ server ++ headers)).

(** *** Merging, seen from the result *)

Definition id_of (r : row) : option string := match ident r with JStr s => if s =s? "" then None else Some s | _ => None end.
Definition rows_of (k : string) (all : list row) : list row := List.filter (fun r => match id_of r with Some s => s =s? k | None => false end) all.
Definition summary (all : list row) (k : string) : option merged :=
  match rows_of k all with
  | [] => None
  | r :: rs => Some (Merged (JStr k) r
      (fold_left (fun s r => Some (fadd (score_or_0 s) (score_or_0 (r_score r)))) rs (r_score r)) (distinct (map r_source (r :: rs))))
  end.

Definition ids (all : list row) : list string := omap id_of all.
Definition string_ids (all : list row) : Prop := Forall (fun r => truthy (ident r) = true -> exists s, ident r = JStr s) all.

Lemma distinct_snoc l w : distinct (l ++ [w]) = if str_mem w (distinct l) then distinct l else distinct l ++ [w].
Proof. unfold distinct. by rewrite fold_left_app. Qed.
Lemma elem_of_distinct l w : w ∈ distinct l <-> w ∈ l.
Proof.
  induction l as [|x l IH] using rev_ind; [done|]. rewrite distinct_snoc. destruct (str_mem x (distinct l)) eqn:E.
  - apply str_mem_spec in E. rewrite elem_of_app, list_elem_of_singleton, <- IH. split; [by left|]. by intros [? | ->].
  - by rewrite !elem_of_app, IH.
Qed.
Lemma NoDup_distinct l : NoDup (distinct l).
Proof.
  induction l as [|x l IH] using rev_ind; [constructor|]. rewrite distinct_snoc. destruct (str_mem x (distinct l)) eqn:E; [done|].
  apply str_mem_false in E. apply NoDup_app. split_and!; [done| |apply NoDup_singleton].
  intros y Hy ->%list_elem_of_singleton. done.
Qed.

Lemma id_of_ident r k : id_of r = Some k -> ident r = JStr k /\ truthy (ident r) = true.
Proof. unfold id_of. destruct (ident r) as [| | | | |s| |]; try done. destruct (s =? "")%string eqn:E; [done|]. intros [= ->]. cbn. by rewrite E. Qed.
Lemma id_of_string r : (truthy (ident r) = true -> exists s, ident r = JStr s) -> id_of r = None -> truthy (ident r) = false.
Proof.
  intros Hs Hn. destruct (truthy (ident r)) eqn:E; [|done]. destruct (Hs eq_refl) as [s Hid]. unfold id_of in Hn. rewrite Hid in Hn, E.
  cbn in E. by destruct (s =? "")%string.
Qed.

Lemma rows_of_snoc k all r : rows_of k (all ++ [r]) = rows_of k all ++ (if decide (id_of r = Some k) then [r] else []).
Proof.
  unfold rows_of. rewrite List.filter_app. f_equal. cbn. destruct (id_of r) as [s|] eqn:E; [|by rewrite decide_False].
  destruct (String.eqb_spec s k) as [->|Hne]; [by rewrite decide_True|]. rewrite decide_False; [done|congruence].
Qed.
Lemma rows_of_elem k all : rows_of k all <> [] <-> k ∈ ids all.
Proof.
  induction all as [|r all IH] using rev_ind; [by split; [|intros ?%elem_of_nil]|]. rewrite rows_of_snoc. unfold ids. rewrite omap_app, elem_of_app. fold (ids all).
  rewrite <- IH. cbn. destruct (id_of r) as [s|] eqn:E.
  - destruct (decide (Some s = Some k)) as [[= ->]|Hne].
    + split; [intros _; right; by apply list_elem_of_singleton|]. intros _ Hnil%app_eq_nil. by destruct Hnil.
    + rewrite app_nil_r. split; [by left|]. intros [|H%list_elem_of_singleton]; [done|congruence].
  - rewrite decide_False by done. rewrite app_nil_r. split; [by left|]. by intros [|?%elem_of_nil].
Qed.

(** The merged row after one more row under its id. *)
Definition bump_row (r : row) (cur : merged) : merged :=
  Merged (m_id cur) (m_row cur) (Some (fadd (score_or_0 (m_score cur)) (score_or_0 (r_score r))))
    (if str_mem (r_source r) (sources cur) then sources cur else sources cur ++ [r_source r]).
Lemma summary_same all r k m : id_of r = Some k -> summary all k = Some m -> summary (all ++ [r]) k = Some (bump_row r m).
Proof.
  intros Hk. unfold summary. rewrite rows_of_snoc, decide_True by done. destruct (rows_of k all) as [|r0 rs]; [done|].
  intros [= <-]. cbn [app]. rewrite fold_left_app, app_comm_cons, map_app. cbn [map]. by rewrite distinct_snoc.
Qed.
Lemma summary_other all r k : id_of r <> Some k -> summary (all ++ [r]) k = summary all k.
Proof. intros Hk. unfold summary. by rewrite rows_of_snoc, decide_False, app_nil_r. Qed.
Lemma summaries_other all r (D : list string) : (forall k, k ∈ D -> id_of r <> Some k) -> omap (summary all) D = omap (summary (all ++ [r])) D.
Proof.
  induction D as [|d D IH]; intros Hr; [done|]. cbn. rewrite (summary_other all r d) by (apply Hr; by left).
  rewrite IH; [done|]. intros k Hk. apply Hr. by right.
Qed.
Lemma summary_new all r k : id_of r = Some k -> k ∉ ids all -> summary (all ++ [r]) k = Some (Merged (JStr k) r (r_score r) [r_source r]).
Proof.
  intros Hk Hn. unfold summary. rewrite rows_of_snoc, decide_True by done. destruct (rows_of k all) eqn:E; [done|].
  destruct Hn. apply rows_of_elem. by rewrite E.
Qed.
Lemma summary_id all k m : summary all k = Some m -> m_id m = JStr k.
Proof. unfold summary. destruct (rows_of k all); [done|]. by intros [= <-]. Qed.

Lemma add_row_new all r k D : id_of r = Some k -> k ∉ D ->
  add_row r (omap (summary all) D) = omap (summary all) D ++ [Merged (JStr k) r (r_score r) [r_source r]].
Proof.
  intros Hk. destruct (id_of_ident _ _ Hk) as [Hid _]. induction D as [|d D IH]; intros Hn; cbn; [by rewrite Hid|].
  apply not_elem_of_cons in Hn as [Hne Hn]. destruct (summary all d) as [m|] eqn:E; [|by apply IH].
  cbn. rewrite (summary_id _ _ _ E), Hid. cbn [same_id]. destruct (String.eqb_spec d k) as [->|_]; [done|]. by rewrite (IH Hn).
Qed.
Lemma add_row_old all r k D : id_of r = Some k -> NoDup D -> k ∈ D -> k ∈ ids all ->
  add_row r (omap (summary all) D) = omap (summary (all ++ [r])) D.
Proof.
  intros Hk. destruct (id_of_ident _ _ Hk) as [Hid _]. intros HD Hin Hall. induction D as [|d D IH]; [by apply elem_of_nil in Hin|].
  apply NoDup_cons in HD as [Hd HD]. destruct (decide (d = k)) as [->|Hne].
  - cbn. destruct (summary all k) as [m|] eqn:E.
    + rewrite (summary_same _ _ _ _ Hk E). cbn. rewrite (summary_id _ _ _ E), Hid. cbn [same_id]. rewrite String.eqb_refl.
      unfold bump_row at 1. rewrite (summary_id _ _ _ E). f_equal. apply summaries_other. congruence.
    + unfold summary in E. destruct (rows_of k all) eqn:E'; [|done]. by apply rows_of_elem in Hall.
  - apply elem_of_cons in Hin as [->|Hin]; [done|]. cbn. rewrite (summary_other all r d) by congruence.
    destruct (summary all d) as [m|] eqn:E; [|by apply IH]. cbn. rewrite (summary_id _ _ _ E), Hid. cbn [same_id].
    destruct (String.eqb_spec d k) as [|_]; [done|]. by rewrite (IH HD Hin).
Qed.

Lemma ids_snoc all r : ids (all ++ [r]) = ids all ++ match id_of r with Some k => [k] | None => [] end.
Proof. unfold ids. rewrite omap_app. cbn. by destruct (id_of r). Qed.
Lemma merge_rows_summary all : string_ids all -> merge_rows all = omap (summary all) (distinct (ids all)).
Proof.
  induction all as [|r all IH] using rev_ind; intros Hs; [done|]. apply Forall_app in Hs as [Hs Hr]. apply Forall_cons in Hr as [Hr _].
  unfold merge_rows. rewrite fold_left_app. fold (merge_rows all). cbn [fold_left]. rewrite ids_snoc.
  destruct (id_of r) as [k|] eqn:Hk.
  - destruct (id_of_ident _ _ Hk) as [_ ->]. rewrite (IH Hs), distinct_snoc. destruct (str_mem k (distinct (ids all))) eqn:E.
    + apply str_mem_spec in E. apply (add_row_old all r k); [done|apply NoDup_distinct|done|by apply elem_of_distinct].
    + apply str_mem_false in E. rewrite (add_row_new all r k) by done. rewrite omap_app. cbn. rewrite elem_of_distinct in E.
      rewrite (summary_new all r k) by done. f_equal. apply summaries_other. intros x Hx. rewrite Hk. intros [= ->]. by rewrite elem_of_distinct in Hx.
  - rewrite (id_of_string r Hr Hk), (IH Hs), app_nil_r. apply summaries_other. intros x _. by rewrite Hk.
Qed.

Lemma insert_merged_perm x l : Permutation (insert_merged x l) (x :: l).
Proof. induction l as [|y l IH]; cbn; [done|]. destruct (SFltb _ _); [|done]. rewrite IH. apply perm_swap. Qed.
Lemma ranked_perm l : Permutation (foldr insert_merged [] l) l.
Proof. induction l as [|x l IH]; [done|]. cbn. by rewrite insert_merged_perm, IH. Qed.

(** the hits of all sources become one hit per message: the first row under each id,
    with the sum of the scores and the sources that found it, each once, in the order
    in which the messages and the sources first occur; ranking reorders and cuts this list. *)
Theorem one_hit_per_message limit all : string_ids all ->
  merge_rows all = omap (summary all) (distinct (ids all)) /\
  NoDup (map m_id (merge_rows all)) /\
  exists rest, Permutation (rank_rows limit all ++ rest) (merge_rows all).
Proof.
  intros Hs. rewrite (merge_rows_summary all Hs). split_and!; [done| |].
  - pose proof (NoDup_distinct (ids all)) as HD. revert HD. generalize (distinct (ids all)) as D. induction D as [|d D IH]; intros HD; [constructor|].
    apply NoDup_cons in HD as [Hd HD]. cbn. destruct (summary all d) as [m|] eqn:E; [|by apply IH]. cbn. apply NoDup_cons. split; [|by apply IH].
    intros (m' & Hm & (d' & Hd' & E')%list_elem_of_omap)%list_elem_of_fmap. rewrite (summary_id _ _ _ E), (summary_id _ _ _ E') in Hm.
    congruence.
  - exists (drop limit (foldr insert_merged [] (merge_rows all))). unfold rank_rows. rewrite take_drop, (merge_rows_summary all Hs). apply ranked_perm.
Qed.

(** ** Witnesses *)

(** A start, an attempt to search, and six seconds. *)
Section Sample.
Local Instance sample_worker : Backend :=
  search_worker (H := toy_crypto) (fun s _ _ => Ok s) (fun _ => "nonce-nonce-") (fun x => x) None None
    (fun _ _ => None) "" (fun _ => Ok tt) (fun _ => Ok "body") (fun _ _ => Ok "a plain body text") 0.
Definition sample0 : state := new_client (World ∅ None 0) 0.
Definition sample1 : state := start "FP" "key" (Bytes "seed") "" sample0.
Definition take_message (s : state) : state :=
  match worker s with
  | Some c =>
      match inbox c with
      | r :: rest => State (Some (Connection (handle r (wk c, world s)).1.1 rest (outbox c ++ (handle r (wk c, world s)).2))) (ready s) (pending s)
                       (nextRequestId s) (timers s) (handles s) (clock s) (settled s) (returned s) (dispatched s) (handle r (wk c, world s)).1.2
      | [] => s
      end
  | None => s
  end.
Definition take_reply (s : state) : state :=
  match worker s with
  | Some c => match outbox c with p :: rest => onMessage p (set_worker (Some (Connection (wk c) (inbox c) rest)) s) | [] => s end
  | None => s
  end.
Definition has_message (s : state) : bool := match worker s with Some c => match inbox c with [] => false | _ => true end | None => false end.
Definition has_reply (s : state) : bool := match worker s with Some c => match outbox c with [] => false | _ => true end | None => false end.
Lemma step_take_message s : has_message s = true -> step s (take_message s).
Proof.
  unfold has_message, take_message. destruct (worker s) as [c|] eqn:Hc; [|done]. destruct (inbox c) as [|r rest] eqn:Hi; [done|]. intros _.
  apply (step_worker c r rest); [done..|]. apply surjective_pairing.
Qed.
Lemma step_take_reply s : has_reply s = true -> step s (take_reply s).
Proof.
  unfold has_reply, take_reply. destruct (worker s) as [c|] eqn:Hc; [|done]. destruct (outbox c) as [|p rest] eqn:Ho; [done|]. intros _.
  by apply (step_reply c p rest).
Qed.
Lemma step_due h s : match timers s !! h with Some t => (due t <=? clock s)%Z | None => false end = true -> step s (expire h s).
Proof. destruct (timers s !! h) as [t|] eqn:E; [|done]. intros Ht. apply (step_expire h t); [done|lia]. Qed.

Definition sample : state := expire 0 (set_clock 6000 (searchBody (JStr "body") (JNum 25) (take_reply (take_message sample1)))).
Lemma sample_reachable : rtc step sample0 sample.
Proof.
  apply (rtc_l _ _ sample1); [apply step_start|].
  apply (rtc_l _ _ (take_message sample1)); [apply step_take_message; vm_compute; reflexivity|].
  apply (rtc_l _ _ (take_reply (take_message sample1))); [apply step_take_reply; vm_compute; reflexivity|].
  eapply rtc_l; [apply (step_search (JStr "body") (JNum 25))|].
  eapply rtc_l; [apply (step_clock 6000); vm_compute; congruence|].
  apply rtc_once, step_due. vm_compute. reflexivity.
Qed.

Lemma search_never_starts_witness :
  rtc step sample0 sample /\ settled sample = [(1%Z, Start, Throw "search worker timeout")] /\ returned sample = [Ok (Hits [])] /\ ready sample = false.
Proof.
  pose proof (search_never_starts (World ∅ None 0) 0 sample sample_reachable) as [Hr _].
  split; [apply sample_reachable|]. split; [vm_compute; reflexivity|]. split; [vm_compute; reflexivity|exact Hr].
Defined.
Lemma requests_settle_once_witness :
  rtc step sample0 sample1 /\ pending sample1 !! 1%Z = Some (Slot ["ready"] Start 0) /\
  settled (expire 0 sample1) = [(1%Z, Start, Throw "search worker timeout")].
Proof.
  assert (rtc step sample0 sample1) as Hs by apply rtc_once, step_start.
  pose proof (requests_settle_once (World ∅ None 0) 0 sample1 Hs) as (_ & _ & T).
  split; [exact Hs|]. split; [vm_compute; reflexivity|]. apply (T 1%Z (Slot ["ready"] Start 0)). vm_compute. reflexivity.
Defined.
End Sample.

Definition sample_rows : list row :=
  [Row (JStr "m1") JUndef (Some (of_Z 2)) "local-body" []; Row (JStr "m2") (JStr "m2") (Some (of_Z 1)) "server-metadata" [];
   Row JUndef (JStr "m1") (Some (of_Z 1)) "headers" []; Row JUndef JUndef None "headers" []].
Lemma one_hit_per_message_witness :
  string_ids sample_rows /\ map (fun m => (m_id m, sources m)) (merge_rows sample_rows) = [(JStr "m1", ["local-body"; "headers"]); (JStr "m2", ["server-metadata"])] /\
  omap (summary sample_rows) (distinct (ids sample_rows)) = merge_rows sample_rows.
Proof.
  assert (string_ids sample_rows) as Hs.
  { unfold string_ids, sample_rows. repeat constructor; cbn; try done; intros _; by eexists. }
  split; [exact Hs|]. split; [vm_compute; reflexivity|]. symmetry. exact (proj1 (one_hit_per_message 2 sample_rows Hs)).
Defined.
