(* ===== verification/ServiceWorker.v ===== *)
(** * The service worker ([static/sw.js])

    Which requests are answered from a cache, from the network or not at all, the
    two strategies that use a cache, and the events that fill and clear the caches.
    The network and the failures of the cache API are oracles over a count of the
    operations; one event is handled to its end before the next. *)
From Stdlib Require Import ZArith Lia.
From stdpp Require Import gmap strings list.
From S2P Require Import Prelude JsString JsValue.

(** ** Requests and responses *)

Record url := Url { u_origin : string; u_hostname : string; u_pathname : string; u_search : string }.
#[export] Instance url_eq_dec : EqDecision url.
Proof. solve_decision. Defined.
#[export] Instance url_countable : Countable url.
Proof.
  apply (inj_countable' (fun u => (u_origin u, u_hostname u, u_pathname u, u_search u)) (fun t => Url t.1.1.1 t.1.1.2 t.1.2 t.2)).
  by intros [].
Defined.

(** [rq_url]: [None] when [new URL(req.url)] throws. *)
Record request := Request { rq_method : string; rq_url : option url; destination : string; mode : string }.
Definition get_of (u : url) : request := Request "GET" (Some u) "" "".

(** [r_vary_any]: the header [Vary: *]. *)
Record response := Response { r_status : Z; r_body : string; r_vary_any : bool }.
Definition r_ok (r : response) : bool := ((200 <=? r_status r) && (r_status r <=? 299))%Z.
Definition response_error : response := Response 0 "" false.

Section ServiceWorker.
(** What the build puts before the script, and [self.location]. *)
Variables ASSET_Q VER ORIGIN HOST : string.
(** The answers of the network and the failures of the cache API. *)
Variable net : nat -> request -> option response.
Variable broken : nat -> bool.

Definition PRECACHE : string := "elvish-pc-" +:+ VER.
Definition RUNTIME : string := "elvish-rt-" +:+ VER.
Definition withQuery (path : string) : url := Url ORIGIN HOST path ASSET_Q.
Definition PRECACHE_URLS : list url := [withQuery "/styles.css"; withQuery "/page.css"; withQuery "/site.js"].

(** ** Asynchronous code *)

Record world := World { caches : gmap string (gmap url response); ticks : nat }.
Definition sw (A : Type) : Type := world -> res A * world.

Definition ret {A} (a : A) : sw A := fun w => (Ok a, w).
Definition bind {A B} (m : sw A) (k : A -> sw B) : sw B := fun w =>
  match m w with (Ok a, w) => k a w | (Throw e, w) => (Throw e, w) end.
Definition catch {A} (m : sw A) (h : sw A) : sw A := fun w =>
  match m w with (Ok a, w) => (Ok a, w) | (Throw _, w) => h w end.
Local Notation "x <- m ;; k" := (bind m (fun x => k)) (at level 100, m at next level, right associativity).

Definition fetch (rq : request) : sw response := fun w =>
  let w' := World (caches w) (S (ticks w)) in
  match net (ticks w) rq with Some r => (Ok r, w') | None => (Throw "TypeError: Failed to fetch", w') end.

(** An operation of the cache API. *)
Definition cache_op {A} (k : gmap string (gmap url response) -> res A * gmap string (gmap url response)) : sw A := fun w =>
  if broken (ticks w) then (Throw "InvalidStateError", World (caches w) (S (ticks w)))
  else let '(r, c) := k (caches w) in (r, World c (S (ticks w))).

Definition caches_open (name : string) : sw unit := cache_op (fun c =>
  (Ok tt, match c !! name with Some _ => c | None => <[name := ∅]> c end)).
Definition caches_keys : sw (list string) := cache_op (fun c => (Ok (map fst (map_to_list c)), c)).
Definition caches_delete (name : string) : sw unit := cache_op (fun c => (Ok tt, delete name c)).
(** [cache.match(request, { ignoreVary: true })] *)
Definition cache_match (name : string) (rq : request) : sw (option response) := cache_op (fun c =>
  (Ok (match rq_url rq with Some u => default ∅ (c !! name) !! u | None => None end), c)).
(** [cache.put] refuses partial answers and those that vary on everything. *)
Definition cache_put (name : string) (rq : request) (r : response) : sw unit := cache_op (fun c =>
  match rq_url rq with
  | Some u =>
      if (r_status r =? 206)%Z || r_vary_any r then (Throw "TypeError", c)
      else (Ok tt, <[name := <[u := r]> (default ∅ (c !! name))]> c)
  | None => (Throw "TypeError", c)
  end).
(** [cache.add] *)
Definition cache_add (name : string) (u : url) : sw unit :=
  r <- fetch (get_of u) ;;
  if r_ok r then cache_put name (get_of u) r else fun w => (Throw "TypeError", w).

(** ** Installation and activation *)

Fixpoint add_all (urls : list url) : sw unit :=
  match urls with
  | [] => ret tt
  | u :: urls => _ <- catch (cache_add PRECACHE u) (ret tt) ;; add_all urls
  end.
Definition install : sw unit := _ <- caches_open PRECACHE ;; add_all PRECACHE_URLS.

Definition outdated (k : string) : bool :=
  (starts_with k "elvish-pc-" && negb (k =s? PRECACHE)) || (starts_with k "elvish-rt-" && negb (k =s? RUNTIME)).
Fixpoint delete_all (names : list string) : sw unit :=
  match names with [] => ret tt | k :: names => _ <- caches_delete k ;; delete_all names end.
Definition activate : sw unit := keys <- caches_keys ;; delete_all (List.filter outdated keys).

(** ** Strategies *)

Definition isSameOrigin (u : url) : bool := u_origin u =s? ORIGIN.
Definition respondSafe (rq : request) (p : sw response) : sw response := catch p (catch (fetch rq) (ret response_error)).
Definition networkErrorHtmlResponse : response := Response 503
  ("<!DOCTYPE html><html><head><meta charset=" +:+ dquote +:+ "utf-8" +:+ dquote +:+ "><title>Unavailable</title></head><body><p>Could not reach the server. Check your connection and try again.</p></body></html>") false.

Definition fetch_or_error (rq : request) : sw response := catch (fetch rq) (ret response_error).

Definition cacheFirst (rq : request) (cacheName : string) : sw response := fun w =>
  match caches_open cacheName w with
  | (Throw _, w) => fetch_or_error rq w
  | (Ok _, w) =>
      (hit <- catch (cache_match cacheName rq) (ret None) ;;
       match hit with
       | Some r => ret r
       | None =>
           r <- catch (r <- fetch rq ;; ret (Some r)) (ret None) ;;
           match r with
           | Some r => _ <- (if r_ok r then catch (cache_put cacheName rq r) (ret tt) else ret tt) ;; ret r
           | None => ret response_error
           end
       end) w
  end.

(** The promise [network]: fetched, stored when it is good, [null] when anything fails. *)
Definition revalidate (rq : request) (cacheName : string) : sw (option response) :=
  catch (r <- fetch rq ;; if r_ok r then (_ <- cache_put cacheName rq r ;; ret (Some r)) else ret (Some r)) (ret None).

Definition staleWhileRevalidate (rq : request) (cacheName : string) : sw response := fun w =>
  match caches_open cacheName w with
  | (Throw _, w) => fetch_or_error rq w
  | (Ok _, w) =>
      (cached <- catch (cache_match cacheName rq) (ret None) ;;
       fresh <- revalidate rq cacheName ;;
       match cached, fresh with
       | Some r, _ => ret r
       | None, Some r => ret r
       | None, None => ret response_error
       end) w
  end.

(** ** The [fetch] event *)

(** How an event is answered; [Pass]: [respondWith] is not called. *)
Inductive strategy := Pass | NetworkAsIs | NetworkOrError | NetworkOrPage | CacheFirst | Revalidate.

Definition private_ui (path : string) : bool := (path =s? "/admin") || starts_with path "/admin/" || starts_with path "/auth/".
Definition login_page (path : string) : bool := (path =s? "/login") || (path =s? "/register").
Definition mail_page (path : string) : bool := (path =s? "/mail") || (path =s? "/mail/").
Definition script_or_style (path : string) : bool := ends_with path ".css" || ends_with path ".js".
Definition feed (path : string) : bool := (path =s? "/feed.xml") || (path =s? "/feed.json") || (path =s? "/atom.xml") || (path =s? "/signing.pub").
Definition navigation (rq : request) : bool := (destination rq =s? "document") || (mode rq =s? "navigate").
Definition document_file (path : string) : bool := ends_with path ".md" || ends_with path ".minisig" || ends_with path ".html".
Definition google_fonts (u : url) : bool := (u_hostname u =s? "fonts.gstatic.com") || (u_hostname u =s? "fonts.googleapis.com").

Definition route (rq : request) : strategy :=
  if negb (rq_method rq =s? "GET") then Pass
  else match rq_url rq with
  | None => NetworkAsIs
  | Some u =>
      if google_fonts u then Revalidate
      else if negb (isSameOrigin u) then Pass
      else
        let path := u_pathname u in
        if private_ui path then NetworkOrError
        else if login_page path then NetworkOrPage
        else if mail_page path then NetworkOrPage
        else if starts_with path "/dist/" then NetworkOrError
        else if script_or_style path then CacheFirst
        else if feed path then Revalidate
        else if navigation rq then Revalidate
        else if document_file path then Revalidate
        else if starts_with path "/api/" then NetworkOrError
        else Revalidate
  end.

Definition respond (rq : request) : option (sw response) :=
  match route rq with
  | Pass => None
  | NetworkAsIs => Some (respondSafe rq (fetch rq))
  | NetworkOrError => Some (respondSafe rq (fetch_or_error rq))
  | NetworkOrPage => Some (respondSafe rq (catch (fetch rq) (ret networkErrorHtmlResponse)))
  | CacheFirst => Some (respondSafe rq (cacheFirst rq PRECACHE))
  | Revalidate => Some (respondSafe rq (staleWhileRevalidate rq RUNTIME))
  end.

(** What the page gets ([None]: the browser goes on as without a worker), and the world after it. *)
Definition on_fetch (rq : request) : sw (option response) :=
  match respond rq with None => ret None | Some p => r <- p ;; ret (Some r) end.

Inductive event := Install | Activate | Fetched (rq : request).
Definition handle (e : event) : sw unit :=
  match e with
  | Install => install
  | Activate => activate
  | Fetched rq => _ <- on_fetch rq ;; ret tt
  end.
Definition after (w : world) (e : event) : world := (handle e w).2.

(** ** Lemmas *)

(** The computations that keep a property of the caches. *)
Definition keeps {A} (P : gmap string (gmap url response) -> Prop) (m : sw A) : Prop := forall w, P (caches w) -> P (caches (m w).2).

Lemma keeps_ret {A} P (a : A) : keeps P (ret a).
Proof. by intros w. Qed.
Lemma keeps_bind {A B} P (m : sw A) (k : A -> sw B) : keeps P m -> (forall a, keeps P (k a)) -> keeps P (bind m k).
Proof. intros Hm Hk w Hw. unfold bind. specialize (Hm w Hw). destruct (m w) as [[a|e] w']; [by apply Hk|done]. Qed.
Lemma keeps_catch {A} P (m h : sw A) : keeps P m -> keeps P h -> keeps P (catch m h).
Proof. intros Hm Hh w Hw. unfold catch. specialize (Hm w Hw). destruct (m w) as [[a|e] w']; [done|by apply Hh]. Qed.
Lemma keeps_fetch P rq : keeps P (fetch rq).
Proof. intros w Hw. unfold fetch. by destruct (net _ _). Qed.
Lemma keeps_op {A} P (k : gmap string (gmap url response) -> res A * gmap string (gmap url response)) :
  (forall c, P c -> P (k c).2) -> keeps P (cache_op k).
Proof. intros Hk w Hw. unfold cache_op. destruct (broken _); [done|]. specialize (Hk _ Hw). by destruct (k (caches w)). Qed.
Lemma keeps_match P name rq : keeps P (cache_match name rq).
Proof. by apply keeps_op. Qed.
#[local] Hint Resolve keeps_ret keeps_fetch keeps_match : js.

(** What lies in the caches: good answers, under a request that is routed to the cache. *)
Definition stored_by (name : string) (u : url) : Prop :=
  exists rq, rq_url rq = Some u /\ ((name = PRECACHE /\ route rq = CacheFirst) \/ (name = RUNTIME /\ route rq = Revalidate)).
Definition sound (c : gmap string (gmap url response)) : Prop :=
  forall name st u r, c !! name = Some st -> st !! u = Some r -> r_ok r = true /\ stored_by name u.

Lemma sound_put name rq r : r_ok r = true -> (forall u, rq_url rq = Some u -> stored_by name u) -> keeps sound (cache_put name rq r).
Proof.
  intros Hr Hs. apply keeps_op. intros c Hc. destruct (rq_url rq) as [u|]; [|done]. destruct (_ || _); [done|]. cbn.
  intros name' st u' r' [[<- <-]|[_ Hst]]%lookup_insert_Some Hu; [|by apply (Hc name' st)].
  apply lookup_insert_Some in Hu as [[<- <-]|[_ Hu]]; [split; [done|by apply Hs]|].
  destruct (c !! name) as [st|] eqn:E; cbn in Hu; [by apply (Hc name st)|by rewrite lookup_empty in Hu].
Qed.
Lemma sound_open name : keeps sound (caches_open name).
Proof.
  apply keeps_op. intros c Hc. cbn. destruct (c !! name) eqn:E; [done|].
  intros name' st u r [[<- <-]|[_ Hst]]%lookup_insert_Some Hu; [by rewrite lookup_empty in Hu|by apply (Hc name' st)].
Qed.
Lemma sound_delete name : keeps sound (caches_delete name).
Proof. apply keeps_op. intros c Hc name' st u r; cbn; intros [_ Hst]%lookup_delete_Some. by apply Hc. Qed.

Lemma sound_add u : route (get_of u) = CacheFirst -> keeps sound (cache_add PRECACHE u).
Proof.
  intros Hu. apply keeps_bind; [auto with js|]. intros r. destruct (r_ok r) eqn:Hr; [|by intros w].
  apply sound_put; [done|]. intros u' [= <-]. exists (get_of u). by split; [|left].
Qed.
Lemma sound_cacheFirst rq : route rq = CacheFirst -> keeps sound (cacheFirst rq PRECACHE).
Proof.
  intros Hrq w Hw. unfold cacheFirst. pose proof (sound_open PRECACHE w Hw) as Ho. destruct (caches_open PRECACHE w) as [[[]|e] w']; cbn in Ho.
  - revert w' Ho. apply keeps_bind; [apply keeps_catch; auto with js|]. intros [r|]; [auto with js|]. apply keeps_bind.
    { apply keeps_catch; [|auto with js]. apply keeps_bind; auto with js. }
    intros [r|]; [|auto with js]. apply keeps_bind; [|auto with js]. destruct (r_ok r) eqn:Hr; [|auto with js].
    apply keeps_catch; [|auto with js]. apply sound_put; [done|]. intros u Hu. exists rq. split; [done|by left].
  - revert w' Ho. apply keeps_catch; auto with js.
Qed.
Lemma sound_revalidate rq : route rq = Revalidate -> keeps sound (revalidate rq RUNTIME).
Proof.
  intros Hrq. apply keeps_catch; [|auto with js]. apply keeps_bind; [auto with js|]. intros r. destruct (r_ok r) eqn:Hr; [|auto with js].
  apply keeps_bind; [|auto with js]. apply sound_put; [done|]. intros u Hu. exists rq. split; [done|by right].
Qed.
Lemma sound_stale rq : route rq = Revalidate -> keeps sound (staleWhileRevalidate rq RUNTIME).
Proof.
  intros Hrq w Hw. unfold staleWhileRevalidate. pose proof (sound_open RUNTIME w Hw) as Ho. destruct (caches_open RUNTIME w) as [[[]|e] w']; cbn in Ho.
  - revert w' Ho. apply keeps_bind; [apply keeps_catch; auto with js|]. intros cached. apply keeps_bind; [by apply sound_revalidate|].
    intros fresh. destruct cached, fresh; auto with js.
  - revert w' Ho. apply keeps_catch; auto with js.
Qed.
Lemma sound_on_fetch rq : keeps sound (on_fetch rq).
Proof.
  unfold on_fetch, respond. destruct (route rq) eqn:Hrq; [auto with js|..]; (apply keeps_bind; [|auto with js]); apply keeps_catch;
    try (apply keeps_catch; auto with js); [auto with js|by apply sound_cacheFirst|by apply sound_stale].
Qed.

(** The site is not the host of the fonts. *)
Definition own_host : Prop := HOST ∉ ["fonts.gstatic.com"; "fonts.googleapis.com"].
Lemma precache_route u : own_host -> u ∈ PRECACHE_URLS -> route (get_of u) = CacheFirst.
Proof.
  intros Hh Hu. assert (exists p, u = withQuery p /\ p ∈ ["/styles.css"; "/page.css"; "/site.js"]) as (p & -> & Hp).
  { unfold PRECACHE_URLS in Hu. rewrite !elem_of_cons, elem_of_nil in Hu. destruct Hu as [-> | [-> | [-> | []]]]; eexists; (split; [done|set_solver]). }
  unfold route. cbn [get_of rq_method rq_url String.eqb negb]. unfold google_fonts, isSameOrigin. cbn [withQuery u_hostname u_origin u_pathname].
  rewrite !String.eqb_refl. unfold own_host in Hh. rewrite !not_elem_of_cons in Hh. destruct Hh as (H1 & H2 & _).
  apply String.eqb_neq in H1, H2. rewrite H1, H2. cbn [orb negb].
  rewrite !elem_of_cons, elem_of_nil in Hp. by destruct Hp as [-> | [-> | [-> | []]]].
Qed.
Lemma sound_install : own_host -> keeps sound install.
Proof.
  intros Hh. apply keeps_bind; [apply sound_open|]. intros _.
  assert (forall urls, urls ⊆ PRECACHE_URLS -> keeps sound (add_all urls)) as H; [|by apply H].
  induction urls as [|u urls IH]; intros Hu; cbn; [auto with js|]. apply keeps_bind; [|intros _; apply IH; set_solver].
  apply keeps_catch; [|auto with js]. apply sound_add, precache_route; [done|set_solver].
Qed.
Lemma sound_activate : keeps sound activate.
Proof.
  apply keeps_bind; [by apply keeps_op|]. intros keys. induction (List.filter outdated keys) as [|k ks IH]; cbn; [auto with js|].
  apply keeps_bind; [apply sound_delete|done].
Qed.
Lemma sound_after e w : own_host -> sound (caches w) -> sound (caches (after w e)).
Proof.
  intros Hh Hw. unfold after. destruct e as [| |rq]; cbn [handle]; [by apply sound_install|by apply sound_activate|].
  revert w Hw. apply keeps_bind; [apply sound_on_fetch|auto with js].
Qed.

(** ** Properties *)

(** What is told apart by hand: the pages behind a login and the bundles. *)
Definition network_only (u : url) : bool :=
  isSameOrigin u && negb (google_fonts u) &&
  (private_ui (u_pathname u) || login_page (u_pathname u) || mail_page (u_pathname u) || starts_with (u_pathname u) "/dist/").

Lemma network_only_route rq u : rq_url rq = Some u -> network_only u = true -> route rq <> CacheFirst /\ route rq <> Revalidate.
Proof.
  intros Hu Hn. unfold network_only in Hn. apply andb_prop in Hn as [[Ho Hg]%andb_prop Hp]. unfold route. rewrite Hu, Ho.
  apply negb_true_iff in Hg. rewrite Hg. cbn [negb]. destruct (negb _); [done|]. destruct (private_ui _); [done|]. destruct (login_page _); [done|].
  destruct (mail_page _); [done|]. cbn in Hp. by rewrite Hp.
Qed.

(** C36: whatever the network answers and however the cache API fails, after any events
    every answer kept in a cache was a success, lies in a cache of this version under a
    request that is routed to that cache, and no page behind a login and no bundle is
    ever kept. *)
Theorem only_public_answers_are_kept es name u r :
  own_host ->
  default ∅ (caches (fold_left after es (World ∅ 0)) !! name) !! u = Some r ->
  r_ok r = true /\ stored_by name u /\ network_only u = false.
Proof.
  intros Hh. assert (sound (caches (World ∅ 0))) as Hw by (intros ????; cbn; intros Hl; by rewrite lookup_empty in Hl).
  assert (sound (caches (fold_left after es (World ∅ 0)))) as Hs.
  { revert Hw. generalize (World ∅ 0) as w. induction es as [|e es IH]; intros w Hw; [done|]. by apply IH, sound_after. }
  intros Hu. destruct (caches (fold_left after es (World ∅ 0)) !! name) as [st|] eqn:Hst; cbn in Hu; [|by rewrite lookup_empty in Hu].
  destruct (Hs _ _ _ _ Hst Hu) as [Hr Hb]. split_and!; [done|done|]. destruct Hb as (rq & Hrq & Hroute).
  destruct (network_only u) eqn:En; [|done]. destruct (network_only_route rq u Hrq En) as [H1 H2]. by destruct Hroute as [[_ ?]|[_ ?]].
Qed.

(** a request the worker takes is always answered, whatever the network and the cache
    API do, and it takes exactly the requests that are routed. *)
Theorem fetch_event_is_answered rq w : exists o, (on_fetch rq w).1 = Ok o /\ (o = None <-> route rq = Pass).
Proof.
  assert (forall p w, exists r, (respondSafe rq p w).1 = Ok r) as Hs.
  { clear w. intros p w. unfold respondSafe, catch, fetch, ret. destruct (p w) as [[r|e] w']; [by exists r|].
    destruct (net (ticks w') rq) as [r|]; by eexists. }
  unfold on_fetch, respond.
  destruct (route rq); [by exists None|..]; unfold bind;
    (match goal with |- context [respondSafe rq ?p w] => destruct (Hs p w) as [r Hr]; destruct (respondSafe rq p w) as [[r'|] w'] end;
     [|done]; exists (Some r'); done).
Qed.

(** Runs of the operations while the cache API works. *)
Section Working.
Hypothesis works : forall n, broken n = false.

Lemma bind_run {A B} (m : sw A) (k : A -> sw B) w a w' : m w = (Ok a, w') -> bind m k w = k a w'.
Proof. intros Hm. unfold bind. by rewrite Hm. Qed.
Lemma catch_run {A} (m h : sw A) w a w' : m w = (Ok a, w') -> catch m h w = (Ok a, w').
Proof. intros Hm. unfold catch. by rewrite Hm. Qed.
Definition opened (name : string) (c : gmap string (gmap url response)) : gmap string (gmap url response) :=
  match c !! name with Some _ => c | None => <[name := ∅]> c end.
Lemma cache_open_run name w : caches_open name w = (Ok tt, World (opened name (caches w)) (S (ticks w))).
Proof. unfold caches_open, cache_op. by rewrite works. Qed.
Lemma lookup_opened name c u : default ∅ (opened name c !! name) !! u = default ∅ (c !! name) !! u.
Proof. unfold opened. destruct (c !! name) eqn:E; [by rewrite E|]. by rewrite lookup_insert_eq. Qed.
Lemma cache_match_run name rq u w : rq_url rq = Some u -> cache_match name rq w = (Ok (default ∅ (caches w !! name) !! u), World (caches w) (S (ticks w))).
Proof. intros Hu. unfold cache_match, cache_op. by rewrite works, Hu. Qed.

(** A good answer that the cache takes. *)
Definition storable (r : response) : bool := r_ok r && negb (r_status r =? 206)%Z && negb (r_vary_any r).
Lemma cache_put_run name rq u r w : rq_url rq = Some u -> storable r = true ->
  cache_put name rq r w = (Ok tt, World (<[name := <[u := r]> (default ∅ (caches w !! name))]> (caches w)) (S (ticks w))).
Proof.
  intros Hu [[_ H206%negb_true_iff]%andb_prop Hv%negb_true_iff]%andb_prop. unfold cache_put, cache_op. by rewrite works, Hu, H206, Hv.
Qed.
Lemma network_run rq r w : net (ticks w) rq = Some r -> fetch rq w = (Ok r, World (caches w) (S (ticks w))).
Proof. intros Hn. unfold fetch. by rewrite Hn. Qed.
Lemma revalidate_run name rq u r w : rq_url rq = Some u -> net (ticks w) rq = Some r -> storable r = true ->
  revalidate rq name w = (Ok (Some r), World (<[name := <[u := r]> (default ∅ (caches w !! name))]> (caches w)) (S (S (ticks w)))).
Proof.
  intros Hu Hn Hr. apply catch_run. rewrite (bind_run _ _ _ _ _ (network_run _ _ _ Hn)).
  assert (r_ok r = true) as -> by (unfold storable in Hr; destruct (r_ok r); done).
  by rewrite (bind_run _ _ _ _ _ (cache_put_run name rq u r _ Hu Hr)).
Qed.

(** A kept answer is given whatever the network does. *)
Lemma kept_run rq u w r : rq_url rq = Some u -> default ∅ (caches w !! RUNTIME) !! u = Some r -> (staleWhileRevalidate rq RUNTIME w).1 = Ok r.
Proof.
  intros Hu Hc. unfold staleWhileRevalidate. rewrite cache_open_run. rewrite (bind_run _ _ _ _ _ (catch_run _ _ _ _ _ (cache_match_run _ _ _ _ Hu))).
  cbn [caches]. rewrite lookup_opened, Hc. unfold bind. unfold revalidate at 1, catch at 1.
  destruct (bind _ _ _) as [[o|e] w']; [by destruct o|done].
Qed.
Lemma stale_run rq u w r0 : rq_url rq = Some u -> net (ticks w + 2) rq = Some r0 -> storable r0 = true ->
  exists w', staleWhileRevalidate rq RUNTIME w = (Ok (default r0 (default ∅ (caches w !! RUNTIME) !! u)), w') /\
    default ∅ (caches w' !! RUNTIME) !! u = Some r0.
Proof.
  intros Hu Hn Hr. unfold staleWhileRevalidate. rewrite cache_open_run. rewrite (bind_run _ _ _ _ _ (catch_run _ _ _ _ _ (cache_match_run _ _ _ _ Hu))).
  cbn [caches ticks]. rewrite lookup_opened. replace (ticks w + 2) with (S (S (ticks w))) in Hn by lia.
  rewrite (bind_run _ _ _ _ _ (revalidate_run RUNTIME rq u r0 (World (opened RUNTIME (caches w)) (S (S (ticks w)))) Hu Hn Hr)).
  destruct (default ∅ (caches w !! RUNTIME) !! u) as [r|]; (eexists; split; [reflexivity|]);
    cbn [caches]; rewrite lookup_insert_eq; cbn; apply lookup_insert_eq.
Qed.
Lemma revalidate_route_run rq w : route rq = Revalidate ->
  on_fetch rq w = (r <- respondSafe rq (staleWhileRevalidate rq RUNTIME) ;; ret (Some r)) w.
Proof. intros Hr. unfold on_fetch, respond. by rewrite Hr. Qed.

(** stale, then fresh.  While the cache API works, a request that may be answered from
    the cache gets the kept answer if there is one, and otherwise the answer of the
    network; the good answer the network gave meanwhile is what the next such request
    gets, whatever the network says then. *)
Theorem stale_then_fresh rq u w r0 :
  route rq = Revalidate -> rq_url rq = Some u -> net (ticks w + 2) rq = Some r0 -> storable r0 = true ->
  exists w', on_fetch rq w = (Ok (Some (default r0 (default ∅ (caches w !! RUNTIME) !! u))), w') /\
    (on_fetch rq w').1 = Ok (Some r0).
Proof.
  intros Hroute Hu Hn Hr. destruct (stale_run rq u w r0 Hu Hn Hr) as (w' & H1 & H2). exists w'.
  rewrite !(revalidate_route_run rq _ Hroute). unfold respondSafe. split.
  - rewrite (bind_run _ _ w _ w' (catch_run _ _ _ _ _ H1)). done.
  - pose proof (kept_run rq u w' r0 Hu H2) as H3. destruct (staleWhileRevalidate rq RUNTIME w') as [o w''] eqn:E. cbn in H3. subst o.
    by rewrite (bind_run _ _ w' _ w'' (catch_run _ _ _ _ _ E)).
Qed.
End Working.

(** Paths under /api/: the comment in the source says that they always go to the
    network, but a page that is navigated to, and a path that ends like a document or
    a script, is taken before. *)
Theorem api_route rq u : rq_method rq = "GET" -> rq_url rq = Some u -> google_fonts u = false -> u_origin u = ORIGIN ->
  starts_with (u_pathname u) "/api/" = true ->
  route rq = if script_or_style (u_pathname u) then CacheFirst
             else if navigation rq || document_file (u_pathname u) then Revalidate else NetworkOrError.
Proof.
  intros Hm Hu Hg Ho (rest & Hp)%prefix_spec. unfold route, isSameOrigin. rewrite Hm, Hu, Hg, Ho, !String.eqb_refl, Hp. cbn [negb String.eqb].
  assert (private_ui ("/api/" +:+ rest) = false) as -> by done. assert (login_page ("/api/" +:+ rest) = false) as -> by done.
  assert (mail_page ("/api/" +:+ rest) = false) as -> by done. assert (starts_with ("/api/" +:+ rest) "/dist/" = false) as -> by done.
  assert (feed ("/api/" +:+ rest) = false) as -> by done.
  assert (starts_with ("/api/" +:+ rest) "/api/" = true) as -> by (apply prefix_spec; by exists rest).
  destruct (script_or_style ("/api/" +:+ rest)); [done|]. by destruct (navigation rq), (document_file ("/api/" +:+ rest)).
Qed.

(** A good answer of the network is thrown away when it cannot be kept: the promise of
    the network is [null] then, and the page gets an error. *)
Theorem unkept_answer_is_lost rq u w r :
  rq_url rq = Some u -> (forall n, broken n = (n =? ticks w + 3)) -> net (ticks w + 2) rq = Some r -> r_ok r = true ->
  default ∅ (caches w !! RUNTIME) !! u = None ->
  (staleWhileRevalidate rq RUNTIME w).1 = Ok response_error.
Proof.
  intros Hu Hb Hn Hr Hc. assert (broken (ticks w) = false) as B0 by (rewrite Hb; apply Nat.eqb_neq; lia).
  assert (broken (S (ticks w)) = false) as B1 by (rewrite Hb; apply Nat.eqb_neq; lia).
  assert (broken (S (S (S (ticks w)))) = true) as B3 by (rewrite Hb; apply Nat.eqb_eq; lia).
  replace (ticks w + 2) with (S (S (ticks w))) in Hn by lia.
  unfold staleWhileRevalidate, caches_open, cache_op. rewrite B0. fold (opened RUNTIME (caches w)).
  unfold bind, catch, cache_match, cache_op. cbn [caches ticks]. rewrite B1, Hu, lookup_opened, Hc. cbn [caches ticks ret].
  unfold revalidate, catch, bind, fetch. cbn [caches ticks]. rewrite Hn, Hr. unfold cache_put, cache_op. cbn [caches ticks]. by rewrite B3.
Qed.
End ServiceWorker.

(** ** Witnesses *)

(** A network that answers with the number of the request. *)
Definition toy_net (n : nat) (rq : request) : option response := Some (Response 200 (Z_to_string (Z.of_nat n)) false).
Definition toy_world : world := World ∅ 0.
Definition toy_site (path : string) : url := Url "https://elvish.example" "elvish.example" path "".

Lemma only_public_answers_are_kept_witness :
  let w := fold_left (after "?v=1" "7" "https://elvish.example" "elvish.example" toy_net (fun _ => false))
             [Install; Fetched (get_of (toy_site "/mail")); Fetched (get_of (toy_site "/index.html"))] toy_world in
  default ∅ (caches w !! "elvish-rt-7") !! toy_site "/index.html" = Some (Response 200 "10" false) /\
  default ∅ (caches w !! "elvish-rt-7") !! toy_site "/mail" = None /\ network_only "https://elvish.example" (toy_site "/index.html") = false.
Proof.
  split_and!; [vm_compute; reflexivity|vm_compute; reflexivity|].
  apply (only_public_answers_are_kept "?v=1" "7" "https://elvish.example" "elvish.example" toy_net (fun _ => false)
           [Install; Fetched (get_of (toy_site "/mail")); Fetched (get_of (toy_site "/index.html"))] "elvish-rt-7"
           _ (Response 200 "10" false)).
  - apply (bool_decide_eq_true_1 _). vm_compute. reflexivity.
  - vm_compute. reflexivity.
Defined.

Lemma stale_then_fresh_witness : exists w',
  on_fetch "7" "https://elvish.example" toy_net (fun _ => false) (get_of (toy_site "/index.html")) toy_world =
    (Ok (Some (Response 200 "2" false)), w') /\
  (on_fetch "7" "https://elvish.example" toy_net (fun _ => false) (get_of (toy_site "/index.html")) w').1 = Ok (Some (Response 200 "2" false)).
Proof.
  exact (stale_then_fresh "7" "https://elvish.example" toy_net (fun _ => false) (fun _ => eq_refl) (get_of (toy_site "/index.html"))
    (toy_site "/index.html") toy_world (Response 200 "2" false) eq_refl eq_refl eq_refl eq_refl).
Defined.
