(* ===== verification/Perf.v ===== *)
(** * The performance beacon ([static/perf.js])

    Timings are checked against the lists of surfaces and operations, queued, and
    sent in batches: when twelve wait, when the timer of the first of them goes off,
    or when the page is hidden. *)
From Stdlib Require Import ZArith Lia SpecFloat.
From stdpp Require Import strings list.
From S2P Require Import Prelude JsString JsValue SearchIndex.

Definition allowedSurfaces : list string := ["admin_ui"; "mail_ui"; "auth_ui"; "home"; "public_page"].
Definition allowedOperations : list string :=
  ["page_boot"; "bootstrap_fetch"; "section_switch"; "save_action"; "export_action"; "folder_load"; "search_init"; "search_query";
   "search_index"; "message_open"; "compose_send"; "key_unlock"; "login_exchange"; "register_bootstrap"; "register_submit";
   "status_refresh"; "first_contentful_paint"].

(** ** Measures *)

Definition normalizeResult (result : jsval) : string :=
  if to_lower (trim (js_String (js_or result (JStr "")))) =s? "failure" then "failure" else "success".

(** [Math.round]: the integer below [x + 1/2]; [None] when it is not finite. *)
Definition math_round (x : double) : option Z :=
  match x with
  | S754_zero _ => Some 0%Z
  | S754_infinity _ | S754_nan => None
  | S754_finite sg m e =>
      let v := if sg then Z.neg m else Z.pos m in
      Some (if (0 <=? e)%Z then (v * 2 ^ e)%Z else ((2 * v + 2 ^ (- e)) / 2 ^ (1 - e))%Z)
  end.
(** A duration that is no number, not finite or negative counts as none. *)
Definition normalizeDuration (durationMs : double) : Z :=
  match durationMs with
  | S754_nan => 0%Z
  | _ => match math_round durationMs with Some n => if (n <? 0)%Z then 0%Z else n | None => 0%Z end
  end.

(** ** The queue *)

Record sample := Sample { surface : string; operation : string; duration_ms : Z; result : string }.

Inductive channel := Beacon | Fetched.
Record state := State {
  queue : list sample;
  once : list string;
  flushTimer : bool;
  sent : list (channel * list sample);
}.
Definition fresh : state := State [] [] false [].

Definition scheduleFlush (s : state) : state := if flushTimer s then s else State (queue s) (once s) true (sent s).

(** [beacon]: what [navigator.sendBeacon] returns or throws; [None] when there is none. *)
Definition flush (beacon : option (res bool)) (useBeacon : bool) (s : state) : state :=
  match queue s with
  | [] => s
  | _ =>
      let n := Nat.min (length (queue s)) 64 in
      let via := if useBeacon then match beacon with Some (Ok true) => Beacon | _ => Fetched end else Fetched in
      State (drop n (queue s)) (once s) false (sent s ++ [(via, take n (queue s))])
  end.

Definition enqueue (sf op : string) (durationMs : double) (res_ : jsval) (s : state) : state :=
  if negb (str_mem sf allowedSurfaces) || negb (str_mem op allowedOperations) then s
  else
    let s := State (queue s ++ [Sample sf op (normalizeDuration durationMs) (normalizeResult res_)]) (once s) (flushTimer s) (sent s) in
    if 12 <=? length (queue s) then flush None false s else scheduleFlush s.

Definition once_key (sf op : string) : string := sf +:+ ":" +:+ op.
Definition recordOnce (sf op : string) (durationMs : double) (res_ : jsval) (s : state) : state :=
  if str_mem (once_key sf op) (once s) then s
  else enqueue sf op durationMs res_ (State (queue s) (once_key sf op :: once s) (flushTimer s) (sent s)).

(** ** The interface ([window.ElvishPerf]) and the events

    The clock is read by the caller: [now] is [nowMs()]. *)

Definition text (v : jsval) : string := js_String (js_or v (JStr "")).
Definition finite (x : double) : bool := match x with S754_zero _ | S754_finite _ _ _ => true | _ => false end.

Definition api_record (sf op : jsval) (durationMs : double) (res_ : jsval) : state -> state := enqueue (text sf) (text op) durationMs res_.
Definition api_recordOnce (sf op : jsval) (durationMs : double) (res_ : jsval) : state -> state := recordOnce (text sf) (text op) durationMs res_.
Definition api_end (now : double) (sf op : jsval) (startedAt : double) (res_ : jsval) (s : state) : state :=
  if finite startedAt then enqueue (text sf) (text op) (fsub now startedAt) res_ s else s.
(** The function is called between the two readings of the clock; its outcome is passed on. *)
Definition api_timeAsync {A} (startedAt now : double) (sf op : jsval) (fn : res A) (s : state) : res A * state :=
  (fn, enqueue (text sf) (text op) (fsub now startedAt) (JStr (match fn with Ok _ => "success" | Throw _ => "failure" end)) s).
(** [performance.getEntriesByType('navigation')]: when the load event ended, if it did. *)
Definition navigationDurationMs (now : double) (loadEventEnd : option double) : double :=
  match loadEventEnd with Some t => if SFltb (of_Z 0) t then t else now | None => now end.
Definition api_recordSinceNavigation (now : double) (loadEventEnd : option double) (sf op res_ : jsval) : state -> state :=
  recordOnce (text sf) (text op) (navigationDurationMs now loadEventEnd) res_.
(** The callback of the paint observer; [true]: the observer is disconnected. *)
Fixpoint observed (sf : jsval) (entries : list (string * double)) (s : state) : bool * state :=
  match entries with
  | [] => (false, s)
  | (name, startTime) :: entries =>
      if name =s? "first-contentful-paint" then (true, recordOnce (text sf) "first_contentful_paint" startTime (JStr "success") s)
      else observed sf entries s
  end.

Inductive op :=
| Record_ (sf o : jsval) (d : double) (r : jsval)
| RecordOnce (sf o : jsval) (d : double) (r : jsval)
| End_ (now : double) (sf o : jsval) (startedAt : double) (r : jsval)
| TimeAsync (startedAt now : double) (sf o : jsval) (fn : res jsval)
| SinceNavigation (now : double) (loadEventEnd : option double) (sf o r : jsval)
| Painted (sf : jsval) (entries : list (string * double))
| Flush
| TimerFires
| Hidden (beacon : option (res bool)).          (* [visibilitychange] or [pagehide] *)

Definition perform (s : state) (o : op) : state :=
  match o with
  | Record_ sf o d r => api_record sf o d r s
  | RecordOnce sf o d r => api_recordOnce sf o d r s
  | End_ now sf o st r => api_end now sf o st r s
  | TimeAsync st now sf o fn => (api_timeAsync st now sf o fn s).2
  | SinceNavigation now l sf o r => api_recordSinceNavigation now l sf o r s
  | Painted sf es => (observed sf es s).2
  | Flush => flush None false s
  | TimerFires => if flushTimer s then flush None false (State (queue s) (once s) false (sent s)) else s
  | Hidden b => flush b true s
  end.

(** ** What the calls mean, without the queue *)

(** The samples of a list of calls, in order, and the keys seen so far. *)
Definition accepted (sf op : string) (d : double) (r : jsval) : list sample :=
  if str_mem sf allowedSurfaces && str_mem op allowedOperations then [Sample sf op (normalizeDuration d) (normalizeResult r)] else [].
Definition accepted_once (keys : list string) (sf op : string) (d : double) (r : jsval) : list string * list sample :=
  if str_mem (once_key sf op) keys then (keys, []) else (once_key sf op :: keys, accepted sf op d r).
Definition first_paint (entries : list (string * double)) : option double :=
  option_map snd (List.find (fun e => e.1 =s? "first-contentful-paint") entries).

Definition meaning (keys : list string) (o : op) : list string * list sample :=
  match o with
  | Record_ sf o d r => (keys, accepted (text sf) (text o) d r)
  | RecordOnce sf o d r => accepted_once keys (text sf) (text o) d r
  | End_ now sf o st r => (keys, if finite st then accepted (text sf) (text o) (fsub now st) r else [])
  | TimeAsync st now sf o fn => (keys, accepted (text sf) (text o) (fsub now st) (JStr (if is_ok fn then "success" else "failure")))
  | SinceNavigation now l sf o r => accepted_once keys (text sf) (text o) (navigationDurationMs now l) r
  | Painted sf es => match first_paint es with Some t => accepted_once keys (text sf) "first_contentful_paint" t (JStr "success") | None => (keys, []) end
  | Flush | TimerFires | Hidden _ => (keys, [])
  end.
Fixpoint meanings (keys : list string) (os : list op) : list sample :=
  match os with [] => [] | o :: os => (meaning keys o).2 ++ meanings (meaning keys o).1 os end.

(** ** Lemmas *)

(** All samples that were taken up, sent or not. *)
Definition taken (s : state) : list sample := concat (map snd (sent s)) ++ queue s.

(** Fewer than twelve wait, a timer is set exactly while some wait, and no batch is
    empty or larger than twelve. *)
Record tidy (s : state) : Prop := {
  few : length (queue s) < 12;
  timed : flushTimer s = true <-> queue s <> [];
  batches : Forall (fun b => 1 <= length b.2 <= 12) (sent s);
}.

Lemma flush_queue b u s : length (queue s) <= 12 -> queue (flush b u s) = [].
Proof. unfold flush. destruct (queue s) as [|x q] eqn:E; [done|]. intros Hl. cbn [queue]. apply drop_ge. lia. Qed.
Lemma flush_taken b u s : taken (flush b u s) = taken s.
Proof.
  unfold flush, taken. destruct (queue s) as [|x q] eqn:E; [by rewrite E|]. cbn [sent queue]. rewrite map_app, concat_app. cbn [map concat snd].
  by rewrite app_nil_r, <- app_assoc, take_drop.
Qed.
Lemma flush_once b u s : once (flush b u s) = once s.
Proof. unfold flush. by destruct (queue s). Qed.
Lemma flush_tidy b u s : length (queue s) <= 12 -> Forall (fun b => 1 <= length b.2 <= 12) (sent s) -> (queue s = [] -> flushTimer s = false) ->
  tidy (flush b u s).
Proof.
  intros Hl Hb Ht. constructor.
  - rewrite flush_queue by done. cbn. lia.
  - rewrite flush_queue by done. unfold flush. destruct (queue s) eqn:E; [rewrite Ht by done|cbn]; (split; [done|by intros []]).
  - unfold flush. destruct (queue s) as [|x q] eqn:E; [done|]. cbn [sent]. apply Forall_app. split; [done|]. constructor; [|done].
    cbn [snd]. rewrite length_take. cbn [length] in *. lia.
Qed.

Lemma enqueue_taken sf op d r s : taken (enqueue sf op d r s) = taken s ++ accepted sf op d r.
Proof.
  unfold enqueue, accepted. destruct (str_mem sf _), (str_mem op _); cbn [negb orb andb]; try by rewrite app_nil_r.
  cbv zeta. destruct (_ <=? _).
  - rewrite flush_taken. unfold taken. cbn [sent queue]. by rewrite app_assoc.
  - unfold scheduleFlush. destruct (flushTimer _); unfold taken; cbn [sent queue]; by rewrite app_assoc.
Qed.
Lemma enqueue_once sf op d r s : once (enqueue sf op d r s) = once s.
Proof.
  unfold enqueue. destruct (_ || _); [done|]. cbv zeta. destruct (_ <=? _); [by rewrite flush_once|]. unfold scheduleFlush. by destruct (flushTimer _).
Qed.
Lemma enqueue_tidy sf op d r s : tidy s -> tidy (enqueue sf op d r s).
Proof.
  intros [H1 H2 H3]. unfold enqueue. destruct (_ || _); [done|]. cbv zeta. destruct (12 <=? _) eqn:E.
  - apply flush_tidy; cbn [queue sent]; [rewrite length_app; cbn; lia|done|]. by intros []%app_eq_nil.
  - apply Nat.leb_gt in E. cbn [queue] in E. unfold scheduleFlush. cbn [flushTimer].
    assert (queue s ++ [Sample sf op (normalizeDuration d) (normalizeResult r)] <> []) as Hne by by intros []%app_eq_nil.
    destruct (flushTimer s); by constructor.
Qed.
Lemma recordOnce_spec sf op d r s :
  taken (recordOnce sf op d r s) = taken s ++ (accepted_once (once s) sf op d r).2 /\
  once (recordOnce sf op d r s) = (accepted_once (once s) sf op d r).1 /\ (tidy s -> tidy (recordOnce sf op d r s)).
Proof.
  unfold recordOnce, accepted_once. destruct (str_mem _ _); [by rewrite app_nil_r|]. cbn [fst snd].
  rewrite enqueue_taken, enqueue_once. split_and!; [done..|]. intros []. by apply enqueue_tidy.
Qed.

Lemma perform_spec s o : tidy s ->
  tidy (perform s o) /\ taken (perform s o) = taken s ++ (meaning (once s) o).2 /\ once (perform s o) = (meaning (once s) o).1.
Proof.
  intros Hs. destruct o as [sf o d r|sf o d r|now sf o st r|st now sf o fn|now l sf o r|sf es| | |b]; cbn [perform meaning fst snd].
  - unfold api_record. rewrite enqueue_taken, enqueue_once. split_and!; [by apply enqueue_tidy|done..].
  - destruct (recordOnce_spec (text sf) (text o) d r s) as (H1 & H2 & H3). by split_and!; [apply H3|..].
  - unfold api_end. destruct (finite st); [|by rewrite app_nil_r]. rewrite enqueue_taken, enqueue_once. split_and!; [by apply enqueue_tidy|done..].
  - unfold api_timeAsync. cbn [snd]. rewrite enqueue_taken, enqueue_once. split_and!; [by apply enqueue_tidy|by destruct fn|done].
  - destruct (recordOnce_spec (text sf) (text o) (navigationDurationMs now l) r s) as (H1 & H2 & H3). by split_and!; [apply H3|..].
  - unfold first_paint. induction es as [|[n t] es IH]; cbn [observed List.find option_map fst snd]; [by rewrite app_nil_r|].
    destruct (n =s? _); [|exact IH]. cbn [option_map snd].
    destruct (recordOnce_spec (text sf) "first_contentful_paint" t (JStr "success") s) as (H1 & H2 & H3). by split_and!; [apply H3|..].
  - rewrite flush_taken, flush_once, app_nil_r. destruct Hs as [H1 H2 H3]. split_and!; [|done..]. apply flush_tidy; [lia|done|].
    intros E. destruct (flushTimer s); [by destruct (proj1 H2 eq_refl)|done].
  - destruct (flushTimer s) eqn:E; [|by rewrite app_nil_r]. rewrite flush_taken, flush_once, app_nil_r. destruct Hs as [H1 H2 H3].
    split_and!; [|done..]. apply flush_tidy; [cbn; lia|done|done].
  - rewrite flush_taken, flush_once, app_nil_r. destruct Hs as [H1 H2 H3]. split_and!; [|done..]. apply flush_tidy; [lia|done|].
    intros E. destruct (flushTimer s); [by destruct (proj1 H2 eq_refl)|done].
Qed.

(** ** Properties *)

(** no sample is lost, repeated or reordered.  After any calls and events, what was
    sent, batch after batch, and what waits are together the samples the calls mean, in
    order; fewer than twelve wait, a timer is set exactly while some wait, and every
    batch has one to twelve samples. *)
Theorem samples_are_sent_in_order os :
  let s := fold_left perform os fresh in
  concat (map snd (sent s)) ++ queue s = meanings [] os /\
  length (queue s) < 12 /\ (flushTimer s = true <-> queue s <> []) /\ Forall (fun b => 1 <= length b.2 <= 12) (sent s).
Proof.
  cbv zeta. assert (tidy fresh) as Hf by (constructor; cbn; [lia|done|done]).
  assert (forall s, tidy s -> tidy (fold_left perform os s) /\ taken (fold_left perform os s) = taken s ++ meanings (once s) os) as P.
  { induction os as [|o os IH]; intros s Hs; [by rewrite app_nil_r|]. cbn [fold_left meanings].
    destruct (perform_spec s o Hs) as (H1 & H2 & H3). destruct (IH _ H1) as [H4 H5]. split; [done|]. by rewrite H5, H2, H3, app_assoc. }
  destruct (P fresh Hf) as [[H1 H2 H3] H4]. by split_and!.
Qed.

(** Durations are never negative, and a finite one is rounded to the nearest integer. *)
Theorem duration_is_rounded m e : (e < 0)%Z -> let n := normalizeDuration (S754_finite false m e) in
  (0 <= n /\ - 2 ^ (- e) <= 2 * (n * 2 ^ (- e) - Z.pos m) <= 2 ^ (- e))%Z.
Proof.
  intros He. cbv zeta. unfold normalizeDuration, math_round. destruct (Z.leb_spec 0 e) as [|_]; [lia|].
  assert (2 ^ (1 - e) = 2 * 2 ^ (- e))%Z as -> by (rewrite <- Z.pow_succ_r by lia; f_equal; lia).
  assert (0 < 2 ^ (- e))%Z as Hp by (apply Z.pow_pos_nonneg; lia). set (d := (2 ^ (- e))%Z) in *.
  pose proof (Z.div_mod (2 * Z.pos m + d) (2 * d)) as Hd. pose proof (Z.mod_pos_bound (2 * Z.pos m + d) (2 * d)) as Hb.
  assert (0 <= (2 * Z.pos m + d) / (2 * d))%Z as Hn by (apply Z.div_pos; lia).
  destruct (Z.ltb_spec ((2 * Z.pos m + d) / (2 * d)) 0) as [|_]; [lia|]. nia.
Qed.
