(* ===== verification/WebAuthn.v ===== *)
(** * Security keys and the envelope manifest ([static/auth/webauthn.js],
    [static/mail/crypto/envelope.js])

    The options the server sends as JSON, as the browser's credential API takes them;
    the credential it returns, as JSON for the server; and the check of envelope
    manifests.  The authenticator behind [navigator.credentials] is a parameter. *)
From Stdlib Require Import ZArith Lia.
From stdpp Require Import strings list.
From S2P Require Import Prelude JsString JsValue Base64.

(** ** Options

    [structuredClone] of the options with the encoded members replaced by bytes:
    what is replaced, next to the clone. *)

Record descriptor := Descriptor { d_id : string; d_rest : jsval }.
Record publicKey := PublicKey {
  challenge : string;
  user_id : option string;                     (** creation only; [None]: left as it is *)
  credentials : option (list descriptor);      (** [None]: not an array *)
}.
Record options := Options { o_clone : jsval; o_publicKey : option publicKey }.

(** [b64urlToBytes(value)] of a JSON value. *)
Definition bytes_of (v : jsval) : res string := b64urlToBytes (js_String (js_or v (JStr ""))).

Definition descriptors (v : jsval) : res (option (list descriptor)) :=
  match v with
  | JArr l => creds <~ res_mapM (fun cred => id <~ getp cred "id" ;; bytes <~ bytes_of id ;; Ok (Descriptor bytes cred)) l ;; Ok (Some creds)
  | _ => Ok None
  end.

Definition normalizeCreationOptions (opts : jsval) : res options :=
  if negb (truthy opts) then Ok (Options opts None)
  else
    pk <~ getp opts "publicKey" ;;
    if negb (truthy pk) then Ok (Options opts None)
    else
      ch <~ getp pk "challenge" ;; ch <~ bytes_of ch ;;
      user <~ getp pk "user" ;;
      uid <~ (if truthy user then
                id <~ getp user "id" ;;
                if truthy id then b <~ bytes_of id ;; Ok (Some b) else Ok None
              else Ok None) ;;
      excl <~ getp pk "excludeCredentials" ;; creds <~ descriptors excl ;;
      Ok (Options opts (Some (PublicKey ch uid creds))).

Definition normalizeRequestOptions (opts : jsval) : res options :=
  if negb (truthy opts) then Ok (Options opts None)
  else
    pk <~ getp opts "publicKey" ;;
    if negb (truthy pk) then Ok (Options opts None)
    else
      ch <~ getp pk "challenge" ;; ch <~ bytes_of ch ;;
      allow <~ getp pk "allowCredentials" ;; creds <~ descriptors allow ;;
      Ok (Options opts (Some (PublicKey ch None creds))).

(** ** Credentials *)

(** What the browser returns.  [r_transports]: the method [transports], which the
    standard calls [getTransports]; [None] when there is no such method. *)
Record credential_response := Response {
  clientDataJSON : option string;
  attestationObject : option string;
  authenticatorData : option string;
  signature : option string;
  userHandle : option string;
  r_transports : option jsval;
}.
Record credential := Credential {
  c_id : string;
  rawId : string;
  c_type : string;
  authenticatorAttachment : option string;
  c_response : credential_response;
  extensionResults : option jsval;             (** [getClientExtensionResults()], if there is such a method *)
}.

Definition member (name : string) (v : option string) : list (string * jsval) :=
  match v with Some b => [(name, JStr (bytesToB64url b))] | None => [] end.
Definition serializeCredential (credential : option credential) : res jsval :=
  match credential with
  | None => Throw "Missing WebAuthn credential"
  | Some c =>
      let r := c_response c in
      Ok (JObj [("id", JStr (c_id c)); ("rawId", JStr (bytesToB64url (rawId c))); ("type", JStr (c_type c));
                ("authenticatorAttachment", match authenticatorAttachment c with Some a => js_or (JStr a) JUndef | None => JUndef end);
                ("response", JObj (member "clientDataJSON" (clientDataJSON r) ++ member "attestationObject" (attestationObject r) ++
                                   member "authenticatorData" (authenticatorData r) ++ member "signature" (signature r) ++
                                   member "userHandle" (userHandle r) ++
                                   match r_transports r with Some t => [("transports", t)] | None => [] end));
                ("clientExtensionResults", default (JObj []) (extensionResults c))])
  end.

(** ** The two ceremonies *)

Section Ceremony.
(** Whether the browser has the API ([PublicKeyCredential] and the method), whether the
    context is secure, and the origin as the message shows it. *)
Variables supported isSecureContext : bool.
Variable origin : string.
(** [navigator.credentials.create] and [get]: rejected, or a credential or [null]. *)
Variable authenticator : options -> res (option credential).

Definition requireSecureContext : res unit :=
  if isSecureContext then Ok tt
  else Throw ("Security keys require HTTPS or localhost. Current origin is not a secure context: " +:+ str_or origin "this page").

Definition createCredential (opts : jsval) : res jsval :=
  if negb supported then Throw "This browser does not support security-key registration"
  else _ <~ requireSecureContext ;; o <~ normalizeCreationOptions opts ;; c <~ authenticator o ;; serializeCredential c.
Definition getAssertion (opts : jsval) : res jsval :=
  if negb supported then Throw "This browser does not support security-key verification"
  else _ <~ requireSecureContext ;; o <~ normalizeRequestOptions opts ;; c <~ authenticator o ;; serializeCredential c.
End Ceremony.

(** ** The server's side of the wire *)

(** What the server sends for an assertion, and how it reads a member of the answer. *)
Definition request_for (challenge : string) (ids : list string) : jsval :=
  JObj [("publicKey", JObj [("challenge", JStr (bytesToB64url challenge));
    ("allowCredentials", JArr (map (fun i => JObj [("type", JStr "public-key"); ("id", JStr (bytesToB64url i))]) ids))])].
Definition read_member (answer : jsval) (name : string) : res (option string) :=
  r <~ getp answer "response" ;; v <~ getp r name ;;
  match v with JStr s => b <~ b64urlToBytes s ;; Ok (Some b) | _ => Ok None end.

Lemma bytes_of_encoded b : bytes_of (JStr (bytesToB64url b)) = Ok b.
Proof.
  unfold bytes_of, js_or. cbn [truthy]. destruct (String.eqb_spec (bytesToB64url b) "") as [E|_]; cbn [negb js_String]; [|apply b64url_back].
  rewrite <- (b64url_back b). by rewrite E.
Qed.
Lemma descriptors_encoded ids :
  exists creds, descriptors (JArr (map (fun i => JObj [("type", JStr "public-key"); ("id", JStr (bytesToB64url i))]) ids)) = Ok (Some creds) /\
    map d_id creds = ids.
Proof.
  cbn [descriptors]. induction ids as [|i ids IH]; [by exists []|]. destruct IH as (creds & H1 & H2). cbn [map res_mapM].
  replace (getp (JObj [("type", JStr "public-key"); ("id", JStr (bytesToB64url i))]) "id") with (Ok (JStr (bytesToB64url i))) by done.
  cbn [res_bind]. rewrite bytes_of_encoded. cbn [res_bind].
  destruct (res_mapM _ (map _ ids)) as [l|e] eqn:E; cbn [res_bind] in *; [|done]. injection H1 as <-.
  eexists. split; [done|]. cbn. by rewrite H2.
Qed.

Lemma request_encoded ch ids : exists creds,
  normalizeRequestOptions (request_for ch ids) = Ok (Options (request_for ch ids) (Some (PublicKey ch None (Some creds)))) /\
  map d_id creds = ids.
Proof.
  destruct (descriptors_encoded ids) as (creds & H1 & H2). exists creds. split; [|done]. unfold normalizeRequestOptions.
  assert (truthy (request_for ch ids) = true) as -> by done.
  assert (exists pk, getp (request_for ch ids) "publicKey" = Ok pk /\ truthy pk = true /\ getp pk "challenge" = Ok (JStr (bytesToB64url ch)) /\
    getp pk "allowCredentials" = Ok (JArr (map (fun i => JObj [("type", JStr "public-key"); ("id", JStr (bytesToB64url i))]) ids)))
    as (pk & -> & Ht & Hc & Ha) by (by eexists).
  cbn [negb res_bind]. rewrite Ht, Hc. cbn [negb res_bind]. rewrite bytes_of_encoded, Ha. cbn [res_bind]. by rewrite H1.
Qed.

Lemma field_member n name v rest :
  field n (member name v ++ rest) = if name =s? n then match v with Some b => JStr (bytesToB64url b) | None => field n rest end else field n rest.
Proof. destruct v; cbn; by destruct (name =s? n). Qed.
Lemma read_encoded v rest : (forall s, rest <> JStr s) ->
  match (match v with Some b => JStr (bytesToB64url b) | None => rest end) with JStr s => b <~ b64urlToBytes s ;; Ok (Some b) | _ => Ok None end = Ok v.
Proof. intros Hr. destruct v as [b|]; [by rewrite b64url_back|]. by destruct rest; try done; destruct (Hr s). Qed.
(** Comparisons of closed strings. *)
Ltac eval_eqb := repeat match goal with |- context [?a =s? ?b] => let v := eval vm_compute in (a =s? b) in change (a =s? b) with v; cbv iota end.
Lemma read_member_of r name fs v : r = JObj fs -> field "response" fs = JObj v ->
  read_member r name = (match field name v with JStr s => b <~ b64urlToBytes s ;; Ok (Some b) | _ => Ok None end).
Proof. intros -> Hr. unfold read_member. cbn [getp res_bind]. rewrite Hr. done. Qed.

(** the ceremony keeps the bytes.  The authenticator is asked with the challenge and
    the credential ids the server encoded, and the server reads from the answer exactly
    the bytes the authenticator returned. *)
Theorem assertion_keeps_the_bytes origin authenticator ch ids answer :
  getAssertion true true origin authenticator (request_for ch ids) = Ok answer ->
  exists o c pk creds, authenticator o = Ok (Some c) /\
    o_publicKey o = Some pk /\ challenge pk = ch /\ credentials pk = Some creds /\ map d_id creds = ids /\
    read_member answer "clientDataJSON" = Ok (clientDataJSON (c_response c)) /\
    read_member answer "authenticatorData" = Ok (authenticatorData (c_response c)) /\
    read_member answer "signature" = Ok (signature (c_response c)) /\
    read_member answer "userHandle" = Ok (userHandle (c_response c)).
Proof.
  unfold getAssertion. cbn [negb requireSecureContext res_bind]. destruct (request_encoded ch ids) as (creds & -> & Hids). cbn [res_bind].
  destruct (authenticator _) as [[c|]|e] eqn:Ha; cbn [res_bind serializeCredential]; [|done|done]. intros [= <-].
  do 4 eexists. split; [exact Ha|]. split; [done|]. split; [done|]. split; [done|]. split; [done|].
  destruct (c_response c) as [cd ao ad sg uh tr]. cbn [clientDataJSON authenticatorData signature userHandle].
  split_and!; (erewrite read_member_of; [|done|done]);
    rewrite !field_member; eval_eqb; apply read_encoded; destruct tr; by cbn; eval_eqb.
Qed.

(** ** Envelope manifests *)

Module Envelope.
Definition Version_V1 : string := "v1".
Definition Modes : list string := ["native-encrypted"; "already-encrypted"].
Definition BodyCiphers : list string := ["xchacha20-poly1305"; "aes-256-gcm"; "openpgp-message"].
Definition Provenances : list string := ["native_encrypted"; "already_encrypted"; "compatibility_bridge"].

(** [Object.values(o).includes(v)] for an object of strings. *)
Definition includes (l : list string) (v : jsval) : bool := match v with JStr s => str_mem s l | _ => false end.
Definition is_string (s : string) (v : jsval) : bool := match v with JStr t => t =s? s | _ => false end.

Definition validateManifest (manifest : jsval) : res bool :=
  let prop k := match getp manifest k with Ok v => v | Throw _ => JUndef end in   (* read after the first test only *)
  if negb (truthy manifest) || negb (is_string Version_V1 (prop "version")) then Throw "unsupported envelope version"
  else if negb (includes Modes (prop "mode")) then Throw "unsupported envelope mode"
  else if negb (includes Provenances (prop "provenance")) then Throw "unsupported envelope provenance"
  else if negb (includes BodyCiphers (prop "body_cipher")) then Throw "unsupported body cipher"
  else if negb (truthy (prop "body_blob_ref")) then Throw "body_blob_ref required"
  else if is_string "native-encrypted" (prop "mode") &&
          match prop "recipient_wraps" with JArr (_ :: _) => false | _ => true end
       then Throw "native-encrypted envelope requires recipient_wraps"
  else Ok true.
End Envelope.

Section Accepted.
Import Envelope.
Lemma name_included l v : includes l v = true <-> exists s, v = JStr s /\ (s ∈ l).
Proof.
  split; [|by intros (s & -> & Hs%str_mem_spec)]. destruct v as [| | | | |s| |]; try done. cbn. intros Hs%str_mem_spec. by exists s.
Qed.
Lemma name_equal s v : is_string s v = true <-> v = JStr s.
Proof. split; [|intros ->; apply String.eqb_refl]. destruct v as [| | | | |t| |]; try done. cbn. by intros ->%String.eqb_eq. Qed.
End Accepted.

(** a manifest is accepted exactly when it is of this version, with a known mode,
    provenance and cipher, a body, and wrapped keys when the client encrypted it. *)
Theorem manifest_accepted_iff fs :
  Envelope.validateManifest (JObj fs) = Ok true <->
  field "version" fs = JStr "v1" /\
  (exists m, field "mode" fs = JStr m /\ (m ∈ Envelope.Modes)) /\
  (exists p, field "provenance" fs = JStr p /\ (p ∈ Envelope.Provenances)) /\
  (exists c, field "body_cipher" fs = JStr c /\ (c ∈ Envelope.BodyCiphers)) /\
  truthy (field "body_blob_ref" fs) = true /\
  (field "mode" fs = JStr "native-encrypted" -> exists w ws, field "recipient_wraps" fs = JArr (w :: ws)).
Proof.
  unfold Envelope.validateManifest. cbn [getp truthy negb orb].
  rewrite <- !name_included, <- (name_equal "v1"), <- (name_equal "native-encrypted").
  change Envelope.Version_V1 with "v1".
  destruct (Envelope.is_string "v1" _), (Envelope.includes Envelope.Modes _), (Envelope.includes Envelope.Provenances _),
    (Envelope.includes Envelope.BodyCiphers _), (truthy _); cbn [negb]; try (by split; [|intros (? & ? & ? & ? & ? & _)]).
  destruct (Envelope.is_string "native-encrypted" _); cbn [andb]; [|by split].
  destruct (field "recipient_wraps" fs) as [| | | | | |[|w ws]|]; (split; [try done|]).
  all: try (intros (_ & _ & _ & _ & _ & Hw); by destruct (Hw eq_refl) as (? & ? & ?)).
  - intros _. split_and!; try done. intros _. by exists w, ws.
Qed.

(** ** Witnesses *)

Definition toy_authenticator (o : options) : res (option credential) :=
  Ok (Some (Credential "id" "raw" "public-key" None (Response (Some (match o_publicKey o with Some pk => challenge pk | None => "" end)) None (Some "data") (Some "signature") None None) None)).
Lemma assertion_keeps_the_bytes_witness : exists answer,
  getAssertion true true "https://elvish.example" toy_authenticator (request_for "challenge" ["key 1"; "key 2"]) = Ok answer /\
  read_member answer "clientDataJSON" = Ok (Some "challenge") /\ read_member answer "signature" = Ok (Some "signature").
Proof.
  eexists. split; [vm_compute; reflexivity|].
  pose proof (assertion_keeps_the_bytes "https://elvish.example" toy_authenticator "challenge" ["key 1"; "key 2"] _ ltac:(vm_compute; reflexivity))
    as (o & c & pk & creds & Ho & Hp & Hc & _ & _ & H1 & _ & H3 & _).
  injection Ho as <-. rewrite Hp in H1. cbn in H1, H3. rewrite Hc in H1. split; [exact H1|exact H3].
Defined.
