(* ===== verification/Site.v ===== *)
(** * The public pages ([static/site.js])

    The settings of the look of a page, kept in [localStorage] and applied to the
    document; the listeners they install; the clock; the key sequence; and when the
    service worker is registered.  Drawing (the terminal, the status table, the panel
    of the settings) is left out; the functions of the tools page, the terminal and the
    status page are not called by the script. *)
From Stdlib Require Import ZArith Lia Ascii.
From stdpp Require Import strings list.
From S2P Require Import Prelude JsString JsValue Json JsDate.
Local Open Scope nat_scope.

(** ** Objects *)

(** The own properties [Object.assign] copies. *)
Definition own_fields (v : jsval) : list (string * jsval) :=
  match v with
  | JObj fs => fs
  | JArr l => imap (fun i x => (Z_to_string (Z.of_nat i), x)) l
  | JStr s => imap (fun i c => (Z_to_string (Z.of_nat i), JStr (String c ""))) (String.list_ascii_of_string s)
  | _ => []
  end.
Definition assign (target source : list (string * jsval)) : list (string * jsval) :=
  fold_left (fun o p => put_field p.1 p.2 o) source target.
Definition without (k : string) (fs : list (string * jsval)) : list (string * jsval) := List.filter (fun p => negb (p.1 =s? k)) fs.

(** ** The page *)

Record page := Page {
  user_ui_theme : option string;        (** [data-user-ui-theme], set by the server for a user who is logged in *)
  defaults_script : option string;      (** the text of [elvish-tweak-defaults] *)
  tweak_cell : option string;           (** [localStorage["elvish-tweaks-v1"]] *)
  storage_works : bool;
  system_dark : bool;                   (** [prefers-color-scheme: dark] *)
  motion : bool;                        (** [prefers-reduced-motion: no-preference] *)
  data_theme : string;
  data_theme_preference : string;
  data_font : string;
  crosshair_on : bool;
  grid_shown : bool;
  scan_shown : bool;
  themeMediaQuery : option nat;
  crosshairMove : option nat;
  theme_listeners : list nat;           (** installed, by number *)
  mouse_listeners : list nat;
  made : nat;                           (** listeners made so far *)
}.

Definition look (theme pref font : string) (cross grid scan : bool) (p : page) : page :=
  Page (user_ui_theme p) (defaults_script p) (tweak_cell p) (storage_works p) (system_dark p) (motion p) theme pref font cross grid scan
    (themeMediaQuery p) (crosshairMove p) (theme_listeners p) (mouse_listeners p) (made p).
Definition set_theme_listener (q : option nat) (l : list nat) (n : nat) (p : page) : page :=
  Page (user_ui_theme p) (defaults_script p) (tweak_cell p) (storage_works p) (system_dark p) (motion p) (data_theme p) (data_theme_preference p)
    (data_font p) (crosshair_on p) (grid_shown p) (scan_shown p) q (crosshairMove p) l (mouse_listeners p) n.
Definition set_mouse_listener (q : option nat) (l : list nat) (n : nat) (p : page) : page :=
  Page (user_ui_theme p) (defaults_script p) (tweak_cell p) (storage_works p) (system_dark p) (motion p) (data_theme p) (data_theme_preference p)
    (data_font p) (crosshair_on p) (grid_shown p) (scan_shown p) (themeMediaQuery p) q (theme_listeners p) l n.
Definition set_cell (c : option string) (p : page) : page :=
  Page (user_ui_theme p) (defaults_script p) c (storage_works p) (system_dark p) (motion p) (data_theme p) (data_theme_preference p)
    (data_font p) (crosshair_on p) (grid_shown p) (scan_shown p) (themeMediaQuery p) (crosshairMove p) (theme_listeners p) (mouse_listeners p) (made p).
(** Navigation away and back: the document is new, the storage stays. *)
Definition reload (p : page) : page :=
  Page (user_ui_theme p) (defaults_script p) (tweak_cell p) (storage_works p) (system_dark p) (motion p) "" "" "" false false false None None [] [] 0.

Definition logged_in (p : page) : bool := match user_ui_theme p with Some _ => true | None => false end.

(** [readJSONScript("elvish-tweak-defaults")] *)
Definition read_defaults (p : page) : jsval :=
  match defaults_script p with
  | Some t => if t =s? "" then JNull else default JNull (parse t)
  | None => JNull
  end.

(** ** Settings *)

Definition loadTweaks (p : page) : res (list (string * jsval)) :=
  let defaults := js_or (read_defaults p) (JObj []) in
  let stored := if storage_works p
                then default (JObj []) (parse (match tweak_cell p with Some t => if t =s? "" then "{}" else t | None => "{}" end))
                else JObj [] in
  stored <~ (if logged_in p
             then match stored with
                  | JNull | JUndef => Throw "TypeError"
                  | JObj fs => Ok (JObj (without "theme" fs))
                  | v => Ok v
                  end
             else Ok stored) ;;
  Ok (assign (assign [] (own_fields defaults)) (own_fields stored)).

Definition saveTweaks (t : list (string * jsval)) (p : page) : res page :=
  let copy := if logged_in p then without "theme" t else t in
  if storage_works p then Ok (set_cell (Some (stringify (JObj copy))) p) else Throw "QuotaExceededError".

Definition resolveEffectiveTheme (p : page) (themeRaw : string) : string :=
  if (themeRaw =s? "dark") || (themeRaw =s? "light") then themeRaw
  else if system_dark p then "dark" else "light".

Definition wireAutoThemeListener (p : page) : page :=
  let p := match themeMediaQuery p with
           | Some q => set_theme_listener None (List.filter (fun x => negb (x =? q)) (theme_listeners p)) (made p) p
           | None => p
           end in
  if negb (data_theme_preference p =s? "auto") then p
  else set_theme_listener (Some (made p)) (theme_listeners p ++ [made p]) (S (made p)) p.

Definition wireCrosshair (on : bool) (p : page) : page :=
  let p := match crosshairMove p with
           | Some q => set_mouse_listener None (List.filter (fun x => negb (x =? q)) (mouse_listeners p)) (made p) p
           | None => p
           end in
  if negb on then p
  else set_mouse_listener (Some (made p)) (mouse_listeners p ++ [made p]) (S (made p)) p.

(** [setAttribute] makes a string of what it is given. *)
Definition themeRaw (t : list (string * jsval)) (p : page) : string :=
  match user_ui_theme p with
  | Some attr =>
      js_String (js_or (js_or (JStr attr) (match read_defaults p with JObj fs => field "theme" fs | _ => JUndef end)) (JStr "auto"))
  | None => js_String (js_or (field "theme" t) (JStr "light"))
  end.
Definition applyTweaks (t : list (string * jsval)) (p : page) : page :=
  let raw := themeRaw t p in
  let p := look (resolveEffectiveTheme p raw) raw (js_String (js_or (field "font" t) (JStr "ibm")))
             (truthy (field "crosshair" t)) (truthy (field "showGrid" t)) (truthy (field "scanlines" t)) p in
  let p := wireCrosshair (truthy (field "crosshair" t)) p in
  if motion p then wireAutoThemeListener p else p.

(** A change of the theme of the system runs every listener that is installed. *)
Definition onSystemThemeChange (p : page) : page :=
  match loadTweaks p with Ok t => applyTweaks t p | Throw _ => p end.

(** The settings in memory and the page: what runs when the document is ready, and [setT],
    which may throw when the settings cannot be stored. *)
Definition boot (p : page) : res (list (string * jsval) * page) := t <~ loadTweaks p ;; Ok (t, applyTweaks t p).
Definition setT (patch : list (string * jsval)) (st : list (string * jsval) * page) : res unit * (list (string * jsval) * page) :=
  let tweaks := assign (assign [] st.1) patch in
  match saveTweaks tweaks st.2 with
  | Ok p => (Ok tt, (tweaks, applyTweaks tweaks p))
  | Throw e => (Throw e, (tweaks, st.2))
  end.

(** ** The other effects *)

(** The text of the clock. *)
Definition clock_text (now : Z) : string :=
  let s := toISOString now in
  stake 19 (match index_of s "T" with Some n => stake n s +:+ " " +:+ sdrop (S n) s | None => s end) +:+ "Z".

Definition seq : list string :=
  ["ArrowUp"; "ArrowUp"; "ArrowDown"; "ArrowDown"; "ArrowLeft"; "ArrowRight"; "ArrowLeft"; "ArrowRight"; "b"; "a"].
(** A key press outside of an input: the next position, and whether the toast is shown. *)
Definition konami_key (pos : nat) (k : string) : nat * bool :=
  if match seq !! pos with Some x => k =s? x | None => false end then
    if S pos =? length seq then (0, true) else (S pos, false)
  else (if k =s? "ArrowUp" then 1 else 0, false).
Record key_press := KeyPress { in_input : bool; key : string }.
Definition konami_step (st : nat * list bool) (e : key_press) : nat * list bool :=
  if in_input e then (st.1, st.2 ++ [false])
  else let '(pos, shown) := konami_key st.1 (key e) in (pos, st.2 ++ [shown]).
Definition konami (es : list key_press) : list bool := (fold_left konami_step es (0, [])).2.

Definition registers_service_worker (supported : bool) (protocol hostname : string) : bool :=
  let local := (hostname =s? "127.0.0.1") || (hostname =s? "localhost") || (hostname =s? "[::1]") in
  supported && negb (protocol =s? "file:") && ((protocol =s? "https:") || local).

(** ** Lemmas *)

Definition keys (fs : list (string * jsval)) : list string := map fst fs.
Lemma field_put k v k' fs : field k' (put_field k v fs) = if k =s? k' then v else field k' fs.
Proof.
  induction fs as [|[a b] fs IH]; cbn [put_field field]; [done|].
  destruct (String.eqb_spec a k) as [->|Hne]; cbn [field]; [by destruct (k =s? k')|].
  destruct (String.eqb_spec a k') as [->|_]; [|done]. apply String.eqb_neq in Hne. by rewrite String.eqb_sym, Hne.
Qed.
Lemma keys_put k v fs : keys (put_field k v fs) = if str_mem k (keys fs) then keys fs else keys fs ++ [k].
Proof.
  induction fs as [|[a b] fs IH]; cbn [put_field keys map fst]; [done|]. fold (keys fs).
  destruct (String.eqb_spec a k) as [->|Hne]; cbn [map fst].
  - assert (str_mem k (k :: keys fs) = true) as -> by (apply str_mem_spec; by left). done.
  - fold (keys (put_field k v fs)). rewrite IH. destruct (str_mem k (keys fs)) eqn:E.
    + assert (str_mem k (a :: keys fs) = true) as ->; [|done]. apply str_mem_spec. right. by apply str_mem_spec.
    + assert (str_mem k (a :: keys fs) = false) as ->; [|done]. apply str_mem_false. apply str_mem_false in E.
      rewrite not_elem_of_cons. split; [congruence|done].
Qed.
Lemma NoDup_put k v fs : NoDup (keys fs) -> NoDup (keys (put_field k v fs)).
Proof.
  intros H. rewrite keys_put. destruct (str_mem k (keys fs)) eqn:E; [done|]. apply str_mem_false in E.
  apply NoDup_app. split_and!; [done| |apply NoDup_singleton]. by intros x Hx ->%list_elem_of_singleton.
Qed.
Lemma assign_snoc o fs k v : assign o (fs ++ [(k, v)]) = put_field k v (assign o fs).
Proof. unfold assign. by rewrite fold_left_app. Qed.
Lemma NoDup_assign fs o : NoDup (keys o) -> NoDup (keys (assign o fs)).
Proof. revert o. induction fs as [|[k v] fs IH]; intros o Ho; [done|]. cbn. by apply IH, NoDup_put. Qed.

(** The source wins where it has the key. *)
Lemma field_assign k fs o : NoDup (keys fs) -> field k (assign o fs) = if str_mem k (keys fs) then field k fs else field k o.
Proof.
  revert o. induction fs as [|[a b] fs IH]; intros o Hd; [done|]. cbn [keys map fst] in Hd. apply NoDup_cons in Hd as [Ha Hd].
  change (assign o ((a, b) :: fs)) with (assign (put_field a b o) fs). rewrite (IH _ Hd), field_put. cbn [keys map fst field]. fold (keys fs).
  destruct (String.eqb_spec a k) as [->|Hne].
  - apply str_mem_false in Ha. unfold keys in *. rewrite Ha.
    assert (str_mem k (k :: map fst fs) = true) as -> by (apply str_mem_spec; by left). done.
  - destruct (str_mem k (keys fs)) eqn:E; unfold keys in *.
    + assert (str_mem k (a :: map fst fs) = true) as ->; [|done]. apply str_mem_spec. right. by apply str_mem_spec.
    + assert (str_mem k (a :: map fst fs) = false) as ->; [|done]. apply str_mem_false. apply str_mem_false in E.
      rewrite not_elem_of_cons. split; [congruence|done].
Qed.
Lemma elem_of_keys_assign k fs o : k ∈ keys (assign o fs) <-> k ∈ keys o \/ k ∈ keys fs.
Proof.
  revert o. induction fs as [|[a b] fs IH]; intros o; [by split; [left|intros [?|?%elem_of_nil]]|].
  change (assign o ((a, b) :: fs)) with (assign (put_field a b o) fs). rewrite IH, keys_put. cbn [keys map fst]. fold (keys fs).
  rewrite elem_of_cons. destruct (str_mem a (keys o)) eqn:E.
  - apply str_mem_spec in E. split; [by intros [?|?]; auto|]. intros [?|[->|?]]; auto.
  - rewrite elem_of_app, list_elem_of_singleton. split; [by intros [[?| ->]|?]; auto|]. intros [?|[->|?]]; auto.
Qed.
Lemma assign_self fs : NoDup (keys fs) -> assign [] fs = fs.
Proof.
  induction fs as [|[k v] fs IH] using rev_ind; intros Hd; [done|]. unfold keys in Hd. rewrite map_app in Hd.
  apply NoDup_app in Hd as (H1 & H2 & _). rewrite assign_snoc, (IH H1). apply put_fresh. intros Hin. apply (H2 k Hin). by left.
Qed.
Lemma without_field k k' fs : field k' (without k fs) = if k =s? k' then JUndef else field k' fs.
Proof.
  induction fs as [|[a b] fs IH]; cbn; [by destruct (k =s? k')|]. fold (without k fs).
  destruct (String.eqb_spec a k) as [->|Hne]; cbn [negb field].
  - rewrite IH. by destruct (k =s? k').
  - rewrite IH. destruct (String.eqb_spec k k') as [->|_]; [|done]. apply String.eqb_neq in Hne. by rewrite Hne.
Qed.

(** Each kind of listener is installed once at most, and the variable knows it. *)
Definition wired (p : page) : Prop :=
  theme_listeners p = option_list (themeMediaQuery p) /\ mouse_listeners p = option_list (crosshairMove p).
Lemma filter_one q : List.filter (fun x => negb (x =? q)) [q] = [].
Proof. cbn. by rewrite Nat.eqb_refl. Qed.
Lemma wired_crosshair on p : wired p ->
  wired (wireCrosshair on p) /\ (is_Some (crosshairMove (wireCrosshair on p)) <-> on = true) /\ motion (wireCrosshair on p) = motion p /\
  crosshair_on (wireCrosshair on p) = crosshair_on p /\ data_theme_preference (wireCrosshair on p) = data_theme_preference p.
Proof.
  intros [H1 H2]. unfold wireCrosshair, wired. destruct (crosshairMove p) as [q|] eqn:E; cbn in H2; rewrite H2, ?filter_one;
    destruct on; cbn; rewrite ?E; (split_and!; try done); (split; [by intros [? [=]]|done]) || (split; [done|by eexists]) || (split; [intros [? ?]; congruence|done]).
Qed.
Lemma wired_theme p : wired p ->
  wired (wireAutoThemeListener p) /\ (is_Some (themeMediaQuery (wireAutoThemeListener p)) <-> data_theme_preference p = "auto") /\
  crosshairMove (wireAutoThemeListener p) = crosshairMove p /\ crosshair_on (wireAutoThemeListener p) = crosshair_on p /\
  data_theme_preference (wireAutoThemeListener p) = data_theme_preference p.
Proof.
  intros [H1 H2]. unfold wireAutoThemeListener, wired.
  destruct (themeMediaQuery p) as [q|] eqn:E; cbn in H1; rewrite H1, ?filter_one; cbn [data_theme_preference set_theme_listener];
    destruct (String.eqb_spec (data_theme_preference p) "auto") as [Ha|Ha]; cbn; rewrite ?E; (split_and!; try done);
    (split; [done|by eexists]) || (split; [by intros [? [=]]|done]) || (split; [intros [? ?]; congruence|done]).
Qed.
Lemma wired_apply t p : wired p ->
  wired (applyTweaks t p) /\ (is_Some (crosshairMove (applyTweaks t p)) <-> crosshair_on (applyTweaks t p) = true) /\
  (motion p = true -> is_Some (themeMediaQuery (applyTweaks t p)) <-> data_theme_preference (applyTweaks t p) = "auto").
Proof.
  intros Hp. unfold applyTweaks. set (p0 := look _ _ _ _ _ _ p). assert (wired p0) as H0 by exact Hp.
  destruct (wired_crosshair (truthy (field "crosshair" t)) p0 H0) as (H1 & H2 & H3 & H4 & H5). rewrite H3. change (motion p0) with (motion p).
  destruct (motion p).
  - destruct (wired_theme _ H1) as (H6 & H7 & H8 & H9 & H10). rewrite H8, H9, H10, H4. split_and!; [done|by rewrite H2|done].
  - split_and!; [done|by rewrite H2, H4|done].
Qed.

(** What applying leaves alone, one step at a time. *)
Definition kept (p : page) := (user_ui_theme p, defaults_script p, tweak_cell p, storage_works p).
Definition stays {A} (f : page -> A) : Prop :=
  (forall q, f (wireAutoThemeListener q) = f q) /\ (forall on q, f (wireCrosshair on q) = f q).
Lemma apply_stays {A} (f : page -> A) t p v :
  stays f -> (forall theme pref font c g s, f (look theme pref font c g s p) = v theme pref font c g s) ->
  f (applyTweaks t p) = v (resolveEffectiveTheme p (themeRaw t p)) (themeRaw t p) (js_String (js_or (field "font" t) (JStr "ibm")))
    (truthy (field "crosshair" t)) (truthy (field "showGrid" t)) (truthy (field "scanlines" t)).
Proof.
  intros [H1 H2] H3. unfold applyTweaks. set (q := wireCrosshair _ _). rewrite <- H3.
  assert (f (if motion q then wireAutoThemeListener q else q) = f q) as -> by (destruct (motion q); [apply H1|done]). apply H2.
Qed.
Ltac by_wiring :=
  split; [intros q; unfold wireAutoThemeListener; by destruct (themeMediaQuery q), (negb _)
         |intros on q; unfold wireCrosshair; by destruct (crosshairMove q), on].
Lemma kept_apply t p : kept (applyTweaks t p) = kept p.
Proof. apply (apply_stays kept t p (fun _ _ _ _ _ _ => kept p)); [by_wiring|done]. Qed.
Lemma motion_apply t p : motion (applyTweaks t p) = motion p.
Proof. apply (apply_stays motion t p (fun _ _ _ _ _ _ => motion p)); [by_wiring|done]. Qed.
Lemma preference_apply t p : data_theme_preference (applyTweaks t p) = themeRaw t p.
Proof. apply (apply_stays data_theme_preference t p (fun _ pref _ _ _ _ => pref)); [by_wiring|done]. Qed.

Definition default_fields (p : page) : list (string * jsval) := own_fields (js_or (read_defaults p) (JObj [])).
Fixpoint set_all (patches : list (list (string * jsval))) (st : list (string * jsval) * page) : res (list (string * jsval) * page) :=
  match patches with
  | [] => Ok st
  | patch :: patches => match setT patch st with (Ok _, st) => set_all patches st | (Throw e, _) => Throw e end
  end.

(** The settings in memory have the keys of the defaults, each key once, and the page is
    the one that was loaded but for the cell and the look. *)
Definition settled_on (p : page) (st : list (string * jsval) * page) : Prop :=
  NoDup (keys st.1) /\ (forall k, k ∈ keys (default_fields p) -> k ∈ keys st.1) /\
  user_ui_theme st.2 = user_ui_theme p /\ defaults_script st.2 = defaults_script p /\ storage_works st.2 = storage_works p.
Lemma boot_settled p st : boot p = Ok st -> settled_on p st.
Proof.
  unfold boot, loadTweaks. set (stored := if storage_works p then _ else _). destruct (if logged_in p then _ else Ok stored) as [s|e]; cbn; [|done].
  intros [= <-]. cbn [fst snd]. fold (default_fields p). assert (NoDup (keys (assign [] (default_fields p)))) as Hd by (apply NoDup_assign; constructor).
  pose proof (kept_apply (assign (assign [] (default_fields p)) (own_fields s)) p) as K. injection K as K1 K2 K3 K4.
  split_and!; [by apply NoDup_assign| |done..]. intros k Hk. cbn [fst]. rewrite !elem_of_keys_assign. left. by right.
Qed.
Lemma setT_settled p patch st st' : settled_on p st -> setT patch st = (Ok tt, st') -> settled_on p st'.
Proof.
  intros (H1 & H2 & H3 & H4 & H5). unfold setT, saveTweaks. destruct (storage_works st.2) eqn:E; cbn [res_bind]; [|done]. intros [= <-].
  match goal with |- settled_on p (?t, applyTweaks ?t ?q) => pose proof (kept_apply t q) as K end. injection K as K1 K2 K3 K4.
  split_and!; cbn [fst snd].
  - apply NoDup_assign. rewrite assign_self by done. done.
  - intros k Hk. rewrite !elem_of_keys_assign. left. right. by apply H2.
  - by rewrite K1.
  - by rewrite K2.
  - rewrite K4. cbn. congruence.
Qed.
Lemma set_all_settled p patches st st' : settled_on p st -> set_all patches st = Ok st' -> settled_on p st'.
Proof.
  revert st. induction patches as [|patch patches IH]; intros st Hs; cbn; [by intros [= <-]|].
  destruct (setT patch st) as [[[]|e] st1] eqn:E; cbn; [|done]. apply IH. by eapply setT_settled.
Qed.
(** The cell holds the settings after a change. *)
Lemma setT_cell patch st st' : setT patch st = (Ok tt, st') ->
  storage_works st.2 = true /\
  tweak_cell st'.2 = Some (stringify (JObj (if logged_in st.2 then without "theme" st'.1 else st'.1))).
Proof.
  unfold setT, saveTweaks. destruct (storage_works st.2) eqn:E; cbn [res_bind]; [|done]. intros [= <-]. split; [done|]. cbn [fst snd].
  match goal with |- tweak_cell (applyTweaks ?t ?q) = _ => pose proof (kept_apply t q) as K end. injection K as K1 K2 K3 K4. by rewrite K3.
Qed.
Lemma set_all_snoc patches patch st : set_all (patches ++ [patch]) st =
  (st <~ set_all patches st ;; match setT patch st with (Ok _, st) => Ok st | (Throw e, _) => Throw e end).
Proof.
  revert st. induction patches as [|q patches IH]; intros st; cbn; [by destruct (setT patch st) as [[[]|e] st1]|]. destruct (setT q st) as [[[]|e] st1]; cbn; [apply IH|done].
Qed.
Lemma stringify_obj_nonempty fs : stringify (JObj fs) <> "".
Proof. done. Qed.

(** ** Properties *)

(** settings survive.  A visitor who is not logged in and changes settings finds, after
    leaving the page and coming back, every setting as it was last set, whatever was
    stored before. *)
Theorem settings_survive_reload p patches patch st0 t p1 :
  logged_in p = false -> NoDup (keys (default_fields p)) ->
  boot p = Ok st0 -> set_all (patches ++ [patch]) st0 = Ok (t, p1) -> printable (JObj t) = true ->
  exists t', loadTweaks (reload p1) = Ok t' /\ forall k, field k t' = field k t.
Proof.
  intros Hl Hd Hb Ha Hp. pose proof (boot_settled p st0 Hb) as H0. pose proof (set_all_settled p _ _ _ H0 Ha) as (H1 & H2 & H3 & H4 & H5).
  rewrite set_all_snoc in Ha. destruct (set_all patches st0) as [st|e] eqn:E; cbn [res_bind] in Ha; [|done].
  pose proof (set_all_settled p _ _ _ H0 E) as (_ & _ & H6 & _ & H7). destruct (setT patch st) as [[[]|e] st1] eqn:Es; [|done].
  injection Ha as ->. destruct (setT_cell _ _ _ Es) as [Hw Hc]. cbn [fst snd] in *.
  assert (logged_in st.2 = false) as El by (unfold logged_in in *; by rewrite H6). rewrite El in Hc.
  unfold loadTweaks. change (storage_works (reload p1)) with (storage_works p1). change (tweak_cell (reload p1)) with (tweak_cell p1).
  assert (logged_in (reload p1) = false) as -> by (unfold logged_in in *; cbn; by rewrite H3).
  change (read_defaults (reload p1)) with (read_defaults p1). assert (read_defaults p1 = read_defaults p) as -> by (unfold read_defaults; by rewrite H4).
  fold (default_fields p). rewrite Hc, H5, <- H7, Hw.
  destruct (String.eqb_spec (stringify (JObj t)) "") as [Hn|_]; [by destruct (stringify_obj_nonempty t)|].
  rewrite (parse_stringify _ Hp). cbn [default res_bind]. eexists. split; [reflexivity|]. intros k. cbn [own_fields].
  rewrite (field_assign k t) by done. destruct (str_mem k (keys t)) eqn:Ek; [done|]. apply str_mem_false in Ek.
  rewrite assign_self by done.
  assert (forall fs, k ∉ keys fs -> field k fs = JUndef) as Hf.
  { induction fs as [|[a b] fs IH]; [done|]. cbn. rewrite not_elem_of_cons. intros [Hne Hn]. destruct (String.eqb_spec a k); [congruence|by apply IH]. }
  rewrite (Hf t Ek). apply Hf. intros Hin. by apply Ek, H2.
Qed.

(** The theme of a user who is logged in comes from the server: it is applied whatever the
    settings say, and it is not written to the storage of the browser. *)
Theorem account_theme_wins patch st st' a :
  user_ui_theme st.2 = Some a -> a <> "" -> setT patch st = (Ok tt, st') ->
  data_theme_preference st'.2 = a /\ exists fs, tweak_cell st'.2 = Some (stringify (JObj fs)) /\ field "theme" fs = JUndef.
Proof.
  intros Hu Ha Hs. destruct (setT_cell _ _ _ Hs) as [Hw Hc]. unfold setT, saveTweaks in Hs. rewrite Hw in Hs. cbn [res_bind] in Hs.
  injection Hs as <-. cbn [fst snd] in *. split.
  - rewrite preference_apply. unfold themeRaw. cbn [user_ui_theme set_cell]. rewrite Hu. unfold js_or at 2. cbn [truthy].
    apply String.eqb_neq in Ha. rewrite Ha. unfold js_or. cbn [truthy negb]. by rewrite Ha.
  - rewrite Hc. unfold logged_in. rewrite Hu. eexists. split; [done|]. by rewrite without_field.
Qed.

(** Whatever settings are applied, in whatever order, at most one listener of each kind is
    installed: the crosshair follows the mouse exactly while it is switched on, and the
    page follows the system exactly while the theme is automatic. *)
Theorem one_listener_of_each_kind ts t p :
  wired p -> motion p = true ->
  let q := fold_left (fun q t => applyTweaks t q) (ts ++ [t]) p in
  length (mouse_listeners q) = (if crosshair_on q then 1 else 0) /\
  length (theme_listeners q) = (if data_theme_preference q =s? "auto" then 1 else 0).
Proof.
  intros Hp Hm. cbv zeta. rewrite fold_left_app. cbn [fold_left].
  assert (wired (fold_left (fun q t => applyTweaks t q) ts p) /\ motion (fold_left (fun q t => applyTweaks t q) ts p) = true) as [Hq Hmq].
  { revert p Hp Hm. induction ts as [|x ts IH]; intros p Hp Hm; [done|]. cbn [fold_left]. apply IH; [by apply wired_apply|]. by rewrite motion_apply. }
  set (q := fold_left _ ts p) in *. destruct (wired_apply t q Hq) as ((H1 & H2) & H3 & H4). specialize (H4 Hmq). rewrite H1, H2. split.
  - destruct (crosshairMove (applyTweaks t q)), (crosshair_on (applyTweaks t q)); try done.
    + by assert (false = true) by (apply H3; by eexists).
    + by destruct (proj2 H3 eq_refl).
  - destruct (String.eqb_spec (data_theme_preference (applyTweaks t q)) "auto") as [Ha|Ha].
    + by destruct (proj2 H4 Ha) as [x ->].
    + destruct (themeMediaQuery (applyTweaks t q)); [|done]. destruct Ha. apply H4. by eexists.
Qed.

Definition typed (es : list key_press) : list string := map key (List.filter (fun e => negb (in_input e)) es).
Lemma konami_position es :
  let '(pos, _) := fold_left konami_step es (0, []) in pos < length seq /\ exists pre, typed es = pre ++ take pos seq.
Proof.
  induction es as [|e es IH] using rev_ind; [cbn; split; [lia|by exists []]|]. rewrite fold_left_app. cbn [fold_left].
  unfold typed. rewrite List.filter_app, map_app. fold (typed es). destruct (fold_left konami_step es (0, [])) as [pos shown].
  destruct IH as [Hp [pre Hpre]]. unfold konami_step. destruct (in_input e) eqn:Ei; cbn [fst snd List.filter negb]; rewrite Ei; cbn [negb map].
  { rewrite app_nil_r. split; [done|by exists pre]. }
  unfold konami_key. destruct (seq !! pos) as [x|] eqn:Ex; [|apply lookup_ge_None in Ex; lia].
  destruct (String.eqb_spec (key e) x) as [->|Hne].
  - destruct (Nat.eqb_spec (S pos) (length seq)) as [E|E]; cbn [fst snd].
    + split; [cbn; lia|]. exists (typed es ++ [x]). by rewrite app_nil_r.
    + split; [lia|]. exists pre. by rewrite (take_S_r _ _ _ Ex), app_assoc, <- Hpre.
  - destruct (String.eqb_spec (key e) "ArrowUp") as [->|_]; cbn [fst snd]; (split; [cbn; lia|]).
    + by exists (typed es).
    + exists (typed es ++ [key e]). by rewrite app_nil_r.
Qed.

(** The toast is shown only when the ten keys were just typed, outside of inputs. *)
Theorem konami_needs_the_sequence es e :
  last (konami (es ++ [e])) = Some true -> exists pre, typed (es ++ [e]) = pre ++ seq.
Proof.
  unfold konami. rewrite fold_left_app. cbn [fold_left]. pose proof (konami_position es) as H.
  destruct (fold_left konami_step es (0, [])) as [pos shown]. destruct H as [Hp [pre Hpre]].
  unfold konami_step. destruct (in_input e) eqn:Ei; cbn [fst snd]; [by rewrite last_snoc|].
  unfold konami_key. destruct (seq !! pos) as [x|] eqn:Ex; [|cbn; by rewrite last_snoc].
  destruct (String.eqb_spec (key e) x) as [Hk|_]; [|cbn; by rewrite last_snoc].
  destruct (Nat.eqb_spec (S pos) (length seq)) as [E|E]; cbn [snd]; rewrite last_snoc; [intros _|done].
  exists pre. unfold typed. rewrite List.filter_app, map_app. cbn [List.filter]. rewrite Ei. cbn [negb map]. fold (typed es).
  rewrite Hpre, Hk, <- app_assoc, <- (take_S_r _ _ _ Ex), E. by rewrite firstn_all.
Qed.
(** One more "up" before the sequence, and it is not recognised. *)
Lemma konami_misses : exists es, typed es = "ArrowUp" :: seq /\ (true ∉ konami es).
Proof.
  exists (map (KeyPress false) ("ArrowUp" :: seq)). split; [done|]. apply (bool_decide_eq_true_1 _). vm_compute. reflexivity.
Qed.

(** ** Witnesses *)

Definition plain_page : page :=
  Page None (Some (stringify (JObj [("theme", JStr "auto"); ("font", JStr "ibm")]))) (Some "not json") true true true "" "" "" false false false None None [] [] 0.
Lemma settings_survive_reload_witness : exists st0 t p1,
  boot plain_page = Ok st0 /\ set_all ([[("font", JStr "space")]] ++ [[("crosshair", JBool true)]]) st0 = Ok (t, p1) /\
  exists t', loadTweaks (reload p1) = Ok t' /\ field "font" t' = JStr "space".
Proof.
  do 3 eexists. split; [vm_compute; reflexivity|]. split; [vm_compute; reflexivity|].
  destruct (settings_survive_reload plain_page [[("font", JStr "space")]] [("crosshair", JBool true)] _ _ _ eq_refl
    ltac:(apply (bool_decide_eq_true_1 _); vm_compute; reflexivity) ltac:(vm_compute; reflexivity) ltac:(vm_compute; reflexivity)
    ltac:(vm_compute; reflexivity)) as (t' & H1 & H2).
  exists t'. split; [exact H1|]. rewrite H2. vm_compute. reflexivity.
Defined.
