(* ===== verification/SignIn.v ===== *)
(** * Sign-in ([static/auth/auth-login.jsx])

    The login page: where it may redirect, the state of its form, and its handlers as
    programs over requests: the password exchange and the request it falls back to, the
    second factor, and the unlocking of the keys.  A handler works on the state it was
    called in; typing while it waits is not interleaved. *)
From Stdlib Require Import ZArith Lia Ascii.
From stdpp Require Import strings list.
From S2P Require Import Prelude JsString JsValue VaultStore KeyVault VaultProps Http Handlers Manifest Keygen Srp Accounts.
Local Open Scope nat_scope.

(** ** Redirects *)

(** [next]: the text of the parameter. *)
Definition safeClientRedirectPath (next : string) : string :=
  let next := trim next in
  if (next =s? "") || negb (starts_with next "/") || starts_with next "//" then "" else next.

(** How a browser reads a path-like address on an http page (WHATWG URL): tabs and line
    ends are taken out, a backslash counts as a slash, and two of them name a host. *)
Definition tab_or_newline (c : ascii) : bool :=
  Ascii.eqb c (ascii_of_nat 9) || Ascii.eqb c (ascii_of_nat 10) || Ascii.eqb c (ascii_of_nat 13).
Definition slash (c : ascii) : bool := Ascii.eqb c "/" || Ascii.eqb c "\".
Definition names_host (address : string) : bool :=
  match filter_chars (fun c => negb (tab_or_newline c)) address with
  | String a (String b _) => slash a && slash b
  | _ => false
  end.

(** ** What the pages share *)

(** The answer of [signup-config]: the domain, and the address of the captcha widget
    when it is enabled. *)
Definition signup_config (j : jsval) : res (string * option string) :=
  d <~ getp j "mail_domain" ;; let d := match d with JStr d => d | _ => "" end in
  c <~ getp j "cap" ;;
  on <~ (if truthy c then getp c "enabled" else Ok JUndef) ;;
  ep <~ (if truthy c then getp c "widget_api_endpoint" else Ok JUndef) ;;
  Ok (d, match on, ep with
         | JBool true, JStr url => if trim url =s? "" then None else Some (trim url)
         | _, _ => None
         end).

(** What [applyClientThemeFromUser] sets: [data-user-ui-theme] and [data-theme]. *)
Definition client_theme (prefersDark : bool) (user : jsval) : option (string * string) :=
  match getp user "ui_theme" with
  | Ok t =>
      if truthy user && truthy t then
        let raw := js_String t in
        Some (raw, if (raw =s? "dark") || (raw =s? "light") then raw else if prefersDark then "dark" else "light")
      else None
  | Throw _ => None
  end.

(** ** The page *)

Inductive phase := Idle | Loading | Mfa | MfaLoading | Done.

Section Page.
Context `{OpenPGP} `{KeyDerivation}.

Record form := Form {
  username : string;
  mailDomain : string;
  password : string;
  rememberTrustedDevice : bool;
  at_phase : phase;
  msg : string;
  nextOk : string;
  challenge : jsval;
  mfaCode : string;
  mfaMethod : string;
  capWidgetURL : string;
  capToken : string;
  theme : option (string * string);   (** [data-user-ui-theme] and [data-theme] *)
  href : option string;           (** where [window.location] was sent *)
  vault : st;
}.

Definition set_status (p : phase) (m : string) (s : form) : form :=
  Form (username s) (mailDomain s) (password s) (rememberTrustedDevice s) p m (nextOk s) (challenge s) (mfaCode s) (mfaMethod s)
    (capWidgetURL s) (capToken s) (theme s) (href s) (vault s).
Definition set_msg (m : string) (s : form) : form := set_status (at_phase s) m s.
Definition set_challenge (c : jsval) (code meth : string) (s : form) : form :=
  Form (username s) (mailDomain s) (password s) (rememberTrustedDevice s) (at_phase s) (msg s) (nextOk s) c code meth
    (capWidgetURL s) (capToken s) (theme s) (href s) (vault s).
Definition set_vault (v : st) (s : form) : form :=
  Form (username s) (mailDomain s) (password s) (rememberTrustedDevice s) (at_phase s) (msg s) (nextOk s) (challenge s) (mfaCode s) (mfaMethod s)
    (capWidgetURL s) (capToken s) (theme s) (href s) v.
Definition set_theme (t : option (string * string)) (s : form) : form :=
  Form (username s) (mailDomain s) (password s) (rememberTrustedDevice s) (at_phase s) (msg s) (nextOk s) (challenge s) (mfaCode s) (mfaMethod s)
    (capWidgetURL s) (capToken s) t (href s) (vault s).
Definition set_href (h : string) (s : form) : form :=
  Form (username s) (mailDomain s) (password s) (rememberTrustedDevice s) (at_phase s) (msg s) (nextOk s) (challenge s) (mfaCode s) (mfaMethod s)
    (capWidgetURL s) (capToken s) (theme s) (Some h) (vault s).
Definition set_config (domain cap : string) (token : string) (s : form) : form :=
  Form (username s) domain (password s) (rememberTrustedDevice s) (at_phase s) (msg s) (nextOk s) (challenge s) (mfaCode s) (mfaMethod s)
    cap token (theme s) (href s) (vault s).


(** ** Handlers *)

(** The place of the page, the time, the scripts that are loaded, the random bytes of the
    exchange, the colour scheme of the system, and the browser's security keys. *)
Variables (origin : string) (e : engine) (now : Z).
Variable digest : string -> string.
Variables srp_loaded keygen_loaded vault_loaded webauthn_loaded : bool.
Variable random : string.
Variable prefersDark : bool.
Variable getAssertion : jsval -> res jsval.

Definition load_config (s : form) : prog form :=
  r <- attempt (send (Request GET (resolve origin "/api/auth/signup-config" "") "same-origin" None None)) ;;
  Ret (match r with
       | Throw _ => set_config "" "" (capToken s) s
       | Ok resp => match signup_config (json_or_empty resp) with
                    | Ok (d, Some url) => set_config d url (capToken s) s
                    | Ok (d, None) => set_config d "" "" s
                    | Throw _ => set_config "" "" (capToken s) s
                    end
       end).

Definition applyClientThemeFromUser (user : jsval) (s : form) : form :=
  match client_theme prefersDark user with Some t => set_theme (Some t) s | None => s end.

Definition me_row (me : jsval) : res meRow :=
  kdf <~ getp me "kdf" ;; params <~ getp me "kdf_params_json" ;; salt <~ getp me "kdf_salt_b64" ;;
  wrapped <~ getp me "wrapped_secret_b64" ;; pub <~ getp me "armored_public" ;; fp <~ getp me "fingerprint" ;;
  Ok (MeRow (js_String (js_or kdf (JStr ""))) (js_String (js_or params (JStr ""))) (js_String salt) (js_String wrapped)
        (js_String (js_or pub (JStr ""))) (js_String (js_or fp (JStr "")))).

(** The row to unlock with, and the address of the session, if there is a row. *)
Definition account_row_of (s : form) (result : jsval) (u : string) : prog (option (meRow * string)) :=
  meRes <- send (call origin GET "/api/v1/account-key/me") ;;
  if negb (rp_ok meRes) then Ret None
  else
    me <- json meRes ;;
    b <- lift (getp me "bootstrapped") ;;
    if negb (truthy b) then Ret None
    else
      user <- lift (getp result "user") ;;
      email <- lift (if truthy user then getp user "email" else Ok user) ;;
      row <- lift (me_row me) ;;
      let fallback := if mailDomain s =s? "" then "" else u +:+ "@" +:+ mailDomain s in
      Ret (Some (row, js_String (js_or email (JStr fallback)))).

(** [s0]: the state the handler was called in. *)
Definition finalizeLogin (s0 : form) (result : jsval) (u pass : string) (s : form) : prog form :=
  let s := if truthy result
           then match getp result "user" with Ok user => if truthy user then applyClientThemeFromUser user s else s | Throw _ => s end
           else s in
  s <- (if vault_loaded && keygen_loaded then
          let s := set_msg "Unlocking encryption keys…" s in
          r <- attempt (account_row_of s0 result u) ;;
          Ret (match r with
               | Ok None => s
               | Ok (Some (row, sessionEmail)) =>
                   match unlockAccount e now row pass sessionEmail (vault s) with
                   | (Ok _, v) => set_vault v s
                   | (Throw m, v) => set_msg ("Logged in (keys not unlocked: " +:+ m +:+ ")") (set_vault v s)
                   end
               | Throw m => set_msg ("Logged in (keys not unlocked: " +:+ m +:+ ")") s
               end)
        else Ret s) ;;
  let s := if vault_loaded then set_vault (setTrustedDevice e now (rememberTrustedDevice s0) (vault s)) s else s in
  let s := set_status Done (if msg s =s? "" then "Redirecting…" else msg s) s in
  let s := set_challenge JNull (mfaCode s) (mfaMethod s) s in
  Ret (set_href (if nextOk s0 =s? "" then "/mail" else nextOk s0) s).

(** The body that carries the password itself. *)
Definition password_body (s0 : form) (u pass : string) : jsval :=
  JObj ([("username", JStr u); ("password", JStr pass)] ++
        (if capWidgetURL s0 =s? "" then [] else [("cap_token", JStr (trim (capToken s0)))])).

Definition submitLegacyLogin (s0 : form) (u pass : string) : prog jsval :=
  r <- send (call_json origin POST "/api/auth/login" (password_body s0 u pass)) ;;
  let j := json_or_empty r in
  if negb (rp_ok r) then err <- lift (getp j "error") ;; Raise (js_String (js_or err (JStr "Login failed")))
  else Ret j.

Definition srp_login (s0 : form) (u : string) : prog jsval :=
  if negb srp_loaded then Raise "SRP subsystem not loaded"
  else exchange digest origin random "/api/auth/login/begin" "/api/auth/login/finish" u (password s0) []
         (if capWidgetURL s0 =s? "" then [] else [("cap_token", JStr (trim (capToken s0)))]).

Definition includes_method (m : string) (l : list jsval) : bool := existsb (fun v => match v with JStr x => x =s? m | _ => false end) l.

(** [result && result.mfa_required] *)
Definition mfa_required (result : jsval) : res jsval := if truthy result then getp result "mfa_required" else Ok result.

Definition submitPrimaryLogin (s0 : form) : prog form :=
  let s := set_msg "" s0 in
  let u := to_lower (trim (username s0)) in
  if (u =s? "") || (password s0 =s? "") then Ret (set_msg "Username and password are required." s)
  else if negb (capWidgetURL s0 =s? "") && (trim (capToken s0) =s? "")
       then Ret (set_msg "Complete the human verification challenge first." s)
  else
    let s := set_status Loading "Authenticating your session…" s in
    r <- attempt
      (result <- try_catch (srp_login s0 u) (fun _ => submitLegacyLogin s0 u (password s0)) ;;
       mfa <- lift (mfa_required result) ;;
       if truthy mfa then
         methods <- lift (getp result "methods") ;;
         let methods := match methods with JArr l => l | _ => [] end in
         Ret (set_status Mfa "Two-factor authentication required."
                (set_challenge result "" (if includes_method "totp" methods then "totp"
                                          else if includes_method "webauthn" methods then "webauthn" else "recovery") s))
       else finalizeLogin s0 result u (password s0) s) ;;
    Ret (match r with Ok s => s | Throw m => set_status Idle (str_or m "Login failed") s end).

(** [challenge.challenge_id] *)
Definition challenge_id (s : form) : jsval :=
  if truthy (challenge s) then match getp (challenge s) "challenge_id" with Ok v => v | Throw _ => JUndef end else JUndef.

Definition post (path : string) (body : jsval) (failure : string) : prog jsval :=
  r <- send (call_json origin POST path body) ;;
  let j := json_or_empty r in
  if negb (rp_ok r) then err <- lift (getp j "error") ;; Raise (js_String (js_or err (JStr failure))) else Ret j.

Definition submitCode (s0 : form) : prog form :=
  if negb (truthy (challenge_id s0)) then Ret s0
  else if trim (mfaCode s0) =s? "" then Ret (set_msg "Enter your authentication code." s0)
  else
    let recovery := mfaMethod s0 =s? "recovery" in
    let s := set_status MfaLoading (if recovery then "Checking recovery code…" else "Checking authenticator code…") s0 in
    r <- attempt
      (j <- post (if recovery then "/api/auth/2fa/login/recovery" else "/api/auth/2fa/login/totp")
              (JObj [("challenge_id", challenge_id s0); ("code", JStr (trim (mfaCode s0)))]) "Verification failed" ;;
       finalizeLogin s0 j (to_lower (trim (username s0))) (password s0) s) ;;
    Ret (match r with Ok s => s | Throw m => set_status Mfa (str_or m "Verification failed") s end).

Definition useSecurityKey (s0 : form) : prog form :=
  if negb (truthy (challenge_id s0)) || negb webauthn_loaded then Ret (set_msg "Security key support is unavailable." s0)
  else
    let s := set_status MfaLoading "Waiting for your security key…" s0 in
    r <- attempt
      (begin <- post "/api/auth/2fa/login/webauthn/begin" (JObj [("challenge_id", challenge_id s0)]) "Security key challenge failed" ;;
       options <- lift (getp begin "options") ;;
       credential <- lift (getAssertion options) ;;
       cid <- lift (getp begin "challenge_id") ;;
       finish <- post "/api/auth/2fa/login/webauthn/finish" (JObj [("challenge_id", cid); ("credential", credential)])
                   "Security key verification failed" ;;
       finalizeLogin s0 finish (to_lower (trim (username s0))) (password s0) s) ;;
    Ret (match r with Ok s => s | Throw m => set_status Mfa (str_or m "Security key verification failed") s end).

(** The button that goes back to the password. *)
Definition back (s : form) : form := set_status Idle "" (set_challenge JNull (mfaCode s) (mfaMethod s) s).
(** The parameter of the address. *)
Definition load_next (next : string) (s : form) : form :=
  Form (username s) (mailDomain s) (password s) (rememberTrustedDevice s) (at_phase s) (msg s) (safeClientRedirectPath next) (challenge s)
    (mfaCode s) (mfaMethod s) (capWidgetURL s) (capToken s) (theme s) (href s) (vault s).

(** ** Lemmas *)

(** An answer of the server that was accepted. *)
Definition answered (tr : list (request * option response)) (path : string) (result : jsval) : Prop :=
  exists pre body r post, tr = pre ++ (call_json origin POST path body, Some r) :: post /\
    rp_ok r = true /\ result = json_or_empty r.

Lemma answered_app tr post path result : answered tr path result -> answered (tr ++ post) path result.
Proof.
  intros (pre & body & r & post' & -> & Hr). exists pre, body, r, (post' ++ post). by rewrite <-app_assoc.
Qed.
Lemma answered_after pre tr path result : answered tr path result -> answered (pre ++ tr) path result.
Proof.
  intros (pre' & body & r & post' & -> & Hr). exists (pre ++ pre'), body, r, post'. by rewrite <-app_assoc.
Qed.

Lemma exchange_answered begin finish u pass extra extra0 tr v :
  runs (exchange digest origin random begin finish u pass extra extra0) tr (Ok v) -> answered tr finish v.
Proof.
  unfold exchange. intros Hr. run_steps Hr.
  all: match goal with |- answered [?a; (_, Some ?r)] _ _ => eexists [a], _, r, [] end.
  all: split_and!; try reflexivity; by apply negb_false_iff.
Qed.

Lemma post_answered path body failure tr v : runs (post path body failure) tr (Ok v) -> answered tr path v.
Proof.
  unfold post. intros Hr. run_steps Hr. eexists [], _, _, []. split_and!; try reflexivity. by apply negb_false_iff.
Qed.

Lemma legacy_answered s0 u pass tr v : runs (submitLegacyLogin s0 u pass) tr (Ok v) -> answered tr "/api/auth/login" v.
Proof.
  unfold submitLegacyLogin. intros Hr. run_steps Hr. eexists [], _, _, []. split_and!; try reflexivity. by apply negb_false_iff.
Qed.

Lemma login_answered s0 u pass tr v :
  runs (try_catch (srp_login s0 u) (fun _ => submitLegacyLogin s0 u pass)) tr (Ok v) ->
  exists path, path ∈ ["/api/auth/login/finish"; "/api/auth/login"] /\ answered tr path v.
Proof.
  intros [(a & [= <-] & Hr)|(t1 & t2 & m & -> & _ & Hr)]%runs_try_catch.
  - unfold srp_login in Hr. destruct (negb srp_loaded); [inversion Hr|]. apply exchange_answered in Hr.
    exists "/api/auth/login/finish". split; [rewrite !elem_of_cons; auto | done].
  - apply legacy_answered in Hr. exists "/api/auth/login". split; [rewrite !elem_of_cons; auto | by apply answered_after].
Qed.

Lemma after_eq {A} (p q q' : prog A) tr : after p tr q -> q = q' -> after p tr q'.
Proof. by intros ? <-. Qed.

Definition destination (s0 : form) : string := if nextOk s0 =s? "" then "/mail" else nextOk s0.

(** Once the server has let the user in, the page leaves, whatever the keys do. *)
Lemma finalize_leaves s0 result u pass s tr out :
  runs (finalizeLogin s0 result u pass s) tr out ->
  exists s', out = Ok s' /\ at_phase s' = Done /\ msg s' <> "" /\ challenge s' = JNull /\ href s' = Some (destination s0).
Proof.
  unfold finalizeLogin. cbv zeta. intros [(t1 & t2 & s1 & -> & H1 & H2)|(m & -> & H1)]%runs_bind_inv.
  - inversion H2; subst. eexists. split; [reflexivity|]. cbn [at_phase msg challenge href set_href set_challenge set_status].
    split_and!; try done. destruct (msg _ =s? "") eqn:E; [done|]. by apply String.eqb_neq.
  - destruct (vault_loaded && keygen_loaded); [|inversion H1].
    apply runs_handler in H1 as (r & [=] & _).
Qed.

(** ** Properties *)

(** when the exchange that keeps the password on the device fails, for whatever
    reason (also when the server could not prove that it knows the verifier), the very
    next thing the page does is to send the password itself. *)
Theorem srp_failure_sends_password s0 tr m :
  to_lower (trim (username s0)) <> "" -> password s0 <> "" ->
  (capWidgetURL s0 = "" \/ trim (capToken s0) <> "") ->
  runs (srp_login s0 (to_lower (trim (username s0)))) tr (Throw m) ->
  exists k, after (submitPrimaryLogin s0) tr
    (Fetch (call_json origin POST "/api/auth/login"
       (JObj (("username", JStr (to_lower (trim (username s0)))) :: ("password", JStr (password s0)) ::
              (if capWidgetURL s0 =s? "" then [] else [("cap_token", JStr (trim (capToken s0)))])))) k).
Proof.
  intros Hu%String.eqb_neq Hp%String.eqb_neq Hc Hr. apply after_throw in Hr. unfold submitPrimaryLogin. cbv zeta.
  rewrite Hu, Hp. cbn [orb].
  replace (negb (capWidgetURL s0 =s? "") && (trim (capToken s0) =s? "")) with false.
  2:{ destruct Hc as [-> | ->%String.eqb_neq]; [done | by rewrite andb_false_r]. }
  eexists.
  eapply after_eq; [apply after_bind, after_attempt, after_bind, after_try_catch, Hr | reflexivity].
Qed.

(** C33: a sign-in always settles, and never on its own authority: the page ends with a
    message to try again, asking for the second factor the server demanded, or leaving
    for its destination, the last only after the server accepted the exchange or the
    password without asking for a second factor. *)
Theorem login_settles s0 tr out :
  at_phase s0 = Idle -> runs (submitPrimaryLogin s0) tr out ->
  exists s, out = Ok s /\
    match at_phase s with
    | Idle => msg s <> "" /\ href s = href s0 /\ vault s = vault s0
    | Mfa => href s = href s0 /\ vault s = vault s0 /\ mfaCode s = "" /\
        (exists path, path ∈ ["/api/auth/login/finish"; "/api/auth/login"] /\ answered tr path (challenge s)) /\
        exists m, mfa_required (challenge s) = Ok m /\ truthy m = true
    | Done => href s = Some (destination s0) /\
        exists path result m, path ∈ ["/api/auth/login/finish"; "/api/auth/login"] /\ answered tr path result /\
          mfa_required result = Ok m /\ truthy m = false
    | Loading | MfaLoading => False
    end.
Proof.
  intros Hi. unfold submitPrimaryLogin. cbv zeta.
  destruct (_ || _). { intros Hr. inversion Hr; subst. eexists. split; [done|]. cbn. rewrite Hi. done. }
  destruct (_ && _). { intros Hr. inversion Hr; subst. eexists. split; [done|]. cbn. rewrite Hi. done. }
  intros (r & -> & Hr)%runs_handler. eexists. split; [reflexivity|].
  destruct r as [s|m]; [|cbn; split_and!; try done; by apply str_or_nonempty].
  apply runs_bind_ok in Hr as (t1 & t2 & result & -> & H1 & Hr).
  assert (exists path, path ∈ ["/api/auth/login/finish"; "/api/auth/login"] /\ answered (t1 ++ t2) path result) as (path & Hp & Ha).
  { apply login_answered in H1 as (path & Hp & Ha). exists path. split; [done|]. by apply answered_app. }
  apply runs_lift_ok in Hr as (mfa & Hm & Hr). destruct (truthy mfa) eqn:Ht.
  - apply runs_lift_ok in Hr as (methods & _ & Hr). inversion Hr; subst. cbn. split_and!; eauto.
  - apply finalize_leaves in Hr as (s' & [= <-] & -> & _ & _ & ->). split; [done|]. by exists path, result, mfa.
Qed.

(** the second factor always settles too, and never on the page's own authority: it
    stays with the same challenge, and then nothing else changed, or it leaves for its
    destination after the server accepted a code or a key. *)
Theorem code_settles s0 tr out :
  at_phase s0 = Mfa -> runs (submitCode s0) tr out \/ runs (useSecurityKey s0) tr out ->
  exists s, out = Ok s /\
    match at_phase s with
    | Mfa => challenge s = challenge s0 /\ href s = href s0 /\ vault s = vault s0 /\
        (msg s <> "" \/ s = s0 /\ truthy (challenge_id s0) = false)
    | Done => challenge s = JNull /\ href s = Some (destination s0) /\ truthy (challenge_id s0) = true /\
        exists path result, path ∈ ["/api/auth/2fa/login/recovery"; "/api/auth/2fa/login/totp"; "/api/auth/2fa/login/webauthn/finish"] /\
          answered tr path result
    | _ => False
    end.
Proof.
  intros Hi [Hr|Hr].
  - unfold submitCode in Hr. cbv zeta in Hr. destruct (truthy (challenge_id s0)) eqn:Hc; cbn [negb] in Hr.
    2:{ inversion Hr; subst. eexists. split; [done|]. rewrite Hi. repeat split. right. done. }
    destruct (_ =s? ""). { inversion Hr; subst. eexists. split; [done|]. cbn. rewrite Hi. repeat split; by left. }
    apply runs_handler in Hr as (r & -> & Hr). eexists. split; [reflexivity|].
    destruct r as [s|m]; [|cbn; split_and!; try done; left; by apply str_or_nonempty].
    apply runs_bind_ok in Hr as (t1 & t2 & j & -> & H1 & (s' & [= <-] & -> & _ & -> & ->)%finalize_leaves).
    split_and!; try done. apply post_answered in H1. do 2 eexists. split; [|by apply answered_app].
    destruct (_ =s? "recovery"); rewrite !elem_of_cons; auto.
  - unfold useSecurityKey in Hr. cbv zeta in Hr. destruct (negb (truthy _) || _) eqn:Hc.
    { inversion Hr; subst. eexists. split; [done|]. cbn. rewrite Hi. repeat split; by left. }
    apply orb_false_iff in Hc as [Hc%negb_false_iff _].
    apply runs_handler in Hr as (r & -> & Hr). eexists. split; [reflexivity|].
    destruct r as [s|m]; [|cbn; split_and!; try done; left; by apply str_or_nonempty].
    apply runs_bind_ok in Hr as (t1 & t2 & begin & -> & _ & Hr).
    do 3 apply runs_lift_ok in Hr as (? & _ & Hr).
    apply runs_bind_ok in Hr as (t3 & t4 & j & -> & H1 & (s' & [= <-] & -> & _ & -> & ->)%finalize_leaves).
    split_and!; try done. apply post_answered in H1. do 2 eexists. split; [|by apply answered_after, answered_app]. rewrite !elem_of_cons; auto.
Qed.
End Page.

(** ** Where the page may go *)

(** A path that passes the check stays on the site, unless it has a backslash, a tab or
    a line end. *)
Lemma redirect_stays_on_site next :
  all_chars (fun c => negb (tab_or_newline c || Ascii.eqb c "\")) (trim next) = true ->
  names_host (safeClientRedirectPath next) = false.
Proof.
  unfold safeClientRedirectPath. cbv zeta. generalize (trim next) as p. intros p Hp.
  destruct ((p =s? "") || negb (starts_with p "/") || starts_with p "//") eqn:E; [done|].
  unfold names_host. rewrite filter_chars_id.
  2:{ refine (all_chars_mono _ _ p _ Hp). intros c. by destruct (tab_or_newline c). }
  destruct p as [|a [|b p]]; [done.. |]. cbn [all_chars] in Hp.
  apply andb_true_iff in Hp as [Ha Hp]. apply andb_true_iff in Hp as [Hb _].
  unfold slash. destruct (Ascii.eqb b "/") eqn:Hs.
  - apply Ascii.eqb_eq in Hs as ->. destruct (Ascii.eqb_spec a "/") as [->|Hn].
    { apply orb_false_iff in E as [_ E]. destruct p; discriminate E. }
    rewrite negb_orb in Ha. apply andb_true_iff in Ha as [_ Ha%negb_true_iff]. by rewrite Ha.
  - rewrite negb_orb in Hb. apply andb_true_iff in Hb as [_ Hb%negb_true_iff]. by rewrite Hb, andb_false_r.
Qed.

(** With a backslash it passes and leaves it. *)
Lemma backslash_leaves_site :
  safeClientRedirectPath "/\evil.example" = "/\evil.example" /\ names_host "/\evil.example" = true.
Proof. by vm_compute. Qed.

(** ** Witnesses *)

Definition sample_form (p : phase) (c : jsval) : form :=
  Form "  Ada " "mail.example" "pw" true p "" "/mail/inbox" c "123456" "totp" "" "" None None sample_locked.
(** A server that is down for the exchange and accepts everything else. *)
Definition sample_answer (j : jsval) (_ : unit) (rq : request) : unit * option response :=
  (tt, Some (if rq_url rq =s? "https://mail.example/api/auth/login/begin" then Response 503 None "" else Response 200 (Some j) "")).
Definition sample_user : jsval := JObj [("user", JObj [("email", JStr "ada@mail.example")])].
Definition sample_demand : jsval := JObj [("mfa_required", JBool true); ("challenge_id", JStr "c1")].

Lemma srp_failure_sends_password_witness : exists rq k,
  after (submitPrimaryLogin "https://mail.example" sample_engine 5%Z (fun s => s) true true true "r" true (sample_form Idle JNull))
    [(rq, Some (Response 503 None ""))]
    (Fetch (call_json "https://mail.example" POST "/api/auth/login" (JObj [("username", JStr "ada"); ("password", JStr "pw")])) k).
Proof.
  eexists. apply (srp_failure_sends_password "https://mail.example" sample_engine 5%Z (fun s => s) true true true "r" true
    (sample_form Idle JNull) _ "SRP begin failed"); [discriminate | discriminate | by left |].
  unfold srp_login, exchange. cbn [negb bind send]. apply runs_fetch, runs_raise.
Defined.

Lemma login_settles_witness : exists s tr, at_phase s = Done /\ href s = Some "/mail/inbox" /\
  exists path result, answered "https://mail.example" tr path result.
Proof.
  pose (p := submitPrimaryLogin "https://mail.example" sample_engine 5%Z (fun s => s) false true true "r" true (sample_form Idle JNull)).
  destruct (run_runs (sample_answer sample_user) p tt) as [tr Hr].
  destruct (login_settles "https://mail.example" sample_engine 5%Z (fun s => s) false true true "r" true (sample_form Idle JNull) tr _ eq_refl Hr)
    as (s & Hs & Hp).
  assert (at_phase s = Done) as Hd.
  { pose proof (f_equal (fun r => match r with Ok s => at_phase s | Throw _ => Idle end) Hs) as E. vm_compute in E. exact (eq_sym E). }
  rewrite Hd in Hp. destruct Hp as (Hh & path & result & m & _ & Ha & _). exists s, tr. split; [exact Hd|].
  split; [exact Hh|]. by exists path, result.
Defined.

Lemma code_settles_witness : exists s tr, at_phase s = Done /\ href s = Some "/mail/inbox" /\
  exists path result, answered "https://mail.example" tr path result.
Proof.
  pose (p := submitCode "https://mail.example" sample_engine 5%Z true true true (sample_form Mfa sample_demand)).
  destruct (run_runs (sample_answer sample_user) p tt) as [tr Hr].
  destruct (code_settles "https://mail.example" sample_engine 5%Z true true true true (fun v => Ok v) (sample_form Mfa sample_demand) tr _ eq_refl
    (or_introl Hr)) as (s & Hs & Hp).
  assert (at_phase s = Done) as Hd.
  { pose proof (f_equal (fun r => match r with Ok s => at_phase s | Throw _ => Idle end) Hs) as E. vm_compute in E. exact (eq_sym E). }
  rewrite Hd in Hp. destruct Hp as (_ & Hh & _ & path & result & _ & Ha). exists s, tr. split; [exact Hd|].
  split; [exact Hh|]. by exists path, result.
Defined.
