(* ===== verification/Register.v ===== *)
(** * Registration ([static/auth/auth-register.jsx])

    The registration page: the state of its form, the checks of the button and of the
    handler, and the handler as a program over requests: keys and verifier are made in
    the browser, posted, and the page leaves.  A handler works on the state it was
    called in; typing while it waits is not interleaved. *)
From Stdlib Require Import ZArith Lia Ascii.
From stdpp Require Import strings list.
From S2P Require Import Prelude JsString JsValue Base64 Text Json VaultStore Signature KeyVault Http Handlers Manifest Keygen Srp Accounts SignIn.
Local Open Scope nat_scope.

Module Registration.

(** ** The form *)

Record form := Form {
  username : string;
  mailDomain : string;
  domainLoading : bool;
  name : string;
  password : string;
  confirmPassword : string;
  at_phase : phase;               (** [Idle], [Loading] or [Done] *)
  loadingStep : string;
  msg : string;
  nextOk : string;
  capWidgetURL : string;
  capToken : string;
  uiTheme : string;
  theme : option (string * string);
  href : option string;
}.

Definition set_status (p : phase) (step m : string) (s : form) : form :=
  Form (username s) (mailDomain s) (domainLoading s) (name s) (password s) (confirmPassword s) p step m (nextOk s)
    (capWidgetURL s) (capToken s) (uiTheme s) (theme s) (href s).
Definition set_config (domain cap token : string) (s : form) : form :=
  Form (username s) domain false (name s) (password s) (confirmPassword s) (at_phase s) (loadingStep s) (msg s) (nextOk s)
    cap token (uiTheme s) (theme s) (href s).
Definition set_theme (t : option (string * string)) (s : form) : form :=
  Form (username s) (mailDomain s) (domainLoading s) (name s) (password s) (confirmPassword s) (at_phase s) (loadingStep s) (msg s)
    (nextOk s) (capWidgetURL s) (capToken s) (uiTheme s) t (href s).
Definition set_href (h : string) (s : form) : form :=
  Form (username s) (mailDomain s) (domainLoading s) (name s) (password s) (confirmPassword s) (at_phase s) (loadingStep s) (msg s)
    (nextOk s) (capWidgetURL s) (capToken s) (uiTheme s) (theme s) (Some h).

(** ** What the page shows of it *)

Definition normalizedUsername (s : form) : string := to_lower (trim (username s)).
Definition composedEmail (s : form) : string :=
  if negb (mailDomain s =s? "") && negb (normalizedUsername s =s? "") then normalizedUsername s +:+ "@" +:+ mailDomain s
  else if negb (mailDomain s =s? "") then "username@" +:+ mailDomain s else "".
Definition passwordRemaining (s : form) : nat := Nat.max 0 (10 - String.length (password s)).
Definition passwordReady (s : form) : bool := 10 <=? String.length (password s).
Definition passwordsMatch (s : form) : bool := (String.length (confirmPassword s) =? 0) || (password s =s? confirmPassword s).
Definition capOk (s : form) : bool := (capWidgetURL s =s? "") || negb (capToken s =s? "") && negb (trim (capToken s) =s? "").
Definition is_loading (s : form) : bool := match at_phase s with Loading => true | _ => false end.
Definition is_done (s : form) : bool := match at_phase s with Done => true | _ => false end.
Definition canSubmit (s : form) : bool :=
  negb (is_loading s) && negb (normalizedUsername s =s? "") && negb (mailDomain s =s? "") && passwordReady s &&
  (password s =s? confirmPassword s) && capOk s.

Definition order : list string := ["keygen"; "submit"; "redirect"].
Fixpoint indexOf (l : list string) (x : string) : option nat :=
  match l with [] => None | y :: l => if y =s? x then Some 0 else S <$> indexOf l x end.
Definition stepState (s : form) (stepId : string) : string :=
  if negb (is_loading s) && negb (is_done s) then "pending"
  else if is_done s then "complete"
  else match indexOf order (loadingStep s), indexOf order stepId with
       | Some current, Some target => if target <? current then "complete" else if target =? current then "active" else "pending"
       | _, _ => "pending"
       end.

(** ** The handler *)

(** What it says of a form it does not send. *)
Definition complaint (keygen_loaded : bool) (s : form) : option string :=
  if normalizedUsername s =s? "" then Some "Username is required."
  else if mailDomain s =s? "" then Some "Could not load mail domain — refresh and try again."
  else if String.length (password s) <? 10 then Some "Password must be at least 10 characters."
  else if confirmPassword s =s? "" then Some "Confirm your password to continue."
  else if negb (password s =s? confirmPassword s) then Some "Passwords do not match."
  else if negb (capWidgetURL s =s? "") && (trim (capToken s) =s? "") then Some "Complete the human verification challenge first."
  else if negb keygen_loaded then Some "Crypto subsystem not loaded — refresh and try again."
  else None.

Lemma complaint_nonempty kg s m : complaint kg s = Some m -> m <> "".
Proof. unfold complaint. repeat (destruct (_ : bool); [by intros [= <-]|]). done. Qed.

(** The button is enabled exactly for the forms the handler sends. *)
Lemma canSubmit_complaint s : is_loading s = false -> canSubmit s = true <-> complaint true s = None.
Proof.
  intros Hl. unfold canSubmit, complaint, passwordReady, capOk. rewrite Hl, Nat.leb_antisym. cbn [negb andb].
  destruct (normalizedUsername s =s? ""), (mailDomain s =s? ""); cbn [negb andb]; try done.
  destruct (String.length (password s) <? 10) eqn:H10; cbn [negb andb]; [done|].
  destruct (password s =s? confirmPassword s) eqn:He; cbn [negb andb].
  - apply String.eqb_eq in He. rewrite <- He. destruct (password s =s? "") eqn:Hp.
    { apply String.eqb_eq in Hp. rewrite Hp in H10. done. }
    destruct (capWidgetURL s =s? ""); [done|]. cbn [negb andb orb].
    destruct (trim (capToken s) =s? "") eqn:Ht; [by rewrite andb_false_r|].
    destruct (capToken s =s? "") eqn:Hk; [|done]. apply String.eqb_eq in Hk. by rewrite Hk in Ht.
  - destruct (confirmPassword s =s? ""); done.
Qed.

Section Page.
Context `{WebCrypto} `{OpenPGP}.
Variable generateKey : string -> string -> res (string * string).
Variable pgp_encrypt : pubkey -> string -> res string.
Variable digest : string -> string.
Variable origin : string.
Variables keygen_loaded srp_loaded prefersDark : bool.
Variables salt nonce srp_salt : string.        (** random bytes *)

Definition load_config (s : form) : prog form :=
  r <- attempt (send (Request GET (resolve origin "/api/auth/signup-config" "") "same-origin" None None)) ;;
  Ret (match r with
       | Throw _ => set_config "" "" (capToken s) s
       | Ok resp => match signup_config (json_or_empty resp) with
                    | Ok (d, Some url) => set_config d url (capToken s) s
                    | Ok (d, None) => set_config d "" "" s
                    | Throw _ => set_config "" "" (capToken s) s
                    end
       end).

Definition generate (u email pass : string) : res (account_row * identity_row * registration) :=
  keys <~ bootstrap generateKey pgp_encrypt salt nonce email pass ;;
  if negb srp_loaded then Throw "SRP subsystem not loaded" else Ok (keys, createRegistration digest srp_salt u pass).

Definition account_key (account : account_row) (identity : identity_row) : jsval :=
  JObj [
    ("armored_public", JStr (ac_armored_public account)); ("algorithm", JStr "openpgp-ecc-curve25519"); ("key_version", JNum 1);
    ("wrapped_secret_b64", JStr (ac_wrapped_secret_b64 account)); ("kdf", JStr (ac_kdf account));
    ("kdf_salt_b64", JStr (ac_kdf_salt_b64 account));
    ("kdf_params_json", JStr (stringify (js_or (ac_kdf_params account) (JObj []))));
    ("identities", JArr [JObj [
       ("email", JStr (in_email identity)); ("armored_public", JStr (in_armored_public identity)); ("primary_uid", JStr (in_email identity));
       ("wrapped_secret_b64", JStr (bytesToB64 (utf8 (in_wrapped_secret_armored identity)))); ("is_default", JBool true)]])].

Definition registration_body (s : form) (account : account_row) (identity : identity_row) (srp : registration) : jsval :=
  JObj [
    ("username", JStr (normalizedUsername s)); ("name", JStr (trim (name s))); ("company", JStr "");
    ("cap_token", JStr (if capWidgetURL s =s? "" then "" else trim (capToken s))); ("ui_theme", JStr (uiTheme s));
    ("srp_salt_b64", JStr (srp_salt_b64 srp)); ("srp_verifier_b64", JStr (srp_verifier_b64 srp));
    ("srp_group", JStr (srp_group srp)); ("srp_hash", JStr (srp_hash srp)); ("account_key", account_key account identity)].

Definition submit (s0 : form) : prog form :=
  let s := set_status (at_phase s0) "idle" "" s0 in
  let u := normalizedUsername s in
  match complaint keygen_loaded s with
  | Some m => Ret (set_status (at_phase s) (loadingStep s) m s)
  | None =>
      let email := u +:+ "@" +:+ mailDomain s in
      match generate u email (password s) with
      | Throw m => Ret (set_status Idle "idle" ("Key generation failed: " +:+ str_or m "Error") s)
      | Ok (account, identity, srp) =>
          r <- attempt
            (res <- send (call_json origin POST "/api/auth/register" (registration_body s account identity srp)) ;;
             let j := json_or_empty res in
             if negb (rp_ok res) then
               error <- lift (getp j "error") ;;
               Ret (set_status Idle "idle" (js_String (js_or error (JStr "Registration failed."))) s)
             else
               user <- lift (getp j "user") ;;
               let s := match client_theme prefersDark user with Some t => set_theme (Some t) s | None => s end in
               Ret (set_href (if nextOk s =s? "" then "/mail" else nextOk s)
                      (set_status Done "redirect" "Account created. Opening mail…" s))) ;;
          Ret (match r with Ok s => s | Throw _ => set_status Idle "idle" "Network error — is elvishserver running?" s end)
      end
  end.

(** ** Lemmas *)

(** The server answered with an error that is a list. *)
Definition odd_error (tr : list (request * option response)) : Prop :=
  exists rq r l, tr = [(rq, Some r)] /\ getp (json_or_empty r) "error" = Ok (JArr l).

Lemma error_text v m : m <> "" -> js_String (js_or v (JStr m)) <> "" \/ exists l, v = JArr l.
Proof using Type.
  intros Hm. unfold js_or. destruct (truthy v) eqn:Hv; [|by left].
  destruct v as [| |b|z| |t|l|fs]; try done; [left.. | right; by eexists | by left].
  - by destruct b.
  - destruct (number_first z "") as (c & r & Hz & _). intros Hn. cbn in Hn. by rewrite Hn in Hz.
  - cbn in *. by destruct (String.eqb_spec t "").
Qed.

(** How a submitted form ends. *)
Lemma submit_cases s0 tr out :
  runs (submit s0) tr out ->
  exists s, out = Ok s /\
    (at_phase s = at_phase s0 /\ tr = [] /\ msg s <> "" /\ href s = href s0 /\ complaint keygen_loaded s0 = Some (msg s) \/
     at_phase s = Idle /\ (msg s <> "" \/ odd_error tr) /\ href s = href s0 /\ complaint keygen_loaded s0 = None \/
     at_phase s = Done /\ href s = Some (if nextOk s0 =s? "" then "/mail" else nextOk s0) /\ complaint keygen_loaded s0 = None /\
     exists account identity srp r,
       generate (normalizedUsername s0) (normalizedUsername s0 +:+ "@" +:+ mailDomain s0) (password s0) = Ok (account, identity, srp) /\
       tr = [(call_json origin POST "/api/auth/register" (registration_body s0 account identity srp), Some r)] /\ rp_ok r = true).
Proof using Type.
  unfold submit. cbv zeta.
  change (complaint keygen_loaded (set_status _ _ _ s0)) with (complaint keygen_loaded s0).
  change (generate _ _ (password (set_status _ _ _ s0))) with
    (generate (normalizedUsername s0) (normalizedUsername s0 +:+ "@" +:+ mailDomain s0) (password s0)).
  destruct (complaint keygen_loaded s0) as [m|] eqn:Hc.
  { intros Hr. inversion Hr; subst. eexists. split; [done|]. left. cbn. split_and!; try done. by apply complaint_nonempty in Hc. }
  destruct (generate _ _ _) as [[[account identity] srp]|m] eqn:Hg.
  2:{ intros Hr. inversion Hr; subst. eexists. split; [done|]. right; left. cbn. split_and!; try done. by left. }
  intros (r & -> & Hr)%runs_handler. eexists. split; [reflexivity|]. destruct r as [s|m].
  2:{ right; left. cbn. split_and!; try done. by left. }
  run_step Hr. destruct (negb (rp_ok _)) eqn:Hok; run_steps Hr.
  - right; left. cbn. split_and!; try done.
    match goal with E : getp _ "error" = Ok ?v |- _ => destruct (error_text v "Registration failed.") as [He|[l ->]] end;
      [done | by left | right]. by eexists _, _, l.
  - right; right. apply negb_false_iff in Hok. destruct (client_theme _ _); cbn; split_and!; try done; by eexists _, _, _, _.
Qed.

(** ** Properties *)

(** a registration settles: the page stays with a reason, having sent nothing when a
    check failed, or it leaves for its destination, and then only after one request,
    which the server accepted.  The request is made for exactly the forms for which the
    button is enabled. *)
Theorem registration_settles s0 tr out :
  at_phase s0 = Idle -> keygen_loaded = true -> runs (submit s0) tr out ->
  exists s, out = Ok s /\
    match at_phase s with
    | Idle => href s = href s0 /\ (msg s <> "" \/ odd_error tr) /\ (canSubmit s0 = false -> tr = [])
    | Done => href s = Some (if nextOk s0 =s? "" then "/mail" else nextOk s0) /\ canSubmit s0 = true /\
        exists body r, tr = [(call_json origin POST "/api/auth/register" body, Some r)] /\ rp_ok r = true
    | _ => False
    end.
Proof using Type.
  intros Hi Hk Hr. assert (canSubmit s0 = true <-> complaint keygen_loaded s0 = None) as Hb.
  { rewrite Hk. apply canSubmit_complaint. unfold is_loading. by rewrite Hi. }
  apply submit_cases in Hr as (s & -> & [(Hp & -> & Hm & Hh & Hc) | [(Hp & Hm & Hh & Hc) | (Hp & Hh & Hc & acc & ident & srp & r & _ & -> & Hok)]]);
    exists s; (split; [done|]); rewrite Hp, ?Hi.
  - split_and!; [done | by left | done].
  - split_and!; [done..|]. apply Hb in Hc. by rewrite Hc.
  - split_and!; [done | by apply Hb | by eauto].
Qed.

(** A member of a posted object. *)
Definition member (k : string) (v : jsval) : jsval := match v with JObj fs => field k fs | _ => JUndef end.

(** [GET /api/v1/account-key/me] ([internal/httpserver/api_account_key.go]) for an account
    that was posted: the fields come back as they were, the text of the parameters as the
    database prints them, and the last sixteen digits of the fingerprint the server reads
    from the public key ([internal/openpgp/openpgp.go], [Fingerprint16]). *)
Definition Fingerprint16 (fp : string) : string := to_upper (fingerprintKeyId16 fp).
Definition server_row (params_json fp : string) (account : jsval) : jsval :=
  JObj [("bootstrapped", JBool true); ("armored_public", member "armored_public" account); ("fingerprint", JStr (Fingerprint16 fp));
        ("wrapped_secret_b64", member "wrapped_secret_b64" account); ("kdf", member "kdf" account);
        ("kdf_salt_b64", member "kdf_salt_b64" account); ("kdf_params_json", JStr params_json)].

Lemma text_or_empty t : js_String (js_or (JStr t) (JStr "")) = t.
Proof using Type. unfold js_or. cbn [truthy]. by destruct (String.eqb_spec t ""); subst. Qed.
Lemma server_row_read params_json fp acc ident :
  me_row (server_row params_json fp (account_key acc ident)) =
    Ok (MeRow (ac_kdf acc) params_json (ac_kdf_salt_b64 acc) (ac_wrapped_secret_b64 acc) (ac_armored_public acc) (Fingerprint16 fp)).
Proof using Type.
  pose (t x := js_String (js_or (JStr x) (JStr ""))).
  transitivity (Ok (MeRow (t (ac_kdf acc)) (t params_json) (ac_kdf_salt_b64 acc) (ac_wrapped_secret_b64 acc)
                      (t (ac_armored_public acc)) (t (Fingerprint16 fp)))); [reflexivity | unfold t; by rewrite !text_or_empty].
Qed.

Lemma Fingerprint16_equivalent fp : normalizeFingerprint fp <> "" -> fingerprintsEquivalent (Fingerprint16 fp) fp = true.
Proof using Type.
  intros Hn. apply equivalent_keyid. unfold Fingerprint16. rewrite keyid_idemp. split_and!; [|done..].
  intros Hs%keyid_nonempty. rewrite keyid_idemp in Hs. by apply keyid_nonempty in Hs.
Qed.

(** The parameters of a fresh account survive the printing. *)
Lemma fresh_params pw acc ident email :
  bootstrap generateKey pgp_encrypt salt nonce email pw = Ok (acc, ident) ->
  Json.parse (stringify (js_or (ac_kdf_params acc) (JObj []))) = Some (ac_kdf_params acc).
Proof using Type.
  intros (priv & d & _ & Hd & _ & _ & _ & _ & ->)%bootstrap_inv. unfold deriveKEK in Hd. cbn [js_or truthy andb negb orb] in Hd.
  destruct argon2_hash as [hash|] eqn:Ha; cbn [orb] in Hd.
  - apply res_bind_ok in Hd as (dk & Hd & [= <-]). unfold deriveKEKWithArgon2id in Hd. rewrite Ha in Hd. cbv zeta in Hd.
    apply res_bind_ok in Hd as (h & _ & Hd). apply res_bind_ok in Hd as (key & _ & [= <-]).
    cbn [d_params snd]. rewrite <- parse_stringify; [reflexivity|]. reflexivity.
  - apply res_bind_ok in Hd as (key & _ & [= <-]). cbn [d_params]. rewrite <- parse_stringify; reflexivity.
Qed.

(** C5: an account that was registered can be used: with what the one request stored, the
    same password unlocks the account key after signing in (provided OpenPGP reads back
    the pair it generated), also when the database prints the parameters in its own way,
    and the verifier is the one of the user name and the password.  *)
Theorem registered_account_opens s0 tr s pub priv k pk :
  String.length nonce = 12 -> at_phase s0 = Idle -> runs (submit s0) tr (Ok s) -> at_phase s = Done ->
  generateAccountKey generateKey (normalizedUsername s0 +:+ "@" +:+ mailDomain s0) = Ok (pub, priv) ->
  readPrivateKey priv = Ok k -> readKey pub = Ok pk ->
  normalizeFingerprint (priv_fingerprint k) = normalizeFingerprint (to_upper (pub_fingerprint pk)) ->
  normalizeFingerprint (priv_fingerprint k) <> "" ->
  exists body r, tr = [(call_json origin POST "/api/auth/register" body, Some r)] /\
    let account := member "account_key" body in
    let posted := js_String (member "kdf_params_json" account) in
    (exists params, Json.parse posted = Some params) /\
    (forall params_json, Json.parse params_json = Json.parse posted ->
       exists row fp, me_row (server_row params_json (to_upper (pub_fingerprint pk)) account) = Ok row /\
         forall e now sessionEmail v, exists v',
           @KeyVault.unlockAccount _ (keygen_derivation Json.parse digest) e now row (password s0) sessionEmail v = (Ok fp, v') /\
           accountPrivateKey (vs v') = Some k) /\
    member "username" body = JStr (normalizedUsername s0) /\
    exists verifier, Base64.b64ToBytes (js_String (member "srp_verifier_b64" body)) = Ok verifier /\
      Server.setBytes verifier = Server.verifier digest (normalizedUsername s0) (password s0) srp_salt.
Proof using Type.
  intros Hn Hi Hr Hd Hgen Hpr Hpu Hfp Hne.
  apply submit_cases in Hr as (s' & [= <-] & [(Hp & _) | [(Hp & _) | (_ & _ & _ & acc & ident & srp & r & Hg & -> & _)]]);
    [by rewrite Hd, Hi in Hp | by rewrite Hd in Hp |].
  exists (registration_body s0 acc ident srp), r. split; [done|]. cbv zeta.
  change (member "account_key" (registration_body s0 acc ident srp)) with (account_key acc ident).
  change (js_String (member "kdf_params_json" (account_key acc ident))) with (stringify (js_or (ac_kdf_params acc) (JObj []))).
  unfold generate in Hg. apply res_bind_ok in Hg as (keys & Hb & Hg).
  destruct (negb srp_loaded); [done|]. injection Hg as -> <-. rewrite (fresh_params _ _ _ _ Hb). split; [by eexists|].
  pose proof (bootstrap_inv _ _ _ _ _ _ _ _ Hb) as (priv' & d & Hg' & _ & Hf & _). rewrite Hg' in Hgen. injection Hgen as Ha ->.
  split; [|split; [reflexivity | apply registration_verifier]].
  intros params_json Hparse. assert (params_json <> "") as Hpj by (by intros ->).
  assert (ac_fingerprint acc = to_upper (pub_fingerprint pk)) as Hfe.
  { rewrite Ha in Hf. unfold KeyVault.pgpFingerprint in Hf. rewrite Hpu in Hf. by injection Hf. }
  do 2 eexists. split; [apply server_row_read|]. intros e now sessionEmail v.
  destruct (bootstrap_then_unlock generateKey pgp_encrypt Json.parse digest e now salt nonce _ _ acc ident priv k pk params_json
    (Fingerprint16 (ac_fingerprint acc)) sessionEmail v Hn Hb) as (v' & Hu & Hk & _); try done; [by rewrite Ha..| |].
  - apply Fingerprint16_equivalent. by rewrite Hfe, <- Hfp.
  - exists v'. by rewrite <- Hfe.
Qed.
End Page.
End Registration.

(** ** Witnesses *)

Section Samples.
Import Registration.
Existing Instance VaultProps.toy_pgp.

Definition ada (confirm : string) : form :=
  Form " Ada" "mail.example" false "Ada L" "long enough" confirm Idle "idle" "" "" "" "" "auto" None None.
Definition created (_ : unit) (_ : request) : unit * option response :=
  (tt, Some (Response 201 (Some (JObj [("user", JObj [("ui_theme", JStr "auto")])])) "")).
Definition sample_submit (s : form) : prog form :=
  submit toy_generate (fun k t => Ok t) toy_digest "https://mail.example" true true true "0123456789abcdef" "nonce-nonce-" "salt-salt-salt-s" s.

Lemma sample_runs : exists tr s, runs (sample_submit (ada "long enough")) tr (Ok s) /\ at_phase s = Done.
Proof.
  destruct (run_runs created (sample_submit (ada "long enough")) tt) as [tr Hr].
  pose (s := match (run created tt (sample_submit (ada "long enough"))).2 with Ok s => s | Throw _ => ada "" end).
  assert ((run created tt (sample_submit (ada "long enough"))).2 = Ok s) as E by (vm_compute; reflexivity). rewrite E in Hr.
  exists tr, s. split; [exact Hr | vm_compute; reflexivity].
Qed.

Lemma registration_settles_witness : exists s tr, href s = Some "/mail" /\ canSubmit (ada "long enough") = true /\
  exists body (r : response), tr = [(call_json "https://mail.example" POST "/api/auth/register" body, Some r)].
Proof.
  destruct sample_runs as (tr & s & Hr & Hd).
  destruct (registration_settles toy_generate (fun k t => Ok t) toy_digest "https://mail.example" true true true
    "0123456789abcdef" "nonce-nonce-" "salt-salt-salt-s" (ada "long enough") tr (Ok s)) as (s' & Hs & Hp);
    [reflexivity | reflexivity | exact Hr |].
  injection Hs as <-. rewrite Hd in Hp. destruct Hp as (Hh & Hc & body & r & Htr & _). exists s, tr.
  split; [exact Hh|]. split; [exact Hc|]. by exists body, r.
Defined.

Lemma registered_account_opens_witness : exists row fp,
  forall v, exists v', @KeyVault.unlockAccount _ (keygen_derivation Json.parse toy_digest) sample_engine 5 row "long enough" "" v = (Ok fp, v').
Proof.
  destruct sample_runs as (tr & s & Hr & Hd).
  destruct (registered_account_opens (H0 := VaultProps.toy_pgp) toy_generate (fun k t => Ok t) toy_digest "https://mail.example" true true true
    "0123456789abcdef" "nonce-nonce-" "salt-salt-salt-s" (ada "long enough") tr s "AB" "AB" "AB" "AB")
    as (body & r & _ & _ & Ho & _); try reflexivity; [exact Hr | exact Hd | discriminate |].
  destruct (Ho _ eq_refl) as (row & fp & _ & Hu). exists row, fp. intros v.
  destruct (Hu sample_engine 5%Z "" v) as (v' & Hu' & _). by exists v'.
Defined.
End Samples.
