(* ===== verification/UnlockDialog.v ===== *)
(** * The unlock dialog ([static/mail/unlock-modal.jsx])

    The dialog in which the password opens the vault of a session that already exists,
    generating keys for an account that has none, and the guard that polls the vault once
    a second and decides when the dialog is shown. *)
From Stdlib Require Import ZArith Lia Ascii.
From stdpp Require Import strings list relations.
From S2P Require Import Prelude JsString JsValue Base64 Text Json VaultStore Signature KeyVault VaultProps Http Handlers Manifest Keygen Srp Accounts SignIn Register.
Local Open Scope nat_scope.

Section Unlocks.
Context `{OpenPGP} `{KeyDerivation}.
Lemma hydrate_unlocks t priv pub fp s r s' : hydrateUnlockedAccount t priv pub fp s = (Ok r, s') -> isUnlocked s' = true.
Proof. by intros (k & pk & _ & _ & ->)%hydrate_inv. Qed.
Lemma unlock_unlocks e now row pass email s r s' : KeyVault.unlockAccount e now row pass email s = (Ok r, s') -> isUnlocked s' = true.
Proof.
  unfold KeyVault.unlockAccount. destruct (res_bind _ _) as [priv|]; [|done].
  destruct (hydrateUnlockedAccount _ _ _ _ _) as [[fp|] s1] eqn:Eh; [|done]. intros [= _ <-].
  apply hydrate_unlocks in Eh. unfold isUnlocked in *. by destruct s1.
Qed.
End Unlocks.

(** ** The dialog *)

Module Dialog.
Section Dialog.
Context `{WebCrypto} `{OpenPGP}.
Variable generateKey : string -> string -> res (string * string).
Variable pgp_encrypt : pubkey -> string -> res string.
Variable digest : string -> string.
Variable origin : string.
Variable e : engine.
Variable now : Z.
Variable scripts_loaded : bool.                (** [ElvishKeygen] and [ElvishKeyVault] *)
Variables salt nonce : string.                 (** random bytes *)

(** The vault over the key derivation of [keygen.js]. *)
Local Abbreviation unlockAccount := (@KeyVault.unlockAccount _ (keygen_derivation Json.parse digest)).

Record dialog := Dialog {
  password : string;
  busy : bool;
  err : string;
  step : string;
  needsBootstrap : bool;
  activeStage : string;
  vault : st;
  unlocked_calls : nat;          (** calls of [onUnlocked] *)
}.

Definition set_busy (b : bool) (s : dialog) : dialog :=
  Dialog (password s) b (err s) (step s) (needsBootstrap s) (activeStage s) (vault s) (unlocked_calls s).
Definition set_err (m : string) (s : dialog) : dialog :=
  Dialog (password s) (busy s) m (step s) (needsBootstrap s) (activeStage s) (vault s) (unlocked_calls s).
Definition set_step (t : string) (s : dialog) : dialog :=
  Dialog (password s) (busy s) (err s) t (needsBootstrap s) (activeStage s) (vault s) (unlocked_calls s).
Definition set_stage (g t : string) (s : dialog) : dialog :=
  Dialog (password s) (busy s) (err s) t (needsBootstrap s) g (vault s) (unlocked_calls s).
Definition set_vault (v : st) (s : dialog) : dialog :=
  Dialog (password s) (busy s) (err s) (step s) (needsBootstrap s) (activeStage s) v (unlocked_calls s).
Definition set_needs (b : bool) (s : dialog) : dialog :=
  Dialog (password s) (busy s) (err s) (step s) b (activeStage s) (vault s) (unlocked_calls s).
Definition onUnlocked (s : dialog) : dialog :=
  Dialog (password s) (busy s) (err s) (step s) (needsBootstrap s) (activeStage s) (vault s) (S (unlocked_calls s)).

Definition stages : list string := ["session"; "secure"; "open"].
Definition stageState (s : dialog) (stageId : string) : string :=
  if activeStage s =s? "idle" then "pending"
  else if activeStage s =s? "done" then "complete"
  else match Registration.indexOf stages (activeStage s), Registration.indexOf stages stageId with
       | Some current, Some target => if target <? current then "complete" else if target =? current then "active" else "pending"
       | _, _ => "pending"
       end.

(** The dialog is closed, and opened: it asks whether there are keys. *)
Definition on_close (s : dialog) : dialog := Dialog "" (busy s) "" "" false "idle" (vault s) (unlocked_calls s).
Definition probe (s : dialog) : prog dialog :=
  r <- attempt (r <- send (call origin GET "/api/v1/account-key/me") ;;
                if negb (rp_ok r) then Ret (needsBootstrap s)
                else j <- json r ;; b <- lift (getp j "bootstrapped") ;; Ret (negb (truthy b))) ;;
  Ret (match r with Ok b => set_needs b s | Throw _ => s end).

(** *** Steps that keep the state when they throw *)

Local Abbreviation M := (Handlers.M dialog).

(** *** Uploads *)

Definition bootstrap_body (account : account_row) (identity : identity_row) : jsval :=
  JObj [
    ("armored_public", JStr (ac_armored_public account)); ("wrapped_secret_b64", JStr (ac_wrapped_secret_b64 account));
    ("kdf", JStr (ac_kdf account)); ("kdf_salt_b64", JStr (ac_kdf_salt_b64 account));
    ("kdf_params_json", JStr (stringify (js_or (ac_kdf_params account) (JObj []))));
    ("identities", JArr [JObj [
       ("email", JStr (in_email identity)); ("armored_public", JStr (in_armored_public identity)); ("primary_uid", JStr (in_email identity));
       ("wrapped_secret_b64", JStr (bytesToB64 (utf8 (in_wrapped_secret_armored identity)))); ("is_default", JBool true)]])].

(** [throw new Error(prefix + (j.error || r.status))] of an answer that is not ok. *)
Definition checked (prefix : string) (r : response) : prog unit :=
  if rp_ok r then Ret tt
  else error <- lift (getp (json_or_empty r) "error") ;; Raise (prefix +:+ js_String (js_or error (JNum (rp_status r)))).

Definition bootstrapNew (email pass : string) : prog unit :=
  keys <- lift (bootstrap generateKey pgp_encrypt salt nonce email pass) ;;
  r <- send (call_json origin POST "/api/v1/account-key/bootstrap" (bootstrap_body keys.1 keys.2)) ;;
  checked "bootstrap upload failed: " r.

Definition mintIdentity (email accountArmoredPublic : string) : prog unit :=
  idKp <- lift (generateKey email email) ;;
  wrappedArmored <- lift (pgpWrapToAccount pgp_encrypt idKp.2 accountArmoredPublic) ;;
  r <- send (call_json origin POST "/api/v1/identities"
         (JObj [("email", JStr email); ("armored_public", JStr idKp.1); ("primary_uid", JStr email);
                ("wrapped_secret_b64", JStr (bytesToB64 (utf8 wrappedArmored))); ("is_default", JBool true)])) ;;
  checked "identity mint failed: " r.

(** *** The handler *)

(** A GET that must be ok, as JSON. *)
Definition get_json (path : string) (failure : response -> string) : prog jsval :=
  r <- send (call origin GET path) ;; if negb (rp_ok r) then Raise (failure r) else json r.
Definition status_of (prefix : string) (r : response) : string := prefix +:+ Z_to_string (rp_status r) +:+ ")".

(** [meAuth && meAuth.user && meAuth.user.email] *)
Definition session_email (meAuth : jsval) : res jsval :=
  if negb (truthy meAuth) then Ok meAuth
  else u <~ getp meAuth "user" ;; if negb (truthy u) then Ok u else getp u "email".

Definition is_bootstrapped (me : jsval) : res bool := b <~ getp me "bootstrapped" ;; Ok (truthy b).

(** [list.length] of the identities of an answer. *)
Definition identity_count (idJson : jsval) : res nat :=
  l <~ getp idJson "identities" ;; Ok (match l with JArr l => length l | _ => 0 end).

Definition first_identity (userEmail : string) (me : jsval) : M nat :=
  _ <== modify (set_step ("Creating a default sender identity for " +:+ userEmail +:+ "…")) ;;;
  _ <== await (pub <- lift (getp me "armored_public") ;; mintIdentity userEmail (js_String pub)) ;;;
  await (r <- send (call origin GET "/api/v1/identities") ;;
         if rp_ok r then j <- json r ;; n <- lift (identity_count j) ;; Ret n else Ret 0).

(** From the row of the account on: unlock, and a first identity when there is none.
    [s0]: the state the handler was called in. *)
Definition enter (s0 : dialog) (userEmail : string) (me : jsval) : M unit :=
  _ <== modify (set_stage "open" "Unlocking your mailbox…") ;;;
  row <== await (lift (me_row me)) ;;;
  _ <== (fun s => let '(r, v) := unlockAccount e now row (password s0) userEmail (vault s) in Ret (set_vault v s, r)) ;;;
  _ <== modify (set_step "Checking your sender identities…") ;;;
  n <== await (idJson <- get_json "/api/v1/identities" (status_of "identities fetch failed (") ;; lift (identity_count idJson)) ;;;
  _ <== (if n =? 0 then first_identity userEmail me else hret n) ;;;
  _ <== modify (set_stage "done" "Mailbox ready.") ;;;
  modify onUnlocked.

Definition open_mailbox (s0 : dialog) : M unit :=
  if negb scripts_loaded then hthrow "crypto subsystem not loaded"
  else if String.length (password s0) <? 10 then hthrow "password must be at least 10 characters"
  else
    _ <== modify (set_stage "session" "Checking your signed-in session…") ;;;
    email <== await (meAuth <- get_json "/api/auth/me" (fun _ => "not logged in (refresh and try again)") ;; lift (session_email meAuth)) ;;;
    if negb (truthy email) then hthrow "session has no user email"
    else
      let userEmail := js_String email in
      _ <== modify (set_stage "secure" (if needsBootstrap s0 then "Generating account keys for this device…" else "Fetching your encrypted account key…")) ;;;
      me <== await (get_json "/api/v1/account-key/me" (status_of "account key fetch failed (")) ;;;
      known <== await (lift (is_bootstrapped me)) ;;;
      me <== (if known then hret me
              else
                _ <== modify (set_step "No keys yet — generating account + identity in your browser…") ;;;
                _ <== await (bootstrapNew userEmail (password s0)) ;;;
                me <== await (get_json "/api/v1/account-key/me" (status_of "account key re-fetch failed (")) ;;;
                known <== await (lift (is_bootstrapped me)) ;;;
                if known then hret me else hthrow "bootstrap upload did not persist") ;;;
      enter s0 userEmail me.

Definition submit (s0 : dialog) : prog dialog :=
  if busy s0 then Ret s0
  else
    p <- open_mailbox s0 (set_busy true (set_err "" s0)) ;;
    let '(s, r) := p in
    Ret (set_busy false (match r with Ok _ => s | Throw m => set_err (str_or m "Error") s end)).

(** ** How a submitted dialog ends *)

(** While the handler runs nothing has been reported. *)
Definition quiet (n : nat) (s : dialog) : Prop := err s = "" /\ unlocked_calls s = n.
Definition quiet_open (n : nat) (s : dialog) : Prop := quiet n s /\ isUnlocked (vault s) = true.

(** Read off the triple of a program step by step. *)
Ltac step_triple :=
  repeat (cbv zeta; lazymatch goal with
  | |- forall _, _ => intros ?
  | |- triple _ (hbind (modify (set_stage "done" _)) _) _ _ => fail
  | |- triple _ (if ?b then _ else _) _ _ => destruct b
  | |- triple _ (hthrow _) _ _ => apply triple_throw
  | |- triple _ (hret _) _ _ => apply triple_ret
  | |- triple _ (await _) _ _ => apply triple_await
  | |- triple ?P (hbind (modify _) _) _ _ => apply triple_bind with (Q := P); [apply triple_modify|]
  | |- triple ?P (hbind (await _) _) _ _ => apply triple_bind with (Q := P); [apply triple_await|]
  | |- triple ?P (hbind (if _ then _ else _) _) _ _ => apply triple_bind with (Q := P)
  end).

Lemma open_mailbox_triple s0 n :
  triple (quiet n) (open_mailbox s0)
    (fun s => err s = "" /\ unlocked_calls s = S n /\ activeStage s = "done" /\ isUnlocked (vault s) = true) (quiet n).
Proof using Type.
  unfold open_mailbox, enter, first_identity. step_triple; try done.
  apply triple_bind with (Q := quiet_open n).
  { intros s tr out [He Hn] Hr. destruct (KeyVault.unlockAccount _ _ _ _ _ _) as [r v] eqn:Eu.
    inversion Hr; subst. eexists _, _. split; [done|]. destruct r; [|done]. split; [done|]. by apply unlock_unlocks in Eu. }
  step_triple; try (unfold quiet_open, quiet in *; cbn; tauto).
  apply triple_bind with (Q := fun s => quiet_open n s /\ activeStage s = "done").
  - by apply triple_modify.
  - step_triple. apply triple_modify. intros s [[[? <-] ?] ?]. done.
Qed.

(** the dialog settles: however the requests go, it ends ready for another attempt,
    either with an error and nothing reported, or with the vault open, reported once. *)
Theorem unlock_settles s0 tr out :
  busy s0 = false -> runs (submit s0) tr out ->
  exists s, out = Ok s /\ busy s = false /\
    (err s <> "" /\ unlocked_calls s = unlocked_calls s0 \/
     err s = "" /\ unlocked_calls s = S (unlocked_calls s0) /\ activeStage s = "done" /\ isUnlocked (vault s) = true).
Proof using Type.
  intros Hb. unfold submit. rewrite Hb.
  intros [(t1 & t2 & [s1 r] & -> & H1 & H2)|(m & -> & H1)]%runs_bind_inv;
    apply (open_mailbox_triple s0 (unlocked_calls s0)) in H1 as (s2 & r2 & [= <- <-] & Hq); try done.
  inversion H2; subst. eexists. split; [done|]. split; [done|]. destruct r as [u|m]; [by right | left].
  destruct Hq as [_ Hq]. cbn. split; [by apply str_or_nonempty | done].
Qed.

(** ** A server to talk to

    The four endpoints the dialog uses ([internal/httpserver/api_account_key.go] and
    [api_identities.go]), for one signed-in user: an account key is inserted once. *)
Record server := Server { sv_email : string; sv_account : option jsval; sv_identities : list jsval }.

Definition pub_fp (pub : string) : string := match readKey pub with Ok k => to_upper (pub_fingerprint k) | Throw _ => "" end.
Definition text_of (k : string) (v : jsval) : string := js_String (Registration.member k v).
(** The row of the account that was posted as [a]. *)
Definition row_of (a : jsval) : jsval := Registration.server_row (text_of "kdf_params_json" a) (pub_fp (text_of "armored_public" a)) a.

Definition answer (status : Z) (j : jsval) : option response := Some (Response status (Some j) "").
Definition respond (sv : server) (rq : request) : server * option response :=
  let path := sdrop (String.length origin) (rq_url rq) in
  let body := match rq_body rq with Some t => default JNull (Json.parse t) | None => JNull end in
  match rq_method rq with
  | GET =>
      if path =s? "/api/auth/me" then (sv, answer 200 (JObj [("user", JObj [("email", JStr (sv_email sv))])]))
      else if path =s? "/api/v1/account-key/me" then
        (sv, answer 200 (match sv_account sv with None => JObj [("bootstrapped", JBool false)] | Some a => row_of a end))
      else if path =s? "/api/v1/identities" then (sv, answer 200 (JObj [("identities", JArr (sv_identities sv))]))
      else (sv, answer 404 (JObj []))
  | POST =>
      if path =s? "/api/v1/account-key/bootstrap" then
        match sv_account sv with
        | Some _ => (sv, answer 500 (JObj [("error", JStr "internal error")]))
        | None => (Server (sv_email sv) (Some body) (match Registration.member "identities" body with JArr l => l | _ => [] end),
                   answer 201 (JObj [("ok", JBool true)]))
        end
      else if path =s? "/api/v1/identities" then (Server (sv_email sv) (sv_account sv) (sv_identities sv ++ [body]), answer 201 (JObj []))
      else (sv, answer 404 (JObj []))
  | _ => (sv, answer 404 (JObj []))
  end.

Lemma path_of path : sdrop (String.length origin) (resolve origin path "") = normalise_path path.
Proof using Type. unfold resolve. cbn. by rewrite sdrop_app, sapp_nil_r. Qed.

Lemma run_get sv path j failure :
  respond sv (call origin GET path) = (sv, answer 200 j) -> run respond sv (get_json path failure) = (sv, Ok j).
Proof using Type. intros Hr. unfold get_json, send. cbn [bind run]. by rewrite Hr. Qed.

Ltac answers := unfold respond; cbn [rq_method rq_url rq_body call call_json]; rewrite path_of; reflexivity.
Lemma answer_session sv :
  respond sv (call origin GET "/api/auth/me") = (sv, answer 200 (JObj [("user", JObj [("email", JStr (sv_email sv))])])).
Proof using Type. answers. Qed.
Lemma answer_key sv :
  respond sv (call origin GET "/api/v1/account-key/me") =
    (sv, answer 200 (match sv_account sv with None => JObj [("bootstrapped", JBool false)] | Some a => row_of a end)).
Proof using Type. answers. Qed.
Lemma answer_identities sv : respond sv (call origin GET "/api/v1/identities") = (sv, answer 200 (JObj [("identities", JArr (sv_identities sv))])).
Proof using Type. answers. Qed.
Lemma answer_mint sv body :
  printable body = true ->
  respond sv (call_json origin POST "/api/v1/identities" body) =
    (Server (sv_email sv) (sv_account sv) (sv_identities sv ++ [body]), answer 201 (JObj [])).
Proof using Type.
  intros Hp. unfold respond. cbn [rq_method rq_url rq_body call_json]. rewrite path_of.
  assert (json_body body = Some (stringify body)) as -> by (by destruct body). rewrite parse_stringify by done. reflexivity.
Qed.
Lemma answer_bootstrap sv body :
  printable body = true -> sv_account sv = None ->
  respond sv (call_json origin POST "/api/v1/account-key/bootstrap" body) =
    (Server (sv_email sv) (Some body) (match Registration.member "identities" body with JArr l => l | _ => [] end), answer 201 (JObj [("ok", JBool true)])).
Proof using Type.
  intros Hp Hn. unfold respond. cbn [rq_method rq_url rq_body call_json]. rewrite path_of, Hn.
  assert (json_body body = Some (stringify body)) as -> by (by destruct body). rewrite parse_stringify by done. reflexivity.
Qed.

(** The row the server makes of [a] opens with the password. *)
Definition opens_with (a : jsval) (pass email : string) : Prop :=
  exists row, me_row (row_of a) = Ok row /\ forall v, exists fp v', unlockAccount e now row pass email v = (Ok fp, v').

Definition minted (email pub wrapped : string) : jsval :=
  JObj [("email", JStr email); ("armored_public", JStr pub); ("primary_uid", JStr email);
        ("wrapped_secret_b64", JStr (bytesToB64 (utf8 wrapped))); ("is_default", JBool true)].
Definition with_identity (sv : server) (email pub wrapped : string) : server :=
  Server (sv_email sv) (sv_account sv) (match sv_identities sv with [] => [minted email pub wrapped] | l => l end).

Lemma run_first_identity sv email a s ipub ipriv w :
  generateKey email email = Ok (ipub, ipriv) -> pgpWrapToAccount pgp_encrypt ipriv (text_of "armored_public" a) = Ok w ->
  let sv' := Server (sv_email sv) (sv_account sv) (sv_identities sv ++ [minted email ipub w]) in
  exists s' n, run respond sv (first_identity email (row_of a) s) = (sv', Ok (s', Ok n)).
Proof using Type.
  intros Hg Hw sv'. unfold first_identity. erewrite run_hbind by reflexivity. erewrite run_hbind.
  2:{ apply run_await. rewrite run_bind. change (getp (row_of a) "armored_public") with (Ok (Registration.member "armored_public" a)).
      cbn [run lift]. unfold mintIdentity. rewrite Hg. cbn [lift bind]. unfold text_of in Hw. cbn [snd]. rewrite Hw. cbn [lift bind run send].
      fold (minted email (ipub, ipriv).1 w). rewrite answer_mint by reflexivity. reflexivity. }
  erewrite run_await.
  2:{ cbn [bind run send]. rewrite answer_identities. reflexivity. }
  by do 2 eexists.
Qed.

Lemma run_enter sv s0 email a s ipub ipriv w :
  opens_with a (password s0) email -> generateKey email email = Ok (ipub, ipriv) ->
  pgpWrapToAccount pgp_encrypt ipriv (text_of "armored_public" a) = Ok w ->
  exists s', run respond sv (enter s0 email (row_of a) s) = (with_identity sv email ipub w, Ok (s', Ok tt)).
Proof using Type.
  intros (row & Hrow & Hopen) Hg Hw. destruct (Hopen (vault (set_stage "open" "Unlocking your mailbox…" s))) as (fp & v & Hu). unfold enter.
  erewrite run_hbind by reflexivity. erewrite run_hbind by (apply run_await; rewrite Hrow; reflexivity).
  erewrite run_hbind by (rewrite Hu; reflexivity). erewrite run_hbind by reflexivity.
  erewrite run_hbind by (apply run_await; rewrite run_bind, (run_get _ _ _ _ (answer_identities sv)); reflexivity).
  unfold with_identity. destruct sv as [em acc ids]. cbn [sv_identities sv_email sv_account]. destruct ids as [|i l]; cbn [length Nat.eqb].
  - edestruct (run_first_identity (Server em acc []) email a) as (s1 & n & H1); [done..|].
    erewrite run_hbind by exact H1. erewrite run_hbind by reflexivity. by eexists.
  - erewrite run_hbind by reflexivity. erewrite run_hbind by reflexivity. by eexists.
Qed.

(** *** A user with and without keys *)

(** What the dialog needs before it asks the server. *)
Definition can_start (s0 : dialog) (sv : server) : Prop :=
  scripts_loaded = true /\ 10 <= String.length (password s0) /\ busy s0 = false /\ sv_email sv <> "".

Lemma run_open_known sv s0 s a ipub ipriv w :
  can_start s0 sv -> sv_account sv = Some a -> opens_with a (password s0) (sv_email sv) ->
  generateKey (sv_email sv) (sv_email sv) = Ok (ipub, ipriv) -> pgpWrapToAccount pgp_encrypt ipriv (text_of "armored_public" a) = Ok w ->
  exists s', run respond sv (open_mailbox s0 s) = (with_identity sv (sv_email sv) ipub w, Ok (s', Ok tt)).
Proof using Type.
  intros (Hs & Hl & _ & He%String.eqb_neq) Ha Ho Hg Hw. unfold open_mailbox. rewrite Hs, (proj2 (Nat.ltb_ge _ _) Hl). cbn [negb].
  erewrite run_hbind by reflexivity.
  erewrite (run_hbind _ _ _ _ _ sv _ (JStr (sv_email sv))) by (apply run_await; rewrite run_bind, (run_get _ _ _ _ (answer_session sv)); reflexivity).
  cbn [truthy js_String]. rewrite He. cbn [negb]. cbv zeta. erewrite run_hbind by reflexivity.
  erewrite run_hbind by (apply run_await, run_get, answer_key). rewrite Ha.
  erewrite run_hbind by reflexivity. erewrite run_hbind by reflexivity. by eapply run_enter.
Qed.

Lemma run_open_new sv s0 s acc ident ipub ipriv w :
  can_start s0 sv -> sv_account sv = None -> bootstrap generateKey pgp_encrypt salt nonce (sv_email sv) (password s0) = Ok (acc, ident) ->
  opens_with (bootstrap_body acc ident) (password s0) (sv_email sv) ->
  generateKey (sv_email sv) (sv_email sv) = Ok (ipub, ipriv) -> pgpWrapToAccount pgp_encrypt ipriv (ac_armored_public acc) = Ok w ->
  exists s' i, run respond sv (open_mailbox s0 s) = (Server (sv_email sv) (Some (bootstrap_body acc ident)) [i], Ok (s', Ok tt)).
Proof using Type.
  intros (Hs & Hl & _ & He%String.eqb_neq) Ha Hb Ho Hg Hw. unfold open_mailbox. rewrite Hs, (proj2 (Nat.ltb_ge _ _) Hl). cbn [negb].
  erewrite run_hbind by reflexivity.
  erewrite (run_hbind _ _ _ _ _ sv _ (JStr (sv_email sv))) by (apply run_await; rewrite run_bind, (run_get _ _ _ _ (answer_session sv)); reflexivity).
  cbn [truthy js_String]. rewrite He. cbn [negb]. cbv zeta. erewrite run_hbind by reflexivity.
  erewrite run_hbind by (apply run_await, run_get, answer_key). rewrite Ha. erewrite (run_hbind _ _ _ _ _ sv _ false) by reflexivity.
  set (sv' := Server (sv_email sv) (Some (bootstrap_body acc ident)) (match Registration.member "identities" (bootstrap_body acc ident) with JArr l => l | _ => [] end)).
  erewrite run_hbind.
  2:{ erewrite run_hbind by reflexivity.
      erewrite (run_hbind _ _ _ _ _ sv').
      2:{ apply run_await. unfold bootstrapNew. rewrite Hb. cbn [lift bind run send fst snd]. rewrite answer_bootstrap by (done || reflexivity). reflexivity. }
      erewrite run_hbind by (apply run_await, run_get, answer_key). cbn [sv_account sv'].
      erewrite (run_hbind _ _ _ _ _ sv' _ true) by reflexivity. reflexivity. }
  edestruct (run_enter sv' s0 (sv_email sv) (bootstrap_body acc ident)) as (s' & Hrun); [done..|].
  eexists s', _. rewrite Hrun. reflexivity.
Qed.

(** The keys the dialog uploads open with the password they were made with. *)
Lemma bootstrap_opens email pw acc ident priv k pk :
  String.length nonce = 12 -> bootstrap generateKey pgp_encrypt salt nonce email pw = Ok (acc, ident) ->
  generateAccountKey generateKey email = Ok (ac_armored_public acc, priv) ->
  readPrivateKey priv = Ok k -> readKey (ac_armored_public acc) = Ok pk ->
  normalizeFingerprint (priv_fingerprint k) = normalizeFingerprint (to_upper (pub_fingerprint pk)) ->
  normalizeFingerprint (priv_fingerprint k) <> "" -> opens_with (bootstrap_body acc ident) pw email.
Proof using Type.
  intros Hn Hb Hgen Hpr Hpu Hfp Hne. pose proof (Registration.fresh_params generateKey pgp_encrypt salt nonce _ _ _ _ Hb) as Hj.
  pose proof (bootstrap_inv _ _ _ _ _ _ _ _ Hb) as (_ & _ & _ & _ & Hf & _). unfold KeyVault.pgpFingerprint in Hf. rewrite Hpu in Hf. injection Hf as Hf.
  eexists. split.
  - change (row_of (bootstrap_body acc ident)) with
      (Registration.server_row (stringify (js_or (ac_kdf_params acc) (JObj []))) (pub_fp (ac_armored_public acc)) (Registration.account_key acc ident)).
    apply Registration.server_row_read.
  - intros v. unfold pub_fp. rewrite Hpu, Hf.
    destruct (bootstrap_then_unlock generateKey pgp_encrypt Json.parse digest e now salt nonce email pw acc ident priv k pk
      (stringify (js_or (ac_kdf_params acc) (JObj []))) (Registration.Fingerprint16 (ac_fingerprint acc)) email v Hn Hb) as (v' & Hu & _); try done.
    + intros E. by rewrite E in Hj.
    + apply Registration.Fingerprint16_equivalent. by rewrite <- Hf, <- Hfp.
    + by eexists _, v'.
Qed.

(** A run of the handler that returns has opened the vault. *)
Lemma run_submit sv sv' s0 s' :
  busy s0 = false -> run respond sv (open_mailbox s0 (set_busy true (set_err "" s0))) = (sv', Ok (s', Ok tt)) ->
  exists s, run respond sv (submit s0) = (sv', Ok s) /\ err s = "" /\ activeStage s = "done" /\ isUnlocked (vault s) = true.
Proof using Type.
  intros Hb Hr. unfold submit. rewrite Hb, run_bind, Hr. eexists. split; [reflexivity|].
  destruct (run_runs respond (open_mailbox s0 (set_busy true (set_err "" s0))) sv) as [tr Ht]. rewrite Hr in Ht. cbn [snd] in Ht.
  apply (open_mailbox_triple s0 (unlocked_calls s0)) in Ht as (s2 & r2 & [= <- <-] & ? & ? & ? & ?); done.
Qed.

(** C6: a signed-in user without keys gets them once: the first attempt stores an account
    key and one sender identity and opens the vault (provided OpenPGP reads back the pair
    it generated), and every later attempt with the same password opens the vault and
    leaves the server as it is, whatever the state of the browser is by then. *)
Theorem keys_are_created_once s0 sv acc ident priv k pk ipub ipriv w :
  can_start s0 sv -> sv_account sv = None -> String.length nonce = 12 ->
  bootstrap generateKey pgp_encrypt salt nonce (sv_email sv) (password s0) = Ok (acc, ident) ->
  generateAccountKey generateKey (sv_email sv) = Ok (ac_armored_public acc, priv) ->
  readPrivateKey priv = Ok k -> readKey (ac_armored_public acc) = Ok pk ->
  normalizeFingerprint (priv_fingerprint k) = normalizeFingerprint (to_upper (pub_fingerprint pk)) ->
  normalizeFingerprint (priv_fingerprint k) <> "" ->
  generateKey (sv_email sv) (sv_email sv) = Ok (ipub, ipriv) -> pgpWrapToAccount pgp_encrypt ipriv (ac_armored_public acc) = Ok w ->
  exists sv1 s1 i, run respond sv (submit s0) = (sv1, Ok s1) /\ err s1 = "" /\ isUnlocked (vault s1) = true /\
    sv1 = Server (sv_email sv) (Some (bootstrap_body acc ident)) [i] /\
    forall s2, busy s2 = false -> password s2 = password s0 ->
      exists s3, run respond sv1 (submit s2) = (sv1, Ok s3) /\ err s3 = "" /\ isUnlocked (vault s3) = true.
Proof using Type.
  intros Hc Ha Hn Hb Hgen Hpr Hpu Hfp Hne Hg Hw.
  pose proof (bootstrap_opens _ _ _ _ _ _ _ Hn Hb Hgen Hpr Hpu Hfp Hne) as Ho.
  destruct (run_open_new sv s0 (set_busy true (set_err "" s0)) _ _ _ _ _ Hc Ha Hb Ho Hg Hw) as (s' & i & Hr).
  apply run_submit in Hr as (s1 & Hr & H1 & _ & H2); [|apply Hc]. eexists _, s1, i. do 3 (split; [done|]). split; [reflexivity|].
  intros s2 Hb2 Hp2. set (sv1 := Server (sv_email sv) (Some (bootstrap_body acc ident)) [i]).
  destruct (run_open_known sv1 s2 (set_busy true (set_err "" s2)) (bootstrap_body acc ident) ipub ipriv w) as (s3 & Hr2);
    [|done|by rewrite Hp2|done|done|].
  { destruct Hc as (? & ? & ? & ?). by rewrite <- Hp2 in *. }
  apply run_submit in Hr2 as (s4 & Hr2 & ? & _ & ?); [|done]. by exists s4.
Qed.
End Dialog.
End Dialog.

(** ** The guard ([useUnlockGuard]) *)

Module Guard.
Section Guard.
Context `{OpenPGP} `{KeyDerivation}.
Variable e : engine.
Variable vault_loaded : bool.

Record guard := G {
  enabled : bool;
  accountEmail : string;
  vaultHydrated : bool;
  unlocked : bool;
  modalOpen : bool;
  idleLockout : bool;
  prevUnlocked : bool;          (** [prevUnlockedRef] *)
  vault : st;
}.

Definition mount (on : bool) (email : string) (v : st) : guard := G on email (negb on) false false false false v.

Definition vault_open (v : st) : bool := vault_loaded && isUnlocked v.
Definition restore (now : Z) (email : string) (v : st) : st :=
  if vault_loaded then (tryRestoreAccountFromSession e now email v).2 else v.

(** The first effect: of [enabled] and [accountEmail]. *)
Definition hydrate (now : Z) (g : guard) : guard :=
  if negb (enabled g) then G false (accountEmail g) true false false false false (vault g)
  else
    let v := restore now (accountEmail g) (vault g) in
    let isUnl := vault_open v in
    G true (accountEmail g) true isUnl (negb isUnl) (idleLockout g) isUnl v.

(** The third effect, after [unlocked] has changed from [before]. *)
Definition show_when_locked (before : bool) (g : guard) : guard :=
  if enabled g && vaultHydrated g && negb (unlocked g) && before
  then G (enabled g) (accountEmail g) (vaultHydrated g) (unlocked g) true (idleLockout g) (prevUnlocked g) (vault g) else g.

(** One poll. *)
Definition tick (now : Z) (g : guard) : guard :=
  if negb (enabled g && vaultHydrated g) then g
  else
    let v := if negb (vault_open (vault g)) && negb (accountEmail g =s? "") then restore now (accountEmail g) (vault g) else vault g in
    let isUnl := vault_open v in
    let prev := prevUnlocked g in
    let modal := if prev && negb isUnl then true else if negb prev && isUnl then false else modalOpen g in
    let idle := if prev && negb isUnl then true else if negb prev && isUnl then false else idleLockout g in
    show_when_locked (unlocked g) (G (enabled g) (accountEmail g) (vaultHydrated g) isUnl modal idle isUnl v).

Definition openModal (g : guard) : guard :=
  G (enabled g) (accountEmail g) (vaultHydrated g) (unlocked g) true (idleLockout g) (prevUnlocked g) (vault g).
Definition closeModal (g : guard) : guard :=
  G (enabled g) (accountEmail g) (vaultHydrated g) (unlocked g) false (idleLockout g) (prevUnlocked g) (vault g).
Definition onUnlocked (g : guard) : guard :=
  G (enabled g) (accountEmail g) (vaultHydrated g) true false false (prevUnlocked g) (vault g).
(** Something else works on the vault: the mail client, the idle timer, a lock. *)
Definition elsewhere (f : st -> st) (g : guard) : guard :=
  G (enabled g) (accountEmail g) (vaultHydrated g) (unlocked g) (modalOpen g) (idleLockout g) (prevUnlocked g) (f (vault g)).

(** *** What happens to a guard that has asked the vault *)

Inductive event : guard -> guard -> Prop :=
| ev_tick now g : event g (tick now g)
| ev_open g : event g (openModal g)
| ev_unlocked g : event g (onUnlocked g)
| ev_elsewhere f g : event g (elsewhere f g).

Definition shown (g : guard) : Prop := enabled g = true -> vaultHydrated g = true -> unlocked g = false -> modalOpen g = true.

Lemma show_keeps before g : exists m, show_when_locked before g =
  G (enabled g) (accountEmail g) (vaultHydrated g) (unlocked g) m (idleLockout g) (prevUnlocked g) (vault g).
Proof using Type. unfold show_when_locked. destruct (_ && _); [by exists true | exists (modalOpen g); by destruct g]. Qed.
Lemma tick_flags now g : enabled g = true -> vaultHydrated g = true ->
  enabled (tick now g) = true /\ vaultHydrated (tick now g) = true /\ unlocked (tick now g) = vault_open (vault (tick now g)).
Proof using Type.
  intros H1 H2. unfold tick. rewrite H1, H2. cbv zeta. cbn [negb andb].
  match goal with |- context [show_when_locked ?b ?g] => destruct (show_keeps b g) as [m ->] end. done.
Qed.

Lemma tick_shown now g : shown g -> shown (tick now g).
Proof using Type.
  unfold tick. destruct (negb (enabled g && vaultHydrated g)) eqn:E; [done|]. apply negb_false_iff, andb_true_iff in E as [E1 E2].
  cbv zeta. unfold shown, show_when_locked. cbn [enabled vaultHydrated unlocked]. rewrite E1, E2.
  set (isUnl := vault_open _). destruct isUnl eqn:Hu; cbn [andb negb]; [done|].
  destruct (unlocked g); cbn [modalOpen]; [done|]. intros Hg _ _ _. rewrite (Hg eq_refl eq_refl eq_refl). by destruct (prevUnlocked g).
Qed.

(** a locked mailbox asks for the password: unless the user closes the dialog it is
    shown whenever the page takes the vault for locked, whatever happens to the vault,
    and a poll always knows whether the vault is locked. *)
Theorem locked_mailbox_asks now0 email v g :
  rtc event (hydrate now0 (mount true email v)) g ->
  (unlocked g = false -> modalOpen g = true) /\
  forall now, unlocked (tick now g) = vault_open (vault (tick now g)).
Proof using Type.
  intros Hr. assert (enabled g = true /\ vaultHydrated g = true /\ shown g) as (H1 & H2 & Hs).
  { revert g Hr. refine (rtc_ind_r _ _ _ _).
    - split_and!; [done..|]. unfold shown. cbn. by intros _ _ ->.
    - intros g1 g2 _ Hev (H1 & H2 & Hs). destruct Hev as [now g|g|g|f g].
      + destruct (tick_flags now g H1 H2) as (? & ? & _). split_and!; [done..|by apply tick_shown].
      + by split_and!.
      + by split_and!.
      + split_and!; done. }
  split; [by apply Hs|]. intros now. by apply tick_flags.
Qed.

(** an idle lock lasts until the next poll: when the idle timer has emptied the vault
    of a session, the guard restores the account key from the cache, without the
    password, and neither shows the dialog nor says that the mailbox was locked. *)
Theorem idle_lock_lasts_one_poll now later me pw email s fp s1 g t :
  flag_is_set (ws s) Session = false -> ws_works <$> sessionStorage (ws s) = Some true ->
  storage e AtPersist (ws s) = Some Session -> me_armored_public me <> "" ->
  unlockAccount e now me pw email s = (Ok fp, s1) -> accountArmoredPriv (vs s1) <> "" ->
  timer (vs s1) = Some t -> (t <= later)%Z ->
  vault_loaded = true -> enabled g = true -> vaultHydrated g = true -> accountEmail g = email -> email <> "" ->
  unlocked g = true -> prevUnlocked g = true -> modalOpen g = false -> idleLockout g = false -> vault g = s1 ->
  let idle := elsewhere (KeyVault.tick e later) g in
  isUnlocked (vault idle) = false /\
  exists v, tick later idle = elsewhere (fun _ => v) g /\ accountPrivateKey (vs v) = accountPrivateKey (vs s1) /\ accountFingerprint (vs v) = fp.
Proof using Type.
  intros Hf Hw Hst Hpub Hun Hne Ht Hl Hv Hg1 Hg2 Hg3 Hem%String.eqb_neq Hg4 Hg5 Hg6 Hg7 Hg8 idle.
  assert (vault idle = zero e (Some (Some false, None)) s1) as Hid.
  { cbn. unfold KeyVault.tick. by rewrite Hg8, Ht, (proj2 (Z.leb_le _ _) Hl). }
  rewrite Hid. split; [done|].
  destruct (restore_after_idle e now later me pw email "" s fp s1 Hf Hw Hst Hpub Hun Hne) as [(s2 & Hr & Hk & Hfp) _].
  exists s2. split; [|done].
  assert (isUnlocked s2 = true) as Hu.
  { unfold isUnlocked. rewrite Hk. by apply unlock_unlocks in Hun. }
  unfold tick. change (enabled idle) with (enabled g). change (vaultHydrated idle) with (vaultHydrated g).
  rewrite Hid. unfold vault_open at 1 2 3, restore. rewrite Hg1, Hg2, Hv. cbn [andb negb isUnlocked zero vs accountPrivateKey].
  change (accountEmail idle) with (accountEmail g). rewrite Hg3, Hem. cbn [negb andb]. rewrite Hr. cbn [snd]. unfold vault_open. rewrite Hv, Hu.
  cbn [andb negb prevUnlocked elsewhere idle]. rewrite Hg5. cbn. unfold show_when_locked, elsewhere. cbn.
  by rewrite Hu, Hg1, Hg2, Hg3, Hg4, Hg5, Hg6, Hg7.
Qed.
End Guard.
End Guard.

(** ** Witnesses *)

Definition sample_email : string := "ada@mail.example".
Definition sample_keys : account_row * identity_row :=
  match bootstrap (H0 := VaultProps.toy_pgp) toy_generate (fun k t => Ok t) "0123456789abcdef" "nonce-nonce-" sample_email "long enough" with
  | Ok r => r
  | Throw _ => (AccountRow "" "" "" "" "" JNull, IdentityRow "" "" "" "")
  end.
Definition closed_dialog : Dialog.dialog := Dialog.Dialog "long enough" false "" "" false "idle" VaultProps.sample_locked 0.

Lemma unlock_settles_witness : exists s, Dialog.busy s = false.
Proof.
  pose (p := Dialog.submit (H0 := VaultProps.toy_pgp) toy_generate (fun k t => Ok t) toy_digest "https://mail.example" sample_engine 5 true
    "0123456789abcdef" "nonce-nonce-" closed_dialog).
  destruct (runs_exists p) as (tr & out & Hr).
  destruct (Dialog.unlock_settles (H0 := VaultProps.toy_pgp) toy_generate (fun k t => Ok t) toy_digest "https://mail.example" sample_engine 5 true
    "0123456789abcdef" "nonce-nonce-" closed_dialog tr out eq_refl Hr) as (s & _ & Hb & _).
  exists s. exact Hb.
Defined.

Lemma keys_are_created_once_witness : exists s1 sv1 i,
  KeyVault.isUnlocked (H := VaultProps.toy_pgp) s1 = true /\ Dialog.sv_identities sv1 = [i].
Proof.
  destruct (Dialog.keys_are_created_once (H0 := VaultProps.toy_pgp) toy_generate (fun k t => Ok t) toy_digest "https://mail.example" sample_engine 5 true
    "0123456789abcdef" "nonce-nonce-" closed_dialog (Dialog.Server sample_email None []) sample_keys.1 sample_keys.2 "AB" "AB" "AB" "AB" "AB" "AB")
    as (sv1 & s1 & i & _ & _ & Hu & -> & _); try reflexivity; try discriminate.
  - split_and!; [done | cbn; lia | done | done].
  - exists (Dialog.vault s1), (Dialog.Server sample_email (Some (Dialog.bootstrap_body sample_keys.1 sample_keys.2)) [i]), i. by split.
Defined.

Lemma locked_mailbox_asks_witness :
  Guard.modalOpen (Guard.hydrate (H := VaultProps.toy_pgp) sample_engine true 5 (Guard.mount true "a@b.c" VaultProps.sample_locked)) = true.
Proof.
  apply (Guard.locked_mailbox_asks (H := VaultProps.toy_pgp) sample_engine true 5 "a@b.c" VaultProps.sample_locked); [apply rtc_refl | reflexivity].
Defined.

Definition sample_guard : Guard.guard := Guard.G true "a@b.c" true true false false true VaultProps.sample_unlocked.
Lemma idle_lock_lasts_one_poll_witness : exists v,
  Guard.tick (H := VaultProps.toy_pgp) sample_engine true 900010 (Guard.elsewhere (KeyVault.tick sample_engine 900010) sample_guard) =
    Guard.elsewhere (fun _ => v) sample_guard.
Proof.
  destruct (Guard.idle_lock_lasts_one_poll (H := VaultProps.toy_pgp) sample_engine true 5 900010 VaultProps.sample_me "pw" "a@b.c"
    VaultProps.sample_locked "AA" VaultProps.sample_unlocked sample_guard 900005) as (_ & v & Hv & _);
    [first [vm_compute; reflexivity | vm_compute; discriminate].. |].
  exists v. exact Hv.
Defined.
