(* ===== verification/FilterEditor.v ===== *)
(** * The filter editor ([static/mail/mail-settings.jsx], [FiltersSection])

    The draft of a rule and its edits, the checks before it is saved, and what is sent.
    The rules it saves are evaluated twice: in the browser by [FilterEngine], and at
    delivery by the server ([internal/mailpipe/ingest_filters.go]), which is here as the
    definition the browser is compared with. *)
From Stdlib Require Import ZArith Lia Ascii DecimalPos DecimalString.
From stdpp Require Import strings list relations.
From S2P Require Import Prelude JsString JsValue Json FilterLedger FilterEngine.
Local Open Scope nat_scope.

(** ** The server *)

Module Ingest.

(** [unicode.IsSpace] below U+0100: U+0085 too. *)
Definition is_space (c : ascii) : bool := is_ws c || (code c =? 133)%N.
Fixpoint trim_left (s : string) : string :=
  match s with String c s' => if is_space c then trim_left s' else s | EmptyString => "" end.
Fixpoint trim_right (s : string) : string :=
  match s with
  | EmptyString => ""
  | String c s => match trim_right s with "" => if is_space c then "" else String c "" | t => String c t end
  end.
Definition TrimSpace (s : string) : string := trim_right (trim_left s).
Definition fold (s : string) : string := to_lower (TrimSpace s).

(** [strconv.ParseInt(s, 10, 64)] *)
Definition ParseInt (s : string) : option Z :=
  let '(sign, body) :=
    match s with
    | String c r => if Ascii.eqb c "-" then ((-1)%Z, r) else if Ascii.eqb c "+" then (1%Z, r) else (1%Z, s)
    | EmptyString => (1%Z, s)
    end in
  if (body =s? "") || negb (all_chars is_digit body) then None
  else let z := (sign * digits_val 0 body)%Z in
       if ((- 2 ^ 63 <=? z) && (z <? 2 ^ 63))%Z then Some z else None.

Record cond := Cond { typ : string; operator : string; value : string }.
(** A condition of the stored JSON, its value a string. *)
Definition decode (j : jsval) : cond := Cond (js_String (prop j "type")) (js_String (prop j "operator")) (js_String (prop j "value")).
Record mail := Mail {
  senders : list string;          (** [senderHaystacks]: envelope, header, and their addresses *)
  subject : string;
  recipient : string;
  toAddrs : list string;
  sizeBytes : Z;
  hasAttach : bool;
}.

Definition matchStringFold (hay needle op : string) : bool :=
  let h := fold hay in
  let n := fold needle in
  if (n =s? "") && negb (op =s? "equals") then false
  else if op =s? "equals" then h =s? n
  else if op =s? "starts_with" then starts_with h n
  else if op =s? "ends_with" then ends_with h n
  else if (op =s? "matches") || (op =s? "contains") then negb (n =s? "") && includes h n
  else false.

Definition ingestSizeMatches (op val : string) (size : Z) : bool :=
  match ParseInt (TrimSpace val) with
  | None => false
  | Some n => if op =s? "greater_than" then (n <? size)%Z else if op =s? "less_than" then (size <? n)%Z
              else if op =s? "equals" then (size =? n)%Z else false
  end.
Definition ingestAttachmentMatches (val : string) (has : bool) : bool :=
  let v := fold val in if (v =s? "0") || (v =s? "false") || (v =s? "no") then negb has else has.

Definition ingestConditionMatches (c : cond) (m : mail) : bool :=
  let type := fold (typ c) in
  let op := fold (operator c) in
  let op := if op =s? "" then "contains" else op in
  let val := TrimSpace (value c) in
  if type =s? "sender" then existsb (fun h => matchStringFold h val op) (senders m)
  else if type =s? "recipient" then
    negb (recipient m =s? "") && matchStringFold (recipient m) val op || existsb (fun a => matchStringFold a val op) (toAddrs m)
  else if type =s? "subject" then matchStringFold (subject m) val op
  else if type =s? "size" then ingestSizeMatches op val (sizeBytes m)
  else if type =s? "attachment" then ingestAttachmentMatches val (hasAttach m)
  else false.
Definition ingestRuleConditionsMatch (conds : list cond) (m : mail) : bool :=
  match conds with [] => false | _ => forallb (fun c => ingestConditionMatches c m) conds end.
End Ingest.

(** ** The editor *)

Module Editor.

Definition FILTER_CONDITION_TYPES : list string := ["sender"; "subject"; "recipient"; "body"; "attachment"; "size"].
Definition FILTER_OPS_STRING : list string := ["contains"; "equals"; "starts_with"; "ends_with"; "matches"].
Definition FILTER_OPS_SIZE : list string := ["greater_than"; "less_than"; "equals"].
Definition FILTER_ACTION_TYPES : list (string * bool) :=
  [("move", true); ("mark_read", true); ("delete", true); ("mark_important", false); ("label", false); ("forward", false)].

(** Rows of a draft; types and operators are what the stored JSON holds. *)
Record condition := Condition { c_type : string; c_operator : string; c_value : string }.
Record action := Action { a_type : string; a_value : string }.
Record draft := Draft {
  d_id : string;
  d_name : string;
  d_enabled : bool;
  d_priority : Z;
  d_conditions : list condition;
  d_actions : list action;
}.

Definition emptyCondition : condition := Condition "subject" "contains" "".
Definition emptyAction : action := Action "move" "archive".
Definition opsForConditionType (type : string) : list string :=
  if type =s? "size" then FILTER_OPS_SIZE else if type =s? "attachment" then ["equals"] else FILTER_OPS_STRING.
Definition defaultOperatorForType (type : string) : string :=
  if type =s? "size" then "greater_than" else if type =s? "attachment" then "equals" else "contains".

(** [Number(v) || 100] *)
Definition priority_or_100 (p : option Z) : Z := match p with Some z => if (z =? 0)%Z then 100 else z | None => 100 end.

(** [x.k || d] and [x.k == null ? '' : String(x.k)] of a stored row. *)
Definition text_or (k d : string) (x : jsval) : res string := v <~ getp x k ;; Ok (js_String (js_or v (JStr d))).
Definition value_text (x : jsval) : res string := v <~ getp x "value" ;; Ok (if is_nullish v then "" else js_String v).

Definition open_condition (x : jsval) : res condition :=
  t <~ text_or "type" "subject" x ;; o <~ text_or "operator" "contains" x ;; v <~ value_text x ;; Ok (Condition t o v).
Definition open_action (x : jsval) : res action := t <~ text_or "type" "move" x ;; v <~ value_text x ;; Ok (Action t v).

(** [loadFilters] has replaced what is not a list by an empty one. *)
Definition openEdit (name : string) (f : rule) : res draft :=
  conds <~ res_mapM open_condition (to_list (r_conditions f)) ;;
  acts <~ res_mapM open_action (to_list (r_actions f)) ;;
  Ok (Draft (r_id f) name (negb (match r_enabled f with JBool false => true | _ => false end)) (priority_or_100 (r_priority f))
        (match conds with [] => [emptyCondition] | _ => conds end) (match acts with [] => [emptyAction] | _ => acts end)).

(** *** Edits *)

Inductive edit :=
| SetName (t : string)
| SetEnabled (b : bool)
| SetPriority (t : string)
| SetType (i : nat) (t : string)
| SetOperator (i : nat) (o : string)
| SetValue (i : nat) (v : string)
| RemoveCondition (i : nat)
| AddCondition
| SetActionType (i : nat) (t : string)
| SetActionValue (i : nat) (v : string)
| RemoveAction (i : nat)
| AddAction.

Definition with_conditions (l : list condition) (d : draft) : draft := Draft (d_id d) (d_name d) (d_enabled d) (d_priority d) l (d_actions d).
Definition with_actions (l : list action) (d : draft) : draft := Draft (d_id d) (d_name d) (d_enabled d) (d_priority d) (d_conditions d) l.

(** [updateConditionRow(idx, patch)]: a new type brings its operator. *)
Definition updateConditionRow (i : nat) (f : condition -> condition) (d : draft) : draft := with_conditions (alter f i (d_conditions d)) d.
Definition updateActionRow (i : nat) (f : action -> action) (d : draft) : draft := with_actions (alter f i (d_actions d)) d.

(** [l.filter((_, i) => i !== idx)], and a fresh row when none is left. *)
Definition without_row {A} (fresh : A) (i : nat) (l : list A) : list A := match delete i l with [] => [fresh] | l => l end.

Definition apply_edit (e : edit) (d : draft) : draft :=
  match e with
  | SetName t => Draft (d_id d) t (d_enabled d) (d_priority d) (d_conditions d) (d_actions d)
  | SetEnabled b => Draft (d_id d) (d_name d) b (d_priority d) (d_conditions d) (d_actions d)
  | SetPriority t => Draft (d_id d) (d_name d) (d_enabled d) (default 0%Z (parse_int10 t)) (d_conditions d) (d_actions d)
  | SetType i t => updateConditionRow i (fun c => Condition t (defaultOperatorForType t) (c_value c)) d
  | SetOperator i o => updateConditionRow i (fun c => Condition (c_type c) o (c_value c)) d
  | SetValue i v => updateConditionRow i (fun c => Condition (c_type c) (c_operator c) v) d
  | RemoveCondition i => with_conditions (without_row emptyCondition i (d_conditions d)) d
  | AddCondition => with_conditions (d_conditions d ++ [emptyCondition]) d
  | SetActionType i t => updateActionRow i (fun a => Action t (if t =s? "move" then str_or (a_value a) "archive" else "")) d
  | SetActionValue i v => updateActionRow i (fun a => Action (a_type a) v) d
  | RemoveAction i => with_actions (without_row emptyAction i (d_actions d)) d
  | AddAction => with_actions (d_actions d ++ [emptyAction]) d
  end.

(** The edits the form offers: types and operators come from its lists. *)
Definition offered (e : edit) (d : draft) : Prop :=
  match e with
  | SetType _ t => t ∈ FILTER_CONDITION_TYPES
  | SetOperator i o => exists c, d_conditions d !! i = Some c /\ o ∈ opsForConditionType (c_type c)
  | SetActionType _ t => (t, true) ∈ FILTER_ACTION_TYPES
  | _ => True
  end.
Definition edited (d d' : draft) : Prop := exists e, offered e d /\ d' = apply_edit e d.

(** *** Saving *)

(** [/^-?\d+$/] and [/^[a-z0-9_-]+$/] *)
Definition number_text (s : string) : bool :=
  let body := match s with String c r => if Ascii.eqb c "-" then r else s | EmptyString => s end in
  negb (body =s? "") && all_chars is_digit body.
Definition folder_char (c : ascii) : bool := is_lower c || is_digit c || Ascii.eqb c "_" || Ascii.eqb c "-".
Definition folder_text (s : string) : bool := negb (s =s? "") && all_chars folder_char s.

Definition condition_error (c : condition) : option string :=
  let v := trim (c_value c) in
  if (c_type c =s? "attachment") && negb (str_mem (to_lower v) ["yes"; "no"; "1"; "0"; "true"; "false"])
  then Some "Attachment condition value: use yes or no"
  else if negb (c_type c =s? "attachment") && negb (c_type c =s? "size") && (v =s? "")
  then Some "Each condition needs a value (except size, which needs a number)"
  else if (c_type c =s? "size") && negb (number_text v) then Some "Size condition needs a numeric value"
  else None.
Definition action_error (a : action) : option string :=
  if a_type a =s? "move" then
    let folder := to_lower (trim (a_value a)) in
    if folder =s? "" then Some "Move action needs a folder name"
    else if negb (folder_text folder) then Some "Folder name: letters, numbers, dashes, underscores only"
    else None
  else None.
Fixpoint first_error {A} (check : A -> option string) (l : list A) : option string :=
  match l with [] => None | x :: l => match check x with Some m => Some m | None => first_error check l end end.

Definition is_supported (a : action) : bool := existsb (fun p => (p.1 =s? a_type a) && p.2) FILTER_ACTION_TYPES.

(** What is sent, or what is said. *)
Definition draft_error (d : draft) : option string :=
  if trim (d_name d) =s? "" then Some "Rule name is required"
  else match d_conditions d with
       | [] => Some "Add at least one condition"
       | conds =>
           match first_error condition_error conds with
           | Some m => Some m
           | None =>
               match List.filter is_supported (d_actions d) with
               | [] => Some "Add at least one supported action (move, mark read, or delete)"
               | acts => first_error action_error acts
               end
           end
       end.

Section Save.
(** [String] of a number beyond 2^53, where it is rounded. *)
Variable rounded : Z -> string.
Definition number_string (z : Z) : string := if (Z.abs z <? 2 ^ 53)%Z then Z_to_string z else rounded z.

Definition saved_value (c : condition) : string :=
  if c_type c =s? "size" then match parse_int10 (c_value c) with Some z => number_string z | None => "NaN" end else c_value c.
Definition saved_condition (c : condition) : jsval :=
  JObj [("type", JStr (c_type c)); ("operator", JStr (c_operator c)); ("value", JStr (saved_value c))].
Definition saved_action (a : action) : jsval := JObj [("type", JStr (a_type a)); ("value", JStr (a_value a))].

Definition filter_body (d : draft) : jsval :=
  JObj [("name", JStr (trim (d_name d))); ("enabled", JBool (d_enabled d)); ("priority", JNum (if (d_priority d =? 0)%Z then 100 else d_priority d));
        ("conditions", JArr (map saved_condition (d_conditions d)));
        ("actions", JArr (map saved_action (List.filter is_supported (d_actions d))))].
Definition saveEdit (d : draft) : string + jsval := match draft_error d with Some m => inl m | None => inr (filter_body d) end.
End Save.

(** [handleCreate] and [toggleEnabled]. *)
Definition created_body (newName : string) : option jsval :=
  if trim newName =s? "" then None
  else Some (JObj [("name", JStr (trim newName)); ("enabled", JBool true); ("priority", JNum 100);
                   ("conditions", JArr [JObj [("type", JStr "subject"); ("operator", JStr "contains"); ("value", JStr "")]]);
                   ("actions", JArr [JObj [("type", JStr "move"); ("value", JStr "archive")]])]).
Definition toggled_body (name : string) (f : rule) : jsval :=
  JObj [("name", JStr name); ("enabled", JBool (negb (truthy (r_enabled f)))); ("priority", JNum (priority_or_100 (r_priority f)));
        ("conditions", js_or (r_conditions f) (JArr [])); ("actions", js_or (r_actions f) (JArr []))].

(** The rule the API returns for a body it stored. *)
Definition stored (id created_at : string) (body : jsval) : rule :=
  Rule id (prop body "enabled") (match prop body "priority" with JNum z => Some z | _ => None end) (JStr created_at) (prop body "conditions") (prop body "actions").
End Editor.

(** ** Lemmas *)

(** Texts without U+0085, the one space of the server that the browser keeps. *)
Definition plain_text (s : string) : bool := all_chars (fun c => negb (code c =? 133)%N) s.

Lemma TrimSpace_trim s : plain_text s = true -> Ingest.TrimSpace s = trim s.
Proof.
  intros Hp. assert (forall s, plain_text s = true -> Ingest.trim_right s = trim_end s) as Hr.
  { clear. induction s as [|c s IH]; [done|]. unfold plain_text. cbn [all_chars]. intros [Hc Hs]%andb_true_iff.
    cbn [Ingest.trim_right trim_end]. rewrite IH by done. unfold Ingest.is_space. apply negb_true_iff in Hc. by rewrite Hc, orb_false_r. }
  unfold Ingest.TrimSpace, trim. assert (Ingest.trim_left s = trim_start s /\ plain_text (trim_start s) = true) as [-> Hs]; [|by apply Hr].
  induction s as [|c s IH]; [done|]. pose proof Hp as Hp'. unfold plain_text in Hp'. cbn [all_chars] in Hp'.
  apply andb_true_iff in Hp' as [Hc Hs]. cbn [Ingest.trim_left trim_start]. unfold Ingest.is_space.
  apply negb_true_iff in Hc. rewrite Hc, orb_false_r. destruct (is_ws c); [by apply IH | done].
Qed.
Lemma fold_norm s : plain_text s = true -> Ingest.fold s = norm (JStr s).
Proof. intros Hp. unfold Ingest.fold. by rewrite TrimSpace_trim. Qed.

Lemma matchStringFold_agrees hay needle op :
  plain_text hay = true -> plain_text needle = true -> Ingest.matchStringFold hay needle op = matchString hay needle op.
Proof. intros Hh Hn. unfold Ingest.matchStringFold, matchString. by rewrite !fold_norm. Qed.

Lemma trim_no_ws s : all_chars (fun c => negb (is_ws c)) s = true -> trim s = s.
Proof.
  intros Hs. unfold trim. assert (trim_start s = s) as ->.
  { apply trim_start_nows. destruct s as [|c s]; [done|]. cbn in Hs. by apply andb_true_iff in Hs as [Hc%negb_true_iff _]. }
  induction s as [|c s IH]; [done|]. cbn [all_chars] in Hs. apply andb_true_iff in Hs as [Hc%negb_true_iff Hs].
  cbn [trim_end]. rewrite IH by done. rewrite Hc. by destruct s.
Qed.

(** The digits of a number. *)
Lemma Z_digits z : exists ds, ds <> "" /\ all_chars is_digit ds = true /\ digits_val 0 ds = Z.abs z /\
  Z_to_string z = (if (z <? 0)%Z then "-" else "") +:+ ds.
Proof.
  unfold Z_to_string. destruct z as [|p|p]; cbn [Z.to_int NilZero.string_of_int Z.ltb Z.compare Z.abs]; [by exists "0"| |];
    destruct (pos_digits p) as (d & ds & E & _ & Hv); exists (String d ds);
    (split_and!; [done | by rewrite <- E, uint_all_digits | exact Hv |]);
    rewrite <- E; unfold NilZero.string_of_uint; destruct (Pos.to_uint p) eqn:Eu; try done; by apply DecimalPos.Unsigned.to_uint_nonnil in Eu.
Qed.
Lemma digit_facts c : is_digit c = true -> is_ws c = false /\ Ascii.eqb c "-" = false /\ Ascii.eqb c "+" = false /\ (code c =? 45)%N = false /\
  (code c =? 43)%N = false /\ (code c =? 133)%N = false.
Proof. revert c. by_char. Qed.

Lemma parse_int10_string z : parse_int10 (Z_to_string z) = Some z.
Proof.
  destruct (Z_digits z) as (ds & Hne & Hd & Hv & ->). destruct ds as [|d ds]; [done|].
  assert (span_chars is_digit (String d ds) = (String d ds, "")) as Hsp.
  { rewrite <- (sapp_nil_r (String d ds)) at 1. by apply span_digits. }
  pose proof Hd as Hd'. cbn [all_chars] in Hd'. apply andb_true_iff in Hd' as [Hd' _]. apply digit_facts in Hd' as (H1 & _ & _ & H2 & H3 & _).
  unfold parse_int10. destruct (z <? 0)%Z eqn:Hz; cbn [String.append trim_start].
  - change (is_ws "-") with false. cbn iota. change ((code "-" =? 45)%N) with true. cbn iota. rewrite Hsp. cbn [fst]. rewrite Hv. f_equal. lia.
  - rewrite H1. rewrite H2, H3, Hsp. cbn [fst]. rewrite Hv. f_equal. lia.
Qed.
Lemma ParseInt_string z : (- 2 ^ 63 <= z < 2 ^ 63)%Z -> Ingest.ParseInt (Z_to_string z) = Some z.
Proof.
  intros Hb. destruct (Z_digits z) as (ds & Hne & Hd & Hv & ->). unfold Ingest.ParseInt.
  destruct ds as [|d ds]; [done|]. pose proof Hd as Hd'. cbn [all_chars] in Hd'. apply andb_true_iff in Hd' as [Hd' _].
  apply digit_facts in Hd' as (_ & H1 & H2 & _).
  destruct (z <? 0)%Z eqn:Hz; cbn [String.append].
  - change (Ascii.eqb "-" "-") with true. cbn iota. rewrite Hd, Hv. cbn [negb orb].
    replace (-1 * Z.abs z)%Z with z by lia. by rewrite (proj2 (Z.leb_le _ _)), (proj2 (Z.ltb_lt _ _)) by lia.
  - rewrite H1, H2. cbn iota. rewrite Hd, Hv. cbn [negb orb]. replace (1 * Z.abs z)%Z with z by lia. by rewrite (proj2 (Z.leb_le _ _)), (proj2 (Z.ltb_lt _ _)) by lia.
Qed.

(** ** What the editor keeps *)

Module EditorFacts.
Import Editor.

Definition row_ok (c : condition) : Prop := c_type c ∈ FILTER_CONDITION_TYPES /\ c_operator c ∈ opsForConditionType (c_type c).
Definition act_ok (a : action) : Prop := (a_type a, true) ∈ FILTER_ACTION_TYPES.
Definition well_formed (d : draft) : Prop :=
  d_conditions d <> [] /\ Forall row_ok (d_conditions d) /\ d_actions d <> [] /\ Forall act_ok (d_actions d).

Lemma default_offered t : defaultOperatorForType t ∈ opsForConditionType t.
Proof.
  unfold defaultOperatorForType, opsForConditionType. destruct (t =s? "size"); [|destruct (t =s? "attachment")]; by left.
Qed.
Lemma empty_row_ok : row_ok emptyCondition.
Proof. split; [by right; left | by left]. Qed.
Lemma empty_act_ok : act_ok emptyAction.
Proof. by left. Qed.

Lemma Forall_alter {A} (P : A -> Prop) (f : A -> A) i l : Forall P l -> (forall x, l !! i = Some x -> P x -> P (f x)) -> Forall P (alter f i l).
Proof.
  intros Hl Hf. apply Forall_lookup. intros j x. rewrite list_lookup_alter. case_decide as Hj; [subst j|].
  - intros (y & Hy & ->)%fmap_Some. apply Hf; [done|]. by eapply Forall_lookup_1.
  - by apply Forall_lookup_1.
Qed.
Lemma alter_nonempty {A} (f : A -> A) i l : l <> [] -> alter f i l <> [].
Proof. intros Hl E. apply Hl, length_zero_iff_nil. rewrite <- (length_alter f l i), E. done. Qed.
Lemma without_row_nonempty {A} (fresh : A) i l : without_row fresh i l <> [].
Proof. unfold without_row. by destruct (delete i l). Qed.
Lemma without_row_Forall {A} (P : A -> Prop) fresh i l : P fresh -> Forall P l -> Forall P (without_row fresh i l).
Proof.
  intros Hf Hl. unfold without_row. destruct (delete i l) eqn:E; [by constructor|]. rewrite <- E. by apply Forall_delete.
Qed.

Lemma edit_well_formed e d : offered e d -> well_formed d -> well_formed (apply_edit e d).
Proof.
  intros Ho (H1 & H2 & H3 & H4). unfold well_formed. destruct e; cbn [apply_edit updateConditionRow updateActionRow with_conditions with_actions d_conditions d_actions];
    (split_and!; try done; try (by apply alter_nonempty); try (by apply without_row_nonempty);
     try (by apply without_row_Forall; [apply empty_row_ok || apply empty_act_ok |]);
     try (by intros [? ?]%app_nil);
     try (apply Forall_app; split; [done|]; constructor; [apply empty_row_ok || apply empty_act_ok | constructor])).
  - apply Forall_alter; [done|]. intros c _ _. split; [exact Ho | apply default_offered].
  - apply Forall_alter; [done|]. destruct Ho as (c & Hc & Ho). intros c' Hc' [Ht _]. rewrite Hc in Hc'. injection Hc' as <-. by split.
  - by apply Forall_alter.
  - apply Forall_alter; [done|]. intros a _ _. exact Ho.
  - by apply Forall_alter.
Qed.

(** C18: whatever is done in the form, the rows of the draft stay rows the engine knows:
    there are conditions and actions, every type and operator is one the form offers,
    and the operator is one of its type. *)
Theorem editor_keeps_rows d d' : well_formed d -> rtc edited d d' -> well_formed d'.
Proof.
  intros Hw Hr. induction Hr as [|d1 d2 d3 (e & Ho & ->) _ IH]; [done|]. apply IH. by apply edit_well_formed.
Qed.

(** *** Saving *)

Lemma first_error_None {A} (check : A -> option string) l : first_error check l = None <-> Forall (fun x => check x = None) l.
Proof.
  induction l as [|x l IH]; cbn [first_error]; [by split|]. rewrite Forall_cons, <- IH. destruct (check x); [split; [done | by intros [? _]] | tauto].
Qed.

Section Saved.
Variable rounded : Z -> string.
Local Abbreviation saveEdit := (Editor.saveEdit rounded).
Local Abbreviation filter_body := (Editor.filter_body rounded).
Local Abbreviation saved_value := (Editor.saved_value rounded).
Local Abbreviation saved_condition := (Editor.saved_condition rounded).

Lemma saveEdit_inr d body :
  saveEdit d = inr body <->
  body = filter_body d /\ trim (d_name d) <> "" /\ d_conditions d <> [] /\ Forall (fun c => condition_error c = None) (d_conditions d) /\
    List.filter is_supported (d_actions d) <> [] /\ Forall (fun a => action_error a = None) (List.filter is_supported (d_actions d)).
Proof.
  unfold Editor.saveEdit, draft_error. rewrite <- !first_error_None. destruct (String.eqb_spec (trim (d_name d)) "") as [->|Hn].
  { split; [done | by intros (_ & ? & _)]. }
  destruct (d_conditions d) as [|c l] eqn:Ec. { split; [done | by intros (_ & _ & ? & _)]. }
  destruct (first_error condition_error (c :: l)). { split; [done | by intros (_ & _ & _ & ? & _)]. }
  destruct (List.filter is_supported (d_actions d)) as [|a acts]. { split; [done | by intros (_ & _ & _ & _ & ? & _)]. }
  destruct (first_error action_error (a :: acts)). { split; [done | by intros (_ & _ & _ & _ & _ & ?)]. }
  split; [by intros [= <-] | by intros (-> & _)].
Qed.

Lemma ok_supported l : Forall act_ok l -> List.filter is_supported l = l.
Proof.
  intros Hl. apply filter_id. eapply Forall_impl; [exact Hl|]. intros a Ha. unfold act_ok, FILTER_ACTION_TYPES in Ha.
  rewrite !elem_of_cons, elem_of_nil in Ha. unfold is_supported. destruct a as [t v]. cbn [a_type] in *.
  destruct Ha as [[= ->]|[[= ->]|[[= ->]|[?|[?|[?|?]]]]]]; done.
Qed.

Lemma type_nonempty c : row_ok c -> c_type c <> "" /\ c_operator c <> "".
Proof.
  intros [Ht Ho]. unfold FILTER_CONDITION_TYPES in Ht. destruct c as [t o v]. cbn [c_type c_operator] in *. split.
  - intros ->. by repeat (apply elem_of_cons in Ht as [?|Ht]; [done|]); apply elem_of_nil in Ht.
  - intros ->. unfold opsForConditionType, FILTER_OPS_SIZE, FILTER_OPS_STRING in Ho.
    destruct (t =s? "size"); [|destruct (t =s? "attachment")]; repeat (apply elem_of_cons in Ho as [?|Ho]; [done|]); by apply elem_of_nil in Ho.
Qed.

(** Sizes that a number holds exactly. *)
Definition exact_size (c : condition) : Prop := c_type c = "size" -> exists z, parse_int10 (c_value c) = Some z /\ (Z.abs z < 2 ^ 53)%Z.
Definition canonical (c : condition) : condition := Condition (c_type c) (c_operator c) (saved_value c).

Lemma saved_size c z : c_type c = "size" -> parse_int10 (c_value c) = Some z -> (Z.abs z < 2 ^ 53)%Z -> saved_value c = Z_to_string z.
Proof. intros Ht Hz Hb. unfold Editor.saved_value, number_string. rewrite Ht, String.eqb_refl, Hz. by rewrite (proj2 (Z.ltb_lt _ _) Hb). Qed.
Lemma saved_other c : c_type c <> "size" -> saved_value c = c_value c.
Proof. intros Ht%String.eqb_neq. unfold Editor.saved_value. by rewrite Ht. Qed.

Lemma number_text_string z : number_text (trim (Z_to_string z)) = true.
Proof.
  destruct (Z_digits z) as (ds & Hne & Hd & _ & ->).
  assert (all_chars (fun c => negb (is_ws c)) ds = true) as Hw.
  { eapply all_chars_mono; [|exact Hd]. intros c Hc. by apply digit_facts in Hc as [-> _]. }
  rewrite trim_no_ws by (by destruct (z <? 0)%Z). unfold number_text. destruct (z <? 0)%Z; cbn [String.append].
  - change (Ascii.eqb "-" "-") with true. cbn iota. apply String.eqb_neq in Hne. by rewrite Hne, Hd.
  - destruct ds as [|d ds]; [done|]. pose proof Hd as Hd'. cbn [all_chars] in Hd'. apply andb_true_iff in Hd' as [Hd' _].
    apply digit_facts in Hd' as (_ & -> & _). by rewrite Hd.
Qed.

Lemma number_chars z : all_chars (fun c => negb (is_ws c) && negb (code c =? 133)%N) (Z_to_string z) = true.
Proof.
  destruct (Z_digits z) as (ds & _ & Hd & _ & ->).
  assert (all_chars (fun c => negb (is_ws c) && negb (code c =? 133)%N) ds = true) as Hw.
  { eapply all_chars_mono; [|exact Hd]. intros c Hc. by apply digit_facts in Hc as (-> & _ & _ & _ & _ & ->). }
  by destruct (z <? 0)%Z.
Qed.
Lemma number_trim z : trim (Z_to_string z) = Z_to_string z.
Proof. apply trim_no_ws. refine (all_chars_mono _ _ _ _ (number_chars z)). intros c. by destruct (is_ws c). Qed.
Lemma number_plain z : plain_text (Z_to_string z) = true.
Proof. refine (all_chars_mono _ _ _ _ (number_chars z)). intros c. by destruct (is_ws c). Qed.

Lemma canonical_value c : exact_size c -> saved_value (canonical c) = saved_value c.
Proof.
  intros He. destruct (decide (c_type c = "size")) as [Ht|Ht].
  - destruct (He Ht) as (z & Hz & Hb). rewrite (saved_size c z) by done. apply saved_size; [done | | done].
    unfold canonical. cbn [c_value]. rewrite (saved_size c z) by done. apply parse_int10_string.
  - by rewrite saved_other.
Qed.
Lemma canonical_error c : exact_size c -> condition_error c = None -> condition_error (canonical c) = None.
Proof.
  intros He. destruct (decide (c_type c = "size")) as [Ht|Ht].
  - destruct (He Ht) as (z & Hz & Hb). intros _. unfold condition_error, canonical. cbn [c_type c_value].
    rewrite Ht, (saved_size c z) by done. by rewrite number_text_string.
  - unfold condition_error, canonical. cbn [c_type c_value]. by rewrite saved_other.
Qed.

Lemma open_saved c : row_ok c -> open_condition (saved_condition c) = Ok (canonical c).
Proof.
  intros [Ht Ho]%type_nonempty. apply String.eqb_neq in Ht, Ho.
  transitivity (Ok (Condition (js_String (js_or (JStr (c_type c)) (JStr "subject"))) (js_String (js_or (JStr (c_operator c)) (JStr "contains"))) (saved_value c)));
    [reflexivity|]. unfold js_or. cbn [truthy]. by rewrite Ht, Ho.
Qed.
Lemma open_saved_action a : act_ok a -> open_action (saved_action a) = Ok a.
Proof.
  intros Ha. assert ((a_type a =s? "") = false) as Ht.
  { apply String.eqb_neq. intros E. unfold act_ok, FILTER_ACTION_TYPES in Ha. rewrite E in Ha.
    repeat (apply elem_of_cons in Ha as [?|Ha]; [done|]). by apply elem_of_nil in Ha. }
  transitivity (Ok (Action (js_String (js_or (JStr (a_type a)) (JStr "move"))) (a_value a))); [reflexivity|].
  unfold js_or. cbn [truthy]. rewrite Ht. by destruct a.
Qed.

Lemma res_mapM_map {A B C} (f : B -> res C) (g : A -> B) (h : A -> C) l :
  Forall (fun x => f (g x) = Ok (h x)) l -> res_mapM f (map g l) = Ok (map h l).
Proof. induction 1 as [|x l Hx _ IH]; [done|]. cbn [map res_mapM]. by rewrite Hx, IH. Qed.

(** a rule that was saved opens as it was saved: reading the stored rule back into the
    form gives the rows of the draft, numbers in their canonical spelling, the form is one
    the engine knows, and saving it again sends the same rule. *)
Theorem saved_rule_reopens d body created_at :
  well_formed d -> saveEdit d = inr body -> Forall exact_size (d_conditions d) ->
  exists d', openEdit (trim (d_name d)) (stored (d_id d) created_at body) = Ok d' /\
    d_conditions d' = map canonical (d_conditions d) /\ d_actions d' = d_actions d /\ d_enabled d' = d_enabled d /\
    well_formed d' /\ saveEdit d' = inr body.
Proof.
  intros (H1 & H2 & H3 & H4) (-> & Hn & _ & Hc & Ha & Hae)%saveEdit_inr Hs.
  rewrite ok_supported in Ha, Hae by done. unfold openEdit.
  change (to_list (r_conditions (stored _ _ _))) with (map saved_condition (d_conditions d)).
  change (to_list (r_actions (stored _ _ _))) with (map saved_action (List.filter is_supported (d_actions d))). rewrite (ok_supported _ H4).
  rewrite (res_mapM_map _ _ canonical) by (eapply Forall_impl; [exact H2 | apply open_saved]). cbn [res_bind].
  rewrite (res_mapM_map _ _ id) by (eapply Forall_impl; [exact H4 | apply open_saved_action]). cbn [res_bind]. rewrite map_id.
  eexists. split; [reflexivity|]. cbn [d_conditions d_actions d_enabled].
  assert (match map canonical (d_conditions d) with [] => [emptyCondition] | _ => map canonical (d_conditions d) end = map canonical (d_conditions d)) as ->
    by (by destruct (d_conditions d)).
  assert (match d_actions d with [] => [emptyAction] | _ => d_actions d end = d_actions d) as -> by (by destruct (d_actions d)).
  assert (map canonical (d_conditions d) <> []) as H1' by (by destruct (d_conditions d)).
  split_and!; [done | done | | |].
  - change (r_enabled (stored (d_id d) created_at (filter_body d))) with (JBool (d_enabled d)). by destruct (d_enabled d).
  - split_and!; [done | | done | done]. apply Forall_map. eapply Forall_impl; [exact H2|]. done.
  - apply saveEdit_inr. cbn [d_name d_conditions d_actions]. rewrite trim_idemp, (ok_supported _ H4). split_and!; try done.
    + change (r_priority (stored (d_id d) created_at (filter_body d))) with (Some (if (d_priority d =? 0)%Z then 100%Z else d_priority d)).
      change (r_enabled (stored (d_id d) created_at (filter_body d))) with (JBool (d_enabled d)).
      unfold Editor.filter_body. cbn [d_name d_conditions d_actions d_enabled d_priority]. rewrite trim_idemp, map_map, (ok_supported _ H4).
      assert (map (fun x => saved_condition (canonical x)) (d_conditions d) = map saved_condition (d_conditions d)) as ->.
      { apply map_ext_Forall. eapply Forall_impl; [exact Hs|]. intros c Hc'. unfold Editor.saved_condition. by rewrite canonical_value. }
      unfold priority_or_100. destruct (d_enabled d), (d_priority d =? 0)%Z eqn:Ep; cbn; rewrite ?Ep; cbn; rewrite ?Ep; done.
    + apply Forall_map. rewrite Forall_forall in Hc, Hs |- *. intros c Hin. apply canonical_error; auto.
Qed.

(** *** What a saved rule does *)

Definition call_of (a : action) : mcall :=
  if a_type a =s? "move" then MoveMessage (norm (JStr (a_value a)))
  else if a_type a =s? "mark_read" then SetMessageRead else DeleteMessage.

Lemma act_cases a : act_ok a -> a_type a = "move" \/ a_type a = "mark_read" \/ a_type a = "delete".
Proof.
  unfold act_ok, FILTER_ACTION_TYPES. rewrite !elem_of_cons, elem_of_nil. intros [[= ->]|[[= ->]|[[= ->]|[?|[?|[?|?]]]]]]; auto; done.
Qed.
Lemma act_type_kept a : act_ok a -> action_type (prop (saved_action a) "type") = a_type a /\ flag_of SUPPORTED_ACTION_TYPES (a_type a) = true.
Proof. intros Ha. destruct a as [t v]. apply act_cases in Ha. cbn [a_type] in *. by destruct Ha as [->|[->| ->]]. Qed.
Lemma supported_kept l : Forall act_ok l -> filterSupported_go (map saved_action l) = Ok (map saved_action l).
Proof.
  induction 1 as [|a l Ha _ IH]; [done|]. apply act_type_kept in Ha as [Ht Hs]. cbn [map filterSupported_go].
  change (getp (saved_action a) "type") with (Ok (prop (saved_action a) "type")). cbn [res_bind]. by rewrite IH, Ht, Hs.
Qed.
Lemma run_saved l : Forall act_ok l -> Forall (fun a => action_error a = None) l -> run_acts (map saved_action l) = (map call_of l, []).
Proof.
  induction 1 as [|a l Ha _ IH]; [done|]. intros [He Hl]%Forall_cons. cbn [map run_acts]. rewrite (IH Hl).
  pose proof (act_type_kept a Ha) as [-> _]. change (prop (saved_action a) "value") with (JStr (a_value a)). cbn [is_nullish js_String].
  apply act_cases in Ha. unfold call_of. unfold action_error in He.
  destruct Ha as [Ht|[Ht|Ht]]; rewrite Ht in *; try done.
  change ("move" =s? "move") with true in *. cbn iota in *. cbv zeta in He. rewrite norm_JStr. by destruct (to_lower (trim (a_value a)) =s? "").
Qed.

(** a rule that was saved does what its draft says: on a message it matches the inbox
    pass makes exactly one call for each action of the draft, in the order of the form, and
    skips none; the folders are names without spaces, capitals or slashes. *)
Theorem saved_actions_all_run d body created_at messageId :
  well_formed d -> saveEdit d = inr body -> messageId <> "" ->
  applyActions true messageId (r_actions (stored (d_id d) created_at body)) = Ok (RunCalls (map call_of (d_actions d)) []) /\
  forall folder, MoveMessage folder ∈ map call_of (d_actions d) -> folder_text folder = true.
Proof.
  intros (_ & _ & H3 & H4) (-> & _ & _ & _ & _ & Hae)%saveEdit_inr Hm%String.eqb_neq. rewrite ok_supported in Hae by done. split.
  - change (r_actions (stored _ _ _)) with (JArr (map saved_action (List.filter is_supported (d_actions d)))). rewrite ok_supported by done.
    unfold applyActions, filterSupportedActions. rewrite Hm. cbn [negb orb to_list]. rewrite supported_kept by done. cbn [res_bind].
    rewrite run_saved by done. by destruct (d_actions d).
  - intros folder ([t v] & Hc & Hin)%list_elem_of_fmap. rewrite Forall_forall in Hae. specialize (Hae _ Hin).
    unfold call_of in Hc. unfold action_error in Hae. cbn [a_type a_value] in *. destruct (t =s? "move"); [|by destruct (t =s? "mark_read")].
    injection Hc as ->. rewrite norm_JStr. cbv zeta in Hae. destruct (_ =s? ""); [done|]. by destruct (folder_text _).
Qed.

(** *** Browser and server *)

(** The same message as the browser and the server see it.  The browser knows no size:
    the inbox pass builds its contexts without [sizeBytes]. *)
Record same_mail (ctx : context) (m : Ingest.mail) : Prop := {
  same_subject : c_subject ctx = Ingest.subject m;
  same_to : forall a, a ∈ c_to ctx <-> a = Ingest.recipient m /\ a <> "" \/ a ∈ Ingest.toAddrs m;
  same_from : c_from ctx ∈ Ingest.senders m;
  no_size : c_sizeBytes ctx = None;
  same_attach : c_hasAttachments ctx = Ingest.hasAttach m;
  plain_mail : Forall (fun t => plain_text t = true) (Ingest.subject m :: Ingest.recipient m :: Ingest.senders m ++ Ingest.toAddrs m);
}.

Definition ingest_cond (c : condition) : Ingest.cond := Ingest.Cond (c_type c) (c_operator c) (saved_value c).

Lemma op_kept t o : o ∈ opsForConditionType t -> Ingest.fold o = o /\ to_lower (trim (js_String (js_or (JStr o) (JStr "contains")))) = o /\ (o =s? "") = false.
Proof.
  unfold opsForConditionType, FILTER_OPS_SIZE, FILTER_OPS_STRING.
  destruct (t =s? "size"); [|destruct (t =s? "attachment")]; rewrite ?elem_of_cons, elem_of_nil;
    intros Ho; repeat destruct Ho as [->|Ho]; try done.
Qed.

Lemma existsb_set {A} (f : A -> bool) l l' : (forall a, a ∈ l <-> a ∈ l') -> existsb f l = existsb f l'.
Proof.
  intros Hs. apply eq_true_iff_eq. rewrite !existsb_exists. setoid_rewrite <- list_elem_of_In. by setoid_rewrite Hs.
Qed.
Lemma existsb_ext_Forall {A} (f g : A -> bool) l : Forall (fun a => f a = g a) l -> existsb f l = existsb g l.
Proof. induction 1 as [|a l Ha _ IH]; [done|]. cbn [existsb]. by rewrite Ha, IH. Qed.

Lemma plain_trim s : plain_text s = true -> plain_text (trim s) = true.
Proof.
  intros Hp. unfold trim. assert (plain_text (trim_start s) = true) as Hs.
  { destruct (trim_start_factor s) as (a & Ha & _). rewrite Ha in Hp. unfold plain_text in *. rewrite all_chars_app in Hp. apply andb_true_iff in Hp as [_ Hp]. exact Hp. }
  revert Hs. generalize (trim_start s) as t. clear. induction t as [|c t IH]; [done|]. unfold plain_text in *. cbn [all_chars trim_end].
  intros [Hc Ht]%andb_true_iff. specialize (IH Ht). destruct (trim_end t); [destruct (is_ws c); [done|] |]; cbn [all_chars]; by rewrite Hc.
Qed.

Lemma server_string hay v op : plain_text hay = true -> plain_text v = true -> Ingest.matchStringFold hay (Ingest.TrimSpace v) op = matchString hay v op.
Proof.
  intros Hh Hv. rewrite TrimSpace_trim by done. rewrite matchStringFold_agrees by (done || by apply plain_trim).
  unfold matchString. by autorewrite with js_rew.
Qed.

(** The browser's reading of a saved row, by its type. *)
Lemma browser_reads t o v ctx (row := JObj [("type", JStr t); ("operator", JStr o); ("value", JStr v)]) :
  o ∈ opsForConditionType t ->
  conditionMatches row ctx =
    if t =s? "sender" then matchString (c_from ctx) v o
    else if t =s? "subject" then matchString (c_subject ctx) v o
    else if t =s? "recipient" then existsb (fun a => matchString a v o) (c_to ctx)
    else conditionMatches row ctx.
Proof.
  intros Ho. pose proof (op_kept _ _ Ho) as (_ & Hop & _). set (o' := to_lower (trim (js_String (js_or (JStr o) (JStr "contains"))))) in Hop.
  destruct (String.eqb_spec t "sender") as [->|_]; [transitivity (matchString (c_from ctx) v o'); [reflexivity | by rewrite Hop]|].
  destruct (String.eqb_spec t "subject") as [->|_]; [transitivity (matchString (c_subject ctx) v o'); [reflexivity | by rewrite Hop]|].
  destruct (String.eqb_spec t "recipient") as [->|_]; [|done].
  transitivity (existsb (fun a => matchString a v o') (c_to ctx)); [reflexivity | by rewrite Hop].
Qed.

Lemma size_never_matches c ctx : c_type c = "size" -> c_sizeBytes ctx = None -> conditionMatches (saved_condition c) ctx = false.
Proof. intros Ht Hn. destruct c as [t o v]. cbn [c_type] in Ht. subst t. unfold conditionMatches. cbn. by rewrite Hn. Qed.

Lemma condition_agrees c ctx m :
  same_mail ctx m -> row_ok c -> plain_text (c_value c) = true -> c_type c <> "body" ->
  (conditionMatches (saved_condition c) ctx = true -> Ingest.ingestConditionMatches (ingest_cond c) m = true) /\
  (c_type c <> "sender" -> c_type c <> "size" -> conditionMatches (saved_condition c) ctx = Ingest.ingestConditionMatches (ingest_cond c) m).
Proof.
  intros [Hsub Hto Hfrom Hsize Hatt Hplain] [Ht Ho] Hpv Hb. apply Forall_cons in Hplain as [Hps Hplain].
  apply Forall_cons in Hplain as [Hpr [Hpf Hpt]%Forall_app]. pose proof (op_kept _ _ Ho) as (Hf & Hop & Hoe).
  unfold Editor.saved_condition, ingest_cond. destruct c as [t o v]. cbn [c_type c_operator c_value] in *.
  unfold FILTER_CONDITION_TYPES in Ht. rewrite !elem_of_cons, elem_of_nil in Ht.
  unfold Ingest.ingestConditionMatches. cbn [Ingest.typ Ingest.operator Ingest.value]. rewrite Hf, Hoe.
  destruct Ht as [->|[->|[->|[->|[->|[->|[]]]]]]]; try done.
  - rewrite browser_reads by done. rewrite (saved_other (Condition "sender" o v)) by done. cbn [c_value].
    split; [|done]. intros Hm. change (Ingest.fold "sender" =s? "sender") with true. change ("sender" =s? "sender") with true in Hm. cbn iota in *.
    apply existsb_exists. exists (c_from ctx). split; [by apply list_elem_of_In|]. rewrite server_string; [done | | done].
    rewrite Forall_forall in Hpf. by apply Hpf.
  - rewrite browser_reads by done. rewrite (saved_other (Condition "subject" o v)) by done. cbn [c_value].
    change (Ingest.matchStringFold (Ingest.subject m) (Ingest.TrimSpace v) o) with (Ingest.matchStringFold (Ingest.subject m) (Ingest.TrimSpace v) o).
    assert (matchString (c_subject ctx) v o = Ingest.matchStringFold (Ingest.subject m) (Ingest.TrimSpace v) o) as E by (by rewrite server_string, Hsub).
    split; [|intros _ _]; [intros Hm; rewrite <- E; exact Hm | exact E].
  - rewrite browser_reads by done. rewrite (saved_other (Condition "recipient" o v)) by done. cbn [c_value].
    assert (existsb (fun a => matchString a v o) (c_to ctx) =
      negb (Ingest.recipient m =s? "") && Ingest.matchStringFold (Ingest.recipient m) (Ingest.TrimSpace v) o ||
      existsb (fun a => Ingest.matchStringFold a (Ingest.TrimSpace v) o) (Ingest.toAddrs m)) as E; [|split; [|intros _ _]; [intros Hm; rewrite <- E; exact Hm | exact E]].
    rewrite (existsb_ext_Forall _ (fun a => matchString a v o) (Ingest.toAddrs m)) by
      (eapply Forall_impl; [exact Hpt|]; intros a Ha; by apply server_string). rewrite server_string by done.
    rewrite (existsb_set _ _ ((if Ingest.recipient m =s? "" then [] else [Ingest.recipient m]) ++ Ingest.toAddrs m)).
    2:{ intros a. rewrite Hto, elem_of_app. destruct (String.eqb_spec (Ingest.recipient m) "") as [Hr|Hr].
        - rewrite elem_of_nil. split; [intros [[-> ?]|?]; [done | by right] | intros [[]|?]; by right].
        - rewrite list_elem_of_singleton. split; [intros [[-> ?]|?]; [by left | by right] | intros [->|?]; [by left | by right]]. }
    rewrite existsb_app. by destruct (Ingest.recipient m =s? ""); cbn [existsb negb andb]; rewrite ?orb_false_r.
  - rewrite (saved_other (Condition "attachment" o v)) by done. cbn [c_value].
    assert (conditionMatches (JObj [("type", JStr "attachment"); ("operator", JStr o); ("value", JStr v)]) ctx =
      Ingest.ingestAttachmentMatches (Ingest.TrimSpace v) (Ingest.hasAttach m)) as E; [|split; [|intros _ _]; [intros Hm; rewrite <- E; exact Hm | exact E]].
    unfold Ingest.ingestAttachmentMatches. rewrite TrimSpace_trim, fold_norm, norm_trim, <- Hatt by (done || by apply plain_trim). reflexivity.
  - split; [|done]. intros Hm. by rewrite (size_never_matches (Condition "size" o v)) in Hm.
Qed.

(** C17: browser and server about a saved rule without body conditions, on a message both
    see alike (in the context the inbox pass builds, which has no size): a rule the browser
    finds to match is one the server applies at delivery; without sender conditions (for
    which the server also tries the envelope and the bare addresses) and without size
    conditions both come to the same answer; and a rule with a size condition, which the
    server does evaluate, the browser never finds to match.  The texts compared hold no
    U+0085, which only the server trims. *)
Theorem browser_and_server_agree d body created_at msg bodyText m :
  let ctx := buildContext msg bodyText None in
  well_formed d -> saveEdit d = inr body -> Forall (fun c => plain_text (c_value c) = true) (d_conditions d) ->
  Forall (fun c => c_type c <> "body") (d_conditions d) -> same_mail ctx m ->
  let r := stored (d_id d) created_at body in
  let conds := map Ingest.decode (to_list (r_conditions r)) in
  (ruleMatches r ctx = true -> Ingest.ingestRuleConditionsMatch conds m = true) /\
  (Forall (fun c => c_type c <> "sender" /\ c_type c <> "size") (d_conditions d) ->
   ruleMatches r ctx = Ingest.ingestRuleConditionsMatch conds m) /\
  (Exists (fun c => c_type c = "size") (d_conditions d) -> ruleMatches r ctx = false).
Proof.
  intros ctx (H1 & H2 & _) (-> & _)%saveEdit_inr Hv Hb Hm r conds.
  assert (to_list (r_conditions r) = map saved_condition (d_conditions d)) as Hr by done.
  assert (conds = map ingest_cond (d_conditions d)) as -> by (unfold conds; rewrite Hr, map_map; done).
  assert (Forall (fun c => (conditionMatches (saved_condition c) ctx = true -> Ingest.ingestConditionMatches (ingest_cond c) m = true) /\
     (c_type c <> "sender" -> c_type c <> "size" -> conditionMatches (saved_condition c) ctx = Ingest.ingestConditionMatches (ingest_cond c) m)) (d_conditions d)) as Hall.
  { rewrite !Forall_forall in *. intros c Hin. apply condition_agrees; auto. }
  assert (forall c, c_type c = "size" -> conditionMatches (saved_condition c) ctx = false) as Hsz.
  { intros c Hc. by apply size_never_matches. }
  unfold ruleMatches, Ingest.ingestRuleConditionsMatch. rewrite Hr. destruct (d_conditions d) as [|c0 l]; [done|].
  revert Hall. generalize (c0 :: l) as cs. clear - Hsz. intros cs Hall.
  assert (forall A (f : A -> bool) (g : condition -> A) l, forallb f (map g l) = forallb (fun c => f (g c)) l) as Hmap.
  { intros A f g l. induction l as [|c' l IH]; [done|]. cbn [map forallb]. by rewrite IH. }
  destruct cs as [|c cs]; [split_and!; try done; by intros ?%Exists_nil|]. cbn [map].
  change (saved_condition c :: map saved_condition cs) with (map saved_condition (c :: cs)).
  change (ingest_cond c :: map ingest_cond cs) with (map ingest_cond (c :: cs)). rewrite !Hmap.
  revert Hall. generalize (c :: cs) as l. clear - Hsz. intros l Hall. rewrite Forall_forall in Hall. split_and!.
  - rewrite !forallb_forall. intros Hf x Hx. apply Hall; [by apply list_elem_of_In | by apply Hf].
  - intros Hs. rewrite Forall_forall in Hs. apply eq_true_iff_eq. rewrite !forallb_forall.
    assert (forall x, In x l -> conditionMatches (saved_condition x) ctx = Ingest.ingestConditionMatches (ingest_cond x) m) as He.
    { intros x Hx%list_elem_of_In. destruct (Hs x Hx). by apply (Hall x Hx). }
    split; intros Hf x Hx; specialize (Hf x Hx); specialize (He x Hx); congruence.
  - intros (x & Hx & Ht)%Exists_exists. apply not_true_iff_false. rewrite forallb_forall. intros Hf.
    apply list_elem_of_In, Hf in Hx. rewrite Hsz in Hx by done. done.
Qed.
End Saved.

(** A rule that ranks with priority 0 is moved to 100 by switching it on or off. *)
Lemma toggle_changes_priority name f :
  r_priority f = Some 0%Z -> priority f = 0%Z /\ prop (toggled_body name f) "priority" = JNum 100.
Proof. intros Hp. unfold priority. rewrite Hp. split; [done|]. cbn. unfold priority_or_100. by rewrite Hp. Qed.

(** A rule that was just created matches nothing. *)
Lemma created_rule_matches_nothing name body id created_at ctx :
  created_body name = Some body -> ruleMatches (stored id created_at body) ctx = false.
Proof. unfold created_body. destruct (trim name =s? ""); [done|]. intros [= <-]. reflexivity. Qed.
End EditorFacts.

(** ** Witnesses *)

Section Samples.
Import Editor EditorFacts.
Definition sample_draft : draft :=
  Draft "f1" " Bills " true 0 [Condition "subject" "contains" "Invoice "; Condition "size" "greater_than" " 007"; Condition "attachment" "equals" "yes"]
    [Action "mark_read" ""; Action "move" "Archive"].
Definition no_rounding (z : Z) : string := "".
Lemma sample_well_formed : well_formed sample_draft.
Proof.
  split_and!; [done | | done |]; repeat constructor; unfold row_ok, act_ok, FILTER_CONDITION_TYPES, FILTER_ACTION_TYPES; cbn;
    rewrite ?elem_of_cons; auto 10.
Qed.

Lemma editor_keeps_rows_witness : well_formed (apply_edit (SetType 0 "size") sample_draft).
Proof.
  apply (editor_keeps_rows sample_draft); [apply sample_well_formed|]. apply rtc_once. exists (SetType 0 "size"). split; [|reflexivity].
  cbn. unfold FILTER_CONDITION_TYPES. rewrite !elem_of_cons. auto 10.
Defined.

Lemma sample_exact : Forall exact_size (d_conditions sample_draft).
Proof. repeat constructor; intros Ht; try discriminate Ht. exists 7%Z. by vm_compute. Qed.

Lemma saved_rule_reopens_witness : exists d', d_conditions d' = map (canonical no_rounding) (d_conditions sample_draft) /\ well_formed d'.
Proof.
  destruct (saved_rule_reopens no_rounding sample_draft (filter_body no_rounding sample_draft) "" sample_well_formed eq_refl sample_exact)
    as (d' & _ & Hc & _ & _ & Hw & _). by exists d'.
Defined.

Lemma saved_actions_all_run_witness :
  applyActions true "m1" (r_actions (stored "f1" "" (filter_body no_rounding sample_draft))) = Ok (RunCalls [SetMessageRead; MoveMessage "archive"] []).
Proof. apply (saved_actions_all_run no_rounding sample_draft _ "" "m1" sample_well_formed); [reflexivity | discriminate]. Defined.

Definition plain_draft : draft :=
  Draft "f1" " Bills " true 0 [Condition "subject" "contains" "Invoice "; Condition "recipient" "ends_with" "@x.y"; Condition "attachment" "equals" "yes"]
    [Action "mark_read" ""].
Definition sample_mail : Ingest.mail := Ingest.Mail ["a@b.c"] "Your invoice 5" "me@x.y" ["me@x.y"] 9 true.
Definition sample_msg : message := Message "m1" (JStr "Your invoice 5") (JStr "a@b.c") (JArr [JStr "me@x.y"]) (JBool true) JUndef.
Lemma sample_same_mail : same_mail (buildContext sample_msg (Some "hi") None) sample_mail.
Proof.
  split; try reflexivity; [|by left | by repeat constructor].
  intros a. cbn. rewrite !list_elem_of_singleton. split; [intros ->; by right | intros [[-> _]| ->]; reflexivity].
Qed.
Lemma browser_and_server_agree_witness :
  let ctx := buildContext sample_msg (Some "hi") None in
  let r := stored "f1" "" (filter_body no_rounding plain_draft) in
  ruleMatches r ctx = Ingest.ingestRuleConditionsMatch (map Ingest.decode (to_list (r_conditions r))) sample_mail /\
  ruleMatches (stored "f1" "" (filter_body no_rounding sample_draft)) ctx = false.
Proof.
  split.
  - apply (browser_and_server_agree no_rounding plain_draft (filter_body no_rounding plain_draft) "" sample_msg (Some "hi") sample_mail);
      [ | reflexivity | by repeat constructor | repeat constructor; discriminate | apply sample_same_mail | repeat constructor; discriminate].
    split_and!; [done | | done |]; repeat constructor; unfold row_ok, act_ok, FILTER_CONDITION_TYPES, FILTER_ACTION_TYPES; cbn;
      rewrite ?elem_of_cons; auto 10.
  - apply (browser_and_server_agree no_rounding sample_draft (filter_body no_rounding sample_draft) "" sample_msg (Some "hi") sample_mail);
      [apply sample_well_formed | reflexivity | by repeat constructor | repeat constructor; discriminate | apply sample_same_mail |].
    apply Exists_cons_tl, Exists_cons_hd. reflexivity.
Defined.
End Samples.
