(* ===== verification/Selection.v ===== *)
(** * The message list ([static/mail/mail-app.jsx], [MailApp]; [mail-message-list.jsx])

    Which messages are on screen, which of them are selected, and what a click or a key
    does to the selection: a plain, control or shift click, a checkbox, the arrow keys,
    Escape, and the effect that follows a change of the list. *)
From Stdlib Require Import ZArith Lia Ascii.
From stdpp Require Import strings list gmap sets relations.
From S2P Require Import Prelude JsString JsValue.
Local Open Scope nat_scope.

(** ** The selection *)

Record selection := Selection { ids : list string; anchorId : option string; focusId : option string }.
#[global] Instance selection_eq_dec : EqDecision selection.
Proof. solve_decision. Defined.

Definition emptyMailListSelection : selection := Selection [] None None.

(** [x || null], and [x] as a condition. *)
Definition or_null (o : option string) : option string := match o with Some s => if s =s? "" then None else Some s | None => None end.
Definition is_set (o : option string) : bool := match or_null o with Some _ => true | None => false end.
(** [l.includes(x)], [set.has(x)]: [null] is in no list of ids. *)
Definition has (l : list string) (o : option string) : bool := match o with Some i => str_mem i l | None => false end.
Definition findIndex (l : list string) (o : option string) : option nat :=
  match o with Some i => fst <$> list_find (fun j => j = i) l | None => None end.
(** [l.slice(lo, hi + 1)] *)
Definition slice (lo hi : nat) (l : list string) : list string := drop lo (take (S hi) l).

Definition orderSelectedIdsByMessages (selectedSet visible : list string) : list string := List.filter (fun i => str_mem i selectedSet) visible.

Definition mailListSelectionAfterRemoving (prev : selection) (removed : list string) : selection :=
  let kept := List.filter (fun i => negb (str_mem i removed)) (ids prev) in
  match kept with
  | [] => emptyMailListSelection
  | first :: _ =>
      let focus := if has removed (focusId prev) then or_null (last kept) else focusId prev in
      let anchor := if negb (is_set (anchorId prev)) || has removed (anchorId prev) || negb (has kept (anchorId prev))
                    then Some first else anchorId prev in
      Selection kept anchor focus
  end.

(** The effect on [visibleMessages]. *)
Definition prune (vis : list string) (prev : selection) : selection :=
  if (match ids prev with [] => true | _ => false end) && negb (is_set (focusId prev)) && negb (is_set (anchorId prev)) then prev
  else
    let kept := List.filter (fun i => str_mem i vis) (ids prev) in
    let focusOk := negb (is_set (focusId prev)) || has vis (focusId prev) in
    let sameIds := bool_decide (kept = ids prev) in
    let anchorOk := negb (is_set (anchorId prev)) || has vis (anchorId prev) && has kept (anchorId prev) in
    if sameIds && focusOk && anchorOk then prev
    else
      Selection kept
        (if negb (is_set (anchorId prev)) || negb (has vis (anchorId prev)) || negb (has kept (anchorId prev)) then or_null (head kept) else anchorId prev)
        (if focusOk then focusId prev else or_null (last kept)).

(** ** Clicks *)

Definition only (id : string) : selection := Selection [id] (Some id) (Some id).

(** A control click and a checkbox. *)
Definition toggle (l : list string) (id : string) (prev : selection) : selection :=
  let wasOn := str_mem id (ids prev) in
  let set := if wasOn then List.filter (fun i => negb (i =s? id)) (ids prev) else ids prev ++ [id] in
  let kept := orderSelectedIdsByMessages set l in
  match kept with
  | [] => emptyMailListSelection
  | first :: _ =>
      Selection kept (if negb (is_set (anchorId prev)) || negb (has kept (anchorId prev)) then Some first else anchorId prev)
        (if wasOn then or_null (last kept) else Some id)
  end.

(** A shift click: from the anchor to the row. *)
Definition extend (l : list string) (id : string) (prev : selection) : selection :=
  match findIndex l (anchorId prev), findIndex l (Some id) with
  | Some a, Some b => Selection (slice (Nat.min a b) (Nat.max a b) l) (anchorId prev) (Some id)
  | _, _ => only id
  end.

(** [ctrl]: the control or the meta key. *)
Definition handleMailListRowClick (l : list string) (id : string) (shift ctrl : bool) (prev : selection) : selection :=
  if shift && is_set (anchorId prev) then extend l id prev else if ctrl then toggle l id prev else only id.
Definition handleMailListCheckboxClick (l : list string) (id : string) (prev : selection) : selection := toggle l id prev.
Definition selectAllVisibleMail (l : list string) (prev : selection) : selection :=
  match l with [] => prev | first :: _ => Selection l (Some first) (last l) end.

(** The box above the list. *)
Definition allVisibleSelected (l : list string) (sel : selection) : bool :=
  negb (match l with [] => true | _ => false end) && forallb (fun i => str_mem i (ids sel)) l.
Definition someVisibleSelected (l : list string) (sel : selection) : bool := existsb (fun i => str_mem i (ids sel)) l.
Definition header_click (l : list string) (sel : selection) : selection :=
  if allVisibleSelected l sel then emptyMailListSelection else selectAllVisibleMail l sel.

(** ** Keys *)

(** The row after or before an index, within the list. *)
Definition nextIdx (down : bool) (n : nat) (cur : option nat) : nat :=
  match cur with
  | None => if down then 0 else n - 1
  | Some i => if down then Nat.min (n - 1) (i + 1) else i - 1
  end.

(** The new selection, and the row that is scrolled to. *)
Definition arrow (down shift : bool) (l : list string) (sel : selection) : option (selection * string) :=
  match l with
  | [] => None
  | _ =>
      if shift && is_set (anchorId sel) then
        let anchorIdx := findIndex l (anchorId sel) in
        let curIdx := match findIndex l (focusId sel) with Some i => Some i | None => anchorIdx end in
        let i := nextIdx down (length l) curIdx in
        match l !! i with
        | None => None
        | Some next =>
            match anchorIdx with
            | None => Some (only next, next)
            | Some a => Some (Selection (slice (Nat.min a i) (Nat.max a i) l) (anchorId sel) (Some next), next)
            end
        end
      else
        let idx := if is_set (focusId sel) then findIndex l (focusId sel) else None in
        next ← l !! nextIdx down (length l) idx; Some (only next, next)
  end.

Record key_event := KeyEvent { key : string; shiftKey : bool; altKey : bool; metaKey : bool; ctrlKey : bool; in_field : bool }.

Inductive key_effect :=
| Ignored
| Select (sel : selection) (scrolled : option string)
| NewCompose
| Reload.

(** [menu]: the context menu is open. *)
Definition onKey (menu : bool) (l : list string) (sel : selection) (e : key_event) : key_effect :=
  if in_field e || menu || altKey e || metaKey e || ctrlKey e then Ignored
  else if (key e =s? "Escape") && (1 <? length (ids sel)) && is_set (focusId sel) then
    match focusId sel with Some f => Select (only f) None | None => Ignored end
  else if (key e =s? "c") || (key e =s? "C") then NewCompose
  else if (key e =s? "r") || (key e =s? "R") then Reload
  else if (key e =s? "ArrowDown") || (key e =s? "ArrowUp") then
    match arrow (key e =s? "ArrowDown") (shiftKey e) l sel with Some (s, i) => Select s (Some i) | None => Ignored end
  else Ignored.

(** ** What is on screen *)

Section Visible.
Context {M : Type}.
Variable id_of : M -> string.

(** A hit of the search: [hit.message_id || hit.id], its snippet and its sources. *)
Record hit := Hit { hit_id : option string; snippet : string; hit_sources : list string }.
(** A row that shows a hit: the message, its preview and where it was found. *)
Record row := Row { row_msg : M; row_preview : option string; search_sources : option (list string) }.
Definition row_id (r : row) : string := id_of (row_msg r).

Definition by_id (messages : list M) (id : string) : option M := snd <$> list_find (fun m => id_of m = id) (rev messages).
Definition row_of_hit (messages : list M) (h : hit) : option row :=
  id ← or_null (hit_id h); m ← by_id messages id; Some (Row m (or_null (Some (snippet h))) (Some (hit_sources h))).

(** [hits]: [None] while no search has an answer. *)
Definition visibleMessages (messages : list M) (search : string) (hits : option (list hit)) : list row :=
  match hits with
  | Some hits => if trim search =s? "" then map (fun m => Row m None None) messages else omap (row_of_hit messages) hits
  | None => map (fun m => Row m None None) messages
  end.

(** [visible.find(..) || messages.find(..) || null] *)
Definition shown_message (visible : list row) (messages : list M) (id : option string) : option M :=
  match id with
  | None => None
  | Some i =>
      match list_find (fun r => row_id r = i) visible with
      | Some (_, r) => Some (row_msg r)
      | None => snd <$> list_find (fun m => id_of m = i) messages
      end
  end.
End Visible.

(** ** The context menu *)

Definition openMessageContextMenu (clientX clientY innerWidth innerHeight : Z) : Z * Z :=
  let at_ c inner := Z.max 12 (Z.min c (inner - 220 - 12)) in (at_ clientX innerWidth, at_ clientY innerHeight).

Inductive menu_action := MoveTo (target : string) | DeleteMessage | DeleteImmediately.
Definition contextMenuActions (folder : string) : list (string * menu_action) :=
  if folder =s? "trash" then [("restore", MoveTo "inbox"); ("delete-permanent", DeleteMessage)]
  else (if negb (folder =s? "archive") then ("archive", MoveTo "archive") else ("restore", MoveTo "inbox")) ::
       [("trash", DeleteMessage); ("delete-now", DeleteImmediately)].

(** ** Lemmas *)

Module SelectionFacts.

(** A list on screen: no id twice, none empty. *)
Definition good (l : list string) : Prop := NoDup l /\ "" ∉ l.
(** Nothing is selected, or there is an anchor and a focus among what is. *)
Definition chosen (s : selection) : Prop :=
  s = emptyMailListSelection \/ exists a f, anchorId s = Some a /\ focusId s = Some f /\ a ∈ ids s /\ f ∈ ids s.
Record on_screen (l : list string) (s : selection) : Prop := {
  distinct_ids : NoDup (ids s);
  shown_ids : ids s ⊆ l;
  chosen_ids : chosen s;
}.

Lemma has_spec l i : has l (Some i) = true <-> i ∈ l.
Proof. apply str_mem_spec. Qed.
Lemma has_false l i : has l (Some i) = false <-> i ∉ l.
Proof. rewrite <- has_spec. by destruct (has l (Some i)). Qed.
Lemma set_id l i : good l -> i ∈ l -> is_set (Some i) = true /\ or_null (Some i) = Some i.
Proof.
  intros [_ H0] Hi. unfold is_set, or_null. assert ((i =s? "") = false) as -> by (apply String.eqb_neq; by intros ->). done.
Qed.
Lemma kept_spec (p : string -> bool) (l : list string) i : i ∈ List.filter p l <-> i ∈ l /\ p i = true.
Proof. rewrite !list_elem_of_In. apply filter_In. Qed.
Lemma kept_NoDup (p : string -> bool) (l : list string) : NoDup l -> NoDup (List.filter p l).
Proof. rewrite !NoDup_ListNoDup. apply List.NoDup_filter. Qed.
Lemma last_in {A} (l : list A) (d : A) : exists x, last (d :: l) = Some x /\ x ∈ d :: l.
Proof.
  destruct (last (d :: l)) as [x|] eqn:E; [|by apply last_None in E]. exists x. split; [done|].
  apply last_Some in E as [l' ->]. apply elem_of_app. right. by left.
Qed.

Lemma findIndex_Some l i n : findIndex l (Some i) = Some n -> l !! n = Some i.
Proof. unfold findIndex. intros ([k x] & (Hl & -> & _)%list_find_Some & ->)%fmap_Some. exact Hl. Qed.
Lemma findIndex_in l i : i ∈ l -> exists n, findIndex l (Some i) = Some n /\ l !! n = Some i.
Proof.
  intros Hi. destruct (list_find_elem_of (fun j => j = i) l i Hi eq_refl) as [[n x] E].
  assert (findIndex l (Some i) = Some n) as Hn by (unfold findIndex; by rewrite E).
  exists n. split; [done|]. by apply findIndex_Some.
Qed.
Lemma findIndex_at l i n : NoDup l -> l !! n = Some i -> findIndex l (Some i) = Some n.
Proof.
  intros Hd Hn. destruct (findIndex_in l i) as (m & E & Hm); [by eapply list_elem_of_lookup_2|].
  rewrite E. f_equal. by eapply NoDup_lookup.
Qed.

Lemma slice_spec lo hi l i : i ∈ slice lo hi l <-> exists k, lo <= k <= hi /\ l !! k = Some i.
Proof.
  unfold slice. rewrite list_elem_of_lookup. setoid_rewrite lookup_drop. split.
  - intros (k & Hk). exists (lo + k). destruct (decide (lo + k < S hi)) as [Hl|Hl].
    + rewrite lookup_take_lt in Hk by lia. split; [lia | done].
    + by rewrite lookup_take_ge in Hk by lia.
  - intros (k & Hb & Hk). exists (k - lo). replace (lo + (k - lo)) with k by lia. rewrite lookup_take_lt by lia. done.
Qed.
Lemma slice_NoDup lo hi l : NoDup l -> NoDup (slice lo hi l).
Proof. intros Hd. unfold slice. eapply sublist_NoDup; [exact Hd|]. etrans; [apply sublist_drop | apply sublist_take]. Qed.

(** ** The invariant *)

Lemma empty_on_screen l : on_screen l emptyMailListSelection.
Proof. split; [constructor | intros i Hi; by apply elem_of_nil in Hi | by left]. Qed.
Lemma only_on_screen l i : i ∈ l -> on_screen l (only i).
Proof.
  intros Hi. split; [by apply NoDup_singleton | intros j; cbn; rewrite list_elem_of_singleton; by intros -> |].
  right. exists i, i. repeat split; by left.
Qed.

(** A non-empty part of the list with one of its ids as the focus; the anchor, when it is not
    one of them, becomes the first. *)
Lemma part_on_screen l kept (a : option string) f : NoDup kept -> kept ⊆ l -> f ∈ kept ->
  on_screen l (Selection kept (match kept with [] => None | x :: _ => if negb (is_set a) || negb (has kept a) then Some x else a end) (Some f)).
Proof.
  intros Hd Hl Hf. split; [done | done |]. right. destruct kept as [|x kept]; [by apply elem_of_nil in Hf|]. cbn [ids anchorId focusId].
  destruct (negb (is_set a) || negb (has (x :: kept) a)) eqn:E.
  - exists x, f. repeat split; [by left | done].
  - apply orb_false_iff in E as [_ E%negb_false_iff]. destruct a as [a|]; [|done]. apply has_spec in E. by exists a, f.
Qed.

Lemma toggle_on_screen l i s : good l -> i ∈ l -> on_screen l s -> on_screen l (toggle l i s).
Proof.
  intros Hg Hi [Hd Hs _]. unfold toggle, orderSelectedIdsByMessages. cbv zeta.
  set (set := if str_mem i (ids s) then _ else _). assert (NoDup (List.filter (fun j => str_mem j set) l)) as Hd' by apply kept_NoDup, Hg.
  assert (List.filter (fun j => str_mem j set) l ⊆ l) as Hs' by (by intros j [? _]%kept_spec).
  destruct (List.filter (fun j => str_mem j set) l) as [|x kept] eqn:E; [apply empty_on_screen|].
  destruct (str_mem i (ids s)) eqn:Ei.
  - destruct (last_in kept x) as (f & -> & Hf). destruct (set_id l f Hg (Hs' _ Hf)) as [_ ->]. exact (part_on_screen l (x :: kept) (anchorId s) f Hd' Hs' Hf).
  - apply (part_on_screen l (x :: kept) (anchorId s) i Hd' Hs'). rewrite <- E. apply kept_spec. split; [done|].
    apply str_mem_spec. subst set. apply elem_of_app. right. by left.
Qed.

Lemma range_on_screen l a b x y lo hi : NoDup l -> l !! a = Some x -> l !! b = Some y -> lo <= a <= hi -> lo <= b <= hi ->
  on_screen l (Selection (slice lo hi l) (Some x) (Some y)).
Proof.
  intros Hd Hx Hy Ha Hb. split; [by apply slice_NoDup | intros j (k & _ & Hk)%slice_spec; by eapply list_elem_of_lookup_2 |].
  right. exists x, y. repeat split; apply slice_spec; eauto.
Qed.
Lemma extend_on_screen l i s : good l -> i ∈ l -> on_screen l s -> on_screen l (extend l i s).
Proof.
  intros Hg Hi Hs. unfold extend. destruct (anchorId s) as [a|]; [|by apply only_on_screen].
  destruct (findIndex l (Some a)) as [n|] eqn:Ea; [|by apply only_on_screen].
  destruct (findIndex_in l i Hi) as (m & -> & Hm). apply findIndex_Some in Ea.
  eapply (range_on_screen l n m); eauto; [apply Hg | lia | lia].
Qed.

Lemma nextIdx_bound down n c : 0 < n -> (forall i, c = Some i -> i < n) -> nextIdx down n c < n.
Proof. intros Hn Hc. unfold nextIdx. destruct c as [i|]; [specialize (Hc i eq_refl)|]; destruct down; lia. Qed.
Lemma findIndex_bound l o i : findIndex l o = Some i -> i < length l.
Proof. destruct o as [x|]; [|done]. intros H%findIndex_Some. by eapply lookup_lt_Some. Qed.

Lemma arrow_on_screen down shift l s t i : good l -> arrow down shift l s = Some (t, i) -> on_screen l t.
Proof.
  intros Hg. unfold arrow. destruct l as [|x0 l0]; [done|]. set (l := x0 :: l0) in *. destruct (shift && is_set (anchorId s)).
  - cbv zeta. set (k := nextIdx down _ _). destruct (l !! k) as [next|] eqn:Hk; [|done].
    destruct (anchorId s) as [a|]; [|by intros [= <- _]; apply only_on_screen; eapply list_elem_of_lookup_2].
    destruct (findIndex l (Some a)) as [n|] eqn:Ea; intros [= <- _]; [|by apply only_on_screen; eapply list_elem_of_lookup_2].
    apply findIndex_Some in Ea. eapply (range_on_screen l n k); eauto; [apply Hg | lia | lia].
  - intros (next & Hn & [= <- _])%bind_Some. by apply only_on_screen; eapply list_elem_of_lookup_2.
Qed.

Lemma chosen_parts l0 s : good l0 -> on_screen l0 s ->
  s = emptyMailListSelection \/
  exists a f, s = Selection (ids s) (Some a) (Some f) /\ a ∈ ids s /\ f ∈ ids s /\ is_set (Some a) = true /\ is_set (Some f) = true.
Proof.
  intros Hg [_ Hs Hc]. destruct Hc as [Hc|(a & f & Ha & Hf & Hai & Hfi)]; [by left | right]. exists a, f.
  destruct (set_id l0 a Hg (Hs _ Hai)) as [Ha' _], (set_id l0 f Hg (Hs _ Hfi)) as [Hf' _]. repeat split; try done.
  destruct s as [l a' f']. cbn in *. by subst.
Qed.
Lemma ids_nonempty (l : list string) i : i ∈ l -> match l with [] => true | _ => false end = false.
Proof. destruct l; [intros H; by apply elem_of_nil in H | done]. Qed.

(** What is left of a selection, on a list that shows [kept] of it. *)
Definition left_over (kept : list string) (a f : string) : selection :=
  match kept with
  | [] => emptyMailListSelection
  | first :: _ => Selection kept (if has kept (Some a) then Some a else Some first) (if has kept (Some f) then Some f else last kept)
  end.

Lemma left_over_on_screen l kept a f : NoDup kept -> kept ⊆ l -> on_screen l (left_over kept a f).
Proof.
  intros Hd Hl. unfold left_over. destruct kept as [|x kept]; [apply empty_on_screen|]. split; [done | done |]. right.
  destruct (last_in kept x) as (y & Hy & Hyi). cbn [ids anchorId focusId]. rewrite Hy.
  exists (if has (x :: kept) (Some a) then a else x), (if has (x :: kept) (Some f) then f else y).
  destruct (has (x :: kept) (Some a)) eqn:Ea, (has (x :: kept) (Some f)) eqn:Ef;
    rewrite ?has_spec in *; repeat split; first [done | by left].
Qed.

Lemma prune_left_over l s a f : good l ->
  s = Selection (ids s) (Some a) (Some f) -> a ∈ ids s -> f ∈ ids s -> is_set (Some a) = true -> is_set (Some f) = true ->
  prune l s = left_over (List.filter (fun i => str_mem i l) (ids s)) a f.
Proof.
  intros Hg Es Ha Hf Sa Sf. unfold prune. rewrite (ids_nonempty _ _ Ha). cbn [andb].
  assert (anchorId s = Some a) as -> by (by rewrite Es). assert (focusId s = Some f) as -> by (by rewrite Es). rewrite Sa, Sf. cbn [negb orb].
  set (kept := List.filter _ _). cbv zeta.
  assert (forall i, i ∈ ids s -> has l (Some i) = has kept (Some i)) as Hk.
  { intros i Hi. apply eq_true_iff_eq. rewrite !has_spec. subst kept. rewrite kept_spec, str_mem_spec. tauto. }
  rewrite (Hk _ Ha), (Hk _ Hf). destruct (decide (kept = ids s)) as [E|E].
  - rewrite bool_decide_true by done. assert (has kept (Some a) = true /\ has kept (Some f) = true) as [-> ->] by (by rewrite !has_spec, E).
    cbn [andb]. unfold left_over. pose proof (proj2 (has_spec _ _) Ha) as Ha'. pose proof (proj2 (has_spec _ _) Hf) as Hf'. rewrite <- E in Ha', Hf'.
    rewrite Ha', Hf'. destruct kept; [rewrite <- E in Ha; by apply elem_of_nil in Ha | by rewrite E].
  - rewrite bool_decide_false by done. cbn [andb]. unfold left_over. destruct kept as [|x kept'] eqn:Ek; [done|].
    assert (x :: kept' ⊆ l) as Hl by (rewrite <- Ek; by intros j [_ ?%str_mem_spec]%kept_spec).
    destruct (last_in kept' x) as (y & Hy & Hyi). rewrite Hy. destruct (set_id l x Hg) as [_ Ex]; [apply Hl; by left|].
    destruct (set_id l y Hg) as [_ Ey]; [by apply Hl|]. cbn [head]. rewrite Ex, Ey.
    by destruct (has _ (Some a)), (has _ (Some f)).
Qed.

Lemma prune_on_screen l0 l s : good l0 -> good l -> on_screen l0 s -> on_screen l (prune l s).
Proof.
  intros Hg0 Hg Hs. destruct (chosen_parts l0 s Hg0 Hs) as [->|(a & f & Es & Ha & Hf & Sa & Sf)]; [apply empty_on_screen|].
  rewrite (prune_left_over l s a f) by done. apply left_over_on_screen; [apply kept_NoDup, Hs | by intros j [_ ?%str_mem_spec]%kept_spec].
Qed.

Lemma left_over_self s a f : s = Selection (ids s) (Some a) (Some f) -> a ∈ ids s -> f ∈ ids s -> left_over (ids s) a f = s.
Proof.
  intros Es Ha%has_spec Hf%has_spec. unfold left_over. destruct (ids s) as [|x l] eqn:E; [done|]. by rewrite Ha, Hf.
Qed.
Lemma prune_stable l s : good l -> on_screen l s -> prune l s = s.
Proof.
  intros Hg Hs. destruct (chosen_parts l s Hg Hs) as [->|(a & f & Es & Ha & Hf & Sa & Sf)]; [done|].
  rewrite (prune_left_over l s a f), filter_all by (done || intros i Hi; apply str_mem_spec; by apply Hs). by apply left_over_self.
Qed.
Lemma good_part p l : good l -> good (List.filter p l).
Proof. intros Hg. split; [apply kept_NoDup, Hg | intros [? _]%kept_spec; by apply Hg]. Qed.

Lemma removing_left_over l s removed a f : good l -> on_screen l s ->
  s = Selection (ids s) (Some a) (Some f) -> a ∈ ids s -> f ∈ ids s -> is_set (Some a) = true ->
  mailListSelectionAfterRemoving s removed = left_over (List.filter (fun i => negb (str_mem i removed)) (ids s)) a f.
Proof.
  intros Hg Hs Es Ha Hf Sa. unfold mailListSelectionAfterRemoving, left_over.
  assert (anchorId s = Some a) as -> by (by rewrite Es). assert (focusId s = Some f) as -> by (by rewrite Es).
  assert (forall i, i ∈ ids s -> has removed (Some i) = negb (has (List.filter (fun i => negb (str_mem i removed)) (ids s)) (Some i))) as Hk.
  { intros i Hi. apply eq_true_iff_eq. rewrite negb_true_iff, has_spec, has_false, kept_spec, negb_true_iff.
    rewrite <- (str_mem_spec i removed). destruct (str_mem i removed); split; [by intros _ [_ ?] | done | done |]. intros H. by destruct H. }
  rewrite (Hk _ Ha), (Hk _ Hf), Sa. cbv zeta. destruct (List.filter _ _) as [|x kept] eqn:E; [done|].
  assert (x :: kept ⊆ l) as Hl by (rewrite <- E; intros j [? _]%kept_spec; by apply Hs).
  destruct (last_in kept x) as (y & -> & Hy%Hl). destruct (set_id l y Hg Hy) as [_ ->].
  by destruct (has _ (Some a)), (has _ (Some f)).
Qed.

Lemma removal_step l s removed : good l -> on_screen l s ->
  let l' := List.filter (fun i => negb (str_mem i removed)) l in
  mailListSelectionAfterRemoving s removed = prune l' s /\ on_screen l' (prune l' (mailListSelectionAfterRemoving s removed)).
Proof.
  intros Hg Hs l'. assert (good l') as Hg' by (by apply good_part).
  assert (mailListSelectionAfterRemoving s removed = prune l' s) as E.
  { destruct (chosen_parts l s Hg Hs) as [->|(a & f & Es & Ha & Hf & Sa & Sf)]; [done|].
    rewrite (prune_left_over l' s a f), (removing_left_over l s removed a f) by done. f_equal. apply filter_ext_in. intros i Hi%list_elem_of_In.
    apply eq_true_iff_eq. subst l'. rewrite str_mem_spec, kept_spec. pose proof (shown_ids _ _ Hs i Hi). tauto. }
  split; [exact E|]. rewrite E. apply (prune_on_screen l'); [done.. |]. by apply (prune_on_screen l).
Qed.

(** taking messages out of the list and out of the selection is what the effect on the
    list does to the selection by itself: it finds nothing more to change. *)
Theorem removal_is_pruning l s removed : good l -> on_screen l s ->
  let l' := List.filter (fun i => negb (str_mem i removed)) l in
  let s' := mailListSelectionAfterRemoving s removed in
  s' = prune l' s /\ prune l' s' = s'.
Proof.
  intros Hg Hs l' s'. destruct (removal_step l s removed Hg Hs) as [E _]. split; [exact E|].
  apply prune_stable; [by apply good_part|]. subst s'. rewrite E. apply (prune_on_screen l); [done | by apply good_part | done].
Qed.

(** *** Everything that can happen to a selection *)

Record page := Page { vis : list string; sel : selection }.
Inductive event :=
| RowClick (id : string) (shift ctrl : bool)
| CheckboxClick (id : string)
| HeaderClick
| ClearClick
| KeyDown (menu : bool) (e : key_event)
| Removed (removed : list string)
| Shown (l : list string)          (** the list is another one, and the effect has run *)
| FolderChosen.

Definition apply_event (ev : event) (p : page) : page :=
  match ev with
  | RowClick id shift ctrl => Page (vis p) (handleMailListRowClick (vis p) id shift ctrl (sel p))
  | CheckboxClick id => Page (vis p) (handleMailListCheckboxClick (vis p) id (sel p))
  | HeaderClick => Page (vis p) (header_click (vis p) (sel p))
  | ClearClick | FolderChosen => Page (vis p) emptyMailListSelection
  | KeyDown menu e => match onKey menu (vis p) (sel p) e with Select s _ => Page (vis p) s | _ => p end
  | Removed removed =>
      let l := List.filter (fun i => negb (str_mem i removed)) (vis p) in Page l (prune l (mailListSelectionAfterRemoving (sel p) removed))
  | Shown l => Page l (prune l (sel p))
  end.
(** Rows that are clicked are on the screen; lists have distinct ids. *)
Definition possible (ev : event) (p : page) : Prop :=
  match ev with RowClick id _ _ | CheckboxClick id => id ∈ vis p | Shown l => good l | _ => True end.
Definition happens (p p' : page) : Prop := exists ev, possible ev p /\ p' = apply_event ev p.

Lemma row_click_on_screen l i shift ctrl s : good l -> i ∈ l -> on_screen l s -> on_screen l (handleMailListRowClick l i shift ctrl s).
Proof.
  intros Hg Hi Hs. unfold handleMailListRowClick. destruct (shift && _); [by apply extend_on_screen|].
  destruct ctrl; [by apply toggle_on_screen | by apply only_on_screen].
Qed.
Lemma header_on_screen l s : good l -> on_screen l s -> on_screen l (header_click l s).
Proof.
  intros Hg Hs. unfold header_click. destruct (allVisibleSelected l s); [apply empty_on_screen|].
  unfold selectAllVisibleMail. destruct l as [|x l]; [done|]. destruct (last_in l x) as (y & -> & Hy).
  split; [apply Hg | done |]. right. exists x, y. repeat split; [by left | done].
Qed.
Lemma key_on_screen menu l s e t i : good l -> on_screen l s -> onKey menu l s e = Select t i -> on_screen l t.
Proof.
  intros Hg Hs. unfold onKey. destruct (_ || _ || _ || _ || _); [done|].
  destruct (_ && _ && _) eqn:E.
  { destruct (focusId s) as [f|] eqn:Ef; [|done]. intros [= <- _]. apply only_on_screen, (shown_ids _ _ Hs).
    destruct (chosen_ids _ _ Hs) as [->|(a & f' & _ & Hf & _ & Hfi)]; [done|]. by rewrite Ef in Hf; injection Hf as ->. }
  destruct (_ || _); [done|]. destruct (_ || _); [done|]. destruct (_ || _); [|done].
  destruct (arrow _ _ _ _) as [[t' j]|] eqn:Ea; [|done]. intros [= <- _]. by eapply arrow_on_screen.
Qed.

Lemma event_on_screen ev p : possible ev p -> good (vis p) /\ on_screen (vis p) (sel p) ->
  good (vis (apply_event ev p)) /\ on_screen (vis (apply_event ev p)) (sel (apply_event ev p)).
Proof.
  intros Hp [Hg Hs]. destruct ev; cbn [apply_event vis sel possible] in *.
  - split; [done | by apply row_click_on_screen].
  - split; [done | by apply toggle_on_screen].
  - split; [done | by apply header_on_screen].
  - split; [done | apply empty_on_screen].
  - destruct (onKey _ _ _ _) as [|t i| |] eqn:E; cbn [vis sel]; split; try done. by eapply key_on_screen.
  - split; [by apply good_part | by apply removal_step].
  - split; [done | by apply (prune_on_screen (vis p))].
  - split; [done | apply empty_on_screen].
Qed.

(** C23: only what is on the screen is ever selected: whatever is clicked or typed and however
    the list changes, the selected ids are distinct and shown, and there is no anchor or
    focus but one of them. *)
Theorem selection_stays_on_screen l p : good l -> rtc happens (Page l emptyMailListSelection) p -> on_screen (vis p) (sel p).
Proof.
  intros Hg Hr. remember (Page l emptyMailListSelection) as p0 eqn:E.
  assert (good (vis p0) /\ on_screen (vis p0) (sel p0)) as H0 by (subst p0; split; [done | apply empty_on_screen]).
  clear E. cut (good (vis p) /\ on_screen (vis p) (sel p)); [by intros []|].
  induction Hr as [|p1 p2 p3 (ev & Hp & ->) _ IH]; [done|]. apply IH. by apply event_on_screen.
Qed.

(** *** Ranges *)

(** a shift click selects the rows from the anchor to the row that was clicked, both
    included, and leaves the anchor: of several shift clicks only the last one counts. *)
Theorem shift_click_selects_range l s a i n m :
  good l -> l !! n = Some a -> l !! m = Some i -> anchorId s = Some a ->
  let click j s := handleMailListRowClick l j true false s in
  (forall j k, l !! k = Some j -> j ∈ ids (click i s) <-> Nat.min n m <= k <= Nat.max n m) /\
  anchorId (click i s) = Some a /\ focusId (click i s) = Some i /\
  forall j, j ∈ l -> click i (click j s) = click i s.
Proof.
  intros Hg Hn Hm Ha click.
  assert (is_set (Some a) = true) as Sa by (apply (set_id l); [done | by eapply list_elem_of_lookup_2]).
  assert (forall j t, anchorId t = Some a -> click j t = extend l j t) as Hc.
  { intros j t Ht. subst click. unfold handleMailListRowClick. by rewrite Ht, Sa. }
  assert (forall j k t, l !! k = Some j -> anchorId t = Some a -> extend l j t = Selection (slice (Nat.min n k) (Nat.max n k) l) (Some a) (Some j)) as He.
  { intros j k t Hk Ht. unfold extend. rewrite Ht, (findIndex_at l a n), (findIndex_at l j k) by (done || apply Hg). done. }
  rewrite (Hc _ _ Ha), (He i m s Hm Ha). split_and!; [|done..|].
  - intros j k Hk. cbn [ids]. rewrite slice_spec. split; [|by eauto]. intros (k' & Hb & Hk').
    by rewrite (NoDup_lookup l k k' j (proj1 Hg) Hk Hk').
  - intros j [k Hk]%list_elem_of_lookup. rewrite (Hc j s Ha), (He j k s Hk Ha), Hc by done. by apply He.
Qed.

Lemma arrow_shift down l kept a g n k x : good l -> l !! n = Some a -> l !! k = Some g -> l !! nextIdx down (length l) (Some k) = Some x ->
  arrow down true l (Selection kept (Some a) (Some g)) =
  Some (Selection (slice (Nat.min n (nextIdx down (length l) (Some k))) (Nat.max n (nextIdx down (length l) (Some k))) l) (Some a) (Some x), x).
Proof.
  intros Hg Hn Hk Hx. destruct (set_id l a Hg) as [Sa _]; [by eapply list_elem_of_lookup_2|].
  pose proof (findIndex_at l g k (proj1 Hg) Hk) as Fk. pose proof (findIndex_at l a n (proj1 Hg) Hn) as Fn.
  destruct l as [|x0 l0]; [done|]. unfold arrow. cbn [anchorId focusId]. rewrite Sa, Fk, Fn. cbn [andb]. cbv zeta. by rewrite Hx.
Qed.

(** shift with an arrow key and then the other one gives the selection back, unless the
    end of the list stopped the first. *)
Theorem shift_arrow_returns (l : list string) a f n m (down : bool) :
  good l -> l !! n = Some a -> l !! m = Some f -> (if down then S m < length l else 0 < m) ->
  let s := Selection (slice (Nat.min n m) (Nat.max n m) l) (Some a) (Some f) in
  exists t i j, arrow down true l s = Some (t, i) /\ arrow (negb down) true l t = Some (s, j) /\ length (ids t) <> length (ids s).
Proof.
  intros Hg Hn Hm Hb s. pose proof (lookup_lt_Some _ _ _ Hm) as Hml. pose proof (lookup_lt_Some _ _ _ Hn) as Hnl.
  set (k := if down then m + 1 else m - 1).
  assert (nextIdx down (length l) (Some m) = k) as Ek by (unfold nextIdx, k; destruct down; lia).
  assert (nextIdx (negb down) (length l) (Some k) = m) as Em by (unfold nextIdx, k; destruct down; cbn [negb]; lia).
  destruct (lookup_lt_is_Some_2 l k) as [x Hx]; [unfold k; destruct down; lia|].
  exists (Selection (slice (Nat.min n k) (Nat.max n k) l) (Some a) (Some x)), x, f. split_and!.
  - subst s. rewrite (arrow_shift down l (slice (Nat.min n m) (Nat.max n m) l) a f n m x); rewrite ?Ek; done.
  - rewrite (arrow_shift (negb down) l (slice (Nat.min n k) (Nat.max n k) l) a x n k f); rewrite ?Em; done.
  - cbn [ids s]. unfold slice. rewrite !length_drop, !length_take. unfold k. destruct down; lia.
Qed.

(** *** Single messages *)

Lemma toggle_ids l i s :
  ids (toggle l i s) = List.filter (fun j => str_mem j (if str_mem i (ids s) then List.filter (fun k => negb (k =s? i)) (ids s) else ids s ++ [i])) l.
Proof. unfold toggle, orderSelectedIdsByMessages. cbv zeta. by destruct (List.filter _ l). Qed.
Lemma toggled l i s : ids (toggle l i s) = List.filter (fun j => xorb (str_mem j (ids s)) (j =s? i)) l.
Proof.
  rewrite toggle_ids. apply filter_ext_in. intros j _. apply eq_true_iff_eq. rewrite str_mem_spec.
  destruct (str_mem i (ids s)) eqn:Ei; [rewrite kept_spec, negb_true_iff | rewrite elem_of_app, list_elem_of_singleton];
    rewrite <- (str_mem_spec j); (destruct (String.eqb_spec j i) as [->|Hj]; [rewrite Ei | destruct (str_mem j (ids s))]); cbn [xorb]; intuition congruence.
Qed.

(** a control click or a checkbox changes whether that one message is selected and no
    other, and lists what is selected in the order of the list; done twice, the same
    messages are selected again. *)
Theorem click_toggles_one l i s : on_screen l s -> i ∈ l ->
  (forall j, j ∈ l -> j ∈ ids (toggle l i s) <-> (if decide (j = i) then j ∉ ids s else j ∈ ids s)) /\
  ids (toggle l i s) `sublist_of` l /\
  ids (toggle l i (toggle l i s)) = orderSelectedIdsByMessages (ids s) l.
Proof.
  intros Hs Hi. rewrite !toggled. split_and!.
  - intros j Hj. rewrite kept_spec. destruct (decide (j = i)) as [->|Hn].
    + rewrite String.eqb_refl, xorb_true_r, negb_true_iff, <- not_true_iff_false, str_mem_spec. tauto.
    + apply String.eqb_neq in Hn as ->. rewrite xorb_false_r, str_mem_spec. tauto.
  - clear. induction l as [|x l IH]; cbn [List.filter]; [constructor|]. destruct (xorb _ _); by constructor.
  - unfold orderSelectedIdsByMessages. apply filter_ext_in. intros j Hj%list_elem_of_In.
    destruct (str_mem j (List.filter _ l)) eqn:E.
    + apply str_mem_spec, kept_spec in E as [_ E]. rewrite <- E. by destruct (str_mem j (ids s)), (j =s? i).
    + assert (xorb (str_mem j (ids s)) (j =s? i) <> true) as E'%not_true_iff_false
        by (intros Hx; rewrite <- not_true_iff_false, str_mem_spec, kept_spec in E; by apply E).
      rewrite <- E'. by destruct (str_mem j (ids s)), (j =s? i).
Qed.

(** The box above the list selects everything and then nothing. *)
Lemma header_click_twice l s : l <> [] -> allVisibleSelected l s = false ->
  ids (header_click l s) = l /\ header_click l (header_click l s) = emptyMailListSelection.
Proof.
  intros Hl Hs. assert (header_click l s = selectAllVisibleMail l s) as -> by (unfold header_click; by rewrite Hs).
  destruct l as [|x l]; [done|]. cbn [selectAllVisibleMail]. set (t := Selection _ _ _). split; [done|]. unfold header_click.
  assert (allVisibleSelected (x :: l) t = true) as ->; [|done]. unfold allVisibleSelected. cbn [negb andb].
  apply forallb_forall. intros j Hj. apply str_mem_spec. by apply list_elem_of_In.
Qed.

(** *** The rows *)

Section Rows.
Context {M : Type}.
Variable id_of : M -> string.
Local Abbreviation row_id := (row_id id_of).
Local Abbreviation visibleMessages := (visibleMessages id_of).

Lemma by_id_spec messages i m : by_id id_of messages i = Some m -> m ∈ messages /\ id_of m = i.
Proof.
  unfold by_id. intros ([k x] & (Hl & Hx & _)%list_find_Some & ->)%fmap_Some. split; [|done].
  apply list_elem_of_lookup_2 in Hl. by rewrite elem_of_reverse in Hl || (apply list_elem_of_In, in_rev, list_elem_of_In).
Qed.
Lemma by_id_known messages i : str_mem i (map id_of messages) = true -> exists m, by_id id_of messages i = Some m.
Proof.
  intros (m & -> & Hm)%str_mem_spec%list_elem_of_fmap. unfold by_id.
  destruct (list_find_elem_of (fun m' => id_of m' = id_of m) (rev messages) m) as [[k x] E]; [by apply list_elem_of_In, in_rev; rewrite rev_involutive; apply list_elem_of_In | done |].
  rewrite E. by exists x.
Qed.

(** The ids of the hits, in their order. *)
Definition hit_ids (hits : list hit) : list string := omap (fun h => or_null (hit_id h)) hits.

(** while a search has an answer the list shows the messages it found, those that are in
    the folder, in the order of the search; otherwise it shows the folder. *)
Theorem list_shows_hits messages search hits :
  map row_id (visibleMessages messages search (Some hits)) =
    (if trim search =s? "" then map id_of messages else List.filter (fun i => str_mem i (map id_of messages)) (hit_ids hits)) /\
  map row_id (visibleMessages messages search None) = map id_of messages /\
  forall r, r ∈ visibleMessages messages search (Some hits) -> row_msg r ∈ messages.
Proof.
  assert (map row_id (map (fun m => Row m None None) messages) = map id_of messages) as Hall by (rewrite map_map; by apply map_ext).
  split_and!; [|exact Hall|].
  - unfold Selection.visibleMessages. destruct (trim search =s? ""); [exact Hall|]. unfold hit_ids. induction hits as [|h hits IH]; [done|]. cbn [omap list_omap].
    unfold row_of_hit at 1. destruct (or_null (hit_id h)) as [i|]; [|exact IH]. cbn [mbind option_bind List.filter].
    destruct (str_mem i (map id_of messages)) eqn:Ei.
    + destruct (by_id_known messages i Ei) as [m Hm]. rewrite Hm. cbn [mbind option_bind map]. rewrite IH. f_equal. by apply by_id_spec in Hm as [_ ?].
    + destruct (by_id id_of messages i) as [m|] eqn:Hm; [|exact IH]. exfalso. apply by_id_spec in Hm as [Hm <-].
      apply not_true_iff_false in Ei. apply Ei, str_mem_spec, list_elem_of_fmap. by exists m.
  - intros r. unfold Selection.visibleMessages. destruct (trim search =s? "").
    + intros (m & -> & Hm)%list_elem_of_fmap. done.
    + intros (h & _ & Hr)%list_elem_of_omap. unfold row_of_hit in Hr. apply bind_Some in Hr as (i & _ & Hr).
      apply bind_Some in Hr as (m & Hm & [= <-]). by apply by_id_spec in Hm as [? _].
Qed.
End Rows.
End SelectionFacts.

(** ** Witnesses *)

Section Samples.
Import SelectionFacts.
Definition sample_list : list string := ["a"; "b"; "c"; "d"; "e"].
Definition sample_selection : selection := Selection ["b"; "c"; "d"] (Some "b") (Some "d").
Lemma sample_good : good sample_list.
Proof. split; compute_done. Qed.
Lemma sample_on_screen : on_screen sample_list sample_selection.
Proof.
  split; [compute_done | | right; exists "b", "d"; repeat split; compute_done].
  intros i. cbn. unfold sample_list. rewrite !elem_of_cons, elem_of_nil. tauto.
Qed.

Lemma removal_is_pruning_witness :
  mailListSelectionAfterRemoving sample_selection ["b"; "d"] = prune ["a"; "c"; "e"] sample_selection.
Proof. apply (removal_is_pruning sample_list sample_selection ["b"; "d"] sample_good sample_on_screen). Defined.

Definition down_key (shift : bool) : key_event := KeyEvent "ArrowDown" shift false false false false.
Definition sample_page : page :=
  apply_event (Removed ["d"]) (apply_event (KeyDown false (down_key true)) (apply_event (RowClick "c" false false) (Page sample_list emptyMailListSelection))).
Lemma selection_stays_on_screen_witness : sample_page = Page ["a"; "b"; "c"; "e"] (only "c") /\ on_screen (vis sample_page) (sel sample_page).
Proof.
  split; [by vm_compute|]. apply (selection_stays_on_screen sample_list); [apply sample_good|].
  eapply rtc_l; [exists (RowClick "c" false false); split; [cbn; compute_done | reflexivity]|].
  eapply rtc_l; [exists (KeyDown false (down_key true)); split; [exact I | reflexivity]|].
  apply rtc_once. by exists (Removed ["d"]).
Defined.

Lemma shift_click_selects_range_witness :
  handleMailListRowClick sample_list "a" true false (handleMailListRowClick sample_list "e" true false sample_selection) =
  handleMailListRowClick sample_list "a" true false sample_selection.
Proof.
  apply (shift_click_selects_range sample_list sample_selection "b" "a" 1 0 sample_good); try reflexivity. compute_done.
Defined.

Lemma shift_arrow_returns_witness : exists t i j,
  arrow true true sample_list sample_selection = Some (t, i) /\ arrow false true sample_list t = Some (sample_selection, j) /\ length (ids t) <> 3.
Proof. apply (shift_arrow_returns sample_list "b" "d" 1 3 true sample_good); vm_compute; [done | done | lia]. Defined.

Lemma click_toggles_one_witness :
  ids (toggle sample_list "c" (toggle sample_list "c" sample_selection)) = orderSelectedIdsByMessages ["b"; "c"; "d"] sample_list.
Proof. apply (click_toggles_one sample_list "c" sample_selection sample_on_screen). compute_done. Defined.
End Samples.
