(* ===== verification/FolderLoad.v ===== *)
(** * Loading a folder ([static/mail/mail-app.jsx], [loadFolder] and what follows it)

    A row of the server becomes a message: what the cache has of it, and what its header
    says when one of the identities decrypts it. Then the requests themselves: loads that
    overtake each other, and the recovery of headers from message bodies, two at a time. *)
From Stdlib Require Import ZArith Lia Ascii.
From stdpp Require Import strings list gmap sets relations.
From S2P Require Import Prelude JsString JsValue Base64 Text Json FilterEngine MailCache Reader Recovered.
Local Open Scope nat_scope.

(** ** Rows *)

(** A message of the list; [raw]: the row it came from. *)
Record entry := Entry { raw : jsval; e_id : string; e_read : bool; e_header : string; e_msg : message }.
Definition with_msg (f : message -> message) (e : entry) : entry := Entry (raw e) (e_id e) (e_read e) (e_header e) (f (e_msg e)).
Definition with_read (b : bool) (e : entry) : entry := Entry (raw e) (e_id e) b (e_header e) (e_msg e).

(** Members of a row, as text, as a list of texts and as attachment rows. *)
Definition text_of (k : string) (v : jsval) : string := js_String (js_or (prop v k) (JStr "")).
Definition texts_of (k : string) (v : jsval) : list string := map (fun x => js_String (js_or x (JStr ""))) (to_list (prop v k)).
Definition att_of (v : jsval) : att_row :=
  AttRow (str_or (text_of "file_name" v) (text_of "fileName" v)) (str_or (text_of "content_type" v) (text_of "contentType" v))
    (default 0%Z (js_Number (prop v "size_bytes"))) None.
Definition atts_of (k : string) (v : jsval) : list att_row := map att_of (to_list (prop v k)).

(** A row of [fetchManifests]. *)
Definition entry_of (v : jsval) : entry :=
  Entry v (text_of "id" v) (truthy (prop v "read")) (text_of "header_ciphertext_b64" v)
    (Message (text_of "provenance" v) (text_of "subject" v) (text_of "from_addr" v) (texts_of "to_addrs" v) (texts_of "cc_addrs" v)
       (text_of "rfc_message_id" v) (text_of "in_reply_to" v) (text_of "references" v) (text_of "reply_to" v) (text_of "thread_id" v)
       (text_of "preview" v) (atts_of "attachments" v) (truthy (prop v "has_attachments")) (truthy (prop v "headerDecrypted"))).
(** A payload of the cache. *)
Definition recovered_of (v : jsval) : recovered :=
  Recovered (text_of "subject" v) (text_of "from_addr" v) (texts_of "to_addrs" v) (texts_of "cc_addrs" v) (text_of "rfc_message_id" v)
    (text_of "in_reply_to" v) (text_of "references" v) (text_of "reply_to" v) (text_of "preview" v) (atts_of "attachments" v).

Record identity := Identity { i_fingerprint : string; i_email : string; i_is_default : bool }.

(** The default identity, or the first. *)
Definition default_identity (identities : list identity) : option identity :=
  match List.find i_is_default identities with Some i => Some i | None => head identities end.
Definition candidates (identities : list identity) : list string :=
  let fpDefault := match default_identity identities with Some i => i_fingerprint i | None => "" end in
  List.filter (fun f => negb (f =s? ""))
    (fpDefault :: List.filter (fun f => negb (f =s? "") && negb (f =s? fpDefault)) (map i_fingerprint identities)).

Section Load.
Variable decode_label : string -> string -> option string.
Local Abbreviation normSubject := (normalizeRecoveredSubject decode_label).
Local Abbreviation normAddress := (normalizeRecoveredAddress decode_label).
Local Abbreviation meaningful := (recovered_list decode_label).
Local Abbreviation merge := (mergeRecoveredMessageData decode_label).
Local Abbreviation payload_of := (buildRecoveredHeaderPayload decode_label).

(** What the decrypted header, as JSON, does to a message. *)
Definition apply_header (hdr : jsval) (m : message) : message :=
  let or_list l old := match meaningful l with [] => old | l => l end in
  let atts := match prop hdr "attachments" with JArr l => map att_of l | _ => m_attachments m end in
  Message (m_provenance m)
    (str_or (normSubject (text_of "subject" hdr)) (m_subject m)) (str_or (normAddress (text_of "from" hdr)) (m_from_addr m))
    (or_list (texts_of "to" hdr) (m_to_addrs m)) (or_list (texts_of "cc" hdr) (m_cc_addrs m))
    (str_or (trim (text_of "rfc_message_id" hdr)) (m_rfc_message_id m)) (str_or (trim (text_of "in_reply_to" hdr)) (m_in_reply_to m))
    (str_or (trim (text_of "references" hdr)) (m_references m)) (str_or (trim (text_of "reply_to" hdr)) (m_reply_to m))
    (m_thread_id m) (str_or (text_of "preview" hdr) (m_preview m)) atts
    (m_has_attachments m || match prop hdr "attachments" with JArr (_ :: _) => true | _ => false end) true.

(** [buildRecoveredHeaderPayload] of a message of the list. *)
Definition recovered_of_message (m : message) : recovered :=
  Recovered (m_subject m) (m_from_addr m) (m_to_addrs m) (m_cc_addrs m) (m_rfc_message_id m) (m_in_reply_to m) (m_references m)
    (m_reply_to m) (m_preview m) (m_attachments m).

Section Enrich.
Variable cache_on : bool.                               (** [mailCacheReady] and the script *)
Variable vault_open : bool.
Variable decryptForIdentity : string -> string -> res string.
Variable identities : list identity.

Fixpoint first_decrypt (fps : list string) (cipher : string) : option string :=
  match fps with
  | [] => None
  | fp :: fps => match decryptForIdentity fp cipher with Ok t => Some t | Throw _ => first_decrypt fps cipher end
  end.

Definition from_cache (cachedHeaders : jsval) (e : entry) : res entry :=
  if negb cache_on then Ok e
  else
    version <~ extractVersion (raw e) ;;
    cached <~ unwrapVersionedPayload (prop cachedHeaders (e_id e)) (JStr version) ;;
    Ok (if truthy cached then with_msg (fun m => merge m (recovered_of cached)) e else e).

(** The decrypted header of a row, as JSON. *)
Definition read_header (e : entry) : option jsval :=
  if (e_header e =s? "") || negb vault_open then None
  else
    match base64ToBytes (e_header e) with
    | Throw _ => None
    | Ok cipher =>
        match first_decrypt (candidates identities) cipher with
        | None => None
        | Some dec => match parse dec with Some hdr => if is_nullish hdr then None else Some hdr | None => None end
        end
    end.

(** The message, and the header that is put into the cache. *)
Definition enrich (cachedHeaders : jsval) (e : entry) : res (entry * option recovered) :=
  e' <~ from_cache cachedHeaders e ;;
  match read_header e with
  | None => Ok (e', None)
  | Some hdr =>
      let e'' := with_msg (apply_header hdr) e' in
      Ok (e'', if cache_on then payload_of (Some (recovered_of_message (e_msg e''))) None else None)
  end.

(** *** Who decrypts *)

Lemma first_decrypt_spec fps cipher t :
  first_decrypt fps cipher = Some t <-> exists a fp b, fps = a ++ fp :: b /\ decryptForIdentity fp cipher = Ok t /\ Forall (fun f => is_ok (decryptForIdentity f cipher) = false) a.
Proof.
  induction fps as [|f fps IH]; cbn [first_decrypt].
  { split; [done|]. by intros ([|] & ? & ? & ? & _). }
  destruct (decryptForIdentity f cipher) as [u|m] eqn:E.
  - split; [intros [= ->]; by exists [], f, fps|]. intros ([|x a] & fp & b & [= <- ->] & Hd & Ha); [congruence|].
    apply Forall_cons in Ha as [Ha _]. by rewrite E in Ha.
  - rewrite IH. split.
    + intros (a & fp & b & -> & Hd & Ha). exists (f :: a), fp, b. split_and!; [done | done |]. constructor; [by rewrite E | done].
    + intros ([|x a] & fp & b & [= <- ->] & Hd & Ha); [congruence|]. apply Forall_cons in Ha as [_ Ha]. by exists a, fp, b.
Qed.

Lemma default_identity_in i : default_identity identities = Some i -> i ∈ identities.
Proof.
  unfold default_identity. destruct (List.find i_is_default identities) as [j|] eqn:E.
  - intros [= <-]. apply list_elem_of_In. by apply find_some in E as [].
  - destruct identities; [done|]. intros [= <-]. by left.
Qed.
Lemma candidates_spec fp : fp ∈ candidates identities <-> fp <> "" /\ exists i, i ∈ identities /\ i_fingerprint i = fp.
Proof.
  unfold candidates. set (d := match default_identity identities with Some i => _ | None => _ end).
  rewrite list_elem_of_In, filter_In, <- list_elem_of_In, elem_of_cons, list_elem_of_In, filter_In, <- list_elem_of_In, negb_true_iff, String.eqb_neq.
  rewrite list_elem_of_fmap, andb_true_iff, !negb_true_iff, !String.eqb_neq. split.
  - intros [[->|[(i & -> & Hi) _]] Hn]; (split; [done|]); [|by exists i]. unfold d in *.
    destruct (default_identity identities) as [i|] eqn:E; [|done]. exists i. split; [by apply default_identity_in | done].
  - intros (Hn & i & Hi & <-). split; [|done]. destruct (decide (i_fingerprint i = d)); [by left | right]. split; [by exists i | done].
Qed.

(** a header that one of the identities decrypts is read, whichever identity it is, and
    the default identity is tried first. *)
Theorem decryptable_header_is_read e cipher i t hdr :
  vault_open = true -> e_header e <> "" -> base64ToBytes (e_header e) = Ok cipher ->
  i ∈ identities -> i_fingerprint i <> "" -> decryptForIdentity (i_fingerprint i) cipher = Ok t ->
  (forall j u, j ∈ identities -> decryptForIdentity (i_fingerprint j) cipher = Ok u -> u = t) ->
  parse t = Some hdr -> is_nullish hdr = false ->
  read_header e = Some hdr /\
  forall d, default_identity identities = Some d -> i_fingerprint d <> "" -> head (candidates identities) = Some (i_fingerprint d).
Proof.
  intros Hv He%String.eqb_neq Hc Hi Hf Hd Hu Hp Hn. split.
  - unfold read_header. rewrite He, Hv, Hc. cbn [negb orb]. assert (first_decrypt (candidates identities) cipher = Some t) as ->; [|by rewrite Hp, Hn].
    assert (i_fingerprint i ∈ candidates identities) as Hin by (apply candidates_spec; eauto).
    destruct (first_decrypt (candidates identities) cipher) as [u|] eqn:E.
    + apply first_decrypt_spec in E as (a & fp & b & Ec & Hu' & _). f_equal.
      assert (fp ∈ candidates identities) as (_ & j & Hj & <-)%candidates_spec by (rewrite Ec, elem_of_app; right; by left). by apply (Hu j).
    + exfalso. revert Hin E. generalize (candidates identities) as l. induction l as [|x l IH]; [intros H; by apply elem_of_nil in H|].
      cbn [first_decrypt]. intros [<-|Hx]%elem_of_cons; [by rewrite Hd|]. destruct (decryptForIdentity x cipher); [done | auto].
  - intros d Ed Hd'%String.eqb_neq. unfold candidates. rewrite Ed. cbn [List.filter]. by rewrite Hd'.
Qed.
End Enrich.

(** *** The cache *)

(** The object [buildRecoveredHeaderPayload] returns. *)
Definition att_json (a : att_row) : jsval :=
  JObj [("file_name", JStr (ar_file_name a)); ("content_type", JStr (ar_content_type a)); ("size_bytes", JNum (ar_size_bytes a))].
Definition payload_json (p : recovered) : jsval :=
  JObj [("subject", JStr (r_subject p)); ("from_addr", JStr (r_from_addr p)); ("to_addrs", JArr (map JStr (r_to_addrs p))); ("cc_addrs", JArr (map JStr (r_cc_addrs p)));
        ("rfc_message_id", JStr (r_rfc_message_id p)); ("in_reply_to", JStr (r_in_reply_to p)); ("references", JStr (r_references p));
        ("reply_to", JStr (r_reply_to p)); ("preview", JStr (r_preview p)); ("attachments", JArr (map att_json (r_attachments p)))].

(** What the list and the reader show of a header. *)
Definition shown_header (m : message) :=
  (m_subject m, m_from_addr m, m_to_addrs m, m_cc_addrs m, (m_rfc_message_id m, m_in_reply_to m, m_references m, m_reply_to m), m_preview m).
(** [norm] keeps [new], or makes nothing of it and it is the old value. *)
Definition keeps {A} (norm : A -> A) (empty old new : A) : Prop := norm new = new \/ new = old /\ norm new = empty.

Lemma text_json k s rest : text_of k (JObj ((k, JStr s) :: rest)) = s.
Proof. unfold text_of. cbn [prop field]. rewrite String.eqb_refl. unfold js_or. cbn [truthy]. by destruct (String.eqb_spec s "") as [->|]. Qed.
Lemma text_or s : js_String (js_or (JStr s) (JStr "")) = s.
Proof. exact (text_json "" s []). Qed.
Lemma texts_or l : map (fun x => js_String (js_or x (JStr ""))) (map JStr l) = l.
Proof. rewrite map_map. transitivity (map id l); [apply map_ext; intros; apply text_or | apply map_id]. Qed.
Lemma atts_json l : Forall (fun a => ar_file_name a <> "" /\ ar_content_type a <> "" /\ ar_bytes a = None) l -> map att_of (map att_json l) = l.
Proof.
  intros Hl. rewrite map_map. transitivity (map id l); [|apply map_id]. apply map_ext_Forall. eapply Forall_impl; [exact Hl|].
  intros [f t n b] (Hf%String.eqb_neq & Ht%String.eqb_neq & Hb). cbn [ar_file_name ar_content_type ar_bytes] in *.
  change (att_of (att_json (AttRow f t n b))) with
    (AttRow (str_or (js_String (js_or (JStr f) (JStr ""))) "") (str_or (js_String (js_or (JStr t) (JStr ""))) "") n None).
  rewrite !text_or. unfold str_or. by rewrite Hf, Ht, Hb.
Qed.
Lemma payload_reads_back p :
  Forall (fun a => ar_file_name a <> "" /\ ar_content_type a <> "" /\ ar_bytes a = None) (r_attachments p) -> recovered_of (payload_json p) = p.
Proof.
  intros Ha. destruct p as [f1 f2 l3 l4 f5 f6 f7 f8 f9 l10]. cbn [r_attachments] in Ha.
  transitivity (let tx s := js_String (js_or (JStr s) (JStr "")) in let txs l := map (fun x => js_String (js_or x (JStr ""))) (map JStr l) in
    Recovered (tx f1) (tx f2) (txs l3) (txs l4) (tx f5) (tx f6) (tx f7) (tx f8) (tx f9) (map att_of (map att_json l10))); [reflexivity|].
  cbv beta zeta. by rewrite !text_or, !texts_or, atts_json.
Qed.
Lemma summary_named a : let a' := normalizeAttachmentSummary a in ar_file_name a' <> "" /\ ar_content_type a' <> "" /\ ar_bytes a' = None.
Proof. cbn. split_and!; [by apply str_or_nonempty.. | done]. Qed.

Lemma keeps_text (norm : string -> string) old new :
  norm "" = "" -> keeps norm "" old new -> (new = "" -> old = "") -> str_or (norm (norm new)) old = new.
Proof.
  intros H0 [E|[-> E]] He; [rewrite !E | by rewrite E, H0]. unfold str_or. destruct (String.eqb_spec new "") as [->|]; auto.
Qed.
Lemma keeps_list (norm : list string -> list string) old new :
  norm [] = [] -> keeps norm [] old new -> (new = [] -> old = []) -> match norm (norm new) with [] => old | l => l end = new.
Proof. intros H0 [E|[-> E]] He; [rewrite !E | by rewrite E, H0]. destruct new; auto. Qed.
Lemma str_or_empty a b : str_or a b = "" -> b = "".
Proof. unfold str_or. by destruct (String.eqb_spec a ""). Qed.
Lemma kept_text a old : (if trim (str_or (trim a) old) =s? "" then old else str_or (trim a) old) = str_or (trim a) old.
Proof.
  destruct (String.eqb_spec (trim (str_or (trim a) old)) "") as [E|]; [|done]. unfold str_or in *.
  destruct (String.eqb_spec (trim a) "") as [|Hn]; [done|]. by rewrite trim_idemp in E.
Qed.

Lemma payload_shows (row m : message) p :
  payload_of (Some (recovered_of_message m)) None = Some p ->
  keeps normSubject "" (m_subject row) (m_subject m) -> keeps normAddress "" (m_from_addr row) (m_from_addr m) ->
  keeps meaningful [] (m_to_addrs row) (m_to_addrs m) -> keeps meaningful [] (m_cc_addrs row) (m_cc_addrs m) ->
  (exists hdr, m = apply_header hdr row) -> shown_header (merge row p) = shown_header m.
Proof.
  intros [= <-] Hs Hf Ht Hc [hdr Em]. unfold shown_header, mergeRecoveredMessageData, recovered_of_message.
  cbn [r_subject r_from_addr r_to_addrs r_cc_addrs r_rfc_message_id r_in_reply_to r_references r_reply_to r_preview
       m_subject m_from_addr m_to_addrs m_cc_addrs m_rfc_message_id m_in_reply_to m_references m_reply_to m_preview].
  assert (forall l old, match meaningful l with [] => old | l' => l' end = [] -> old = []) as Hl by (intros l old; by destruct (meaningful l)).
  repeat f_equal.
  - apply keeps_text; [done | done |]. rewrite Em. apply str_or_empty.
  - apply keeps_text; [done | done |]. rewrite Em. apply str_or_empty.
  - apply keeps_list; [done | done |]. rewrite Em. apply Hl.
  - apply keeps_list; [done | done |]. rewrite Em. apply Hl.
  - unfold str_or at 1. destruct (String.eqb_spec (m_rfc_message_id m) "") as [E|]; [|done]. rewrite E. rewrite Em in E. by apply str_or_empty in E.
  - rewrite Em. apply kept_text.
  - rewrite Em. apply kept_text.
  - rewrite Em. apply kept_text.
  - change (makePreviewSnippet "" 240) with "". unfold str_or at 2. destruct (String.eqb_spec (m_preview m) "") as [E|Hn].
    + rewrite E. rewrite Em in E. by apply str_or_empty in E.
    + apply String.eqb_neq in Hn. unfold str_or. by rewrite Hn.
Qed.

(** what was read once is shown again without the vault: when the header that a load
    decrypted was put into the cache, a later load of the same row with the vault locked
    shows the same subject, people, identifiers and preview. *)
Theorem cached_header_is_shown decryptForIdentity identities e e' p now version :
  enrich true true decryptForIdentity identities JUndef e = Ok (e', Some p) -> extractVersion (raw e) = Ok version ->
  keeps normSubject "" (m_subject (e_msg e)) (m_subject (e_msg e')) -> keeps normAddress "" (m_from_addr (e_msg e)) (m_from_addr (e_msg e')) ->
  keeps meaningful [] (m_to_addrs (e_msg e)) (m_to_addrs (e_msg e')) -> keeps meaningful [] (m_cc_addrs (e_msg e)) (m_cc_addrs (e_msg e')) ->
  exists e'', enrich true false decryptForIdentity identities (JObj [(e_id e, versioned now (JStr version) (payload_json p))]) e = Ok (e'', None) /\
    shown_header (e_msg e'') = shown_header (e_msg e') /\ m_headerDecrypted (e_msg e'') = true.
Proof.
  intros He Hv Hs Hf Ht Hc. unfold enrich, from_cache in He. cbn [negb] in He. rewrite Hv in He. cbn [res_bind] in He.
  change (prop JUndef (e_id e)) with JUndef in He. cbn [unwrapVersionedPayload truthy negb res_bind] in He.
  destruct (read_header true decryptForIdentity identities e) as [hdr|] eqn:Eh; [|done]. injection He as <- Hp.
  set (m := apply_header hdr (e_msg e)) in *. change (e_msg (with_msg (apply_header hdr) e)) with m in *.
  assert (recovered_of (payload_json p) = p) as Hr.
  { apply payload_reads_back. rewrite <- Hp. cbn [r_attachments]. apply Forall_map, Forall_forall. intros a _. apply summary_named. }
  unfold enrich, from_cache. cbn [negb]. rewrite Hv. cbn [res_bind prop field]. rewrite String.eqb_refl.
  assert (unwrapVersionedPayload (versioned now (JStr version) (payload_json p)) (JStr version) = Ok (payload_json p)) as ->.
  { transitivity (if negb (js_String (js_or (JStr version) (JStr "")) =s? js_String (js_or (JStr version) (JStr ""))) then Ok JNull else Ok (payload_json p));
      [reflexivity | by rewrite String.eqb_refl]. }
  cbn [res_bind]. change (truthy (payload_json p)) with true. cbn iota. unfold read_header. rewrite orb_true_r. eexists. split; [reflexivity|].
  cbn [e_msg with_msg]. rewrite Hr. split; [|done]. apply (payload_shows (e_msg e) m p); [by rewrite <- Hp | done.. | by exists hdr].
Qed.
End Load.

(** ** Loads that overtake each other *)

Module Loads.

(** [folderLoadGenRef], the list, and the loads that have not been answered. *)
Record loads := LoadState {
  gen : nat;
  messages : list entry;
  loading : bool;
  hasMail : bool;
  inflight : list (nat * string);
}.
Definition mounted : loads := LoadState 0 [] false true [].

Definition unavailable (msg : string) : bool := includes msg "503" || includes msg "Service" || includes msg "mail storage".

(** [loadFolder(target)] up to its request, and from its answer on. *)
Definition begin_load (target : string) (s : loads) : loads :=
  LoadState (S (gen s)) (messages s) true (hasMail s) ((S (gen s), target) :: inflight s).
Definition end_load (loadGen : nat) (answer : res (list entry)) (s : loads) : loads :=
  if negb (loadGen =? gen s) then s
  else
    match answer with
    | Ok enriched => LoadState (gen s) enriched false true (inflight s)
    | Throw msg => LoadState (gen s) [] false (if unavailable msg then false else hasMail s) (inflight s)
    end.
(** Anything else that changes the list. *)
Definition edit (f : list entry -> list entry) (s : loads) : loads := LoadState (gen s) (f (messages s)) (loading s) (hasMail s) (inflight s).

(** [outcome g target]: what load number [g], of the folder [target], comes to. The answers
    arrive in any order. *)
Inductive answered (outcome : nat -> string -> res (list entry)) : loads -> loads -> Prop :=
| answered_end l1 g target l2 s : inflight s = l1 ++ (g, target) :: l2 ->
    answered outcome s (end_load g (outcome g target) (LoadState (gen s) (messages s) (loading s) (hasMail s) (l1 ++ l2))).
Inductive step (outcome : nat -> string -> res (list entry)) : loads -> loads -> Prop :=
| step_begin target s : step outcome s (begin_load target s)
| step_answered s s' : answered outcome s s' -> step outcome s s'
| step_edit f s : step outcome s (edit f s).

(** *** The last one wins *)

Section Facts.
Variable outcome : nat -> string -> res (list entry).

(** The numbers are handed out once, and the newest load is the one that is waited for. *)
Record ordered (s : loads) : Prop := {
  numbered : NoDup (inflight s).*1 /\ Forall (fun g => g <= gen s) (inflight s).*1;
  waiting : loading s = true <-> gen s ∈ (inflight s).*1;
}.

Lemma end_load_state g r s : let s' := end_load g r s in gen s' = gen s /\ inflight s' = inflight s /\
  (g <> gen s -> s' = s) /\ (g = gen s -> loading s' = false /\ messages s' = match r with Ok l => l | Throw _ => [] end).
Proof.
  unfold end_load. destruct (Nat.eqb_spec g (gen s)) as [->|Hg]; cbn [negb]; [destruct r|]; cbn [gen inflight loading messages]; by split_and!.
Qed.

Lemma begin_ordered target s : ordered s -> ordered (begin_load target s).
Proof.
  intros [[Hn Hb] _]. split; cbn [begin_load inflight gen loading fmap list_fmap fst].
  - split; [constructor; [|done] | constructor; [done|]].
    + intros Hi. rewrite Forall_forall in Hb. specialize (Hb _ Hi). lia.
    + eapply Forall_impl; [exact Hb|]. intros x Hx; cbn in *; lia.
  - split; [by left | done].
Qed.
Lemma answered_ordered s s' : ordered s -> answered outcome s s' -> ordered s'.
Proof.
  intros [[Hn Hb] Hw] Ha. destruct Ha as [l1 g target l2 s Hi]. set (s1 := LoadState _ _ _ _ _).
  destruct (end_load_state g (outcome g target) s1) as (Eg & Ei & Hne & Heq). rewrite Hi, fmap_app, fmap_cons in *. cbn [fst] in *.
  apply NoDup_app in Hn as (Hn1 & Hd & Hn2). apply NoDup_cons in Hn2 as [Hg Hn2].
  assert (g ∉ l1.*1) as Hg1 by (intros H; apply (Hd _ H); by left).
  split.
  - rewrite Eg, Ei. subst s1. cbn [gen inflight]. rewrite fmap_app. split.
    + apply NoDup_app. split_and!; [done | | done]. intros x Hx Hx'. apply (Hd _ Hx). by right.
    + rewrite Forall_app in Hb |- *. destruct Hb as [Hb1 Hb2%Forall_cons]. by destruct Hb2.
  - rewrite Eg, Ei. destruct (decide (g = gen s)) as [->|Hx].
    + destruct (Heq eq_refl) as [-> _]. subst s1. cbn [gen inflight]. rewrite fmap_app, elem_of_app. split; [done | by intros [?|?]].
    + rewrite (Hne Hx). subst s1. cbn [gen inflight loading]. rewrite Hw, fmap_app, !elem_of_app, elem_of_cons.
      split; [intros [?|[?|?]]; [by left | by subst | by right] | intros [?|?]; [by left | by right; right]].
Qed.
Lemma reachable_ordered s : rtc (step outcome) mounted s -> ordered s.
Proof.
  intros Hr. assert (ordered mounted) as H0.
  { split; [split; constructor|]. cbn. rewrite elem_of_nil. by split. }
  revert H0. induction Hr as [|s1 s2 s3 Hs _ IH]; [done|]. intros H1. apply IH. destruct Hs as [t s|s s' Ha|f s].
  - by apply begin_ordered.
  - by apply (answered_ordered s).
  - destruct H1. by split.
Qed.

(** C22: the last load wins: from the moment a folder is asked for, and until another one is,
    the answers of earlier loads change nothing, in whatever order they come; the list stays
    as it was while the load is waited for and is then what this load came to. *)
Theorem last_load_wins s target s' :
  rtc (step outcome) mounted s -> rtc (answered outcome) (begin_load target s) s' ->
  if loading s' then messages s' = messages s /\ (S (gen s), target) ∈ inflight s'
  else messages s' = match outcome (S (gen s)) target with Ok l => l | Throw _ => [] end.
Proof.
  intros Hr%reachable_ordered Ha.
  assert (forall t, rtc (answered outcome) (begin_load target s) t ->
    ordered t /\ gen t = S (gen s) /\
    if loading t then messages t = messages s /\ (S (gen s), target) ∈ inflight t
    else messages t = match outcome (S (gen s)) target with Ok l => l | Throw _ => [] end) as H; [|by apply H].
  clear Ha s'. intros t Ht. pose proof (begin_ordered target s Hr) as H0. revert H0.
  assert (gen (begin_load target s) = S (gen s) /\ loading (begin_load target s) = true /\ messages (begin_load target s) = messages s /\
    (S (gen s), target) ∈ inflight (begin_load target s)) as (Hg & Hl & Hm & Hi) by (split_and!; [done.. | by left]).
  revert t Ht. refine (rtc_ind_r _ _ _ _).
  { intros H0. rewrite Hl. by split_and!. }
  intros t t' Ht Hst IH H0. destruct (IH H0) as (Ho & Hgt & Hv). clear IH. split; [by apply (answered_ordered t)|].
  destruct Hst as [l1 g tg l2 t Hin]. set (t1 := LoadState _ _ _ _ _) in *.
  destruct (end_load_state g (outcome g tg) t1) as (Eg & Ei & Hne & Heq). change (gen t1) with (gen t) in *.
  rewrite Eg. split; [exact Hgt|]. destruct Ho as [[Hn Hb] Hw]. destruct (decide (g = gen t)) as [->|Hx].
  - destruct (Heq eq_refl) as [-> ->]. assert (loading t = true) as Hlt.
    { apply Hw. rewrite Hin, fmap_app, fmap_cons, elem_of_app. right. by left. }
    rewrite Hlt in Hv. destruct Hv as [_ Hv]. rewrite Hgt. enough (tg = target) as -> by done.
    rewrite Hin in Hv, Hn. rewrite <- Hgt in Hv. clear -Hv Hn. rewrite elem_of_app, elem_of_cons in Hv. rewrite fmap_app, fmap_cons in Hn.
    apply NoDup_app in Hn as (_ & Hd & [Hn _]%NoDup_cons). cbn [fst] in *. destruct Hv as [Hv|[[= ->]|Hv]]; [|done|].
    + destruct (Hd (gen t)); [|by left]. apply list_elem_of_fmap. by exists (gen t, target).
    + destruct Hn. apply list_elem_of_fmap. by exists (gen t, target).
  - rewrite (Hne Hx). change (loading t1) with (loading t). change (messages t1) with (messages t).
    destruct (loading t) eqn:El; [|done]. destruct Hv as [Hv1 Hv]. split; [done|]. change (inflight t1) with (l1 ++ l2).
    rewrite Hin in Hv. rewrite !elem_of_app, ?elem_of_cons in *. destruct Hv as [?|[[= E _]|?]]; [by left | congruence | by right].
Qed.
End Facts.
End Loads.

(** ** Recovery in the background *)

Module Recovery.

Definition BACKGROUND_RECOVERY_CONCURRENCY : nat := 2.

(** [recoveryInFlightRef] and [recoveryAttemptVersionRef]; [started]: what was begun, newest first. *)
Record recovery := RecoveryState { inFlight : gset string; attempted : gmap string string; started : list (string * string) }.
Definition idle : recovery := RecoveryState ∅ ∅ [].

Section Recovery.
Variable decode_label : string -> string -> option string.

Definition version_of (e : entry) : string := match extractVersion (raw e) with Ok v => v | Throw _ => "" end.
Definition wanted (s : recovery) (e : entry) : bool :=
  shouldRecoverMetadataFromBody decode_label (e_msg e) && negb (version_of e =s? "") &&
  negb (bool_decide (e_id e ∈ inFlight s)) && negb (bool_decide (attempted s !! e_id e = Some (version_of e))).
Definition start_one (s : recovery) (e : entry) : recovery :=
  RecoveryState ({[e_id e]} ∪ inFlight s) (<[e_id e := version_of e]> (attempted s)) ((e_id e, version_of e) :: started s).
(** The effect on [messages]. *)
Definition effect (messages : list entry) (s : recovery) : recovery :=
  let availableSlots := BACKGROUND_RECOVERY_CONCURRENCY - size (inFlight s) in
  if availableSlots =? 0 then s
  else fold_left start_one (take availableSlots (List.filter (wanted s) messages)) s.
(** The [finally] of [runBackgroundMetadataRecovery]. *)
Definition finished (id : string) (s : recovery) : recovery := RecoveryState (inFlight s ∖ {[id]}) (attempted s) (started s).

Inductive step : recovery -> recovery -> Prop :=
| step_effect messages s : NoDup (map e_id messages) -> step s (effect messages s)
| step_finished id s : id ∈ inFlight s -> step s (finished id s).

(** *** Bounds *)

(** The version an id was last begun with. *)
Fixpoint last_started (id : string) (l : list (string * string)) : option string :=
  match l with [] => None | (i, v) :: l => if i =s? id then Some v else last_started id l end.
Fixpoint never_repeated (l : list (string * string)) : Prop :=
  match l with [] => True | (i, v) :: l => last_started i l <> Some v /\ never_repeated l end.

Record bounded (s : recovery) : Prop := {
  slots : size (inFlight s) <= BACKGROUND_RECOVERY_CONCURRENCY;
  remembered : forall id, attempted s !! id = last_started id (started s);
  no_repeats : never_repeated (started s);
}.

Lemma start_one_ok s e : attempted s !! e_id e <> Some (version_of e) ->
  (forall id, attempted s !! id = last_started id (started s)) -> never_repeated (started s) ->
  (forall id, attempted (start_one s e) !! id = last_started id (started (start_one s e))) /\ never_repeated (started (start_one s e)) /\
  size (inFlight (start_one s e)) <= S (size (inFlight s)).
Proof.
  intros Hw Hr Hn. cbn [start_one attempted started inFlight last_started never_repeated]. split_and!.
  - intros id. destruct (String.eqb_spec (e_id e) id) as [->|Hi]; [by rewrite lookup_insert_eq | by rewrite lookup_insert_ne, Hr].
  - by rewrite <- Hr.
  - done.
  - rewrite size_union_alt, size_singleton. pose proof (subseteq_size (inFlight s ∖ {[e_id e]}) (inFlight s) (subseteq_difference_l _ _ _ (reflexivity _))). lia.
Qed.

Lemma fold_start_ok l s : NoDup (map e_id l) -> Forall (fun e => attempted s !! e_id e <> Some (version_of e)) l ->
  (forall id, attempted s !! id = last_started id (started s)) -> never_repeated (started s) ->
  let s' := fold_left start_one l s in
  (forall id, attempted s' !! id = last_started id (started s')) /\ never_repeated (started s') /\ size (inFlight s') <= length l + size (inFlight s).
Proof.
  revert s. induction l as [|e l IH]; intros s Hd Hw Hr Hn; [done|]. cbn [fold_left map] in *. apply NoDup_cons in Hd as [Hi Hd].
  apply Forall_cons in Hw as [He Hw]. destruct (start_one_ok s e He Hr Hn) as (Hr' & Hn' & Hs).
  destruct (IH (start_one s e)) as (H1 & H2 & H3); try done.
  - apply Forall_forall. intros x Hx. cbn [start_one attempted]. rewrite lookup_insert_ne.
    + rewrite Forall_forall in Hw. by apply Hw.
    + intros E. apply Hi. rewrite E. by apply list_elem_of_fmap_2.
  - split_and!; [done.. |]. cbn [length]. lia.
Qed.

Lemma wanted_new s e : wanted s e = true -> attempted s !! e_id e <> Some (version_of e).
Proof. unfold wanted. intros Hw E. bool_to_prop. done. Qed.

Lemma step_bounded s s' : step s s' -> bounded s -> bounded s'.
Proof.
  intros [messages s0 Hd|id s0 Hi] [Hs Hr Hn].
  - unfold effect. cbv zeta. destruct (Nat.eqb_spec (BACKGROUND_RECOVERY_CONCURRENCY - size (inFlight s0)) 0) as [|Hz]; [by split|].
    set (l := take _ _). assert (NoDup (map e_id l)) as Hl.
    { subst l. rewrite <- firstn_map. eapply sublist_NoDup; [by apply (NoDup_map_filter e_id (wanted s0)) | apply sublist_take]. }
    destruct (fold_start_ok l s0 Hl) as (H1 & H2 & H3); [|done|done|].
    + apply Forall_forall. intros e He%elem_of_take_inv. apply list_elem_of_In, filter_In in He as [_ He]. by apply wanted_new.
    + split; [|done|done]. assert (length l <= BACKGROUND_RECOVERY_CONCURRENCY - size (inFlight s0)) by (subst l; rewrite length_take; lia). lia.
  - split; [|done|done]. cbn [finished inFlight]. etrans; [|exact Hs]. apply subseteq_size, subseteq_difference_l. done.
Qed.

(** recoveries stay two at a time: however the list changes and the recoveries end, no
    more than two are in flight, and a message is not begun again with the version it was
    last begun with. *)
Theorem recovery_is_bounded s : rtc step idle s ->
  size (inFlight s) <= BACKGROUND_RECOVERY_CONCURRENCY /\ never_repeated (started s).
Proof.
  intros Hr. enough (bounded s) as [] by done. assert (bounded idle) as H0.
  { split; [cbn; rewrite size_empty; unfold BACKGROUND_RECOVERY_CONCURRENCY; lia | | exact I]. intros id. apply lookup_empty. }
  revert H0. induction Hr as [|s1 s2 s3 Hst _ IH]; [done|]. intros H1. by apply IH, (step_bounded s1).
Qed.
End Recovery.
End Recovery.

(** ** Witnesses *)

Section Samples.
Definition sample_row : jsval :=
  JObj [("id", JStr "m1"); ("body_blob_ref", JStr "b1"); ("body_size_bytes", JNum 9); ("header_ciphertext_b64", JStr "aGVhZGVy");
        ("provenance", JStr "already_encrypted"); ("read", JBool false)].
Definition sample_entry : entry := entry_of sample_row.
Definition sample_json : jsval :=
  JObj [("subject", JStr "Plans"); ("from", JStr "Ann <ann@x.org>"); ("to", JArr [JStr "me@x.org"]); ("preview", JStr "See you")].
Definition sample_header : string := Eval vm_compute in stringify sample_json.
Definition sample_decrypt (fp cipher : string) : res string := if (fp =s? "F2") && (cipher =s? "header") then Ok sample_header else Throw "no".
Definition sample_identities : list identity := [Identity "F2" "b@x.org" false; Identity "F1" "a@x.org" true].
Lemma decryptable_header_is_read_witness :
  read_header true sample_decrypt sample_identities sample_entry = Some sample_json /\ head (candidates sample_identities) = Some "F1".
Proof.
  destruct (decryptable_header_is_read true sample_decrypt sample_identities sample_entry "header" (Identity "F2" "b@x.org" false) sample_header sample_json)
    as [H1 H2]; try reflexivity; try discriminate.
  - by left.
  - intros j u _. unfold sample_decrypt. destruct (_ && _); [by intros [= ->] | done].
  - split; [exact H1|]. by apply (H2 (Identity "F1" "a@x.org" true)).
Defined.

Definition no_labels (label bytes : string) : option string := None.
Lemma cached_header_is_shown_witness : exists e' p e'',
  enrich no_labels true true sample_decrypt sample_identities JUndef sample_entry = Ok (e', Some p) /\
  enrich no_labels true false sample_decrypt sample_identities (JObj [("m1", versioned 0 (JStr "m1:b1:9:aGVhZGVy") (payload_json p))]) sample_entry = Ok (e'', None) /\
  m_subject (e_msg e'') = "Plans" /\ shown_header (e_msg e'') = shown_header (e_msg e').
Proof.
  pose (r := enrich no_labels true true sample_decrypt sample_identities JUndef sample_entry).
  assert (exists e' p, r = Ok (e', Some p)) as (e' & p & E) by (eexists _, _; vm_compute; reflexivity).
  destruct (cached_header_is_shown no_labels sample_decrypt sample_identities sample_entry e' p 0 "m1:b1:9:aGVhZGVy" E) as (e'' & H1 & H2 & _).
  1: vm_compute; reflexivity.
  1-4: vm_compute in E; injection E as <- <-; left; vm_compute; reflexivity.
  exists e', p, e''. split; [exact E|]. split; [exact H1|]. split; [|exact H2].
  transitivity (m_subject (e_msg e')); [by injection H2|]. vm_compute in E. by injection E as <- <-.
Defined.

Definition sample_outcome (g : nat) (target : string) : res (list entry) := if target =s? "trash" then Ok [sample_entry] else Throw "mail messages 503".
Lemma last_load_wins_witness : exists s, rtc (Loads.answered sample_outcome) (Loads.begin_load "trash" (Loads.begin_load "inbox" Loads.mounted)) s /\
  Loads.inflight s = [] /\ Loads.messages s = [sample_entry].
Proof.
  pose (s0 := Loads.begin_load "inbox" Loads.mounted). pose (s1 := Loads.begin_load "trash" s0).
  assert (Loads.answered sample_outcome s1 (Loads.LoadState 2 [sample_entry] false true [(1, "inbox")])) as H1
    by exact (Loads.answered_end sample_outcome [] 2 "trash" [(1, "inbox")] s1 eq_refl).
  assert (Loads.answered sample_outcome (Loads.LoadState 2 [sample_entry] false true [(1, "inbox")]) (Loads.LoadState 2 [sample_entry] false true [])) as H2
    by exact (Loads.answered_end sample_outcome [] 1 "inbox" [] (Loads.LoadState 2 [sample_entry] false true [(1, "inbox")]) eq_refl).
  eexists. split; [|split; [|apply (Loads.last_load_wins sample_outcome s0 "trash" (Loads.LoadState 2 [sample_entry] false true []))]].
  - eapply rtc_l; [exact H1|]. by apply rtc_once.
  - reflexivity.
  - apply rtc_once, Loads.step_begin.
  - eapply rtc_l; [exact H1|]. by apply rtc_once.
Defined.

Definition numbered_entries : list entry :=
  map (fun i => entry_of (JObj [("id", JStr i); ("provenance", JStr "already_encrypted")])) ["a"; "b"; "c"].
Lemma recovery_is_bounded_witness :
  let s := Recovery.finished "b" (Recovery.effect no_labels numbered_entries Recovery.idle) in
  Recovery.started s = [("b", "b:::"); ("a", "a:::")] /\ size (Recovery.inFlight s) <= 2.
Proof.
  split; [vm_compute; reflexivity|].
  apply (Recovery.recovery_is_bounded no_labels). eapply rtc_l; [apply (Recovery.step_effect no_labels numbered_entries); compute_done|].
  apply rtc_once, Recovery.step_finished. compute_done.
Defined.
End Samples.
