(* ===== verification/MailServer.v ===== *)
(** * The mailbox of the server ([internal/httpserver/api_mail.go], [internal/mailops/service.go])

    The definition the mail page is proved against: the messages of one user, newest of
    their folder first, and what the four requests of the page do to them. Every request
    is answered, refused because the store is broken, or carried out with its answer lost, as
    a list of fates says; when the list is used up all are answered. A change of the store is
    whole or is not made, and so a row of a folder and the manifest of its message are one
    record here: there is no row without a manifest, which the list would skip
    (api_mail.go:205).  The flags of a folder's row and the events that [MoveMessage] and the
    deletion publish ([updateFolderFlags], [publish] of service.go) are not kept: no answer
    of these requests shows them. *)
From Stdlib Require Import ZArith Lia Ascii.
From stdpp Require Import strings list.
From S2P Require Import Prelude JsString JsValue Base64 Text Json Split FilterEngine Http Handlers Manifest.
Local Open Scope nat_scope.

(** [uuid.Parse] is a package's: the canonical form of an identifier, if it is one. *)
Class Uuid := { uuid_parse : string -> option string }.

(** A message as the server keeps it; [s_header] are bytes, [s_received] is when it came to
    its folder, [s_optin] the plaintext fields the user shares. *)
Record stored := Stored {
  s_id : string;
  s_folder : string;
  s_blob_ref : string;
  s_size : Z;
  s_header : string;
  s_provenance : string;
  s_source : string;
  s_has_attachments : bool;
  s_received : string;
  s_optin : list (string * jsval);
  s_read : bool;
}.
Definition with_folder (f now : string) (m : stored) : stored :=
  Stored (s_id m) f (s_blob_ref m) (s_size m) (s_header m) (s_provenance m) (s_source m) (s_has_attachments m) now (s_optin m) (s_read m).
Definition with_header (h : string) (m : stored) : stored :=
  Stored (s_id m) (s_folder m) (s_blob_ref m) (s_size m) h (s_provenance m) (s_source m) (s_has_attachments m) (s_received m) (s_optin m) (s_read m).
Definition with_flag (b : bool) (m : stored) : stored :=
  Stored (s_id m) (s_folder m) (s_blob_ref m) (s_size m) (s_header m) (s_provenance m) (s_source m) (s_has_attachments m) (s_received m) (s_optin m) b.

Inductive fate := Answered | Refused | Lost.
(** [clock]: the time, as it is written. *)
Record server := Server { mail : list stored; user_folders : list string; clock : string; fates : list fate }.
Definition with_mail (l : list stored) (sv : server) : server := Server l (user_folders sv) (clock sv) (fates sv).
Definition with_fates (l : list fate) (sv : server) : server := Server (mail sv) (user_folders sv) (clock sv) l.

Definition standard_folders : list string := ["inbox"; "sent"; "drafts"; "trash"; "archive"].
Definition known_folder (sv : server) (f : string) : bool := str_mem f standard_folders || str_mem f (user_folders sv).

(** ** What is asked for *)

(** The segments of the path, and the query. *)
Definition address (origin : string) (rq : request) : list string * string :=
  let rest := sdrop (String.length origin) (rq_url rq) in
  match index_of rest "?" with
  | Some i => (split (stake i rest) "/", sdrop (S i) rest)
  | None => (split rest "/", "")
  end.
Definition form_decode (s : string) : string := utf8_decode (percent_decode (map_chars (fun c => if Ascii.eqb c "+" then " "%char else c) s)).
Fixpoint query_get (k : string) (pairs : list string) : string :=
  match pairs with
  | [] => ""
  | p :: pairs =>
      match split p "=" with
      | name :: value => if form_decode name =s? k then form_decode (join "=" value) else query_get k pairs
      | [] => query_get k pairs
      end
  end.

Definition answer (status : Z) (j : jsval) : response := Response status (Some j) "".
Definition refusal (status : Z) (error : string) : response := answer status (JObj [("error", JStr error)]).
(** [http.NotFound]: text, not JSON. *)
Definition not_found : response := Response 404 None "404 page not found".

(** What a broken store is answered with. *)
Definition failure (m : http_method) : response := match m with GET => refusal 503 "mail storage unavailable" | _ => refusal 500 "internal error" end.

(** ** What is done *)

Definition find_stored (id : string) (l : list stored) : option stored := List.find (fun m => s_id m =s? id) l.
Definition forget (id : string) (l : list stored) : list stored := List.filter (fun m => negb (s_id m =s? id)) l.

(** [MoveMessage]: a row that enters a folder is its newest. *)
Definition move (m : stored) (target now : string) (l : list stored) : list stored :=
  if s_folder m =s? target then l else with_folder target now m :: forget (s_id m) l.
Definition update (id : string) (f : stored -> stored) (l : list stored) : list stored := map (fun m => if s_id m =s? id then f m else m) l.

(** [strconv.Atoi]: digits after a sign, and nothing else. *)
Definition atoi (s : string) : option Z :=
  let d := match s with String c d => if Ascii.eqb c "-" || Ascii.eqb c "+" then d else s | EmptyString => s end in
  if (d =s? "") || negb (all_chars is_digit d) then None else parse_int10 s.
(** The page size: above 0, and at most 200. *)
Definition page_size (limit : string) : nat :=
  match atoi limit with Some n => if (0 <? n)%Z && (n <=? 200)%Z then Z.to_nat n else 50 | None => 50 end.
(** [buildManifestJSON] *)
Definition row_json (m : stored) : jsval :=
  JObj ([("id", JStr (s_id m)); ("folder", JStr (s_folder m)); ("body_blob_ref", JStr (s_blob_ref m)); ("body_size_bytes", JNum (s_size m));
         ("header_ciphertext_b64", JStr (btoa (s_header m))); ("provenance", JStr (s_provenance m)); ("source", JStr (s_source m));
         ("has_attachments", JBool (s_has_attachments m)); ("received_at", JStr (s_received m))] ++ s_optin m ++ [("read", JBool (s_read m))]).
Definition in_folder (f : string) (l : list stored) : list stored := List.filter (fun m => s_folder m =s? f) l.

(** A query without [before]: the page sends none. *)
Definition apiMailMessagesList (query : string) (sv : server) : server * response :=
  let pairs := split query "&" in
  let folder := str_or (trim (to_lower (query_get "folder" pairs))) "inbox" in
  if negb (known_folder sv folder) then (sv, refusal 400 "unknown folder")
  else (sv, answer 200 (JObj [("messages", JArr (map row_json (take (page_size (trim (query_get "limit" pairs))) (in_folder folder (mail sv)))))])).

(** *** Changes *)

(** [messagePatchBody]: [encoding/json] takes the last field of a name in any case, and
    [null] for none. *)
Record patch := Patch { p_read : option bool; p_folder : option string; p_header : option string }.
Fixpoint last_field (k : string) (l : list (string * jsval)) (acc : jsval) : jsval :=
  match l with [] => acc | (k', v) :: l => last_field k l (if to_lower k' =s? k then v else acc) end.
Definition read_bool (v : jsval) : option (option bool) := match v with JBool b => Some (Some b) | JNull | JUndef => Some None | _ => None end.
Definition read_string (v : jsval) : option (option string) := match v with JStr t => Some (Some t) | JNull | JUndef => Some None | _ => None end.
Definition patch_of (body : jsval) : option patch :=
  match body with
  | JNull => Some (Patch None None None)
  | JObj l =>
      r ← read_bool (last_field "read" l JUndef);
      f ← read_string (last_field "folder" l JUndef);
      h ← read_string (last_field "header_ciphertext_b64" l JUndef);
      Some (Patch r f h)
  | _ => None
  end.

(** [base64.StdEncoding.DecodeString]: padded, and without spaces but line ends. *)
Definition std_decode (s : string) : option string :=
  let t := filter_chars (fun c => negb (Ascii.eqb c "010"%char || Ascii.eqb c "013"%char)) s in
  if (String.length t mod 4 =? 0) && all_chars (fun c => negb (is_ascii_ws c)) t then match atob t with Ok b => Some b | Throw _ => None end else None.

(** What a part of the patch comes to: the server after it, and what it says; or a refusal. *)
Definition patch_header (id : string) (b : patch) (sv : server) : server * bool + response :=
  match p_header b with
  | None => inl (sv, false)
  | Some h =>
      if trim h =s? "" then inr (refusal 400 "header_ciphertext_b64 required")
      else
        match std_decode (trim h) with
        | None => inr (refusal 400 "invalid header_ciphertext_b64")
        | Some bytes => inl (with_mail (update id (with_header bytes) (mail sv)) sv, true)
        end
  end.
Definition patch_folder (id : string) (b : patch) (sv : server) : server * option (string * string) + response :=
  match p_folder b with
  | None => inl (sv, None)
  | Some f =>
      let target := trim (to_lower f) in
      if target =s? "" then inr (refusal 400 "folder required")
      else if negb (known_folder sv target) then inr (refusal 400 "unknown folder")
      else
        match find_stored id (mail sv) with
        | None => inr not_found
        | Some m => inl (with_mail (move m target (clock sv) (mail sv)) sv, Some (target, s_folder m))
        end
  end.
(** The fields of the answer, by their names. *)
Definition patched_json (moved : option (string * string)) (refreshed : bool) (read : option bool) : jsval :=
  JObj ((match moved with Some (f, _) => [("folder", JStr f)] | None => [] end) ++ (if refreshed then [("header_refreshed", JBool true)] else []) ++
        [("ok", JBool true)] ++ (match moved with Some (_, p) => [("prior_folder", JStr p)] | None => [] end) ++
        (match read with Some b => [("read", JBool b)] | None => [] end)).

Section Ids.
Context `{uu : Uuid}.

(** [body]: what the request's text reads as. *)
Definition apiMailMessagePatch (idStr : string) (body : option jsval) (sv : server) : server * response :=
  match uuid_parse (trim idStr) with
  | None => (sv, refusal 400 "invalid id")
  | Some id =>
      match find_stored id (mail sv), body ≫= patch_of with
      | None, _ => (sv, not_found)
      | Some _, None => (sv, refusal 400 "invalid json")
      | Some _, Some (Patch None None None) => (sv, refusal 400 "read, folder, or header_ciphertext_b64 required")
      | Some _, Some b =>
          match patch_header id b sv with
          | inr r => (sv, r)
          | inl (sv, refreshed) =>
              match patch_folder id b sv with
              | inr r => (sv, r)
              | inl (sv, moved) =>
                  (match p_read b with Some v => with_mail (update id (with_flag v) (mail sv)) sv | None => sv end,
                   answer 200 (patched_json moved refreshed (p_read b)))
              end
          end
      end
  end.

Definition deleted_answer (m : stored) (gone : bool) : response :=
  answer 200 (JObj [("deleted", JBool gone); ("folder", JStr (if gone then "" else "trash")); ("message", JStr (if gone then "deleted" else "moved to trash"));
                    ("message_id", JStr (s_id m)); ("ok", JBool true); ("priorFolder", JStr (s_folder m))]).
(** A message that is in the trash, or that is to go for good, goes for good. *)
Definition apiMailMessageDelete (idStr query : string) (sv : server) : server * response :=
  match uuid_parse (trim idStr) with
  | None => (sv, refusal 400 "invalid id")
  | Some id =>
      match find_stored id (mail sv) with
      | None => (sv, not_found)
      | Some m =>
          if (to_lower (trim (query_get "mode" (split query "&"))) =s? "permanent") || (s_folder m =s? "trash")
          then (with_mail (forget id (mail sv)) sv, deleted_answer m true)
          else (with_mail (move m "trash" (clock sv) (mail sv)) sv, deleted_answer m false)
      end
  end.
End Ids.

Section Respond.
Context `{uu : Uuid}.
Variable origin : string.

(** The routes of the list; what else could be asked for is not found here. *)
Definition carry_out (sv : server) (rq : request) : server * response :=
  let '(segments, query) := address origin rq in
  match segments with
  | root :: "api" :: "v1" :: "mail" :: "messages" :: rest =>
      match rq_method rq, rest with
      | GET, [] => apiMailMessagesList query sv
      | PATCH, [seg] => apiMailMessagePatch (decodeURIComponent seg) (rq_body rq ≫= parse) sv
      | DELETE, [seg] => apiMailMessageDelete (decodeURIComponent seg) query sv
      | _, _ => (sv, not_found)
      end
  | _ => (sv, not_found)
  end.

Definition respond (sv : server) (rq : request) : server * option response :=
  match fates sv with
  | Refused :: rest => (with_fates rest sv, Some (failure (rq_method rq)))
  | Lost :: rest => let '(sv, _) := carry_out (with_fates rest sv) rq in (sv, None)
  | Answered :: rest => let '(sv, r) := carry_out (with_fates rest sv) rq in (sv, Some r)
  | [] => let '(sv, r) := carry_out sv rq in (sv, Some r)
  end.

(** ** The client against the server *)

Lemma escape_plain q : no_char "'" q = true -> escape_quotes q = q.
Proof.
  unfold no_char. induction q as [|c q IH]; [done|]. cbn [all_chars escape_quotes]. intros [Hc%negb_true_iff Hq]%andb_true_iff.
  rewrite Ascii.eqb_sym, Hc, IH by done. done.
Qed.
Lemma index_none_clear c s : no_char c s = true -> index_of s (String c "") = None.
Proof.
  unfold no_char. induction s as [|d s IH]; [done|]. cbn [all_chars]. intros [Hc%negb_true_iff Hs]%andb_true_iff.
  rewrite index_of_cons. assert (String.prefix (String c "") (String d s) = false) as ->; [|by rewrite IH].
  apply not_true_iff_false. intros [r [= -> _]]%prefix_spec. by rewrite Ascii.eqb_refl in Hc.
Qed.

Definition message_segments (id : string) : list string := ["api"; "v1"; "mail"; "messages"; encodeURIComponent id].

Lemma message_path id q : proper_id id = true -> no_char "'" q = true ->
  resolve origin (API +:+ "/messages/" +:+ encodeURIComponent id) q =
  origin +:+ "/" +:+ join "/" (message_segments id) +:+ (if q =s? "" then "" else "?" +:+ q).
Proof.
  intros Hid Hq. unfold resolve. rewrite escape_plain by done.
  change (API +:+ "/messages/" +:+ encodeURIComponent id) with ("/" +:+ join "/" (message_segments id)).
  rewrite normalise_plain; [by rewrite sapp_assoc | done |]. repeat (constructor; [done|]). constructor; [|constructor]. by apply component_plain.
Qed.
Lemma message_segments_clear id : no_char "?" ("/" +:+ join "/" (message_segments id)) = true.
Proof.
  unfold message_segments. cbn [join String.append]. unfold no_char. cbn [all_chars String.append Ascii.eqb Bool.eqb negb andb].
  apply (component_no_char "?" id). reflexivity.
Qed.
Lemma message_address m id q ct body : proper_id id = true -> no_char "'" q = true ->
  address origin (Request m (resolve origin (API +:+ "/messages/" +:+ encodeURIComponent id) q) "include" ct body) = ("" :: message_segments id, q).
Proof.
  intros Hid Hq. unfold address. cbn [rq_url]. rewrite message_path, sdrop_app by done.
  assert (split ("/" +:+ join "/" (message_segments id)) "/" = "" :: message_segments id) as Hs.
  { change ("/" +:+ join "/" (message_segments id)) with (join "/" ("" :: message_segments id)). apply split_lines; [done|].
    repeat (constructor; [done|]). constructor; [|constructor]. by apply component_no_char. }
  destruct (String.eqb_spec q "") as [->|Hq0].
  - rewrite sapp_nil_r. rewrite index_none_clear by apply message_segments_clear. by rewrite Hs.
  - rewrite <- sapp_assoc. rewrite index_clear by (done || by apply no_char_prefix, message_segments_clear).
    rewrite stake_app, Hs. f_equal. generalize ("/" +:+ join "/" (message_segments id)) as a. intros a.
    pose proof (sdrop_app (a +:+ "?") q) as H. rewrite slength_app, sapp_assoc, Nat.add_1_r in H. exact H.
Qed.

(** The fate of the next request, and the server after it. *)
Definition next (sv : server) : fate * server :=
  match fates sv with [] => (Answered, sv) | f :: rest => (f, with_fates rest sv) end.
Lemma respond_next sv rq :
  respond sv rq =
    match next sv with
    | (Answered, sv) => let '(sv, r) := carry_out sv rq in (sv, Some r)
    | (Refused, sv) => (sv, Some (failure (rq_method rq)))
    | (Lost, sv) => ((carry_out sv rq).1, None)
    end.
Proof. unfold respond, next. destruct (fates sv) as [|[] rest]; try done; by destruct (carry_out _ rq). Qed.

(** An identifier as the server issues them. *)
Definition known_id (id : string) : Prop := proper_id id = true /\ uuid_parse (trim id) = Some id.

(** A message that is deleted, and whether it is gone for good. *)
Definition deleted (id : string) (permanent : bool) (sv : server) : option (server * stored * bool) :=
  m ← find_stored id (mail sv);
  Some (if permanent || (s_folder m =s? "trash") then (with_mail (forget id (mail sv)) sv, m, true) else (with_mail (move m "trash" (clock sv) (mail sv)) sv, m, false)).

Lemma carry_out_delete sv id (permanent : bool) : known_id id ->
  carry_out sv (call_query origin DELETE (API +:+ "/messages/" +:+ encodeURIComponent id) (if permanent then search_params [("mode", "permanent")] else "")) =
    match deleted id permanent sv with Some (sv, m, b) => (sv, deleted_answer m b) | None => (sv, not_found) end.
Proof.
  intros [Hid Hu]. unfold carry_out, call_query. rewrite message_address by (done || by destruct permanent). cbn [message_segments rq_method].
  rewrite decode_encode_component. unfold apiMailMessageDelete, deleted. rewrite Hu. destruct (find_stored id (mail sv)) as [m|]; [|done].
  cbn [option_bind mbind]. destruct permanent; [done|]. change (to_lower _ =s? "permanent") with false. cbn [orb]. by destruct (s_folder m =s? "trash").
Qed.
Lemma run_delete sv id (permanent : bool) : known_id id ->
  run respond sv (deleteMessage origin id (JBool permanent)) =
    match next sv with
    | (Refused, sv) => (sv, Throw "internal error")
    | (Lost, sv) => (match deleted id permanent sv with Some (sv, _, _) => sv | None => sv end, Throw "Failed to fetch")
    | (Answered, sv) =>
        match deleted id permanent sv with
        | Some (sv, m, b) => (sv, Ok (json_or_empty (deleted_answer m b)))
        | None => (sv, Throw "mail delete 404")
        end
    end.
Proof.
  intros Hid. unfold deleteMessage, Http.send. cbn [bind truthy run]. rewrite respond_next. destruct (next sv) as [[] sv'].
  - rewrite carry_out_delete by done. by destruct (deleted id permanent sv') as [[[sv1 m] b]|].
  - reflexivity.
  - rewrite carry_out_delete by done. by destruct (deleted id permanent sv') as [[[sv1 m] b]|].
Qed.

Lemma carry_out_patch sv id body : proper_id id = true -> printable body = true ->
  carry_out sv (call_json origin PATCH (API +:+ "/messages/" +:+ encodeURIComponent id) body) = apiMailMessagePatch id (Some body) sv.
Proof.
  intros Hid Hp. unfold carry_out, call_json. rewrite message_address by done. cbn [message_segments rq_method rq_body].
  assert (json_body body = Some (stringify body)) as -> by (by destruct body). cbn [mbind option_bind]. by rewrite parse_stringify, decode_encode_component.
Qed.

(** A folder the server takes as it is written. *)
Definition folder_name (sv : server) (f : string) : Prop :=
  trim (to_lower f) = f /\ f <> "" /\ known_folder sv f = true /\ printable (JStr f) = true.

Lemma run_move sv id target : known_id id -> folder_name sv target ->
  run respond sv (moveMessage origin id (JStr target)) =
    match next sv with
    | (Refused, sv) => (sv, Throw "internal error")
    | (Lost, sv) => (match find_stored id (mail sv) with Some m => with_mail (move m target (clock sv) (mail sv)) sv | None => sv end, Throw "Failed to fetch")
    | (Answered, sv) =>
        match find_stored id (mail sv) with
        | Some m => (with_mail (move m target (clock sv) (mail sv)) sv, Ok (patched_json (Some (target, s_folder m)) false None))
        | None => (sv, Throw "mail move 404")
        end
    end.
Proof.
  intros [Hid Hi] (Ht & Hn%String.eqb_neq & Hk & Hp). unfold moveMessage, Http.send. cbn [bind run]. rewrite respond_next.
  assert (forall sv', user_folders sv' = user_folders sv ->
    carry_out sv' (call_json origin PATCH (API +:+ "/messages/" +:+ encodeURIComponent id) (JObj [("folder", JStr target)])) =
    match find_stored id (mail sv') with
    | Some m => (with_mail (move m target (clock sv') (mail sv')) sv', answer 200 (patched_json (Some (target, s_folder m)) false None))
    | None => (sv', not_found) end) as Hc.
  { intros sv' Hf. rewrite carry_out_patch by (done || (cbn in *; by rewrite Hp)). unfold apiMailMessagePatch. rewrite Hi.
    destruct (find_stored id (mail sv')) as [m|] eqn:Em; [|done].
    change (Some (JObj [("folder", JStr target)]) ≫= patch_of) with (Some (Patch None (Some target) None)). cbv iota.
    unfold patch_header, patch_folder. cbn [p_header p_folder p_read]. rewrite Ht, Hn. unfold known_folder in *. rewrite Hf, Hk. cbn [negb].
    by rewrite Em. }
  assert (user_folders (next sv).2 = user_folders sv) as Hu by (unfold next; by destruct (fates sv)).
  destruct (next sv) as [[] sv']; cbn [snd] in Hu; rewrite ?(Hc sv' Hu); [| reflexivity |]; by destruct (find_stored id (mail sv')).
Qed.

Lemma run_read sv id : known_id id ->
  run respond sv (setMessageRead origin id (JBool true)) =
    match next sv with
    | (Refused, sv) => (sv, Throw "internal error")
    | (Lost, sv) => (match find_stored id (mail sv) with Some _ => with_mail (update id (with_flag true) (mail sv)) sv | None => sv end, Throw "Failed to fetch")
    | (Answered, sv) =>
        match find_stored id (mail sv) with
        | Some _ => (with_mail (update id (with_flag true) (mail sv)) sv, Ok (patched_json None false (Some true)))
        | None => (sv, Throw "mail patch 404")
        end
    end.
Proof.
  intros [Hid Hi]. unfold setMessageRead, Http.send. cbn [bind run]. rewrite respond_next.
  destruct (next sv) as [[] sv']; rewrite ?carry_out_patch by done; [| reflexivity |]; unfold apiMailMessagePatch; rewrite Hi; by destruct (find_stored id (mail sv')).
Qed.

(** A page of the trash. *)
Definition trash_page (limit : nat) (sv : server) : jsval := JObj [("messages", JArr (map row_json (take limit (in_folder "trash" (mail sv)))))].
Lemma run_list_trash sv (limit : jsval) n :
  (limit, n) ∈ [(JNum 100, 100); (JUndef, 50)] ->
  run respond sv (fetchManifests origin (JStr "trash") limit JUndef) =
    match next sv with
    | (Refused, sv) => (sv, Throw "mail messages 503: mail storage unavailable")
    | (Lost, sv) => (sv, Throw "Failed to fetch")
    | (Answered, sv) => (sv, Ok (trash_page n sv))
    end.
Proof.
  intros Hl. unfold fetchManifests, Http.send. cbn [bind truthy app run]. rewrite respond_next.
  assert (forall sv', carry_out sv' (call_query origin GET (API +:+ "/messages")
      (search_params [("folder", js_String (default_to (JStr "trash") (JStr "inbox"))); ("limit", js_String (default_to limit (JNum 50)))])) =
    (sv', answer 200 (trash_page n sv'))) as Hc.
  { intros sv'. unfold carry_out, address, call_query. cbn [rq_url]. unfold resolve. rewrite sdrop_app.
    rewrite !elem_of_cons, elem_of_nil in Hl. destruct Hl as [[= -> ->]|[[= -> ->]|[]]]; reflexivity. }
  destruct (next sv) as [[] sv']; rewrite ?Hc; reflexivity.
Qed.
End Respond.

(** ** Where messages are *)

Definition folder_of (id : string) (l : list stored) : option string := s_folder <$> find_stored id l.

Lemma find_stored_id id l m : find_stored id l = Some m -> s_id m = id.
Proof. intros [_ H%String.eqb_eq]%find_some. exact H. Qed.
Lemma folder_of_forget i j l : folder_of j (forget i l) = if j =s? i then None else folder_of j l.
Proof.
  unfold folder_of, forget, find_stored. induction l as [|m l IH]; [by destruct (j =s? i)|]. cbn [List.filter List.find].
  destruct (String.eqb_spec (s_id m) i) as [->|Hi]; cbn [negb].
  - rewrite IH. destruct (String.eqb_spec j i) as [->|Hj]; [done|]. by destruct (String.eqb_spec i j) as [->|].
  - cbn [List.find]. destruct (String.eqb_spec (s_id m) j) as [<-|Hj]; [|exact IH]. by apply String.eqb_neq in Hi as ->.
Qed.
Lemma folder_of_move i j m t now l : find_stored i l = Some m -> folder_of j (move m t now l) = if j =s? i then Some t else folder_of j l.
Proof.
  intros Hm. pose proof (find_stored_id _ _ _ Hm) as <-. unfold move. destruct (String.eqb_spec (s_folder m) t) as [Et|Et].
  - destruct (String.eqb_spec j (s_id m)) as [->|]; [|done]. unfold folder_of. by rewrite Hm, <- Et.
  - unfold folder_of at 1, find_stored. cbn [List.find s_id with_folder]. rewrite String.eqb_sym. destruct (String.eqb_spec j (s_id m)) as [->|Hj]; [done|].
    change (folder_of j (forget (s_id m) l) = folder_of j l). rewrite folder_of_forget. by apply String.eqb_neq in Hj as ->.
Qed.

(** Where a message is after it was deleted. *)
Definition deletion (permanent : bool) (f : option string) : option string :=
  match f with None => None | Some f => if permanent || (f =s? "trash") then None else Some "trash" end.
Lemma deleted_folders i p sv : folder_of i (mail sv) <> None ->
  exists l m b, deleted i p sv = Some (with_mail l sv, m, b) /\
    forall j, folder_of j l = if j =s? i then deletion p (folder_of i (mail sv)) else folder_of j (mail sv).
Proof.
  unfold deleted. destruct (find_stored i (mail sv)) as [m|] eqn:E; [intros _ | unfold folder_of; by rewrite E].
  assert (folder_of i (mail sv) = Some (s_folder m)) as -> by (unfold folder_of; by rewrite E). cbn [mbind option_bind deletion].
  destruct (p || (s_folder m =s? "trash")); eexists _, _, _; (split; [reflexivity|]); intros j; [apply folder_of_forget | by apply folder_of_move].
Qed.

(** The next [n] requests are answered, and then it goes on with [rest]. *)
Definition answers (n : nat) (sv : server) (rest : list fate) : Prop := fates sv = [] /\ rest = [] \/ fates sv = repeat Answered n ++ rest.
Lemma answers_next n sv rest : answers (S n) sv rest ->
  exists sv', next sv = (Answered, sv') /\ answers n sv' rest /\ mail sv' = mail sv.
Proof.
  unfold next. intros [[E ->]|E]; rewrite E; cbn [repeat app]; eexists; (split; [reflexivity|]); (split; [|done]); [by left | by right].
Qed.

Section EachDelete.
Context `{uu : Uuid}.
Variable origin : string.
Lemma run_deletes_one sv p i rest n : known_id i -> answers (S n) sv rest -> folder_of i (mail sv) <> None ->
  exists sv' j, run (respond origin) sv (deleteMessage origin i (JBool p)) = (sv', Ok j) /\ answers n sv' rest /\
    forall k, folder_of k (mail sv') = if k =s? i then deletion p (folder_of i (mail sv)) else folder_of k (mail sv).
Proof.
  intros Hi (sv1 & Hn & Ha & Hm)%answers_next Hf. rewrite run_delete by done. rewrite Hn. rewrite <- Hm in Hf |- *.
  destruct (deleted_folders i p sv1 Hf) as (l & m & b & -> & Hd). eexists _, _. by split_and!.
Qed.
End EachDelete.
