(* ===== verification/Mailbox.v ===== *)
(** * What the mail page does with messages ([static/mail/mail-app.jsx], [MailApp])

    Deleting, moving and marking, one message or all that are selected, emptying the trash,
    and the dialogs that ask first: each handler as steps over the state of the page and the
    requests of the API client. A handler works on the selection, the list and the folder it
    was called with, and sets the list and the selection it finds when its requests are
    answered; other handlers are not interleaved. *)
From Stdlib Require Import ZArith Lia Ascii.
From stdpp Require Import strings list gmap sets.
From S2P Require Import Prelude JsString JsValue FilterEngine Http Handlers Manifest Selection FolderLoad MailServer.
Local Open Scope nat_scope.

(** ** The page *)

(** [onConfirm] of the dialog: what is done when it is confirmed. *)
Inductive pending := DeleteOne (id : string) | DeleteAll (l : list string) | EmptyTrash.
Record dialog := Dialog { title : string; text : string; label : string; onConfirm : pending }.

Record page := Page {
  folder : string;
  messages : list entry;
  listSelection : selection;
  toast : option (string * string);          (** message and type *)
  confirmModal : option dialog;
  confirmLoading : bool;
  bulkBusy : bool;
  contextMenu : bool;
  loading : bool;
  hasMail : bool;
  countLoads : nat;                          (** [loadFolderCounts()] begun, not awaited *)
}.

Definition set_messages (f : list entry -> list entry) (s : page) : page :=
  Page (folder s) (f (messages s)) (listSelection s) (toast s) (confirmModal s) (confirmLoading s) (bulkBusy s) (contextMenu s) (loading s) (hasMail s) (countLoads s).
Definition set_selection (f : selection -> selection) (s : page) : page :=
  Page (folder s) (messages s) (f (listSelection s)) (toast s) (confirmModal s) (confirmLoading s) (bulkBusy s) (contextMenu s) (loading s) (hasMail s) (countLoads s).
Definition set_toast (m type : string) (s : page) : page :=
  Page (folder s) (messages s) (listSelection s) (Some (m, type)) (confirmModal s) (confirmLoading s) (bulkBusy s) (contextMenu s) (loading s) (hasMail s) (countLoads s).
Definition set_confirm (d : option dialog) (s : page) : page :=
  Page (folder s) (messages s) (listSelection s) (toast s) d (confirmLoading s) (bulkBusy s) (contextMenu s) (loading s) (hasMail s) (countLoads s).
Definition set_confirmLoading (b : bool) (s : page) : page :=
  Page (folder s) (messages s) (listSelection s) (toast s) (confirmModal s) b (bulkBusy s) (contextMenu s) (loading s) (hasMail s) (countLoads s).
Definition set_bulkBusy (b : bool) (s : page) : page :=
  Page (folder s) (messages s) (listSelection s) (toast s) (confirmModal s) (confirmLoading s) b (contextMenu s) (loading s) (hasMail s) (countLoads s).
Definition close_menu (s : page) : page :=
  Page (folder s) (messages s) (listSelection s) (toast s) (confirmModal s) (confirmLoading s) (bulkBusy s) false (loading s) (hasMail s) (countLoads s).
Definition set_loading (b mail : bool) (s : page) : page :=
  Page (folder s) (messages s) (listSelection s) (toast s) (confirmModal s) (confirmLoading s) (bulkBusy s) (contextMenu s) b mail (countLoads s).
Definition loadFolderCounts (s : page) : page :=
  Page (folder s) (messages s) (listSelection s) (toast s) (confirmModal s) (confirmLoading s) (bulkBusy s) (contextMenu s) (loading s) (hasMail s) (S (countLoads s)).

(** ** Handlers *)

Section Handlers.
Variable origin : string.
Variable load_row : entry -> entry.            (** what [loadFolder] makes of a row: [FolderLoad.enrich] *)

Local Abbreviation M := (Handlers.M page).

(** [setMessages] and [setListSelection] once messages are gone. *)
Definition without (removed : list string) (s : page) : page :=
  set_selection (fun sel => mailListSelectionAfterRemoving sel removed)
    (set_messages (List.filter (fun m => negb (str_mem (e_id m) removed))) s).
(** [setToast({ message: (e && e.message) || failure, type: "err" })] *)
Definition complain (failure m : string) : M unit := modify (set_toast (str_or m failure) "err").
(** [new Set(ids).size], and an "s". *)
Definition set_size (l : list string) : nat := length (remove_dups l).
Definition count_text (n : nat) (noun : string) : string := Z_to_string (Z.of_nat n) +:+ " " +:+ noun +:+ (if n =? 1 then "" else "s").

Definition deleted_text (result : jsval) : string :=
  if truthy result && truthy (prop result "deleted") then "Email permanently deleted" else "Email moved to trash".

Definition executeDeleteMessage (messageId : string) (permanent : bool) : M unit :=
  _ <== modify (set_confirmLoading true) ;;;
  hfinally
    (hcatch
       (result <== await (deleteMessage origin messageId (JBool permanent)) ;;;
        _ <== modify (without [messageId]) ;;;
        _ <== modify (set_toast (deleted_text result) "ok") ;;;
        _ <== modify loadFolderCounts ;;;
        modify (set_confirm None))
       (complain "Delete failed"))
    (set_confirmLoading false).

Definition ask (d : dialog) : M unit := modify (set_confirm (Some d)).

(** [s0]: the page the handler was made for. *)
Definition handleDeleteMessage (s0 : page) (messageId : string) : M unit :=
  if messageId =s? "" then hret tt
  else
    _ <== modify close_menu ;;;
    if folder s0 =s? "trash" then
      ask (Dialog "Delete Permanently" "This will permanently delete the email. This action cannot be undone." "Delete Forever" (DeleteOne messageId))
    else
      hcatch
        (result <== await (deleteMessage origin messageId (JBool false)) ;;;
         _ <== modify (without [messageId]) ;;;
         _ <== modify (set_toast (deleted_text result) "ok") ;;;
         modify loadFolderCounts)
        (complain "Delete failed").

Definition handleDeleteImmediately (messageId : string) : M unit :=
  if messageId =s? "" then hret tt
  else
    _ <== modify close_menu ;;;
    ask (Dialog "Delete Immediately" "This will permanently delete the email without waiting for the trash retention window." "Delete Now" (DeleteOne messageId)).

Definition handleMoveMessage (messageId targetFolder : string) : M unit :=
  if (messageId =s? "") || (targetFolder =s? "") then hret tt
  else
    _ <== modify close_menu ;;;
    hcatch
      (result <== await (moveMessage origin messageId (JStr targetFolder)) ;;;
       _ <== modify (without [messageId]) ;;;
       let nextFolder := js_or (if truthy result then prop result "folder" else result) (JStr targetFolder) in
       _ <== modify (set_toast ("Email moved to " +:+ js_String nextFolder) "ok") ;;;
       modify loadFolderCounts)
      (complain "Move failed").

(** *** Everything that is selected *)

(** [for (const id of ids) await request(id)] *)
Fixpoint each (request : string -> prog jsval) (l : list string) : M unit :=
  match l with
  | [] => hret tt
  | id :: l => _ <== await (request id) ;;; each request l
  end.

(** A request for each id, then the list without them. *)
Definition bulk (request : string -> prog jsval) (l : list string) (done_text failure : string) : M unit :=
  _ <== modify (set_bulkBusy true) ;;;
  _ <== modify close_menu ;;;
  hfinally
    (hcatch
       (_ <== each request l ;;;
        _ <== modify (without l) ;;;
        _ <== modify (set_toast done_text "ok") ;;;
        modify loadFolderCounts)
       (complain failure))
    (set_bulkBusy false).

Definition bulkMoveSelected (s0 : page) (targetFolder : string) : M unit :=
  let l := ids (listSelection s0) in
  if (match l with [] => true | _ => false end) || (targetFolder =s? "") then hret tt
  else bulk (fun id => moveMessage origin id (JStr targetFolder)) l
         ("Moved " +:+ count_text (set_size l) "message" +:+ " to " +:+ targetFolder) "Move failed".
Definition bulkArchiveSelected (s0 : page) : M unit := bulkMoveSelected s0 "archive".
Definition bulkRestoreInboxSelected (s0 : page) : M unit := bulkMoveSelected s0 "inbox".

Definition bulkTrashSelected (s0 : page) : M unit :=
  let l := ids (listSelection s0) in
  if (match l with [] => true | _ => false end) || (folder s0 =s? "trash") then hret tt
  else bulk (fun id => deleteMessage origin id (JBool false)) l
         ("Moved " +:+ count_text (set_size l) "message" +:+ " to trash") "Move to trash failed".

Definition bulkPermDeleteSelected (s0 : page) : M unit :=
  let l := ids (listSelection s0) in
  match l with
  | [] => hret tt
  | _ =>
      _ <== modify close_menu ;;;
      ask (Dialog "Delete Permanently" ("Permanently delete " +:+ count_text (length l) "message" +:+ "? This cannot be undone.") "Delete Forever" (DeleteAll l))
  end.
Definition deleteAll (l : list string) : M unit :=
  _ <== modify (set_confirmLoading true) ;;;
  hfinally
    (hcatch
       (_ <== each (fun id => deleteMessage origin id (JBool true)) l ;;;
        _ <== modify (without l) ;;;
        _ <== modify (set_toast ("Permanently deleted " +:+ count_text (set_size l) "message") "ok") ;;;
        _ <== modify loadFolderCounts ;;;
        modify (set_confirm None))
       (complain "Delete failed"))
    (set_confirmLoading false).

(** The selected messages that are in the list and unread. *)
Definition unread_targets (s0 : page) : list string :=
  List.filter (fun i => match List.find (fun m => e_id m =s? i) (messages s0) with Some m => negb (e_read m) | None => false end) (ids (listSelection s0)).
Definition mark_read (l : list string) (m : entry) : entry := if str_mem (e_id m) l then with_read true m else m.
Definition bulkMarkReadSelected (s0 : page) : M unit :=
  let l := unread_targets s0 in
  match l with
  | [] => hret tt
  | _ =>
      _ <== modify (set_bulkBusy true) ;;;
      hfinally
        (hcatch
           (_ <== each (fun id => setMessageRead origin id (JBool true)) l ;;;
            _ <== modify (set_messages (map (mark_read l))) ;;;
            modify (set_toast ("Marked " +:+ count_text (length l) "message" +:+ " as read") "ok"))
           (complain "Could not mark as read"))
        (set_bulkBusy false)
  end.

(** *** The trash *)

(** [loadFolder(target)], alone. *)
Definition loadFolder (target : string) : M unit :=
  _ <== modify (fun s => set_loading true (hasMail s) s) ;;;
  hfinally
    (hcatch
       (l <== await (j <- fetchManifests origin (JStr target) JUndef JUndef ;; v <- lift (getp j "messages") ;; Ret (to_list v)) ;;;
        _ <== modify (set_messages (fun _ => map (fun v => load_row (entry_of v)) l)) ;;;
        modify (fun s => set_loading (loading s) true s))
       (fun m =>
          _ <== modify (fun s => if Loads.unavailable m then set_loading (loading s) false s else s) ;;;
          modify (set_messages (fun _ => []))))
    (fun s => set_loading false (hasMail s) s).

(** The rows of a page are deleted; rows without an id are left out. *)
Fixpoint delete_rows (rows : list jsval) (deleted : nat) : M nat :=
  match rows with
  | [] => hret deleted
  | row :: rows =>
      if negb (truthy row) || negb (truthy (prop row "id")) then delete_rows rows deleted
      else _ <== await (deleteMessage origin (js_String (prop row "id")) (JBool true)) ;;; delete_rows rows (S deleted)
  end.
(** [for (;;)]: [None] when the fuel is used up. *)
Fixpoint empty_rounds (fuel deleted : nat) : M (option nat) :=
  match fuel with
  | O => hret None
  | S fuel =>
      l <== await (j <- fetchManifests origin (JStr "trash") (JNum 100) JUndef ;; v <- lift (getp j "messages") ;; Ret (to_list v)) ;;;
      match l with
      | [] => hret (Some deleted)
      | _ => deleted <== delete_rows l deleted ;;; empty_rounds fuel deleted
      end
  end.

Definition openEmptyTrashConfirm : M unit :=
  _ <== modify close_menu ;;;
  ask (Dialog "Empty Trash" "Permanently delete all messages in Trash? This cannot be undone." "Delete All" EmptyTrash).
Definition emptyTrash (fuel : nat) : M unit :=
  _ <== modify (set_confirmLoading true) ;;;
  hfinally
    (hcatch
       (n <== empty_rounds fuel 0 ;;;
        match n with
        | None => hret tt
        | Some deleted =>
            _ <== modify (set_messages (fun _ => [])) ;;;
            _ <== modify (set_selection (fun _ => emptyMailListSelection)) ;;;
            _ <== modify (set_toast (if deleted =? 0 then "Trash is already empty" else "Permanently deleted " +:+ count_text deleted "message") "ok") ;;;
            _ <== loadFolder "trash" ;;;
            _ <== modify loadFolderCounts ;;;
            modify (set_confirm None)
        end)
       (complain "Could not empty trash"))
    (set_confirmLoading false).

(** The dialog is confirmed, and closed. *)
Definition confirm (fuel : nat) (s0 : page) : M unit :=
  match onConfirm <$> confirmModal s0 with
  | Some (DeleteOne id) => executeDeleteMessage id true
  | Some (DeleteAll l) => deleteAll l
  | Some EmptyTrash => emptyTrash fuel
  | None => hret tt
  end.
Definition close_confirm (s : page) : page := if confirmLoading s then s else set_confirm None s.
End Handlers.

(** ** Every handler settles *)

Inductive action :=
| Delete (id : string)
| DeleteNow (id : string)
| MoveTo_ (id target : string)
| BulkMove (target : string)
| BulkTrash
| BulkDelete
| BulkRead
| AskEmptyTrash
| Confirm.
Definition perform (origin : string) (load_row : entry -> entry) (fuel : nat) (a : action) (s0 : page) : Handlers.M page unit :=
  match a with
  | Delete id => handleDeleteMessage origin s0 id
  | DeleteNow id => handleDeleteImmediately id
  | MoveTo_ id target => handleMoveMessage origin id target
  | BulkMove target => bulkMoveSelected origin s0 target
  | BulkTrash => bulkTrashSelected origin s0
  | BulkDelete => bulkPermDeleteSelected s0
  | BulkRead => bulkMarkReadSelected origin s0
  | AskEmptyTrash => openEmptyTrashConfirm
  | Confirm => confirm origin load_row fuel s0
  end.

Section Settle.
Variable origin : string.
Variable load_row : entry -> entry.
Variable s0 : page.

(** What is shown is as it was. *)
Definition as_before (s : page) : Prop := messages s = messages s0 /\ listSelection s = listSelection s0 /\ toast s = None.
Definition busy (c b : bool) (s : page) : Prop := confirmLoading s = c /\ bulkBusy s = b.
(** No error is shown, or nothing else has changed. *)
Definition settled (s : page) : Prop :=
  (forall m, toast s <> Some (m, "err")) \/ (messages s = messages s0 /\ listSelection s = listSelection s0).

Lemma triple_await_same {A} (P : page -> Prop) (p : prog A) : triple P (await p) P P.
Proof. by apply triple_await. Qed.
Lemma triple_each c b request l : triple (fun s => as_before s /\ busy c b s) (each request l) (fun s => as_before s /\ busy c b s) (fun s => as_before s /\ busy c b s).
Proof.
  induction l as [|id l IH]; cbn [each]; [apply triple_ret|]. eapply triple_bind; [apply triple_await_same|]. intros _. exact IH.
Qed.
Lemma triple_rows c b rows n : triple (fun s => as_before s /\ busy c b s) (delete_rows origin rows n) (fun s => as_before s /\ busy c b s) (fun s => as_before s /\ busy c b s).
Proof.
  revert n. induction rows as [|row rows IH]; intros n; cbn [delete_rows]; [apply triple_ret|]. destruct (_ || _); [apply IH|].
  eapply triple_bind; [apply triple_await_same|]. intros _. apply IH.
Qed.
Lemma triple_rounds c b fuel n : triple (fun s => as_before s /\ busy c b s) (empty_rounds origin fuel n) (fun s => as_before s /\ busy c b s) (fun s => as_before s /\ busy c b s).
Proof.
  revert n. induction fuel as [|fuel IH]; intros n; cbn [empty_rounds]; [apply triple_ret|].
  eapply triple_bind; [apply triple_await_same|]. intros [|row l]; [apply triple_ret|].
  eapply triple_bind; [apply triple_rows|]. intros m. apply IH.
Qed.
Lemma triple_complain c b failure :
  forall m, triple (fun s => as_before s /\ busy c b s) (complain failure m) (fun s => settled s /\ busy c b s) (fun _ => False).
Proof. intros m. apply triple_modify. intros s [(Hm & Hs & _) Hb]. split; [by right | done]. Qed.

(** The list is reloaded; the dialog and the toast stay. *)
Lemma triple_load c b target :
  triple (fun s => (forall m, toast s <> Some (m, "err")) /\ busy c b s) (loadFolder origin load_row target)
    (fun s => (forall m, toast s <> Some (m, "err")) /\ busy c b s) (fun _ => False).
Proof.
  unfold loadFolder. set (P := fun s : page => _ /\ _). eapply triple_bind; [apply (triple_modify P P); done|]. intros _.
  apply triple_finally with (Q := P) (E := fun _ => False); [|done|done].
  apply triple_catch with (E := P).
  - eapply triple_bind; [apply triple_await_same|]. intros l. eapply triple_bind; [apply (triple_modify P P); done|]. intros _.
    by apply triple_modify.
  - intros m. eapply triple_bind with (Q := P); [apply triple_modify; intros s Hs; by destruct (Loads.unavailable m)|].
    intros _. by apply triple_modify.
Qed.

(** A part that ends well with the list changed and a word about it. *)
Lemma triple_try c b (x : Handlers.M page unit) failure :
  triple (fun s => as_before s /\ busy c b s) x (fun s => (forall m, toast s <> Some (m, "err")) /\ busy c b s) (fun s => as_before s /\ busy c b s) ->
  triple (fun s => as_before s /\ busy c b s) (hcatch x (complain failure)) (fun s => settled s /\ busy c b s) (fun _ => False).
Proof.
  intros Hx. eapply triple_catch; [|apply triple_complain]. eapply triple_consequence; [exact Hx | done | | done].
  intros s [Ht Hb]. split; [by left | done].
Qed.

(** A change, a word about it, and what follows. *)
Lemma triple_done c b f t (k : Handlers.M page unit) E :
  (forall s, busy c b s -> busy c b (f s)) ->
  triple (fun s => (forall m, toast s <> Some (m, "err")) /\ busy c b s) k (fun s => (forall m, toast s <> Some (m, "err")) /\ busy c b s) E ->
  triple (fun s => as_before s /\ busy c b s) (_ <== modify f ;;; _ <== modify (set_toast t "ok") ;;; k)
    (fun s => (forall m, toast s <> Some (m, "err")) /\ busy c b s) E.
Proof.
  intros Hf Hk. apply triple_bind with (Q := busy c b); [apply triple_modify; intros s [_ Hb]; by apply Hf|]. intros _.
  eapply triple_bind; [|intros _; exact Hk]. by apply triple_modify.
Qed.
Lemma triple_counts c b E :
  triple (fun s => (forall m, toast s <> Some (m, "err")) /\ busy c b s) (modify loadFolderCounts) (fun s => (forall m, toast s <> Some (m, "err")) /\ busy c b s) E.
Proof. by apply triple_modify. Qed.

Lemma triple_then_close c b E :
  triple (fun s => (forall m, toast s <> Some (m, "err")) /\ busy c b s) (_ <== modify loadFolderCounts ;;; modify (set_confirm None))
    (fun s => (forall m, toast s <> Some (m, "err")) /\ busy c b s) E.
Proof. eapply triple_bind; [apply triple_counts|]. intros _. by apply triple_modify. Qed.

Lemma triple_bulk request l done_text failure :
  triple (fun s => as_before s /\ busy false false s) (bulk request l done_text failure) (fun s => settled s /\ busy false false s) (fun _ => False).
Proof.
  unfold bulk. apply triple_bind with (Q := fun s => as_before s /\ busy false true s).
  { apply triple_modify. intros s [Ha Hb]. by destruct Hb. }
  intros _. apply triple_bind with (Q := fun s => as_before s /\ busy false true s); [by apply triple_modify|]. intros _.
  eapply triple_finally; [apply triple_try| |].
  - eapply triple_bind; [apply triple_each|]. intros _. apply triple_done; [done | apply triple_counts].
  - intros s [Hs Hb]. by destruct Hb.
  - done.
Qed.

Lemma triple_loading (x : Handlers.M page unit) failure :
  triple (fun s => as_before s /\ busy true false s) x (fun s => (forall m, toast s <> Some (m, "err")) /\ busy true false s) (fun s => as_before s /\ busy true false s) ->
  triple (fun s => as_before s /\ busy false false s)
    (_ <== modify (set_confirmLoading true) ;;; hfinally (hcatch x (complain failure)) (set_confirmLoading false))
    (fun s => settled s /\ busy false false s) (fun _ => False).
Proof.
  intros Hx. apply triple_bind with (Q := fun s => as_before s /\ busy true false s).
  { apply triple_modify. intros s [Ha Hb]. by destruct Hb. }
  intros _. eapply triple_finally; [apply triple_try, Hx| |done]. intros s [Hs Hb]. by destruct Hb.
Qed.

Lemma triple_asks d :
  triple (fun s => as_before s /\ busy false false s) (_ <== modify close_menu ;;; ask d) (fun s => settled s /\ busy false false s) (fun _ => False).
Proof.
  apply triple_bind with (Q := fun s => as_before s /\ busy false false s); [by apply triple_modify|]. intros _.
  apply triple_modify. intros s [(Hm & Hs & Ht) Hb]. split; [by right | done].
Qed.
Lemma triple_nothing : triple (fun s => as_before s /\ busy false false s) (hret tt) (fun s => settled s /\ busy false false s) (fun _ => False).
Proof. eapply triple_consequence; [apply (triple_ret (fun s => as_before s /\ busy false false s) (fun _ => False)) | done | | done]. intros s [(Hm & Hs & Ht) Hb]. split; [by right | done]. Qed.

Lemma triple_perform fuel a :
  triple (fun s => as_before s /\ busy false false s) (perform origin load_row fuel a s0) (fun s => settled s /\ busy false false s) (fun _ => False).
Proof.
  destruct a; cbn [perform].
  - unfold handleDeleteMessage. destruct (id =s? ""); [apply triple_nothing|]. destruct (folder s0 =s? "trash"); [apply triple_asks|].
    apply triple_bind with (Q := fun s => as_before s /\ busy false false s); [by apply triple_modify|]. intros _. apply triple_try.
    eapply triple_bind; [apply triple_await_same|]. intros result. apply triple_done; [done | apply triple_counts].
  - unfold handleDeleteImmediately. destruct (id =s? ""); [apply triple_nothing | apply triple_asks].
  - unfold handleMoveMessage. destruct (_ || _); [apply triple_nothing|].
    apply triple_bind with (Q := fun s => as_before s /\ busy false false s); [by apply triple_modify|]. intros _. apply triple_try.
    eapply triple_bind; [apply triple_await_same|]. intros result. apply triple_done; [done | apply triple_counts].
  - unfold bulkMoveSelected. cbv zeta. destruct (_ || _); [apply triple_nothing | apply triple_bulk].
  - unfold bulkTrashSelected. cbv zeta. destruct (_ || _); [apply triple_nothing | apply triple_bulk].
  - unfold bulkPermDeleteSelected. cbv zeta. destruct (ids _); [apply triple_nothing | apply triple_asks].
  - unfold bulkMarkReadSelected. cbv zeta. destruct (unread_targets s0) as [|i l]; [apply triple_nothing|].
    apply triple_bind with (Q := fun s => as_before s /\ busy false true s).
    { apply triple_modify. intros s [Ha Hb]. by destruct Hb. }
    intros _. eapply triple_finally; [apply triple_try| |done].
    + eapply triple_bind; [apply triple_each|]. intros _. eapply triple_bind with (Q := busy false true); [by apply triple_modify; intros s [_ ?]|].
      intros _. by apply triple_modify.
    + intros s [Hs Hb]. by destruct Hb.
  - apply triple_asks.
  - unfold confirm. destruct (onConfirm <$> confirmModal s0) as [[id|l|]|]; [| | |apply triple_nothing].
    + apply triple_loading. eapply triple_bind; [apply triple_await_same|]. intros result. apply triple_done; [done | apply triple_then_close].
    + apply triple_loading. eapply triple_bind; [apply triple_each|]. intros _. apply triple_done; [done | apply triple_then_close].
    + apply triple_loading. eapply triple_bind; [apply triple_rounds|]. intros [n|].
      * apply triple_bind with (Q := fun s => toast s = None /\ busy true false s); [apply triple_modify; by intros s [(_ & _ & ?) ?]|]. intros _.
        apply triple_bind with (Q := fun s => toast s = None /\ busy true false s); [by apply triple_modify|]. intros _.
        apply triple_bind with (Q := fun s => (forall m, toast s <> Some (m, "err")) /\ busy true false s); [by apply triple_modify; intros s [_ ?]|]. intros _.
        apply triple_consequence with (P := fun s => (forall m, toast s <> Some (m, "err")) /\ busy true false s)
          (Q := fun s => (forall m, toast s <> Some (m, "err")) /\ busy true false s) (E := fun _ => False); [|done..]. eapply triple_bind; [apply triple_load|]. intros _. apply triple_then_close.
      * eapply triple_consequence; [apply (triple_ret (fun s => as_before s /\ busy true false s) (fun _ => False)) | done | | done]. intros s [(Hm & Hs & Ht) Hb]. split; [by rewrite Ht | done].
Qed.
End Settle.

(** The action empties the trash: its dialog is the one that is confirmed. *)
Definition empties_trash (a : action) (s0 : page) : bool :=
  match a, onConfirm <$> confirmModal s0 with Confirm, Some EmptyTrash => true | _, _ => false end.

(** The fuel is for the rounds of that action alone. *)
Lemma fuel_unused origin load_row fuel fuel' a s0 :
  empties_trash a s0 = false -> perform origin load_row fuel a s0 = perform origin load_row fuel' a s0.
Proof. destruct a; try done. unfold empties_trash. cbn [perform]. unfold confirm. by destruct (onConfirm <$> confirmModal s0) as [[]|]. Qed.

(** C20: every action of the page but the confirmed emptying of the trash settles (moving
    and deleting one message, the bulk actions, opening the dialogs and confirming the two
    other ones): whatever the server answers to its requests, the handler ends
    without an exception, the buttons work again, and when it reports an error the list and
    the selection are what they were.  It starts with no other action running and no toast. *)
Theorem actions_settle origin load_row fuel a s0 tr out :
  empties_trash a s0 = false ->
  confirmLoading s0 = false -> bulkBusy s0 = false -> toast s0 = None ->
  runs (perform origin load_row fuel a s0 s0) tr out ->
  exists s, out = Ok (s, Ok tt) /\ confirmLoading s = false /\ bulkBusy s = false /\
    (forall m, toast s = Some (m, "err") -> messages s = messages s0 /\ listSelection s = listSelection s0) /\
    forall fuel', runs (perform origin load_row fuel' a s0 s0) tr out.
Proof.
  intros He Hc Hb Ht Hr. destruct (triple_perform origin load_row s0 fuel a s0 tr out) as (s & r & -> & H); [by repeat split | exact Hr |].
  destruct r as [[]|m]; [|done]. destruct H as [Hs [H1 H2]]. exists s. split_and!; [done.. | |].
  - intros m Hm. destruct Hs as [Hs|Hs]; [|exact Hs]. by destruct (Hs m).
  - intros fuel'. by rewrite (fuel_unused origin load_row fuel' fuel).
Qed.

(** ** Against the server *)

Section Served.
Context `{uu : Uuid}.
Variable origin : string.
Local Abbreviation deletes p := (each (fun id => deleteMessage origin id (JBool p))).

Lemma run_each_delete p l sv s rest :
  NoDup l -> Forall known_id l -> Forall (fun i => folder_of i (mail sv) <> None) l -> answers (length l) sv rest ->
  exists sv', run (respond origin) sv (deletes p l s) = (sv', Ok (s, Ok tt)) /\ answers 0 sv' rest /\
    forall j, folder_of j (mail sv') = if str_mem j l then deletion p (folder_of j (mail sv)) else folder_of j (mail sv).
Proof.
  revert sv. induction l as [|i l IH]; intros sv Hd Hp Hf Ha; [by exists sv|].
  apply NoDup_cons in Hd as [Hi Hd]. apply Forall_cons in Hp as [Hpi Hp]. apply Forall_cons in Hf as [Hfi Hf]. cbn [length] in Ha.
  destruct (run_deletes_one origin sv p i rest (length l) Hpi Ha Hfi) as (sv1 & j & Hr & Ha1 & Hf1).
  destruct (IH sv1) as (sv2 & Hr2 & Ha2 & Hf2); [done | done | | done |].
  { rewrite Forall_forall in Hf |- *. intros k Hk. rewrite Hf1. destruct (String.eqb_spec k i) as [->|]; [done | by apply Hf]. }
  exists sv2. split_and!; [| done |].
  - cbn [each]. erewrite run_hbind by (apply run_await, Hr). exact Hr2.
  - intros k. rewrite Hf2, Hf1. change (str_mem k (i :: l)) with ((i =s? k) || str_mem k l). rewrite (String.eqb_sym i k). destruct (String.eqb_spec k i) as [->|Hk]; [|done]. cbn [orb].
    destruct (str_mem i l) eqn:E; [by apply str_mem_spec in E | done].
Qed.

Lemma run_each_app request l1 l2 sv s sv' :
  run (respond origin) sv (each request l1 s) = (sv', Ok (s, Ok tt)) ->
  run (respond origin) sv (each request (l1 ++ l2) s) = run (respond origin) sv' (each request l2 s).
Proof.
  revert sv. induction l1 as [|i l1 IH]; intros sv; cbn [app each]; [by intros [= ->]|]. unfold hbind, await.
  rewrite !run_bind, run_attempt. destruct (run (respond origin) sv (request i)) as [sv1 [j|m]]; [|done]. apply IH.
Qed.

(** A bulk action whose requests are all answered, and one that is stopped. *)
Lemma run_bulk request l t failure sv sv' s :
  run (respond origin) sv (each request l (close_menu (set_bulkBusy true s))) = (sv', Ok (close_menu (set_bulkBusy true s), Ok tt)) ->
  run (respond origin) sv (bulk request l t failure s) =
    (sv', Ok (set_bulkBusy false (loadFolderCounts (set_toast t "ok" (without l (close_menu (set_bulkBusy true s))))), Ok tt)).
Proof.
  intros Hr. unfold bulk. erewrite run_hbind by reflexivity. erewrite run_hbind by reflexivity. rewrite run_hfinally, run_hcatch.
  erewrite run_hbind by exact Hr. reflexivity.
Qed.
Lemma run_bulk_stopped request l t failure sv sv' s m : m <> "" ->
  run (respond origin) sv (each request l (close_menu (set_bulkBusy true s))) = (sv', Ok (close_menu (set_bulkBusy true s), Throw m)) ->
  run (respond origin) sv (bulk request l t failure s) = (sv', Ok (set_bulkBusy false (set_toast m "err" (close_menu (set_bulkBusy true s))), Ok tt)).
Proof.
  intros Hm Hr. unfold bulk. erewrite run_hbind by reflexivity. erewrite run_hbind by reflexivity. rewrite run_hfinally, run_hcatch.
  erewrite run_hbind_throw by exact Hr. cbn [complain modify run]. unfold str_or. by apply String.eqb_neq in Hm as ->.
Qed.

(** C19: moving to the trash, stopped and tried again, deletes for good: when the server
    refuses one of the requests, the messages before it are in the trash but still listed
    and selected; the same click then removes them from the server, and says that all were
    moved to the trash. *)
Theorem retried_trash_deletes_for_good sv s0 l1 x l2 :
  ids (listSelection s0) = l1 ++ x :: l2 -> (folder s0 =s? "trash") = false -> NoDup (l1 ++ x :: l2) ->
  Forall known_id (l1 ++ x :: l2) ->
  Forall (fun i => exists f, folder_of i (mail sv) = Some f /\ f <> "trash") (l1 ++ x :: l2) ->
  fates sv = repeat Answered (length l1) ++ [Refused] ->
  exists sv1 s1 sv2 s2,
    run (respond origin) sv (bulkTrashSelected origin s0 s0) = (sv1, Ok (s1, Ok tt)) /\
    toast s1 = Some ("internal error", "err") /\ listSelection s1 = listSelection s0 /\ (forall i, i ∈ l1 -> folder_of i (mail sv1) = Some "trash") /\
    run (respond origin) sv1 (bulkTrashSelected origin s1 s1) = (sv2, Ok (s2, Ok tt)) /\
    toast s2 = Some ("Moved " +:+ count_text (set_size (l1 ++ x :: l2)) "message" +:+ " to trash", "ok") /\
    (forall i, i ∈ l1 -> folder_of i (mail sv2) = None) /\ (forall i, i ∈ x :: l2 -> folder_of i (mail sv2) = Some "trash").
Proof.
  intros Hl Hf Hd Hp Hin Hfates.
  assert (forall s, listSelection s = listSelection s0 -> folder s = folder s0 ->
    bulkTrashSelected origin s s = bulk (fun id => deleteMessage origin id (JBool false)) (l1 ++ x :: l2)
      ("Moved " +:+ count_text (set_size (l1 ++ x :: l2)) "message" +:+ " to trash") "Move to trash failed" s) as Hb.
  { intros s Es Ef. unfold bulkTrashSelected. rewrite Es, Ef, Hl, Hf. by destruct l1. }
  pose proof Hin as Hin'. apply Forall_app in Hin as [Hin1 Hin2]. pose proof Hp as Hp'. apply Forall_app in Hp as [Hp1 Hp2].
  pose proof Hd as Hd'. apply NoDup_app in Hd as (Hd1 & Hx & Hd2).
  set (t0 := close_menu (set_bulkBusy true s0)).
  destruct (run_each_delete false l1 sv t0 [Refused]) as (sva & Hra & Haa & Hfa); [done | done | | by right |].
  { eapply Forall_impl; [exact Hin1|]. by intros i (f & -> & _). }
  destruct Haa as [[_ ?]|Haa]; [done|]. cbn [repeat app] in Haa.
  set (sv1 := with_fates [] sva).
  assert (run (respond origin) sva (deletes false (x :: l2) t0) = (sv1, Ok (t0, Throw "internal error"))) as Hrx.
  { cbn [each]. erewrite run_hbind_throw; [reflexivity|]. apply run_await_res. rewrite run_delete by (by apply Forall_cons in Hp2 as [? _]).
    unfold next. by rewrite Haa. }
  set (s1 := set_bulkBusy false (set_toast "internal error" "err" t0)).
  destruct (run_each_delete false (l1 ++ x :: l2) sv1 (close_menu (set_bulkBusy true s1)) []) as (sv2 & Hr2 & _ & Hf2); [done | done | | by left |].
  { change (mail sv1) with (mail sva). eapply Forall_impl; [exact Hin'|]. intros i (f & Hi & Hft) E. rewrite Hfa, Hi in E. destruct (str_mem i l1); [|done].
    apply String.eqb_neq in Hft. cbn in E. by rewrite Hft in E. }
  assert (forall i, i ∈ l1 -> folder_of i (mail sv1) = Some "trash") as Htr.
  { intros i Hi. change (mail sv1) with (mail sva). rewrite Hfa. pose proof (proj2 (str_mem_spec i l1) Hi) as ->.
    rewrite Forall_forall in Hin1. destruct (Hin1 i Hi) as (f & -> & Hft%String.eqb_neq). cbn. by rewrite Hft. }
  eexists sv1, s1, sv2, _. split_and!.
  - rewrite (Hb s0) by done. apply run_bulk_stopped; [done|]. rewrite (run_each_app _ _ _ _ _ sva); [exact Hrx | exact Hra].
  - done.
  - done.
  - exact Htr.
  - rewrite (Hb s1) by done. by apply run_bulk.
  - done.
  - intros i Hi. rewrite Hf2, (Htr i Hi). assert (str_mem i (l1 ++ x :: l2) = true) as ->; [|done]. apply str_mem_spec, elem_of_app. by left.
  - intros i Hi. rewrite Hf2. assert (str_mem i (l1 ++ x :: l2) = true) as -> by (apply str_mem_spec, elem_of_app; by right).
    change (mail sv1) with (mail sva). rewrite Hfa. destruct (str_mem i l1) eqn:E; [by destruct (Hx i); [apply str_mem_spec|]|].
    rewrite Forall_forall in Hin2. destruct (Hin2 i Hi) as (f & -> & Hft%String.eqb_neq). cbn. by rewrite Hft.
Qed.

(** *** Emptying the trash *)

Definition proper_mail (l : list stored) : Prop := NoDup (map s_id l) /\ Forall (fun m => known_id (s_id m) /\ s_id m <> "") l.
Definition not_among (l : list string) (mail : list stored) : list stored := List.filter (fun m => negb (str_mem (s_id m) l)) mail.
Definition outside (f : string) (mail : list stored) : list stored := List.filter (fun m => negb (s_folder m =s? f)) mail.

Lemma proper_filter p l : proper_mail l -> proper_mail (List.filter p l).
Proof.
  intros [Hd Hp]. split.
  - by apply NoDup_map_filter.
  - rewrite Forall_forall in *. intros m Hm%list_elem_of_In. apply filter_In in Hm as [Hm _]. apply Hp. by apply list_elem_of_In.
Qed.
Lemma not_among_cons i l mail : not_among (i :: l) mail = not_among l (forget i mail).
Proof.
  unfold not_among, forget. rewrite filter_filter_andb. apply filter_ext_in. intros m _.
  change (str_mem (s_id m) (i :: l)) with ((i =s? s_id m) || str_mem (s_id m) l). by rewrite negb_orb, String.eqb_sym.
Qed.
Lemma find_stored_some m l : m ∈ l -> find_stored (s_id m) l <> None.
Proof. intros Hm%list_elem_of_In Hn. unfold find_stored in Hn. eapply find_none in Hn; [|exact Hm]. by rewrite String.eqb_refl in Hn. Qed.

Lemma run_delete_rows ms sv s n : fates sv = [] -> Forall (fun m => known_id (s_id m) /\ s_id m <> "") ms -> NoDup (map s_id ms) -> ms ⊆ mail sv ->
  run (respond origin) sv (delete_rows origin (map row_json ms) n s) =
    (with_mail (not_among (map s_id ms) (mail sv)) sv, Ok (s, Ok (n + length ms))).
Proof.
  revert sv n. induction ms as [|m ms IH]; intros sv n Hf Hp Hd Hin.
  { cbn. rewrite Nat.add_0_r. unfold not_among. rewrite filter_all by done. by destruct sv. }
  apply Forall_cons in Hp as [[Hpm Hne%String.eqb_neq] Hp]. cbn [map] in Hd. apply NoDup_cons in Hd as [Hi Hd]. cbn [map delete_rows].
  change (truthy (row_json m)) with true. change (prop (row_json m) "id") with (JStr (s_id m)). cbn [truthy negb orb js_String]. rewrite Hne. cbn [negb].
  assert (find_stored (s_id m) (mail sv) <> None) as Hs by (apply find_stored_some, Hin; by left).
  assert (next sv = (Answered, sv)) as Hn by (unfold next; by rewrite Hf).
  destruct (find_stored (s_id m) (mail sv)) as [m'|] eqn:E; [|done].
  erewrite run_hbind by (apply run_await; rewrite run_delete, Hn by done; unfold deleted; rewrite E; reflexivity).
  rewrite IH; [|done|done|done|].
  - rewrite not_among_cons. cbn [length]. by rewrite Nat.add_succ_r.
  - intros x Hx. change (x ∈ forget (s_id m) (mail sv)). apply list_elem_of_In, filter_In. split; [apply list_elem_of_In, Hin; by right|].
    apply negb_true_iff, String.eqb_neq. intros Ex. apply Hi. rewrite <- Ex. by apply list_elem_of_fmap_2.
Qed.

(** A page of a folder is taken out: its rest stays, and so do the other folders. *)
Lemma in_folder_taken f n l : NoDup (map s_id l) -> let l' := not_among (map s_id (take n (in_folder f l))) l in
  in_folder f l' = drop n (in_folder f l) /\ outside f l' = outside f l.
Proof.
  intros Hd l'. set (ids := map s_id (take n (in_folder f l))) in l'.
  assert (forall m, m ∈ in_folder f l <-> m ∈ l /\ s_folder m = f) as Hin.
  { intros m. unfold in_folder. rewrite !list_elem_of_In, filter_In, String.eqb_eq. tauto. }
  assert (forall m, m ∈ l -> s_id m ∈ ids -> m ∈ take n (in_folder f l)) as Hids.
  { intros m Hm (x & Ex & Hx)%list_elem_of_fmap. assert (m = x) as ->; [|done]. assert (x ∈ l) as Hxl by (by apply elem_of_take_inv, Hin in Hx as [? _]).
    clear -Hd Hm Hxl Ex. induction l as [|y l IH]; [by apply elem_of_nil in Hm|]. cbn [map] in Hd. apply NoDup_cons in Hd as [Hy Hd].
    apply elem_of_cons in Hm as [->|Hm], Hxl as [->|Hxl]; [done | | | auto]; destruct Hy; [rewrite Ex | rewrite <- Ex]; by apply list_elem_of_fmap_2. }
  split.
  - subst l'. unfold not_among, in_folder at 1. rewrite filter_filter_andb.
    transitivity (List.filter (fun m => negb (str_mem (s_id m) ids)) (in_folder f l)).
    { unfold in_folder. rewrite filter_filter_andb. apply filter_ext_in. intros m _. by rewrite andb_comm. }
    assert (NoDup (map s_id (in_folder f l))) as Hdf by (by apply NoDup_map_filter). subst ids. revert Hdf. generalize (in_folder f l) as k. clear. intros k Hd.
    transitivity (List.filter (fun m => negb (str_mem (s_id m) (map s_id (take n k)))) (take n k ++ drop n k)); [by rewrite take_drop|].
    rewrite List.filter_app, filter_none, filter_all; [done | |].
    + intros m Hm. apply negb_true_iff, not_true_iff_false. intros (x & Ex & Hx)%str_mem_spec%list_elem_of_fmap.
      rewrite <- (take_drop n k), map_app in Hd. apply NoDup_app in Hd as (_ & Hd & _). apply (Hd (s_id m)); [rewrite Ex|]; by apply list_elem_of_fmap_2.
    + intros m Hm. apply negb_false_iff, str_mem_spec. by apply list_elem_of_fmap_2.
  - subst l'. unfold not_among, outside. rewrite filter_filter_andb. apply filter_ext_in. intros m Hm%list_elem_of_In.
    destruct (String.eqb_spec (s_folder m) f) as [|Hf]; [by rewrite andb_false_r|]. rewrite andb_true_r. apply negb_true_iff, not_true_iff_false.
    intros Hx%str_mem_spec. by apply Hids, elem_of_take_inv, Hin in Hx as [_ ?].
Qed.

Lemma in_folder_spec f l m : m ∈ in_folder f l <-> m ∈ l /\ s_folder m = f.
Proof. unfold in_folder. rewrite !list_elem_of_In, filter_In, String.eqb_eq. tauto. Qed.
Lemma outside_all f l : in_folder f l = [] -> outside f l = l.
Proof.
  intros Hn. apply filter_all. intros m Hm. apply negb_true_iff, String.eqb_neq. intros Hf.
  assert (m ∈ in_folder f l) as Hi by (by apply in_folder_spec). rewrite Hn in Hi. by apply elem_of_nil in Hi.
Qed.

Lemma run_page sv (s : page) (limit : jsval) n : (limit, n) ∈ [(JNum 100, 100); (JUndef, 50)] -> fates sv = [] ->
  run (respond origin) sv (await (j <- fetchManifests origin (JStr "trash") limit JUndef ;; v <- lift (getp j "messages") ;; Ret (to_list v)) s) =
    (sv, Ok (s, Ok (map row_json (take n (in_folder "trash" (mail sv)))))).
Proof.
  intros Hl Hf. apply run_await. rewrite run_bind, (run_list_trash origin sv limit n Hl). unfold next. rewrite Hf. reflexivity.
Qed.

Lemma rounds_S fuel n :
  empty_rounds origin (S fuel) n =
    (l <== await (j <- fetchManifests origin (JStr "trash") (JNum 100) JUndef ;; v <- lift (getp j "messages") ;; Ret (to_list v)) ;;;
     match l with [] => hret (Some n) | _ => deleted <== delete_rows origin l n ;;; empty_rounds origin fuel deleted end).
Proof. reflexivity. Qed.

Lemma run_rounds fuel sv (s : page) n : fates sv = [] -> proper_mail (mail sv) -> length (in_folder "trash" (mail sv)) <= 100 * fuel ->
  run (respond origin) sv (empty_rounds origin (S fuel) n s) =
    (with_mail (outside "trash" (mail sv)) sv, Ok (s, Ok (Some (n + length (in_folder "trash" (mail sv)))))).
Proof.
  revert sv n. induction fuel as [|fuel IH]; intros sv n Hf Hp Hl; rewrite rounds_S;
    (erewrite run_hbind by (apply (run_page sv s (JNum 100) 100); [by left | done]));
    destruct (in_folder "trash" (mail sv)) as [|m ms] eqn:E; try (cbn in Hl; lia);
    try (cbn [take map length]; rewrite Nat.add_0_r, outside_all by done; by destruct sv).
  set (first := take 100 (m :: ms)). assert (exists r rs, map row_json first = r :: rs) as (r & rs & Er) by (by eexists _, _).
  rewrite Er. cbv beta iota. rewrite <- Er.
  assert (first ⊆ mail sv) as Hsub by (intros x Hx; apply (in_folder_spec "trash"); rewrite E; by apply elem_of_take_inv in Hx).
  assert (NoDup (map s_id first)) as Hnd.
  { subst first. rewrite <- E, <- firstn_map. eapply sublist_NoDup; [apply (NoDup_map_filter s_id (fun m => s_folder m =s? "trash") (mail sv)), Hp | apply sublist_take]. }
  destruct (in_folder_taken "trash" 100 (mail sv) (proj1 Hp)) as [Ht Ho]. rewrite E in Ht, Ho. fold first in Ht, Ho.
  erewrite run_hbind; [|apply run_delete_rows; [done | | exact Hnd | exact Hsub]].
  2:{ destruct Hp as [_ Hp]. rewrite Forall_forall in Hp |- *. intros x Hx. by apply Hp, Hsub. }
  set (sv' := with_mail _ sv). assert (in_folder "trash" (mail sv') = drop 100 (m :: ms)) as Ht' by exact Ht.
  rewrite IH; [| done | by apply proper_filter |].
  - rewrite Ht'. change (outside "trash" (mail sv')) with (outside "trash" (not_among (map s_id first) (mail sv))). rewrite Ho. do 5 f_equal.
    subst first. rewrite <- (take_drop 100 (m :: ms)) at 3. rewrite length_app. lia.
  - rewrite Ht', length_drop. lia.
Qed.

Variable load_row : entry -> entry.

Lemma run_load_empty sv s : fates sv = [] -> in_folder "trash" (mail sv) = [] ->
  run (respond origin) sv (loadFolder origin load_row "trash" s) =
    (sv, Ok (set_loading false true (set_messages (fun _ => []) s), Ok tt)).
Proof.
  intros Hf Ht. unfold loadFolder. erewrite run_hbind by reflexivity. rewrite run_hfinally, run_hcatch.
  erewrite run_hbind by (apply (run_page sv _ JUndef 50); [right; by left | done]). rewrite Ht. reflexivity.
Qed.

(** C21: emptying the trash ends: when the server carries out what it is asked, some rounds of
    a hundred messages leave nothing in the trash and everything else in place, the list and
    the selection are empty, and the number of messages is reported. *)
Theorem empty_trash_ends fuel sv s : fates sv = [] -> proper_mail (mail sv) -> length (in_folder "trash" (mail sv)) <= 100 * fuel ->
  let n := length (in_folder "trash" (mail sv)) in
  exists s', run (respond origin) sv (emptyTrash origin load_row (S fuel) s) = (with_mail (outside "trash" (mail sv)) sv, Ok (s', Ok tt)) /\
    messages s' = [] /\ listSelection s' = emptyMailListSelection /\ confirmModal s' = None /\ confirmLoading s' = false /\
    toast s' = Some (if n =? 0 then "Trash is already empty" else "Permanently deleted " +:+ count_text n "message", "ok").
Proof.
  intros Hf Hp Hl n. eexists. split.
  - unfold emptyTrash. erewrite run_hbind by reflexivity. rewrite run_hfinally, run_hcatch.
    erewrite run_hbind by (by apply run_rounds). cbn iota.
    erewrite run_hbind by reflexivity. erewrite run_hbind by reflexivity. erewrite run_hbind by reflexivity.
    erewrite run_hbind by (apply run_load_empty; [done|]; apply filter_none; intros m Hm;
      apply list_elem_of_In, filter_In in Hm as [_ Hm]; by destruct (s_folder m =s? "trash")).
    erewrite run_hbind by reflexivity. reflexivity.
  - by split_and!.
Qed.

(** With a row that has no id the rounds do not end, whatever the fuel. *)
Lemma nameless_row_never_ends {T} (srv : T -> request -> T * option response) st row s fuel n :
  truthy (prop row "id") = false ->
  srv st (call_query origin GET (API +:+ "/messages") (search_params [("folder", "trash"); ("limit", "100")])) =
    (st, Some (MailServer.answer 200 (JObj [("messages", JArr [row])]))) ->
  run srv st (empty_rounds origin fuel n s) = (st, Ok (s, Ok None)).
Proof.
  intros Hr Hs. revert n. induction fuel as [|fuel IH]; intros n; [done|]. rewrite rounds_S.
  erewrite run_hbind; [|apply run_await; unfold fetchManifests, Http.send; cbn [bind run truthy app]; change (js_String _) with "trash" at 1;
    change (js_String (default_to (JNum 100) (JNum 50))) with "100"; rewrite Hs; reflexivity].
  change (to_list (field "messages" [("messages", JArr [row])])) with [row]. cbv beta iota. erewrite run_hbind; [apply IH|]. cbn [delete_rows]. rewrite Hr. cbn [negb]. rewrite orb_true_r. reflexivity.
Qed.
End Served.

(** ** Witnesses *)

Section Samples.
Definition sample_origin : string := "https://elvish.example".
#[local] Instance sample_uuid : Uuid := {| uuid_parse s := if s =s? "" then None else Some (to_lower s) |}.
Definition sample_stored (i folder : string) (b : bool) : stored := Stored i folder "b" 9 "" "already_encrypted" "smtp" false "2026-01-01T00:00:00Z" [] b.
Definition sample_entry (i : string) (b : bool) : entry := entry_of (row_json (sample_stored i "inbox" b)).
Definition sample_page : page :=
  Page "inbox" [sample_entry "m1" false; sample_entry "m2" true; sample_entry "m3" false] (Selection ["m1"; "m2"] (Some "m1") (Some "m2"))
    None None false false false false true 0.
Definition sample_trash : server := Server [sample_stored "m1" "inbox" false; sample_stored "m2" "trash" true; sample_stored "m3" "trash" false] [] "now" [].
Definition sample_server (l : list fate) : server := Server [sample_stored "m1" "inbox" false; sample_stored "m2" "inbox" true; sample_stored "m3" "trash" false] [] "now" l.

Lemma actions_settle_witness : exists tr s,
  runs (perform sample_origin (fun e => e) 2 (BulkMove "archive") sample_page sample_page) tr (Ok (s, Ok tt)) /\
  toast s = Some ("internal error", "err") /\ bulkBusy s = false /\ messages s = messages sample_page.
Proof.
  pose (p := perform sample_origin (fun e => e) 2 (BulkMove "archive") sample_page sample_page).
  destruct (run_runs (respond sample_origin) p (sample_server [Answered; Refused])) as [tr Hr].
  destruct (actions_settle sample_origin (fun e => e) 2 (BulkMove "archive") sample_page tr _ eq_refl eq_refl eq_refl eq_refl Hr) as (s & Hs & _ & Hb & He & _).
  assert (toast s = Some ("internal error", "err")) as Ht.
  { pose proof (f_equal (fun r => match r with Ok (s, _) => toast s | Throw _ => None end) Hs) as E. vm_compute in E. exact (eq_sym E). }
  exists tr, s. split; [by rewrite Hs in Hr|]. split; [exact Ht|]. split; [exact Hb|]. by apply (He "internal error").
Defined.

Lemma retried_trash_deletes_for_good_witness : exists sv1 s1 sv2 s2,
  run (respond sample_origin) (sample_server [Answered; Refused]) (bulkTrashSelected sample_origin sample_page sample_page) = (sv1, Ok (s1, Ok tt)) /\
  run (respond sample_origin) sv1 (bulkTrashSelected sample_origin s1 s1) = (sv2, Ok (s2, Ok tt)) /\
  folder_of "m1" (mail sv2) = None /\ toast s2 = Some ("Moved 2 messages to trash", "ok").
Proof.
  destruct (retried_trash_deletes_for_good sample_origin (sample_server [Answered; Refused]) sample_page ["m1"] "m2" [])
    as (sv1 & s1 & sv2 & s2 & H1 & _ & _ & _ & H2 & Ht & Hg & _); try reflexivity.
  - compute_done.
  - repeat constructor.
  - repeat constructor; exists "inbox"; by split.
  - exists sv1, s1, sv2, s2. split; [exact H1|]. split; [exact H2|]. split; [apply Hg; by left | exact Ht].
Defined.

Lemma empty_trash_ends_witness : exists s,
  run (respond sample_origin) sample_trash (emptyTrash sample_origin (fun e => e) 2 sample_page) = (Server [sample_stored "m1" "inbox" false] [] "now" [], Ok (s, Ok tt)) /\
  toast s = Some ("Permanently deleted 2 messages", "ok").
Proof.
  destruct (empty_trash_ends sample_origin (fun e => e) 1 sample_trash sample_page) as (s & Hr & _ & _ & _ & _ & Ht).
  - reflexivity.
  - split; [compute_done|]. repeat constructor; by intros [=].
  - vm_compute. lia.
  - exists s. split; [exact Hr | exact Ht].
Defined.
End Samples.
