(* ===== verification/SettingsServer.v ===== *)
(** * The settings the server keeps ([api_mail.go], [account_delete.go], [mailmeta/retention.go])

    The definition the settings pages are proved against: the mail settings of one user, the
    days each folder is kept, and when an inactive account is deleted, with the four requests
    that read and change them. As in [MailServer] a request is answered, refused because the
    store is broken, or carried out with its answer lost. The order of the fields of an answer
    is not the source's, which sorts them; no client looks at it. *)
From Stdlib Require Import ZArith Lia Ascii.
From stdpp Require Import strings list.
From S2P Require Import Prelude JsString JsValue Base64 Text Json Split FilterEngine Http Handlers Manifest MailServer.
Local Open Scope nat_scope.

Record account := Account {
  auto_encrypt_inbound : bool;
  wkd_publish : bool;
  attach_public_key_default : bool;
  keyvault_idle_min : Z;
  setup_completed_at : option string;
  retention : list (string * option Z);         (** rows: a folder, and its days *)
  inactive_value : Z;
  inactive_unit : string;
  last_activity_day : string;
  scheduled_delete_at : string;
  scheduled_delete_reason : string;
  now : string;
  fates : list fate;
}.
Definition with_settings (auto wkd attach : bool) (idle : Z) (setup : option string) (a : account) : account :=
  Account auto wkd attach idle setup (retention a) (inactive_value a) (inactive_unit a) (last_activity_day a) (scheduled_delete_at a)
    (scheduled_delete_reason a) (now a) (fates a).
Definition with_retention (rows : list (string * option Z)) (a : account) : account :=
  Account (auto_encrypt_inbound a) (wkd_publish a) (attach_public_key_default a) (keyvault_idle_min a) (setup_completed_at a) rows (inactive_value a)
    (inactive_unit a) (last_activity_day a) (scheduled_delete_at a) (scheduled_delete_reason a) (now a) (fates a).
Definition with_policy (value : Z) (unit_ : string) (a : account) : account :=
  Account (auto_encrypt_inbound a) (wkd_publish a) (attach_public_key_default a) (keyvault_idle_min a) (setup_completed_at a) (retention a) value unit_
    (last_activity_day a) (scheduled_delete_at a) (scheduled_delete_reason a) (now a) (fates a).
Definition with_rest (l : list fate) (a : account) : account :=
  Account (auto_encrypt_inbound a) (wkd_publish a) (attach_public_key_default a) (keyvault_idle_min a) (setup_completed_at a) (retention a)
    (inactive_value a) (inactive_unit a) (last_activity_day a) (scheduled_delete_at a) (scheduled_delete_reason a) (now a) l.

(** Columns of type [INT], and Go's [int]. *)
Definition int4 (n : Z) : bool := (-2147483648 <=? n)%Z && (n <=? 2147483647)%Z.
Definition int8 (n : Z) : bool := (-9223372036854775808 <=? n)%Z && (n <=? 9223372036854775807)%Z.

(** ** Retention *)

Definition DefaultFolderRetention : list (string * option Z) := [("inbox", None); ("sent", Some 30%Z); ("trash", Some 30%Z); ("archive", None)].

Fixpoint row_of (folder : string) (rows : list (string * option Z)) : option (option Z) :=
  match rows with [] => None | (f, d) :: rows => if f =s? folder then Some d else row_of folder rows end.
Fixpoint upsert {A} (k : string) (v : A) (l : list (string * A)) : list (string * A) :=
  match l with [] => [(k, v)] | (k', v') :: l => if k' =s? k then (k, v) :: l else (k', v') :: upsert k v l end.
(** [EnsureDefaultFolderRetention]: [ON CONFLICT DO NOTHING]. *)
Definition ensure_row (rows : list (string * option Z)) (p : string * option Z) : list (string * option Z) :=
  match row_of p.1 rows with Some _ => rows | None => rows ++ [p] end.
Definition EnsureDefaultFolderRetention (rows : list (string * option Z)) : list (string * option Z) := fold_left ensure_row DefaultFolderRetention rows.

Definition normalizeFolderName (name : string) : string := stake 50 (trim (to_lower name)).
(** One transaction: [None] changes nothing. Go visits a map in no fixed order, which matters
    only where two names are normalized to one. *)
Fixpoint SetFolderRetention (l : list (string * option Z)) (rows : list (string * option Z)) : option (list (string * option Z)) :=
  match l with
  | [] => Some rows
  | (folder, days) :: l =>
      let name := normalizeFolderName folder in
      if name =s? "" then None
      else if (match days with Some n => (n <=? 0)%Z || negb (int4 n) | None => false end) then None
      else SetFolderRetention l (upsert name days rows)
  end.

(** ** The mail settings *)

Definition opt_json {A} (f : A -> jsval) (o : option A) : jsval := match o with Some a => f a | None => JNull end.
Definition settings_json (a : account) : jsval :=
  JObj [("settings", JObj [("auto_encrypt_inbound", JBool (auto_encrypt_inbound a)); ("wkd_publish", JBool (wkd_publish a));
                           ("attach_public_key_default", JBool (attach_public_key_default a)); ("keyvault_idle_min", JNum (keyvault_idle_min a));
                           ("retention_setup_completed", JBool (bool_decide (setup_completed_at a <> None)));
                           ("retention_setup_completed_at", opt_json JStr (setup_completed_at a))]);
        ("retention_days", JObj (map (fun p => (p.1, opt_json JNum p.2)) (retention a)))].
(** [GetFolderRetention] writes the rows that are missing. *)
Definition apiMailSettingsGet (a : account) : account * response :=
  let a := with_retention (EnsureDefaultFolderRetention (retention a)) a in (a, answer 200 (settings_json a)).

(** [mailSettingsBody] *)
Record settings_body := SettingsBody {
  b_auto : option bool;
  b_wkd : option bool;
  b_attach : option bool;
  b_idle : option Z;
  b_setup : option bool;
  b_retention : option (list (string * option Z));
}.
Definition read_int (v : jsval) : option (option Z) :=
  match v with JNum z => if int8 z then Some (Some z) else None | JNull | JUndef => Some None | _ => None end.
Fixpoint read_days (l : list (string * jsval)) (acc : list (string * option Z)) : option (list (string * option Z)) :=
  match l with [] => Some acc | (k, v) :: l => d ← read_int v; read_days l (upsert k d acc) end.
Definition read_map (v : jsval) : option (option (list (string * option Z))) :=
  match v with JObj l => Some <$> read_days l [] | JNull | JUndef => Some None | _ => None end.
Definition body_fields (body : jsval) : option (list (string * jsval)) := match body with JObj l => Some l | JNull => Some [] | _ => None end.
Definition settings_body_of (body : jsval) : option settings_body :=
  l ← body_fields body;
  auto ← read_bool (last_field "auto_encrypt_inbound" l JUndef);
  wkd ← read_bool (last_field "wkd_publish" l JUndef);
  attach ← read_bool (last_field "attach_public_key_default" l JUndef);
  idle ← read_int (last_field "keyvault_idle_min" l JUndef);
  setup ← read_bool (last_field "retention_setup_completed" l JUndef);
  days ← read_map (last_field "retention_days" l JUndef);
  Some (SettingsBody auto wkd attach idle setup days).

Definition apply_settings (b : settings_body) (a : account) : account :=
  with_settings (default (auto_encrypt_inbound a) (b_auto b)) (default (wkd_publish a) (b_wkd b)) (default (attach_public_key_default a) (b_attach b))
    (match b_idle b with Some n => if (0 <? n)%Z then n else keyvault_idle_min a | None => keyvault_idle_min a end)
    (match b_setup b with Some true => Some (now a) | Some false => None | None => setup_completed_at a end) a.
Definition internal_error : response := refusal 500 "internal error".
(** The settings are stored before the days. *)
Definition apiMailSettingsPost (body : option jsval) (a : account) : account * response :=
  match body ≫= settings_body_of with
  | None => (a, refusal 400 "invalid json")
  | Some b =>
      let a' := apply_settings b a in
      if negb (int4 (keyvault_idle_min a')) then (a, internal_error)
      else
        match b_retention b with
        | None => apiMailSettingsGet a'
        | Some l =>
            match SetFolderRetention l (retention a') with
            | None => (a', internal_error)
            | Some rows => apiMailSettingsGet (with_retention rows a')
            end
        end
  end.

(** ** Deletion of an inactive account *)

Definition normalizeInactivityDeleteUnit (u : string) : option string :=
  let u := to_lower (trim u) in if str_mem u [""; "days"; "weeks"; "months"] then Some u else None.
Definition SetUserInactivityDeletion (value : Z) (u : string) (a : account) : option account :=
  if (value <? 0)%Z then None
  else
    u ← normalizeInactivityDeleteUnit u;
    if (value =? 0)%Z || (u =s? "") then Some (with_policy 0 "" a) else if int4 value then Some (with_policy value u a) else None.

Definition writeDeletePolicyJSON (a : account) : response :=
  answer 200 (JObj [("policy", JObj [("enabled", JBool ((0 <? inactive_value a)%Z && negb (trim (inactive_unit a) =s? ""))); ("value", JNum (inactive_value a));
                                     ("unit", JStr (inactive_unit a))]);
                    ("last_activity_day", JStr (last_activity_day a)); ("scheduled_delete_at", JStr (scheduled_delete_at a));
                    ("scheduled_delete_reason", JStr (scheduled_delete_reason a))]).
Definition apiAccountDeletePolicyGet (a : account) : account * response := (a, writeDeletePolicyJSON a).

(** [accountDeletePolicyBody] *)
Record policy_body := PolicyBody { b_enabled : option bool; b_value : option Z; b_unit : string }.
Definition policy_body_of (body : jsval) : option policy_body :=
  l ← body_fields body;
  e ← read_bool (last_field "enabled" l JUndef);
  v ← read_int (last_field "value" l JUndef);
  u ← read_string (last_field "unit" l JUndef);
  Some (PolicyBody e v (default "" u)).
Definition apiAccountDeletePolicyPut (body : option jsval) (a : account) : account * response :=
  match body ≫= policy_body_of with
  | None => (a, refusal 400 "invalid json")
  | Some b =>
      let enabled := default false (b_enabled b) in
      let value := if enabled then default 0%Z (b_value b) else 0%Z in
      if enabled && (value <=? 0)%Z then (a, refusal 400 "value must be greater than zero when enabled")
      else
        match SetUserInactivityDeletion value (if enabled then trim (b_unit b) else "") a with
        | None => (a, internal_error)
        | Some a => (a, writeDeletePolicyJSON a)
        end
  end.

(** ** Requests *)

Section Serve.
Variable origin : string.

(** The routes of the settings; what else could be asked for is not found here. *)
Definition serve (a : account) (rq : request) : account * response :=
  match address origin rq with
  | (root :: "api" :: "v1" :: rest, _) =>
      let body := rq_body rq ≫= parse in
      match rest, rq_method rq with
      | ["mail"; "settings"], GET => apiMailSettingsGet a
      | ["mail"; "settings"], POST | ["mail"; "settings"], PUT => apiMailSettingsPost body a
      | ["account"; "delete-policy"], GET => apiAccountDeletePolicyGet a
      | ["account"; "delete-policy"], PUT => apiAccountDeletePolicyPut body a
      | _, _ => (a, not_found)
      end
  | _ => (a, not_found)
  end.
Definition settings_respond (a : account) (rq : request) : account * option response :=
  match fates a with
  | Refused :: rest => (with_rest rest a, Some internal_error)
  | Lost :: rest => let '(a, _) := serve (with_rest rest a) rq in (a, None)
  | Answered :: rest => let '(a, r) := serve (with_rest rest a) rq in (a, Some r)
  | [] => let '(a, r) := serve a rq in (a, Some r)
  end.

(** ** The client against the server *)

Definition next_fate (a : account) : fate * account := match fates a with [] => (Answered, a) | f :: rest => (f, with_rest rest a) end.

(** A request that comes to [h]: the account after it, and what the client reads. *)
Definition outcome (p : account -> account * response) (read : response -> prog jsval) (a : account) : account * res jsval :=
  match next_fate a with
  | (Answered, a) => let '(a, r) := p a in (a, (run (fun st rq => (st, None)) tt (read r)).2)
  | (Refused, a) => (a, (run (fun st rq => (st, None)) tt (read internal_error)).2)
  | (Lost, a) => ((p a).1, Throw "Failed to fetch")
  end.

(** The readers of the API client make no request. *)
Definition pure (read : response -> prog jsval) : Prop := forall (a : account) r, run settings_respond a (read r) = (a, (run (fun st rq => (st, None)) tt (read r)).2).
Lemma pure_expect label : pure (expect label).
Proof. intros a r. unfold expect, json. destruct (rp_ok r); [|done]. by destruct (rp_json r). Qed.
Lemma pure_throw a err label (r : response) :
  run settings_respond a (throw_error err label r : prog jsval) = (a, (run (fun st rq => (st, None)) tt (throw_error err label r : prog jsval)).2).
Proof. unfold throw_error. by destruct (getp err "error"). Qed.
Lemma pure_expect_or_error label : pure (expect_or_error label).
Proof. intros a r. unfold expect_or_error, json. destruct (rp_ok r); [by destruct (rp_json r) | apply pure_throw]. Qed.
Lemma pure_body_or_error label : pure (body_or_error label).
Proof. intros a r. unfold body_or_error. destruct (rp_ok r); [done | apply pure_throw]. Qed.

Lemma run_exchange rq p read a : pure read -> (forall a, serve a rq = p a) ->
  run settings_respond a (r <- Http.send rq ;; read r) = outcome p read a.
Proof.
  intros Hr Hp. unfold Http.send, outcome, next_fate. cbn [bind run]. unfold settings_respond at 1. destruct (fates a) as [|[] rest]; rewrite ?Hp; try apply Hr; try done;
    match goal with |- context [p ?x] => destruct (p x) as [a' r] end; first [apply Hr | done].
Qed.

Lemma serve_call m path a : (m = GET /\ path = API +:+ "/settings") \/ (m = GET /\ path = "/api/v1/account/delete-policy") ->
  serve a (call origin m path) = (if path =s? API +:+ "/settings" then apiMailSettingsGet a else apiAccountDeletePolicyGet a).
Proof. intros [[-> ->]|[-> ->]]; unfold serve, address, call; cbn [rq_url]; unfold resolve; rewrite sdrop_app; reflexivity. Qed.

Lemma run_getMailSettings a : run settings_respond a (getMailSettings origin) = outcome apiMailSettingsGet (expect "mail settings") a.
Proof. apply run_exchange; [apply pure_expect|]. intros b. rewrite serve_call by (by left). reflexivity. Qed.
Lemma run_getDeletePolicy a : run settings_respond a (getDeletePolicy origin) = outcome apiAccountDeletePolicyGet (body_or_error "delete policy") a.
Proof. apply run_exchange; [apply pure_body_or_error|]. intros b. rewrite serve_call by (by right). reflexivity. Qed.

Lemma body_reads body : printable body = true -> body <> JUndef -> json_body body ≫= parse = Some body.
Proof. intros Hp Hb. assert (json_body body = Some (stringify body)) as -> by (by destruct body). cbn [mbind option_bind]. by apply parse_stringify. Qed.
Lemma run_setMailSettings a body : printable body = true -> body <> JUndef ->
  run settings_respond a (setMailSettings origin body) = outcome (apiMailSettingsPost (Some body)) (expect_or_error "mail settings save") a.
Proof.
  intros Hp Hb. apply run_exchange; [apply pure_expect_or_error|]. intros b. unfold serve, address, call_json. cbn [rq_url]. unfold resolve. rewrite sdrop_app.
  rewrite <- (body_reads body) by done. reflexivity.
Qed.
Lemma run_setDeletePolicy a body : printable body = true -> body <> JUndef ->
  run settings_respond a (setDeletePolicy origin body) = outcome (apiAccountDeletePolicyPut (Some body)) (body_or_error "delete policy save") a.
Proof.
  intros Hp Hb. apply run_exchange; [apply pure_body_or_error|]. intros b. unfold serve, address, call_json. cbn [rq_url]. unfold resolve. rewrite sdrop_app.
  rewrite <- (body_reads body) by done. reflexivity.
Qed.
End Serve.

(** ** Fates *)

Lemma get_fates a : SettingsServer.fates (apiMailSettingsGet a).1 = SettingsServer.fates a.
Proof. done. Qed.
Lemma post_fates body a : SettingsServer.fates (apiMailSettingsPost body a).1 = SettingsServer.fates a.
Proof.
  unfold apiMailSettingsPost. destruct (body ≫= settings_body_of) as [b|]; [|done]. destruct (negb _); [done|]. destruct (b_retention b) as [l|]; [|done].
  by destruct (SetFolderRetention _ _).
Qed.
Lemma put_fates body a : SettingsServer.fates (apiAccountDeletePolicyPut body a).1 = SettingsServer.fates a.
Proof.
  unfold apiAccountDeletePolicyPut. destruct (body ≫= policy_body_of) as [b|]; [|done]. destruct (_ && _); [done|].
  unfold SetUserInactivityDeletion. destruct (_ <? 0)%Z; [done|]. destruct (normalizeInactivityDeleteUnit _) as [u|]; [|done]. cbn [option_bind mbind].
  destruct (_ || _); [done|]. by destruct (int4 _).
Qed.
Lemma next_fates a : SettingsServer.fates (next_fate a).2 = tail (SettingsServer.fates a).
Proof. unfold next_fate. by destruct (SettingsServer.fates a) eqn:E. Qed.

(** The account once its next fate is taken, and what it comes to. *)
Lemma outcome_ok p read a a' j : outcome p read a = (a', Ok j) -> (run (fun st rq => (st, None)) tt (read internal_error)).2 <> Ok j ->
  exists r, p (next_fate a).2 = (a', r) /\ (run (fun st rq => (st, None)) tt (read r)).2 = Ok j.
Proof.
  unfold outcome. destruct (next_fate a) as [[] b]; cbn [snd].
  - destruct (p b) as [b' r] eqn:E. intros [= <- Hr] _. by exists r.
  - by intros [= _ ->].
  - done.
Qed.
Lemma outcome_fates p read a : (forall b, SettingsServer.fates (p b).1 = SettingsServer.fates b) ->
  SettingsServer.fates (outcome p read a).1 = tail (SettingsServer.fates a).
Proof.
  intros Hp. rewrite <- next_fates. unfold outcome. destruct (next_fate a) as [[] b]; cbn [snd]; [|done|apply Hp]. pose proof (Hp b). by destruct (p b).
Qed.
Lemma outcome_answered p read a : SettingsServer.fates a = [] -> outcome p read a = ((p a).1, (run (fun st rq => (st, None)) tt (read (p a).2)).2).
Proof. intros Hf. unfold outcome, next_fate. rewrite Hf. by destruct (p a). Qed.

(** ** Rows *)

Lemma row_upsert f k d rows : row_of f (upsert k d rows) = if k =s? f then Some d else row_of f rows.
Proof.
  induction rows as [|[k' d'] rows IH]; cbn [upsert row_of]; [done|]. destruct (String.eqb_spec k' k) as [->|Hk]; cbn [row_of].
  - by destruct (k =s? f).
  - rewrite IH. destruct (String.eqb_spec k' f) as [->|]; [|done]. rewrite String.eqb_sym. by apply String.eqb_neq in Hk as ->.
Qed.
Lemma row_app f rows p : row_of f (rows ++ [p]) = match row_of f rows with Some d => Some d | None => if p.1 =s? f then Some p.2 else None end.
Proof. induction rows as [|[k d] rows IH]; cbn [app row_of]; [by destruct p|]. by destruct (k =s? f). Qed.
Lemma row_ensure f rows p : row_of f (ensure_row rows p) = match row_of f rows with Some d => Some d | None => if p.1 =s? f then Some p.2 else None end.
Proof.
  unfold ensure_row. destruct (row_of p.1 rows) as [d|] eqn:E; [|apply row_app]. destruct (row_of f rows) eqn:Ef; [done|].
  destruct (String.eqb_spec p.1 f) as [Ep|]; [by rewrite Ep, Ef in E | done].
Qed.
(** What is kept for a folder: its row, or the default. *)
Lemma row_ensured f rows : row_of f (EnsureDefaultFolderRetention rows) = match row_of f rows with Some d => Some d | None => row_of f DefaultFolderRetention end.
Proof.
  unfold EnsureDefaultFolderRetention. assert (forall l rows, row_of f (fold_left ensure_row l rows) = match row_of f rows with Some d => Some d | None => row_of f l end) as H; [|apply H].
  induction l as [|p l IH]; intros rows'; cbn [fold_left row_of]; [by destruct (row_of f rows')|]. rewrite IH, row_ensure. destruct (row_of f rows'); [done|].
  destruct p as [k d]. cbn [fst snd]. by destruct (k =s? f).
Qed.
Lemma field_rows f rows : field f (map (fun p => (p.1, opt_json JNum p.2)) rows) = match row_of f rows with Some d => opt_json JNum d | None => JUndef end.
Proof. induction rows as [|[k d] rows IH]; [done|]. cbn [map field row_of fst snd]. by destruct (k =s? f). Qed.
Lemma set_rows l rows rows' : SetFolderRetention l rows = Some rows' -> rows' = fold_left (fun rs p => upsert (normalizeFolderName p.1) p.2 rs) l rows.
Proof.
  revert rows. induction l as [|[f d] l IH]; intros rows; cbn [SetFolderRetention fold_left fst snd]; [by intros [= ->]|].
  destruct (_ =s? ""); [done|]. destruct (match d with Some _ => _ | None => _ end); [done|]. apply IH.
Qed.
