(* ===== verification/Policies.v ===== *)
(** * Settings, retention and the deletion of accounts ([static/mail/mail-settings.jsx], [mail-app.jsx])

    The form of the mail settings and of the days mail is kept ([PrivacyConsentSection]), the
    dialog that asks for them first ([MailApp], [RetentionSetupModal]), and the deletion of
    the account ([DangerZoneSection]): their handlers as steps over what is shown, proved
    against the settings of the server ([SettingsServer]). *)
From Stdlib Require Import ZArith Lia Ascii.
From stdpp Require Import strings list.
From S2P Require Import Prelude JsString JsValue Base64 Json FilterEngine Http Handlers Manifest Accounts MailServer SettingsServer.
From S2P Require Srp SignIn.
Local Open Scope nat_scope.

(** [typeof v === "number" && v > 0 ? v : null] *)
Definition positive (v : jsval) : option Z := match v with JNum z => if (0 <? z)%Z then Some z else None | _ => None end.
Definition is_false (v : jsval) : bool := match v with JBool false => true | _ => false end.
(** [parseInt(value, 10)], when it is a number above 0. *)
Definition counted (value : string) : option Z := n ← parse_int10 value; if (n <? 1)%Z then None else Some n.

(** ** The form *)

Module Privacy.

Record options := Options { wkd : bool; auto : bool; attach : bool; idle : Z; setup : bool }.
Inductive folder_id := Inbox | Sent | Trash | Archive.
Record days := Days { inbox : option Z; sent : option Z; trash : option Z; archive : option Z }.
Definition DEFAULT_RETENTION_DAYS : days := Days None (Some 30%Z) (Some 30%Z) None.
(** [retentionDays[folder]], and the assignment. *)
Definition days_of_folder (f : folder_id) (d : days) : option Z :=
  match f with Inbox => inbox d | Sent => sent d | Trash => trash d | Archive => archive d end.
Definition set_folder (f : folder_id) (n : option Z) (d : days) : days :=
  match f with
  | Inbox => Days n (sent d) (trash d) (archive d)
  | Sent => Days (inbox d) n (trash d) (archive d)
  | Trash => Days (inbox d) (sent d) n (archive d)
  | Archive => Days (inbox d) (sent d) (trash d) n
  end.

Record form := Form { mailOpt : options; retentionDays : days; loading : bool; error : string }.
Definition set_mailOpt (o : options) (s : form) : form := Form o (retentionDays s) (loading s) (error s).
Definition set_retentionDays (d : days) (s : form) : form := Form (mailOpt s) d (loading s) (error s).
Definition set_loading (b : bool) (s : form) : form := Form (mailOpt s) (retentionDays s) b (error s).
Definition set_error (m : string) (s : form) : form := Form (mailOpt s) (retentionDays s) (loading s) m.
Definition mounted : form := Form (Options true true false 15 false) DEFAULT_RETENTION_DAYS true "".

Section Handlers.
Variable origin : string.
Local Abbreviation M := (Handlers.M form).

(** What is shown of an answer. *)
Definition options_of (st : jsval) : options :=
  Options (negb (is_false (prop st "wkd_publish"))) (negb (is_false (prop st "auto_encrypt_inbound"))) (truthy (prop st "attach_public_key_default"))
    (default 15%Z (positive (prop st "keyvault_idle_min"))) (truthy (prop st "retention_setup_completed")).
Definition days_of (retention : jsval) : days :=
  Days (positive (prop retention "inbox")) (positive (prop retention "sent")) (positive (prop retention "trash")) (positive (prop retention "archive")).

Definition loadConsent : M unit :=
  _ <== modify (set_loading true) ;;;
  _ <== modify (set_error "") ;;;
  hfinally
    (hcatch
       (p <== await (s <- getMailSettings origin ;; st <- lift (getp s "settings") ;; r <- lift (getp s "retention_days") ;;
                     Ret (js_or st (JObj []), js_or r (JObj []))) ;;;
        _ <== modify (set_mailOpt (options_of p.1)) ;;;
        modify (set_retentionDays (days_of p.2)))
       (fun m => modify (set_error (str_or m "Failed to load settings"))))
    (set_loading false).

(** [next]: the options with the patch applied. *)
Definition behaviour_body (next : options) : jsval :=
  JObj [("auto_encrypt_inbound", JBool (auto next)); ("wkd_publish", JBool (wkd next)); ("attach_public_key_default", JBool (attach next));
        ("keyvault_idle_min", JNum (idle next)); ("retention_setup_completed", JBool (setup next))].
Definition saveMailBehaviour (next : options) : M unit :=
  _ <== modify (set_mailOpt next) ;;;
  hcatch
    (_ <== await (setMailSettings origin (behaviour_body next)) ;;; hret tt)
    (fun m => _ <== modify (set_error (str_or m "Failed to save mail settings")) ;;; loadConsent).

Definition days_json (n : option Z) : jsval := opt_json JNum n.
Definition retention_body (d : days) : jsval :=
  JObj [("retention_days", JObj [("inbox", days_json (inbox d)); ("sent", days_json (sent d)); ("trash", days_json (trash d)); ("archive", days_json (archive d))]);
        ("retention_setup_completed", JBool true)].
Definition completed (o : options) : options := Options (wkd o) (auto o) (attach o) (idle o) true.
Definition saveRetention (nextRetention : days) : M unit :=
  _ <== modify (set_retentionDays nextRetention) ;;;
  hcatch
    (_ <== await (setMailSettings origin (retention_body nextRetention)) ;;;
     modify (fun s => set_mailOpt (completed (mailOpt s)) s))
    (fun m => _ <== modify (set_error (str_or m "Failed to save retention policy")) ;;; loadConsent).

(** [next[folder] || fallbackDays || 30]: the fallback of every row is 30. *)
Definition setFolderRetention (s0 : form) (f : folder_id) (enabled : bool) : M unit :=
  let kept := match days_of_folder f (retentionDays s0) with Some n => if (n =? 0)%Z then 30%Z else n | None => 30%Z end in
  saveRetention (set_folder f (if enabled then Some kept else None) (retentionDays s0)).
Definition updateFolderRetentionDays (s0 : form) (f : folder_id) (value : string) : M unit :=
  match counted value with None => hret tt | Some n => saveRetention (set_folder f (Some n) (retentionDays s0)) end.

(** The controls of the form; [s0]: the form when it was drawn. *)
Inductive change := SetWkd (b : bool) | SetAttach (b : bool) | SetIdle (value : string) | SetFolder (f : folder_id) (enabled : bool) | SetDays (f : folder_id) (value : string).
Definition perform (c : change) (s0 : form) : M unit :=
  let o := mailOpt s0 in
  match c with
  | SetWkd b => saveMailBehaviour (Options b (auto o) (attach o) (idle o) (setup o))
  | SetAttach b => saveMailBehaviour (Options (wkd o) (auto o) b (idle o) (setup o))
  | SetIdle value => match counted value with None => hret tt | Some n => saveMailBehaviour (Options (wkd o) (auto o) (attach o) n (setup o)) end
  | SetFolder f enabled => setFolderRetention s0 f enabled
  | SetDays f value => updateFolderRetentionDays s0 f value
  end.

(** *** Form and account *)

(** What the form shows of an account. *)
Definition shown_options (a : account) : options :=
  Options (wkd_publish a) (auto_encrypt_inbound a) (attach_public_key_default a) (default 15%Z (positive (JNum (keyvault_idle_min a))))
    (bool_decide (setup_completed_at a <> None)).
Definition kept (folder : string) (a : account) : option Z :=
  d ← row_of folder (EnsureDefaultFolderRetention (retention a)); positive (opt_json JNum d).
Definition shown_days (a : account) : days := Days (kept "inbox" a) (kept "sent" a) (kept "trash" a) (kept "archive" a).
Definition in_sync (s : form) (a : account) : Prop := mailOpt s = shown_options a /\ retentionDays s = shown_days a.

Lemma options_shown a : options_of (prop (settings_json a) "settings") = shown_options a.
Proof. unfold options_of, shown_options. cbn. by destruct (wkd_publish a), (auto_encrypt_inbound a), (attach_public_key_default a). Qed.
Lemma days_shown a : days_of (prop (settings_json (with_retention (EnsureDefaultFolderRetention (retention a)) a)) "retention_days") = shown_days a.
Proof.
  assert (forall f, positive (prop (JObj (map (fun p => (p.1, opt_json JNum p.2)) (EnsureDefaultFolderRetention (retention a)))) f) = kept f a) as H.
  { intros f. unfold kept. change (prop (JObj ?l) f) with (field f l). rewrite field_rows. by destruct (row_of f _). }
  unfold days_of, shown_days. by rewrite <- !H.
Qed.
Lemma ensured_kept f a : kept f (apiMailSettingsGet a).1 = kept f a.
Proof. unfold kept. cbn [retention with_retention apiMailSettingsGet fst]. rewrite !row_ensured. by destruct (row_of f (retention a)) as [d|]; [|destruct (row_of f DefaultFolderRetention)]. Qed.

Lemma run_load a s : fates a = [] ->
  run (settings_respond origin) a (loadConsent s) =
    ((apiMailSettingsGet a).1, Ok (Form (shown_options a) (shown_days a) false "", Ok tt)).
Proof.
  intros Hf. unfold loadConsent. erewrite run_hbind by reflexivity. erewrite run_hbind by reflexivity. rewrite run_hfinally, run_hcatch.
  erewrite run_hbind by (apply run_await; rewrite run_bind, run_getMailSettings, outcome_answered by done; reflexivity).
  erewrite run_hbind by reflexivity. cbn [run modify]. rewrite <- options_shown, <- days_shown. reflexivity.
Qed.
(** After a reload the form shows the account. *)
Lemma load_syncs a s : fates a = [] ->
  exists a' s', run (settings_respond origin) a (loadConsent s) = (a', Ok (s', Ok tt)) /\ in_sync s' a' /\ loading s' = false /\ error s' = "".
Proof.
  intros Hf. rewrite run_load by done. eexists _, _. split; [reflexivity|]. split; [|done]. split; [done|].
  unfold shown_days. cbn [retentionDays]. by rewrite !ensured_kept.
Qed.

(** A request, and the reload when it is not accepted. *)
Lemma save_syncs body (s1 : form) (fin : form -> form) failure a f : printable body = true -> body <> JUndef -> fates a = [f] -> loading s1 = false -> error s1 = "" ->
  (forall b a' r, shown_options b = shown_options a -> (forall k, kept k b = kept k a) -> apiMailSettingsPost (Some body) b = (a', r) -> rp_ok r = true ->
    in_sync (fin s1) a' /\ loading (fin s1) = false /\ error (fin s1) = "") ->
  exists a' s', run (settings_respond origin) a
      (hcatch (_ <== await (setMailSettings origin body) ;;; modify fin) (fun m => _ <== modify (set_error (str_or m failure)) ;;; loadConsent) s1) =
    (a', Ok (s', Ok tt)) /\ in_sync s' a' /\ loading s' = false /\ error s' = "".
Proof.
  intros Hb Hu Hf Hl He Hok. rewrite run_hcatch. pose proof (run_setMailSettings origin a body Hb Hu) as Hr.
  pose proof (outcome_fates (apiMailSettingsPost (Some body)) (expect_or_error "mail settings save") a (post_fates (Some body))) as Hf'. rewrite Hf in Hf'.
  destruct (outcome _ _ a) as [a' [j|m]] eqn:E; cbn [fst tail] in Hf'.
  - erewrite run_hbind by (apply run_await, Hr). apply outcome_ok in E as (r & Hp & Hj); [|done].
    exists a', (fin s1). split; [reflexivity|]. apply (Hok (next_fate a).2 a' r); [| |exact Hp|].
    + unfold next_fate. by rewrite Hf.
    + intros k. unfold next_fate. by rewrite Hf.
    + unfold expect_or_error, throw_error in Hj. destruct (rp_ok r); [done|]. by destruct (getp _ _).
  - erewrite run_hbind_throw by (apply run_await_res, Hr). erewrite run_hbind by reflexivity. by apply load_syncs.
Qed.

(** *** What is accepted is shown *)

Definition counts (n : option Z) : Prop := forall k, n = Some k -> (0 < k)%Z.
Definition proper (s : form) : Prop := (0 < idle (mailOpt s))%Z /\ forall f, counts (days_of_folder f (retentionDays s)).

Lemma positive_counts v : counts (positive v).
Proof. intros k. unfold positive. destruct v; try done. destruct (Z.ltb_spec 0 z); [by intros [= <-] | done]. Qed.
Lemma positive_of n : counts n -> positive (opt_json JNum n) = n.
Proof. destruct n as [k|]; [|done]. intros Hk. cbn. specialize (Hk k eq_refl). apply Z.ltb_lt in Hk. by rewrite Hk. Qed.
Lemma sync_proper s a : in_sync s a -> proper s.
Proof.
  intros [Ho Hd]. split.
  - rewrite Ho. unfold shown_options. cbn [idle]. destruct (positive (JNum (keyvault_idle_min a))) as [k|] eqn:E; [by apply positive_counts in E | done].
  - intros f. rewrite Hd. assert (forall k, counts (kept k a)) as Hk by (intros k n; unfold kept; destruct (row_of _ _) as [d|]; [apply positive_counts | done]).
    destruct f; apply Hk.
Qed.

Lemma behaviour_stored next b : (0 < idle next)%Z -> int4 (idle next) = true ->
  apiMailSettingsPost (Some (behaviour_body next)) b =
    apiMailSettingsGet (apply_settings (SettingsBody (Some (auto next)) (Some (wkd next)) (Some (attach next)) (Some (idle next)) (Some (setup next)) None) b).
Proof.
  intros Hi%Z.ltb_lt H4. unfold apiMailSettingsPost. cbn [mbind option_bind].
  change (settings_body_of (behaviour_body next)) with
    (d ← (if int8 (idle next) then Some (Some (idle next)) else None); Some (SettingsBody (Some (auto next)) (Some (wkd next)) (Some (attach next)) d (Some (setup next)) None)).
  assert (int8 (idle next) = true) as -> by (unfold int4, int8 in *; lia). cbn [mbind option_bind].
  unfold apply_settings at 1. cbn [keyvault_idle_min with_settings b_idle]. by rewrite Hi, H4.
Qed.
Lemma behaviour_accepted next b a' r : (0 < idle next)%Z -> apiMailSettingsPost (Some (behaviour_body next)) b = (a', r) -> rp_ok r = true ->
  shown_options a' = next /\ forall k, kept k a' = kept k b.
Proof.
  intros Hi%Z.ltb_lt. unfold apiMailSettingsPost. cbn [mbind option_bind].
  change (settings_body_of (behaviour_body next)) with
    (d ← (if int8 (idle next) then Some (Some (idle next)) else None); Some (SettingsBody (Some (auto next)) (Some (wkd next)) (Some (attach next)) d (Some (setup next)) None)).
  destruct (int8 (idle next)); [|by intros [= <- <-]]. cbn [mbind option_bind]. destruct (negb _); [by intros [= <- <-]|]. cbn [b_retention].
  intros [= <- <-] _. split; [|intros k; exact (ensured_kept k b)]. unfold shown_options, apply_settings. cbn [b_idle b_auto b_wkd b_attach b_setup default]. rewrite Hi.
  cbn. rewrite Hi. by destruct next as [? ? ? ? []].
Qed.

Definition proper_days (d : days) : Prop := forall f, counts (days_of_folder f d).
Lemma int_read n : read_int (days_json n) = match n with Some k => if int8 k then Some (Some k) else None | None => Some None end.
Proof. by destruct n. Qed.
Lemma retention_accepted d b a' r : proper_days d -> apiMailSettingsPost (Some (retention_body d)) b = (a', r) -> rp_ok r = true ->
  shown_options a' = completed (shown_options b) /\ shown_days a' = d.
Proof.
  intros Hd. unfold apiMailSettingsPost. cbn [mbind option_bind].
  change (settings_body_of (retention_body d)) with
    (m ← (Some <$> (i ← read_int (days_json (inbox d)); s ← read_int (days_json (sent d)); t ← read_int (days_json (trash d)); r ← read_int (days_json (archive d));
                    Some [("inbox", i); ("sent", s); ("trash", t); ("archive", r)])); Some (SettingsBody None None None None (Some true) m)).
  rewrite !int_read. assert (forall n, (match n with Some k => if int8 k then Some (Some k) else None | None => Some None end) = Some n \/
    (match n with Some k => if int8 k then Some (Some k) else None | None => Some (@None Z) end) = None) as Hi.
  { intros [k|]; [destruct (int8 k); auto | auto]. }
  destruct (Hi (inbox d)) as [-> | ->]; [|by intros [= <- <-]]. destruct (Hi (sent d)) as [-> | ->]; [|by intros [= <- <-]].
  destruct (Hi (trash d)) as [-> | ->]; [|by intros [= <- <-]]. destruct (Hi (archive d)) as [-> | ->]; [|by intros [= <- <-]].
  cbn [mbind option_bind fmap option_fmap option_map]. destruct (negb _); [by intros [= <- <-]|]. cbn [b_retention].
  destruct (SetFolderRetention _ _) as [rows|] eqn:E; [|by intros [= <- <-]]. apply set_rows in E. intros H _. apply (f_equal fst) in H. cbn [fst] in H. subst a'.
  split; [done|]. unfold shown_days. rewrite !ensured_kept. unfold kept. cbn [retention with_retention]. rewrite E. cbn [fold_left fst snd].
  change (normalizeFolderName "inbox") with "inbox". change (normalizeFolderName "sent") with "sent".
  change (normalizeFolderName "trash") with "trash". change (normalizeFolderName "archive") with "archive".
  rewrite !row_ensured, !row_upsert.
  transitivity (Days (positive (days_json (inbox d))) (positive (days_json (sent d))) (positive (days_json (trash d))) (positive (days_json (archive d)))); [reflexivity|].
  pose proof (positive_of _ (Hd Inbox)) as H1. pose proof (positive_of _ (Hd Sent)) as H2. pose proof (positive_of _ (Hd Trash)) as H3.
  pose proof (positive_of _ (Hd Archive)) as H4. cbn [days_of_folder] in *. unfold days_json. rewrite H1, H2, H3, H4. by destruct d.
Qed.

Lemma save_behaviour_syncs next s a f : in_sync s a -> fates a = [f] -> loading s = false -> error s = "" -> (0 < idle next)%Z ->
  exists a' s', run (settings_respond origin) a (saveMailBehaviour next s) = (a', Ok (s', Ok tt)) /\ in_sync s' a' /\ loading s' = false /\ error s' = "".
Proof.
  intros [Ho Hd] Hf Hl He Hi. unfold saveMailBehaviour. erewrite run_hbind by reflexivity.
  apply (save_syncs (behaviour_body next) (set_mailOpt next s) (fun s => s) _ a f); try done.
  intros b a' r Eo Ek Hp Hr. destruct (behaviour_accepted next b a' r Hi Hp Hr) as [H1 H2]. split; [|done]. split; [done|].
  cbn [retentionDays set_mailOpt]. rewrite Hd. unfold shown_days. by rewrite !H2, !Ek.
Qed.
Lemma save_retention_syncs d s a f : in_sync s a -> fates a = [f] -> loading s = false -> error s = "" -> proper_days d ->
  exists a' s', run (settings_respond origin) a (saveRetention d s) = (a', Ok (s', Ok tt)) /\ in_sync s' a' /\ loading s' = false /\ error s' = "".
Proof.
  intros [Ho Hd] Hf Hl He Hi. unfold saveRetention. erewrite run_hbind by reflexivity.
  apply (save_syncs (retention_body d) (set_retentionDays d s) (fun s => set_mailOpt (completed (mailOpt s)) s) _ a f); try done.
  { by destruct d as [[] [] [] []]. }
  intros b a' r Eo Ek Hp Hr. destruct (retention_accepted d b a' r Hi Hp Hr) as [H1 H2]. split; [|done]. split; [|done].
  cbn [mailOpt set_retentionDays set_mailOpt]. by rewrite H1, Ho, Eo.
Qed.
Lemma set_folder_proper f n d : proper_days d -> counts n -> proper_days (set_folder f n d).
Proof. intros Hd Hn g. specialize (Hd g). by destruct f, g. Qed.
Lemma counted_spec t n : counted t = Some n -> (0 < n)%Z.
Proof. unfold counted. destruct (parse_int10 t) as [k|]; [|done]. cbn. destruct (Z.ltb_spec k 1); [done|]. intros [= <-]. lia. Qed.


(** C24: a form that shows what the server keeps goes on showing it: when the form, loaded
    and without a message, shows the settings and the retention days of the account, and one
    of its controls is changed, then, whether the request is accepted, refused, or carried
    out without an answer, the form shows the settings and the days of the account
    afterwards, when the reload that may follow is answered.  No error is left on it either:
    the reload clears the message of a change that was refused. *)
Theorem form_follows_server c s a f : in_sync s a -> fates a = [f] -> loading s = false -> error s = "" ->
  exists a' s', run (settings_respond origin) a (perform c s s) = (a', Ok (s', Ok tt)) /\ in_sync s' a' /\ loading s' = false /\ error s' = "".
Proof.
  intros Hs Hf Hl He. destruct (sync_proper s a Hs) as [Hi Hd]. assert (exists a' s', run (settings_respond origin) a (hret tt s) = (a', Ok (s', Ok tt)) /\
    in_sync s' a' /\ loading s' = false /\ error s' = "") as Hn by (by exists a, s).
  destruct c as [b|b|t|g b|g t]; cbn [perform]; [by apply (save_behaviour_syncs _ s a f) .. | | |].
  - destruct (counted t) as [n|] eqn:E; [|done]. apply (save_behaviour_syncs _ s a f); try done. by apply counted_spec in E.
  - apply (save_retention_syncs _ s a f); try done. apply set_folder_proper; [exact Hd|]. intros k. destruct b; [|done].
    destruct (days_of_folder g (retentionDays s)) as [n|] eqn:E; [|by intros [= <-]]. destruct (n =? 0)%Z; [by intros [= <-]|]. intros [= <-]. by apply (Hd g).
  - unfold updateFolderRetentionDays. destruct (counted t) as [n|] eqn:E; [|done]. apply (save_retention_syncs _ s a f); try done.
    apply set_folder_proper; [exact Hd|]. intros k [= <-]. by apply counted_spec in E.
Qed.

(** after a load that failed the form shows the defaults and can be used: a change of one
    setting then stores the defaults of all the others, so keys are published again that the
    user had taken out of the directory, and the setup is to be done again. *)
Theorem failed_load_overwrites a t n : fates a = [Refused] -> counted t = Some n -> int4 n = true ->
  exists a1 s1 a2 s2,
    run (settings_respond origin) a (loadConsent mounted) = (a1, Ok (s1, Ok tt)) /\ loading s1 = false /\ a1 = with_rest [] a /\
    run (settings_respond origin) a1 (perform (SetIdle t) s1 s1) = (a2, Ok (s2, Ok tt)) /\
    keyvault_idle_min a2 = n /\ wkd_publish a2 = true /\ attach_public_key_default a2 = false /\ setup_completed_at a2 = None.
Proof.
  intros Hf Hn Hi. pose proof (counted_spec t n Hn) as Hp.
  set (s1 := Form (Options true true false 15 false) DEFAULT_RETENTION_DAYS false "mail settings 500"). set (next := Options true true false n false).
  assert (run (settings_respond origin) a (loadConsent mounted) = (with_rest [] a, Ok (s1, Ok tt))) as Hl.
  { unfold loadConsent. erewrite run_hbind by reflexivity. erewrite run_hbind by reflexivity. rewrite run_hfinally, run_hcatch.
    erewrite run_hbind_throw by (apply run_await_res; rewrite run_bind, run_getMailSettings; unfold outcome, next_fate; rewrite Hf; reflexivity). reflexivity. }
  set (b := with_rest [] a) in *. pose proof (behaviour_stored next b Hp Hi) as Hb.
  eexists b, s1, (apiMailSettingsPost (Some (behaviour_body next)) b).1, (set_mailOpt next s1). split; [exact Hl|]. split; [done|]. split; [done|]. split.
  - cbn [perform]. rewrite Hn. match goal with |- _ = ?r => change (run (settings_respond origin) b (saveMailBehaviour next s1) = r) end.
    unfold saveMailBehaviour. erewrite run_hbind by reflexivity. rewrite run_hcatch.
    erewrite run_hbind by (apply run_await; rewrite run_setMailSettings, outcome_answered, Hb by done; reflexivity). by rewrite Hb.
  - rewrite Hb. split; [|done]. cbn. apply Z.ltb_lt in Hp. by rewrite Hp.
Qed.
End Handlers.
End Privacy.

(** ** The deletion policy of an account *)

(** What [setDeletePolicy] is sent by both forms. *)
Definition policy_json (enabled : bool) (value : Z) (unit_ : string) : jsval :=
  JObj [("enabled", JBool enabled); ("value", JNum (if enabled then value else 0%Z)); ("unit", JStr (if enabled then unit_ else ""))].
Definition units : list string := ["days"; "weeks"; "months"].

(** The same account but for its policy. *)
Definition same_settings (a b : account) : Prop :=
  retention a = retention b /\ wkd_publish a = wkd_publish b /\ auto_encrypt_inbound a = auto_encrypt_inbound b /\
  attach_public_key_default a = attach_public_key_default b /\ keyvault_idle_min a = keyvault_idle_min b /\ setup_completed_at a = setup_completed_at b.
(** The policy of an account is the one chosen. *)
Definition has_policy (enabled : bool) (value : Z) (unit_ : string) (a : account) : Prop :=
  inactive_value a = (if enabled then value else 0%Z) /\ inactive_unit a = (if enabled then unit_ else "").

Lemma int4_int8 n : int4 n = true -> int8 n = true.
Proof. unfold int4, int8. lia. Qed.

Lemma policy_read enabled value u : policy_body_of (policy_json enabled value u) =
  (if int8 (if enabled then value else 0%Z) then Some (PolicyBody (Some enabled) (Some (if enabled then value else 0%Z)) (if enabled then u else "")) else None).
Proof.
  change (policy_body_of (policy_json enabled value u)) with
    (v ← (if int8 (if enabled then value else 0%Z) then Some (Some (if enabled then value else 0%Z)) else None);
     Some (PolicyBody (Some enabled) v (if enabled then u else ""))).
  by destruct (int8 _).
Qed.
Lemma unit_kept u : u ∈ units -> trim u = u /\ normalizeInactivityDeleteUnit u = Some u /\ (u =s? "") = false /\ (trim u =s? "") = false /\ printable (JStr u) = true.
Proof. unfold units. rewrite !elem_of_cons, elem_of_nil. intros [-> |[-> |[-> |[] ] ] ]; repeat split; reflexivity. Qed.

Lemma policy_put enabled value u b : (0 < value)%Z -> u ∈ units ->
  apiAccountDeletePolicyPut (Some (policy_json enabled value u)) b =
    if enabled then (if int8 value then (if int4 value then (with_policy value u b, writeDeletePolicyJSON (with_policy value u b)) else (b, internal_error)) else (b, refusal 400 "invalid json"))
    else (with_policy 0 "" b, writeDeletePolicyJSON (with_policy 0 "" b)).
Proof.
  intros Hv Hu. destruct (unit_kept u Hu) as (Ht & Hn & He & _). unfold apiAccountDeletePolicyPut. cbn [mbind option_bind]. rewrite policy_read.
  destruct enabled; [|reflexivity]. destruct (int8 value); [|done]. cbn [mbind option_bind b_enabled b_value b_unit andb].
  change (default false (Some true)) with true. change (default 0%Z (Some value)) with value. cbn [andb].
  assert ((value <=? 0)%Z = false) as -> by lia. unfold SetUserInactivityDeletion. assert ((value <? 0)%Z = false) as -> by lia.
  rewrite Ht, Hn. cbn [mbind option_bind]. assert ((value =? 0)%Z = false) as -> by lia. rewrite He. cbn [orb]. by destruct (int4 value).
Qed.
Lemma policy_accepted enabled value u b a' r : (0 < value)%Z -> u ∈ units ->
  apiAccountDeletePolicyPut (Some (policy_json enabled value u)) b = (a', r) -> rp_ok r = true ->
  r = writeDeletePolicyJSON a' /\ has_policy enabled value u a' /\ same_settings a' b.
Proof.
  intros Hv Hu. rewrite policy_put by done. unfold has_policy. destruct enabled; [|by intros [= <- <-] _].
  destruct (int8 value); [|by intros [= <- <-] ?]. destruct (int4 value); by intros [= <- <-] ?.
Qed.
Lemma policy_stored enabled value u b : (0 < value)%Z -> u ∈ units -> int4 value = true ->
  exists a', apiAccountDeletePolicyPut (Some (policy_json enabled value u)) b = (a', writeDeletePolicyJSON a').
Proof.
  intros Hv Hu Hi. rewrite policy_put by done. destruct enabled; [|by eexists]. rewrite (int4_int8 value), Hi by done. by eexists.
Qed.

Lemma policy_printable e v u : u ∈ units -> printable (policy_json e v u) = true.
Proof. unfold units. rewrite !elem_of_cons, elem_of_nil. by intros [-> |[-> |[-> |[] ] ] ]; destruct e. Qed.

(** What a form makes of a policy; the server sends its value as a number. *)
Record policy := Policy { enabled : bool; value : Z; unit_ : string }.
Definition policy_of (payload : jsval) : policy :=
  let p := js_or (prop payload "policy") (JObj []) in
  Policy (truthy (prop p "enabled")) (default 30%Z (positive (prop p "value"))) (js_String (js_or (prop p "unit") (JStr "days"))).
Lemma policy_shown e v u a : (0 < v)%Z -> u ∈ units -> has_policy e v u a ->
  exists j, rp_json (writeDeletePolicyJSON a) = Some j /\ policy_of j = if e then Policy true v u else Policy false 30 "days".
Proof.
  intros Hv%Z.ltb_lt Hu [H1 H2]. destruct (unit_kept u Hu) as (_ & _ & Hne & Ht & _). eexists. split; [reflexivity|].
  transitivity (Policy ((0 <? inactive_value a)%Z && negb (trim (inactive_unit a) =s? "")) (default 30%Z (positive (JNum (inactive_value a))))
    (js_String (js_or (JStr (inactive_unit a)) (JStr "days")))); [reflexivity|].
  rewrite H1, H2. destruct e; [|reflexivity]. unfold js_or. cbn [positive truthy]. by rewrite Hv, Ht, Hne.
Qed.

(** ** The dialog that asks first *)

Module Setup.

Record setup := SetupState {
  opened : bool;
  busy : bool;
  inboxEnabled : bool;
  inboxDays : Z;
  accountDelete : policy;
  hydrated : bool;
  toast : option (string * string);
}.
Definition mounted : setup := SetupState false false false 30 (Policy false 30 "days") false None.
Definition set_busy (b : bool) (s : setup) : setup := SetupState (opened s) b (inboxEnabled s) (inboxDays s) (accountDelete s) (hydrated s) (toast s).
Definition set_toast (m type : string) (s : setup) : setup :=
  SetupState (opened s) (busy s) (inboxEnabled s) (inboxDays s) (accountDelete s) (hydrated s) (Some (m, type)).

(** The inputs of the dialog. *)
Inductive input := ToggleInbox (b : bool) | ChangeDays (value : string) | ToggleAccountDelete (b : bool) | ChangeValue (value : string) | ChangeUnit (u : string).
Definition edit (i : input) (s : setup) : setup :=
  let p := accountDelete s in
  let with_inbox b n := SetupState (opened s) (busy s) b n p (hydrated s) (toast s) in
  let with_policy p := SetupState (opened s) (busy s) (inboxEnabled s) (inboxDays s) p (hydrated s) (toast s) in
  match i with
  | ToggleInbox b => with_inbox b (inboxDays s)
  | ChangeDays v => with_inbox (inboxEnabled s) (default (inboxDays s) (counted v))
  | ToggleAccountDelete b => with_policy (Policy b (value p) (unit_ p))
  | ChangeValue v => with_policy (Policy (enabled p) (default (value p) (counted v)) (unit_ p))
  | ChangeUnit u => with_policy (Policy (enabled p) (value p) u)
  end.

Section Handlers.
Variable origin : string.
Local Abbreviation M := (Handlers.M setup).

(** [Promise.all]: both are asked for, and the first failure is thrown. *)
Definition both {A B} (p : prog A) (q : prog B) : prog (A * B) :=
  r1 <- attempt p ;; r2 <- attempt q ;;
  match r1, r2 with Ok a, Ok b => Ret (a, b) | Throw m, _ => Raise m | _, Throw m => Raise m end.

Definition loadRetentionSetup (s0 : setup) : M unit :=
  if hydrated s0 then hret tt
  else
    hcatch
      (p <== await (both (getMailSettings origin) (getDeletePolicy origin)) ;;;
       let settings := js_or (prop p.1 "settings") (JObj []) in
       let retention := js_or (prop p.1 "retention_days") (JObj []) in
       let inbox := positive (prop retention "inbox") in
       modify (fun s => SetupState (negb (truthy (prop settings "retention_setup_completed"))) (busy s) (match inbox with Some _ => true | None => false end)
                          (default 30%Z inbox) (policy_of p.2) true (toast s)))
      (fun _ => hret tt).

Definition setup_body (inboxOn : bool) (n : Z) : jsval :=
  JObj [("retention_setup_completed", JBool true); ("retention_days", JObj [("inbox", if inboxOn then JNum n else JNull)])].
(** [s0]: the dialog when the button was drawn. *)
Definition saveRetentionSetup (s0 : setup) (inboxOn deleteOn : bool) : M unit :=
  let p := accountDelete s0 in
  _ <== modify (set_busy true) ;;;
  hfinally
    (hcatch
       (_ <== await (setDeletePolicy origin (policy_json deleteOn (value p) (unit_ p))) ;;;
        _ <== await (setMailSettings origin (setup_body inboxOn (inboxDays s0))) ;;;
        modify (fun s => SetupState false (busy s) inboxOn (inboxDays s) (Policy deleteOn (value (accountDelete s)) (unit_ (accountDelete s))) (hydrated s) (toast s)))
       (fun m => modify (set_toast (str_or m "Could not save setup") "err")))
    (set_busy false).
Definition onSave (s0 : setup) : M unit := saveRetentionSetup s0 (inboxEnabled s0) (enabled (accountDelete s0)).
(** "Use Secure Defaults" *)
Definition onSkip (s0 : setup) : M unit := saveRetentionSetup s0 false false.

(** *** What is kept *)

(** The account a choice asks for. *)
Definition chosen (inboxOn deleteOn : bool) (s : setup) (a : account) : Prop :=
  setup_completed_at a <> None /\ Privacy.kept "inbox" a = (if inboxOn then Some (inboxDays s) else None) /\
  has_policy deleteOn (value (accountDelete s)) (unit_ (accountDelete s)) a.
Definition possible (s : setup) : Prop := (0 < inboxDays s)%Z /\ (0 < value (accountDelete s))%Z /\ unit_ (accountDelete s) ∈ units.

Lemma edit_possible i s : possible s -> (forall u, i = ChangeUnit u -> u ∈ units) -> possible (edit i s).
Proof.
  intros (H1 & H2 & H3) Hu. assert (forall v d, (0 < d)%Z -> (0 < default d (counted v))%Z) as Hc.
  { intros v d Hd. destruct (counted v) as [n|] eqn:E; [|done]. by apply Privacy.counted_spec in E. }
  destruct i; cbn [edit]; split_and!; cbn [inboxDays accountDelete value unit_]; auto.
Qed.

Lemma setup_post inboxOn n b : (0 < n)%Z -> apiMailSettingsPost (Some (setup_body inboxOn n)) b =
  (let a := with_settings (auto_encrypt_inbound b) (wkd_publish b) (attach_public_key_default b) (keyvault_idle_min b) (Some (now b)) b in
   if inboxOn && negb (int8 n) then (b, refusal 400 "invalid json")
   else if negb (int4 (keyvault_idle_min b)) then (b, internal_error)
   else if inboxOn && negb (int4 n) then (a, internal_error)
   else apiMailSettingsGet (with_retention (upsert "inbox" (if inboxOn then Some n else None) (retention b)) a)).
Proof.
  intros Hn. unfold apiMailSettingsPost. cbn [mbind option_bind].
  change (settings_body_of (setup_body inboxOn n)) with
    (m ← (Some <$> (d ← read_int (if inboxOn then JNum n else JNull); Some [("inbox", d)])); Some (SettingsBody None None None None (Some true) m)).
  destruct inboxOn; cbn [andb read_int]; [destruct (int8 n); [|done] | done]. cbn [mbind option_bind fmap option_fmap option_map negb].
  cbn [b_retention apply_settings b_idle keyvault_idle_min with_settings]. destruct (int4 (keyvault_idle_min b)); [|done]. cbn [negb].
  cbn [SetFolderRetention]. change (normalizeFolderName "inbox") with "inbox". change ("inbox" =s? "") with false. cbn iota.
  assert ((n <=? 0)%Z = false) as -> by lia. cbn [orb]. by destruct (int4 n).
Qed.
Lemma setup_accepted inboxOn n b a' r : (0 < n)%Z -> apiMailSettingsPost (Some (setup_body inboxOn n)) b = (a', r) -> rp_ok r = true ->
  setup_completed_at a' <> None /\ Privacy.kept "inbox" a' = (if inboxOn then Some n else None) /\
  inactive_value a' = inactive_value b /\ inactive_unit a' = inactive_unit b.
Proof.
  intros Hn. rewrite setup_post by done. cbv zeta. destruct (inboxOn && negb (int8 n)); [by intros [= <- <-] ?|]. destruct (negb (int4 _)); [by intros [= <- <-] ?|].
  destruct (inboxOn && negb (int4 n)); [by intros [= <- <-] ?|]. intros H _. apply (f_equal fst) in H. cbn [fst] in H. subst a'. split_and!; [done | | done | done].
  rewrite Privacy.ensured_kept. unfold Privacy.kept. cbn [retention with_retention]. rewrite row_ensured, row_upsert.
  change ("inbox" =s? "inbox") with true. cbn iota. destruct inboxOn; [|done]. cbn. apply Z.ltb_lt in Hn. by rewrite Hn.
Qed.

(** The handler ends: with the choice kept, or with an error and the dialog as it was. *)
Lemma save_ends s a inboxOn deleteOn : possible s ->
  exists a' s', run (settings_respond origin) a (saveRetentionSetup s inboxOn deleteOn s) = (a', Ok (s', Ok tt)) /\ busy s' = false /\
    inboxDays s' = inboxDays s /\ value (accountDelete s') = value (accountDelete s) /\ unit_ (accountDelete s') = unit_ (accountDelete s) /\
    ((opened s' = opened s /\ inboxEnabled s' = inboxEnabled s /\ accountDelete s' = accountDelete s /\ exists m, toast s' = Some (m, "err")) \/
     (opened s' = false /\ inboxEnabled s' = inboxOn /\ enabled (accountDelete s') = deleteOn /\ chosen inboxOn deleteOn s a')).
Proof.
  intros (Hd & Hv & Hu). unfold saveRetentionSetup. cbv zeta. erewrite run_hbind by reflexivity. rewrite run_hfinally, run_hcatch.
  set (p := accountDelete s) in *. set (body := policy_json deleteOn (value p) (unit_ p)).
  assert (printable body = true) as Hb by (by apply policy_printable).
  assert (printable (setup_body inboxOn (inboxDays s)) = true) as Hb2 by (by destruct inboxOn).
  destruct (outcome (apiAccountDeletePolicyPut (Some body)) (body_or_error "delete policy save") a) as [a1 [j|m]] eqn:E1.
  2:{ erewrite run_hbind_throw by (apply run_await_res; rewrite run_setDeletePolicy by done; exact E1).
      eexists a1, _. split; [reflexivity|]. split_and!; [done.. |]. left. split_and!; [done.. |]. by eexists. }
  erewrite run_hbind by (apply run_await; rewrite run_setDeletePolicy by done; exact E1).
  apply outcome_ok in E1 as (r1 & E1 & Hj1); [|done]. assert (rp_ok r1 = true) as Hr1.
  { unfold body_or_error, throw_error in Hj1. destruct (rp_ok r1); [done|]. by destruct (getp _ _). }
  destruct (policy_accepted deleteOn (value p) (unit_ p) _ a1 r1 Hv Hu E1 Hr1) as (_ & [Hp1 Hp2] & _).
  destruct (outcome (apiMailSettingsPost (Some (setup_body inboxOn (inboxDays s)))) (expect_or_error "mail settings save") a1) as [a2 [j'|m]] eqn:E2.
  2:{ erewrite run_hbind_throw by (apply run_await_res; rewrite run_setMailSettings by done; exact E2).
      eexists a2, _. split; [reflexivity|]. split_and!; [done.. |]. left. split_and!; [done.. |]. by eexists. }
  erewrite run_hbind by (apply run_await; rewrite run_setMailSettings by done; exact E2).
  eexists a2, _. split; [reflexivity|]. split_and!; [done.. |]. right. do 3 (split; [done|]).
  apply outcome_ok in E2 as (r2 & E2 & Hj2); [|done]. assert (rp_ok r2 = true) as Hr2.
  { unfold expect_or_error, throw_error in Hj2. destruct (rp_ok r2); [done|]. by destruct (getp _ _). }
  destruct (setup_accepted inboxOn (inboxDays s) _ a2 r2 Hd E2 Hr2) as (H1 & H2 & H3 & H4). split_and!; [done | done |]. unfold has_policy.
  rewrite H3, H4. assert (forall b, inactive_value (next_fate b).2 = inactive_value b /\ inactive_unit (next_fate b).2 = inactive_unit b) as Hn
    by (intros b; unfold next_fate; by destruct (fates b)). destruct (Hn a1) as [-> ->]. done.
Qed.

(** Answered throughout, within what the columns hold, it is kept. *)
Lemma save_succeeds s a inboxOn deleteOn : possible s -> fates a = [] -> int4 (keyvault_idle_min a) = true -> int4 (inboxDays s) = true ->
  int4 (value (accountDelete s)) = true ->
  exists a' s', run (settings_respond origin) a (saveRetentionSetup s inboxOn deleteOn s) = (a', Ok (s', Ok tt)) /\ opened s' = false /\ toast s' = toast s /\ fates a' = [].
Proof.
  intros (Hd & Hv & Hu) Hf Hk Hi Hi2. unfold saveRetentionSetup. cbv zeta. erewrite run_hbind by reflexivity. rewrite run_hfinally, run_hcatch.
  set (p := accountDelete s) in *. set (body := policy_json deleteOn (value p) (unit_ p)).
  assert (printable body = true) as Hb by (by apply policy_printable).
  assert (printable (setup_body inboxOn (inboxDays s)) = true) as Hb2 by (by destruct inboxOn).
  set (a1 := with_policy (if deleteOn then value p else 0%Z) (if deleteOn then unit_ p else "") a).
  assert (apiAccountDeletePolicyPut (Some body) a = (a1, writeDeletePolicyJSON a1)) as E1.
  { unfold body. rewrite policy_put by done. unfold a1. destruct deleteOn; [|done]. by rewrite (int4_int8 _ Hi2), Hi2. }
  erewrite run_hbind by (apply run_await; rewrite run_setDeletePolicy by done; rewrite outcome_answered, E1 by done; reflexivity).
  cbn [fst]. assert (fates a1 = [] /\ keyvault_idle_min a1 = keyvault_idle_min a) as [Hf1 Hk1] by done. clearbody a1. clear E1.
  erewrite run_hbind.
  2:{ apply run_await. rewrite run_setMailSettings by done. rewrite outcome_answered by done. rewrite setup_post by done. cbv zeta. rewrite Hk1, Hk.
      cbn [negb]. rewrite (int4_int8 _ Hi), Hi. cbn [negb]. rewrite andb_false_r. reflexivity. }
  eexists _, _. by split.
Qed.

Lemma both_asked {T A B} (srv : T -> request -> T * option response) (p : prog A) (q : prog B) st st1 st2 x y :
  run srv st p = (st1, Ok x) -> run srv st1 q = (st2, Ok y) -> run srv st (both p q) = (st2, Ok (x, y)).
Proof. intros Hp Hq. unfold both. by rewrite run_bind, run_attempt, Hp, run_bind, run_attempt, Hq. Qed.

(** What is kept is shown when the page is opened again. *)
Lemma load_shows s a inboxOn deleteOn : possible s -> fates a = [] -> chosen inboxOn deleteOn s a ->
  exists a' s', run (settings_respond origin) a (loadRetentionSetup mounted mounted) = (a', Ok (s', Ok tt)) /\ opened s' = false /\
    inboxEnabled s' = inboxOn /\ (inboxOn = true -> inboxDays s' = inboxDays s) /\
    accountDelete s' = if deleteOn then Policy true (value (accountDelete s)) (unit_ (accountDelete s)) else Policy false 30 "days".
Proof.
  intros (Hd & Hv & Hu) Hf (Hc & Hk & Hp). destruct (policy_shown _ _ _ _ Hv Hu Hp) as (j & Hj & Hs).
  set (a1 := (apiMailSettingsGet a).1). unfold loadRetentionSetup. cbn [hydrated mounted]. rewrite run_hcatch.
  assert (run (settings_respond origin) a (both (getMailSettings origin) (getDeletePolicy origin)) = (a1, Ok (settings_json a1, j))) as Hb.
  { eapply both_asked; [rewrite run_getMailSettings, outcome_answered by done; reflexivity|]. fold a1. rewrite run_getDeletePolicy, outcome_answered by done.
    cbn [fst snd apiAccountDeletePolicyGet]. assert (rp_json (writeDeletePolicyJSON a1) = Some j) as Hj1 by exact Hj.
    unfold body_or_error, json_or_empty. by rewrite Hj1. }
  erewrite run_hbind by (apply run_await, Hb). cbv zeta. cbn [fst snd]. rewrite Hs.
  eexists _, _. split; [reflexivity|]. cbn [opened inboxEnabled inboxDays accountDelete].
  assert (positive (prop (js_or (prop (settings_json a1) "retention_days") (JObj [])) "inbox") = if inboxOn then Some (inboxDays s) else None) as ->.
  { rewrite <- Hk. exact (f_equal Privacy.inbox (Privacy.days_shown a)). }
  split_and!; [| by destruct inboxOn | by intros -> | done].
  change (truthy (prop (js_or (prop (settings_json a1) "settings") (JObj [])) "retention_setup_completed")) with (bool_decide (setup_completed_at a <> None)).
  by rewrite bool_decide_true.
Qed.

(** C25: the setup is kept or is asked again: whatever the server does with its two requests,
    saving the choices of the dialog (days and a policy that its inputs allow) ends.  When
    the dialog stays open an error is shown, the switches, the days and the policy in it are
    those that were chosen, and saving again is enough, when both requests are answered and
    the idle time, the days and the policy's number are within the server's 32-bit columns.
    When the dialog closes it shows what was asked for, and opening the page again, with its
    requests answered, does not ask and shows the choices. *)
Theorem setup_is_kept s a inboxOn deleteOn : possible s -> opened s = true ->
  exists a1 s1, run (settings_respond origin) a (saveRetentionSetup s inboxOn deleteOn s) = (a1, Ok (s1, Ok tt)) /\ busy s1 = false /\
    (opened s1 = true -> (exists m, toast s1 = Some (m, "err")) /\
       inboxEnabled s1 = inboxEnabled s /\ inboxDays s1 = inboxDays s /\ accountDelete s1 = accountDelete s /\
       (fates a1 = [] -> int4 (keyvault_idle_min a1) = true -> int4 (inboxDays s) = true -> int4 (value (accountDelete s)) = true ->
        exists a2 s2, run (settings_respond origin) a1 (saveRetentionSetup s1 inboxOn deleteOn s1) = (a2, Ok (s2, Ok tt)) /\ opened s2 = false)) /\
    (opened s1 = false -> inboxEnabled s1 = inboxOn /\ inboxDays s1 = inboxDays s /\ enabled (accountDelete s1) = deleteOn /\
     (fates a1 = [] ->
      exists a2 s2, run (settings_respond origin) a1 (loadRetentionSetup mounted mounted) = (a2, Ok (s2, Ok tt)) /\ opened s2 = false /\
       inboxEnabled s2 = inboxOn /\ (inboxOn = true -> inboxDays s2 = inboxDays s) /\
       accountDelete s2 = if deleteOn then Policy true (value (accountDelete s)) (unit_ (accountDelete s)) else Policy false 30 "days")).
Proof.
  intros Hp Ho. destruct (save_ends s a inboxOn deleteOn Hp) as (a1 & s1 & Hr & Hb & H1 & H2 & H3 & Hc). exists a1, s1. split; [exact Hr|]. split; [exact Hb|].
  split.
  - intros Ho1. destruct Hc as [(_ & Hi & Ha & Ht)|(Hc & _) ]; [|congruence]. split; [exact Ht|]. do 3 (split; [done|]). intros Hf Hk Hd Hv.
    assert (possible s1) as Hp1 by (unfold possible; by rewrite H1, H2, H3). rewrite <- H1 in Hd. rewrite <- H2 in Hv.
    destruct (save_succeeds s1 a1 inboxOn deleteOn Hp1 Hf Hk Hd Hv) as (a2 & s2 & Hr2 & Hc2 & _). by exists a2, s2.
  - intros Ho1. destruct Hc as [(Hc & _)|(_ & Hi & Hd & Hc) ]; [congruence|]. do 3 (split; [done|]). intros Hf. by apply load_shows.
Qed.
End Handlers.
End Setup.

(** ** The end of an account *)

Module Danger.

Record danger := DangerState {
  shown : policy;
  last_activity_day : jsval;
  scheduled_delete_at : jsval;
  scheduled_delete_reason : jsval;
  loadingStatus : bool;
  statusError : string;
  showDeleteModal : bool;
  schedule : bool;                 (** [deleteMode === 'schedule'] *)
  delPwd : string;
  delConfirm : string;
  actionBusy : bool;
  policyBusy : bool;
  cancelBusy : bool;
  delErr : string;
  href : option string;            (** [window.location.href], once it is set *)
}.
Definition set_status (f : danger -> policy * (jsval * jsval * jsval)) (s : danger) : danger :=
  let '(p, (d, a, r)) := f s in
  DangerState p d a r (loadingStatus s) (statusError s) (showDeleteModal s) (schedule s) (delPwd s) (delConfirm s) (actionBusy s) (policyBusy s) (cancelBusy s) (delErr s) (href s).
Definition set_policy (p : policy) (s : danger) : danger := set_status (fun s => (p, (last_activity_day s, scheduled_delete_at s, scheduled_delete_reason s))) s.
Definition set_loadingStatus (b : bool) (s : danger) : danger :=
  DangerState (shown s) (last_activity_day s) (scheduled_delete_at s) (scheduled_delete_reason s) b (statusError s) (showDeleteModal s) (schedule s)
    (delPwd s) (delConfirm s) (actionBusy s) (policyBusy s) (cancelBusy s) (delErr s) (href s).
Definition set_statusError (m : string) (s : danger) : danger :=
  DangerState (shown s) (last_activity_day s) (scheduled_delete_at s) (scheduled_delete_reason s) (loadingStatus s) m (showDeleteModal s) (schedule s)
    (delPwd s) (delConfirm s) (actionBusy s) (policyBusy s) (cancelBusy s) (delErr s) (href s).
Definition set_modal (b mode : bool) (pwd confirm err : string) (s : danger) : danger :=
  DangerState (shown s) (last_activity_day s) (scheduled_delete_at s) (scheduled_delete_reason s) (loadingStatus s) (statusError s) b mode
    pwd confirm (actionBusy s) (policyBusy s) (cancelBusy s) err (href s).
Definition set_busy (action policy_ cancel : bool) (s : danger) : danger :=
  DangerState (shown s) (last_activity_day s) (scheduled_delete_at s) (scheduled_delete_reason s) (loadingStatus s) (statusError s) (showDeleteModal s) (schedule s)
    (delPwd s) (delConfirm s) action policy_ cancel (delErr s) (href s).
Definition set_delErr (m : string) (s : danger) : danger := set_modal (showDeleteModal s) (schedule s) (delPwd s) (delConfirm s) m s.
Definition set_href (h : string) (s : danger) : danger :=
  DangerState (shown s) (last_activity_day s) (scheduled_delete_at s) (scheduled_delete_reason s) (loadingStatus s) (statusError s) (showDeleteModal s) (schedule s)
    (delPwd s) (delConfirm s) (actionBusy s) (policyBusy s) (cancelBusy s) (delErr s) (Some h).
Definition mounted : danger :=
  DangerState (Policy false 30 "days") (JStr "") (JStr "") (JStr "") true "" false false "" "" false false false "" None.

(** The inputs. A number that [parseInt] does not read is 0. *)
Definition edit_value (text : string) (s : danger) : danger :=
  set_policy (Policy (enabled (shown s)) (default 0%Z (parse_int10 (str_or text "0"))) (unit_ (shown s))) s.
Definition edit_enabled (b : bool) (s : danger) : danger := set_policy (Policy b (value (shown s)) (unit_ (shown s))) s.
Definition edit_unit (u : string) (s : danger) : danger := set_policy (Policy (enabled (shown s)) (value (shown s)) u) s.
Definition openDeleteModal (mode : bool) (s : danger) : danger := set_modal true mode "" "" "" s.

Section Handlers.
Variable origin : string.
Local Abbreviation M := (Handlers.M danger).

Definition or_empty (payload : jsval) (k : string) : jsval := js_or (prop payload k) (JStr "").
Definition applyDeletePolicy (payload : jsval) (s : danger) : danger :=
  set_status (fun _ => (policy_of payload, (or_empty payload "last_activity_day", or_empty payload "scheduled_delete_at", or_empty payload "scheduled_delete_reason"))) s.
Definition loadDeletePolicy : M unit :=
  _ <== modify (set_loadingStatus true) ;;;
  _ <== modify (set_statusError "") ;;;
  hfinally
    (hcatch
       (result <== await (getDeletePolicy origin) ;;; modify (applyDeletePolicy result))
       (fun m => modify (set_statusError (str_or m "Could not load account deletion settings"))))
    (set_loadingStatus false).
Definition savePolicy (s0 : danger) : M unit :=
  _ <== modify (set_statusError "") ;;;
  if enabled (shown s0) && (value (shown s0) <=? 0)%Z then modify (set_statusError "Choose a valid inactivity value greater than zero")
  else
    _ <== modify (fun s => set_busy (actionBusy s) true (cancelBusy s) s) ;;;
    hfinally
      (hcatch
         (result <== await (setDeletePolicy origin (policy_json (enabled (shown s0)) (value (shown s0)) (unit_ (shown s0)))) ;;;
          modify (applyDeletePolicy result))
         (fun m => modify (set_statusError (str_or m "Could not save inactivity delete policy"))))
      (fun s => set_busy (actionBusy s) false (cancelBusy s) s).
Definition cancelScheduledDeletion : M unit :=
  _ <== modify (set_statusError "") ;;;
  _ <== modify (fun s => set_busy (actionBusy s) (policyBusy s) true s) ;;;
  hfinally
    (hcatch
       (_ <== await (cancelAccountDeletion origin) ;;; loadDeletePolicy)
       (fun m => modify (set_statusError (str_or m "Could not cancel scheduled deletion"))))
    (fun s => set_busy (actionBusy s) (policyBusy s) false s).

(** A policy that is saved is shown, now and after a reload; one that is not leaves the form
    as it was, with a reason. *)
Lemma policy_is_saved s a : (0 < value (shown s))%Z -> unit_ (shown s) ∈ units ->
  let p := shown s in
  let stored := if enabled p then p else Policy false 30 "days" in
  exists a' s', run (settings_respond origin) a (savePolicy s s) = (a', Ok (s', Ok tt)) /\ policyBusy s' = false /\
    ((statusError s' <> "" /\ shown s' = p) \/
     (statusError s' = "" /\ shown s' = stored /\ has_policy (enabled p) (value p) (unit_ p) a' /\
      (fates a' = [] -> exists s'', run (settings_respond origin) a' (loadDeletePolicy mounted) = (a', Ok (s'', Ok tt)) /\ shown s'' = stored))).
Proof.
  intros Hv Hu p stored. unfold savePolicy. erewrite run_hbind by reflexivity. fold p. assert (enabled p && (value p <=? 0)%Z = false) as ->
    by (destruct (enabled p); [cbn; fold p in Hv; lia | done]).
  erewrite run_hbind by reflexivity. rewrite run_hfinally, run_hcatch. fold p in Hv, Hu.
  assert (printable (policy_json (enabled p) (value p) (unit_ p)) = true) as Hb by (by apply policy_printable).
  destruct (outcome (apiAccountDeletePolicyPut (Some (policy_json (enabled p) (value p) (unit_ p)))) (body_or_error "delete policy save") a) as [a1 [j|m]] eqn:E.
  - erewrite run_hbind by (apply run_await; rewrite run_setDeletePolicy by done; exact E). eexists a1, _. split; [reflexivity|]. split; [done|]. right.
    apply outcome_ok in E as (r & E & Hj); [|done]. assert (rp_ok r = true) as Hr.
    { unfold body_or_error, throw_error in Hj. destruct (rp_ok r); [done|]. by destruct (getp _ _). }
    destruct (policy_accepted _ _ _ _ a1 r Hv Hu E Hr) as (-> & Hp & _). destruct (policy_shown _ _ _ a1 Hv Hu Hp) as (j' & Ej & Hs).
    assert (j = j') as -> by (unfold body_or_error, json_or_empty in Hj; rewrite Hr, Ej in Hj; by injection Hj).
    assert (stored = policy_of j') as Hst by (rewrite Hs; unfold stored; by destruct p as [[] ? ?]). split_and!; [done | done | done |].
    intros Hf. eexists. split.
    2:{ transitivity (policy_of j'); [|symmetry; exact Hst]. instantiate (1 := set_loadingStatus false (applyDeletePolicy j' (set_statusError "" (set_loadingStatus true mounted)))). done. }
    unfold loadDeletePolicy. erewrite run_hbind by reflexivity. erewrite run_hbind by reflexivity.
    rewrite run_hfinally, run_hcatch.
    erewrite run_hbind by (apply run_await; rewrite run_getDeletePolicy, outcome_answered by done; unfold body_or_error, json_or_empty; cbn [snd fst apiAccountDeletePolicyGet]; rewrite Ej; reflexivity).
    reflexivity.
  - erewrite run_hbind_throw by (apply run_await_res; rewrite run_setDeletePolicy by done; exact E). eexists a1, _. split; [reflexivity|]. split; [done|]. left.
    split; [|done]. by apply str_or_nonempty.
Qed.

(** *** A second factor *)

Variable confirmed : bool.                              (** [window.confirm]: a security key is to be used *)
Variable prompted : option string.                      (** [window.prompt] *)
Variable webauthn : option (jsval -> res jsval).        (** [ElvishWebAuthn.getAssertion] *)

Definition no_factors : jsval :=
  JObj [("enabled", JBool false); ("methods", JArr []); ("totp_factors", JArr []); ("webauthn_factors", JArr []); ("recovery_remaining", JNum 0)].
Definition getTwoFactorInfo : prog jsval :=
  result <- getTwoFactorStatus origin ;; Ret (if truthy result && truthy (prop result "mfa") then prop result "mfa" else no_factors).
Definition six_digits (code : string) : bool :=
  let d := filter_chars (fun c => negb (is_ws c)) code in (String.length d =? 6) && all_chars is_digit d.
Definition verify_key (getAssertion : jsval -> res jsval) : prog jsval :=
  begin <- beginWebAuthnVerification origin ;;
  o <- lift (getp begin "options") ;;
  credential <- lift (getAssertion o) ;;
  id <- lift (getp begin "challenge_id") ;;
  finishWebAuthnVerification origin id credential.
Definition verify_code : prog jsval :=
  match prompted with
  | None => Raise "Two-factor verification was cancelled"
  | Some code =>
      let normalized := trim code in
      if normalized =s? "" then Raise "Two-factor verification was cancelled"
      else if six_digits normalized then verifyTwoFactorTOTP origin (JStr normalized)
      else verifyTwoFactorRecovery origin (JStr normalized)
  end.
Definition ensureFreshTwoFactor (status : option jsval) : prog jsval :=
  current <- match status with Some s => if truthy s then Ret s else getTwoFactorInfo | None => getTwoFactorInfo end ;;
  if negb (truthy current && truthy (prop current "enabled")) then Ret current
  else
    let methods := to_list (prop current "methods") in
    _ <- match webauthn with
         | Some getAssertion => if SignIn.includes_method "webauthn" methods && confirmed then verify_key getAssertion else verify_code
         | None => verify_code
         end ;;
    getTwoFactorInfo.
Definition stale : string := "recent 2fa verification required".
Definition runWithFreshTwoFactor {A} (action : prog A) (status : option jsval) : prog A :=
  try_catch action (fun message => if negb (includes message stale) then Raise message else _ <- ensureFreshTwoFactor status ;; action).

(** *** Deleting *)

Variable digest : string -> string.
Variable scripts : Accounts.loaded.
Variable random : string.

Definition delete_request (s0 : danger) : prog jsval :=
  if schedule s0 then Accounts.scheduleAccountDeletion digest origin scripts random (delPwd s0) (JStr (delConfirm s0))
  else Accounts.deleteAccount digest origin scripts random (delPwd s0) (JStr (delConfirm s0)).
Definition deleting (s0 : danger) : M unit :=
  _ <== await (runWithFreshTwoFactor (delete_request s0) None) ;;;
  if schedule s0
  then _ <== modify (fun s => set_modal false (schedule s) (delPwd s) (delConfirm s) (delErr s) s) ;;; loadDeletePolicy
  else modify (set_href "/").
Definition submitDelete (s0 : danger) : M unit :=
  _ <== modify (set_delErr "") ;;;
  if negb (delConfirm s0 =s? "DELETE") then modify (set_delErr "Confirmation must be exactly DELETE")
  else
    _ <== modify (fun s => set_busy true (policyBusy s) (cancelBusy s) s) ;;;
    hfinally
      (hcatch
         (deleting s0)
         (fun m => modify (set_delErr (str_or m "Could not update account deletion"))))
      (fun s => set_busy false (policyBusy s) (cancelBusy s) s).

(** The action is tried once; or it is tried, a second factor is asked for, and it is tried
    once more. *)
Lemma gate_runs {A} (action : prog A) status tr out : runs (runWithFreshTwoFactor action status) tr out ->
  (runs action tr out /\ (forall m, out = Throw m -> includes m stale = false)) \/
  exists t1 t2 m, tr = t1 ++ t2 /\ runs action t1 (Throw m) /\ includes m stale = true /\
    ((exists e, runs (ensureFreshTwoFactor status) t2 (Throw e) /\ out = Throw e) \/
     exists u1 u2 j, t2 = u1 ++ u2 /\ runs (ensureFreshTwoFactor status) u1 (Ok j) /\ runs action u2 out).
Proof.
  unfold runWithFreshTwoFactor. intros [(a & -> & H)|(t1 & t2 & m & -> & H1 & H2)]%runs_try_catch; [left; by split|].
  destruct (includes m stale) eqn:E; cbn [negb] in H2.
  - right. exists t1, t2, m. split_and!; [done.. |]. apply runs_bind_inv in H2 as [(u1 & u2 & j & -> & H2 & H3)|(e & -> & H2)]; [right; eauto 7 | left; eauto].
  - inversion H2; subst. rewrite app_nil_r. left. split; [done|]. by intros ? [= <-].
Qed.
Lemma triple_reload (P : danger -> Prop) :
  (forall b s, P s -> P (set_loadingStatus b s)) -> (forall m s, P s -> P (set_statusError m s)) -> (forall j s, P s -> P (applyDeletePolicy j s)) ->
  triple P loadDeletePolicy P (fun _ => False).
Proof.
  intros Hl He Ha. unfold loadDeletePolicy. eapply triple_bind; [apply triple_modify; by apply Hl|]. intros _.
  eapply triple_bind; [apply triple_modify; by apply He|]. intros _. apply triple_finally with (Q := P) (E := fun _ => False); [|by apply Hl|done].
  apply triple_catch with (E := P).
  - eapply triple_bind; [by apply triple_await|]. intros j. apply triple_modify. intros s. apply Ha.
  - intros m. apply triple_modify. intros s. apply He.
Qed.

(** The requests of the form: what they come to, and what is shown then. *)
Lemma submit_runs s s0 tr s1 r : href s0 = None ->
  runs (deleting s s0) tr (Ok (s1, r)) ->
  match r with
  | Ok _ => if schedule s then href s1 = None
            else href s1 = Some "/" /\ exists t1 t2 j, tr = t1 ++ t2 /\ runs (delete_request s) t2 (Ok j)
  | Throw _ => href s1 = None
  end.
Proof.
  intros Hh [(t1 & t2 & s2 & j & -> & (r' & [= <- <-] & H1)%runs_await & H2)|[(s2 & m & [= -> ->] & (r' & [= -> <-] & _)%runs_await)|(m & ? & _)] ]%runs_hbind; [| done | done].
  destruct (schedule s).
  - assert (triple (fun s => href s = None) (_ <== modify (fun s => set_modal false (schedule s) (delPwd s) (delConfirm s) (delErr s) s) ;;; loadDeletePolicy)
      (fun s => href s = None) (fun _ => False)) as Ht by (apply triple_bind with (Q := fun s => href s = None); [by apply triple_modify|]; intros _; by apply triple_reload).
    destruct (Ht s2 t2 _ Hh H2) as (s3 & r3 & [= <- <-] & H3). by destruct r.
  - inversion H2; subst. split; [done|]. rewrite app_nil_r.
    apply gate_runs in H1 as [ [H1 _]|(u1 & u2 & m & -> & _ & _ & [(e & _ & ?)|(v1 & v2 & x & -> & _ & H1)])]; [by exists [], t1, j | done |].
    exists (u1 ++ v1), v2, j. by rewrite app_assoc.
Qed.

Lemma submit_never_throws s s0 tr m :
  ~ runs (deleting s s0) tr (Throw m).
Proof.
  assert (triple (fun _ => True) (deleting s) (fun _ => True) (fun _ => True)) as Ht.
  { apply triple_bind with (Q := fun _ => True); [by apply triple_await|]. intros _. destruct (schedule s); [|by apply triple_modify].
    apply triple_bind with (Q := fun _ => True); [by apply triple_modify|]. intros _.
    eapply triple_consequence; [apply (triple_reload (fun _ => True)); done | done..]. }
  intros Hr. by destruct (Ht s0 tr _ I Hr) as (s1 & r & ? & _).
Qed.

(** the page of a deleted account is left, and no other: sending the form ends; the page is
    left only when the deletion was confirmed and the last requests sent are one that the
    server has answered as done; otherwise it says why, unless the deletion is scheduled. *)
Theorem account_page_is_left s tr out : runs (submitDelete s s) tr out -> href s = None -> actionBusy s = false ->
  exists s', out = Ok (s', Ok tt) /\ actionBusy s' = false /\
    (href s' <> None -> schedule s = false /\ delConfirm s = "DELETE" /\
       exists t1 t2 j, tr = t1 ++ t2 /\ runs (Accounts.deleteAccount digest origin scripts random (delPwd s) (JStr "DELETE")) t2 (Ok j)) /\
    (href s' = None -> schedule s = true \/ delErr s' <> "").
Proof.
  intros Hr Hh Hb. unfold submitDelete in Hr. cbn [hbind modify bind] in Hr.
  destruct (String.eqb_spec (delConfirm s) "DELETE") as [Hc|Hc]; cbn [negb] in Hr.
  2:{ inversion Hr; subst. eexists. split; [done|]. split_and!; [done | done | by right]. }
  unfold hfinally in Hr. cbn [hbind modify bind] in Hr. set (s0 := set_busy true _ _ _) in Hr.
  assert (href s0 = None) as Hh0 by exact Hh.
  apply runs_bind_inv in Hr as [(t1 & t2 & [s1 r] & -> & H1 & H2)|(m & -> & H1)].
  - inversion H2; subst t2 out. rewrite app_nil_r. cbn [fst snd].
    apply runs_hcatch in H1 as [(s2 & [] & [= <- ->] & H1)|[(t1' & t2' & s2 & m & -> & H1 & H3)|(m & ? & _)] ]; [| |done].
    + pose proof (submit_runs s s0 t1 s1 (Ok tt) Hh0 H1) as Hs. cbn iota in Hs.
      eexists. split; [done|]. split; [done|]. cbn [href delErr set_busy]. destruct (schedule s) eqn:Es; [split; [by rewrite Hs | by left]|].
      destruct Hs as [-> (u1 & u2 & j & Et & Hj)]. split; [|done]. intros _. split_and!; [done | done |].
      exists u1, u2, j. split; [done|]. unfold delete_request in Hj. by rewrite Es, Hc in Hj.
    + pose proof (submit_runs s s0 t1' s2 (Throw m) Hh0 H1) as Hs. cbn iota in Hs. inversion H3; subst.
      eexists. split; [done|]. split; [done|]. cbn [href delErr set_busy set_delErr set_modal]. rewrite Hs. split; [done|]. intros _. right. by apply str_or_nonempty.
  - exfalso. apply runs_hcatch in H1 as [(s2 & a & ? & _)|[(u1 & u2 & s2 & e & -> & _ & H1)|(e & [= <-] & H1)] ]; [done | by inversion H1 |].
    by apply submit_never_throws in H1.
Qed.
End Handlers.
End Danger.

(** ** Witnesses *)

Section Samples.
Definition sample_origin : string := "https://elvish.example".
Definition sample_account (l : list fate) : account :=
  Account true false true 20 (Some "2026-01-01T00:00:00Z") [("inbox", Some 90%Z); ("projects", Some 7%Z)] 0 "" "2026-02-01" "" "" "now" l.
Definition sample_form : Privacy.form := Privacy.Form (Privacy.shown_options (sample_account [])) (Privacy.shown_days (sample_account [])) false "".

Lemma form_follows_server_witness : exists a s,
  run (settings_respond sample_origin) (sample_account [Refused]) (Privacy.perform sample_origin (Privacy.SetDays Privacy.Inbox "60") sample_form sample_form) = (a, Ok (s, Ok tt)) /\
  Privacy.inbox (Privacy.retentionDays s) = Some 90%Z /\ Privacy.error s = "".
Proof.
  destruct (Privacy.form_follows_server sample_origin (Privacy.SetDays Privacy.Inbox "60") sample_form (sample_account [Refused]) Refused) as (a & s & Hr & [_ Hd] & _ & He);
    [split; reflexivity | reflexivity | reflexivity | reflexivity |].
  exists a, s. split; [exact Hr|]. split; [|exact He]. pose proof (f_equal fst Hr) as Ha. vm_compute in Ha. rewrite Hd, <- Ha. reflexivity.
Defined.

Lemma failed_load_overwrites_witness : exists a1 s1 a2 s2,
  run (settings_respond sample_origin) (sample_account [Refused]) (Privacy.loadConsent sample_origin Privacy.mounted) = (a1, Ok (s1, Ok tt)) /\
  wkd_publish a1 = false /\ setup_completed_at a1 = Some "2026-01-01T00:00:00Z" /\
  run (settings_respond sample_origin) a1 (Privacy.perform sample_origin (Privacy.SetIdle "30") s1 s1) = (a2, Ok (s2, Ok tt)) /\
  wkd_publish a2 = true /\ setup_completed_at a2 = None.
Proof.
  destruct (Privacy.failed_load_overwrites sample_origin (sample_account [Refused]) "30" 30) as (a1 & s1 & a2 & s2 & Hr & _ & Ha & Hr2 & _ & Hw & _ & Hs);
    [reflexivity.. |].
  exists a1, s1, a2, s2. split; [exact Hr|]. split; [rewrite Ha; reflexivity|]. split; [rewrite Ha; reflexivity|]. split; [exact Hr2|]. split; [exact Hw | exact Hs].
Defined.

Definition sample_setup : Setup.setup := Setup.SetupState true false true 14 (Policy true 6 "months") true None.
Lemma setup_is_kept_witness : exists a1 s1 a2 s2,
  run (settings_respond sample_origin) (sample_account [Answered; Lost]) (Setup.saveRetentionSetup sample_origin sample_setup true true sample_setup) = (a1, Ok (s1, Ok tt)) /\
  Setup.opened s1 = true /\ inactive_value a1 = 6%Z /\
  run (settings_respond sample_origin) a1 (Setup.saveRetentionSetup sample_origin s1 true true s1) = (a2, Ok (s2, Ok tt)) /\ Setup.opened s2 = false.
Proof.
  destruct (Setup.setup_is_kept sample_origin sample_setup (sample_account [Answered; Lost]) true true) as (a1 & s1 & Hr & _ & Ho & _);
    [repeat split; [reflexivity.. |]; right; right; left | reflexivity |].
  pose proof Hr as Hc. vm_compute in Hc. injection Hc as <- <-.
  destruct (Ho eq_refl) as (_ & _ & _ & _ & Hagain). destruct Hagain as [a2 [s2 [Hr2 Ho2] ] ]; [reflexivity.. |]. eexists _, _, a2, s2. split; [exact Hr|]. split; [reflexivity|]. split; [reflexivity|].
  split; [exact Hr2 | exact Ho2].
Defined.

(** A server that asks for a second factor before it deletes. *)
Definition guarded (verified : bool) (rq : request) : bool * option response :=
  let ends t := rq_url rq =s? sample_origin +:+ t in
  let ok j := Some (Response 200 (Some (JObj j)) "") in
  if ends "/api/auth/me" then (verified, ok [("user", JObj [("username", JStr "u")])])
  else if ends "/api/auth/account-delete/begin" then (verified, ok [("salt_b64", JStr (btoa "s")); ("server_public_b64", JStr (btoa "p")); ("session_id", JStr "sid")])
  else if ends "/api/auth/account-delete/now" then
    (verified, if verified then ok [] else Some (Response 403 (Some (JObj [("error", JStr Danger.stale)])) ""))
  else if ends "/api/auth/2fa" then (verified, ok [("mfa", JObj [("enabled", JBool true); ("methods", JArr [JStr "totp"])])])
  else (true, ok []).
Definition sample_danger : Danger.danger := Danger.set_modal true false "pw" "DELETE" "" Danger.mounted.
Definition sample_delete (code : string) :=
  Danger.submitDelete sample_origin false (Some code) None Srp.toy_digest (Accounts.Loaded true true true) "r" sample_danger sample_danger.
Lemma account_page_is_left_witness : exists tr s, runs (sample_delete "123 456") tr (Ok (s, Ok tt)) /\ Danger.href s = Some "/" /\
  exists t1 t2 j, tr = t1 ++ t2 /\ runs (Accounts.deleteAccount Srp.toy_digest sample_origin (Accounts.Loaded true true true) "r" "pw" (JStr "DELETE")) t2 (Ok j).
Proof.
  destruct (run_runs guarded (sample_delete "123 456") false) as [tr Hr].
  destruct (Danger.account_page_is_left sample_origin false (Some "123 456") None Srp.toy_digest (Accounts.Loaded true true true) "r" sample_danger tr _ Hr eq_refl eq_refl)
    as (s & Hs & _ & Hl & _).
  assert (Danger.href s = Some "/") as Hh.
  { pose proof (f_equal (fun r => match r with Ok p => Danger.href p.1 | Throw _ => None end) Hs) as E. vm_compute in E. exact (eq_sym E). }
  exists tr, s. rewrite <- Hs. split; [exact Hr|]. split; [exact Hh|]. destruct Hl as (_ & _ & Hl); [rewrite Hh; discriminate | exact Hl].
Defined.
End Samples.
