(* ===== verification/PageEffects.v ===== *)
(** * What the mail page does by itself ([static/mail/mail-app.jsx], [MailApp])

    The effects that follow a change of the list: the selected message is marked as read,
    the profiles of unknown senders are fetched, and the filters run after a pause. *)
From Stdlib Require Import ZArith Lia Ascii.
From stdpp Require Import strings list gmap sets relations.
From S2P Require Import Prelude JsString JsValue Addresses FilterEngine Http Handlers Manifest Selection FolderLoad.
Local Open Scope nat_scope.

(** ** The selected message is read *)

Module Reading.

(** [readInFlightRef]; [sent]: the requests begun, newest first, [settled] those that ended. *)
Record reading := ReadingState {
  messages : list entry;
  focusId : option string;
  readInFlight : gset string;
  toast : option string;
  sent : list string;
  settled : list string;
}.

(** Without a search [visibleMessages] is the list. *)
Definition selectedMessage (s : reading) : option entry :=
  match focusId s with None => None | Some i => List.find (fun m => e_id m =s? i) (messages s) end.
Definition mark (id : string) (b : bool) (l : list entry) : list entry := map (fun m => if e_id m =s? id then with_read b m else m) l.

(** The effect on [selectedMessage]. *)
Definition effect (s : reading) : reading :=
  match selectedMessage s with
  | None => s
  | Some m =>
      if e_read m || bool_decide (e_id m ∈ readInFlight s) then s
      else ReadingState (mark (e_id m) true (messages s)) (focusId s) ({[e_id m]} ∪ readInFlight s) (toast s) (e_id m :: sent s) (settled s)
  end.
(** The request is fulfilled, or rejected: then the list changes back, and the effect runs
    after [finally]. *)
Definition fulfilled (id : string) (s : reading) : reading :=
  ReadingState (messages s) (focusId s) (readInFlight s ∖ {[id]}) (toast s) (sent s) (id :: settled s).
Definition rejected (id m : string) (s : reading) : reading :=
  ReadingState (mark id false (messages s)) (focusId s) (readInFlight s ∖ {[id]}) (Some (str_or m "Could not mark email as read")) (sent s) (id :: settled s).
(** Anything else that changes the list or the selection. *)
Definition change (f : list entry -> list entry) (focus : option string) (s : reading) : reading :=
  ReadingState (f (messages s)) focus (readInFlight s) (toast s) (sent s) (settled s).

Inductive step : reading -> reading -> Prop :=
| step_effect s : step s (effect s)
| step_fulfilled id s : id ∈ readInFlight s -> step s (fulfilled id s)
| step_rejected id m s : id ∈ readInFlight s -> step s (rejected id m s)
| step_change f focus s : step s (change f focus s).

(** *** Requests *)

Definition fresh (l : list entry) (focus : option string) : reading := ReadingState l focus ∅ None [] [].
Definition count (i : string) (l : list string) : nat := length (List.filter (fun j => j =s? i) l).
Lemma count_cons i j l : count i (j :: l) = (if j =s? i then 1 else 0) + count i l.
Proof. unfold count. cbn [List.filter]. by destruct (j =s? i). Qed.

(** Requests that were begun have ended, or are in flight. *)
Definition accounted (s : reading) : Prop :=
  forall i, count i (sent s) = count i (settled s) + (if decide (i ∈ readInFlight s) then 1 else 0).

Lemma settle_accounted i s (s' : reading) : i ∈ readInFlight s -> accounted s ->
  sent s' = sent s -> settled s' = i :: settled s -> readInFlight s' = readInFlight s ∖ {[i]} -> accounted s'.
Proof.
  intros Hi Ha E1 E2 E3 j. rewrite E1, E2, E3, count_cons, Ha. destruct (String.eqb_spec i j) as [->|Hj].
  - rewrite decide_True by done. rewrite decide_False by set_solver. lia.
  - destruct (decide (j ∈ readInFlight s)); [rewrite decide_True by set_solver | rewrite decide_False by set_solver]; lia.
Qed.
Lemma step_accounted s s' : step s s' -> accounted s -> accounted s'.
Proof.
  intros [s0|id s0 Hi|id m s0 Hi|f focus s0] Ha.
  - unfold effect. destruct (selectedMessage s0) as [m|]; [|done]. destruct (e_read m); [done|]. cbn [orb].
    destruct (bool_decide (e_id m ∈ readInFlight s0)) eqn:E; [done|]. apply bool_decide_eq_false in E. intros j. cbn [sent settled readInFlight].
    rewrite count_cons, Ha. destruct (String.eqb_spec (e_id m) j) as [<-|Hj].
    + rewrite decide_False by done. rewrite decide_True by set_solver. lia.
    + destruct (decide (j ∈ readInFlight s0)); [rewrite decide_True by set_solver | rewrite decide_False by set_solver]; lia.
  - by apply (settle_accounted id s0).
  - by apply (settle_accounted id s0).
  - done.
Qed.

(** there are never two requests about one message: whatever happens to the list and the
    selection in between, every request that was begun has ended, or is the one in flight. *)
Theorem one_read_request_at_a_time l focus s i : rtc step (fresh l focus) s ->
  count i (sent s) = count i (settled s) + (if decide (i ∈ readInFlight s) then 1 else 0).
Proof.
  intros Hr. enough (accounted s) as Ha by apply Ha. assert (accounted (fresh l focus)) as H0.
  { intros j. cbn [fresh sent settled readInFlight]. rewrite decide_False by set_solver. done. }
  revert H0. induction Hr as [|s1 s2 s3 Hs _ IH]; [done|]. intros H1. by apply IH, (step_accounted s1).
Qed.

Lemma selected_marked i b s : focusId s = Some i ->
  List.find (fun m => e_id m =s? i) (mark i b (messages s)) = with_read b <$> List.find (fun m => e_id m =s? i) (messages s).
Proof.
  intros _. unfold mark. induction (messages s) as [|m l IH]; [done|]. cbn [map List.find]. destruct (e_id m =s? i) eqn:E.
  - change (e_id (with_read b m)) with (e_id m). by rewrite E.
  - by rewrite E.
Qed.

(** An effect on a selected, unread message, and the answer to its request. *)
Lemma effect_sends i m s : focusId s = Some i -> List.find (fun m => e_id m =s? i) (messages s) = Some m -> e_read m = false -> i ∉ readInFlight s ->
  effect s = ReadingState (mark i true (messages s)) (Some i) ({[i]} ∪ readInFlight s) (toast s) (i :: sent s) (settled s).
Proof.
  intros Hf Hm Hr Hi. unfold effect, selectedMessage. rewrite Hf, Hm, Hr. pose proof (find_some _ _ Hm) as [_ ->%String.eqb_eq].
  rewrite bool_decide_false by done. done.
Qed.

(** a request that succeeds is not repeated, and one that is refused is repeated for as
    long as it is refused and the message is selected: after [n] refusals [n + 1] requests
    have been sent, with nothing done in between. *)
Theorem refused_read_is_sent_again i m s error n :
  focusId s = Some i -> List.find (fun m => e_id m =s? i) (messages s) = Some m -> e_read m = false -> i ∉ readInFlight s ->
  effect (fulfilled i (effect s)) = fulfilled i (effect s) /\
  sent (effect (Nat.iter n (fun s => rejected i error (effect s)) s)) = repeat i (S n) ++ sent s.
Proof.
  intros Hf Hm Hr Hi. split.
  - rewrite (effect_sends i m s) by done. unfold effect, selectedMessage, fulfilled. cbn [focusId messages readInFlight].
    pose proof (selected_marked i true s Hf) as E. rewrite E, Hm. done.
  - assert (forall k, let t := Nat.iter k (fun s => rejected i error (effect s)) s in
      focusId t = Some i /\ (exists m, List.find (fun m => e_id m =s? i) (messages t) = Some m /\ e_read m = false) /\ i ∉ readInFlight t /\
      sent t = repeat i k ++ sent s) as Hk.
    { induction k as [|k (H1 & (mk & H2 & H2') & H3 & H4)]; [by eauto 6|]. cbn [Nat.iter nat_rect]. set (t := Nat.iter k _ s) in *.
      change (nat_rect _ _ _ k) with t. rewrite (effect_sends i mk t) by done. unfold rejected. cbn [focusId messages readInFlight sent].
      split_and!; [done | | set_solver | by rewrite H4].
      pose proof (selected_marked i true t H1) as E1. set (t1 := ReadingState (mark i true (messages t)) (Some i) ∅ None [] []).
      pose proof (selected_marked i false t1 eq_refl) as E2. cbn [messages t1] in E2. rewrite E2, E1, H2. by eexists. }
    destruct (Hk n) as (H1 & (mk & H2 & H2') & H3 & H4). rewrite (effect_sends i mk) by done. cbn [sent]. by rewrite H4.
Qed.
End Reading.

(** ** Profiles of senders *)

Module Profiles.

(** [senderProfileIDs]: in the order of the list, each once. *)
Definition add_sender (acc : list string) (m : entry) : list string :=
  let i := canonicalizeSenderId (Recovered.m_from_addr (e_msg m)) in
  if (i =s? "") || str_mem i acc then acc else acc ++ [i].
Definition senderProfileIDs (messages : list entry) : list string := fold_left add_sender messages [].

(** [senderProfiles], and the senders it does not have. *)
Definition missingSenderIDs (messages : list entry) (profiles : gmap string jsval) : list string :=
  List.filter (fun i => match profiles !! i with None => true | Some _ => false end) (senderProfileIDs messages).
(** [lookup]: what the lookup of a profile comes to. *)
Definition entry_for (lookup : string -> res jsval) (i : string) : string * jsval :=
  (i, match lookup i with
      | Ok p => if truthy p && truthy (prop p "visible") then p else JObj [("visible", JBool false)]
      | Throw _ => JObj [("visible", JBool false)]
      end).
Definition add_profile (prev : gmap string jsval) (p : string * jsval) : gmap string jsval :=
  match prev !! p.1 with None => <[p.1 := p.2]> prev | Some _ => prev end.
(** The effect, once its lookups have ended; [prev]: the profiles by then. *)
Definition fillSenderProfiles (lookup : string -> res jsval) (missing : list string) (prev : gmap string jsval) : gmap string jsval :=
  fold_left add_profile (map (entry_for lookup) missing) prev.

Lemma add_sender_spec acc m : NoDup acc -> NoDup (add_sender acc m) /\
  forall i, i ∈ add_sender acc m <-> i ∈ acc \/ i <> "" /\ i = canonicalizeSenderId (Recovered.m_from_addr (e_msg m)).
Proof.
  intros Hd. unfold add_sender. set (c := canonicalizeSenderId _). destruct (String.eqb_spec c "") as [Ec|Ec]; cbn [orb].
  { split; [done|]. intros i. split; [by left|]. intros [? | [Hi ->] ]; [done | by rewrite Ec in Hi]. }
  destruct (str_mem c acc) eqn:E.
  - apply str_mem_spec in E. split; [done|]. intros i. split; [by left | by intros [? | [_ ->] ]].
  - assert (c ∉ acc) as Hc by (by rewrite <- str_mem_spec, E). split.
    + apply NoDup_app. split_and!; [done | | apply NoDup_singleton]. intros x Hx ->%list_elem_of_singleton. done.
    + intros i. rewrite elem_of_app, list_elem_of_singleton. split; [intros [? | ->]; [by left | by right] | intros [? | [_ ->] ]; [by left | by right]].
Qed.
Lemma senders_spec messages : NoDup (senderProfileIDs messages) /\
  forall i, i ∈ senderProfileIDs messages <-> i <> "" /\ exists m, m ∈ messages /\ i = canonicalizeSenderId (Recovered.m_from_addr (e_msg m)).
Proof.
  unfold senderProfileIDs. assert (forall acc, NoDup acc -> NoDup (fold_left add_sender messages acc) /\
    forall i, i ∈ fold_left add_sender messages acc <-> i ∈ acc \/ i <> "" /\ exists m, m ∈ messages /\ i = canonicalizeSenderId (Recovered.m_from_addr (e_msg m))) as H.
  { induction messages as [|m l IH]; intros acc Hd; cbn [fold_left].
    { split; [done|]. intros i. split; [by left|]. intros [?|(_ & m & Hm & _)]; [done | by apply elem_of_nil in Hm]. }
    destruct (add_sender_spec acc m Hd) as [Hd' Hs]. destruct (IH _ Hd') as [Hn Hi]. split; [done|]. intros i. rewrite Hi, Hs. split.
    - intros [ [? | [Hne ->] ]|(Hne & m' & Hm' & ->)]; [by left | right; split; [done|]; exists m; split; [by left | done] |
        right; split; [done|]; exists m'; split; [by right | done]].
    - intros [?|(Hne & m' & [->|Hm']%elem_of_cons & ->)]; [by left; left | by left; right | right; eauto]. }
  destruct (H [] ltac:(constructor)) as [H1 H2]. split; [done|]. intros i. rewrite H2. split; [intros [Hi|?]; [by apply elem_of_nil in Hi | done] | by right].
Qed.

Lemma add_profile_spec prev p i : add_profile prev p !! i = match prev !! i with Some v => Some v | None => if p.1 =s? i then Some p.2 else None end.
Proof.
  unfold add_profile. destruct (String.eqb_spec p.1 i) as [<-|Hi].
  - destruct (prev !! p.1) as [v|] eqn:E; [done | by rewrite lookup_insert_eq].
  - destruct (prev !! p.1); [by destruct (prev !! i)|]. rewrite lookup_insert_ne by done. by destruct (prev !! i).
Qed.
Lemma fill_spec lookup missing prev i :
  fillSenderProfiles lookup missing prev !! i = match prev !! i with Some v => Some v | None => if str_mem i missing then Some (entry_for lookup i).2 else None end.
Proof.
  unfold fillSenderProfiles. revert prev. induction missing as [|j l IH]; intros prev; cbn [map fold_left]; [by destruct (prev !! i)|].
  rewrite IH, add_profile_spec. change (str_mem i (j :: l)) with ((j =s? i) || str_mem i l). destruct (prev !! i); [done|].
  cbn [entry_for fst]. by destruct (String.eqb_spec j i) as [->|].
Qed.

(** every sender of the list gets a profile with one round of lookups: afterwards none is
    missing, so the effect does not run again, profiles that were there are kept, and only
    the senders of the list were looked up. *)
Theorem profiles_are_filled_once lookup messages seen now : seen ⊆ now ->
  let filled := fillSenderProfiles lookup (missingSenderIDs messages seen) now in
  missingSenderIDs messages filled = [] /\ now ⊆ filled /\
  forall i v, filled !! i = Some v -> now !! i = None -> exists m, m ∈ messages /\ i = canonicalizeSenderId (Recovered.m_from_addr (e_msg m)).
Proof.
  intros Hsub filled. destruct (senders_spec messages) as [_ Hs].
  assert (forall i, i ∈ missingSenderIDs messages seen <-> i ∈ senderProfileIDs messages /\ seen !! i = None) as Hm.
  { intros i. unfold missingSenderIDs. rewrite !list_elem_of_In, filter_In. destruct (seen !! i); split; intros [? ?]; done. }
  split_and!.
  - apply filter_none. intros i Hi. subst filled. rewrite fill_spec. destruct (now !! i) as [v|] eqn:E; [done|].
    assert (str_mem i (missingSenderIDs messages seen) = true) as ->; [|done]. apply str_mem_spec, Hm. split; [done|].
    destruct (seen !! i) as [v|] eqn:E'; [|done]. by rewrite (lookup_weaken _ _ _ _ E' Hsub) in E.
  - apply map_subseteq_spec. intros i v Hv. subst filled. by rewrite fill_spec, Hv.
  - intros i v. subst filled. rewrite fill_spec. intros H E. rewrite E in H. destruct (str_mem i (missingSenderIDs messages seen)) eqn:Ei; [|done].
    apply str_mem_spec, Hm in Ei as [Ei _]. by apply Hs in Ei as [_ ?].
Qed.
End Profiles.

(** ** When the filters run *)

Module FilterRuns.

(** [decryptedMessages], and the text the rules see of each ([bodyByMessageId]). *)
Definition decryptedMessages (messages : list entry) : list entry := List.filter (fun m => Recovered.m_headerDecrypted (e_msg m)) messages.
Definition add_body (acc : gmap string string) (m : entry) : gmap string string :=
  if negb (e_id m =s? "") && negb (trim (Recovered.m_preview (e_msg m)) =s? "") then <[e_id m := Recovered.m_preview (e_msg m)]> acc else acc.
Definition bodyByMessageId (messages : list entry) : gmap string string := fold_left add_body (decryptedMessages messages) ∅.

(** A run of the effect: its generation, and the list it was for. *)
Record attempt_ := Attempt { a_gen : nat; a_messages : list entry }.
(** A pass that was begun: its messages, their texts, and the rules. *)
Record pass := Pass { p_gen : nat; p_messages : list entry; p_bodies : gmap string string; p_rules : list jsval }.

(** [filterRunGenRef], [filterRunTimerRef], the attempts that wait for [listFilters], the
    passes that run, and all that were begun, newest first; [shown]: the list at the latest
    run of the effect. *)
Record runs := Runs {
  gen : nat;
  timer : option attempt_;
  asking : list attempt_;
  running : list pass;
  begun : list pass;
  shown : list entry;
}.
Definition no_runs : runs := Runs 0 None [] [] [] [].

(** The effect on [messages], [folder], [view] and the guard: its cleanup, and its next run;
    [inbox]: whether it is the unlocked inbox that is on screen. *)
Definition effect (inbox : bool) (messages : list entry) (s : runs) : runs :=
  if inbox then Runs (S (gen s)) (Some (Attempt (S (gen s)) messages)) (asking s) (running s) (begun s) messages
  else Runs (gen s) None (asking s) (running s) (begun s) (shown s).
(** 450 ms later. *)
Definition fire (s : runs) : runs :=
  match timer s with None => s | Some a => Runs (gen s) None (a :: asking s) (running s) (begun s) (shown s) end.
(** [r.filters]: a value without fields throws. *)
Definition rawRules (answer : res jsval) : option (list jsval) :=
  match answer with Ok r => match getp r "filters" with Ok v => Some (to_list v) | Throw _ => None end | Throw _ => None end.
(** [listFilters] is answered to the [k]-th that asked. *)
Definition answered (k : nat) (answer : res jsval) (s : runs) : runs :=
  match asking s !! k with
  | None => s
  | Some a =>
      let s' := Runs (gen s) (timer s) (delete k (asking s)) (running s) (begun s) (shown s) in
      match rawRules answer with
      | None => s'
      | Some rules =>
          if negb (a_gen a =? gen s) then s'
          else
            match decryptedMessages (a_messages a) with
            | [] => s'
            | l => let p := Pass (a_gen a) l (bodyByMessageId (a_messages a)) rules in
                   Runs (gen s) (timer s) (delete k (asking s)) (p :: running s) (p :: begun s) (shown s)
            end
      end
  end.
Definition ended (k : nat) (s : runs) : runs := Runs (gen s) (timer s) (asking s) (delete k (running s)) (begun s) (shown s).

Inductive step : runs -> runs -> Prop :=
| step_effect inbox messages s : step s (effect inbox messages s)
| step_fire s : step s (fire s)
| step_answered k answer s : step s (answered k answer s)
| step_ended k s : step s (ended k s).

(** *** Which passes are begun *)

Definition gens (s : runs) : list nat := map a_gen (option_list (timer s)) ++ map a_gen (asking s) ++ map p_gen (begun s).
(** Attempts are of different generations, the current one is about what is shown, and the
    passes were begun in order. *)
Definition in_order (s : runs) : Prop :=
  NoDup (gens s) /\ Forall (fun g => g <= gen s) (gens s) /\
  Forall (fun a => a_gen a = gen s -> a_messages a = shown s) (option_list (timer s) ++ asking s) /\
  Sorted.StronglySorted gt (map p_gen (begun s)).

Lemma delete_perm {A} k (l : list A) a : l !! k = Some a -> l ≡ₚ a :: delete k l.
Proof. apply delete_Permutation. Qed.

Lemma effect_in_order inbox messages s : in_order s -> in_order (effect inbox messages s).
Proof.
  intros (Hd & Hg & Hs & Ho). unfold effect. assert (Forall (fun g => g <= gen s) (map a_gen (asking s) ++ map p_gen (begun s))) as Hg'
    by (unfold gens in Hg; by apply Forall_app in Hg as [_ ?]).
  assert (NoDup (map a_gen (asking s) ++ map p_gen (begun s))) as Hd' by (unfold gens in Hd; by apply NoDup_app in Hd as (_ & _ & ?)).
  apply Forall_app in Hs as [_ Hs]. destruct inbox; unfold in_order, gens; cbn [timer asking begun gen option_list map app shown].
  - split_and!; [| | | done].
    + apply NoDup_cons. split; [|done]. intros Hi. rewrite Forall_forall in Hg'. specialize (Hg' _ Hi). cbn in Hg'. lia.
    + constructor; [done|]. eapply Forall_impl; [exact Hg'|]. cbn. lia.
    + constructor; [done|]. apply Forall_app in Hg' as [Hg' _]. pose proof (proj1 (Forall_forall _ _) Hg') as Hg2. apply Forall_forall. intros a Ha E.
      specialize (Hg2 (a_gen a) ltac:(by apply list_elem_of_fmap_2)). cbn in *. lia.
  - by split_and!.
Qed.
Lemma fire_in_order s : in_order s -> in_order (fire s).
Proof.
  intros H. unfold fire. destruct (timer s) as [a|] eqn:E; [|done]. destruct H as (Hd & Hg & Hs & Ho). unfold in_order, gens in *. rewrite E in *. by split_and!.
Qed.

Lemma asked_in_order k a s : in_order s -> asking s !! k = Some a ->
  in_order (Runs (gen s) (timer s) (delete k (asking s)) (running s) (begun s) (shown s)).
Proof.
  intros (Hd & Hg & Hs & Ho) Hk%delete_perm. unfold in_order, gens in *. cbn [timer asking begun gen shown]. rewrite Hk in Hs.
  pose proof (Permutation_map a_gen Hk) as Hm. rewrite Hm in Hd, Hg. cbn [map] in *. split_and!; [| | | done].
  - apply NoDup_app in Hd as (H1 & H2 & H3). cbn [app] in H3. apply NoDup_cons in H3 as [_ H3]. apply NoDup_app. split_and!; [done | | done].
    intros x Hx Hi. apply (H2 x Hx). by right.
  - rewrite !Forall_app in *. cbn [app] in Hg. destruct Hg as [H1 [H2 H3]]. by apply Forall_cons in H2 as [_ H2].
  - rewrite Forall_app in *. destruct Hs as [H1 H2]. by apply Forall_cons in H2 as [_ H2].
Qed.
Lemma answered_in_order k answer s : in_order s -> in_order (answered k answer s).
Proof.
  intros H. unfold answered. destruct (asking s !! k) as [a|] eqn:Hk; [|done]. destruct (rawRules answer) as [rules|]; [|by eapply asked_in_order].
  destruct (Nat.eqb_spec (a_gen a) (gen s)) as [Eg|]; cbn [negb]; [|by eapply asked_in_order].
  destruct (decryptedMessages (a_messages a)) as [|m l]; [by eapply asked_in_order|].
  pose proof (asked_in_order k a s H Hk) as (Hd & Hg & Hs & Ho). destruct H as (Hd0 & Hg0 & _ & _). apply delete_perm in Hk.
  unfold in_order, gens in *. cbn [timer asking begun gen shown map] in *.
  assert (forall x y z : list nat, x ++ y ++ a_gen a :: z ≡ₚ x ++ (a_gen a :: y) ++ z) as Hp by (intros; by rewrite <- Permutation_middle).
  pose proof (Permutation_map a_gen Hk) as Hm. cbn [p_gen]. rewrite (Hp _ _ _) at 1 2. rewrite Hm in Hd0, Hg0. split_and!; [done | done | done |].
  constructor; [done|]. rewrite !Forall_app in Hg. destruct Hg as (_ & _ & Hg). apply NoDup_app in Hd0 as (_ & _ & Hd0). cbn [map app] in Hd0.
  apply NoDup_cons in Hd0 as [Hi _]. rewrite Forall_forall in Hg |- *. intros g Hgi. specialize (Hg g Hgi).
  destruct (decide (g = a_gen a)) as [->|]; [destruct Hi; apply elem_of_app; by right | lia].
Qed.
Lemma step_in_order s s' : step s s' -> in_order s -> in_order s'.
Proof. intros []; [apply effect_in_order | apply fire_in_order | apply answered_in_order | done]. Qed.
Lemma reached_in_order s : rtc step no_runs s -> in_order s.
Proof.
  intros Hr. assert (in_order no_runs) as H0 by (unfold in_order, gens; cbn; split_and!; constructor).
  revert H0. induction Hr as [|s1 s2 s3 Hs _ IH]; [done|]. intros H1. by apply IH, (step_in_order s1).
Qed.

(** the filters run on what is shown: however pauses, answers and changes of the list
    interleave, a pass is begun only for the list of the latest change, with every decrypted
    message of it and nothing else; and each change begins at most one pass, later changes
    later ones. *)
Theorem filters_run_on_what_is_shown s k answer : rtc step no_runs s ->
  Sorted.StronglySorted gt (map p_gen (begun (answered k answer s))) /\
  (begun (answered k answer s) = begun s \/
   exists p, begun (answered k answer s) = p :: begun s /\ p_gen p = gen s /\ p_messages p = decryptedMessages (shown s) /\ p_messages p <> [] /\
     p_bodies p = bodyByMessageId (shown s) /\ rawRules answer = Some (p_rules p)).
Proof.
  intros Hr%reached_in_order. pose proof (answered_in_order k answer s Hr) as (_ & _ & _ & Ho). split; [done|]. destruct Hr as (_ & _ & Hs & _).
  unfold answered. destruct (asking s !! k) as [a|] eqn:Hk; [|by left]. destruct (rawRules answer) as [rules|]; [|by left].
  destruct (Nat.eqb_spec (a_gen a) (gen s)) as [Eg|]; cbn [negb]; [|by left].
  assert (a_messages a = shown s) as <-.
  { apply Forall_app in Hs as [_ Hs]. rewrite Forall_forall in Hs. apply (Hs a); [by eapply list_elem_of_lookup_2 | done]. }
  destruct (decryptedMessages (a_messages a)) as [|m l] eqn:El; [by left|]. right. eexists. split_and!; [reflexivity | done.. ].
Qed.

(** A pass does not wait for the one before: two can run at once. *)
Lemma passes_overlap m : Recovered.m_headerDecrypted (e_msg m) = true ->
  exists s, rtc step no_runs s /\ length (running s) = 2.
Proof.
  intros Hm. pose (ask := fun s => fire (effect true [m] s)). pose (begin := fun s => answered 0 (Ok (JObj [])) (ask s)).
  exists (begin (begin no_runs)). assert (forall s, rtc step s (begin s)) as Hb.
  { intros s. eapply rtc_l; [apply step_effect|]. eapply rtc_l; [apply step_fire|]. apply rtc_once, step_answered. }
  split; [by etrans; apply Hb|]. assert (decryptedMessages [m] = [m]) as Hd by (unfold decryptedMessages; cbn; by rewrite Hm).
  unfold begin, ask, effect, fire, answered. cbn -[decryptedMessages bodyByMessageId]. by rewrite Hd.
Qed.
End FilterRuns.

(** ** Witnesses *)

Section Samples.
Definition sample_message (i from : string) (decrypted : bool) : entry :=
  entry_of (JObj [("id", JStr i); ("from_addr", JStr from); ("headerDecrypted", JBool decrypted)]).
Definition sample_list : list entry := [sample_message "m1" "Ann <ann@x.org>" true; sample_message "m2" "" false; sample_message "m3" "ANN@x.org" true].

Lemma one_read_request_at_a_time_witness :
  let s := Reading.effect (Reading.effect (Reading.fresh sample_list (Some "m1"))) in
  Reading.sent s = ["m1"] /\ Reading.count "m1" (Reading.sent s) = Reading.count "m1" (Reading.settled s) + 1.
Proof.
  split; [reflexivity|].
  refine (eq_trans (Reading.one_read_request_at_a_time sample_list (Some "m1") _ "m1" _) _); [|reflexivity].
  eapply rtc_l; [apply Reading.step_effect|]. apply rtc_once, Reading.step_effect.
Defined.

Lemma refused_read_is_sent_again_witness :
  Reading.sent (Reading.effect (Nat.iter 2 (fun s => Reading.rejected "m1" "mail patch 500" (Reading.effect s)) (Reading.fresh sample_list (Some "m1")))) = ["m1"; "m1"; "m1"].
Proof.
  refine (proj2 (Reading.refused_read_is_sent_again "m1" (sample_message "m1" "Ann <ann@x.org>" true) (Reading.fresh sample_list (Some "m1")) "mail patch 500" 2 _ _ _ _));
    [reflexivity | reflexivity | reflexivity | apply not_elem_of_empty].
Defined.

Definition sample_lookup (i : string) : res jsval := if i =s? "ann@x.org" then Ok (JObj [("visible", JBool true)]) else Throw "profile 404".
Lemma profiles_are_filled_once_witness :
  Profiles.missingSenderIDs sample_list ∅ = ["ann@x.org"] /\
  Profiles.missingSenderIDs sample_list (Profiles.fillSenderProfiles sample_lookup (Profiles.missingSenderIDs sample_list ∅) ∅) = [].
Proof. split; [vm_compute; reflexivity | apply (Profiles.profiles_are_filled_once sample_lookup sample_list ∅ ∅); reflexivity]. Defined.

Definition sample_runs : FilterRuns.runs := FilterRuns.fire (FilterRuns.effect true sample_list (FilterRuns.fire (FilterRuns.effect true [] FilterRuns.no_runs))).
Lemma filters_run_on_what_is_shown_witness :
  let answer := Ok (JObj [("filters", JArr [JStr "rule"])]) in
  map FilterRuns.p_gen (FilterRuns.begun (FilterRuns.answered 1 answer (FilterRuns.answered 0 answer sample_runs))) = [2] /\
  Sorted.StronglySorted gt (map FilterRuns.p_gen (FilterRuns.begun (FilterRuns.answered 0 answer sample_runs))).
Proof.
  split; [reflexivity|]. apply (FilterRuns.filters_run_on_what_is_shown sample_runs 0).
  unfold sample_runs. eapply rtc_l; [apply (FilterRuns.step_effect true [])|]. eapply rtc_l; [apply FilterRuns.step_fire|].
  eapply rtc_l; [apply (FilterRuns.step_effect true sample_list)|]. apply rtc_once, FilterRuns.step_fire.
Defined.
End Samples.
