(* ===== verification/MessageView.v ===== *)
(** * The open message ([static/mail/mail-app.jsx], [MessageDetail])

    The body that is decrypted and shown, the signature that is checked next to it, and the
    button that trusts its key. A decryption and a check are split where they wait; what the
    cache, the server and the vault answer may depend on the time. The component stays when
    another message is selected: what is shown is forgotten, what is outstanding is not. *)
From Stdlib Require Import ZArith Lia Ascii.
From stdpp Require Import strings list relations.
From S2P Require Import Prelude JsString JsValue Json Split Base64 Text Signature Patterns HtmlText Mime Addresses FilterEngine MailCache Reader Recovered FolderLoad.
Local Open Scope nat_scope.

(** ** What the server says of the encryption of a message *)

Record encryption_label := EncryptionLabel { el_id : string; el_label : string; el_title : string; el_flagClass : string }.
Definition messageEncryptionDisplay (provenance : string) : encryption_label :=
  let p := trim provenance in
  if p =s? "client_encrypted" then
    EncryptionLabel "e2ee" "E2EE encrypted"
      "Encrypted end-to-end by the Elvish client before upload. Strongest when both sides use Elvish; the server only stores ciphertext." "mail-enc-e2ee"
  else if (p =s? "already_encrypted") || (p =s? "sender_pgp_mime") then
    EncryptionLabel "pgp" "PGP encrypted"
      (if p =s? "already_encrypted" then "Arrived over SMTP already wrapped in OpenPGP for your key."
       else "Body is stored as OpenPGP-encrypted mail (e.g. external PGP or a PGP-wrapped SMTP submission).") "mail-enc-pgp"
  else if p =s? "smtp_gateway_encrypted" then
    EncryptionLabel "stored" "Stored encrypted"
      "Plaintext reached the gateway and was wrapped to your identity key before storage (legacy inbound SMTP path)." "mail-enc-stored"
  else
    EncryptionLabel "unknown" "Encrypted"
      (if p =s? "" then "Encrypted payload; provenance not reported." else "Encrypted payload (server provenance: " +:+ p +:+ ").") "mail-enc-unknown".

(** ** The state *)

(** What is shown of a signature, with the key that can be trusted. *)
Record signature_state := SignatureState {
  s_status : string;
  s_error : string;
  s_signerFingerprint : string;
  s_source : string;
  s_senderEmail : string;
  s_displayTrust : string;
  s_trustArmored : string;
  s_trustSource : string;
  s_trustHint : string;
}.
Definition only_status (status error : string) : signature_state := SignatureState status error "" "" "" "" "" "" "".
(** [describeSignatureState] of it. *)
Definition label_of (st : option signature_state) : option sig_label :=
  match st with
  | Some st => describeSignatureState (SigState (s_status st) (s_displayTrust st) (s_source st) (s_trustHint st) (s_error st))
  | None => None
  end.

(** The arguments of a check: the four [lastSig] references. *)
Record sig_args := SigArgs { sa_blob : string; sa_decryptFingerprint : string; sa_fromAddr : string; sa_attachments : list att_row }.
Inductive body_view := Plain | Html.

Record view := View {
  message : option entry;
  bodyText : option string;
  bodyHtml : string;
  bodyView : body_view;
  attachments : list att_row;
  bodyErr : string;
  signatureState : option signature_state;
  busy : bool;
  trustBusy : bool;
  trustErr : string;
  attemptedMessage : string;
  verificationRun : nat;
  lastSig : option sig_args;
}.
Definition mounted : view := View None None "" Plain [] "" None false false "" "" 0 None.

Definition set_body (t : option string) (html : string) (atts : list att_row) (s : view) : view :=
  View (message s) t html (if html =s? "" then Plain else Html) atts (bodyErr s) (signatureState s) (busy s) (trustBusy s) (trustErr s) (attemptedMessage s)
    (verificationRun s) (lastSig s).
Definition set_bodyErr (m : string) (s : view) : view :=
  View (message s) (bodyText s) (bodyHtml s) (bodyView s) (attachments s) m (signatureState s) (busy s) (trustBusy s) (trustErr s) (attemptedMessage s)
    (verificationRun s) (lastSig s).
Definition set_signature (st : option signature_state) (s : view) : view :=
  View (message s) (bodyText s) (bodyHtml s) (bodyView s) (attachments s) (bodyErr s) st (busy s) (trustBusy s) (trustErr s) (attemptedMessage s)
    (verificationRun s) (lastSig s).
Definition set_busy (b : bool) (s : view) : view :=
  View (message s) (bodyText s) (bodyHtml s) (bodyView s) (attachments s) (bodyErr s) (signatureState s) b (trustBusy s) (trustErr s) (attemptedMessage s)
    (verificationRun s) (lastSig s).
Definition set_trust (b : bool) (m : string) (s : view) : view :=
  View (message s) (bodyText s) (bodyHtml s) (bodyView s) (attachments s) (bodyErr s) (signatureState s) (busy s) b m (attemptedMessage s)
    (verificationRun s) (lastSig s).
Definition set_attempted (id : string) (s : view) : view :=
  View (message s) (bodyText s) (bodyHtml s) (bodyView s) (attachments s) (bodyErr s) (signatureState s) (busy s) (trustBusy s) (trustErr s) id
    (verificationRun s) (lastSig s).
Definition begin_run (a : sig_args) (s : view) : view :=
  View (message s) (bodyText s) (bodyHtml s) (bodyView s) (attachments s) (bodyErr s) (Some (only_status "checking" "")) (busy s) (trustBusy s) (trustErr s)
    (attemptedMessage s) (S (verificationRun s)) (Some a).

Definition message_id (o : option entry) : string := match o with Some e => e_id e | None => "" end.
(** Another message, or a new object of the same one; and the effect on [message.id]. *)
Definition select (o : option entry) (s : view) : view :=
  if message_id o =s? message_id (message s) then
    View o (bodyText s) (bodyHtml s) (bodyView s) (attachments s) (bodyErr s) (signatureState s) (busy s) (trustBusy s) (trustErr s) (attemptedMessage s)
      (verificationRun s) (lastSig s)
  else View o None "" Plain [] "" None (busy s) (trustBusy s) "" "" (S (verificationRun s)) (lastSig s).

(** What is read out of a payload of the cache. *)
Definition cached_envelope_of (payload : jsval) : option cached_envelope :=
  if truthy payload then
    Some (CachedEnvelope (text_of "bodyText" payload) (text_of "bodyHtml" payload) (atts_of "attachments" payload)
            (if truthy (prop payload "recovered") then Some (recovered_of (prop payload "recovered")) else None))
  else None.

(** The rows whose bytes are there. *)
Definition with_bytes (rows : list att_row) : list attachment :=
  omap (fun a => (fun b => Attachment (ar_file_name a) (ar_content_type a) b) <$> ar_bytes a) rows.

(** ** What is asked for *)

(** The answers of the cache, the server, the vault and OpenPGP at a time. *)
Class Services := {
  getEnvelope : nat -> string -> res jsval;
  fetchBlob : nat -> string -> res string;
  tryDefaultDecrypt : nat -> string -> res (string * string);
  decryptToString : nat -> string -> string -> res string;
  decryptForIdentityResult : nat -> string -> string -> string -> res (string * summary);
  verifyNestedSignedPayloadAfterDecrypt : nat -> string -> string -> res (option summary);
  key_fingerprint : string -> res string;
  getContactKey : nat -> string -> res jsval;
  lookupKey : nat -> string -> res jsval;
  putContactKey : nat -> string -> string -> string -> res unit;
}.

Section View.
Context `{Services}.
Variable DOMParser : option dom.
Variable identities : list jsval.
Variable cache_on : bool.               (** [window.ElvishMailCache] is there *)

(** ** The body *)

Fixpoint try_fingerprints (now : nat) (blob : string) (fps : list string) (lastErr : string) : res (string * string) :=
  match fps with
  | [] => Throw lastErr
  | fp :: fps =>
      match decryptToString now blob fp with
      | Ok text => Ok (text, fp)
      | Throw er => try_fingerprints now blob fps er
      end
  end.
Definition decryptMessageBlobLocally (now : nat) (blob : string) : res (string * string) :=
  match tryDefaultDecrypt now blob with
  | Ok r => Ok r
  | Throw e => try_fingerprints now blob (map (text_of "fingerprint") identities) e
  end.

(** Where a decryption waits. *)
Inductive stage :=
  | WaitCache (version : string)
  | WaitBlob
  | WaitText (blob : string)
  | WaitSigBlob (c : cached_envelope)
  | WaitSigText (c : cached_envelope) (sigBlob : string).
Record job := Job { j_entry : entry; j_stage : stage }.

(** ** The signature *)

(** Where a check waits, with the keys, the outer summary and the merged one. [v_trust]: the
    check is awaited by the button that trusts a key. *)
Inductive check_stage :=
  | WaitKeys
  | WaitOuter (b : combined)
  | WaitInner (b : combined) (data : string) (outer : summary)
  | WaitPick (b : combined) (merged : summary).
Record check := Check { v_run : nat; v_args : sig_args; v_trust : bool; v_stage : check_stage }.

Definition status_text (st : sig_status) : string :=
  match st with Unsigned => "unsigned" | MissingPublicKey => "missing_public_key" | Verified => "verified" | BadSignature => "bad_signature" end.
Definition is_verified (merged : summary) : bool :=
  match su_status merged with Verified => negb (su_signerFingerprint merged =s? "") | _ => false end.
(** Whose key it is, when it is trusted. *)
Definition trusted_source (b : combined) (signerFp : string) : option string :=
  let matches o := match o with Some r => fingerprintsMatch (text_of "fingerprint" r) signerFp | None => false end in
  if matches (cb_localIdentity b) then Some "local identity"
  else if matches (cb_trustedContactRecord b) then Some "trusted contact" else None.
(** The keys that can be trusted, each with where it came from. *)
Definition trust_candidates (b : combined) : list (string * string) :=
  map (fun arm => (arm, "message attachment")) (cb_attachmentArmoreds b) ++
  match cb_directoryHit b with
  | Some d => if dh_armored d =s? "" then [] else [(dh_armored d, str_or (dh_source d) "directory lookup")]
  | None => []
  end.
(** The first entry whose key is picked. *)
Definition pick_entry (cands : list (string * string)) (signerFp : string) : option (string * string) :=
  arm ← pickArmoredKeyForSignerFingerprint key_fingerprint (map fst cands) signerFp; List.find (fun c => c.1 =s? arm) cands.

Definition sender_of (b : combined) (a : sig_args) : string := str_or (cb_senderEmail b) (canonicalizeSenderId (sa_fromAddr a)).
Definition judged (merged : summary) (source sender trust armored tsource hint : string) : signature_state :=
  SignatureState (status_text (su_status merged)) (su_error merged) (su_signerFingerprint merged) source sender trust armored tsource hint.
Definition untrusted_state (b : combined) (a : sig_args) (merged : summary) (pick : option (string * string)) : signature_state :=
  match pick with
  | Some (armored, source) =>
      judged merged "" (sender_of b a) "untrusted" armored (str_or source "import")
        ("Cryptographic signature OK using " +:+ str_or source "a supplied" +:+ " key — not in your trusted contacts yet.")
  | None =>
      judged merged "" (sender_of b a) "untrusted" "" ""
        "Cryptographic signature OK, but the signing key is not trusted and no matching attachment or directory key was found to import."
  end.
(** The state of a signature whose key need not be picked. *)
Definition settled_state (b : combined) (a : sig_args) (merged : summary) : option signature_state :=
  if is_verified merged then
    match trusted_source b (su_signerFingerprint merged) with
    | Some source => Some (judged merged source (sender_of b a) "trusted" "" "" "")
    | None => None
    end
  else Some (judged merged "" (sender_of b a) "na" "" "" "").

(** [verifyBodySignature], until it first waits. *)
Definition verifyBodySignature (a : sig_args) (trust : bool) (s : view) : view * option check :=
  if (sa_blob a =s? "") || (sa_decryptFingerprint a =s? "") then (set_signature None s, None)
  else let s := begin_run a s in (s, Some (Check (verificationRun s) a trust WaitKeys)).
(** The [finally] of [onTrustSigner], after the check it awaits. *)
Definition check_done (v : check) (s : view) : view := if v_trust v then set_trust false (trustErr s) s else s.
Definition at_stage (v : check) (st : check_stage) : check := Check (v_run v) (v_args v) (v_trust v) st.
Definition conclude (v : check) (b : combined) (merged : summary) (s : view) : view * option check :=
  match settled_state b (v_args v) merged with
  | Some st => (check_done v (set_signature (Some st) s), None)
  | None => (s, Some (at_stage v (WaitPick b merged)))
  end.
Definition keys_of (now : nat) (a : sig_args) : combined :=
  buildCombinedVerificationArmored (Some (getContactKey now)) (Some (lookupKey now)) (sa_fromAddr a) identities
    (extractPublicKeysFromMimeAttachments (with_bytes (sa_attachments a))).
(** [verifyBodySignature] from an answer on. *)
Definition check_answered (now : nat) (v : check) (s : view) : view * option check :=
  let a := v_args v in
  match v_stage v with
  | WaitKeys => (s, Some (at_stage v (WaitOuter (keys_of now a))))
  | WaitOuter b =>
      let r := decryptForIdentityResult now (sa_decryptFingerprint a) (sa_blob a) (cb_combinedArmored b) in
      if negb (verificationRun s =? v_run v) then (check_done v s, None)
      else
        match r with
        | Throw m => (check_done v (set_signature (Some (only_status "error" (str_or m "Error"))) s), None)
        | Ok (data, outer) =>
            if data =s? "" then conclude v b (mergeNestedSignatureVerification (Some outer) None) s
            else (s, Some (at_stage v (WaitInner b data outer)))
        end
  | WaitInner b data outer =>
      let inner := match verifyNestedSignedPayloadAfterDecrypt now data (cb_combinedArmored b) with Ok i => i | Throw _ => None end in
      conclude v b (mergeNestedSignatureVerification (Some outer) inner) s
  | WaitPick b merged =>
      (check_done v (set_signature (Some (untrusted_state b a merged (pick_entry (trust_candidates b) (su_signerFingerprint merged)))) s), None)
  end.

(** ** Decrypting *)

(** What a step of a decryption does: the view, what it waits for next, a check it begins, and
    what it tells the list of messages ([onMetadataRecovered]). *)
Record outcome := Outcome { o_view : view; o_job : option job; o_check : option check; o_told : option (string * option recovered) }.

Definition failed (m : string) (s : view) : view := set_busy false (set_signature None (set_bodyErr (str_or m "Error") s)).
Definition ended (s : view) (v : option check) (told : option (string * option recovered)) : outcome := Outcome (set_busy false s) None v told.
(** [decryptBody] until it first waits. *)
Definition decryptBody (e : entry) (s : view) : view * option job :=
  let s := set_bodyErr "" (set_busy true s) in
  match extractVersion (raw e) with
  | Throw m => if cache_on then (failed m s, None) else (s, Some (Job e WaitBlob))
  | Ok version => (s, Some (Job e (if cache_on && negb (version =s? "") then WaitCache version else WaitBlob)))
  end.
Definition cached_at (now : nat) (e : entry) (version : string) : res (option cached_envelope) :=
  cachedEnvelopeEntry <~ getEnvelope now (e_id e) ;;
  payload <~ unwrapVersionedPayload cachedEnvelopeEntry (JStr version) ;;
  Ok (match inflateCachedEnvelopePayload (cached_envelope_of payload) with
      | Some c => if envelopeHasHydratedAttachmentBytes (ce_attachments c) then Some c else None
      | None => None
      end).
(** The text of a blob: the fingerprint that opened it, what is shown, what is told. *)
Definition opened (now : nat) (blob : string) : res (string * envelope * option recovered) :=
  r <~ decryptMessageBlobLocally now blob ;;
  envelope <~ App.extractDisplayEnvelope DOMParser r.1 ;;
  recovered <~ extractDecryptedMessageMetadata DOMParser r.1 (Some envelope) ;;
  Ok (r.2, envelope, recovered).
Definition from_of (r : option recovered) (e : entry) : string :=
  str_or (match r with Some r => r_from_addr r | None => "" end) (m_from_addr (e_msg e)).

(** [decryptBody] from an answer on. *)
Definition decrypt_answered (now : nat) (j : job) (s : view) : outcome :=
  let e := j_entry j in
  match j_stage j with
  | WaitCache version =>
      match cached_at now e version with
      | Throw m => Outcome (failed m s) None None None
      | Ok (Some c) =>
          Outcome (set_body (Some (ce_bodyText c)) (trim (ce_bodyHtml c)) (ce_attachments c) s) (Some (Job e (WaitSigBlob c))) None
            ((fun r => (e_id e, Some r)) <$> ce_recovered c)
      | Ok None => Outcome s (Some (Job e WaitBlob)) None None
      end
  | WaitBlob =>
      match fetchBlob now (e_id e) with
      | Throw m => Outcome (failed m s) None None None
      | Ok blob => Outcome s (Some (Job e (WaitText blob))) None None
      end
  | WaitText blob =>
      match opened now blob with
      | Throw m => Outcome (failed m s) None None None
      | Ok (fp, env, r) =>
          let atts := map att_row_of (e_attachments env) in
          let '(s, v) := verifyBodySignature (SigArgs blob fp (from_of r e) atts) false (set_body (Some (e_text env)) (trim (e_html env)) atts s) in
          ended s v (Some (e_id e, r))
      end
  | WaitSigBlob c =>
      match fetchBlob now (e_id e) with
      | Throw _ => ended s None None
      | Ok sigBlob => Outcome s (Some (Job e (WaitSigText c sigBlob))) None None
      end
  | WaitSigText c sigBlob =>
      match decryptMessageBlobLocally now sigBlob with
      | Throw _ => ended s None None
      | Ok (_, fp) => let '(s, v) := verifyBodySignature (SigArgs sigBlob fp (from_of (ce_recovered c) e) (ce_attachments c)) false s in ended s v None
      end
  end.

(** The effect that decrypts the message that is shown, once. *)
Definition decrypts (unlocked : bool) (s : view) : option entry :=
  match message s with
  | Some e =>
      if (e_id e =s? "") || negb unlocked || busy s || (if bodyText s is Some _ then true else false) || (attemptedMessage s =s? e_id e) then None else Some e
  | None => None
  end.
Definition decrypt_effect (unlocked : bool) (s : view) : view * option job :=
  match decrypts unlocked s with Some e => decryptBody e (set_attempted (e_id e) s) | None => (s, None) end.

(** ** Trusting a key, replying *)

(** The state of the signature whose key the button saves. *)
Definition trustable (s : view) : option signature_state :=
  match signatureState s with
  | Some st =>
      if (s_displayTrust st =s? "untrusted") && (s_status st =s? "verified") && negb (s_trustArmored st =s? "") && negb (s_senderEmail st =s? "") && negb (trustBusy s)
      then Some st else None
  | None => None
  end.
Definition trust_origin (st : signature_state) : string := if s_trustSource st =s? "" then "message" else "trusted:" +:+ stake 48 (s_trustSource st).
(** [onTrustSigner] from the answer of [putContactKey] on. *)
Definition trust_answered (now : nat) (st : signature_state) (s : view) : view * option check :=
  match putContactKey now (s_senderEmail st) (s_trustArmored st) (trust_origin st) with
  | Throw m => (set_trust false (str_or m "Error") s, None)
  | Ok _ =>
      match lastSig s with
      | Some a => let '(s, v) := verifyBodySignature a true s in (if v is Some _ then s else set_trust false (trustErr s) s, v)
      | None => (set_trust false (trustErr s) (set_signature None s), None)
      end
  end.

(** [onComposeReply] of the two buttons: the message, and the text that is quoted. *)
Definition reply (s : view) : option (entry * string) :=
  (fun e => (e, match bodyText s with Some t => htmlToDisplayText DOMParser t | None => "" end)) <$> message s.

(** ** What happens to the view *)

Record machine := Machine { shown : view; jobs : list job; checks : list check; trusts : list signature_state; told : list (string * option recovered); now : nat }.
Definition start : machine := Machine mounted [] [] [] [] 0.
Definition opt_list {A} (o : option A) : list A := match o with Some a => [a] | None => [] end.

Inductive step : machine -> machine -> Prop :=
| step_select o m : step m (Machine (select o (shown m)) (jobs m) (checks m) (trusts m) (told m) (S (now m)))
| step_effect unlocked m s j : decrypt_effect unlocked (shown m) = (s, j) ->
    step m (Machine s (opt_list j ++ jobs m) (checks m) (trusts m) (told m) (S (now m)))
| step_decrypt m l1 j l2 : jobs m = l1 ++ j :: l2 ->
    let o := decrypt_answered (now m) j (shown m) in
    step m (Machine (o_view o) (l1 ++ opt_list (o_job o) ++ l2) (opt_list (o_check o) ++ checks m) (trusts m) (opt_list (o_told o) ++ told m) (S (now m)))
| step_check m l1 v l2 s v' : checks m = l1 ++ v :: l2 -> check_answered (now m) v (shown m) = (s, v') ->
    step m (Machine s (jobs m) (l1 ++ opt_list v' ++ l2) (trusts m) (told m) (S (now m)))
| step_trust m st : trustable (shown m) = Some st ->
    step m (Machine (set_trust true "" (shown m)) (jobs m) (checks m) (st :: trusts m) (told m) (S (now m)))
| step_trusted m l1 st l2 s v : trusts m = l1 ++ st :: l2 -> trust_answered (now m) st (shown m) = (s, v) ->
    step m (Machine s (jobs m) (opt_list v ++ checks m) (l1 ++ l2) (told m) (S (now m))).
Definition reachable (m : machine) : Prop := rtc step start m.
End View.

(** ** What a step leaves alone *)

Section Facts.
Context `{Services}.
Variable DOMParser : option dom.
Variable identities : list jsval.
Variable cache_on : bool.
Local Abbreviation step := (step DOMParser identities cache_on).
Local Abbreviation reachable := (reachable DOMParser identities cache_on).
Local Abbreviation opened := (opened DOMParser identities).
Local Abbreviation decrypt_answered := (decrypt_answered DOMParser identities).
Local Abbreviation check_answered := (check_answered identities).

(** All but the signature and the banner. *)
Definition core (s : view) := (message s, bodyText s, bodyErr s, busy s, attemptedMessage s).

Lemma core_done v s : core (check_done v s) = core s.
Proof. unfold check_done. by destruct (v_trust v). Qed.
Lemma core_verify a trust s s' v : verifyBodySignature a trust s = (s', v) -> core s' = core s.
Proof. unfold verifyBodySignature. destruct (_ || _); by intros [= <- <-]. Qed.
Lemma core_conclude v b merged s s' v' : conclude v b merged s = (s', v') -> core s' = core s.
Proof. unfold conclude. destruct (settled_state _ _ _); intros [= <- <-]; [by rewrite core_done | done]. Qed.
Lemma core_check now v s s' v' : check_answered now v s = (s', v') -> core s' = core s.
Proof.
  unfold MessageView.check_answered. destruct (v_stage v) as [|b|b data outer|b merged]; [by intros [= <- <-]| | |].
  - destruct (negb _); [intros [= <- <-]; by rewrite core_done|]. destruct (decryptForIdentityResult _ _ _ _) as [[data outer]|m].
    + destruct (_ =s? _); [apply core_conclude | by intros [= <- <-]].
    + intros [= <- <-]. by rewrite core_done.
  - apply core_conclude.
  - intros [= <- <-]. by rewrite core_done.
Qed.
Lemma core_trusted now st s s' v : trust_answered now st s = (s', v) -> core s' = core s.
Proof.
  unfold trust_answered. destruct (putContactKey _ _ _ _) as [u|]; [|by intros [= <- <-]]. destruct (lastSig s) as [a|]; [|by intros [= <- <-]].
  destruct (verifyBodySignature a true s) as [s1 v1] eqn:E. apply core_verify in E. intros [= <- <-]. by destruct v1.
Qed.
Lemma core_fields s s' : core s' = core s ->
  message s' = message s /\ bodyText s' = bodyText s /\ bodyErr s' = bodyErr s /\ busy s' = busy s /\ attemptedMessage s' = attemptedMessage s.
Proof. unfold core. intros [= ? ? ? ? ?]. by split_and!. Qed.

(** ** The body of a message *)

(** What the cache, or the server and the vault, have under an identifier. *)
Definition body_of (id : string) (t : string) : Prop :=
  (exists now e version c, e_id e = id /\ cached_at now e version = Ok (Some c) /\ t = ce_bodyText c) \/
  (exists now now' blob fp env r, fetchBlob now id = Ok blob /\ opened now' blob = Ok (fp, env, r) /\ t = e_text env).
(** The decryption has not shown anything yet. *)
Definition early (j : job) : bool := match j_stage j with WaitCache _ | WaitBlob | WaitText _ => true | _ => false end.
(** How many answers it still takes, at most. *)
Definition remaining (j : job) : nat := match j_stage j with WaitCache _ => 3 | WaitBlob | WaitSigBlob _ => 2 | _ => 1 end.
Definition fetched (j : job) : Prop := match j_stage j with WaitText blob => exists now, fetchBlob now (e_id (j_entry j)) = Ok blob | _ => True end.
Definition has_shown (s : view) : Prop := bodyText s <> None \/ bodyErr s <> "".

(** One answer of a decryption: it waits again, closer to its end, or it is over; what it
    shows is the body of its message. *)
Record answer_spec (j : job) (s : view) (o : outcome) : Prop := {
  as_rest : message (o_view o) = message s /\ attemptedMessage (o_view o) = attemptedMessage s;
  as_busy : busy (o_view o) = match o_job o with Some _ => busy s | None => false end;
  as_job : forall j', o_job o = Some j' -> j_entry j' = j_entry j /\ remaining j' < remaining j /\ fetched j' /\ (early j' = false -> early j = true -> has_shown (o_view o));
  as_end : o_job o = None -> early j = true -> has_shown (o_view o);
  as_shown : has_shown s -> has_shown (o_view o);
  as_late : early j = false -> bodyText (o_view o) = bodyText s /\ bodyErr (o_view o) = bodyErr s;
  as_body : forall t, bodyText (o_view o) = Some t -> bodyText s = Some t \/ body_of (e_id (j_entry j)) t;
}.

Lemma error_shown m : str_or m "Error" <> "".
Proof. by apply str_or_nonempty. Qed.
Lemma failed_spec j s m told : early j = true -> answer_spec j s (Outcome (failed m s) None None told).
Proof.
  intros Hj. split; cbn [o_view o_job failed set_busy set_signature set_bodyErr message attemptedMessage busy bodyText bodyErr]; try done.
  - intros _ _. right. apply error_shown.
  - intros _. right. apply error_shown.
  - congruence.
  - intros t Ht. by left.
Qed.
Lemma ended_spec j s s' v told t : core s' = core (set_body (Some t) (bodyHtml s') (attachments s') s) -> body_of (e_id (j_entry j)) t -> early j = true ->
  answer_spec j s (ended s' v told).
Proof.
  intros (Em & Et & Ee & Eb & Ea)%core_fields Hb Hj. cbn in Em, Et, Ee, Eb, Ea.
  split; cbn [o_view o_job ended set_busy message attemptedMessage busy bodyText bodyErr]; try done.
  - intros _ _. left. cbn. congruence.
  - intros _. left. cbn. congruence.
  - congruence.
  - rewrite Et. intros u [= <-]. by right.
Qed.
Lemma late_spec j s s' v told : core s' = core s -> early j = false -> answer_spec j s (ended s' v told).
Proof.
  intros (Em & Et & Ee & Eb & Ea)%core_fields Hj.
  split; cbn [o_view o_job ended set_busy message attemptedMessage busy bodyText bodyErr]; try done.
  - congruence.
  - unfold has_shown. cbn. rewrite Et, Ee. auto.
  - rewrite Et. intros t Ht. by left.
Qed.
Lemma waits_spec j s st v told : fetched j -> let j' := Job (j_entry j) st in early j' = early j -> remaining j' < remaining j -> fetched j' ->
  answer_spec j s (Outcome s (Some j') v told).
Proof. intros Hf j' He Hr Hf'. split; cbn [o_view o_job]; try done; [|intros t Ht; by left]. intros ? [= <-]. split_and!; [done..|congruence]. Qed.

Lemma decrypt_answered_spec now j s : fetched j -> answer_spec j s (decrypt_answered now j s).
Proof.
  intros Hf. unfold MessageView.decrypt_answered. destruct j as [e st]. cbn [j_entry j_stage]. destruct st as [version| |blob|c|c sigBlob].
  - destruct (cached_at now e version) as [[c|]|m] eqn:Ec; [|by apply (waits_spec (Job e _)); [..|cbn; lia|] | by apply failed_spec].
    split; cbn; try done; [|intros _; by left|].
    + intros j' [= <-]. cbn. split_and!; [done | lia | done |]. intros _ _. by left.
    + intros t [= <-]. right. left. by exists now, e, version, c.
  - destruct (fetchBlob now (e_id e)) as [blob|m] eqn:Ef; [|by apply failed_spec]. apply (waits_spec (Job e _)); [done..|cbn; lia|]. by exists now.
  - destruct (opened now blob) as [[[fp env] r]|m] eqn:Eo; [|by apply failed_spec].
    destruct (verifyBodySignature _ _ _) as [s' v] eqn:Ev. apply core_verify in Ev. destruct Hf as [now0 Hf]. cbn in Hf.
    eapply (ended_spec _ _ _ _ _ (e_text env)); [|by right; exists now0, now, blob, fp, env, r | done].
    rewrite Ev. done.
  - destruct (fetchBlob now (e_id e)); [apply (waits_spec (Job e _)); [done..|cbn; lia|done] | by apply late_spec].
  - destruct (decryptMessageBlobLocally _ _ _) as [[d fp]|m]; [|by apply late_spec].
    destruct (verifyBodySignature _ _ _) as [s' v] eqn:Ev. by apply late_spec; [apply core_verify in Ev|].
Qed.

(** ** One decryption at a time *)

Record settling (m : machine) : Prop := {
  one_job : length (jobs m) <= 1;
  busy_jobs : busy (shown m) = match jobs m with [] => false | _ => true end;
  jobs_fetched : Forall fetched (jobs m);
  attempt_of : attemptedMessage (shown m) <> "" -> attemptedMessage (shown m) = message_id (message (shown m));
  attempt_shows : attemptedMessage (shown m) <> "" -> has_shown (shown m) \/ Exists (fun j => early j = true) (jobs m);
}.

Lemma start_settling : settling start.
Proof. by split; [cbn; lia|..]. Qed.

Lemma settling_frame m m' : settling m -> jobs m' = jobs m -> core (shown m') = core (shown m) -> settling m'.
Proof.
  intros [H1 H2 H3 H4 H5] Ej (Em & Et & Ee & Eb & Ea)%core_fields. unfold has_shown in *.
  split; rewrite ?Ej, ?Eb, ?Ea, ?Em; unfold has_shown; rewrite ?Et, ?Ee; done.
Qed.

Lemma settling_select o m : settling m -> settling (Machine (select o (shown m)) (jobs m) (checks m) (trusts m) (told m) (S (now m))).
Proof.
  intros [H1 H2 H3 H4 H5]. unfold select. destruct (String.eqb_spec (message_id o) (message_id (message (shown m)))) as [E|E]; (split; cbn; [done..| |]); try done.
  by rewrite E.
Qed.

Lemma decrypts_some unlocked s e : decrypts unlocked s = Some e <->
  message s = Some e /\ e_id e <> "" /\ unlocked = true /\ busy s = false /\ bodyText s = None /\ attemptedMessage s <> e_id e.
Proof.
  unfold decrypts. destruct (message s) as [e'|]; [|by split; [|intros (? & _)]].
  destruct (String.eqb_spec (e_id e') "") as [|Hn]; cbn [orb]; [split; [done|]; intros ([= <-] & ? & _); done|].
  destruct unlocked, (busy s), (bodyText s), (String.eqb_spec (attemptedMessage s) (e_id e')) as [|]; cbn [orb negb];
    (split; [intros [= <-]; by split_and! | intros ([= <-] & ? & ? & ? & ? & ?); done]).
Qed.

(** What the effect does. *)
Lemma decrypt_effect_spec unlocked s s' j : decrypt_effect cache_on unlocked s = (s', j) ->
  (s' = s /\ j = None /\ decrypts unlocked s = None) \/
  exists e, decrypts unlocked s = Some e /\ message s' = message s /\ attemptedMessage s' = e_id e /\ bodyText s' = bodyText s /\
    ((j = None /\ busy s' = false /\ bodyErr s' <> "") \/ exists j', j = Some j' /\ busy s' = true /\ early j' = true /\ fetched j' /\ j_entry j' = e).
Proof.
  unfold decrypt_effect. destruct (decrypts unlocked s) as [e|] eqn:Ed; [|intros [= <- <-]; by left].
  unfold decryptBody. intros E. right. exists e.
  destruct (extractVersion (raw e)) as [version|m]; [|destruct cache_on]; injection E as <- <-; cbn; split_and!; try done.
  - right. eexists. split; [done|]. unfold early, fetched. cbn. by destruct (cache_on && _).
  - left. split_and!; [done..|apply error_shown].
  - right. by eexists.
Qed.

Lemma settling_effect unlocked m s j : settling m -> decrypt_effect cache_on unlocked (shown m) = (s, j) ->
  settling (Machine s (opt_list j ++ jobs m) (checks m) (trusts m) (told m) (S (now m))).
Proof.
  intros Hm [(-> & -> & _)|(e & (Em & Hid & _ & Hb & Ht & _)%decrypts_some & Em' & Ea & Et & Hj)]%decrypt_effect_spec; [by apply (settling_frame m)|].
  destruct Hm as [H1 H2 H3 H4 H5]. rewrite H2 in Hb. destruct (jobs m); [|done].
  destruct Hj as [(-> & Hb' & Her)|(j' & -> & Hb' & Hj & Hf & _)]; split; cbn [shown jobs opt_list app]; rewrite ?Hb', ?Ea, ?Em', ?Em; try done; try (cbn; lia).
  - intros _. left. by right.
  - by constructor.
  - intros _. right. by left.
Qed.

Lemma one_split {A} (l l1 l2 : list A) x : length l <= 1 -> l = l1 ++ x :: l2 -> l1 = [] /\ l2 = [].
Proof. intros Hl ->. rewrite length_app in Hl. cbn in Hl. destruct l1, l2; cbn in Hl; (done || lia). Qed.

Lemma settling_decrypt m l1 j l2 : settling m -> jobs m = l1 ++ j :: l2 ->
  let o := decrypt_answered (now m) j (shown m) in
  settling (Machine (o_view o) (l1 ++ opt_list (o_job o) ++ l2) (opt_list (o_check o) ++ checks m) (trusts m) (opt_list (o_told o) ++ told m) (S (now m))).
Proof.
  intros [H1 H2 H3 H4 H5] Ej o. destruct (one_split _ _ _ _ H1 Ej) as [-> ->]. cbn [app] in *. rewrite Ej in *. apply Forall_cons in H3 as [Hf _].
  destruct (decrypt_answered_spec (now m) j (shown m) Hf) as [[Em Ea] Hb Hj He Hs Hl _]. fold o in Em, Ea, Hb, Hj, He, Hs, Hl. rewrite app_nil_r.
  split; cbn [shown jobs]; rewrite ?Em, ?Ea; [destruct (o_job o); cbn; lia| | |done|].
  - rewrite Hb. by destruct (o_job o).
  - destruct (o_job o) as [j'|]; [|constructor]. destruct (Hj j' eq_refl) as (_ & _ & ? & _). by constructor.
  - intros [Hh|Hx]%H5; [by left; apply Hs|]. apply Exists_cons in Hx as [Hx|Hx]; [|by inversion Hx].
    destruct (o_job o) as [j'|] eqn:Eo; [|by left; apply He]. destruct (Hj j' eq_refl) as (_ & _ & _ & Hj').
    destruct (early j') eqn:E; [right; by left | left; by apply Hj'].
Qed.

Lemma step_settling m m' : settling m -> step m m' -> settling m'.
Proof.
  intros Hm Hs. destruct Hs as [o m|unlocked m s j E|m l1 j l2 E|m l1 v l2 s v' E Ev|m st E|m l1 st l2 s v E Et].
  - by apply settling_select.
  - by apply (settling_effect unlocked).
  - by apply settling_decrypt.
  - apply (settling_frame m); [done..|]. by apply core_check in Ev.
  - by apply (settling_frame m).
  - apply (settling_frame m); [done..|]. by apply core_trusted in Et.
Qed.
Lemma reachable_settling m : reachable m -> settling m.
Proof. intros Hr. pose proof start_settling as H0. revert H0. induction Hr as [|m1 m2 m3 Hs _ IH]; [done|]. intros H1. by apply IH, (step_settling m1). Qed.

(** The answers of decryptions alone. *)
Inductive answers : machine -> machine -> Prop :=
| answers_step m l1 j l2 : jobs m = l1 ++ j :: l2 ->
    let o := decrypt_answered (now m) j (shown m) in
    answers m (Machine (o_view o) (l1 ++ opt_list (o_job o) ++ l2) (opt_list (o_check o) ++ checks m) (trusts m) (opt_list (o_told o) ++ told m) (S (now m))).
Definition left_over (m : machine) : nat := match jobs m with j :: _ => remaining j | [] => 0 end.

Lemma answers_settle m m' : settling m -> answers m m' -> settling m' /\ left_over m' < left_over m /\ message (shown m') = message (shown m).
Proof.
  intros Hm Ha. destruct Ha as [m0 l1 j l2 Ej o]. split; [exact (settling_decrypt m0 l1 j l2 Hm Ej)|]. subst o. destruct Hm as [H1 _ H3 _ _]. destruct (one_split _ _ _ _ H1 Ej) as [-> ->].
  cbn [app] in *. unfold left_over. rewrite Ej in *. apply Forall_cons in H3 as [Hf _]. cbn [jobs shown].
  destruct (decrypt_answered_spec (now m0) j (shown m0) Hf) as [[Em _] _ Hj _ _ _ _]. split; [|done].
  destruct (o_job _) as [j'|]; [by destruct (Hj j' eq_refl) as (_ & ? & _)|]. cbn. unfold remaining. destruct (j_stage j); lia.
Qed.
Lemma answers_bound n m m' : settling m -> nsteps answers n m m' -> settling m' /\ n + left_over m' <= left_over m /\ message (shown m') = message (shown m).
Proof.
  intros Hm Hn. revert Hm. induction Hn as [m|n m1 m2 m3 Hs _ IH]; [intros; split_and!; [done | lia | done]|]. intros Hm.
  destruct (answers_settle m1 m2 Hm Hs) as (H2 & Hl & Em). destruct (IH H2) as (H3 & Hl' & Em'). split_and!; [done | lia | congruence].
Qed.

(** C11: an open message settles: whatever the cache, the server and the vault answer, a
    decryption is over after three answers, no other begins meanwhile, and then, when the
    effect has nothing more to begin, the message that is shown has a body or an error. *)
Theorem open_message_settles m e n m' :
  reachable m -> nsteps answers n m m' ->
  n <= 3 /\ (jobs m' = [] \/ exists m'', answers m' m'') /\ length (jobs m') <= 1 /\
  (jobs m' = [] -> message (shown m') = Some e -> e_id e <> "" -> decrypts true (shown m') = None -> has_shown (shown m') /\ busy (shown m') = false).
Proof.
  intros Hr%reachable_settling Hn. destruct (answers_bound n m m' Hr Hn) as ([H1 H2 _ H4 H5] & Hl & _).
  assert (left_over m <= 3) as Hm by (unfold left_over, remaining; destruct (jobs m) as [|j ?]; [lia | destruct (j_stage j); lia]).
  split_and!; [lia| |done|].
  - destruct (jobs m') as [|j l] eqn:Ej; [by left|]. right. eexists. exact (answers_step m' [] j l Ej).
  - intros Ej Em He Hd. rewrite Ej in *. split; [|done]. destruct (bodyText (shown m')) eqn:Et; [by left; rewrite Et|].
    destruct (decide (attemptedMessage (shown m') = e_id e)) as [Ea|Ea].
    + destruct H5 as [|Hx]; [congruence | done | by inversion Hx].
    + enough (decrypts true (shown m') = Some e) by congruence. by apply decrypts_some.
Qed.

(** ** Whose body is shown *)

Definition selected (o : option entry) (m : machine) : machine := Machine (select o (shown m)) (jobs m) (checks m) (trusts m) (told m) (S (now m)).
Definition shown_id (m : machine) : string := message_id (message (shown m)).
(** A step that leaves the message that is shown in place. *)
Definition quiet (m m' : machine) : Prop := step m m' /\ shown_id m' = shown_id m.

(** Everything is about one message. *)
Record about (id : string) (m : machine) : Prop := {
  ab_id : shown_id m = id;
  ab_fetched : Forall fetched (jobs m);
  ab_jobs : Forall (fun j => e_id (j_entry j) = id) (jobs m);
  ab_body : forall t, bodyText (shown m) = Some t -> body_of id t;
}.

Lemma about_core id m m' : about id m -> jobs m' = jobs m -> core (shown m') = core (shown m) -> about id m'.
Proof.
  intros [H1 H2 H3 H4] Ej (Em & Et & _)%core_fields. unfold shown_id in *. split; unfold shown_id; rewrite ?Ej, ?Em, ?Et; done.
Qed.
Lemma select_text o s : message_id o = message_id (message s) -> bodyText (select o s) = bodyText s.
Proof. intros E. unfold select. by rewrite E, String.eqb_refl. Qed.
Lemma select_message o s : message (select o s) = o.
Proof. unfold select. by destruct (_ =s? _). Qed.

Lemma quiet_about id m m' : about id m -> quiet m m' -> about id m'.
Proof.
  intros Ha [Hs Hid]. destruct Hs as [o m|unlocked m s j E|m l1 j l2 E o|m l1 v l2 s v' E Ev|m st E|m l1 st l2 s v E Et].
  - destruct Ha as [H1 H2 H3 H4]. unfold shown_id in Hid. cbn [shown] in Hid. rewrite select_message in Hid.
    split; [rewrite <- H1; unfold shown_id; cbn [shown]; by rewrite select_message| done | done |]. cbn [shown]. by rewrite select_text.
  - apply decrypt_effect_spec in E as [(-> & -> & _)|(e & Hd & Em & Ea & Et & Hj)]; [by apply (about_core id m)|].
    destruct Ha as [H1 H2 H3 H4]. apply decrypts_some in Hd as (Em0 & _). unfold shown_id in *. rewrite Em0 in H1.
    split; cbn [shown jobs]; [unfold shown_id; cbn [shown]; by rewrite Em, Em0 | | |by rewrite Et];
      destruct Hj as [(-> & _)|(j' & -> & _ & _ & Hf & Hj')]; try done; constructor; try done. by rewrite Hj'.
  - destruct Ha as [H1 H2 H3 H4]. rewrite E in H2, H3. apply Forall_app in H2 as [Ha2 [Hf Hb2]%Forall_cons]. apply Forall_app in H3 as [Ha3 [Hi Hb3]%Forall_cons].
    destruct (decrypt_answered_spec (now m) j (shown m) Hf) as [_ _ Hj _ _ _ Hb]. split; [by rewrite <- H1 | | |]; cbn [jobs shown].
    + apply Forall_app. split; [done|]. subst o. destruct (o_job _) as [j'|]; [|done]. destruct (Hj j' eq_refl) as (_ & _ & ? & _). by constructor.
    + apply Forall_app. split; [done|]. subst o. destruct (o_job _) as [j'|]; [|done]. destruct (Hj j' eq_refl) as (Ee & _). constructor; [by rewrite Ee | done].
    + intros t [Ht|Ht]%Hb; [by apply H4 | by rewrite <- Hi].
  - apply (about_core id m); [done..|]. by apply core_check in Ev.
  - by apply (about_core id m).
  - apply (about_core id m); [done..|]. by apply core_trusted in Et.
Qed.

(** C9: the body is the message's: when another message is selected and no decryption but of
    this message is outstanding, then, as long as it stays selected, a body that is shown is
    what the cache, or the server and the vault, have for it. *)
Theorem body_is_of_message m o m' t :
  reachable m -> message_id o <> shown_id m -> Forall (fun j => e_id (j_entry j) = message_id o) (jobs m) ->
  rtc quiet (selected o m) m' -> bodyText (shown m') = Some t -> body_of (message_id o) t.
Proof.
  intros Hr%reachable_settling Ho Hj Hq. assert (about (message_id o) (selected o m)) as Ha.
  { split; [unfold shown_id; cbn [selected shown]; by rewrite select_message | apply Hr | done |]. unfold shown_id in Ho. apply String.eqb_neq in Ho.
    cbn [selected shown]. unfold select. by rewrite Ho. }
  revert Ha. induction Hq as [m1|m1 m2 m3 Hs _ IH]; intros Ha; [apply Ha|]. apply IH. by apply (quiet_about _ m1).
Qed.

(** With nothing outstanding a body stays. *)
Lemma quiet_keeps_body t m m' : settling m -> jobs m = [] -> bodyText (shown m) = Some t -> quiet m m' -> settling m' /\ jobs m' = [] /\ bodyText (shown m') = Some t.
Proof.
  intros Hm Hj Ht [Hs Hid]. split; [by apply (step_settling m)|].
  destruct Hs as [o m|unlocked m s j E|m l1 j l2 E o|m l1 v l2 s v' E Ev|m st E|m l1 st l2 s v E Et]; cbn [jobs shown].
  - split; [done|]. unfold shown_id in Hid. cbn [shown] in Hid. rewrite select_message in Hid. by rewrite select_text.
  - apply decrypt_effect_spec in E as [(-> & -> & _)|(e & (_ & _ & _ & _ & Hx & _)%decrypts_some & _)]; [done | congruence].
  - rewrite Hj in E. by destruct l1.
  - apply core_check, core_fields in Ev as (_ & -> & _). done.
  - done.
  - apply core_trusted, core_fields in Et as (_ & -> & _). done.
Qed.

Lemma reachable_step m m' : reachable m -> step m m' -> reachable m'.
Proof. intros Hr Hs. by eapply rtc_r. Qed.

(** but when a message is selected while another is decrypted, the body of the other one
    can be shown for it: nothing else is decrypted then, it stays until another message is
    selected, and it is what a reply quotes. *)
Theorem another_body_is_shown m l1 j l2 e fp env r blob :
  reachable m -> jobs m = l1 ++ j :: l2 -> j_stage j = WaitText blob -> opened (S (now m)) blob = Ok (fp, env, r) -> e_id e <> shown_id m ->
  exists m1, rtc step (selected (Some e) m) m1 /\ forall m2, rtc quiet m1 m2 ->
    shown_id m2 = e_id e /\ bodyText (shown m2) = Some (e_text env) /\ jobs m2 = [] /\ decrypts true (shown m2) = None /\
    forall e2, message (shown m2) = Some e2 -> reply DOMParser (shown m2) = Some (e2, htmlToDisplayText DOMParser (e_text env)).
Proof.
  intros Hr Ej Est Eo He. pose proof (reachable_settling m Hr) as Hm. destruct (one_split _ _ _ _ (one_job _ Hm) Ej) as [-> ->]. cbn [app] in Ej.
  set (m0 := selected (Some e) m). assert (jobs m0 = [] ++ j :: []) as Ej0 by done.
  pose proof (step_decrypt DOMParser identities cache_on m0 [] j [] Ej0) as Hs. cbn zeta in Hs.
  set (m1 := Machine _ _ _ _ _ _) in Hs. exists m1. split; [by apply rtc_once|].
  assert (reachable m0) as Hr0 by (apply (reachable_step m); [done|]; constructor).
  pose proof (decrypt_answered_spec (now m0) j (shown m0)) as Hspec.
  assert (o_job (decrypt_answered (now m0) j (shown m0)) = None /\ bodyText (o_view (decrypt_answered (now m0) j (shown m0))) = Some (e_text env)) as [Hj Ht].
  { unfold MessageView.decrypt_answered. rewrite Est. change (now m0) with (S (now m)). rewrite Eo. destruct (verifyBodySignature _ _ _) as [s' v] eqn:Ev.
    apply core_verify, core_fields in Ev as (_ & Et & _). cbn. by rewrite Et. }
  assert (settling m1) as H1 by (apply (step_settling m0); [by apply reachable_settling | done]).
  assert (shown_id m1 = e_id e) as Hid.
  { destruct Hspec as [[Em _] _ _ _ _ _ _]; [|unfold shown_id; cbn [shown m1]; rewrite Em; cbn [shown m0 selected]; by rewrite select_message].
    destruct Hm as [_ _ Hf _ _]. rewrite Ej in Hf. by apply Forall_cons in Hf as [? _]. }
  assert (jobs m1 = []) as Hj1 by (exact (f_equal (fun o => [] ++ opt_list o ++ []) Hj)). change (bodyText (shown m1) = Some (e_text env)) in Ht. clearbody m1. clear Hspec Hj Hs.
  intros m2 Hq. enough (settling m2 /\ shown_id m2 = e_id e /\ jobs m2 = [] /\ bodyText (shown m2) = Some (e_text env)) as (_ & Hid2 & Hj2 & Ht2).
  { split_and!; [done..| |].
    - destruct (decrypts true (shown m2)) as [e2|] eqn:Ed; [|done]. apply decrypts_some in Ed as (_ & _ & _ & _ & Hx & _). congruence.
    - intros e2 Em. unfold reply. by rewrite Em, Ht2. }
  revert H1 Hid Hj1 Ht. induction Hq as [m1|m1 m2 m3 Hs _ IH]; intros H1 Hid Hj1 Ht; [done|].
  destruct (quiet_keeps_body _ _ _ H1 Hj1 Ht Hs) as (H2 & Hj2 & Ht2). apply IH; [done| |done..]. by rewrite (proj2 Hs).
Qed.

(** ** Whose signature is shown *)

(** The keys of a check at some time. *)
Local Abbreviation keys_of := (keys_of identities).
Definition keyed (v : check) : Prop :=
  match v_stage v with
  | WaitKeys => True
  | WaitOuter b | WaitPick b _ => exists t, b = keys_of t (v_args v)
  | WaitInner b data outer => exists t t1, b = keys_of t (v_args v) /\
      decryptForIdentityResult t1 (sa_decryptFingerprint (v_args v)) (sa_blob (v_args v)) (cb_combinedArmored b) = Ok (data, outer)
  end.
(** The signatures of [a]'s message were checked with the keys gathered at [t]: the vault's
    summary of the outer ones, and of the nested ones when there are any. *)
Definition checked (t : nat) (a : sig_args) (outer : summary) (inner : option summary) : Prop :=
  let keys := cb_combinedArmored (keys_of t a) in
  exists t1 data, decryptForIdentityResult t1 (sa_decryptFingerprint a) (sa_blob a) keys = Ok (data, outer) /\
    (inner = None \/ exists t2, verifyNestedSignedPayloadAfterDecrypt t2 data keys = Ok inner).
(** A signer that is called trusted: a check found a verified signature, and the fingerprint
    it reports is that of one of the user's identities with the address of the sender, or of
    a contact the server keeps as trusted for it. *)
Definition trust_grounded (st : signature_state) : Prop :=
  s_displayTrust st = "trusted" ->
  exists a t outer inner, checked t a outer inner /\ s_senderEmail st = canonicalizeSenderId (sa_fromAddr a) /\
    (su_status outer = Verified \/ exists i, inner = Some i /\ su_status i = Verified) /\
    s_signerFingerprint st = su_signerFingerprint (mergeNestedSignatureVerification (Some outer) inner) /\
    s_status st = "verified" /\ s_signerFingerprint st <> "" /\
    ((exists i, i ∈ identities /\ senderOf (opt_field i "email") = s_senderEmail st /\ fingerprintsMatch (text_of "fingerprint" i) (s_signerFingerprint st) = true) \/
     (exists r, getContactKey t (s_senderEmail st) = Ok r /\ opt_field r "trusted" = JBool true /\ fingerprintsMatch (text_of "fingerprint" r) (s_signerFingerprint st) = true)).

Lemma trusted_record_some get email r : trusted_record (Some get) email = Some r -> get email = Ok r /\ opt_field r "trusted" = JBool true.
Proof.
  unfold trusted_record. destruct (get email) as [r'|]; [|done]. destruct (opt_field r' "trusted") as [| |[]| | | | |] eqn:Et; try done.
  destruct (_ =s? _); [done|]. by intros [= <-].
Qed.
Lemma keys_of_spec t a : let b := keys_of t a in
  sender_of b a = canonicalizeSenderId (sa_fromAddr a) /\
  (forall i, cb_localIdentity b = Some i -> i ∈ identities /\ senderOf (opt_field i "email") = canonicalizeSenderId (sa_fromAddr a)) /\
  (forall r, cb_trustedContactRecord b = Some r -> getContactKey t (canonicalizeSenderId (sa_fromAddr a)) = Ok r /\ opt_field r "trusted" = JBool true).
Proof.
  unfold MessageView.keys_of, sender_of, buildCombinedVerificationArmored.
  destruct (String.eqb_spec (canonicalizeSenderId (sa_fromAddr a)) "") as [E|E]; [by split_and!|].
  cbn [cb_senderEmail cb_localIdentity cb_trustedContactRecord]. split_and!.
  - apply String.eqb_neq in E. unfold str_or. by rewrite E.
  - intros i (Hi & Hm)%find_some. apply andb_true_iff in Hm as [Hm%String.eqb_eq _]. split; [by apply list_elem_of_In | done].
  - intros r. destruct (List.find _ _); [done|]. apply trusted_record_some.
Qed.

Lemma merged_verified outer inner : su_status (mergeNestedSignatureVerification (Some outer) inner) = Verified ->
  su_status outer = Verified \/ exists i, inner = Some i /\ su_status i = Verified.
Proof.
  unfold mergeNestedSignatureVerification. cbn [default from_option id]. destruct inner as [i|]; [|by left]. destruct (negb _); [by left|].
  destruct (su_status i) eqn:Ei; try (by right; exists i);
    (destruct (su_status outer) eqn:Eo; try (by left); intros E; congruence).
Qed.

Lemma settled_grounded t a outer inner st : checked t a outer inner ->
  settled_state (keys_of t a) a (mergeNestedSignatureVerification (Some outer) inner) = Some st -> trust_grounded st.
Proof.
  intros Hch. set (merged := mergeNestedSignatureVerification _ _). unfold settled_state. destruct (is_verified merged) eqn:Ev; [|by intros [= <-]].
  destruct (keys_of_spec t a) as (Es & Hl & Hc).
  unfold trusted_source. set (b := keys_of t a) in *. intros Hst. unfold is_verified in Ev. destruct (su_status merged) eqn:Eu; try done.
  apply negb_true_iff, String.eqb_neq in Ev. pose proof (merged_verified outer inner Eu) as Hv.
  assert (forall source, st = judged merged source (sender_of b a) "trusted" "" "" "" ->
    (exists i, i ∈ identities /\ senderOf (opt_field i "email") = s_senderEmail st /\ fingerprintsMatch (text_of "fingerprint" i) (s_signerFingerprint st) = true) \/
     (exists r, getContactKey t (s_senderEmail st) = Ok r /\ opt_field r "trusted" = JBool true /\ fingerprintsMatch (text_of "fingerprint" r) (s_signerFingerprint st) = true) ->
    trust_grounded st) as Hend.
  { intros source -> Hg _. exists a, t, outer, inner. unfold judged in *. cbn in *. rewrite Eu. split_and!; [exact Hch | exact Es | exact Hv | done | done | exact Ev | exact Hg]. }
  assert (forall r, cb_trustedContactRecord b = Some r -> fingerprintsMatch (text_of "fingerprint" r) (su_signerFingerprint merged) = true ->
    st = judged merged "trusted contact" (sender_of b a) "trusted" "" "" "" -> trust_grounded st) as Hcontact.
  { intros r Er Hm E. apply (Hend _ E). subst st. right. destruct (Hc r Er). exists r. cbn. by rewrite Es. }
  assert (match (if (match cb_trustedContactRecord b with Some r => fingerprintsMatch (text_of "fingerprint" r) (su_signerFingerprint merged) | None => false end)
                 then Some "trusted contact" else None) with
          | Some source => Some (judged merged source (sender_of b a) "trusted" "" "" "")
          | None => None
          end = Some st -> trust_grounded st) as Hrest.
  { destruct (cb_trustedContactRecord b) as [r|] eqn:Er; [|done]. destruct (fingerprintsMatch _ _) eqn:Em'; [|done]. intros [= Hst']. by apply (Hcontact r). }
  destruct (cb_localIdentity b) as [i|] eqn:Ei; [|by apply Hrest].
  destruct (fingerprintsMatch (text_of "fingerprint" i) _) eqn:Em; [|by apply Hrest].
  injection Hst as Hst. apply (Hend "local identity"); [done|]. subst st. left. destruct (Hl i eq_refl). exists i. cbn. by rewrite Es.
Qed.

Definition state_grounded (s : view) : Prop := forall st, signatureState s = Some st -> trust_grounded st.
Definition grounded (m : machine) : Prop := state_grounded (shown m) /\ Forall keyed (checks m).

Lemma grounded_only x y s : state_grounded (set_signature (Some (only_status x y)) s).
Proof. by intros st [= <-]. Qed.
Lemma signature_done v s : signatureState (check_done v s) = signatureState s.
Proof. unfold check_done. by destruct (v_trust v). Qed.
Lemma conclude_grounded v t outer inner s s' v' : state_grounded s -> checked t (v_args v) outer inner ->
  conclude v (keys_of t (v_args v)) (mergeNestedSignatureVerification (Some outer) inner) s = (s', v') ->
  state_grounded s' /\ Forall keyed (opt_list v').
Proof.
  unfold conclude. intros Hs Hch. destruct (settled_state _ _ _) as [st|] eqn:Est; intros [= <- <-].
  - split; [|constructor]. intros st'. rewrite signature_done. intros [= <-]. by apply settled_grounded in Est.
  - split; [done|]. repeat constructor. by exists t.
Qed.
Lemma verify_grounded a trust s s' v : state_grounded s -> verifyBodySignature a trust s = (s', v) -> state_grounded s' /\ Forall keyed (opt_list v).
Proof.
  intros Hs. unfold verifyBodySignature. destruct (_ || _); intros [= <- <-]; (split; [|by repeat constructor]); intros st; cbn; [done | by intros [= <-]].
Qed.
Lemma check_grounded now v s s' v' : state_grounded s -> keyed v -> check_answered now v s = (s', v') -> state_grounded s' /\ Forall keyed (opt_list v').
Proof.
  intros Hs Hk. unfold MessageView.check_answered. unfold keyed in Hk. destruct (v_stage v) as [|b|b data outer|b merged].
  - intros [= <- <-]. split; [done|]. repeat constructor. by exists now.
  - destruct Hk as [t ->]. destruct (negb _).
    { intros [= <- <-]. split; [|constructor]. intros st. by rewrite signature_done; apply Hs. }
    destruct (decryptForIdentityResult _ _ _ _) as [[data outer]|m] eqn:Ed.
    + destruct (_ =s? _); [apply conclude_grounded; [done|]; exists now, data; by split; [|left]|].
      intros [= <- <-]. split; [done|]. repeat constructor. by exists t, now.
    + intros [= <- <-]. split; [|constructor]. intros st. rewrite signature_done. apply grounded_only.
  - destruct Hk as (t & t1 & -> & Hd). apply conclude_grounded; [done|]. exists t1, data. split; [done|].
    destruct (verifyNestedSignedPayloadAfterDecrypt _ _ _) as [i|] eqn:En; [right; by exists now | by left].
  - intros [= <- <-]. split; [|constructor]. intros st. rewrite signature_done. unfold untrusted_state. by destruct (pick_entry _ _) as [[]|]; intros [= <-].
Qed.

Lemma trusted_grounded now st s s' v : state_grounded s -> trust_answered now st s = (s', v) -> state_grounded s' /\ Forall keyed (opt_list v).
Proof.
  intros Hs. unfold trust_answered. destruct (putContactKey _ _ _ _) as [u|]; [|by intros [= <- <-]]. destruct (lastSig s) as [a|]; [|by intros [= <- <-]].
  destruct (verifyBodySignature a true s) as [s1 v1] eqn:E. apply verify_grounded in E as [H1 H2]; [|done]. intros [= <- <-]. by destruct v1.
Qed.
Lemma decrypt_grounded now j s : state_grounded s -> let o := decrypt_answered now j s in state_grounded (o_view o) /\ Forall keyed (opt_list (o_check o)).
Proof.
  intros Hs. unfold MessageView.decrypt_answered. destruct (j_stage j) as [version| |blob|c|c sigBlob].
  - by destruct (cached_at now (j_entry j) version) as [[c|]|m].
  - by destruct (fetchBlob now _).
  - destruct (opened now blob) as [[[fp env] r]|m]; [|done]. destruct (verifyBodySignature _ _ _) as [s' v] eqn:E. by apply verify_grounded in E.
  - by destruct (fetchBlob now _).
  - destruct (decryptMessageBlobLocally _ _ _) as [[d fp]|m]; [|done]. destruct (verifyBodySignature _ _ _) as [s' v] eqn:E. by apply verify_grounded in E.
Qed.
Lemma effect_grounded unlocked s s' j : state_grounded s -> decrypt_effect cache_on unlocked s = (s', j) -> state_grounded s'.
Proof.
  intros Hs. unfold decrypt_effect, decryptBody. destruct (decrypts unlocked s); [|by intros [= <- <-]].
  destruct (extractVersion _); [|destruct cache_on]; by intros [= <- <-].
Qed.
Lemma select_grounded o s : state_grounded s -> state_grounded (select o s).
Proof. intros Hs. unfold select. by destruct (_ =s? _). Qed.

Lemma step_grounded m m' : grounded m -> step m m' -> grounded m'.
Proof.
  intros [Hs Hc] Hst. destruct Hst as [o m|unlocked m s j E|m l1 j l2 E o|m l1 v l2 s v' E Ev|m st E|m l1 st l2 s v E Et]; unfold grounded; cbn [shown checks].
  - split; [by apply select_grounded | done].
  - split; [by apply effect_grounded in E | done].
  - destruct (decrypt_grounded (now m) j (shown m) Hs) as [H1 H2]. split; [done|]. by apply Forall_app.
  - rewrite E in Hc. apply Forall_app in Hc as [Hc1 [Hk Hc2]%Forall_cons]. apply check_grounded in Ev as [H1 H2]; [|done..]. split; [done|]. by rewrite !Forall_app.
  - by split.
  - apply trusted_grounded in Et as [H1 H2]; [|done]. split; [done|]. by apply Forall_app.
Qed.
Lemma reachable_grounded m : reachable m -> grounded m.
Proof.
  intros Hr. assert (grounded start) as H0 by by split. revert H0. induction Hr as [|m1 m2 m3 Hs _ IH]; [done|]. intros H1. by apply IH, (step_grounded m1).
Qed.

(** C10: no signer is called trusted without grounds: whenever the strip reads TRUSTED SIGNER,
    the vault has decrypted a message and checked its signatures (and the nested ones, when
    there are any) with the keys gathered for the address of its sender; one of the two
    summaries says verified; and the fingerprint reported for the signer matches that of an
    identity of the user with this address, or of the contact that the server, when the keys
    were gathered, kept as trusted for it.  What it does not say: that the message is the
    one on display, and, for a message with several signatures, that the signature that
    verified is the one of the reported signer. *)
Theorem trusted_signer_is_grounded m st l :
  reachable m -> signatureState (shown m) = Some st -> label_of (Some st) = Some l -> sl_label l = "TRUSTED SIGNER" ->
  exists a t t1 data outer inner,
    let keys := cb_combinedArmored (keys_of t a) in
    decryptForIdentityResult t1 (sa_decryptFingerprint a) (sa_blob a) keys = Ok (data, outer) /\
    (inner = None \/ exists t2, verifyNestedSignedPayloadAfterDecrypt t2 data keys = Ok inner) /\
    (su_status outer = Verified \/ exists i, inner = Some i /\ su_status i = Verified) /\
    s_status st = "verified" /\ s_senderEmail st = canonicalizeSenderId (sa_fromAddr a) /\
    s_signerFingerprint st = su_signerFingerprint (mergeNestedSignatureVerification (Some outer) inner) /\ s_signerFingerprint st <> "" /\
    ((exists i, i ∈ identities /\ senderOf (opt_field i "email") = s_senderEmail st /\ fingerprintsMatch (text_of "fingerprint" i) (s_signerFingerprint st) = true) \/
     (exists r, getContactKey t (s_senderEmail st) = Ok r /\ opt_field r "trusted" = JBool true /\ fingerprintsMatch (text_of "fingerprint" r) (s_signerFingerprint st) = true)).
Proof.
  intros Hr Hs Hl Ht. assert (s_displayTrust st = "trusted") as Htr.
  { revert Hl Ht. unfold label_of, describeSignatureState. cbn [ss_status ss_displayTrust].
    repeat (case_match; try (by intros [= <-])); intros _ _; by apply String.eqb_eq. }
  destruct (proj1 (reachable_grounded m Hr) st Hs Htr) as (a & t & outer & inner & (t1 & data & Hd & Hn) & H1 & H2 & H3 & H4 & H5 & H6).
  exists a, t, t1, data, outer, inner. cbv zeta. by split_and!.
Qed.

(** *** Trusting *)

Lemma picked_matches cands signer arm : pickArmoredKeyForSignerFingerprint key_fingerprint cands signer = Some arm ->
  arm <> "" /\ forall f, key_fingerprint arm = Ok f -> fingerprintsMatch f signer = true.
Proof.
  induction cands as [|c cands IH]; cbn [pickArmoredKeyForSignerFingerprint]; destruct (_ =s? _) eqn:Ew; try done.
  destruct (c =s? "") eqn:Ec; [by apply IH|]. destruct (key_fingerprint c) as [f|] eqn:Ef; [|by apply IH].
  set (fp := normalizeFingerprintHex f). destruct (negb (fp =s? "") && _) eqn:Eh; [|by apply IH]. intros [= <-]. split; [by apply String.eqb_neq|].
  intros f' Hf. assert (f' = f) as -> by congruence. unfold fingerprintsMatch. fold fp. rewrite Ew. apply andb_true_iff in Eh as [->%negb_true_iff Eh]. cbn [orb].
  destruct (fp =s? _); [done|]. cbn [orb] in Eh. apply andb_true_iff in Eh as [Hl He]. rewrite Hl, He. apply Nat.leb_le in Hl. cbn [orb]. rewrite !andb_true_r.
  apply Nat.leb_le. apply ends_with_spec in He as [a ->]. rewrite slength_app. unfold slast. rewrite slength_sdrop. lia.
Qed.

(** trusting a key has its effect: once the server keeps the key that was offered as a
    trusted contact of the sender, with its fingerprint, the same signature is shown as a
    trusted one, unless one of the user's own identities has the address of the sender. *)
Theorem trusting_makes_trusted t t' a merged arm src r :
  let b := keys_of t a in let email := sender_of b a in
  settled_state b a merged = None -> pick_entry (trust_candidates b) (su_signerFingerprint merged) = Some (arm, src) ->
  cb_localIdentity b = None -> email <> "" ->
  getContactKey t' email = Ok r -> opt_field r "trusted" = JBool true -> extractArmoredPublicKey r = arm ->
  key_fingerprint arm = Ok (text_of "fingerprint" r) ->
  exists st, settled_state (keys_of t' a) a merged = Some st /\ s_senderEmail st = email /\
    label_of (Some st) = Some (SigLabel "ok" "TRUSTED SIGNER" "Signature verified; key is trusted (trusted contact).").
Proof.
  intros b email Hn Hp Hl He Hg Ht Ha Hf. destruct (keys_of_spec t a) as (Es & _). destruct (keys_of_spec t' a) as (Es' & _). fold b in Es. fold email in Es.
  assert (arm <> "" /\ fingerprintsMatch (text_of "fingerprint" r) (su_signerFingerprint merged) = true) as [Harm Hm].
  { unfold pick_entry in Hp. destruct (pickArmoredKeyForSignerFingerprint _ _ _) as [arm'|] eqn:Epick; [|done]. cbn in Hp.
    apply find_some in Hp as [_ E%String.eqb_eq]. cbn in E. subst arm'. apply picked_matches in Epick as [? Hx]. split; [done | by apply Hx]. }
  unfold settled_state in *. destruct (is_verified merged) eqn:Ev; [|done].
  assert (cb_localIdentity (keys_of t' a) = None /\ cb_trustedContactRecord (keys_of t' a) = Some r) as [Hl' Hc'].
  { subst b. revert Hl. unfold MessageView.keys_of, buildCombinedVerificationArmored. rewrite <- Es. apply String.eqb_neq in He. rewrite He.
    cbn [cb_localIdentity cb_trustedContactRecord]. intros Hl. rewrite Hl. split; [done|]. unfold trusted_record. rewrite Hg, Ht, Ha.
    apply String.eqb_neq in Harm. by rewrite Harm. }
  unfold trusted_source. rewrite Hl', Hc', Hm. eexists. split; [done|]. cbn [judged s_senderEmail]. split; [by rewrite Es'|].
  unfold is_verified in Ev. unfold label_of, judged. cbn [s_status]. by destruct (su_status merged).
Qed.

(** *** Checks that overtake each other *)

Definition runs_bounded (m : machine) : Prop := Forall (fun v => v_run v <= verificationRun (shown m)) (checks m).

Lemma run_done v s : verificationRun (check_done v s) = verificationRun s.
Proof. unfold check_done. by destruct (v_trust v). Qed.
Lemma verify_run a trust s s' v : verifyBodySignature a trust s = (s', v) ->
  verificationRun s <= verificationRun s' /\ Forall (fun v => v_run v <= verificationRun s') (opt_list v).
Proof. unfold verifyBodySignature. destruct (_ || _); intros [= <- <-]; cbn; [by split|]. split; [lia|]. by repeat constructor. Qed.
Lemma conclude_run v b merged s s' v' : v_run v <= verificationRun s -> conclude v b merged s = (s', v') ->
  verificationRun s' = verificationRun s /\ Forall (fun v => v_run v <= verificationRun s') (opt_list v').
Proof.
  intros Hv. unfold conclude. destruct (settled_state _ _ _); intros [= <- <-]; [by rewrite run_done|]. split; [done|]. by repeat constructor.
Qed.
Lemma check_run now v s s' v' : v_run v <= verificationRun s -> check_answered now v s = (s', v') ->
  verificationRun s' = verificationRun s /\ Forall (fun v => v_run v <= verificationRun s') (opt_list v').
Proof.
  intros Hv. unfold MessageView.check_answered. destruct (v_stage v) as [|b|b data outer|b merged].
  - intros [= <- <-]. split; [done|]. by repeat constructor.
  - destruct (negb _); [intros [= <- <-]; by rewrite run_done|]. destruct (decryptForIdentityResult _ _ _ _) as [[data outer]|m].
    + destruct (_ =s? _); [by apply conclude_run|]. intros [= <- <-]. split; [done|]. by repeat constructor.
    + intros [= <- <-]. by rewrite run_done.
  - by apply conclude_run.
  - intros [= <- <-]. by rewrite run_done.
Qed.
Lemma trusted_run now st s s' v : trust_answered now st s = (s', v) ->
  verificationRun s <= verificationRun s' /\ Forall (fun v => v_run v <= verificationRun s') (opt_list v).
Proof.
  unfold trust_answered. destruct (putContactKey _ _ _ _) as [u|]; [|by intros [= <- <-]]. destruct (lastSig s) as [a|]; [|by intros [= <- <-]].
  destruct (verifyBodySignature a true s) as [s1 v1] eqn:E. apply verify_run in E as [H1 H2]. intros [= <- <-]. by destruct v1.
Qed.
Lemma decrypt_run now j s : let o := decrypt_answered now j s in
  verificationRun s <= verificationRun (o_view o) /\ Forall (fun v => v_run v <= verificationRun (o_view o)) (opt_list (o_check o)).
Proof.
  unfold MessageView.decrypt_answered. destruct (j_stage j) as [version| |blob|c|c sigBlob].
  - by destruct (cached_at now (j_entry j) version) as [[c|]|m].
  - by destruct (fetchBlob now _).
  - destruct (opened now blob) as [[[fp env] r]|m]; [|done]. destruct (verifyBodySignature _ _ _) as [s' v] eqn:E. by apply verify_run in E.
  - by destruct (fetchBlob now _).
  - destruct (decryptMessageBlobLocally _ _ _) as [[d fp]|m]; [|done]. destruct (verifyBodySignature _ _ _) as [s' v] eqn:E. by apply verify_run in E.
Qed.
Lemma effect_run unlocked s s' j : decrypt_effect cache_on unlocked s = (s', j) -> verificationRun s' = verificationRun s.
Proof.
  unfold decrypt_effect, decryptBody. destruct (decrypts unlocked s); [|by intros [= <- <-]].
  destruct (extractVersion _); [|destruct cache_on]; by intros [= <- <-].
Qed.
Lemma select_run o s : verificationRun s <= verificationRun (select o s) /\
  (message_id o <> message_id (message s) -> verificationRun (select o s) = S (verificationRun s) /\ signatureState (select o s) = None).
Proof. unfold select. destruct (String.eqb_spec (message_id o) (message_id (message s))); cbn; (split; [lia | done]). Qed.

Lemma runs_weaken n n' (l : list check) : n <= n' -> Forall (fun v => v_run v <= n) l -> Forall (fun v => v_run v <= n') l.
Proof. intros Hn Hl. eapply Forall_impl; [exact Hl|]. intros v Hv. cbn in *. lia. Qed.
Lemma step_runs m m' : runs_bounded m -> step m m' -> runs_bounded m'.
Proof.
  unfold runs_bounded. intros Hc Hst. destruct Hst as [o m|unlocked m s j E|m l1 j l2 E o|m l1 v l2 s v' E Ev|m st E|m l1 st l2 s v E Et]; cbn [shown checks].
  - eapply runs_weaken; [apply select_run | done].
  - by rewrite (effect_run _ _ _ _ E).
  - destruct (decrypt_run (now m) j (shown m)) as [H1 H2]. apply Forall_app. split; [done | by eapply runs_weaken].
  - rewrite E in Hc. apply Forall_app in Hc as [Hc1 [Hk Hc2]%Forall_cons]. apply check_run in Ev as [H1 H2]; [|done].
    rewrite !Forall_app. split_and!; [by rewrite H1 | done | by rewrite H1].
  - done.
  - apply trusted_run in Et as [H1 H2]. apply Forall_app. split; [done | by eapply runs_weaken].
Qed.
Lemma reachable_runs m : reachable m -> runs_bounded m.
Proof.
  intros Hr. assert (runs_bounded start) as H0 by constructor. revert H0. induction Hr as [|m1 m2 m3 Hs _ IH]; [done|]. intros H1. by apply IH, (step_runs m1).
Qed.

(** a signature can be shown for the wrong message: when another message is selected the
    signature is forgotten, and the answer to the outer signature of the message before
    changes nothing any more; but the answer to its nested signature is still shown, whatever
    message is selected by then. *)
Theorem stale_check_is_shown m v o :
  reachable m -> v ∈ checks m -> message_id o <> shown_id m ->
  let m0 := selected o m in
  signatureState (shown m0) = None /\
  match v_stage v with
  | WaitOuter _ => check_answered (now m0) v (shown m0) = (check_done v (shown m0), None)
  | WaitInner b data outer =>
      forall st, settled_state b (v_args v) (mergeNestedSignatureVerification (Some outer)
                   (match verifyNestedSignedPayloadAfterDecrypt (now m0) data (cb_combinedArmored b) with Ok i => i | Throw _ => None end)) = Some st ->
      exists m1, step m0 m1 /\ message (shown m1) = o /\ signatureState (shown m1) = Some st
  | _ => True
  end.
Proof.
  intros Hr Hv Ho m0. destruct (select_run o (shown m)) as [_ Hsel]. destruct (Hsel Ho) as [Hrun Hsig]. split; [done|].
  destruct (v_stage v) as [|b|b data outer|b merged] eqn:Est; [done| | |done].
  - assert (v_run v <= verificationRun (shown m)) as Hb by (by apply (proj1 (Forall_forall _ _) (reachable_runs m Hr))).
    unfold MessageView.check_answered. rewrite Est. change (shown m0) with (select o (shown m)). rewrite Hrun.
    rewrite (proj2 (Nat.eqb_neq _ _)) by lia. done.
  - intros st Hst. apply list_elem_of_split in Hv as (l1 & l2 & Hv).
    destruct (check_answered (now m0) v (shown m0)) as [s v'] eqn:E. exists (Machine s (jobs m0) (l1 ++ opt_list v' ++ l2) (trusts m0) (told m0) (S (now m0))).
    split; [by apply (step_check _ _ _ m0 l1 v l2)|]. cbn [shown].
    pose proof (core_check _ _ _ _ _ E) as (Em & _)%core_fields. rewrite Em. split; [apply select_message|].
    unfold MessageView.check_answered in E. rewrite Est in E. unfold conclude in E. rewrite Hst in E. injection E as <- _. by rewrite signature_done.
Qed.
End Facts.

(** ** Concrete runs *)

Section Runs.
Context `{Services}.
Variable DOMParser : option dom.
Variable identities : list jsval.
Variable cache_on : bool.

(** The first decryption and the first check are answered; the effect runs. *)
Definition answer_first (m : machine) : machine :=
  match jobs m with
  | j :: l =>
      let o := decrypt_answered DOMParser identities (now m) j (shown m) in
      Machine (o_view o) (opt_list (o_job o) ++ l) (opt_list (o_check o) ++ checks m) (trusts m) (opt_list (o_told o) ++ told m) (S (now m))
  | [] => m
  end.
Definition check_first (m : machine) : machine :=
  match checks m with
  | v :: l => let '(s, v') := check_answered identities (now m) v (shown m) in Machine s (jobs m) (opt_list v' ++ l) (trusts m) (told m) (S (now m))
  | [] => m
  end.
Definition run_effect (m : machine) : machine :=
  let '(s, j) := decrypt_effect cache_on true (shown m) in Machine s (opt_list j ++ jobs m) (checks m) (trusts m) (told m) (S (now m)).

Lemma answer_first_reachable m : reachable DOMParser identities cache_on m -> reachable DOMParser identities cache_on (answer_first m).
Proof. intros Hr. unfold answer_first. destruct (jobs m) as [|j l] eqn:E; [done|]. eapply rtc_r; [exact Hr|]. by apply (step_decrypt _ _ _ m [] j l). Qed.
Lemma answer_first_answers m : jobs m <> [] -> answers DOMParser identities m (answer_first m).
Proof. intros Hj. unfold answer_first. destruct (jobs m) as [|j l] eqn:E; [done|]. exact (answers_step _ _ m [] j l E). Qed.
Lemma check_first_reachable m : reachable DOMParser identities cache_on m -> reachable DOMParser identities cache_on (check_first m).
Proof.
  intros Hr. unfold check_first. destruct (checks m) as [|v l] eqn:E; [done|]. destruct (check_answered _ _ _ _) as [s v'] eqn:Ev.
  eapply rtc_r; [exact Hr|]. by apply (step_check _ _ _ m [] v l).
Qed.
Lemma run_effect_reachable m : reachable DOMParser identities cache_on m -> reachable DOMParser identities cache_on (run_effect m).
Proof. intros Hr. unfold run_effect. destruct (decrypt_effect _ _ _) as [s j] eqn:E. eapply rtc_r; [exact Hr|]. by apply (step_effect _ _ _ true m). Qed.
Lemma selected_reachable o m : reachable DOMParser identities cache_on m -> reachable DOMParser identities cache_on (selected o m).
Proof. intros Hr. eapply rtc_r; [exact Hr|]. constructor. Qed.
Lemma start_reachable : reachable DOMParser identities cache_on start.
Proof. apply rtc_refl. Qed.
End Runs.
Create HintDb message_view.
#[local] Hint Resolve answer_first_reachable check_first_reachable run_effect_reachable selected_reachable start_reachable : message_view.

(** Two messages of one sender, who is an identity of the user or a contact that can be trusted. *)
Definition sample_fp : string := "00112233445566778899AABBCCDDEEFF00112233".
Definition sample_outer : summary := Summary Verified true [] sample_fp "".
Definition sample_contact : jsval := JObj [("armored_public", JStr "KEY"); ("fingerprint", JStr sample_fp); ("trusted", JBool true)].
#[local] Instance sample_services : Services := {
  getEnvelope _ _ := Ok JNull;
  fetchBlob _ id := Ok ("blob " +:+ id);
  tryDefaultDecrypt _ blob := if blob =s? "blob bad" then Throw "no key" else Ok ("text of " +:+ blob, sample_fp);
  decryptToString _ _ _ := Throw "no key";
  decryptForIdentityResult _ _ _ _ := Ok ("inner", sample_outer);
  verifyNestedSignedPayloadAfterDecrypt _ _ _ := Ok None;
  key_fingerprint _ := Ok sample_fp;
  getContactKey now _ := if now <? 10 then Ok JNull else Ok sample_contact;
  lookupKey _ _ := Ok (JObj [("armored_public", JStr "KEY"); ("source", JStr "wkd")]);
  putContactKey _ _ _ _ := Ok tt;
}.
Definition sample_entry (id : string) : entry := entry_of (JObj [("id", JStr id); ("from_addr", JStr "ann@elvish.test")]).
Definition sample_identities : list jsval := [JObj [("email", JStr "ann@elvish.test"); ("fingerprint", JStr sample_fp); ("armored_public", JStr "KEY")]].
Definition asked : machine := answer_first None sample_identities (answer_first None sample_identities (run_effect true (selected (Some (sample_entry "a")) start))).
Definition read : machine := answer_first None sample_identities asked.
Definition nested : machine := check_first sample_identities (check_first sample_identities read).

Lemma asked_reachable : reachable None sample_identities true asked.
Proof. unfold asked. auto 10 with message_view. Qed.
Lemma read_reachable : reachable None sample_identities true read.
Proof. apply answer_first_reachable, asked_reachable. Qed.
Lemma nested_reachable : reachable None sample_identities true nested.
Proof. apply check_first_reachable, check_first_reachable, read_reachable. Qed.

Lemma open_message_settles_witness :
  length (jobs asked) = 1 /\ has_shown (shown read) /\ busy (shown read) = false.
Proof.
  split; [vm_compute; reflexivity|].
  assert (nsteps (answers None sample_identities) 1 asked read) as Hn.
  { eapply nsteps_l; [|apply nsteps_O]. apply answer_first_answers. intros E. vm_compute in E. discriminate E. }
  destruct (open_message_settles None sample_identities true asked (sample_entry "a") 1 read asked_reachable Hn) as (_ & _ & _ & Hs).
  apply Hs; [vm_compute; reflexivity | vm_compute; reflexivity | intros E; vm_compute in E; discriminate E | vm_compute; reflexivity].
Defined.

Lemma body_is_of_message_witness : body_of None sample_identities "b" "text of blob b".
Proof.
  set (m1 := run_effect true (selected (Some (sample_entry "b")) read)).
  set (m2 := answer_first None sample_identities m1). set (m3 := answer_first None sample_identities m2). set (m4 := answer_first None sample_identities m3).
  assert (rtc (quiet None sample_identities true) (selected (Some (sample_entry "b")) read) m4) as Hq.
  { assert (forall m, jobs m <> [] -> shown_id (answer_first None sample_identities m) = shown_id m -> quiet None sample_identities true m (answer_first None sample_identities m)) as Hstep.
    { intros m Hj Hid. split; [|done]. destruct (answer_first_answers None sample_identities m Hj). by apply step_decrypt. }
    apply (rtc_l _ _ m1); [|apply (rtc_l _ _ m2); [|apply (rtc_l _ _ m3); [|apply (rtc_l _ _ m4); [|apply rtc_refl]]]].
    - split; [|vm_compute; reflexivity]. unfold m1, run_effect. destruct (decrypt_effect _ _ _) as [s j] eqn:E. by apply (step_effect _ _ _ true).
    - apply Hstep; [intros E; vm_compute in E; discriminate E | vm_compute; reflexivity].
    - apply Hstep; [intros E; vm_compute in E; discriminate E | vm_compute; reflexivity].
    - apply Hstep; [intros E; vm_compute in E; discriminate E | vm_compute; reflexivity]. }
  apply (body_is_of_message None sample_identities true read (Some (sample_entry "b")) m4 "text of blob b" read_reachable).
  - intros E. vm_compute in E. discriminate E.
  - assert (jobs read = []) as -> by (vm_compute; reflexivity). constructor.
  - exact Hq.
  - vm_compute. reflexivity.
Defined.

Lemma another_body_is_shown_witness :
  exists m, shown_id m = "b" /\ bodyText (shown m) = Some "text of blob a" /\ decrypts true (shown m) = None /\
    option_map snd (reply None (shown m)) = Some "text of blob a".
Proof.
  assert (exists j fp env r, jobs asked = [] ++ j :: [] /\ j_stage j = WaitText "blob a" /\
    opened None sample_identities (S (now asked)) "blob a" = Ok (fp, env, r) /\ e_text env = "text of blob a") as (j & fp & env & r & Hj & Hs & Ho & He)
    by (do 4 eexists; split_and!; vm_compute; reflexivity).
  destruct (another_body_is_shown None sample_identities true asked [] j [] (sample_entry "b") fp env r "blob a" asked_reachable Hj Hs Ho) as (m1 & _ & H1).
  { intros E. vm_compute in E. discriminate E. }
  destruct (H1 m1 (rtc_refl _ _)) as (Hid & Ht & _ & Hd & Hr). exists m1. rewrite Hid, Ht, He. split_and!; [vm_compute; reflexivity | done | done|].
  destruct (message (shown m1)) as [e2|] eqn:Em; [|unfold shown_id in Hid; rewrite Em in Hid; vm_compute in Hid; discriminate Hid].
  rewrite (Hr e2 eq_refl), He. vm_compute. reflexivity.
Defined.

Lemma trusted_signer_is_grounded_witness :
  let m := check_first sample_identities nested in
  exists st, signatureState (shown m) = Some st /\ s_status st = "verified".
Proof.
  intros m. assert (exists st l, signatureState (shown m) = Some st /\ label_of (Some st) = Some l /\ sl_label l = "TRUSTED SIGNER") as (st & l & Hs & Hl & Ht)
    by (do 2 eexists; split_and!; vm_compute; reflexivity).
  exists st. split; [done|].
  destruct (trusted_signer_is_grounded None sample_identities true m st l (check_first_reachable _ _ _ _ nested_reachable) Hs Hl Ht)
    as (a & t & t1 & data & outer & inner & _ & _ & _ & Hv & _). exact Hv.
Defined.

Definition sample_args : sig_args := SigArgs "blob a" sample_fp "ann@elvish.test" [].
Lemma trusting_makes_trusted_witness :
  settled_state (keys_of [] 0 sample_args) sample_args sample_outer = None /\
  exists st, settled_state (keys_of [] 10 sample_args) sample_args sample_outer = Some st /\ s_displayTrust st = "trusted".
Proof.
  split; [vm_compute; reflexivity|].
  destruct (trusting_makes_trusted [] 0 10 sample_args sample_outer "KEY" "wkd" sample_contact) as (st & Hst & _).
  - vm_compute. reflexivity.
  - vm_compute. reflexivity.
  - vm_compute. reflexivity.
  - intros E. vm_compute in E. discriminate E.
  - vm_compute. reflexivity.
  - vm_compute. reflexivity.
  - vm_compute. reflexivity.
  - vm_compute. reflexivity.
  - exists st. split; [done|]. revert Hst. vm_compute. by intros [= <-].
Defined.

(** The signature of the first message is shown for the second. *)
Lemma stale_check_is_shown_witness :
  exists m, reachable None sample_identities true m /\ shown_id m = "b" /\ option_map sl_label (label_of (signatureState (shown m))) = Some "TRUSTED SIGNER".
Proof.
  assert (match checks nested with
          | [v] => match v_stage v with
                   | WaitInner b data outer => (data, outer, option_map s_displayTrust (settled_state b (v_args v) sample_outer)) = ("inner", sample_outer, Some "trusted")
                   | _ => False
                   end
          | _ => False
          end) as Hn by (vm_compute; reflexivity).
  destruct (checks nested) as [|v [|? ?]] eqn:Hv; [done | | done]. destruct (v_stage v) as [| |b data outer|] eqn:Hs; [done | done | | done].
  injection Hn as -> -> Ht.
  destruct (settled_state b (v_args v) sample_outer) as [st|] eqn:Est; [|discriminate Ht].
  destruct (stale_check_is_shown None sample_identities true nested v (Some (sample_entry "b")) nested_reachable) as [_ H1].
  - rewrite Hv. by left.
  - intros E. vm_compute in E. discriminate E.
  - rewrite Hs in H1. destruct (H1 st Est) as (m1 & Hst & Hm & Hsig). exists m1. split; [|split].
    + eapply rtc_r; [apply selected_reachable, nested_reachable | exact Hst].
    + unfold shown_id. rewrite Hm. vm_compute. reflexivity.
    + rewrite Hsig. unfold settled_state in Est. destruct (is_verified _); [destruct (trusted_source _ _); [|discriminate Est]|]; injection Est as <-; [|discriminate Ht].
      unfold label_of, judged, describeSignatureState. cbn [ss_status s_status]. by destruct (_ =s? "").
Defined.
