(* ===== verification/Serving.v ===== *)
(** * Servers whose requests have fates

    A server is a function of its state; each request is answered, refused because the store
    is broken, or carried out with its answer lost ([MailServer.fate]). A function of the API
    client run against such a server comes down to one handler ([outcome]), and the requests
    go to addresses that are their segments. *)
From Stdlib Require Import ZArith Lia Ascii.
From stdpp Require Import strings list.
From S2P Require Import Prelude JsString JsValue Base64 Text Json Split Http Handlers Manifest MailServer.
Local Open Scope nat_scope.

Section Serving.
Context {S : Type}.
Variable fates_of : S -> list fate.
Variable with_rest : list fate -> S -> S.
Variable serve : S -> request -> S * response.
Variable refused : response.

Definition respond (s : S) (rq : request) : S * option response :=
  match fates_of s with
  | Refused :: rest => (with_rest rest s, Some refused)
  | Lost :: rest => let '(s, _) := serve (with_rest rest s) rq in (s, None)
  | Answered :: rest => let '(s, r) := serve (with_rest rest s) rq in (s, Some r)
  | [] => let '(s, r) := serve s rq in (s, Some r)
  end.
Definition next_fate (s : S) : fate * S := match fates_of s with [] => (Answered, s) | f :: rest => (f, with_rest rest s) end.

(** What a reader of the API client makes of an answer. *)
Definition reading (read : response -> prog jsval) (r : response) : res jsval := (run (fun st rq => (st, None)) tt (read r)).2.
(** A request that comes to [h]: the server after it, and what the client reads. *)
Definition outcome (h : S -> S * response) (read : response -> prog jsval) (s : S) : S * res jsval :=
  match next_fate s with
  | (Answered, s) => let '(s, r) := h s in (s, reading read r)
  | (Refused, s) => (s, reading read refused)
  | (Lost, s) => ((h s).1, Throw "Failed to fetch")
  end.

(** The readers make no request. *)
Definition silent (read : response -> prog jsval) : Prop := forall T (srv : T -> request -> T * option response) (t : T) r, run srv t (read r) = (t, reading read r).
Lemma silent_expect label : silent (expect label).
Proof. intros T srv t r. unfold reading, expect, json. destruct (rp_ok r); [|done]. by destruct (rp_json r). Qed.
Lemma silent_expect_or_error label : silent (expect_or_error label).
Proof.
  intros T srv t r. unfold reading, expect_or_error, json. destruct (rp_ok r); [by destruct (rp_json r)|]. cbn [negb].
  unfold throw_error. by destruct (getp _ _).
Qed.

Lemma run_served rq h read s : silent read -> (forall s, serve s rq = h s) -> run respond s (r <- Http.send rq ;; read r) = outcome h read s.
Proof.
  intros Hr Hp. unfold Http.send, outcome, next_fate. cbn [bind run]. unfold respond at 1. destruct (fates_of s) as [|[] rest]; rewrite ?Hp; try apply Hr; try done;
    match goal with |- context [h ?x] => destruct (h x) as [s' r] end; first [apply Hr | done].
Qed.

Lemma reading_ok label r j : reading (expect_or_error label) r = Ok j -> rp_ok r = true /\ rp_json r = Some j.
Proof.
  unfold reading, expect_or_error, json, throw_error. destruct (rp_ok r); [|by destruct (getp _ _)]. cbn [negb]. destruct (rp_json r) as [v|]; [|done].
  by intros [= ->].
Qed.
End Serving.

(** ** Addresses and bodies *)

Ltac plain_segments := first [done | repeat (constructor; [done|]); constructor].

Section Addresses.
Variable origin : string.

Lemma clear_join l : Forall (fun s => no_char "?" s = true) l -> no_char "?" (join "/" l) = true.
Proof.
  induction 1 as [|s l Hs Hl IH]; [done|]. destruct l as [|s' l]; [exact Hs|]. rewrite join_cons by done.
  unfold no_char in *. by rewrite !all_chars_app, Hs, IH.
Qed.
Lemma fixed_address m path segs cred ct body : path = "/" +:+ join "/" segs -> segs <> [] -> Forall (fun s => plain_segment s = true) segs ->
  Forall (fun s => no_char "?" s = true) segs ->
  address origin (Request m (resolve origin path "") cred ct body) = ("" :: segs, "").
Proof.
  intros -> Hn Hp Hq. unfold address, resolve. cbn [rq_url]. rewrite normalise_plain, sdrop_app by done. change (if "" =s? "" then "" else _) with "". rewrite sapp_nil_r.
  assert (no_char "?" ("/" +:+ join "/" segs) = true) as Hc.
  { apply clear_join in Hq. exact Hq. }
  rewrite index_none_clear by done. f_equal.
  assert ("/" +:+ join "/" segs = join "/" ("" :: segs)) as -> by (by destruct segs).
  apply split_lines; [done|]. constructor; [done|]. eapply Forall_impl; [exact Hp|]. intros s Hs. unfold plain_segment in Hs. by bool_to_prop.
Qed.
End Addresses.

Lemma served_body_reads body : printable body = true -> json_body body ≫= parse = Some body.
Proof. intros Hp. assert (json_body body = Some (stringify body)) as -> by (by destruct body). cbn [mbind option_bind]. by apply parse_stringify. Qed.
