(* ===== verification/DomainServer.v ===== *)
(** * The domains the server keeps ([api_custom_domains.go], [domain_names.go], [mailmeta/smtp_domains.go])

    The definition the page of the custom domains is proved against: the domains of one user
    and the requests that list, add, verify, route and remove them, with the names the server
    accepts and the DNS records it asks for. What the DNS says, whether a DKIM key can be
    made, and the tokens that are drawn are fields of the server. As in [MailServer] a request
    is answered, refused because the store is broken, or carried out with its answer lost. The
    order of the fields of an answer is not the source's, and of a domain the date and the name
    of its DKIM key are left out: no client looks at them. *)
From Stdlib Require Import ZArith Lia Ascii.
From stdpp Require Import strings list.
From S2P Require Import Prelude JsString JsValue Base64 Text Json Split FilterEngine Http Handlers Manifest MailServer Serving.
Local Open Scope nat_scope.

(** ** Names *)

(** [strings.Trim(s, ".")]: the dots at both ends. *)
Fixpoint trim_dots_start (s : string) : string :=
  match s with String c r => if Ascii.eqb c "." then trim_dots_start r else s | EmptyString => "" end.
Fixpoint trim_dots_end (s : string) : string :=
  match s with
  | EmptyString => ""
  | String c r => let r' := trim_dots_end r in if (r' =s? "") && Ascii.eqb c "." then "" else String c r'
  end.
Definition dns_char (c : ascii) : bool := in_range 97 122 c || in_range 48 57 c || Ascii.eqb c "-".
Definition valid_label (part : string) : bool :=
  negb (part =s? "") && (String.length part <=? 63) && negb (starts_with part "-") && negb (ends_with part "-") && all_chars dns_char part.
Definition validDNSName (raw : string) : bool :=
  let raw := trim (to_lower raw) in
  negb (raw =s? "") && (String.length raw <=? 253) && forallb valid_label (split raw ".").
Definition normalizeDNSDomain (raw : string) : res string :=
  let raw := trim_dots_end (trim_dots_start (trim (to_lower raw))) in
  if raw =s? "" then Throw "domain required"
  else if negb (validDNSName raw) || negb (includes raw ".") then Throw "domain must be a valid DNS name"
  else Ok raw.

(** [normalizeOwnedDomain] of the store. *)
Definition normalizeOwnedDomain (domain : string) : option string :=
  let domain := trim_dots_end (trim_dots_start (trim (to_lower domain))) in
  if (domain =s? "") || (253 <? String.length domain) || negb (includes domain ".") || negb (forallb valid_label (split domain ".")) then None else Some domain.

(** ** What is kept *)

(** A row of [mail_domains]. *)
Record owned := Owned {
  o_domain : string;
  o_status : string;
  o_mx : bool;
  o_spf : bool;
  o_dkim : bool;
  o_dmarc : bool;
  o_host : string;
  o_value : string;
  o_catchall : string;
}.
(** [deliveryDNSCheck], and what [dkimKeyStatusForDomain] says. *)
Record dns_check := DnsCheck { k_name : string; k_ok : bool; k_expected : string; k_values : list string; k_error : string; k_note : string }.
Record dkim_status := DkimStatus { dk_selector : string; dk_public : string; dk_error : string }.
(** What the DNS says of a domain: the token of its ownership, MX, SPF, DKIM and DMARC. *)
Record dns_answers := DnsAnswers { a_ownership : string -> string -> dns_check; a_mx : dns_check; a_spf : dns_check; a_dkim : dns_check; a_dmarc : dns_check }.
(** The fields of an identity that the page looks at. *)
Record id_row := IdRow { id_id : string; id_email : string; id_fingerprint : string; id_active : bool; id_default : bool }.

Record server := Server {
  rows : list owned;                    (** by name *)
  taken : list string;                  (** domains of other users *)
  reserved : list string;
  paid : bool;
  identities : list id_row;
  tokens : list string;
  mx_target : string;
  dkim_of : string -> dkim_status;
  provisions : string -> bool;          (** [ensureCustomDomainDKIM] succeeds *)
  dns : string -> dns_answers;
  fates : list fate;
}.
Definition with_rows (l : list owned) (sv : server) : server :=
  Server l (taken sv) (reserved sv) (paid sv) (identities sv) (tokens sv) (mx_target sv) (dkim_of sv) (provisions sv) (dns sv) (fates sv).
Definition with_tokens (l : list string) (sv : server) : server :=
  Server (rows sv) (taken sv) (reserved sv) (paid sv) (identities sv) l (mx_target sv) (dkim_of sv) (provisions sv) (dns sv) (fates sv).
Definition with_rest (l : list fate) (sv : server) : server :=
  Server (rows sv) (taken sv) (reserved sv) (paid sv) (identities sv) (tokens sv) (mx_target sv) (dkim_of sv) (provisions sv) (dns sv) l.

Definition find_owned (domain : string) (l : list owned) : option owned := List.find (fun o => o_domain o =s? domain) l.
Definition remove_owned (domain : string) (l : list owned) : list owned := List.filter (fun o => negb (o_domain o =s? domain)) l.
Definition update_owned (domain : string) (f : owned -> owned) (l : list owned) : list owned := map (fun o => if o_domain o =s? domain then f o else o) l.
(** [ORDER BY domain ASC] *)
Fixpoint insert_owned (o : owned) (l : list owned) : list owned :=
  match l with
  | [] => [o]
  | o' :: l' => if String.ltb (o_domain o) (o_domain o') then o :: l else o' :: insert_owned o l'
  end.

(** ** The records that are asked for *)

Definition entry_json (type_ host value extra hint : string) : jsval :=
  let opt k v := if v =s? "" then [] else [(k, JStr v)] in
  JObj ([("type", JStr type_); ("host", JStr host)] ++ opt "value" value ++ [("ttl", JStr "Auto")] ++ opt "extra" extra ++ opt "hint" hint).
Definition dkim_host (domain : string) (st : dkim_status) : string :=
  let selector := trim (to_lower (dk_selector st)) in
  if selector =s? "" then "_domainkey." +:+ domain else selector +:+ "._domainkey." +:+ domain.
Definition dkim_value (st : dkim_status) : string := if trim (to_lower (dk_selector st)) =s? "" then "" else trim (dk_public st).
Definition dkim_hint (st : dkim_status) : string :=
  if trim (to_lower (dk_selector st)) =s? "" then "configure a DKIM selector before verifying DKIM"
  else if negb (trim (dk_public st) =s? "") then ""
  else str_or (trim (dk_error st)) "DKIM key not ready; retry after the server provisions a key for this domain".
Definition customDomainDNSConfig (sv : server) (domain host value : string) : jsval :=
  let st := dkim_of sv domain in
  JObj [("verification_txt", JObj [("type", JStr "TXT"); ("host", JStr host); ("value", JStr value); ("ttl", JStr "Auto")]);
        ("spf", entry_json "TXT" domain "v=spf1 mx -all" "" "publish an SPF TXT record for this domain before expecting outbound checks to pass");
        ("dmarc", entry_json "TXT" ("_dmarc." +:+ domain) ("v=DMARC1; p=none; rua=mailto:dmarc@" +:+ domain +:+ "; adkim=s; aspf=s") ""
                    "publish a DMARC TXT record for this domain");
        ("mx", entry_json "MX" domain (trim (mx_target sv)) "Priority 10" "publish an MX record for this domain that points at your Elvish mail ingress");
        ("dkim", entry_json "TXT" (dkim_host domain st) (dkim_value st) "" (dkim_hint st))].

(** ** The requests *)

Definition row_json (sv : server) (o : owned) : jsval :=
  JObj [("domain", JStr (o_domain o)); ("status", JStr (o_status o)); ("mx_verified", JBool (o_mx o)); ("spf_verified", JBool (o_spf o));
        ("dkim_verified", JBool (o_dkim o)); ("dmarc_verified", JBool (o_dmarc o)); ("verification_txt_host", JStr (o_host o));
        ("verification_txt_value", JStr (o_value o)); ("dns_config", customDomainDNSConfig sv (o_domain o) (o_host o) (o_value o));
        ("catchall_identity_fp", JStr (o_catchall o))].
Definition apiCustomDomainsList (sv : server) : server * response := (sv, answer 200 (JObj [("domains", JArr (map (row_json sv) (rows sv)))])).

Definition internal_error : response := refusal 500 "internal error".
Definition bad_request (m : string) : response := refusal 400 m.
Definition fields_of (body : jsval) : option (list (string * jsval)) := match body with JObj l => Some l | JNull => Some [] | _ => None end.
Definition verify_host (domain : string) : string := "_elvish-verify." +:+ domain.
Definition verify_value (token : string) : string := "elvish-domain-verify=" +:+ token.

Definition apiCustomDomainsAdd (body : option jsval) (sv : server) : server * response :=
  match l ← body ≫= fields_of; read_string (last_field "domain" l JUndef) with
  | None => (sv, bad_request "invalid json")
  | Some raw =>
      match normalizeDNSDomain (default "" raw) with
      | Throw m => (sv, bad_request m)
      | Ok domain =>
          if str_mem domain (reserved sv) then (sv, refusal 409 "domain is reserved after account deletion")
          else
            let token := match tokens sv with t :: _ => t | [] => "" end in
            let sv := with_tokens (tail (tokens sv)) sv in
            let host := verify_host domain in let value := verify_value token in
            match normalizeOwnedDomain domain with
            | None => (sv, internal_error)
            | Some name =>
                if str_mem name (taken sv) || (if find_owned name (rows sv) is Some _ then true else false) then (sv, refusal 409 "domain already registered")
                else if negb (provisions sv domain) then (sv, internal_error)
                else
                  (with_rows (insert_owned (Owned name "pending" false false false false host value "") (rows sv)) sv,
                   answer 201 (JObj [("domain", JStr domain); ("dns_config", customDomainDNSConfig sv domain host value)]))
            end
      end
  end.

Definition apiCustomDomainsDelete (domain : string) (sv : server) : server * response :=
  match find_owned domain (rows sv) with
  | None => (sv, refusal 404 "domain not found")
  | Some _ => (with_rows (remove_owned domain (rows sv)) sv, answer 200 (JObj [("ok", JBool true)]))
  end.

Definition ready (a : dns_answers) : bool := k_ok (a_mx a) && k_ok (a_spf a) && k_ok (a_dkim a) && k_ok (a_dmarc a).
Definition issueText (label : string) (c : dns_check) : string :=
  if negb (k_note c =s? "") then label +:+ ": " +:+ k_note c else if negb (k_error c =s? "") then label +:+ ": " +:+ k_error c else label +:+ ": missing".
Definition check_json (c : dns_check) : jsval :=
  let opt k v := if v =s? "" then [] else [(k, JStr v)] in
  JObj ([("name", JStr (k_name c)); ("ok", JBool (k_ok c))] ++ opt "expected" (k_expected c) ++
        (match k_values c with [] => [] | l => [("values", JArr (map JStr l))] end) ++ opt "error" (k_error c) ++ opt "note" (k_note c)).
Definition issues_of (ownership : dns_check) (a : dns_answers) : list string :=
  omap (fun p => if k_ok p.2 then None else Some (issueText p.1 p.2))
    [("ownership", ownership); ("MX", a_mx a); ("SPF", a_spf a); ("DKIM", a_dkim a); ("DMARC", a_dmarc a)].
Definition verified (ok : bool) (a : dns_answers) (o : owned) : owned :=
  Owned (o_domain o) (if ok && ready a then "active" else "pending") (k_ok (a_mx a)) (k_ok (a_spf a)) (k_ok (a_dkim a)) (k_ok (a_dmarc a)) (o_host o) (o_value o) (o_catchall o).
Definition verify_json (ownership : dns_check) (a : dns_answers) : jsval :=
  JObj [("status", JStr (if k_ok ownership && ready a then "active" else "pending")); ("ownership_verified", JBool (k_ok ownership));
        ("mx_verified", JBool (k_ok (a_mx a))); ("spf_verified", JBool (k_ok (a_spf a))); ("dkim_verified", JBool (k_ok (a_dkim a)));
        ("dmarc_verified", JBool (k_ok (a_dmarc a))); ("ready", JBool (k_ok ownership && ready a)); ("issues", JArr (map JStr (issues_of ownership a)));
        ("checks", JObj [("ownership", check_json ownership); ("mx", check_json (a_mx a)); ("spf", check_json (a_spf a)); ("dkim", check_json (a_dkim a));
                         ("dmarc", check_json (a_dmarc a))])].
Definition apiCustomDomainsVerify (domain : string) (sv : server) : server * response :=
  match find_owned domain (rows sv) with
  | None => (sv, refusal 404 "domain not found")
  | Some o =>
      if negb (provisions sv domain) then (sv, internal_error)
      else
        let a := dns sv domain in
        let ownership := a_ownership a (o_host o) (o_value o) in
        (with_rows (update_owned domain (verified (k_ok ownership) a) (rows sv)) sv, answer 200 (verify_json ownership a))
  end.

Section Ids.
Context `{uu : Uuid}.

(** [resolveIdentitySelector] and [IdentityByFingerprint], for a text that is not empty. *)
Definition resolveIdentitySelector (sv : server) (selector : string) : option string :=
  match uuid_parse selector with
  | Some id => (fun r => to_upper (trim (id_fingerprint r))) <$> List.find (fun r => id_id r =s? id) (identities sv)
  | None => Some (to_upper selector)
  end.
Definition apiCustomDomainsCatchall (domain : string) (body : option jsval) (sv : server) : server * response :=
  let save fp :=
    match find_owned domain (rows sv) with
    | None => (sv, refusal 404 "domain not found")
    | Some _ =>
        (with_rows (update_owned domain (fun o => Owned (o_domain o) (o_status o) (o_mx o) (o_spf o) (o_dkim o) (o_dmarc o) (o_host o) (o_value o) (trim fp)) (rows sv)) sv,
         answer 200 (JObj [("ok", JBool true)]))
    end in
  match l ← body ≫= fields_of; read_string (last_field "identity_fingerprint" l JUndef) with
  | None => (sv, bad_request "invalid json")
  | Some raw =>
      let raw := trim (default "" raw) in
      if raw =s? "" then save ""
      else
        match fp ← resolveIdentitySelector sv raw; r ← List.find (fun r => id_fingerprint r =s? fp) (identities sv); Some (fp, r) with
        | None => (sv, refusal 404 "identity not found")
        | Some (fp, r) => if negb (id_active r) then (sv, bad_request "identity must be active for catch-all delivery") else save fp
        end
  end.

Definition apiBillingStatus (sv : server) : server * response := (sv, answer 200 (JObj [("paid", JBool (paid sv))])).
Definition apiIdentitiesList (sv : server) : server * response :=
  (sv, answer 200 (JObj [("identities", JArr (map (fun r => JObj [("id", JStr (id_id r)); ("email", JStr (id_email r)); ("fingerprint", JStr (id_fingerprint r));
                                                                  ("is_default", JBool (id_default r)); ("is_active", JBool (id_active r))]) (identities sv)))])).

Section Serve.
Variable origin : string.

(** [handleCustomDomainsAPI] and the two other requests of the page; what else could be asked
    for is not found here. The names of the page hold no slash. *)
Definition domain_request (rest : list string) (rq : request) (sv : server) : server * response :=
  let body := rq_body rq ≫= parse in
  let named seg (f : string -> server * response) := match normalizeDNSDomain (decodeURIComponent seg) with Ok domain => f domain | Throw m => (sv, bad_request m) end in
  if negb (paid sv) then (sv, refusal 402 "paid subscription required")
  else
    match rest, rq_method rq with
    | [], GET => apiCustomDomainsList sv
    | [], POST => apiCustomDomainsAdd body sv
    | [seg], DELETE => named seg (fun domain => apiCustomDomainsDelete domain sv)
    | [seg; "verify"], POST => named seg (fun domain => apiCustomDomainsVerify domain sv)
    | [seg; "catchall"], PUT => named seg (fun domain => apiCustomDomainsCatchall domain body sv)
    | _, _ => (sv, not_found)
    end.
Definition serve (sv : server) (rq : request) : server * response :=
  match address origin rq with
  | (root :: "api" :: "v1" :: "custom-domains" :: rest, _) => domain_request rest rq sv
  | ([root; "api"; "v1"; "billing"; "status"], _) => match rq_method rq with GET => apiBillingStatus sv | _ => (sv, not_found) end
  | ([root; "api"; "v1"; "identities"], _) => match rq_method rq with GET => apiIdentitiesList sv | _ => (sv, not_found) end
  | _ => (sv, not_found)
  end.
Definition respond : server -> request -> server * option response := Serving.respond fates with_rest serve internal_error.
Definition outcome := Serving.outcome fates with_rest internal_error.
End Serve.
End Ids.

(** ** Names that are plain *)

Definition name_char (c : ascii) : bool := dns_char c || Ascii.eqb c ".".
(** Labels with dots between them. *)
Definition plain_name (s : string) : bool := forallb valid_label (split s ".").

Lemma name_char_facts c : name_char c = true -> lower_char c = c /\ is_ws c = false.
Proof. revert c. by_char. Qed.
Lemma dns_char_facts c : dns_char c = true -> Ascii.eqb c "." = false /\ name_char c = true.
Proof. revert c. by_char. Qed.

Lemma name_lower s : all_chars name_char s = true -> to_lower s = s.
Proof.
  induction s as [|c s IH]; [done|]. cbn [all_chars to_lower]. intros [Hc Hs]%andb_true_iff. apply name_char_facts in Hc as [-> _]. by rewrite IH.
Qed.
Lemma name_trim s : all_chars name_char s = true -> trim s = s.
Proof.
  intros Hs. unfold trim. assert (trim_start s = s) as ->.
  { apply trim_start_nows. destruct s as [|c s]; [done|]. cbn [all_chars] in Hs. apply andb_true_iff in Hs as [Hc _]. by apply name_char_facts in Hc as []. }
  induction s as [|c s IH]; [done|]. cbn [all_chars] in Hs. apply andb_true_iff in Hs as [Hc Hs]. apply name_char_facts in Hc as [_ Hc]. cbn [trim_end].
  rewrite (IH Hs), Hc. by destruct s.
Qed.
Lemma trim_dots_end_app a b : trim_dots_end b = b -> b <> "" -> trim_dots_end (a +:+ b) = a +:+ b.
Proof.
  intros Hb Hn. induction a as [|c a IH]; [done|]. cbn [String.append trim_dots_end]. rewrite IH.
  assert (((a +:+ b) =s? "") = false) as ->; [|done]. apply String.eqb_neq. by destruct a.
Qed.
Lemma trim_dots_label l : all_chars dns_char l = true -> trim_dots_end l = l /\ trim_dots_start l = l.
Proof.
  induction l as [|c l IH]; [done|]. cbn [all_chars]. intros [Hc Hl]%andb_true_iff. apply dns_char_facts in Hc as [Hc _]. cbn [trim_dots_end trim_dots_start].
  rewrite Hc, (proj1 (IH Hl)), andb_false_r. done.
Qed.
Lemma valid_label_spec l : valid_label l = true -> l <> "" /\ all_chars dns_char l = true.
Proof. unfold valid_label. intros H. bool_to_prop. done. Qed.

Lemma join_plain parts : Forall (fun l => valid_label l = true) parts -> parts <> [] ->
  all_chars name_char (join "." parts) = true /\ trim_dots_end (join "." parts) = join "." parts /\
  trim_dots_start (join "." parts) = join "." parts /\ join "." parts <> "".
Proof.
  induction 1 as [|l parts [Hn Hl]%valid_label_spec Hp IH]; [done|]. intros _.
  assert (all_chars name_char l = true) as Hc by (eapply all_chars_mono; [|exact Hl]; intros c Hc; by apply dns_char_facts in Hc as []).
  destruct (trim_dots_label l Hl) as [He Hs]. destruct parts as [|l' parts]; [done|]. destruct IH as (H1 & H2 & H3 & H4); [done|]. rewrite join_cons by done.
  split_and!.
  - by rewrite !all_chars_app, Hc, H1.
  - rewrite <- sapp_assoc. by apply trim_dots_end_app.
  - destruct l as [|c l]; [done|]. cbn [all_chars] in Hl. apply andb_true_iff in Hl as [Hd _]. apply dns_char_facts in Hd as [Hd _]. cbn [String.append trim_dots_start]. by rewrite Hd.
  - by destruct l.
Qed.
Lemma plain_name_facts s : plain_name s = true -> all_chars name_char s = true /\ trim_dots_end s = s /\ trim_dots_start s = s /\ s <> "".
Proof.
  unfold plain_name. intros H.
  assert (Forall (fun l => valid_label l = true) (split s ".")) as Hf.
  { apply Forall_forall. intros l Hl. exact (proj1 (forallb_forall _ _) H l (proj1 (list_elem_of_In _ _) Hl)). }
  destruct (join_plain (split s ".") Hf) as (H1 & H2 & H3 & H4); [apply split_go_nonempty|]. by rewrite split_join in H1, H2, H3, H4.
Qed.

Lemma normalize_plain s : plain_name s = true -> includes s "." = true -> String.length s <= 253 ->
  normalizeDNSDomain s = Ok s /\ normalizeOwnedDomain s = Some s.
Proof.
  intros Hp Hi Hl. pose proof (plain_name_facts s Hp) as (Hc & He & Hs & Hn%String.eqb_neq). unfold normalizeDNSDomain, normalizeOwnedDomain, validDNSName.
  rewrite name_lower, !name_trim by done. rewrite Hs, He, name_lower, !name_trim, Hn, Hi by done. unfold plain_name in Hp. rewrite Hp.
  apply Nat.leb_le in Hl as Hl'. rewrite Hl'. assert ((253 <? String.length s) = false) as -> by (apply Nat.ltb_ge; lia). done.
Qed.
Lemma owned_plain s d : normalizeOwnedDomain s = Some d -> plain_name d = true /\ includes d "." = true /\ String.length d <= 253.
Proof.
  unfold normalizeOwnedDomain. set (x := trim_dots_end _). intros H. destruct (_ || _) eqn:E; [done|]. injection H as <-. bool_to_prop. split_and!; [done | done | lia].
Qed.

(** A space before the last dot survives: the name is checked without it, but kept with it. *)
Example space_before_dot_is_kept : normalizeDNSDomain "a.b ." = Ok "a.b ".
Proof. vm_compute. reflexivity. Qed.

(** ** The client against the server *)

(** A name the server keeps as it is written. *)
Definition normal_domain (d : string) : Prop := normalizeDNSDomain d = Ok d.

Lemma normal_proper d : normal_domain d -> proper_id d = true.
Proof.
  unfold normal_domain, proper_id. intros H. destruct (String.eqb_spec d ".") as [->|]; [discriminate H|]. by destruct (String.eqb_spec d "..") as [->|]; [discriminate H|].
Qed.

Section Run.
Context `{uu : Uuid}.
Variable origin : string.
Local Abbreviation respond := (respond origin).

Lemma run_billing sv : run respond sv (getBillingStatus origin) = outcome apiBillingStatus (expect "billing") sv.
Proof.
  apply Serving.run_served; [apply Serving.silent_expect|]. intros s. unfold serve, call.
  by rewrite (fixed_address origin GET _ ["api"; "v1"; "billing"; "status"]) by plain_segments.
Qed.
Lemma run_identities sv : run respond sv (listIdentities origin) = outcome apiIdentitiesList (expect "identities list") sv.
Proof.
  apply Serving.run_served; [apply Serving.silent_expect|]. intros s. unfold serve, call.
  by rewrite (fixed_address origin GET _ ["api"; "v1"; "identities"]) by plain_segments.
Qed.

(** Requests of the domains are for users who pay. *)
Definition for_paid (h : server -> server * response) (sv : server) : server * response :=
  if negb (paid sv) then (sv, refusal 402 "paid subscription required") else h sv.
Lemma run_list sv : run respond sv (listCustomDomains origin) = outcome (for_paid apiCustomDomainsList) (expect "domains") sv.
Proof.
  apply Serving.run_served; [apply Serving.silent_expect|]. intros s. unfold serve, call.
  rewrite (fixed_address origin GET _ ["api"; "v1"; "custom-domains"]) by plain_segments. unfold domain_request, for_paid. by destruct (paid s).
Qed.
Lemma run_add sv d : printable (JStr d) = true ->
  run respond sv (addCustomDomain origin (JStr d)) = outcome (for_paid (apiCustomDomainsAdd (Some (JObj [("domain", JStr d)])))) (expect_or_error "domain add") sv.
Proof.
  intros Hp. apply Serving.run_served; [apply Serving.silent_expect_or_error|]. intros s. unfold serve, call_json.
  rewrite (fixed_address origin POST _ ["api"; "v1"; "custom-domains"]) by plain_segments. unfold domain_request. cbn [rq_method rq_body].
  rewrite served_body_reads by (exact (andb_true_intro (conj eq_refl (andb_true_intro (conj Hp eq_refl))))). unfold for_paid. by destruct (paid s).
Qed.

Definition domain_segments (d : string) (post : list string) : list string := ["api"; "v1"; "custom-domains"; encodeURIComponent d] ++ post.
Lemma named_address m d post ct body : normal_domain d -> Forall (fun s => plain_segment s = true /\ no_char "?" s = true) post ->
  address origin (Request m (resolve origin ("/" +:+ join "/" (domain_segments d post)) "") "include" ct body) = ("" :: domain_segments d post, "").
Proof.
  intros Hd%normal_proper [Hp Hq]%Forall_and. apply fixed_address; [done | done | |]; unfold domain_segments; repeat (constructor; [done|]); constructor; try done.
  - by apply component_plain.
  - by apply component_no_char.
Qed.
Lemma named_decodes d : normal_domain d -> normalizeDNSDomain (decodeURIComponent (encodeURIComponent d)) = Ok d.
Proof. intros Hd. by rewrite decode_encode_component. Qed.

Lemma run_remove sv d : normal_domain d -> run respond sv (deleteCustomDomain origin d) = outcome (for_paid (apiCustomDomainsDelete d)) (expect_or_error "domain delete") sv.
Proof.
  intros Hd. apply Serving.run_served; [apply Serving.silent_expect_or_error|]. intros s. unfold serve, call.
  change ("/api/v1/custom-domains/" +:+ encodeURIComponent d) with ("/" +:+ join "/" (domain_segments d [])). rewrite named_address by done.
  cbn [domain_segments app]. unfold domain_request. cbn [rq_method rq_body]. rewrite named_decodes by done. unfold for_paid. by destruct (paid s).
Qed.
Lemma run_verify sv d : normal_domain d -> run respond sv (verifyCustomDomain origin d) = outcome (for_paid (apiCustomDomainsVerify d)) (expect_or_error "domain verify") sv.
Proof.
  intros Hd. apply Serving.run_served; [apply Serving.silent_expect_or_error|]. intros s. unfold serve, call.
  change ("/api/v1/custom-domains/" +:+ encodeURIComponent d +:+ "/verify") with ("/" +:+ join "/" (domain_segments d ["verify"])). rewrite named_address by plain_segments.
  cbn [domain_segments app]. unfold domain_request. cbn [rq_method rq_body]. rewrite named_decodes by done. unfold for_paid. by destruct (paid s).
Qed.
Definition catchall_body (fp : string) : jsval := JObj [("identity_fingerprint", if fp =s? "" then JNull else JStr fp)].
Lemma run_catchall sv d fp : normal_domain d -> printable (JStr fp) = true ->
  run respond sv (setDomainCatchall origin d (if fp =s? "" then JNull else JStr fp)) =
    outcome (for_paid (apiCustomDomainsCatchall d (Some (catchall_body fp)))) (expect_or_error "catchall") sv.
Proof.
  intros Hd Hp. unfold setDomainCatchall.
  assert ((if (is_nullish (if fp =s? "" then JNull else JStr fp) || match (if fp =s? "" then JNull else JStr fp) with JStr s => s =s? "" | _ => false end) then JNull
           else (if fp =s? "" then JNull else JStr fp)) = if fp =s? "" then JNull else JStr fp) as E by (destruct (String.eqb_spec fp "") as [|Hn%String.eqb_neq]; [done | cbn; by rewrite Hn]).
  cbv zeta. rewrite E. apply Serving.run_served; [apply Serving.silent_expect_or_error|]. intros s. unfold serve, call_json.
  change ("/api/v1/custom-domains/" +:+ encodeURIComponent d +:+ "/catchall") with ("/" +:+ join "/" (domain_segments d ["catchall"])). rewrite named_address by plain_segments.
  cbn [domain_segments app]. unfold domain_request. cbn [rq_method rq_body]. rewrite named_decodes, served_body_reads by (done || by (destruct (fp =s? ""); cbn; rewrite ?Hp)).
  unfold for_paid, catchall_body. by destruct (paid s).
Qed.
End Run.
