(* ===== verification/CustomDomains.v ===== *)
(** * Custom domains ([static/mail/mail-settings.jsx], [CustomDomainsSection])

    The names a user may enter, the DNS records that are shown for a domain, and the handlers
    of the page as programs over requests, proved against the domains of the server
    ([DomainServer]). The effect that closes the details of a domain that is gone runs after
    each handler. *)
From Stdlib Require Import ZArith Lia Ascii.
From stdpp Require Import strings list.
From S2P Require Import Prelude JsString JsValue Base64 Text Json Split FilterEngine Http Handlers Manifest MailServer Serving DomainServer.
Local Open Scope nat_scope.

(** ** Records *)

Record dns_entry := DnsEntry { en_type : string; en_host : string; en_value : string; en_ttl : string; en_extra : string; en_hint : string }.
Record dns_config := DnsConfig { verificationTxt : dns_entry; mx : dns_entry; spf : dns_entry; dkim : dns_entry; dmarc : dns_entry }.
Record domain := Domain {
  d_domain : string;
  status : string;
  mxVerified : bool;
  spfVerified : bool;
  dkimVerified : bool;
  dmarcVerified : bool;
  verificationTxtHost : string;
  verificationTxtValue : string;
  dnsConfig : dns_config;
  catchallIdentityFP : string;
  createdAt : jsval;
}.

(** [raw?.a ?? raw?.b], and [String(v || d)]. *)
Definition either (raw : jsval) (a b : string) : jsval := if is_nullish (prop raw a) then prop raw b else prop raw a.
Definition text_or (v : jsval) (d : string) : string := js_String (js_or v (JStr d)).
Definition nullish_text (v : jsval) : string := trim (js_String (if is_nullish v then JStr "" else v)).

Definition normalizeCustomDomainDNSConfigEntry (raw : jsval) (fallbackType : string) : dns_entry :=
  DnsEntry (str_or (to_upper (trim (text_or (prop raw "type") (str_or fallbackType "TXT")))) "TXT") (trim (text_or (prop raw "host") ""))
    (trim (text_or (prop raw "value") "")) (str_or (trim (text_or (prop raw "ttl") "Auto")) "Auto") (trim (text_or (prop raw "extra") ""))
    (trim (text_or (prop raw "hint") "")).
Definition normalizeCustomDomainDNSConfig (raw : jsval) : dns_config :=
  let source := js_or (prop raw "dns_config") (js_or (prop raw "dnsConfig") (JObj [])) in
  DnsConfig (normalizeCustomDomainDNSConfigEntry (js_or (prop source "verification_txt") (prop source "verificationTxt")) "TXT")
    (normalizeCustomDomainDNSConfigEntry (prop source "mx") "MX") (normalizeCustomDomainDNSConfigEntry (prop source "spf") "TXT")
    (normalizeCustomDomainDNSConfigEntry (prop source "dkim") "TXT") (normalizeCustomDomainDNSConfigEntry (prop source "dmarc") "TXT").
Definition normalizeCustomDomainRecord (raw : jsval) : domain :=
  Domain (to_lower (trim (text_or (prop raw "domain") ""))) (str_or (to_lower (trim (text_or (prop raw "status") "pending"))) "pending")
    (truthy (either raw "mx_verified" "mxVerified")) (truthy (either raw "spf_verified" "spfVerified"))
    (truthy (either raw "dkim_verified" "dkimVerified")) (truthy (either raw "dmarc_verified" "dmarcVerified"))
    (nullish_text (either raw "verification_txt_host" "verificationTxtHost")) (nullish_text (either raw "verification_txt_value" "verificationTxtValue"))
    (normalizeCustomDomainDNSConfig raw) (to_upper (nullish_text (either raw "catchall_identity_fp" "catchallIdentityFp")))
    (js_or (prop raw "created_at") (js_or (prop raw "createdAt") (JStr ""))).

Definition customDomainStatusVariant (status : string) : string :=
  let normalized := to_lower (trim status) in
  if (normalized =s? "active") || (normalized =s? "verified") then "success" else if normalized =s? "pending" then "warning" else "error".
Definition customDomainStatusLabel (status : string) : string :=
  let normalized := to_lower (trim status) in if normalized =s? "active" then "ready" else str_or normalized "pending".
Definition customDomainIsReady (d : domain) : bool :=
  let s := to_lower (trim (status d)) in (s =s? "active") || (s =s? "verified").

(** [s.replace(/\.$/, "")] and [s.replace(/\.+$/, "")] *)
Definition drop_dot (s : string) : string := if ends_with s "." then sinit 1 s else s.
Definition relativeDNSName (name domain : string) : string :=
  let fqdn := drop_dot (to_lower (trim name)) in
  let base := drop_dot (to_lower (trim domain)) in
  if (fqdn =s? "") || (base =s? "") then fqdn
  else if fqdn =s? base then "@"
  else
    let suffix := "." +:+ base in
    if ends_with fqdn suffix then str_or (sinit (String.length suffix) fqdn) "@" else fqdn.

Definition add_value (seen : list string) (v : jsval) : list string :=
  let t := trim (text_or v "") in if (t =s? "") || str_mem t seen then seen else seen ++ [t].
Definition uniqueDNSValues (values : jsval) : list string := foldl add_value [] (to_list values).

Record dns_record := DnsRecord {
  r_id : string;
  r_label : string;
  r_ok : bool;
  r_type : string;
  r_hostLabel : string;
  r_fqdn : string;
  r_value : string;
  r_ttl : string;
  r_extra : string;
  r_statusText : string;
  r_setupNote : string;
  r_detectedValues : list string;
}.
(** [verifyResult?.checks?.[key]] *)
Definition check_for (verifyResult : jsval) (key : string) : jsval := prop (prop verifyResult "checks") key.
Definition pushRecord (domainName id label : string) (c : dns_entry) (check : jsval) (ok : bool) : dns_record :=
  let fqdn := trim (en_host c) in
  let statusText := js_or (prop check "note") (js_or (prop check "error") (js_or (JStr (if truthy (prop check "ok") then "Verified." else "")) (JStr (en_hint c)))) in
  DnsRecord id label ok (to_upper (trim (str_or (en_type c) (if id =s? "mx" then "MX" else "TXT")))) (str_or (relativeDNSName fqdn domainName) "@") fqdn
    (trim (en_value c)) (str_or (trim (str_or (en_ttl c) "Auto")) "Auto") (trim (en_extra c)) (trim (text_or statusText "")) (trim (en_hint c))
    (uniqueDNSValues (prop check "values")).
Definition ownership_entry (d : domain) : dns_entry :=
  let c := verificationTxt (dnsConfig d) in
  DnsEntry "TXT" (str_or (verificationTxtHost d) (en_host c)) (str_or (verificationTxtValue d) (en_value c)) (str_or (en_ttl c) "Auto") ""
    "Publish this exact TXT record so Elvish can verify you control the domain.".
Definition buildCustomDomainDNSRecords (d : domain) (verifyResult : jsval) : list dns_record :=
  if d_domain d =s? "" then []
  else
    let c := dnsConfig d in
    let push id label entry ok := pushRecord (d_domain d) id label entry (check_for verifyResult id) ok in
    let passed key := truthy (prop (check_for verifyResult key) "ok") in
    [push "ownership" "Ownership TXT" (ownership_entry d) (truthy (prop verifyResult "ownership_verified"));
     push "mx" "MX" (mx c) (mxVerified d || passed "mx"); push "spf" "SPF" (spf c) (spfVerified d || passed "spf");
     push "dkim" "DKIM" (dkim c) (dkimVerified d || passed "dkim"); push "dmarc" "DMARC" (dmarc c) (dmarcVerified d || passed "dmarc")].

(** What is sent for a name that is entered, and why a name is refused. *)
Definition entered (raw : string) : string := trim_dots_end (to_lower (trim raw)).
Definition INVALID : string := "Enter a valid DNS domain".
Definition bad_part (part : string) : bool :=
  (part =s? "") || (63 <? String.length part) || starts_with part "-" || ends_with part "-" || negb (all_chars dns_char part).
Definition validateCustomDomainInput (raw : string) : string :=
  let domain := entered raw in
  if domain =s? "" then "Domain is required"
  else if (253 <? String.length domain) || negb (includes domain ".") then INVALID
  else if existsb bad_part (split domain ".") then INVALID else "".

Record check_state := CheckState { ck_key : string; ck_label : string; ck_ok : bool; ck_note : jsval }.
Definition flag (d : domain) (key : string) : bool :=
  if key =s? "mx" then mxVerified d else if key =s? "spf" then spfVerified d else if key =s? "dkim" then dkimVerified d else if key =s? "dmarc" then dmarcVerified d else false.
Definition domainCheckState (d : domain) (verifyResult : jsval) (key label : string) : check_state :=
  let entry := check_for verifyResult key in
  if truthy entry then
    let values := match prop entry "values" with JArr (x :: l) => join ", " (map js_String (x :: l)) | _ => "" end in
    CheckState key label (truthy (prop entry "ok"))
      (js_or (prop entry "note") (js_or (prop entry "error") (js_or (JStr values) (js_or (prop entry "expected") (JStr "")))))
  else if key =s? "ownership" then
    let setup := if negb (verificationTxtHost d =s? "") && negb (verificationTxtValue d =s? "") then verificationTxtHost d +:+ " -> " +:+ verificationTxtValue d
                 else "Add the verification TXT record, then run Verify DNS." in
    let ok := truthy (prop verifyResult "ownership_verified") in
    CheckState key label ok (JStr (if ok then "Ownership verified." else setup))
  else CheckState key label (flag d key) (JStr (if flag d key then "Verified." else "Run Verify DNS to test this record.")).
Definition domainChecks (d : domain) (verifyResult : jsval) : list check_state :=
  map (fun p => domainCheckState d verifyResult p.1 p.2) [("ownership", "Ownership TXT"); ("mx", "MX"); ("spf", "SPF"); ("dkim", "DKIM"); ("dmarc", "DMARC")].

(** ** The page *)

Record target := Target { t_email : jsval; t_fingerprint : string; t_isDefault : bool }.
Inductive tone := ToastOk | ToastErr.
Record page := Page {
  domains : list domain;
  targets : list target;
  loading : bool;
  error : string;
  toast : option (string * tone);
  showAddModal : bool;
  paid : bool;
  newDomain : string;
  domainFormError : string;
  busyAdd : bool;
  detailDomainName : string;
  detailError : string;
  verifyLoading : bool;
  verifyResult : jsval;
  catchallDraft : string;
  catchallLoading : bool;
  confirmDelete : option string;
  deleteLoading : bool;
}.
Definition mounted : page := Page [] [] true "" None false false "" "" false "" "" false JNull "" false None false.

Definition set_lists (ds : list domain) (ts : list target) (p : page) : page :=
  Page ds ts (loading p) (error p) (toast p) (showAddModal p) (paid p) (newDomain p) (domainFormError p) (busyAdd p) (detailDomainName p) (detailError p)
    (verifyLoading p) (verifyResult p) (catchallDraft p) (catchallLoading p) (confirmDelete p) (deleteLoading p).
Definition set_loading (b : bool) (p : page) : page :=
  Page (domains p) (targets p) b (error p) (toast p) (showAddModal p) (paid p) (newDomain p) (domainFormError p) (busyAdd p) (detailDomainName p) (detailError p)
    (verifyLoading p) (verifyResult p) (catchallDraft p) (catchallLoading p) (confirmDelete p) (deleteLoading p).
Definition set_error (m : string) (p : page) : page :=
  Page (domains p) (targets p) (loading p) m (toast p) (showAddModal p) (paid p) (newDomain p) (domainFormError p) (busyAdd p) (detailDomainName p) (detailError p)
    (verifyLoading p) (verifyResult p) (catchallDraft p) (catchallLoading p) (confirmDelete p) (deleteLoading p).
Definition showToast (m : string) (t : tone) (p : page) : page :=
  Page (domains p) (targets p) (loading p) (error p) (Some (m, t)) (showAddModal p) (paid p) (newDomain p) (domainFormError p) (busyAdd p) (detailDomainName p)
    (detailError p) (verifyLoading p) (verifyResult p) (catchallDraft p) (catchallLoading p) (confirmDelete p) (deleteLoading p).
Definition set_paid (b : bool) (p : page) : page :=
  Page (domains p) (targets p) (loading p) (error p) (toast p) (showAddModal p) b (newDomain p) (domainFormError p) (busyAdd p) (detailDomainName p) (detailError p)
    (verifyLoading p) (verifyResult p) (catchallDraft p) (catchallLoading p) (confirmDelete p) (deleteLoading p).
Definition set_form (show : bool) (name formError : string) (busy : bool) (p : page) : page :=
  Page (domains p) (targets p) (loading p) (error p) (toast p) show (paid p) name formError busy (detailDomainName p) (detailError p)
    (verifyLoading p) (verifyResult p) (catchallDraft p) (catchallLoading p) (confirmDelete p) (deleteLoading p).
Definition set_details (name : string) (result : jsval) (err draft : string) (p : page) : page :=
  Page (domains p) (targets p) (loading p) (error p) (toast p) (showAddModal p) (paid p) (newDomain p) (domainFormError p) (busyAdd p) name err
    (verifyLoading p) result draft (catchallLoading p) (confirmDelete p) (deleteLoading p).
Definition set_busy (verifying routing deleting : bool) (p : page) : page :=
  Page (domains p) (targets p) (loading p) (error p) (toast p) (showAddModal p) (paid p) (newDomain p) (domainFormError p) (busyAdd p) (detailDomainName p)
    (detailError p) verifying (verifyResult p) (catchallDraft p) routing (confirmDelete p) deleting.
Definition set_confirm (d : option string) (p : page) : page :=
  Page (domains p) (targets p) (loading p) (error p) (toast p) (showAddModal p) (paid p) (newDomain p) (domainFormError p) (busyAdd p) (detailDomainName p)
    (detailError p) (verifyLoading p) (verifyResult p) (catchallDraft p) (catchallLoading p) d (deleteLoading p).
Definition set_detailError (m : string) (p : page) : page := set_details (detailDomainName p) (verifyResult p) m (catchallDraft p) p.

Definition find_domain (name : string) (l : list domain) : option domain := List.find (fun d => d_domain d =s? name) l.
Definition selectedDomain (p : page) : option domain := find_domain (detailDomainName p) (domains p).
(** The effect on the list: the details of a domain that is gone are closed. *)
Definition details_effect (p : page) : page :=
  if (detailDomainName p =s? "") || (if selectedDomain p is Some _ then true else false) then p else set_details "" JNull "" "" p.

(** The identities mail can be routed to. *)
Definition targets_of (payload : jsval) : list target :=
  map (fun i => Target (prop i "email") (to_upper (trim (text_or (prop i "fingerprint") ""))) (truthy (prop i "is_default")))
    (List.filter (fun i => truthy (prop i "is_active")) (to_list (prop payload "identities"))).

Definition openDetails (d : domain) (result : jsval) (p : page) : page :=
  if d_domain d =s? "" then p else set_details (d_domain d) result "" (catchallIdentityFP d) p.
(** [openDomainDetails] of a name: [s0] is the page its function was made in. *)
Definition openNamed (s0 : page) (name : string) (result : jsval) (p : page) : page :=
  match find_domain name (domains s0) with Some d => openDetails d result p | None => p end.
Definition closeDomainDetails (s0 : page) (p : page) : page := if verifyLoading s0 || catchallLoading s0 then p else set_details "" JNull "" "" p.

Section Handlers.
Variable origin : string.
Local Abbreviation M := (Handlers.M page).

(** [load]: what it returns are the domains, or nothing when it failed. *)
Definition load : M (list domain) :=
  _ <== modify (set_loading true) ;;;
  _ <== modify (set_error "") ;;;
  hfinally
    (hcatch
       (billing <== await (getBillingStatus origin) ;;;
        _ <== modify (set_paid (truthy (prop billing "paid"))) ;;;
        if negb (truthy (prop billing "paid")) then _ <== modify (set_lists [] []) ;;; hret []
        else
          r <== await (d <- attempt (listCustomDomains origin) ;; i <- attempt (listIdentities origin) ;; Ret (d, i)) ;;;
          match r.1 with
          | Throw m => hthrow m
          | Ok payload =>
              let nextDomains := map normalizeCustomDomainRecord (to_list (prop payload "domains")) in
              _ <== modify (set_lists nextDomains (match r.2 with Ok i => targets_of i | Throw _ => [] end)) ;;;
              hret nextDomains
          end)
       (fun m => _ <== modify (set_error (str_or m "Failed to load domains")) ;;; hret []))
    (set_loading false).

(** The domain as it is shown before it is listed. *)
Definition fallback_domain (result : jsval) (d : string) : domain :=
  let config := prop result "dns_config" in
  normalizeCustomDomainRecord
    (JObj [("domain", js_or (prop result "domain") (JStr d)); ("status", JStr "pending"); ("dns_config", config);
           ("verification_txt_host", prop (prop config "verification_txt") "host"); ("verification_txt_value", prop (prop config "verification_txt") "value")]).
Definition handleAdd (s0 : page) : M unit :=
  let d := entered (newDomain s0) in
  let validation := validateCustomDomainInput d in
  _ <== modify (fun p => set_form (showAddModal p) (newDomain p) validation (busyAdd p) p) ;;;
  if negb (validation =s? "") then hret tt
  else
    _ <== modify (fun p => set_form (showAddModal p) (newDomain p) (domainFormError p) true p) ;;;
    _ <== modify (set_error "") ;;;
    hfinally
      (hcatch
         (result <== await (addCustomDomain origin (JStr d)) ;;;
          refreshed <== load ;;;
          let fallback := fallback_domain result d in
          _ <== modify (fun p => set_form false "" (domainFormError p) (busyAdd p) p) ;;;
          _ <== modify (openDetails (default fallback (find_domain (d_domain fallback) refreshed)) JNull) ;;;
          modify (showToast ("Added " +:+ d_domain fallback +:+ ". Publish the DNS records, then verify DNS.") ToastOk))
         (fun m => modify (set_error (str_or m "Failed to add domain"))))
      (fun p => set_form (showAddModal p) (newDomain p) (domainFormError p) false p).

Definition fails (fallback m : string) (p : page) : page :=
  let message := str_or m fallback in showToast message ToastErr (set_error message (set_detailError message p)).
Definition verifySelectedDomain (s0 : page) : M unit :=
  match selectedDomain s0 with
  | None => hret tt
  | Some d =>
      _ <== modify (fun p => set_error "" (set_detailError "" (set_busy true (catchallLoading p) (deleteLoading p) p))) ;;;
      hfinally
        (hcatch
           (result <== await (verifyCustomDomain origin (d_domain d)) ;;;
            _ <== modify (fun p => set_details (detailDomainName p) result (detailError p) (catchallDraft p) p) ;;;
            refreshed <== load ;;;
            _ <== modify (openNamed s0 (d_domain d) result) ;;;
            modify (if truthy (prop result "ready") || customDomainIsReady (default d (find_domain (d_domain d) refreshed))
                    then showToast (d_domain d +:+ " is ready to receive mail.") ToastOk
                    else showToast ("DNS check finished for " +:+ d_domain d +:+ ". Review the missing records.") ToastErr))
           (fun m => modify (fails "Verify failed" m)))
        (fun p => set_busy false (catchallLoading p) (deleteLoading p) p)
  end.

Definition saveCatchall (s0 : page) : M unit :=
  match selectedDomain s0 with
  | None => hret tt
  | Some d =>
      _ <== modify (fun p => set_error "" (set_detailError "" (set_busy (verifyLoading p) true (deleteLoading p) p))) ;;;
      hfinally
        (hcatch
           (_ <== await (setDomainCatchall origin (d_domain d) (if catchallDraft s0 =s? "" then JNull else JStr (catchallDraft s0))) ;;;
            _ <== load ;;;
            modify (showToast (if catchallDraft s0 =s? "" then "Catch-all cleared for " +:+ d_domain d +:+ "." else "Catch-all saved for " +:+ d_domain d +:+ ".") ToastOk))
           (fun m => modify (fails "Could not save catch-all" m)))
        (fun p => set_busy (verifyLoading p) false (deleteLoading p) p)
  end.

Definition executeRemoveDomain (s0 : page) : M unit :=
  let d := default "" (confirmDelete s0) in
  _ <== modify (fun p => set_error "" (set_busy (verifyLoading p) (catchallLoading p) true p)) ;;;
  hfinally
    (hcatch
       (_ <== await (deleteCustomDomain origin d) ;;;
        _ <== load ;;;
        _ <== modify (fun p => if detailDomainName s0 =s? d then closeDomainDetails s0 p else p) ;;;
        _ <== modify (showToast ("Removed " +:+ d +:+ ".") ToastOk) ;;;
        modify (set_confirm None))
       (fun m => modify (fun p => let message := str_or m "Delete failed" in showToast message ToastErr (set_error message p))))
    (fun p => set_busy (verifyLoading p) (catchallLoading p) false p).

(** What the buttons do; [s0]: the page when they were drawn. *)
Inductive action := Add | Verify | Route | Remove.
Definition perform (a : action) (s0 : page) : M unit :=
  _ <== (match a with
         | Add => handleAdd s0
         | Verify => verifySelectedDomain s0
         | Route => saveCatchall s0
         | Remove => executeRemoveDomain s0
         end) ;;;
  modify details_effect.
End Handlers.

(** ** Names *)

Lemma bad_part_valid part : bad_part part = negb (valid_label part).
Proof.
  unfold bad_part, valid_label. assert ((63 <? String.length part) = negb (String.length part <=? 63)) as ->; [|by rewrite !negb_andb, !negb_involutive].
  destruct (Nat.leb_spec (String.length part) 63); [apply Nat.ltb_ge | apply Nat.ltb_lt]; lia.
Qed.
Lemma no_bad_parts parts : existsb bad_part parts = negb (forallb valid_label parts).
Proof. induction parts as [|x parts IH]; [done|]. cbn [existsb forallb]. by rewrite IH, bad_part_valid, negb_andb. Qed.
Lemma validated d : validateCustomDomainInput d = "" <->
  plain_name (entered d) = true /\ includes (entered d) "." = true /\ String.length (entered d) <= 253.
Proof.
  unfold validateCustomDomainInput, plain_name. set (x := entered d). destruct (String.eqb_spec x "") as [E|E]; [rewrite E; by split; [|intros (? & ? & _)]|].
  destruct (Nat.ltb_spec 253 (String.length x)); cbn [orb]; [split; [done | intros (_ & _ & ?); lia]|].
  destruct (includes x "."); cbn [negb]; [|by split; [|intros (_ & ? & _)]]. rewrite no_bad_parts. destruct (forallb _ _); cbn [negb]; split; try done. by intros (? & _).
Qed.

Lemma trim_dots_start_idemp s : trim_dots_start (trim_dots_start s) = trim_dots_start s.
Proof. induction s as [|c s IH]; [done|]. cbn [trim_dots_start]. destruct (Ascii.eqb c ".") eqn:E; [done|]. cbn [trim_dots_start]. by rewrite E. Qed.
Lemma trim_dots_end_idemp s : trim_dots_end (trim_dots_end s) = trim_dots_end s.
Proof.
  induction s as [|c s IH]; [done|]. cbn [trim_dots_end]. destruct ((trim_dots_end s =s? "") && Ascii.eqb c ".") eqn:E; [done|]. cbn [trim_dots_end]. by rewrite IH, E.
Qed.
Lemma trim_dots_swap s : trim_dots_end (trim_dots_start s) = trim_dots_start (trim_dots_end s).
Proof.
  induction s as [|c s IH]; [done|]. cbn [trim_dots_start]. destruct (Ascii.eqb c ".") eqn:E.
  - rewrite IH. cbn [trim_dots_end]. rewrite E, andb_true_r. destruct (String.eqb_spec (trim_dots_end s) "") as [->|]; [done|]. cbn [trim_dots_start]. by rewrite E.
  - cbn [trim_dots_end]. rewrite E, andb_false_r. cbn [trim_dots_start]. by rewrite E.
Qed.

(** C26: the browser and the server accept the same names: a name that the form accepts is
    taken by the server in the form it is sent, and a name that the server takes as it is
    sent, without space around it, is one the form accepts. *)
Theorem accepted_names_agree d :
  validateCustomDomainInput d = "" <-> normalizeDNSDomain d = Ok (entered d) /\ trim (entered d) = entered d.
Proof.
  rewrite validated. assert (trim_dots_end (trim_dots_start (trim (to_lower d))) = trim_dots_start (entered d)) as Es.
  { unfold entered. by rewrite trim_dots_swap, to_lower_trim. }
  split.
  - intros (Hp & Hi & Hl). pose proof (plain_name_facts _ Hp) as (Hc & He & Hs & Hn%String.eqb_neq). split; [|by apply name_trim].
    unfold normalizeDNSDomain, validDNSName. rewrite Es, Hs, Hn, name_lower, name_trim, Hn, Hi by done. unfold plain_name in Hp. rewrite Hp.
    apply Nat.leb_le in Hl. by rewrite Hl.
  - intros [Hr Ht]. unfold normalizeDNSDomain in Hr. rewrite Es in Hr. destruct (trim_dots_start (entered d) =s? "") eqn:E1; [done|].
    destruct (negb _ || negb _) eqn:E2; [done|]. injection Hr as Hr. rewrite Hr in E2. unfold validDNSName in E2.
    assert (to_lower (entered d) = entered d) as Hlow.
    { unfold entered. generalize (trim d) as x. intros x. induction x as [|c x IH]; [done|]. cbn [to_lower trim_dots_end].
      destruct ((trim_dots_end (to_lower x) =s? "") && Ascii.eqb (lower_char c) ".")%char eqn:Eb; [reflexivity|]. cbn [to_lower]. by rewrite IH, lower_char_idemp. }
    rewrite Hlow, Ht in E2. apply orb_false_iff in E2 as [E2 E3]. unfold plain_name. bool_to_prop. split_and!; done || lia.
Qed.

(** A subdomain is a name like any other, in the browser as on the server. *)
Example subdomain_is_accepted : validateCustomDomainInput "mail.shop.example" = "" /\ normalizeDNSDomain "mail.shop.example" = Ok "mail.shop.example".
Proof. vm_compute. split; reflexivity. Qed.

(** ** The page and the server *)

Section Follows.
Context `{uu : Uuid}.
Variable origin : string.
Local Abbreviation respond := (respond origin).

Definition shown (sv : server) (o : owned) : domain := normalizeCustomDomainRecord (row_json sv o).
Definition shown_list (sv : server) : list domain := if DomainServer.paid sv then map (shown sv) (rows sv) else [].
(** The page shows the domains of the server. *)
Definition in_sync (p : page) (sv : server) : Prop := paid p = DomainServer.paid sv /\ domains p = shown_list sv.
(** The names that are kept are plain. *)
Definition kept_name (d : string) : Prop := plain_name d = true /\ includes d "." = true /\ String.length d <= 253.
Definition proper (sv : server) : Prop := Forall (fun o => kept_name (o_domain o)) (rows sv).

Lemma kept_normal d : kept_name d -> normal_domain d.
Proof. intros (Hp & Hi & Hl). by apply normalize_plain. Qed.
Lemma shown_name sv o : kept_name (o_domain o) -> d_domain (shown sv o) = o_domain o.
Proof.
  intros (Hp & _ & _). apply plain_name_facts in Hp as (Hc & _ & _ & Hn%String.eqb_neq).
  assert (d_domain (shown sv o) = to_lower (trim (text_or (JStr (o_domain o)) ""))) as -> by reflexivity.
  unfold text_or, js_or. cbn [truthy]. rewrite Hn. cbn [negb js_String]. by rewrite name_trim, name_lower.
Qed.

(** What a request leaves alone. *)
Definition same_config (a b : server) : Prop :=
  DomainServer.paid a = DomainServer.paid b /\ mx_target a = mx_target b /\ dkim_of a = dkim_of b /\ fates a = fates b /\ dns a = dns b.
Lemma shown_config a b o : same_config a b -> shown a o = shown b o.
Proof. intros (_ & Hm & Hd & _). unfold shown, row_json, customDomainDNSConfig. by rewrite Hm, Hd. Qed.
Lemma list_config a b : same_config a b -> rows a = rows b -> shown_list a = shown_list b.
Proof.
  intros Hc Hr. unfold shown_list. pose proof Hc as (Hp & _). rewrite Hp, Hr. destruct (DomainServer.paid b); [|done].
  apply map_ext. intros o. by apply shown_config.
Qed.

(** A handler of the server that answers with a failure has changed no domain. *)
Definition careful (h : server -> server * response) : Prop :=
  forall sv sv' r, h sv = (sv', r) -> same_config sv' sv /\ rp_json r <> None /\ (rp_ok r = false -> rows sv' = rows sv) /\ (proper sv -> proper sv').

(** The server is as it was, but for its tokens. *)
Ltac nothing_done := intros [= <- <-]; split_and!; [by repeat split | done | done | done].
Lemma careful_paid h : careful h -> careful (for_paid h).
Proof. intros Hh sv sv' r. unfold for_paid. destruct (DomainServer.paid sv); [apply Hh|]. nothing_done. Qed.
Lemma insert_proper o l : kept_name (o_domain o) -> Forall (fun o => kept_name (o_domain o)) l -> Forall (fun o => kept_name (o_domain o)) (insert_owned o l).
Proof. intros Ho. induction 1 as [|o' l Ho' Hl IH]; cbn [insert_owned]; [by constructor|]. destruct (String.ltb _ _); [constructor; [done | by constructor] | by constructor]. Qed.
Lemma update_proper d f l : (forall o, o_domain (f o) = o_domain o) -> Forall (fun o => kept_name (o_domain o)) l -> Forall (fun o => kept_name (o_domain o)) (update_owned d f l).
Proof. intros Hf. induction 1 as [|o l Ho Hl IH]; cbn; [done|]. constructor; [|done]. destruct (_ =s? _); by rewrite ?Hf. Qed.
Lemma careful_add body : careful (apiCustomDomainsAdd body).
Proof.
  intros sv sv' r. unfold apiCustomDomainsAdd. destruct (body ≫= fields_of) as [l|]; [|nothing_done]. cbn [option_bind mbind].
  destruct (read_string _) as [raw|]; [|nothing_done]. destruct (normalizeDNSDomain _) as [d|m]; [|nothing_done].
  destruct (str_mem d (reserved sv)); [nothing_done|]. destruct (normalizeOwnedDomain d) as [name|] eqn:En; [|nothing_done].
  destruct (_ || _); [nothing_done|]. destruct (negb _); [nothing_done|]. intros [= <- <-]. split_and!; [by repeat split|done|done|].
  intros Hp. apply insert_proper; [|exact Hp]. by apply owned_plain in En.
Qed.
Lemma careful_remove d : careful (apiCustomDomainsDelete d).
Proof.
  intros sv sv' r. unfold apiCustomDomainsDelete. destruct (find_owned d (rows sv)) as [o0|]; [|nothing_done]. intros [= <- <-]. split_and!; [by repeat split|done|done|].
  intros Hp. apply Forall_forall. intros o Ho. apply list_elem_of_In, filter_In in Ho as [Ho _]. apply list_elem_of_In in Ho. exact (proj1 (Forall_forall _ _) Hp o Ho).
Qed.
Lemma careful_verify d : careful (apiCustomDomainsVerify d).
Proof.
  intros sv sv' r. unfold apiCustomDomainsVerify. destruct (find_owned d (rows sv)) as [o0|]; [|nothing_done]. destruct (negb _); [nothing_done|]. intros [= <- <-].
  split_and!; [by repeat split|done|done|]. intros Hp. by apply update_proper.
Qed.
Lemma careful_catchall d body : careful (apiCustomDomainsCatchall d body).
Proof.
  intros sv sv' r. unfold apiCustomDomainsCatchall.
  assert (forall fp, match find_owned d (rows sv) with
    | None => (sv, refusal 404 "domain not found")
    | Some _ => (with_rows (update_owned d (fun o => Owned (o_domain o) (o_status o) (o_mx o) (o_spf o) (o_dkim o) (o_dmarc o) (o_host o) (o_value o) (trim fp)) (rows sv)) sv,
                 answer 200 (JObj [("ok", JBool true)])) end = (sv', r) ->
    same_config sv' sv /\ rp_json r <> None /\ (rp_ok r = false -> rows sv' = rows sv) /\ (proper sv -> proper sv')) as Hs.
  { intros fp. destruct (find_owned d (rows sv)) as [o0|]; [|nothing_done]. intros [= <- <-]. split_and!; [by repeat split|done|done|]. intros Hp. by apply update_proper. }
  destruct (body ≫= fields_of) as [l|]; [|nothing_done]. cbn [option_bind mbind]. destruct (read_string _) as [raw|]; [|nothing_done].
  destruct (_ =s? ""); [apply Hs|]. destruct (resolveIdentitySelector sv _) as [fp|]; [|nothing_done].
  cbn [option_bind mbind].
  destruct (List.find (fun r0 => id_fingerprint r0 =s? fp) (identities sv)) as [i|]; [|nothing_done]. cbn [option_bind mbind].
  destruct (negb (id_active i)); [nothing_done | apply Hs].
Qed.

(** *** Loading *)

Lemma answered_outcome h read sv : fates sv = [] -> outcome h read sv = ((h sv).1, Serving.reading read (h sv).2).
Proof. intros Hf. unfold outcome, Serving.outcome, Serving.next_fate. rewrite Hf. by destruct (h sv). Qed.

Lemma run_lists sv : fates sv = [] -> DomainServer.paid sv = true -> exists i,
  run respond sv (d <- attempt (listCustomDomains origin) ;; i <- attempt (listIdentities origin) ;; Ret (d, i)) =
    (sv, Ok (Ok (JObj [("domains", JArr (map (row_json sv) (rows sv)))]), i)).
Proof.
  intros Hf Hp. eexists. rewrite run_bind, run_attempt, run_list, answered_outcome by done. unfold for_paid. rewrite Hp. cbn [negb fst snd apiCustomDomainsList].
  rewrite run_bind, run_attempt, run_identities, answered_outcome by done. reflexivity.
Qed.
Lemma run_reload sv p : fates sv = [] -> exists ts,
  run respond sv (load origin p) =
    (sv, Ok (set_loading false (set_lists (shown_list sv) ts (set_paid (DomainServer.paid sv) (set_error "" (set_loading true p)))), Ok (shown_list sv))).
Proof.
  intros Hf. destruct (DomainServer.paid sv) eqn:Ep; [destruct (run_lists sv Hf Ep) as [i Hi]|]; eexists; unfold load;
    erewrite !run_hbind by reflexivity; rewrite run_hfinally, run_hcatch;
    (erewrite run_hbind by (apply run_await; rewrite run_billing, answered_outcome by done; reflexivity)); erewrite run_hbind by reflexivity; cbn [apiBillingStatus fst];
    change (truthy (prop (JObj [("paid", JBool (DomainServer.paid sv))]) "paid")) with (DomainServer.paid sv); unfold shown_list; rewrite Ep; cbn [negb].
  - erewrite run_hbind by (apply run_await, Hi). cbn [fst snd]. erewrite run_hbind by reflexivity. cbn [run hret].
    change (to_list (prop (JObj [("domains", JArr (map (row_json sv) (rows sv)))]) "domains")) with (map (row_json sv) (rows sv)). rewrite map_map. reflexivity.
  - erewrite run_hbind by reflexivity. reflexivity.
Qed.

(** *** After an action *)

(** What a step leaves alone: the list and whether the user pays. *)
Definition lists (p : page) := (paid p, domains p).
Lemma sync_lists p q sv : lists p = lists q -> in_sync p sv -> in_sync q sv.
Proof. unfold lists, in_sync. intros [= E1 E2]. by rewrite E1, E2. Qed.

Lemma request_outcome h label sv f : careful h -> fates sv = [f] -> f <> Lost ->
  exists sv' r, outcome h (expect_or_error label) sv = (sv', r) /\ fates sv' = [] /\ (proper sv -> proper sv') /\
    match r with
    | Ok j => exists resp, h (with_rest [] sv) = (sv', resp) /\ rp_json resp = Some j
    | Throw _ => DomainServer.paid sv' = DomainServer.paid sv /\ shown_list sv' = shown_list sv
    end.
Proof.
  intros Hh Hf Hl. unfold outcome, Serving.outcome, Serving.next_fate. rewrite Hf. destruct f; [| |done].
  - destruct (h (with_rest [] sv)) as [sv' resp] eqn:E. destruct (Hh _ _ _ E) as (Hc & Hj & Hr & Hp). exists sv', (Serving.reading (expect_or_error label) resp).
    split; [done|]. split; [by destruct Hc as (_ & _ & _ & -> & _)|]. split; [done|]. destruct (Serving.reading (expect_or_error label) resp) as [j|m] eqn:Ej.
    + apply Serving.reading_ok in Ej as [_ Ej]. by exists resp.
    + destruct (rp_ok resp) eqn:Eo.
      * exfalso. unfold Serving.reading, expect_or_error, json in Ej. rewrite Eo in Ej. cbn [negb] in Ej. by destruct (rp_json resp).
      * split; [by destruct Hc as (-> & _)|]. transitivity (shown_list (with_rest [] sv)); [|done]. apply list_config; [done | by apply Hr].
  - eexists _, _. split; [reflexivity|]. by split_and!.
Qed.

(** A request, and what is done with its answer. *)
Lemma act_syncs (h : server -> server * response) label req (k : jsval -> Handlers.M page unit) fail fin sv p f :
  (forall sv, run respond sv req = outcome h (expect_or_error label) sv) -> careful h -> fates sv = [f] -> f <> Lost -> in_sync p sv -> proper sv ->
  (forall j sv q, fates sv = [] -> exists q', run respond sv (k j q) = (sv, Ok (q', Ok tt)) /\ in_sync q' sv) ->
  (forall m q, lists (fail m q) = lists q) -> (forall q, lists (fin q) = lists q) ->
  exists sv' p', run respond sv (hfinally (hcatch (hbind (await req) k) (fun m => modify (fail m))) fin p) = (sv', Ok (p', Ok tt)) /\
    in_sync p' sv' /\ proper sv'.
Proof.
  intros Hq Hh Hf Hl Hs Hpr Hk Hfail Hfin. destruct (request_outcome h label sv f Hh Hf Hl) as (sv' & r & Ho & Hf' & Hp & Hr). rewrite <- Hq in Ho.
  rewrite run_hfinally, run_hcatch. destruct r as [j|m].
  - erewrite run_hbind by (apply run_await, Ho). destruct (Hk j sv' p Hf') as (q & Hrun & Hsync). rewrite Hrun. exists sv', (fin q).
    split; [done|]. split; [|by apply Hp]. by apply (sync_lists q).
  - erewrite run_hbind_throw by (apply run_await_res, Ho). exists sv', (fin (fail m p)). split; [done|]. split; [|by apply Hp].
    apply (sync_lists p); [by rewrite Hfin, Hfail|]. destruct Hr as [E1 E2]. destruct Hs as [H1 H2]. split; congruence.
Qed.

Lemma load_then (k : list domain -> Handlers.M page unit) sv p : fates sv = [] ->
  (forall q, exists q', run respond sv (k (shown_list sv) q) = (sv, Ok (q', Ok tt)) /\ lists q' = lists q) ->
  exists q', run respond sv (hbind (load origin) k p) = (sv, Ok (q', Ok tt)) /\ in_sync q' sv.
Proof.
  intros Hf Hk. destruct (run_reload sv p Hf) as [ts Hl]. erewrite run_hbind by exact Hl. destruct (Hk (set_loading false (set_lists (shown_list sv) ts (set_paid (DomainServer.paid sv) (set_error "" (set_loading true p)))))) as (q' & Hr & Hq).
  exists q'. split; [done|]. unfold in_sync. injection Hq as -> ->. done.
Qed.

Lemma openDetails_lists d v q : lists (openDetails d v q) = lists q.
Proof. unfold openDetails. by destruct (_ =s? _). Qed.
Lemma openNamed_lists s0 n v q : lists (openNamed s0 n v q) = lists q.
Proof. unfold openNamed. destruct (find_domain n (domains s0)); [apply openDetails_lists | done]. Qed.
Lemma effect_lists q : lists (details_effect q) = lists q.
Proof. unfold details_effect. by destruct (_ || _). Qed.

(** The texts that are sent can be sent, and what is removed is on the list. *)
Definition sendable (a : action) (p : page) (sv : server) : Prop :=
  match a with
  | Add => printable (JStr (entered (newDomain p))) = true
  | Verify => True
  | Route => printable (JStr (catchallDraft p)) = true
  | Remove => exists o, o ∈ rows sv /\ confirmDelete p = Some (o_domain o)
  end.

Lemma selected_normal p sv d : in_sync p sv -> proper sv -> selectedDomain p = Some d -> normal_domain (d_domain d).
Proof.
  intros [_ Hd] Hp (Hin & _)%find_some. rewrite Hd in Hin. unfold shown_list in Hin. destruct (DomainServer.paid sv); [|done].
  apply in_map_iff in Hin as (o & <- & Ho). pose proof (proj1 (Forall_forall _ _) Hp o (proj2 (list_elem_of_In _ _) Ho)) as Hk.
  rewrite shown_name by done. by apply kept_normal.
Qed.

(** C27: a page that shows what the server keeps goes on showing it: when the list of the page
    is that of the server and one of its buttons is pressed (adding, verifying, routing or
    removing a domain of the list, with texts that JSON carries unchanged), the request is
    answered or refused, and the reload that follows an accepted one is answered, then the
    list of the page is again the list of the server, and the names that are kept stay
    plain.  A reload that fails leaves the old list: [unloaded_list_says_ready]. *)
Theorem page_follows_server a p sv f :
  in_sync p sv -> proper sv -> sendable a p sv -> fates sv = [f] -> f <> Lost ->
  exists sv' p', run respond sv (perform origin a p p) = (sv', Ok (p', Ok tt)) /\ in_sync p' sv' /\ proper sv'.
Proof.
  intros Hs Hp Ha Hf Hl. unfold perform.
  enough (exists sv' q, run respond sv
    (match a with
     | Add => handleAdd origin p | Verify => verifySelectedDomain origin p | Route => saveCatchall origin p
     | Remove => executeRemoveDomain origin p
     end p) = (sv', Ok (q, Ok tt)) /\ in_sync q sv' /\ proper sv') as (sv' & q & Hr & Hq & Hp').
  { exists sv', (details_effect q). erewrite run_hbind by exact Hr. split; [done|]. split; [|done]. apply (sync_lists q); [by rewrite effect_lists | done]. }
  destruct a; cbn [sendable] in Ha.
  - unfold handleAdd. erewrite run_hbind by reflexivity. destruct (negb _); [by exists sv, (set_form (showAddModal p) (newDomain p) (validateCustomDomainInput (entered (newDomain p))) (busyAdd p) p)|].
    erewrite !run_hbind by reflexivity.
    eapply (act_syncs (for_paid (apiCustomDomainsAdd (Some (JObj [("domain", JStr (entered (newDomain p)))])))) "domain add");
      [intros sv0; by apply run_add | apply careful_paid, careful_add | exact Hf | exact Hl | by apply (sync_lists p) | exact Hp | | done.. ].
    intros j sv0 q0 Hf0. apply load_then; [done|]. intros q1. eexists. split; [reflexivity|]. exact (eq_trans (openDetails_lists _ _ _) eq_refl).
  - unfold verifySelectedDomain. destruct (selectedDomain p) as [d|] eqn:Ed; [|by exists sv, p]. erewrite run_hbind by reflexivity.
    pose proof (selected_normal p sv d Hs Hp Ed) as Hd.
    eapply (act_syncs (for_paid (apiCustomDomainsVerify (d_domain d))) "domain verify");
      [intros sv0; by apply run_verify | apply careful_paid, careful_verify | exact Hf | exact Hl | by apply (sync_lists p) | exact Hp | | done.. ].
    intros j sv0 q0 Hf0. erewrite run_hbind by reflexivity. apply load_then; [done|]. intros q1. eexists. split; [reflexivity|].
    etransitivity; [|eapply openNamed_lists]. by destruct (_ || _).
  - unfold saveCatchall. destruct (selectedDomain p) as [d|] eqn:Ed; [|by exists sv, p]. erewrite run_hbind by reflexivity.
    pose proof (selected_normal p sv d Hs Hp Ed) as Hd.
    eapply (act_syncs (for_paid (apiCustomDomainsCatchall (d_domain d) (Some (catchall_body (catchallDraft p))))) "catchall");
      [intros sv0; by apply run_catchall | apply careful_paid, careful_catchall | exact Hf | exact Hl | by apply (sync_lists p) | exact Hp | | done.. ].
    intros j sv0 q0 Hf0. apply load_then; [done|]. intros q1. eexists. by split.
  - unfold executeRemoveDomain. destruct Ha as (o & Ho & ->). cbn [default]. erewrite run_hbind by reflexivity.
    pose proof (kept_normal _ (proj1 (Forall_forall _ _) Hp o Ho)) as Hd.
    eapply (act_syncs (for_paid (apiCustomDomainsDelete (o_domain o))) "domain delete");
      [intros sv0; by apply run_remove | apply careful_paid, careful_remove | exact Hf | exact Hl | by apply (sync_lists p) | exact Hp | | done.. ].
    intros j sv0 q0 Hf0. apply load_then; [done|]. intros q1. eexists. split; [reflexivity|]. unfold lists, closeDomainDetails.
    by destruct (detailDomainName p =s? _), (verifyLoading p), (catchallLoading p).
Qed.
(** *** Verifying *)

Lemma find_shown n sv : proper sv -> find_domain n (map (shown sv) (rows sv)) = option_map (shown sv) (find_owned n (rows sv)).
Proof.
  unfold proper, find_domain, find_owned. generalize (rows sv) as l. induction 1 as [|o l Ho Hl IH]; [done|]. cbn [map List.find]. rewrite shown_name by done.
  destruct (o_domain o =s? n); [done | exact IH].
Qed.
Lemma find_updated n f l o : (forall o, o_domain (f o) = o_domain o) -> find_owned n l = Some o -> find_owned n (update_owned n f l) = Some (f o).
Proof.
  intros Hf. unfold find_owned, update_owned. induction l as [|x l IH]; [done|]. cbn [List.find map]. destruct (o_domain x =s? n) eqn:E.
  - intros [= ->]. rewrite Hf, E. done.
  - by rewrite E.
Qed.
Lemma selected_owned p sv d : in_sync p sv -> proper sv -> selectedDomain p = Some d ->
  DomainServer.paid sv = true /\ exists o, find_owned (d_domain d) (rows sv) = Some o /\ d = shown sv o /\ detailDomainName p = d_domain d /\ kept_name (d_domain d).
Proof.
  intros [_ Hd] Hp Hsel. pose proof Hsel as (_ & Hn%String.eqb_eq)%find_some. unfold selectedDomain in Hsel. rewrite Hd, <- Hn in Hsel. unfold shown_list in Hsel.
  destruct (DomainServer.paid sv); [|done]. split; [done|]. rewrite find_shown in Hsel by done. destruct (find_owned (d_domain d) (rows sv)) as [o|] eqn:Eo; [|done].
  injection Hsel as Hsel. exists o. split_and!; [done | done | done |]. apply find_some in Eo as (Hin%list_elem_of_In & Ho%String.eqb_eq). rewrite <- Ho.
  exact (proj1 (Forall_forall _ _) Hp o Hin).
Qed.
Lemma shown_ready sv o : o_status o = "active" \/ o_status o = "pending" -> customDomainIsReady (shown sv o) = (o_status o =s? "active").
Proof.
  assert (status (shown sv o) = str_or (to_lower (trim (text_or (JStr (o_status o)) "pending"))) "pending") as E by reflexivity. unfold customDomainIsReady. rewrite E.
  by intros [-> | ->].
Qed.

(** The state of the checks, for the answer of the server. *)
Definition check_flags (own : dns_check) (a : dns_answers) : list bool := [k_ok own; k_ok (a_mx a); k_ok (a_spf a); k_ok (a_dkim a); k_ok (a_dmarc a)].
Definition ready_toast (n : string) (ok : bool) : string * tone :=
  if ok then (n +:+ " is ready to receive mail.", ToastOk) else ("DNS check finished for " +:+ n +:+ ". Review the missing records.", ToastErr).
Lemma shown_checks sv o own a : map ck_ok (domainChecks (shown sv o) (verify_json own a)) = check_flags own a.
Proof. reflexivity. Qed.
Lemma shown_records sv own a b o : o_domain o <> "" -> kept_name (o_domain o) ->
  map r_ok (buildCustomDomainDNSRecords (shown sv (verified b a o)) (verify_json own a)) = check_flags own a.
Proof.
  intros Hn Hk. unfold buildCustomDomainDNSRecords. rewrite shown_name by exact Hk. apply String.eqb_neq in Hn. cbn [verified o_domain]. rewrite Hn.
  change (map r_ok _) with [k_ok own; k_ok (a_mx a) || k_ok (a_mx a); k_ok (a_spf a) || k_ok (a_spf a); k_ok (a_dkim a) || k_ok (a_dkim a); k_ok (a_dmarc a) || k_ok (a_dmarc a)].
  by rewrite !orb_diag.
Qed.

Definition verified_server (n : string) (own : dns_check) (sv : server) : server := with_rows (update_owned n (verified (k_ok own) (dns sv n)) (rows sv)) sv.
Lemma verify_outcome sv n o : fates sv = [] -> DomainServer.paid sv = true -> find_owned n (rows sv) = Some o -> provisions sv n = true ->
  let own := a_ownership (dns sv n) (o_host o) (o_value o) in
  outcome (for_paid (apiCustomDomainsVerify n)) (expect_or_error "domain verify") sv = (verified_server n own sv, Ok (verify_json own (dns sv n))).
Proof. intros Hf Hpaid Ho Hpr own. rewrite answered_outcome by done. unfold for_paid, apiCustomDomainsVerify. rewrite Hpaid, Ho. cbn [negb]. by rewrite Hpr. Qed.
(** The row and what is shown of it after the verification. *)
Lemma verified_row sv n o own : find_owned n (rows sv) = Some o -> DomainServer.paid sv = true -> proper sv ->
  let sv' := verified_server n own sv in let o' := verified (k_ok own) (dns sv n) o in
  find_owned n (rows sv') = Some o' /\ find_domain n (shown_list sv') = Some (shown sv' o') /\
  (o_status o' =s? "active") = k_ok own && ready (dns sv n) /\ customDomainIsReady (shown sv' o') = k_ok own && ready (dns sv n).
Proof.
  intros Ho Hpaid Hp sv' o'. assert (find_owned n (rows sv') = Some o') as Ho' by (by apply find_updated).
  assert ((o_status o' =s? "active") = k_ok own && ready (dns sv n)) as Hst by (unfold o', verified; cbn [o_status]; by destruct (k_ok own && ready (dns sv n))).
  split_and!; [done | | done |].
  - unfold shown_list. change (DomainServer.paid sv') with (DomainServer.paid sv). rewrite Hpaid, find_shown by (by apply update_proper). by rewrite Ho'.
  - rewrite shown_ready, Hst; [done|]. unfold o', verified. cbn [o_status]. destruct (k_ok own && ready (dns sv n)); auto.
Qed.
Lemma verify_runs p sv d o : in_sync p sv -> proper sv -> selectedDomain p = Some d -> fates sv = [] -> find_owned (d_domain d) (rows sv) = Some o ->
  provisions sv (d_domain d) = true ->
  let n := d_domain d in let own := a_ownership (dns sv n) (o_host o) (o_value o) in let sv' := verified_server n own sv in
  exists p', run respond sv (perform origin Verify p p) = (sv', Ok (p', Ok tt)) /\ detailDomainName p' = n /\ domains p' = shown_list sv' /\
    verifyResult p' = verify_json own (dns sv n) /\ toast p' = Some (ready_toast n (k_ok own && ready (dns sv n))) /\
    catchallDraft p' = catchallIdentityFP d.
Proof.
  intros Hs Hp Hd Hf Ho Hpr n own sv'. destruct (selected_owned p sv d Hs Hp Hd) as (Hpaid & _ & _ & _ & Hn & Hk).
  destruct (verified_row sv n o own Ho Hpaid Hp) as (_ & Hfind & _ & Hready). fold sv' in Hfind, Hready.
  destruct (run_reload sv' (set_details (detailDomainName p) (verify_json own (dns sv n)) "" (catchallDraft p)
    (set_error "" (set_detailError "" (set_busy true (catchallLoading p) (deleteLoading p) p))))) as [ts Hload]; [done|].
  assert (find_domain n (domains p) = Some d) as Hfd by (unfold n; rewrite <- Hn; exact Hd).
  assert ((n =s? "") = false) as Hne by (apply String.eqb_neq; by destruct Hk as ((_ & _ & _ & ?)%plain_name_facts & _)).
  eexists. split.
  { unfold perform. erewrite run_hbind; [reflexivity|]. unfold verifySelectedDomain. rewrite Hd. erewrite run_hbind by reflexivity. rewrite run_hfinally, run_hcatch.
    erewrite run_hbind by (apply run_await; rewrite run_verify by (by apply kept_normal); by apply verify_outcome). erewrite run_hbind by reflexivity.
    erewrite run_hbind by exact Hload. erewrite run_hbind by reflexivity. reflexivity. }
  fold n. rewrite Hfind. cbn [default from_option id]. unfold id. rewrite Hready. unfold openNamed. rewrite Hfd. unfold openDetails. fold n. rewrite Hne.
  change (truthy (prop (verify_json own (dns sv n)) "ready")) with (k_ok own && ready (dns sv n)). rewrite orb_diag.
  unfold details_effect, selectedDomain, ready_toast.
  destruct (k_ok own && ready (dns sv n)); cbn [detailDomainName domains set_busy showToast set_details set_loading set_lists]; rewrite Hne, Hfind; by split_and!.
Qed.

(** C28: verifying shows what the DNS said: when the server answers, the details show the
    domain as the server keeps it now, each check and each record is marked as the server's
    check of it came out, and the user is told that the domain is ready exactly when the
    server has made it active. A route that was chosen but not saved is put back. *)
Theorem verification_is_shown p sv d :
  in_sync p sv -> proper sv -> selectedDomain p = Some d -> fates sv = [] -> provisions sv (d_domain d) = true ->
  exists own sv' p' o', run respond sv (perform origin Verify p p) = (sv', Ok (p', Ok tt)) /\
    find_owned (d_domain d) (rows sv') = Some o' /\ selectedDomain p' = Some (shown sv' o') /\
    own = a_ownership (dns sv (d_domain d)) (o_host o') (o_value o') /\
    map ck_ok (domainChecks (shown sv' o') (verifyResult p')) = check_flags own (dns sv (d_domain d)) /\
    map r_ok (buildCustomDomainDNSRecords (shown sv' o') (verifyResult p')) = check_flags own (dns sv (d_domain d)) /\
    (o_status o' =s? "active") = forallb id (check_flags own (dns sv (d_domain d))) /\
    toast p' = Some (ready_toast (d_domain d) (o_status o' =s? "active")) /\
    catchallDraft p' = catchallIdentityFP d.
Proof.
  intros Hs Hp Hd Hf Hpr. destruct (selected_owned p sv d Hs Hp Hd) as (Hpaid & o & Ho & _ & _ & Hk).
  destruct (verify_runs p sv d o Hs Hp Hd Hf Ho Hpr) as (p' & Hrun & Hn & Hl & Hv & Ht & Hc).
  set (own := a_ownership (dns sv (d_domain d)) (o_host o) (o_value o)) in *.
  destruct (verified_row sv (d_domain d) o own Ho Hpaid Hp) as (Ho' & Hfind & Hst & _).
  assert (o_domain o = d_domain d) as Hon by (by apply find_some in Ho as (_ & E%String.eqb_eq)).
  exists own, (verified_server (d_domain d) own sv), p', (verified (k_ok own) (dns sv (d_domain d)) o). rewrite Hv. split_and!.
  - exact Hrun.
  - exact Ho'.
  - unfold selectedDomain. by rewrite Hn, Hl.
  - done.
  - apply shown_checks.
  - apply shown_records; rewrite Hon; [|done]. by destruct Hk as ((_ & _ & _ & ?)%plain_name_facts & _).
  - rewrite Hst. unfold ready. cbn. by rewrite !andb_true_r, !andb_assoc.
  - by rewrite Ht, Hst.
  - exact Hc.
Qed.

Lemma run_reload_failed sv p f : fates sv = [f] -> f <> Answered -> exists m,
  run respond sv (load origin p) = (with_rest [] sv, Ok (set_loading false (set_error m (set_error "" (set_loading true p))), Ok [])).
Proof.
  intros Hf Ha.
  assert (exists m, run respond sv (getBillingStatus origin) = (with_rest [] sv, Throw m)) as [m Hm].
  { rewrite run_billing. unfold outcome, Serving.outcome, Serving.next_fate. rewrite Hf. destruct f; [done | eexists; reflexivity..]. }
  eexists. unfold load. erewrite !run_hbind by reflexivity. rewrite run_hfinally, run_hcatch.
  erewrite run_hbind_throw by (apply run_await_res, Hm). erewrite run_hbind by reflexivity. reflexivity.
Qed.

(** when the list cannot be loaded after the verification, the user is told what the list
    said before: a domain that was shown as ready, and that the server has just found not to
    be ready, is reported as ready to receive mail, while its checks are shown as they are. *)
Theorem unloaded_list_says_ready p sv d f :
  in_sync p sv -> proper sv -> selectedDomain p = Some d -> customDomainIsReady d = true -> fates sv = [Answered; f] -> f <> Answered ->
  provisions sv (d_domain d) = true -> ready (dns sv (d_domain d)) = false ->
  exists own sv' p' o', run respond sv (perform origin Verify p p) = (sv', Ok (p', Ok tt)) /\
    find_owned (d_domain d) (rows sv') = Some o' /\ o_status o' = "pending" /\ selectedDomain p' = Some d /\
    map ck_ok (domainChecks d (verifyResult p')) = check_flags own (dns sv (d_domain d)) /\
    toast p' = Some (d_domain d +:+ " is ready to receive mail.", ToastOk).
Proof.
  intros Hs Hp Hd Hrd Hf Ha Hpr Hnr. destruct (selected_owned p sv d Hs Hp Hd) as (Hpaid & o & Ho & _ & Hn & Hk). set (n := d_domain d) in *.
  set (own := a_ownership (dns sv n) (o_host o) (o_value o)). set (sv1 := verified_server n own (with_rest [f] sv)).
  assert (find_domain n (domains p) = Some d) as Hfd by (rewrite <- Hn; exact Hd).
  assert ((n =s? "") = false) as Hne by (apply String.eqb_neq; by destruct Hk as ((_ & _ & _ & ?)%plain_name_facts & _)).
  assert (outcome (for_paid (apiCustomDomainsVerify n)) (expect_or_error "domain verify") sv = (sv1, Ok (verify_json own (dns sv n)))) as Hv.
  { unfold outcome, Serving.outcome, Serving.next_fate. rewrite Hf. unfold for_paid, apiCustomDomainsVerify. cbn [DomainServer.paid rows provisions with_rest].
    rewrite Hpaid, Ho. cbn [negb]. by rewrite Hpr. }
  destruct (run_reload_failed sv1 (set_details (detailDomainName p) (verify_json own (dns sv n)) "" (catchallDraft p)
    (set_error "" (set_detailError "" (set_busy true (catchallLoading p) (deleteLoading p) p)))) f) as [m Hload]; [done | done |].
  exists own, (with_rest [] sv1). eexists _, (verified (k_ok own) (dns sv n) o). split; [|split; [exact (find_updated n (verified (k_ok own) (dns sv n)) _ o (fun _ => eq_refl) Ho) |]].
  { unfold perform. erewrite run_hbind; [reflexivity|]. unfold verifySelectedDomain. rewrite Hd. fold n. erewrite run_hbind by reflexivity. rewrite run_hfinally, run_hcatch.
    erewrite run_hbind by (apply run_await; rewrite run_verify by (by apply kept_normal); exact Hv). erewrite run_hbind by reflexivity.
    erewrite run_hbind by exact Hload. erewrite run_hbind by reflexivity. reflexivity. }
  change (find_domain n []) with (@None domain). cbn [default from_option]. rewrite Hrd, orb_true_r. unfold openNamed. rewrite Hfd. unfold openDetails. fold n. rewrite Hne.
  unfold details_effect, selectedDomain. cbn [detailDomainName domains set_busy showToast set_details set_loading set_error set_detailError]. rewrite Hne, Hfd. cbn [orb].
  split_and!; try done. unfold verified. cbn [o_status]. by rewrite Hnr, andb_false_r.
Qed.

(** the ownership of a domain is only known while its details stay open: in details that
    are opened afresh the ownership is marked as missing, for a domain that receives mail
    as for any other, while the other checks are marked as the server keeps them. *)
Theorem reopened_ownership_is_missing sv o p :
  kept_name (o_domain o) ->
  let d := shown sv o in let p' := openDetails d JNull p in
  map ck_ok (domainChecks d (verifyResult p')) = [false; o_mx o; o_spf o; o_dkim o; o_dmarc o] /\
  map r_ok (buildCustomDomainDNSRecords d (verifyResult p')) = [false; o_mx o; o_spf o; o_dkim o; o_dmarc o].
Proof.
  intros Hk d p'. assert (verifyResult p' = JNull) as ->.
  { unfold p', openDetails. unfold d. rewrite shown_name by done. destruct Hk as ((_ & _ & _ & Hn%String.eqb_neq)%plain_name_facts & _). by rewrite Hn. }
  split; [reflexivity|]. unfold buildCustomDomainDNSRecords. unfold d. rewrite shown_name by done. destruct Hk as ((_ & _ & _ & Hn%String.eqb_neq)%plain_name_facts & _). rewrite Hn.
  change (map r_ok _) with [false; o_mx o || false; o_spf o || false; o_dkim o || false; o_dmarc o || false]. by rewrite !orb_false_r.
Qed.
End Follows.

(** ** Applied *)

Section Applied.
#[local] Instance sample_ids : Uuid := {| uuid_parse s := if s =s? "" then None else Some s |}.

Definition sample_check (name : string) (ok : bool) : dns_check := DnsCheck name ok "" [] "" (if ok then "" else "record not found").
Definition sample_answers (dkim_ok : bool) : dns_answers :=
  DnsAnswers (fun _ _ => sample_check "ownership" true) (sample_check "mx" true) (sample_check "spf" true) (sample_check "dkim" dkim_ok) (sample_check "dmarc" true).
Definition sample_owned (status : string) : owned := Owned "mail.example" status true true true true "_elvish-verify.mail.example" "elvish-domain-verify=t0" "".
Definition sample_server (status : string) (dkim_ok : bool) (l : list fate) : server :=
  Server [sample_owned status] ["other.example"] [] true [] ["t1"; "t2"] "mx.example" (fun _ => DkimStatus "s1" "v=DKIM1; p=AA" "") (fun _ => true)
    (fun _ => sample_answers dkim_ok) l.
Definition sample_page (status : string) : page :=
  Page [shown (sample_server status true []) (sample_owned status)] [] false "" None false true "New.Example." "" false "mail.example" "" false JNull "" false None false.

Lemma sample_sync status dkim_ok l : in_sync (sample_page status) (sample_server status dkim_ok l) /\ proper (sample_server status dkim_ok l).
Proof. split; [done|]. constructor; [|constructor]. split_and!; [vm_compute; reflexivity.. | cbn; lia]. Qed.

Lemma page_follows_server_witness : exists sv' p',
  run (respond "https://mail.test") (sample_server "pending" true [Answered]) (perform "https://mail.test" Add (sample_page "pending") (sample_page "pending")) = (sv', Ok (p', Ok tt)) /\
  in_sync p' sv' /\ proper sv'.
Proof.
  destruct (sample_sync "pending" true [Answered]) as [Hs Hp].
  apply (page_follows_server "https://mail.test" Add _ _ Answered Hs Hp); [vm_compute; reflexivity | reflexivity | discriminate].
Defined.

Lemma verification_is_shown_witness : exists own sv' p' o',
  run (respond "https://mail.test") (sample_server "active" false []) (perform "https://mail.test" Verify (sample_page "active") (sample_page "active")) = (sv', Ok (p', Ok tt)) /\
  map ck_ok (domainChecks (shown sv' o') (verifyResult p')) = check_flags own (sample_answers false).
Proof.
  destruct (sample_sync "active" false []) as [Hs Hp].
  destruct (verification_is_shown "https://mail.test" _ _ (shown (sample_server "active" true []) (sample_owned "active")) Hs Hp) as (own & sv' & p' & o' & H & _ & _ & _ & Hc & _);
    [vm_compute; reflexivity | reflexivity | reflexivity |].
  exists own, sv', p', o'. split; [exact H | exact Hc].
Defined.

Lemma unloaded_list_says_ready_witness : exists sv' p' o',
  run (respond "https://mail.test") (sample_server "active" false [Answered; Lost]) (perform "https://mail.test" Verify (sample_page "active") (sample_page "active")) = (sv', Ok (p', Ok tt)) /\
  o_status o' = "pending" /\ toast p' = Some ("mail.example is ready to receive mail.", ToastOk).
Proof.
  destruct (sample_sync "active" false [Answered; Lost]) as [Hs Hp].
  destruct (unloaded_list_says_ready "https://mail.test" _ _ (shown (sample_server "active" true []) (sample_owned "active")) Lost Hs Hp)
    as (own & sv' & p' & o' & H & _ & Ho & _ & _ & Ht); [vm_compute; reflexivity | vm_compute; reflexivity | reflexivity | discriminate | reflexivity | reflexivity |].
  exists sv', p', o'. split_and!; [exact H | exact Ho | exact Ht].
Defined.

Lemma reopened_ownership_is_missing_witness :
  let d := shown (sample_server "active" true []) (sample_owned "active") in
  map ck_ok (domainChecks d (verifyResult (openDetails d JNull mounted))) = [false; true; true; true; true].
Proof.
  refine (proj1 (reopened_ownership_is_missing (sample_server "active" true []) (sample_owned "active") mounted _)).
  split_and!; [vm_compute; reflexivity.. | cbn; lia].
Defined.
End Applied.
