(* ===== verification/SiteServer.v ===== *)
(** * The site the console edits ([api_admin_site_home.go], [admin_home_merge.go], [adminbootstrap])

    The definition the console is proved against: the JSON of the home page, the merge of what
    the panel sends into it and the payload the panel starts from. The checks of the merged
    JSON ([config.ParseHomeJSON], [ValidateSupport]) are a field of the server, as are the
    posts and metrics. Objects keep the order of their keys; Go sorts them. *)
From Stdlib Require Import ZArith Lia Ascii.
From stdpp Require Import strings list.
From S2P Require Import Prelude JsString JsValue Text Json Split FilterEngine Http Handlers Manifest MailServer Serving.
Local Open Scope nat_scope.

Abbreviation members := (list (string * jsval)).
Definition has_key (k : string) (fs : members) : bool := str_mem k (map fst fs).

Record server := Server {
  root : members;                        (** the home JSON *)
  posts : jsval;
  metrics : jsval;
  stored : bool;                         (** there is a database *)
  staff : bool;                          (** the session is an operator's *)
  invalid : members -> option string;    (** why a home JSON is refused *)
  fates : list fate;
}.
Definition with_root (r : members) (sv : server) : server := Server r (posts sv) (metrics sv) (stored sv) (staff sv) (invalid sv) (fates sv).
Definition with_staff (b : bool) (sv : server) : server := Server (root sv) (posts sv) (metrics sv) (stored sv) b (invalid sv) (fates sv).
Definition with_rest (l : list fate) (sv : server) : server := Server (root sv) (posts sv) (metrics sv) (stored sv) (staff sv) (invalid sv) l.

Definition adminHomeSiteRootKeys : list string :=
  ["title"; "description"; "version"; "build_label"; "license_line"; "hash_short"; "build_date"; "base_url"; "blog_signing"].
Definition adminHomeSectionKeys : list string :=
  ["tweak_defaults"; "nav"; "footer"; "hero"; "terminal"; "tools"; "log_page"; "ticker_home"; "support"].

(** The keys that [src] has are copied. *)
Definition copy_key (src r : members) (k : string) : members := if has_key k src then put_field k (field k src) r else r.
Definition copy_keys (keys : list string) (src r : members) : members := foldl (copy_key src) r keys.
Definition mergeAdminHomePatch (base admin : members) : members :=
  let r := match field "site" admin with JObj site => copy_keys adminHomeSiteRootKeys site base | _ => base end in
  copy_keys adminHomeSectionKeys admin r.

Definition site_bundle (r : members) : members := omap (fun k => if has_key k r then Some (k, field k r) else None) adminHomeSiteRootKeys.
Definition nil_or (r : members) (k : string) : jsval := if has_key k r then field k r else JNull.
Definition BuildJSONFromHomeBytes (sv : server) : members :=
  [("site", JObj (site_bundle (root sv))); ("tweak_defaults", nil_or (root sv) "tweak_defaults"); ("nav", nil_or (root sv) "nav");
   ("footer", nil_or (root sv) "footer"); ("hero", nil_or (root sv) "hero"); ("terminal", nil_or (root sv) "terminal"); ("tools", nil_or (root sv) "tools");
   ("log_page", nil_or (root sv) "log_page"); ("ticker_home", nil_or (root sv) "ticker_home"); ("support", nil_or (root sv) "support");
   ("posts", posts sv); ("metrics", metrics sv)].

Definition apiAdminSiteHomePut (body : option jsval) (sv : server) : server * response :=
  if negb (stored sv) then (sv, refusal 503 "database required to persist site home (site_config.home_json)")
  else
    match body with
    | Some (JObj admin) =>
        let merged := mergeAdminHomePatch (root sv) admin in
        match invalid sv merged with
        | Some m => (sv, refusal 400 m)
        | None => (with_root merged sv, answer 200 (JObj [("ok", JBool true)]))
        end
    | Some JNull => match invalid sv (root sv) with Some m => (sv, refusal 400 m) | None => (sv, answer 200 (JObj [("ok", JBool true)])) end
    | _ => (sv, refusal 400 "invalid json")
    end.
Definition apiBootstrap (sv : server) : server * response :=
  (sv, answer 200 (JObj (BuildJSONFromHomeBytes sv ++ if stored sv then [("persist_home", JBool true)] else []))).

(** Both requests ask for the session of an operator. *)
Definition operator (h : server -> server * response) (sv : server) : server * response :=
  if staff sv then h sv else (sv, refusal 401 "unauthorized").

Section Serve.
Variable origin : string.

Definition serve (sv : server) (rq : request) : server * response :=
  match address origin rq, rq_method rq with
  | ([root; "api"; "console"; "site"; "home"], _), PUT => operator (apiAdminSiteHomePut (rq_body rq ≫= parse)) sv
  | ([root; "api"; "bootstrap.json"], _), GET => operator apiBootstrap sv
  | _, _ => (sv, not_found)
  end.
Definition internal_error : response := refusal 500 "internal error".
Definition respond : server -> request -> server * option response := Serving.respond fates with_rest serve internal_error.
End Serve.

(** ** What a merge leaves *)

Lemma has_key_spec k fs : has_key k fs = true <-> k ∈ map fst fs.
Proof. apply str_mem_spec. Qed.
Lemma str_mem_cons k k' l : str_mem k (k' :: l) = (k' =s? k) || str_mem k l.
Proof. reflexivity. Qed.
Lemma has_key_cons k k' v fs : has_key k ((k', v) :: fs) = (k' =s? k) || has_key k fs.
Proof. reflexivity. Qed.

Lemma has_put k k' v fs : has_key k (put_field k' v fs) = (k' =s? k) || has_key k fs.
Proof.
  induction fs as [|[k0 v0] fs IH]; cbn [put_field]; [done|]. destruct (String.eqb_spec k0 k') as [->|H0]; rewrite !has_key_cons; [by destruct (k' =s? k)|].
  rewrite IH. by destruct (k0 =s? k), (k' =s? k).
Qed.

Lemma copy_keys_field keys src r k : NoDup keys -> field k (copy_keys keys src r) = if str_mem k keys && has_key k src then field k src else field k r.
Proof.
  unfold copy_keys. intros Hd. revert r. induction Hd as [|k' keys Hk Hd IH]; intros r; [done|]. cbn [foldl]. rewrite IH, str_mem_cons. unfold copy_key.
  destruct (String.eqb_spec k' k) as [->|Hn]; cbn [orb].
  - rewrite (proj2 (str_mem_false _ _) Hk). cbn [andb]. destruct (has_key k src); [by rewrite field_put_eq | done].
  - destruct (str_mem k keys && has_key k src); [done|]. destruct (has_key k' src); [by rewrite field_put_ne | done].
Qed.
Lemma copy_keys_has keys src r k : has_key k (copy_keys keys src r) = (str_mem k keys && has_key k src) || has_key k r.
Proof.
  unfold copy_keys. revert r. induction keys as [|k' keys IH]; intros r; [done|]. cbn [foldl]. rewrite IH, str_mem_cons. unfold copy_key.
  destruct (String.eqb_spec k' k) as [->|Hn]; cbn [orb andb].
  - destruct (has_key k src) eqn:E; [rewrite has_put, String.eqb_refl; cbn [orb]; by rewrite !orb_true_r | by rewrite !andb_false_r].
  - destruct (has_key k' src); [by rewrite has_put, (proj2 (String.eqb_neq _ _) Hn) | done].
Qed.

(** A key of the home JSON after what a panel sent. *)
Lemma merged_section k base admin : k ∈ adminHomeSectionKeys -> has_key k admin = true -> field k (mergeAdminHomePatch base admin) = field k admin.
Proof.
  intros Hk Ha. unfold mergeAdminHomePatch. rewrite copy_keys_field by (apply (bool_decide_unpack _); vm_compute; exact I). rewrite (proj2 (str_mem_spec _ _) Hk), Ha. done.
Qed.
Lemma merged_site k base admin site : k ∈ adminHomeSiteRootKeys -> field "site" admin = JObj site -> has_key k site = true ->
  field k (mergeAdminHomePatch base admin) = field k site.
Proof.
  intros Hk Hs Ha. unfold mergeAdminHomePatch. rewrite Hs, copy_keys_field by (apply (bool_decide_unpack _); vm_compute; exact I).
  assert (str_mem k adminHomeSectionKeys = false) as ->.
  { apply str_mem_false. assert (Forall (fun k => k ∉ adminHomeSectionKeys) adminHomeSiteRootKeys) as H by (apply (bool_decide_unpack _); vm_compute; exact I).
    exact (proj1 (Forall_forall _ _) H k Hk). }
  cbn [andb]. rewrite copy_keys_field by (apply (bool_decide_unpack _); vm_compute; exact I). by rewrite (proj2 (str_mem_spec _ _) Hk), Ha.
Qed.
Lemma merged_has k base admin : has_key k base = true -> has_key k (mergeAdminHomePatch base admin) = true.
Proof. intros Hk. unfold mergeAdminHomePatch. rewrite copy_keys_has. destruct (field "site" admin); rewrite ?copy_keys_has, Hk; by rewrite !orb_true_r. Qed.
