(* ===== verification/AdminPanel.v ===== *)
(** * The console ([static/console/admin-state.jsx], [console/app-admin.jsx])

    The state of the panel: how a saved or a sent state is merged with the state the page is
    built with, what is edited in it, and how it is saved, against the server of [SiteServer].
    The state the page is built with ([ADMIN_STATE_INITIAL]) is a variable. A throw inside the
    update of the state ends in the error boundary ([crashed]). The files under [static/admin]
    hold the same code for the older address. *)
From Stdlib Require Import ZArith Lia Ascii.
From stdpp Require Import strings list.
From S2P Require Import Prelude JsString JsValue Base64 Text Json Split FilterEngine Http Handlers Manifest MailServer Serving SiteServer.
Local Open Scope nat_scope.

(** ** Merging *)

Definition object_members (v : jsval) : members := match v with JObj fs => fs | _ => [] end.
(** The keys of [src] that are not there yet are added. *)
Definition extras (merged src : members) : members := List.filter (fun p => negb (has_key p.1 merged)) src.
Fixpoint mergeAdminStateWithDefaults (saved defaults : jsval) {struct defaults} : jsval :=
  match defaults with
  | JArr _ => match saved with JArr _ => saved | _ => defaults end
  | JObj ds =>
      let src := object_members saved in
      let merged := map (fun p => (p.1, mergeAdminStateWithDefaults (field p.1 src) p.2)) ds in
      JObj (merged ++ extras merged src)
  | _ => match saved with JUndef => defaults | _ => saved end
  end.
Local Abbreviation merge := mergeAdminStateWithDefaults.

Definition health_monitor (href : jsval) : members :=
  [("id", JStr "primary"); ("enabled", JBool true); ("name", JStr "HTTP"); ("type", JStr "http"); ("url", href); ("method", JStr "GET"); ("expect_status", JArr [])].
(** The monitor of a tool, from what older versions called it too. *)
Definition monitor_of (t : jsval) : jsval :=
  if truthy (prop t "monitor") && is_object (prop t "monitor") then JObj (own_members (prop t "monitor"))
  else
    match prop t "monitors" with
    | JArr (x :: _) => JObj (own_members x)
    | _ => if truthy (prop t "health_href") then JObj (health_monitor (prop t "health_href")) else JNull
    end.
Definition legacy_key (k : string) : bool := (k =s? "monitors") || (k =s? "health_href").
Definition heal_tool (t : jsval) : res jsval :=
  if is_nullish t then Throw "TypeError"
  else Ok (JObj (put_field "monitor" (monitor_of t) (List.filter (fun p => negb (legacy_key p.1)) (own_members t)))).

Section Seed.
Variable seed : jsval.                  (** [window.ADMIN_STATE_INITIAL] *)

Definition healAdminStateShape (state : jsval) : res members :=
  let s := object_members (merge state seed) in
  match field "tools" s with
  | JArr l => tools <~ res_mapM heal_tool l ;; Ok (put_field "tools" (JArr tools) s)
  | _ => Ok s
  end.

Definition BOOTSTRAP_HOME_KEYS : list string :=
  ["site"; "tweak_defaults"; "nav"; "footer"; "hero"; "terminal"; "tools"; "log_page"; "ticker_home"; "metrics"; "support"].
Definition take_key (payload : jsval) (next : members) (k : string) : members :=
  if is_nullish (prop payload k) then next else put_field k (prop payload k) next.
Definition mergeServerBootstrap (prev : members) (payload : jsval) : res members :=
  if negb (truthy payload) || negb (is_object payload) then Ok prev
  else healAdminStateShape (JObj (foldl (take_key payload) prev (BOOTSTRAP_HOME_KEYS ++ ["posts"]))).

Definition HOME_KEYS : list string := ["site"; "tweak_defaults"; "terminal"; "tools"; "log_page"; "ticker_home"; "support"].
Definition is_undef (v : jsval) : bool := match v with JUndef => true | _ => false end.
Definition buildHomeAdminPayload (state : members) : members :=
  omap (fun k => if is_undef (field k state) then None else Some (k, field k state)) HOME_KEYS.

(** What is reviewed before saving. *)
Definition middot : string := String (ascii_of_N 183) "".
Record diff_row := DiffRow { df_scope : string; df_path : string }.
Definition json_or_none (v : jsval) : option string := match v with JUndef => None | _ => Some (stringify v) end.
Definition buildAdminDiff (savedJson : string) (currentState : members) : list diff_row :=
  match parse savedJson with
  | None => [DiffRow "state" ("saved snapshot unreadable " +:+ middot +:+ " full save")]
  | Some prev =>
      let differs := if is_nullish prev then true else negb (bool_decide (json_or_none (prop prev "site") = json_or_none (field "site" currentState))) in
      if differs then [DiffRow "site" ("admin bundle " +:+ middot +:+ " differs from last saved")] else [DiffRow "state" ("working copy " +:+ middot +:+ " unsaved (snapshot mismatch)")]
  end.

(** ** The panel *)

Record panel := Panel {
  p_state : members;
  savedSnapshot : string;
  persistHome : bool;
  dialog : option string;
  notify : option (string * string);
  pub_busy : bool;                       (** the dialog that saves *)
  pub_err : string;
  crashed : bool;
}.
Definition snapshot (s : members) : string := stringify (JObj s).
Definition dirty (p : panel) : bool := negb (snapshot (p_state p) =s? savedSnapshot p).

Definition set_state (s : members) (p : panel) : panel := Panel s (savedSnapshot p) (persistHome p) (dialog p) (notify p) (pub_busy p) (pub_err p) (crashed p).
Definition set_saved (t : string) (p : panel) : panel := Panel (p_state p) t (persistHome p) (dialog p) (notify p) (pub_busy p) (pub_err p) (crashed p).
Definition set_persist (b : bool) (p : panel) : panel := Panel (p_state p) (savedSnapshot p) b (dialog p) (notify p) (pub_busy p) (pub_err p) (crashed p).
Definition set_dialog (d : option string) (p : panel) : panel := Panel (p_state p) (savedSnapshot p) (persistHome p) d (notify p) (pub_busy p) (pub_err p) (crashed p).
Definition set_notify (title body : string) (p : panel) : panel :=
  Panel (p_state p) (savedSnapshot p) (persistHome p) (dialog p) (Some (title, body)) (pub_busy p) (pub_err p) (crashed p).
Definition set_publish (busy : bool) (err : string) (p : panel) : panel :=
  Panel (p_state p) (savedSnapshot p) (persistHome p) (dialog p) (notify p) busy err (crashed p).
Definition crash (p : panel) : panel := Panel (p_state p) (savedSnapshot p) (persistHome p) (dialog p) (notify p) (pub_busy p) (pub_err p) true.

(** The page, once its script has run. *)
Definition mounted : res panel := s <~ healAdminStateShape seed ;; Ok (Panel s (snapshot s) false None None false "" false).

(** The payload has come: the state is merged and taken as saved. *)
Definition bootstrapped (payload : jsval) (p : panel) : panel :=
  let p := set_persist (truthy (prop payload "persist_home")) p in
  match mergeServerBootstrap (p_state p) payload with
  | Ok next => set_saved (snapshot next) (set_state next p)
  | Throw _ => crash p
  end.

(** The fields of the section that is edited. *)
Definition setTd (k : string) (v : jsval) (s : members) : members :=
  put_field "tweak_defaults" (JObj (put_field k v (own_members (js_or (field "tweak_defaults" s) (JObj []))))) s.
Definition setSupport (k : string) (v : jsval) (s : members) : members :=
  let support := js_or (field "support" s) (JObj []) in
  let email := if k =s? "default_email" then v else js_or (prop support "default_email") (JStr "") in
  let contacts := if k =s? "contacts" then v else js_or (prop support "contacts") (JArr []) in
  put_field "support" (JObj (put_field "contacts" contacts (put_field "default_email" email (own_members support)))) s.
Inductive edit := EditTweak (k : string) (v : jsval) | EditEmail (v : string) | EditContacts (l : list jsval).
Definition edited (e : edit) (p : panel) : panel :=
  set_state (match e with
             | EditTweak k v => setTd k v (p_state p)
             | EditEmail v => setSupport "default_email" (JStr v) (p_state p)
             | EditContacts l => setSupport "contacts" (JArr l) (p_state p)
             end) p.

(** The list of contacts: [Repeater]. *)
Definition move (i j : nat) (l : list jsval) : list jsval :=
  match l !! i, l !! j with Some a, Some b => <[j := a]> (<[i := b]> l) | _, _ => l end.
Definition remove (i : nat) (l : list jsval) : list jsval := take i l ++ drop (S i) l.
Definition update (i : nat) (next : jsval) (l : list jsval) : list jsval := <[i := next]> l.

Definition requestSave (p : panel) : panel := if dirty p then set_dialog (Some "publish") p else set_notify "In sync" "No unsaved changes." p.
Definition markAdminSynced (s0 : panel) (note : string) (p : panel) : panel :=
  set_notify "Saved" (if trim note =s? "" then "Site home JSON updated in MongoDB." else stake 240 (trim note)) (set_saved (snapshot (p_state s0)) p).

Section Requests.
Variable origin : string.
Local Abbreviation M := (Handlers.M panel).

Definition get (path : string) : prog response := Http.send (Request GET (resolve origin path "") "same-origin" None None).
(** The effect that loads the state: every failure leaves the page as it is. *)
Definition bootstrap : M unit :=
  hcatch
    (r <== await (r <- get "/api/bootstrap.json" ;; if rp_ok r then Ret r else get "/console/bootstrap.json") ;;;
     if negb (rp_ok r) then hret tt
     else
       payload <== await (json r) ;;;
       if is_nullish payload then hthrow "TypeError" else modify (bootstrapped payload))
    (fun _ => hret tt).

Definition onSaveMongo (s0 : panel) : prog unit :=
  r <- Http.send (Request PUT (resolve origin "/api/console/site/home" "") "include" (Some "application/json") (Some (snapshot (buildHomeAdminPayload (p_state s0))))) ;;
  let j := default (JObj []) (rp_json r) in
  if rp_ok r then Ret tt
  else e <- lift (getp j "error") ;; Raise (js_String (js_or e (JStr ("HTTP " +:+ Z_to_string (rp_status r))))).
(** The button that saves; [s0]: the panel when it was drawn, [msg]: the note that is entered. *)
Definition save (msg : string) (s0 : panel) : M unit :=
  if negb (persistHome s0) || pub_busy s0 || negb (dirty s0) then hret tt
  else
    _ <== modify (set_publish true "") ;;;
    hfinally
      (hcatch
         (_ <== await (onSaveMongo s0) ;;;
          _ <== modify (markAdminSynced s0 (str_or (trim msg) "site update")) ;;;
          modify (set_dialog None))
         (fun m => modify (set_publish true m)))
      (fun p => set_publish false (pub_err p) p).
End Requests.
End Seed.

(** ** What merging does *)

(** A state has the shape of its defaults: each key, objects and lists where they have them. *)
Fixpoint conforms (d v : jsval) {struct d} : bool :=
  match d with
  | JArr _ => is_array v
  | JObj ds => match v with JObj fs => forallb (fun p => conforms p.2 (field p.1 fs)) ds | _ => false end
  | _ => negb (is_undef v) || is_undef d
  end.
(** What is there has the shape of the defaults. *)
Fixpoint fits (d v : jsval) {struct d} : bool :=
  match d with
  | JArr _ => is_array v || is_undef v
  | JObj ds => match v with JObj fs => forallb (fun p => fits p.2 (field p.1 fs)) ds | _ => is_undef v end
  | _ => true
  end.
Definition at_path (ks : list string) (v : jsval) : jsval := foldl prop v ks.
Definition leaf (v : jsval) : bool := match v with JObj _ | JUndef => false | _ => true end.

Lemma field_missing k fs : has_key k fs = false -> field k fs = JUndef.
Proof. induction fs as [|[k' v] fs IH]; [done|]. rewrite has_key_cons. cbn [field]. by destruct (k' =s? k). Qed.
Lemma field_map f ds k : field k (map (fun p : string * jsval => (p.1, f p.1 p.2)) ds) = if has_key k ds then f k (field k ds) else JUndef.
Proof. induction ds as [|[k' v] ds IH]; [done|]. rewrite has_key_cons. cbn [map field fst snd]. destruct (String.eqb_spec k' k) as [->|]; [done | exact IH]. Qed.
Lemma has_key_map f ds k : has_key k (map (fun p : string * jsval => (p.1, f p.1 p.2)) ds) = has_key k ds.
Proof. unfold has_key. by rewrite map_map. Qed.
Lemma field_append k a b : field k (a ++ b) = if has_key k a then field k a else field k b.
Proof. induction a as [|[k' v] a IH]; [done|]. rewrite has_key_cons. cbn [app field]. by destruct (k' =s? k). Qed.
Lemma has_key_append k a b : has_key k (a ++ b) = has_key k a || has_key k b.
Proof. induction a as [|[k' v] a IH]; [done|]. rewrite has_key_cons. cbn [app]. by rewrite has_key_cons, IH, orb_assoc. Qed.
Lemma field_extras k m src : field k (extras m src) = if has_key k m then JUndef else field k src.
Proof.
  unfold extras. induction src as [|[k' v] src IH]; [by destruct (has_key k m)|]. cbn [List.filter fst]. destruct (has_key k' m) eqn:E; cbn [negb field]; rewrite IH.
  - destruct (String.eqb_spec k' k) as [->|]; [by rewrite E | done].
  - destruct (String.eqb_spec k' k) as [->|]; [by rewrite E | done].
Qed.
Lemma field_in k v fs : NoDup (map fst fs) -> (k, v) ∈ fs -> field k fs = v.
Proof.
  induction fs as [|[k' v'] fs IH]; cbn [map fst]; [by intros _ ?%not_elem_of_nil|]. intros [Hn Hd]%NoDup_cons [[= -> ->]|Hin]%elem_of_cons; cbn [field].
  - by rewrite String.eqb_refl.
  - destruct (String.eqb_spec k' k) as [->|]; [|by apply IH]. destruct Hn. apply list_elem_of_fmap. by exists (k, v).
Qed.
Lemma members_eq a b : NoDup (map fst a) -> map fst a = map fst b -> (forall k, field k a = field k b) -> a = b.
Proof.
  revert b. induction a as [|[k v] a IH]; intros [|[k' v'] b]; try done. cbn [map fst]. intros [Hn Hd]%NoDup_cons [= <- Hk] Hf.
  pose proof (Hf k) as H0. cbn [field] in H0. rewrite String.eqb_refl in H0. subst v'. f_equal. apply IH; [done..|]. intros k1.
  destruct (String.eqb_spec k k1) as [->|Hne].
  - rewrite !field_missing; [done | | ]; apply not_true_iff_false; rewrite has_key_spec; [by rewrite <- Hk | done].
  - specialize (Hf k1). cbn [field] in Hf. by rewrite (proj2 (String.eqb_neq _ _) Hne) in Hf.
Qed.

Lemma merge_object s ds : exists m, merge s (JObj ds) = JObj m /\ forall k, field k m = if has_key k ds then merge (field k (object_members s)) (field k ds) else field k (object_members s).
Proof.
  eexists. split; [reflexivity|]. intros k. set (f := fun k d => merge (field k (object_members s)) d).
  change (map _ ds) with (map (fun p : string * jsval => (p.1, f p.1 p.2)) ds). rewrite field_append, field_extras, has_key_map, field_map. by destruct (has_key k ds).
Qed.

Lemma printable_object fs : printable (JObj fs) = true -> NoDup (map fst fs) /\ Forall (fun p => printable p.2 = true) fs.
Proof.
  cbn [printable]. intros [H1%bool_decide_eq_true H2]%andb_true_iff. split; [done|]. apply Forall_forall. intros p Hp. apply list_elem_of_In in Hp.
  exact (proj1 (forallb_forall _ _) H2 p Hp).
Qed.

(** A state merging leaves as it is: the keys of the defaults come first, in their order. *)
Definition normal (d v : jsval) : Prop := merge v d = v.
Definition arranged (ds m : members) : Prop :=
  exists a e, m = a ++ e /\ map fst a = map fst ds /\ (forall k, has_key k ds = true -> normal (field k ds) (field k a)) /\ Forall (fun p => has_key p.1 ds = false) e.

Lemma has_key_keys k a b : map fst a = map fst b -> has_key k a = has_key k b.
Proof. unfold has_key. by intros ->. Qed.
Lemma merged_arranged ds s m : NoDup (map fst ds) -> (forall k d, (k, d) ∈ ds -> normal d (merge (field k (object_members s)) d)) ->
  merge s (JObj ds) = JObj m -> arranged ds m.
Proof.
  intros Hd Hn [= <-]. set (f := fun k d => merge (field k (object_members s)) d). exists (map (fun p : string * jsval => (p.1, f p.1 p.2)) ds), (extras (map (fun p : string * jsval => (p.1, f p.1 p.2)) ds) (object_members s)).
  split; [done|]. split_and!.
  - by rewrite map_map.
  - intros k Hk. rewrite field_map, Hk. apply Hn. apply has_key_spec, list_elem_of_fmap in Hk as ([k' d] & -> & Hin). cbn [fst]. by rewrite (field_in k' d) by done.
  - apply Forall_forall. intros p (_ & Hp)%list_elem_of_In%filter_In. rewrite has_key_map in Hp. by apply negb_true_iff.
Qed.
Lemma arranged_normal ds m : NoDup (map fst ds) -> arranged ds m -> normal (JObj ds) (JObj m).
Proof.
  intros Hd (a & e & -> & Hk & Hn & He). unfold normal. cbn [mergeAdminStateWithDefaults object_members].
  set (f := fun k d => merge (field k (a ++ e)) d). change (map _ ds) with (map (fun p : string * jsval => (p.1, f p.1 p.2)) ds).
  assert (map (fun p : string * jsval => (p.1, f p.1 p.2)) ds = a) as ->.
  { apply members_eq; [by rewrite map_map | by rewrite map_map|]. intros k. rewrite field_map. unfold f. rewrite field_append, (has_key_keys k a ds) by done.
    destruct (has_key k ds) eqn:E; [by apply Hn|]. symmetry. apply field_missing. by rewrite (has_key_keys k a ds). }
  f_equal. f_equal. unfold extras. rewrite List.filter_app, filter_none, filter_all; [done | |].
  - intros p Hp. rewrite (has_key_keys _ a ds) by done. by rewrite (proj1 (Forall_forall _ _) He p Hp).
  - intros p Hp. apply negb_false_iff, has_key_spec, list_elem_of_fmap. by exists p.
Qed.

Lemma merge_normal d s : printable d = true -> normal d (merge s d).
Proof.
  revert s. induction d as [| |b|z| |t|l IH|ds IH] using jsval_nested_ind; intros s Hp; try done; try (by destruct s).
  apply printable_object in Hp as [Hd Hp]. destruct (merge_object s ds) as (m & Hm & _). rewrite Hm. apply arranged_normal; [done|].
  apply (merged_arranged ds s); [done | | exact Hm]. intros k d Hin. exact (proj1 (Forall_forall _ _) IH _ Hin _ (proj1 (Forall_forall _ _) Hp _ Hin)).
Qed.
Lemma merge_self d : printable d = true -> normal d d.
Proof.
  induction d as [| |b|z| |t|l IH|ds IH] using jsval_nested_ind; intros Hp; try done. apply printable_object in Hp as [Hd Hp]. apply arranged_normal; [done|].
  exists ds, []. rewrite app_nil_r. split_and!; [done..| |done]. intros k ([k' d] & -> & Hin)%has_key_spec%list_elem_of_fmap. cbn [fst].
  rewrite (field_in k' d ds) by done. exact (proj1 (Forall_forall _ _) IH _ Hin (proj1 (Forall_forall _ _) Hp _ Hin)).
Qed.
Lemma merge_conforms d s : printable d = true -> conforms d (merge s d) = true.
Proof.
  revert s. induction d as [| |b|z| |t|l IH|ds IH] using jsval_nested_ind; intros s Hp; try done; try (by destruct s).
  apply printable_object in Hp as [Hd Hp]. destruct (merge_object s ds) as (m & Hm & Hf). rewrite Hm. cbn [conforms]. apply forallb_forall. intros [k d] Hin%list_elem_of_In.
  cbn [fst snd]. assert (has_key k ds = true) as Hk by (apply has_key_spec, list_elem_of_fmap; by exists (k, d)). rewrite Hf, Hk, (field_in k d ds) by done.
  exact (proj1 (Forall_forall _ _) IH _ Hin _ (proj1 (Forall_forall _ _) Hp _ Hin)).
Qed.
Lemma at_path_undef ks : at_path ks JUndef = JUndef.
Proof. by induction ks. Qed.
Lemma merge_keeps ks : forall d s, fits d s = true -> leaf (at_path ks s) = true -> at_path ks (merge s d) = at_path ks s.
Proof.
  induction ks as [|k ks IH]; intros d s Hf Hl.
  - cbn [at_path foldl] in *. destruct d; destruct s; done.
  - unfold at_path in *. cbn [foldl] in *. destruct s as [| | | | | | |fs]; try (cbn [prop] in Hl; fold (at_path ks JUndef) in Hl; by rewrite at_path_undef in Hl).
    destruct d as [| | | | | | |ds]; try done. destruct (merge_object (JObj fs) ds) as (m & Hm & Hfm). rewrite Hm. cbn [prop object_members] in *. rewrite Hfm.
    destruct (has_key k ds) eqn:E; [|done]. apply IH; [|exact Hl]. clear -E Hf. cbn [fits] in Hf. induction ds as [|[k' d] ds IHd]; [done|].
    cbn [forallb fst snd field] in *. apply andb_true_iff in Hf as [H1 H2]. rewrite has_key_cons in E. destruct (String.eqb_spec k' k) as [->|]; [done | by apply IHd].
Qed.

(** a state that is loaded is completed and kept: whatever was saved, what the panel works
    with has the shape of its defaults and does not change when it is merged again, and
    what was saved of this shape is still there. *)
Theorem merge_completes d s : printable d = true ->
  conforms d (merge s d) = true /\ merge (merge s d) d = merge s d /\
  (fits d s = true -> forall ks, leaf (at_path ks s) = true -> at_path ks (merge s d) = at_path ks s).
Proof. intros Hp. split_and!; [by apply merge_conforms | by apply merge_normal |]. intros Hf ks Hl. by apply merge_keeps. Qed.

(** A value in the place of a text is kept, whatever it is. *)
Example corrupt_text_is_kept : merge (JObj [("title", JObj [("a", JNum 1)])]) (JObj [("title", JStr "ELVISH")]) = JObj [("title", JObj [("a", JNum 1)])].
Proof. reflexivity. Qed.

(** ** States that stay as they are *)

Lemma own_object fs : own_members (JObj fs) = fs.
Proof. done. Qed.
Lemma put_same k v fs : has_key k fs = true -> field k fs = v -> put_field k v fs = fs.
Proof.
  induction fs as [|[k' v'] fs IH]; [done|]. rewrite has_key_cons. cbn [field put_field]. destruct (String.eqb_spec k' k) as [->|]; [by intros _ -> | cbn [orb]; intros; by rewrite IH].
Qed.
Lemma filter_put p k v fs : p k = true -> List.filter (fun x : string * jsval => p x.1) (put_field k v (List.filter (fun x => p x.1) fs)) = put_field k v (List.filter (fun x => p x.1) fs).
Proof.
  intros Hk. induction fs as [|[k' v'] fs IH]; cbn [List.filter fst put_field]; [by rewrite Hk|]. destruct (p k') eqn:E; [|exact IH]. cbn [put_field].
  destruct (String.eqb_spec k' k) as [->|]; cbn [List.filter fst]; rewrite E; [|by rewrite IH]. f_equal. clear IH. induction fs as [|[k1 v1] fs IH]; [done|]. cbn [List.filter fst].
  destruct (p k1) eqn:E1; [|exact IH]. cbn [List.filter fst]. by rewrite E1, IH.
Qed.
Lemma field_filtered p k fs : p k = false -> field k (List.filter (fun x : string * jsval => p x.1) fs) = JUndef.
Proof.
  intros Hk. induction fs as [|[k' v'] fs IH]; [done|]. cbn [List.filter fst]. destruct (p k') eqn:E; [|exact IH]. cbn [field].
  destruct (String.eqb_spec k' k) as [->|]; [by rewrite E in Hk | exact IH].
Qed.
Lemma heal_tool_idemp t t' : heal_tool t = Ok t' -> heal_tool t' = Ok t'.
Proof.
  unfold heal_tool at 1. destruct (is_nullish t); [done|]. set (rest := List.filter _ _). intros [= <-]. unfold heal_tool. cbn [is_nullish]. rewrite own_object.
  assert (monitor_of (JObj (put_field "monitor" (monitor_of t) rest)) = monitor_of t) as ->.
  { unfold monitor_of at 1. cbn [prop]. rewrite field_put_eq, !field_put_ne by done. unfold rest. rewrite !(field_filtered (fun k => negb (legacy_key k))) by done.
    assert (monitor_of t = JNull \/ exists fs, monitor_of t = JObj fs) as [E|[fs E] ]; [|by rewrite E..].
    unfold monitor_of. destruct (truthy _ && is_object _); [by eauto|]. destruct (prop t "monitors") as [| | | | | |[|x l]|]; try (destruct (truthy _); by eauto). by eauto. }
  do 2 f_equal. unfold rest. rewrite (filter_put (fun k => negb (legacy_key k)) "monitor") by done.
  assert (forall v fs, put_field "monitor" v (put_field "monitor" v fs) = put_field "monitor" v fs) as Hpp; [|apply Hpp].
  intros v fs. apply put_same; [by rewrite has_put | by rewrite field_put_eq].
Qed.
Lemma heal_tools_idemp l l' : res_mapM heal_tool l = Ok l' -> res_mapM heal_tool l' = Ok l'.
Proof.
  revert l'. induction l as [|t l IH]; intros l'; cbn [res_mapM]; [by intros [= <-]|]. destruct (heal_tool t) as [t'|] eqn:E; [|done]. cbn [res_bind].
  destruct (res_mapM heal_tool l) as [l1|]; [|done]. cbn [res_bind]. intros [= <-]. cbn [res_mapM]. apply heal_tool_idemp in E. rewrite E. cbn [res_bind].
  by rewrite (IH l1).
Qed.

Section Settled.
Variable sd : members.
Local Abbreviation seed := (JObj sd).
Hypothesis Hseed : printable seed = true.
Hypothesis Hseed_tools : exists l, field "tools" sd = JArr l /\ res_mapM heal_tool l = Ok l.

(** A state that loading leaves as it is. *)
Definition settled (s : members) : Prop := normal seed (JObj s) /\ exists l, field "tools" s = JArr l /\ res_mapM heal_tool l = Ok l.

Lemma seed_keys : NoDup (map fst sd).
Proof. exact (proj1 (printable_object _ Hseed)). Qed.
Lemma seed_tools : has_key "tools" sd = true.
Proof. destruct (has_key "tools" sd) eqn:E; [done|]. apply field_missing in E. destruct Hseed_tools as (l & Hl & _). by rewrite Hl in E. Qed.
Lemma normal_arranged m : normal seed (JObj m) -> arranged sd m.
Proof. intros Hn. eapply (merged_arranged sd (JObj m)); [apply seed_keys | | exact Hn]. intros k d Hin. apply merge_normal. exact (proj1 (Forall_forall _ _) (proj2 (printable_object _ Hseed)) _ Hin). Qed.
Lemma normal_has k m : normal seed (JObj m) -> has_key k sd = true -> has_key k m = true.
Proof. intros (a & e & -> & Hk & _)%normal_arranged Hh. rewrite has_key_append, (has_key_keys k a sd) by done. by rewrite Hh. Qed.
Lemma normal_field k m : normal seed (JObj m) -> has_key k sd = true -> normal (field k sd) (field k m).
Proof. intros (a & e & -> & Hk & Hn & _)%normal_arranged Hh. rewrite field_append, (has_key_keys k a sd) by done. rewrite Hh. by apply Hn. Qed.
Lemma put_keys k v fs : has_key k fs = true -> map fst (put_field k v fs) = map fst fs.
Proof. induction fs as [|[k' v'] fs IH]; [done|]. rewrite has_key_cons. cbn [put_field map fst]. destruct (String.eqb_spec k' k) as [->|]; [done|]. cbn [orb map fst]. intros. by rewrite IH. Qed.
Lemma put_append k v a e : has_key k a = true -> put_field k v (a ++ e) = put_field k v a ++ e.
Proof. induction a as [|[k' v'] a IH]; [done|]. rewrite has_key_cons. cbn [app put_field]. destruct (String.eqb_spec k' k) as [->|]; [done|]. cbn [orb]. intros. by rewrite IH. Qed.
Lemma arranged_put ds k v m : has_key k ds = true -> normal (field k ds) v -> arranged ds m -> arranged ds (put_field k v m).
Proof.
  intros Hk Hv (a & e & -> & Ha & Hn & He). assert (has_key k a = true) as Hka by (by rewrite (has_key_keys k a ds)).
  exists (put_field k v a), e. rewrite put_append, put_keys by done. split_and!; [done..| |done]. intros k1 H1.
  destruct (String.eqb_spec k1 k) as [->|Hne]; [by rewrite field_put_eq | rewrite field_put_ne by done; by apply Hn].
Qed.
Lemma settled_put k v s : settled s -> k <> "tools" -> has_key k sd = true -> normal (field k sd) v -> settled (put_field k v s).
Proof.
  intros [Hs (l & Hl & Ht)] Hne Hk Hv. split; [|exists l; by rewrite field_put_ne]. apply arranged_normal; [apply seed_keys|]. apply arranged_put; [done..|]. by apply normal_arranged.
Qed.

Lemma settled_heals s : settled s -> healAdminStateShape seed (JObj s) = Ok s.
Proof.
  intros [Hs (l & Hl & Ht)]. unfold healAdminStateShape. rewrite Hs. cbn [object_members]. rewrite Hl, Ht. cbn [res_bind]. f_equal. apply put_same; [|done].
  apply (normal_has "tools" s Hs), seed_tools.
Qed.
Lemma heal_settles st s : healAdminStateShape seed st = Ok s -> settled s.
Proof.
  unfold healAdminStateShape. destruct (merge_object st sd) as (m & Hm & Hf). pose proof (merge_normal seed st Hseed) as Hn. rewrite Hm in *. cbn [object_members].
  assert (exists l, field "tools" m = JArr l) as [l Hl].
  { rewrite Hf, seed_tools. destruct Hseed_tools as (l & -> & _). cbn [mergeAdminStateWithDefaults]. destruct (field "tools" (object_members st)); eauto. }
  rewrite Hl. destruct (res_mapM heal_tool l) as [l'|] eqn:E; [|done]. cbn [res_bind]. intros [= <-]. split.
  - apply arranged_normal; [apply seed_keys|]. apply arranged_put; [apply seed_tools | | by apply normal_arranged]. destruct Hseed_tools as (l0 & -> & _). done.
  - exists l'. split; [apply field_put_eq | by eapply heal_tools_idemp].
Qed.
Lemma bootstrap_settles prev payload next : settled prev -> mergeServerBootstrap seed prev payload = Ok next -> settled next.
Proof. intros Hp. unfold mergeServerBootstrap. destruct (_ || _); [by intros [= <-] | apply heal_settles]. Qed.

(** *** Edits *)

Variable td : members.
Hypothesis Htd : field "tweak_defaults" sd = JObj td.
Hypothesis Hsup : field "support" sd = JObj [("default_email", JStr ""); ("contacts", JArr [])].

Definition simple (v : jsval) : bool := match v with JBool _ | JStr _ | JNum _ => true | _ => false end.
Hypothesis Hsimple : forall k, has_key k td = true -> simple (field k td) = true.
Definition admissible (e : edit) : Prop := match e with EditTweak k v => has_key k td = true /\ simple v = true | _ => True end.

Lemma seed_has k : field k sd <> JUndef -> has_key k sd = true.
Proof. intros Hn. destruct (has_key k sd) eqn:E; [done|]. by apply field_missing in E. Qed.
Lemma printable_field k : has_key k sd = true -> printable (field k sd) = true.
Proof.
  intros ([k' v] & -> & Hin)%has_key_spec%list_elem_of_fmap. cbn [fst]. rewrite (field_in k' v sd) by (done || apply seed_keys).
  exact (proj1 (Forall_forall _ _) (proj2 (printable_object _ Hseed)) _ Hin).
Qed.
Lemma normal_members ds v : printable (JObj ds) = true -> normal (JObj ds) v -> exists fs, v = JObj fs /\ arranged ds fs.
Proof.
  intros Hp Hn. destruct (merge_object v ds) as (m & Hm & _). unfold normal in Hn. rewrite Hn in Hm. subst v. exists m. split; [done|].
  apply printable_object in Hp as [Hd Hp]. eapply (merged_arranged ds (JObj m)); [done | | exact Hn]. intros k d Hin. apply merge_normal. exact (proj1 (Forall_forall _ _) Hp _ Hin).
Qed.
Lemma simple_normal d v : simple d = true -> v <> JUndef -> normal d v.
Proof. by destruct d; destruct v. Qed.

Lemma tweak_settled k v s : settled s -> has_key k td = true -> simple v = true -> settled (setTd k v s).
Proof.
  intros Hs Hk Hv. assert (has_key "tweak_defaults" sd = true) as Hh by (apply seed_has; by rewrite Htd). pose proof (printable_field _ Hh) as Hp. rewrite Htd in Hp.
  pose proof (normal_field _ _ (proj1 Hs) Hh) as Hn. rewrite Htd in Hn. apply (normal_members td) in Hn as (fs & Hfs & Ha); [|done].
  apply settled_put; [done | done | done|]. rewrite Htd, Hfs. cbn [js_or truthy own_members]. apply arranged_normal; [by apply printable_object in Hp as []|].
  apply arranged_put; [done | | done]. apply simple_normal; [by apply Hsimple | by destruct v].
Qed.
Lemma support_settled email contacts s : settled s -> email <> JUndef -> is_array contacts = true ->
  forall fs, field "support" s = JObj fs -> settled (put_field "support" (JObj (put_field "contacts" contacts (put_field "default_email" email fs))) s).
Proof.
  intros Hs He Hc fs Hfs. assert (has_key "support" sd = true) as Hh by (apply seed_has; by rewrite Hsup). pose proof (printable_field _ Hh) as Hp. rewrite Hsup in Hp.
  pose proof (normal_field _ _ (proj1 Hs) Hh) as Hn. rewrite Hsup, Hfs in Hn. apply (normal_members _ (JObj fs)) in Hn as (fs' & [= <-] & Ha); [|done].
  apply settled_put; [done | done | done|]. rewrite Hsup. apply arranged_normal; [by apply printable_object in Hp as []|].
  apply arranged_put; [done | by destruct contacts|]. apply arranged_put; [done | by apply simple_normal | done].
Qed.
Lemma edit_settled e p : settled (p_state p) -> admissible e -> settled (p_state (edited e p)).
Proof.
  intros Hs He. assert (has_key "support" sd = true) as Hh by (apply seed_has; by rewrite Hsup). pose proof (normal_field _ _ (proj1 Hs) Hh) as Hn.
  pose proof (printable_field _ Hh) as Hp. rewrite Hsup in Hn, Hp. apply normal_members in Hn as (fs & Hfs & a & x & -> & Ha & Hx & _); [|done].
  assert (is_array (field "contacts" (a ++ x)) = true) as Hc.
  { specialize (Hx "contacts" eq_refl). rewrite field_append, (has_key_keys _ a _ Ha). cbn. unfold normal in Hx. cbn in Hx. revert Hx. by destruct (field "contacts" a). }
  destruct e as [k v|v|l]; cbn [edited p_state set_state].
  - destruct He. by apply tweak_settled.
  - unfold setSupport. rewrite Hfs. cbn [js_or truthy own_members]. apply support_settled; [done | done | | done]. cbn [prop]. revert Hc. by destruct (field "contacts" (a ++ x)).
  - unfold setSupport. rewrite Hfs. cbn [js_or truthy own_members]. apply support_settled; [done | | done | done].
    change ("contacts" =s? "default_email") with false. cbv iota. cbn [prop]. unfold js_or. by destruct (field "default_email" (a ++ x)) as [| |[]|[]| |[]| |].
Qed.

Lemma take_keys_field payload keys prev k :
  field k (foldl (take_key payload) prev keys) = if str_mem k keys && negb (is_nullish (prop payload k)) then prop payload k else field k prev.
Proof.
  revert prev. induction keys as [|k' keys IH]; intros prev; [done|]. cbn [foldl]. rewrite IH, str_mem_cons. unfold take_key.
  destruct (String.eqb_spec k' k) as [->|Hn]; cbn [orb andb].
  - destruct (is_nullish (prop payload k)) eqn:E; [by rewrite andb_false_r|]. rewrite andb_true_r. cbn [negb]. destruct (str_mem k keys); [done | apply field_put_eq].
  - destruct (str_mem k keys && _); [done|]. destruct (is_nullish (prop payload k')); [done | by rewrite field_put_ne].
Qed.





Lemma seed_settled : settled sd.
Proof. split; [by apply merge_self | exact Hseed_tools]. Qed.


(** *** Payloads *)

(** A list or an object. *)
Definition composite (v : jsval) : bool := match v with JArr _ | JObj _ => true | _ => false end.
Hypothesis Hhome : Forall (fun k => composite (field k sd) = true) HOME_KEYS.
Variable ss : members.
Hypothesis Hsite : field "site" sd = JObj ss.
Hypothesis Hsite_keys : map fst ss ≡ₚ adminHomeSiteRootKeys.

Lemma home_composite k s : settled s -> k ∈ HOME_KEYS -> has_key k sd = true /\ composite (field k s) = true /\ normal (field k sd) (field k s).
Proof.
  intros Hs Hk. pose proof (proj1 (Forall_forall _ _) Hhome k Hk) as Hc. cbn beta in Hc.
  assert (has_key k sd = true) as Hh by (apply seed_has; intros E; by rewrite E in Hc). pose proof (normal_field _ _ (proj1 Hs) Hh) as Hn.
  split_and!; [done | | done]. unfold normal in Hn. rewrite <- Hn. destruct (field k sd) as [| | | | | |l|ds]; try done. cbn. by destruct (field k s).
Qed.

Lemma field_omap f ks k : NoDup ks -> field k (omap (fun k => if is_undef (f k) then None else Some (k, f k)) ks) = if str_mem k ks then f k else JUndef.
Proof.
  induction 1 as [|k' ks Hk Hd IH]; [done|]. rewrite str_mem_cons. cbn [omap list_omap]. destruct (is_undef (f k')) eqn:E.
  - fold (omap (fun k => if is_undef (f k) then None else Some (k, f k)) ks). rewrite IH. destruct (String.eqb_spec k' k) as [->|]; [|done].
    rewrite (proj2 (str_mem_false _ _) Hk). by destruct (f k).
  - cbn [field]. destruct (String.eqb_spec k' k) as [->|]; [done | exact IH].
Qed.
Lemma has_omap f ks k : has_key k (omap (fun k => if is_undef (f k) then None else Some (k, f k)) ks) = str_mem k ks && negb (is_undef (f k)).
Proof.
  induction ks as [|k' ks IH]; [done|]. rewrite str_mem_cons. cbn [omap list_omap]. destruct (is_undef (f k')) eqn:E.
  - fold (omap (fun k => if is_undef (f k) then None else Some (k, f k)) ks). rewrite IH. destruct (String.eqb_spec k' k) as [->|]; [by rewrite E, andb_false_r | done].
  - rewrite has_key_cons. destruct (String.eqb_spec k' k) as [->|]; [by rewrite E | exact IH].
Qed.
Lemma payload_field k s : k ∈ HOME_KEYS -> field k (buildHomeAdminPayload s) = field k s.
Proof. intros Hk%str_mem_spec. unfold buildHomeAdminPayload. rewrite (field_omap (fun k => field k s)) by (apply (bool_decide_unpack _); vm_compute; exact I). by rewrite Hk. Qed.
Lemma payload_has k s : settled s -> k ∈ HOME_KEYS -> has_key k (buildHomeAdminPayload s) = true.
Proof.
  intros Hs Hk. destruct (home_composite k s Hs Hk) as (_ & Hc & _). apply str_mem_spec in Hk. unfold buildHomeAdminPayload.
  rewrite (has_omap (fun k => field k s)), Hk. by destruct (field k s).
Qed.
Lemma payload_printable s : printable (JObj s) = true -> printable (JObj (buildHomeAdminPayload s)) = true.
Proof.
  intros [Hd Hp]%printable_object. cbn [printable]. apply andb_true_iff. split.
  - apply bool_decide_eq_true. unfold buildHomeAdminPayload. assert (NoDup HOME_KEYS) as Hk by (apply (bool_decide_unpack _); vm_compute; exact I). revert Hk.
    generalize HOME_KEYS as ks. induction 1 as [|k ks Hn Hk IH]; [constructor|]. cbn [omap list_omap]. destruct (is_undef (field k s)); [exact IH|]. cbn [map fst]. constructor; [|exact IH].
    intros ([k' v] & -> & Hin)%list_elem_of_fmap. apply Hn. cbn [fst]. apply list_elem_of_omap in Hin as (k1 & Hk1 & E). destruct (is_undef (field k1 s)); [done|]. by injection E as -> _.
  - apply forallb_forall. intros [k v] Hin%list_elem_of_In. unfold buildHomeAdminPayload in Hin. apply list_elem_of_omap in Hin as (k1 & _ & E).
    destruct (is_undef (field k1 s)) eqn:Eu; [done|]. injection E as -> <-. cbn [snd]. destruct (has_key k s) eqn:Hh.
    + apply has_key_spec, list_elem_of_fmap in Hh as ([k' v] & -> & Hin). cbn [fst]. rewrite (field_in k' v s) by done. exact (proj1 (Forall_forall _ _) Hp _ Hin).
    + by rewrite field_missing in Eu.
Qed.

(** *** Saving *)

Variable origin : string.
Local Abbreviation respond := (SiteServer.respond origin).

Definition sent (s : members) : members := buildHomeAdminPayload s.
(** The server can keep what is sent. *)
Definition accepts (sv : server) (s : members) : Prop :=
  stored sv = true /\ staff sv = true /\ fates sv = [] /\ invalid sv (mergeAdminHomePatch (root sv) (sent s)) = None.
Definition saved_panel (msg : string) (p : panel) : panel :=
  set_publish false "" (set_dialog None (markAdminSynced p (str_or (trim msg) "site update") (set_publish true "" p))).

Lemma run_put sv p : printable (JObj (p_state p)) = true -> accepts sv (p_state p) ->
  run respond sv (onSaveMongo origin p) = (with_root (mergeAdminHomePatch (root sv) (sent (p_state p))) sv, Ok tt).
Proof.
  intros Hp (Hst & Hsf & Hf & Hv). unfold onSaveMongo, Http.send. cbn [bind run]. unfold SiteServer.respond at 1, Serving.respond. rewrite Hf. unfold serve.
  rewrite (fixed_address origin PUT _ ["api"; "console"; "site"; "home"]) by plain_segments. cbn [rq_method rq_body]. unfold operator. rewrite Hsf.
  change (Some (snapshot (buildHomeAdminPayload (p_state p))) ≫= parse) with (parse (stringify (JObj (buildHomeAdminPayload (p_state p))))).
  rewrite parse_stringify by (by apply payload_printable). unfold apiAdminSiteHomePut. rewrite Hst. cbn [negb]. unfold sent in Hv. by rewrite Hv.
Qed.
Lemma run_save sv p msg : printable (JObj (p_state p)) = true -> accepts sv (p_state p) -> persistHome p = true -> pub_busy p = false -> dirty p = true ->
  run respond sv (save origin msg p p) = (with_root (mergeAdminHomePatch (root sv) (sent (p_state p))) sv, Ok (saved_panel msg p, Ok tt)).
Proof.
  intros Hp Ha H1 H2 H3. unfold save. rewrite H1, H2, H3. cbn [negb orb]. erewrite run_hbind by reflexivity. rewrite run_hfinally, run_hcatch.
  erewrite run_hbind by (apply run_await, run_put; done). erewrite run_hbind by reflexivity. reflexivity.
Qed.
Lemma run_bootstrap sv p : stored sv = true -> staff sv = true -> fates sv = [] ->
  run respond sv (bootstrap seed origin p) = (sv, Ok (bootstrapped seed (JObj (BuildJSONFromHomeBytes sv ++ [("persist_home", JBool true)])) p, Ok tt)).
Proof.
  intros Hst Hsf Hf. unfold bootstrap. rewrite run_hcatch.
  assert (run respond sv (r <- get origin "/api/bootstrap.json" ;; if rp_ok r then Ret r else get origin "/console/bootstrap.json") =
    (sv, Ok (answer 200 (JObj (BuildJSONFromHomeBytes sv ++ [("persist_home", JBool true)]))))) as Hr.
  { unfold get, Http.send. cbn [bind run]. unfold SiteServer.respond at 1, Serving.respond. rewrite Hf. unfold serve.
    rewrite (fixed_address origin GET _ ["api"; "bootstrap.json"]) by plain_segments. cbn [rq_method]. unfold operator, apiBootstrap. by rewrite Hsf, Hst. }
  erewrite run_hbind by (apply run_await, Hr). cbn [rp_ok]. change (negb (rp_ok (answer 200 _))) with false. cbv iota.
  erewrite run_hbind by (apply run_await; reflexivity). reflexivity.
Qed.

(** *** Coming back *)

Lemma bundle_field k r : k ∈ adminHomeSiteRootKeys -> has_key k r = true -> field k (site_bundle r) = field k r.
Proof.
  intros Hk Hr. unfold site_bundle. revert Hk. generalize adminHomeSiteRootKeys as ks. induction ks as [|k' ks IH]; [by intros ?%not_elem_of_nil|].
  cbn [omap list_omap]. intros [<-|Hk]%elem_of_cons; [rewrite Hr; cbn [field]; by rewrite String.eqb_refl|].
  destruct (has_key k' r); [|by apply IH]. cbn [field]. destruct (String.eqb_spec k' k) as [->|]; [done | by apply IH].
Qed.
Lemma bundle_keys p r : p ∈ site_bundle r -> p.1 ∈ adminHomeSiteRootKeys.
Proof. intros (k & Hk & E)%list_elem_of_omap. destruct (has_key k r); [|done]. by injection E as <-. Qed.

(** The site of a state has the keys of the page's. *)
Definition plain_site (s : members) : Prop := exists fs, field "site" s = JObj fs /\ map fst fs = map fst ss.
Lemma site_comes_back s r fs : settled s -> field "site" s = JObj fs -> map fst fs = map fst ss ->
  (forall k, k ∈ adminHomeSiteRootKeys -> has_key k r = true /\ field k r = field k fs) -> merge (JObj (site_bundle r)) (JObj ss) = JObj fs.
Proof.
  intros Hs Hfs Hk Hr. assert (printable (JObj ss) = true) as Hp by (rewrite <- Hsite; apply printable_field, seed_has; by rewrite Hsite).
  pose proof Hp as [Hd _]%printable_object. cbn [mergeAdminStateWithDefaults object_members]. set (f := fun k d => merge (field k (site_bundle r)) d).
  change (map _ ss) with (map (fun p : string * jsval => (p.1, f p.1 p.2)) ss). f_equal. unfold extras. rewrite filter_none, app_nil_r.
  - apply members_eq; [by rewrite map_map | by rewrite map_map|]. intros k. rewrite field_map. destruct (has_key k ss) eqn:E.
    + assert (k ∈ adminHomeSiteRootKeys) as Hin by (rewrite <- Hsite_keys; by apply has_key_spec). destruct (Hr k Hin) as [H1 H2]. unfold f. rewrite bundle_field, H2 by done.
      assert (has_key "site" sd = true) as Hh by (apply seed_has; by rewrite Hsite). pose proof (normal_field _ _ (proj1 Hs) Hh) as Hn. rewrite Hsite, Hfs in Hn.
      apply (normal_members ss) in Hn as (fs' & [= <-] & a & e & -> & Ha & Hx & _); [|done].
      assert (e = []) as -> by (rewrite map_app, Ha in Hk; apply (f_equal length) in Hk; rewrite length_app in Hk; destruct e; [done | cbn in Hk; lia]).
      rewrite app_nil_r. by apply Hx.
    + symmetry. apply field_missing. by rewrite (has_key_keys k fs ss).
  - intros p Hp'%bundle_keys. apply negb_false_iff. rewrite has_key_map. apply has_key_spec. by rewrite Hsite_keys.
Qed.

(** The home JSON after a save, and what a page that is opened then is told of it. *)
Lemma home_keys_known k : k ∈ HOME_KEYS -> k = "site" \/ k ∈ adminHomeSectionKeys.
Proof.
  assert (Forall (fun k => k = "site" \/ k ∈ adminHomeSectionKeys) HOME_KEYS) as H by (apply (bool_decide_unpack _); vm_compute; exact I).
  exact (proj1 (Forall_forall _ _) H k).
Qed.
Lemma saved_section base s k : settled s -> k ∈ HOME_KEYS -> k <> "site" -> let r := mergeAdminHomePatch base (sent s) in has_key k r = true /\ field k r = field k s.
Proof.
  intros Hs Hk Hne r. destruct (home_keys_known k Hk) as [|Hsec]; [done|]. pose proof (payload_has k s Hs Hk) as Hh. split.
  - unfold r, mergeAdminHomePatch. rewrite copy_keys_has. unfold sent. by rewrite Hh, (proj2 (str_mem_spec _ _) Hsec).
  - unfold r. rewrite merged_section by done. by apply payload_field.
Qed.
Lemma saved_site base s fs k : settled s -> field "site" s = JObj fs -> map fst fs = map fst ss -> k ∈ adminHomeSiteRootKeys ->
  let r := mergeAdminHomePatch base (sent s) in has_key k r = true /\ field k r = field k fs.
Proof.
  intros Hs Hfs Hk Hin r. assert (field "site" (sent s) = JObj fs) as Hp by (unfold sent; by rewrite payload_field by (by left)).
  assert (has_key k fs = true) as Hh by (rewrite (has_key_keys k fs ss) by done; apply has_key_spec; by rewrite Hsite_keys). split.
  - unfold r, mergeAdminHomePatch. rewrite Hp, !copy_keys_has, Hh, (proj2 (str_mem_spec _ _) Hin). cbn. by rewrite orb_true_r.
  - by apply (merged_site k base (sent s) fs).
Qed.

Definition told (sv : server) : jsval := JObj (BuildJSONFromHomeBytes sv ++ [("persist_home", JBool true)]).
Lemma told_section sv k : k ∈ HOME_KEYS -> k <> "site" -> has_key k (root sv) = true -> prop (told sv) k = field k (root sv).
Proof.
  intros Hk Hne Hh. assert (prop (told sv) k = nil_or (root sv) k) as ->; [|unfold nil_or; by rewrite Hh].
  unfold HOME_KEYS in Hk. rewrite !elem_of_cons, elem_of_nil in Hk. destruct Hk as [->|[->|[->|[->|[->|[->|[->|[] ] ] ] ] ] ] ]; done.
Qed.

Lemma reloads sv s s0 : settled s -> settled s0 -> plain_site s -> (exists base, root sv = mergeAdminHomePatch base (sent s)) ->
  exists s2, mergeServerBootstrap seed s0 (told sv) = Ok s2 /\ forall k, k ∈ HOME_KEYS -> field k s2 = field k s.
Proof.
  intros Hs Hs0 (fs & Hfs & Hk) [base Hroot].
  unfold mergeServerBootstrap. cbn [truthy is_object told negb orb]. fold (told sv). set (next := foldl _ _ _).
  destruct (merge_object (JObj next) sd) as (m & Hm & Hf).
  assert (forall k, k ∈ HOME_KEYS -> field k m = field k s) as Hfm.
  { intros k Hin. destruct (home_composite k s Hs Hin) as (Hh & Hc & Hn). rewrite Hf, Hh. cbn [object_members]. unfold next. rewrite take_keys_field.
    assert (str_mem k (BOOTSTRAP_HOME_KEYS ++ ["posts"]) = true) as ->.
    { unfold HOME_KEYS in Hin. rewrite !elem_of_cons, elem_of_nil in Hin. destruct Hin as [->|[->|[->|[->|[->|[->|[->|[] ] ] ] ] ] ] ]; done. }
    destruct (String.eqb_spec k "site") as [->|Hne].
    - change (prop (told sv) "site") with (JObj (site_bundle (root sv))). cbn [is_nullish negb andb]. rewrite Hsite, Hfs. apply (site_comes_back s _ fs); [done..|].
      intros k Hk1. rewrite Hroot. by apply saved_site.
    - destruct (saved_section base s k Hs Hin Hne) as [H1 H2]. rewrite told_section by (try done; by rewrite Hroot). rewrite Hroot, H2.
      assert (is_nullish (field k s) = false) as -> by (by destruct (field k s)). exact Hn. }
  unfold healAdminStateShape. rewrite Hm. cbn [object_members]. destruct Hs as [Hs (l & Hl & Ht)]. rewrite (Hfm "tools"), Hl, Ht by (by apply str_mem_spec). cbn [res_bind].
  eexists. split; [reflexivity|]. intros k Hin. destruct (String.eqb_spec k "tools") as [->|Hne]; [by rewrite field_put_eq | rewrite field_put_ne by done; by apply Hfm].
Qed.

Lemma mounted_seed : mounted seed = Ok (Panel sd (snapshot sd) false None None false "" false).
Proof. unfold mounted. rewrite settled_heals by apply seed_settled. reflexivity. Qed.
Lemma dirty_saved s p : p_state p = s -> savedSnapshot p = snapshot s -> dirty p = false.
Proof. intros <- H. unfold dirty. by rewrite H, String.eqb_refl. Qed.
Lemma bootstrapped_ok payload p next : mergeServerBootstrap seed (p_state p) payload = Ok next ->
  p_state (bootstrapped seed payload p) = next /\ dirty (bootstrapped seed payload p) = false /\ crashed (bootstrapped seed payload p) = crashed p.
Proof. intros H. unfold bootstrapped. cbn [p_state set_persist]. rewrite H. split_and!; [done | by apply (dirty_saved next) | done]. Qed.

(** C30: what is saved comes back: when the server accepts what the panel sends, the panel has
    nothing left to save, and a page that is opened then shows every section that can be
    saved as the panel had it. *)
Theorem saved_state_comes_back p sv msg :
  settled (p_state p) -> plain_site (p_state p) -> printable (JObj (p_state p)) = true -> accepts sv (p_state p) ->
  persistHome p = true -> pub_busy p = false -> dirty p = true ->
  exists sv' p' p0 p2, run respond sv (save origin msg p p) = (sv', Ok (p', Ok tt)) /\ dirty p' = false /\ dialog p' = None /\ p_state p' = p_state p /\
    mounted seed = Ok p0 /\ run respond sv' (bootstrap seed origin p0) = (sv', Ok (p2, Ok tt)) /\ crashed p2 = false /\ dirty p2 = false /\
    forall k, k ∈ HOME_KEYS -> field k (p_state p2) = field k (p_state p).
Proof.
  intros Hs Hsite1 Hp Ha H1 H2 H3. pose proof Ha as (Hst & Hsf & Hf & _). set (sv' := with_root (mergeAdminHomePatch (root sv) (sent (p_state p))) sv).
  destruct (reloads sv' (p_state p) sd Hs seed_settled Hsite1) as (s2 & Hm & Hk); [by exists (root sv)|]. set (p0 := Panel sd (snapshot sd) false None None false "" false).
  destruct (bootstrapped_ok (told sv') p0 s2 Hm) as (E1 & E2 & E3). exists sv', (saved_panel msg p), p0, (bootstrapped seed (told sv') p0). split_and!.
  - by apply run_save.
  - by apply (dirty_saved (p_state p)).
  - done.
  - done.
  - apply mounted_seed.
  - by apply run_bootstrap.
  - by rewrite E3.
  - exact E2.
  - intros k Hin. rewrite E1. by apply Hk.
Qed.

Definition edit_key (e : edit) : string := match e with EditTweak _ _ => "tweak_defaults" | _ => "support" end.
Lemma edit_leaves e p k : k <> edit_key e -> field k (p_state (edited e p)) = field k (p_state p).
Proof. intros Hk. by destruct e; apply field_put_ne. Qed.
Lemma told_missing sv k : k ∈ HOME_KEYS -> k <> "site" -> has_key k (root sv) = false -> prop (told sv) k = JNull.
Proof.
  intros Hk Hne Hh. assert (prop (told sv) k = nil_or (root sv) k) as ->; [|unfold nil_or; by rewrite Hh].
  unfold HOME_KEYS in Hk. rewrite !elem_of_cons, elem_of_nil in Hk. destruct Hk as [->|[->|[->|[->|[->|[->|[->|[] ] ] ] ] ] ] ]; done.
Qed.
Lemma missing_stays prev payload next k : settled prev -> mergeServerBootstrap seed prev payload = Ok next -> k ∈ HOME_KEYS -> is_nullish (prop payload k) = true ->
  field k next = field k prev.
Proof.
  intros Hs Hm Hk Hn. unfold mergeServerBootstrap in Hm. destruct (_ || _); [by injection Hm as <-|]. unfold healAdminStateShape in Hm. set (n := foldl _ _ _) in Hm.
  destruct (home_composite k prev Hs Hk) as (Hh & _ & Hnk). destruct (merge_object (JObj n) sd) as (m & Hmo & Hf). rewrite Hmo in Hm. cbn [object_members] in *.
  assert (field k m = field k prev) as Hfm by (rewrite Hf, Hh; unfold n; rewrite take_keys_field, Hn, andb_false_r; exact Hnk).
  destruct (field "tools" m) as [| | | | | |l|] eqn:El; try (by injection Hm as <-). destruct (res_mapM heal_tool l) as [l'|] eqn:E; [|done]. injection Hm as <-.
  destruct (String.eqb_spec k "tools") as [->|Hne]; [|by rewrite field_put_ne]. rewrite field_put_eq. destruct Hs as [_ (l0 & Hl0 & Ht)]. congruence.
Qed.

(** the sections a site does not have are filled with the page's own: when the home JSON
    lacks a section, saving any other edit writes the section the page is built with. *)
Theorem missing_sections_are_written sv s1 e k msg : 
  mergeServerBootstrap seed sd (told sv) = Ok s1 -> k ∈ HOME_KEYS -> k <> "site" -> has_key k (root sv) = false ->
  admissible e -> k <> edit_key e ->
  let p0 := Panel sd (snapshot sd) false None None false "" false in let p := edited e (bootstrapped seed (told sv) p0) in
  printable (JObj (p_state p)) = true -> accepts sv (p_state p) -> dirty p = true ->
  exists sv' p', run respond sv (save origin msg p p) = (sv', Ok (p', Ok tt)) /\ dirty p' = false /\ has_key k (root sv') = true /\ field k (root sv') = field k sd.
Proof.
  intros Hm Hk Hne Hh He Hek p0 p Hp Ha Hd. destruct (bootstrapped_ok (told sv) p0 s1 Hm) as (E1 & _ & _).
  assert (settled (p_state p)) as Hs by (apply edit_settled; [rewrite E1; eapply bootstrap_settles; [apply seed_settled | exact Hm] | exact He]).
  assert (persistHome p = true /\ pub_busy p = false) as [H1 H2].
  { unfold p, p0, bootstrapped. cbn [p_state set_persist]. rewrite Hm. done. }
  eexists _, _. split; [by apply run_save|]. destruct (saved_section (root sv) (p_state p) k Hs Hk Hne) as [Hr1 Hr2].
  split_and!; [by apply (dirty_saved (p_state p)) | exact Hr1 |]. cbn [with_root root]. rewrite Hr2. unfold p. rewrite edit_leaves, E1 by done.
  apply (missing_stays sd (told sv)); [apply seed_settled | done | done |]. by rewrite told_missing.
Qed.

(** a console that was opened before the operator signed in stays without the site: its
    request for the state was refused and is not made again, so what it shows is what the page
    is built with, marked as in step with the server, and no edit of it can be saved. *)
Theorem console_opened_signed_out sv es msg sv' :
  staff sv = false -> fates sv = [] ->
  let p0 := Panel sd (snapshot sd) false None None false "" false in
  mounted seed = Ok p0 /\ run respond sv (bootstrap seed origin p0) = (sv, Ok (p0, Ok tt)) /\ dirty p0 = false /\
  let p := fold_left (fun p e => edited e p) es p0 in run respond sv' (save origin msg p p) = (sv', Ok (p, Ok tt)).
Proof.
  intros Hsf Hf p0. split_and!; [apply mounted_seed | | by apply (dirty_saved sd) |].
  - unfold bootstrap. rewrite run_hcatch.
    assert (run respond sv (r <- get origin "/api/bootstrap.json" ;; if rp_ok r then Ret r else get origin "/console/bootstrap.json") = (sv, Ok not_found)) as Hr.
    { unfold get, Http.send. cbn [bind run]. unfold SiteServer.respond at 1, Serving.respond. rewrite Hf. unfold serve at 1.
      rewrite (fixed_address origin GET _ ["api"; "bootstrap.json"]) by plain_segments. cbn [rq_method]. unfold operator. rewrite Hsf.
      cbn [bind run]. change (rp_ok (refusal 401 "unauthorized")) with false. cbv iota. cbn [run]. unfold SiteServer.respond, Serving.respond. rewrite Hf. unfold serve.
      by rewrite (fixed_address origin GET _ ["console"; "bootstrap.json"]) by plain_segments. }
    erewrite run_hbind by (apply run_await, Hr). reflexivity.
  - intros p. assert (persistHome p = false) as Hp; [|unfold save; by rewrite Hp].
    unfold p. assert (persistHome p0 = false) as H0 by done. revert H0. generalize p0 as q. induction es as [|e es IH]; intros q Hq; [done|]. by apply IH.
Qed.

(** edits made before the state has come are overwritten or taken as saved: when the
    payload arrives nothing is left to save, whatever was edited, and a section the payload
    lacks keeps the edit that was never sent. *)
Theorem early_edits_are_not_sent p payload next :
  settled (p_state p) -> mergeServerBootstrap seed (p_state p) payload = Ok next ->
  let p' := bootstrapped seed payload p in dirty p' = false /\ requestSave p' = set_notify "In sync" "No unsaved changes." p' /\
  forall k, k ∈ HOME_KEYS -> is_nullish (prop payload k) = true -> field k (p_state p') = field k (p_state p).
Proof.
  intros Hs Hm p'. destruct (bootstrapped_ok payload p next Hm) as (E1 & E2 & _). fold p' in E1, E2. split_and!; [done | unfold requestSave; by rewrite E2|].
  intros k Hk Hn. rewrite E1. by apply (missing_stays (p_state p) payload).
Qed.

(** the review never names what was edited: the only section that is compared is one the
    panel does not edit, so each edit of a saved state is listed as an unsaved copy. *)
Theorem edits_are_not_reviewed p e :
  printable (JObj (p_state p)) = true -> savedSnapshot p = snapshot (p_state p) ->
  buildAdminDiff (savedSnapshot p) (p_state (edited e p)) = [DiffRow "state" ("working copy " +:+ middot +:+ " unsaved (snapshot mismatch)")].
Proof.
  intros Hp ->. unfold buildAdminDiff, snapshot. rewrite parse_stringify by done. cbn [is_nullish prop]. rewrite edit_leaves by (by destruct e). by rewrite bool_decide_true.
Qed.
End Settled.

(** ** Applied *)

Definition sample_site : members := map (fun k => (k, JStr k)) adminHomeSiteRootKeys.
Definition sample_td : members := [("theme", JStr "dark"); ("show_grid", JBool true)].
Definition sample_seed : members :=
  [("site", JObj sample_site); ("tweak_defaults", JObj sample_td); ("support", JObj [("default_email", JStr ""); ("contacts", JArr [])]);
   ("nav", JArr []); ("terminal", JObj [("lines", JArr [JStr "boot"])]); ("tools", JArr [JObj [("id", JStr "01"); ("name", JStr "SHROUD"); ("monitor", JNull)]]);
   ("log_page", JObj [("section_title", JStr "CHRONOLOGY")]); ("ticker_home", JArr [JStr "NO ADS"])].
(** A home JSON like the one in the repository: without a terminal and a log page. *)
Definition sample_root : members :=
  map (fun k => (k, JStr "live")) adminHomeSiteRootKeys ++
  [("tweak_defaults", JObj [("theme", JStr "light"); ("show_grid", JBool false)]); ("support", JObj [("default_email", JStr ""); ("contacts", JArr [])]); ("nav", JArr []);
   ("tools", JArr []); ("ticker_home", JArr [])].
Definition sample_server (b : bool) : server := Server sample_root (JArr []) (JObj []) true b (fun _ => None) [].
Definition sample_panel : panel := edited (EditTweak "theme" (JStr "light")) (Panel sample_seed (snapshot sample_seed) true None None false "" false).

Lemma sample_tools : exists l, field "tools" sample_seed = JArr l /\ res_mapM heal_tool l = Ok l.
Proof. eexists. split; reflexivity. Qed.
Lemma sample_simple k : has_key k sample_td = true -> simple (field k sample_td) = true.
Proof. intros Hk%has_key_spec. cbn in Hk. rewrite !elem_of_cons, elem_of_nil in Hk. destruct Hk as [->|[->|[] ] ]; reflexivity. Qed.
Lemma sample_home : Forall (fun k => composite (field k sample_seed) = true) HOME_KEYS.
Proof. repeat (constructor; [reflexivity|]). constructor. Qed.

Lemma merge_completes_witness :
  merge (merge (JObj [("tools", JNull); ("beta", JBool true)]) (JObj sample_seed)) (JObj sample_seed) = merge (JObj [("tools", JNull); ("beta", JBool true)]) (JObj sample_seed) /\
  at_path ["support"; "default_email"] (merge (JObj [("support", JObj [("default_email", JStr "a@b.example")])]) (JObj sample_seed)) = JStr "a@b.example".
Proof.
  split.
  - apply (merge_completes (JObj sample_seed) (JObj [("tools", JNull); ("beta", JBool true)])). vm_compute. reflexivity.
  - refine (proj2 (proj2 (merge_completes (JObj sample_seed) (JObj [("support", JObj [("default_email", JStr "a@b.example")])]) _)) _ _ _); vm_compute; reflexivity.
Defined.


Lemma sample_settled : settled sample_seed (p_state sample_panel).
Proof. split; [vm_compute; reflexivity|]. eexists. split; [reflexivity | vm_compute; reflexivity]. Qed.
Lemma saved_state_comes_back_witness : exists sv' p' p0 p2,
  run (SiteServer.respond "https://console.test") (sample_server true) (save "https://console.test" "theme" sample_panel sample_panel) = (sv', Ok (p', Ok tt)) /\
  run (SiteServer.respond "https://console.test") sv' (bootstrap (JObj sample_seed) "https://console.test" p0) = (sv', Ok (p2, Ok tt)) /\
  field "tweak_defaults" (p_state p2) = JObj [("theme", JStr "light"); ("show_grid", JBool true)].
Proof.
  destruct (saved_state_comes_back sample_seed eq_refl sample_tools sample_home sample_site eq_refl (reflexivity _) "https://console.test" sample_panel (sample_server true) "theme")
    as (sv' & p' & p0 & p2 & H1 & _ & _ & _ & _ & H2 & _ & _ & H3).
  - exact sample_settled.
  - eexists. split; reflexivity.
  - vm_compute. reflexivity.
  - split_and!; vm_compute; reflexivity.
  - reflexivity.
  - reflexivity.
  - vm_compute. reflexivity.
  - exists sv', p', p0, p2. split; [exact H1|]. split; [exact H2|]. rewrite H3 by (apply str_mem_spec; vm_compute; reflexivity). vm_compute. reflexivity.
Defined.

Lemma missing_sections_are_written_witness : exists sv' p', let p0 := Panel sample_seed (snapshot sample_seed) false None None false "" false in
  let p := edited (EditEmail "help@elvish.example") (bootstrapped (JObj sample_seed) (told (sample_server true)) p0) in
  run (SiteServer.respond "https://console.test") (sample_server true) (save "https://console.test" "" p p) = (sv', Ok (p', Ok tt)) /\
  field "terminal" (root sv') = JObj [("lines", JArr [JStr "boot"])].
Proof.
  destruct (missing_sections_are_written sample_seed eq_refl sample_tools sample_td eq_refl eq_refl sample_simple sample_home "https://console.test" (sample_server true)
    (match mergeServerBootstrap (JObj sample_seed) sample_seed (told (sample_server true)) with Ok s => s | Throw _ => [] end) (EditEmail "help@elvish.example") "terminal" "")
    as (sv' & p' & H1 & _ & _ & H2).
  - vm_compute. reflexivity.
  - apply str_mem_spec. vm_compute. reflexivity.
  - discriminate.
  - vm_compute. reflexivity.
  - exact I.
  - discriminate.
  - vm_compute. reflexivity.
  - split_and!; vm_compute; reflexivity.
  - vm_compute. reflexivity.
  - exists sv', p'. split; [exact H1 | exact H2].
Defined.

Lemma console_opened_signed_out_witness : let p0 := Panel sample_seed (snapshot sample_seed) false None None false "" false in
  run (SiteServer.respond "https://console.test") (sample_server false) (bootstrap (JObj sample_seed) "https://console.test" p0) = (sample_server false, Ok (p0, Ok tt)).
Proof. refine (proj1 (proj2 (console_opened_signed_out sample_seed eq_refl sample_tools "https://console.test" (sample_server false) [] "" (sample_server true) _ _))); reflexivity. Defined.

Lemma early_edits_are_not_sent_witness :
  exists next, mergeServerBootstrap (JObj sample_seed) (p_state sample_panel) (JObj [("nav", JArr [])]) = Ok next /\
  dirty (bootstrapped (JObj sample_seed) (JObj [("nav", JArr [])]) sample_panel) = false.
Proof.
  eexists. split; [vm_compute; reflexivity|].
  refine (proj1 (early_edits_are_not_sent sample_seed eq_refl sample_home sample_panel (JObj [("nav", JArr [])]) _ sample_settled _)). vm_compute. reflexivity.
Defined.

Lemma edits_are_not_reviewed_witness : let p := Panel sample_seed (snapshot sample_seed) true None None false "" false in
  buildAdminDiff (savedSnapshot p) (p_state (edited (EditEmail "help@elvish.example") p)) = [DiffRow "state" ("working copy " +:+ middot +:+ " unsaved (snapshot mismatch)")].
Proof. refine (edits_are_not_reviewed (Panel sample_seed (snapshot sample_seed) true None None false "" false) (EditEmail "help@elvish.example") _ _); vm_compute; reflexivity. Defined.
