(* ===== verification/SenderAvatar.v ===== *)
(** * Avatars of senders ([static/mail/mail-sender-avatar.jsx])

    The colour, the initial and the picture of a sender, and the icon of the sender's domain:
    a cache in [localStorage], requests that are shared, and the rows of the list that wait for
    them, as a step relation. The storage refuses what [fits] says; a storage that cannot be
    read is an empty one that refuses everything. What is drawn of a row is [avatar_of]. *)
From Stdlib Require Import ZArith Lia Ascii.
From stdpp Require Import gmap strings list.
From S2P Require Import Prelude JsString JsValue Text Json Split FilterEngine Http.
Local Open Scope nat_scope.

(** ** Colours and initials *)

Definition SENDER_AVATAR_COLORS : list string := ["pink"; "yellow"; "red"; "orange"; "green"; "blue"; "dark-blue"].
Fixpoint weighted_sum (i : Z) (s : string) : Z := match s with EmptyString => 0 | String c s => Z.of_N (code c) * (i + 1) + weighted_sum (i + 1) s end.
(** [SENDER_AVATAR_COLOR_MAP[c]] is truthy. *)
Definition known_color (c : jsval) : bool := match c with JStr c => str_mem c SENDER_AVATAR_COLORS || str_mem c object_prototype_names | _ => false end.
Definition pickSenderAvatarColor (seed preferredColor : jsval) : string :=
  if known_color preferredColor then js_String preferredColor
  else
    let value := to_lower (trim (js_String (js_or seed (JStr "")))) in
    if value =s? "" then "blue" else nth (Z.to_nat (weighted_sum 0 value mod 7)) SENDER_AVATAR_COLORS "".
Definition first_char_of (s : string) : string := match s with EmptyString => "" | String c _ => String c "" end.
Definition senderAvatarInitial (label : jsval) : string :=
  let raw := trim (js_String (js_or label (JStr ""))) in
  if raw =s? "" then "?"
  else
    let local := if includes raw "@" then hd "" (split raw "@") else raw in
    let cleaned := filter_chars is_alnum local in
    to_upper (str_or (first_char_of cleaned) (str_or (first_char_of local) "?")).

(** What follows the last [c]. *)
Fixpoint after_last (c : ascii) (s : string) : option string :=
  match s with
  | EmptyString => None
  | String d r => match after_last c r with Some t => Some t | None => if Ascii.eqb d c then Some r else None end
  end.
Definition extractDomain (email : string) : string :=
  match after_last "@" email with
  | None => ""
  | Some t => let domain := to_lower (trim t) in if includes domain "." then domain else ""
  end.

(** ** The cache *)

Definition SENDER_ICON_CACHE_TTL_MS : Z := 24 * 60 * 60 * 1000.
Definition SENDER_ICON_CACHE_PREFIX : string := "elvish:sender-icon:".
Definition icon_key (domain : string) : string := SENDER_ICON_CACHE_PREFIX +:+ domain.
(** [typeof v === "number"] *)
Definition number_of (v : jsval) : option Z := match v with JNum z => Some z | _ => None end.
Definition getCachedSenderIcon (now : Z) (domain : string) (items : gmap string string) : gmap string string * option jsval :=
  if domain =s? "" then (items, None)
  else
    match items !! icon_key domain with
    | None => (items, None)
    | Some raw =>
        match (if raw =s? "" then None else parse raw) with
        | None => (items, None)
        | Some cached =>
            match (if truthy cached then number_of (prop cached "fetched_at") else None) with
            | None => (items, None)
            | Some t => if (SENDER_ICON_CACHE_TTL_MS <? now - t)%Z then (delete (icon_key domain) items, None) else (items, Some cached)
            end
        end
    end.
(** [{ ...data, fetched_at }] *)
Definition stamped (t : Z) (data : jsval) : jsval := JObj (put_field "fetched_at" (JNum t) (own_members data)).

Section Rows.
Variable fits : gmap string string -> string -> string -> bool.    (** [setItem] does not throw *)

Definition setCachedSenderIcon (now : Z) (domain : string) (data : jsval) (items : gmap string string) : gmap string string :=
  if domain =s? "" then items
  else let text := stringify (stamped now data) in if fits items (icon_key domain) text then <[icon_key domain := text]> items else items.

(** ** Rows *)

Record icon := Icon { loading : bool; data : jsval }.
(** [r_wait]: the domain whose request the effect of the row waits for. *)
Record row := Row { r_email : string; r_icon : icon; r_wait : option string }.
Record world := World {
  now : Z;
  items : gmap string string;
  pendingIconFetches : list string;
  sent : list string;
  rows : gmap nat row;
}.
Definition set_items (m : gmap string string) (w : world) : world := World (now w) m (pendingIconFetches w) (sent w) (rows w).
Definition set_rows (m : gmap nat row) (w : world) : world := World (now w) (items w) (pendingIconFetches w) (sent w) m.

Definition icon_url (domain : string) : string := "/api/v1/mail/sender-icon?domain=" +:+ encodeURIComponent domain.
(** A request that is under way is shared. *)
Definition fetchSenderIcon (domain : string) (w : world) : world :=
  if str_mem domain (pendingIconFetches w) then w
  else World (now w) (items w) (domain :: pendingIconFetches w) (sent w ++ [icon_url domain]) (rows w).

(** The effect of row [i], with what it shows before. *)
Definition icon_effect (i : nat) (email : string) (prev : icon) (w : world) : world :=
  let domain := extractDomain email in
  if domain =s? "" then set_rows (<[i := Row email (Icon false JNull) None]> (rows w)) w
  else
    let '(m, cached) := getCachedSenderIcon (now w) domain (items w) in
    let w := set_items m w in
    match cached with
    | Some v => set_rows (<[i := Row email (Icon false v) None]> (rows w)) w
    | None => fetchSenderIcon domain (set_rows (<[i := Row email (Icon true (data prev)) (Some domain)]> (rows w)) w)
    end.
(** [useState], then the effect. *)
Definition mount (i : nat) (email : string) (w : world) : world :=
  let domain := extractDomain email in
  let '(m, cached) := getCachedSenderIcon (now w) domain (items w) in
  icon_effect i email (match cached with Some v => Icon false v | None => Icon (negb (domain =s? "")) JNull end) (set_items m w).
(** The row shows another sender: the effect runs when the domain is another. *)
Definition show_sender (i : nat) (email : string) (r : row) (w : world) : world :=
  if extractDomain email =s? extractDomain (r_email r) then set_rows (<[i := Row email (r_icon r) (r_wait r)]> (rows w)) w
  else icon_effect i email (r_icon r) w.
Definition unmount (i : nat) (w : world) : world := set_rows (delete i (rows w)) w.
(** The answer for a domain, or none when the request failed: the rows that wait show it. *)
Definition answered (domain : string) (resp : option jsval) (w : world) : world :=
  World (now w) (match resp with Some v => setCachedSenderIcon (now w) domain v (items w) | None => items w end)
    (List.filter (fun d => negb (d =s? domain)) (pendingIconFetches w)) (sent w)
    ((fun r => if bool_decide (r_wait r = Some domain) then Row (r_email r) (Icon false (default JNull resp)) None else r) <$> rows w).
Definition clock (t : Z) (w : world) : world := World t (items w) (pendingIconFetches w) (sent w) (rows w).

(** ** What is drawn *)

Record avatar := Avatar { av_color : string; av_label : jsval; av_url : jsval; av_bimi : bool; av_status : bool; av_initial : string }.
Definition visible_profile (profile : jsval) : option jsval := if truthy profile && truthy (prop profile "visible") then Some profile else None.
Definition avatar_of (senderLabel senderId profile : jsval) (ic : icon) : avatar :=
  let vp := visible_profile profile in
  let color := pickSenderAvatarColor (js_or senderId senderLabel) (match vp with Some p => prop p "avatar_color" | None => JNull end) in
  let label := match vp with Some p => js_or (prop p "primary_uid") (js_or (prop p "email") senderLabel) | None => senderLabel end in
  let own := match vp with Some p => js_or (prop p "avatar_data_url") (JStr "") | None => JStr "" end in
  let brand := js_or (prop (data ic) "icon_data_url") (JStr "") in
  let source := if truthy (data ic) then prop (data ic) "source" else JStr "none" in
  Avatar color label (js_or own brand) (negb (truthy own) && match source with JStr s => s =s? "bimi" | _ => false end)
    (match vp with Some p => truthy (prop p "status_badge_visible") | None => false end) (senderAvatarInitial label).

(** ** Histories *)

Inductive event := Mount (i : nat) (email : string) | Show (i : nat) (email : string) | Unmount (i : nat) | Answer (domain : string) (resp : option (list (string * jsval))) | Clock (t : Z).
(** [told]: what the server has said of domains, now and in earlier sessions. *)
Inductive step : list (string * jsval) -> world -> event -> list (string * jsval) -> world -> Prop :=
| step_mount told w i email : rows w !! i = None -> step told w (Mount i email) told (mount i email w)
| step_show told w i email r : rows w !! i = Some r -> step told w (Show i email) told (show_sender i email r w)
| step_unmount told w i : step told w (Unmount i) told (unmount i w)
| step_answer told w d fs : d ∈ pendingIconFetches w -> printable (JObj fs) = true -> step told w (Answer d (Some fs)) ((d, JObj fs) :: told) (answered d (Some (JObj fs)) w)
| step_failed told w d : d ∈ pendingIconFetches w -> step told w (Answer d None) told (answered d None w)
| step_clock told w t : step told w (Clock t) told (clock t w).

(** What is cached for a domain is what the server said of it, with a time. *)
Definition grounded (told : list (string * jsval)) (d : string) (v : jsval) : Prop :=
  v = JNull \/ exists fs, (d, JObj fs) ∈ told /\ printable (JObj fs) = true /\ (v = JObj fs \/ exists t, v = stamped t (JObj fs)).
Definition sound_items (told : list (string * jsval)) (m : gmap string string) : Prop :=
  forall d raw, m !! icon_key d = Some raw -> exists fs t, (d, JObj fs) ∈ told /\ printable (JObj fs) = true /\ raw = stringify (stamped t (JObj fs)).
Inductive reached : list (string * jsval) -> world -> Prop :=
| reached_start told t m : sound_items told m -> reached told (World t m [] [] ∅)
| reached_step told w e told' w' : reached told w -> step told w e told' w' -> reached told' w'.

(** ** Lemmas *)

Lemma stamped_printable t fs : printable (JObj fs) = true -> printable (stamped t (JObj fs)) = true.
Proof. intros Hp. by apply put_printable. Qed.
Lemma icon_key_inj d d' : icon_key d = icon_key d' -> d = d'.
Proof. unfold icon_key. intros H. by apply String.app_inj in H. Qed.

(** Reading the cache. *)
Lemma cached_sound told t d m : sound_items told m -> let '(m', c) := getCachedSenderIcon t d m in
  sound_items told m' /\ forall v, c = Some v -> grounded told d v.
Proof.
  intros Hm. unfold getCachedSenderIcon. destruct (d =s? ""); [done|]. destruct (m !! icon_key d) as [raw|] eqn:E; [|done].
  destruct (Hm d raw E) as (fs & t' & Hin & Hp & ->). destruct (if _ =s? "" then None else parse _) as [cached|] eqn:Ec; [|done].
  destruct (stringify (stamped t' (JObj fs)) =s? ""); [done|]. rewrite parse_stringify in Ec by (by apply stamped_printable). injection Ec as <-.
  destruct (if truthy _ then _ else _) as [t0|]; [|done]. destruct (_ <? _)%Z.
  - split; [|done]. intros d' raw' [_ H']%lookup_delete_Some. by apply Hm.
  - split; [done|]. intros v [= <-]. right. exists fs. split_and!; [done | done | eauto].
Qed.
Lemma store_sound told t d fs m : sound_items told m -> printable (JObj fs) = true -> sound_items ((d, JObj fs) :: told) (setCachedSenderIcon t d (JObj fs) m).
Proof.
  intros Hm Hp. assert (sound_items ((d, JObj fs) :: told) m) as Hm'.
  { intros d' raw H. destruct (Hm d' raw H) as (fs' & t' & Hin & H1 & H2). exists fs', t'. split_and!; [by right | done | done]. }
  unfold setCachedSenderIcon. destruct (d =s? ""); [done|]. destruct (fits _ _ _); [|done].
  intros d' raw [ [Hk%icon_key_inj <-]|[_ H] ]%lookup_insert_Some; [|by apply Hm'].
  subst d'. exists fs, t. split_and!; [by left | done | done].
Qed.
Lemma grounded_mono told x d v : grounded told d v -> grounded (x :: told) d v.
Proof. intros [->|(fs & Hin & Hp & H)]; [by left|]. right. exists fs. split_and!; [by right | done | done]. Qed.

(** *** What holds of the rows *)

Definition row_ok (told : list (string * jsval)) (pend : list string) (r : row) : Prop :=
  match r_wait r with
  | None => loading (r_icon r) = false /\ grounded told (extractDomain (r_email r)) (data (r_icon r))
  | Some d => d = extractDomain (r_email r) /\ loading (r_icon r) = true /\ d ∈ pend /\ exists d', grounded told d' (data (r_icon r))
  end.
Lemma row_ok_some told p r : row_ok told p r -> exists d, grounded told d (data (r_icon r)).
Proof. unfold row_ok. destruct (r_wait r); [by intros (_ & _ & _ & ?) | intros [_ ?]; by eexists]. Qed.
Definition inv (told : list (string * jsval)) (w : world) : Prop :=
  NoDup (pendingIconFetches w) /\ (forall i r, rows w !! i = Some r -> row_ok told (pendingIconFetches w) r) /\ sound_items told (items w).

Lemma row_ok_pend told p p' r : (forall d, d ∈ p -> d ∈ p') -> row_ok told p r -> row_ok told p' r.
Proof. intros Hs. unfold row_ok. destruct (r_wait r); [|done]. intros (? & ? & ? & ?). auto. Qed.
Lemma row_ok_mono told x p r : row_ok told p r -> row_ok (x :: told) p r.
Proof. unfold row_ok. destruct (r_wait r).
  - intros (? & ? & ? & d' & ?). split_and!; [done..|]. exists d'. by apply grounded_mono.
  - intros [? ?]. split; [done | by apply grounded_mono].
Qed.
Lemma put_row told w i r : inv told w -> row_ok told (pendingIconFetches w) r -> inv told (set_rows (<[i := r]> (rows w)) w).
Proof. intros (Hn & Hr & Hm) Hi. split_and!; [done | | done]. cbn. intros j r' [ [_ <-]|[_ H] ]%lookup_insert_Some; [exact Hi | by eapply Hr]. Qed.
Lemma fetch_pending d w : d ∈ pendingIconFetches (fetchSenderIcon d w) /\ (forall d', d' ∈ pendingIconFetches w -> d' ∈ pendingIconFetches (fetchSenderIcon d w)) /\
  (NoDup (pendingIconFetches w) -> NoDup (pendingIconFetches (fetchSenderIcon d w))) /\ rows (fetchSenderIcon d w) = rows w /\ items (fetchSenderIcon d w) = items w.
Proof.
  unfold fetchSenderIcon. destruct (str_mem d (pendingIconFetches w)) eqn:E; [apply str_mem_spec in E; done|]. apply str_mem_false in E.
  split_and!; cbn; [by left | by right | by constructor | done | done].
Qed.
Lemma effect_inv told i email prev w : (exists d, grounded told d (data prev)) -> inv told w -> inv told (icon_effect i email prev w).
Proof.
  intros Hg Hw. unfold icon_effect. destruct (extractDomain email =s? "") eqn:Ed; [apply put_row; [done|]; split; [done | by left]|].
  pose proof (cached_sound told (now w) (extractDomain email) (items w)) as Hc. destruct (getCachedSenderIcon _ _ _) as [m c]. destruct Hw as (Hn & Hr & Hm). destruct (Hc Hm) as [Hm' Hv].
  assert (inv told (set_items m w)) as Hw by done. destruct c as [v|].
  - apply put_row; [done|]. split; [done|]. by apply Hv.
  - destruct (fetch_pending (extractDomain email) (set_rows (<[i := Row email (Icon true (data prev)) (Some (extractDomain email))]> (rows (set_items m w))) (set_items m w))) as (H1 & H2 & H3 & H4 & H5).
    split_and!; [by apply H3 | | by rewrite H5]. rewrite H4. cbn. intros j r [ [_ <-]|[_ H] ]%lookup_insert_Some; [done|]. eapply row_ok_pend; [exact H2 | by eapply Hr].
Qed.
Lemma answer_inv told told' d resp w m : inv told w -> (forall r p, row_ok told p r -> row_ok told' p r) -> sound_items told' m -> grounded told' d (default JNull resp) ->
  inv told' (World (now w) m (List.filter (fun x => negb (x =s? d)) (pendingIconFetches w)) (sent w)
    ((fun r => if bool_decide (r_wait r = Some d) then Row (r_email r) (Icon false (default JNull resp)) None else r) <$> rows w)).
Proof.
  intros (Hn & Hr & Hm) Ht Hm' Hg. split_and!; cbn; [| |done].
  - pose proof (NoDup_map_filter id (fun x => negb (x =s? d)) (pendingIconFetches w)) as H. rewrite !map_id in H. by apply H.
  - intros i r' (r & <- & Hi)%lookup_fmap_Some. apply Hr, Ht in Hi. case_bool_decide as E.
    + unfold row_ok in Hi. rewrite E in Hi. destruct Hi as (-> & _). split; [done|]. exact Hg.
    + unfold row_ok in *. destruct (r_wait r) as [d'|]; [|done]. destruct Hi as (H1 & H2 & H3 & H4). split_and!; [done | done | | done]. apply list_elem_of_In, filter_In. split; [by apply list_elem_of_In|].
      apply negb_true_iff, String.eqb_neq. congruence.
Qed.
Lemma reached_inv told w : reached told w -> inv told w.
Proof.
  induction 1 as [told t m Hm|told w e told' w' Hr IH Hs]; [split_and!; cbn; [constructor | by intros i r ?%lookup_empty_Some | done]|].
  destruct Hs as [told w i email _|told w i email r Hi|told w i|told w d fs Hd Hp|told w d Hd|told w t].
  - unfold mount. pose proof (cached_sound told (now w) (extractDomain email) (items w)) as Hc. destruct (getCachedSenderIcon _ _ _) as [m c]. destruct IH as (Hn & Hrw & Hm).
    apply effect_inv; [|split_and!; [done | done | by apply Hc] ].
    destruct c as [v|]; [exists (extractDomain email); by apply Hc | exists ""; by left].
  - unfold show_sender. destruct (extractDomain email =s? extractDomain (r_email r)) eqn:E; [|apply effect_inv; [|done]; destruct IH as (_ & Hrw & _); by apply (row_ok_some _ _ _ (Hrw i r Hi))]. apply String.eqb_eq in E.
    apply put_row; [done|]. destruct IH as (_ & Hrw & _). specialize (Hrw i r Hi). unfold row_ok in *. cbn. by rewrite E.
  - destruct IH as (Hn & Hrw & Hm). split_and!; [done | | done]. cbn. intros j r [_ H]%lookup_delete_Some. by eapply Hrw.
  - apply (answer_inv told); [done | intros; by apply row_ok_mono | apply store_sound; [by destruct IH as (_ & _ & ?) | done] |]. right. exists fs. split_and!; [by left | done | by left].
  - apply (answer_inv told told d None); [done | done | by destruct IH as (_ & _ & ?) | by left].
  - done.
Qed.

(** What is shown of an answer, and the mark it bears. *)
Lemma grounded_mark told d ic label id profile : grounded told d (data ic) -> av_bimi (avatar_of label id profile ic) = true ->
  exists fs, (d, JObj fs) ∈ told /\ field "source" fs = JStr "bimi".
Proof.
  intros Hg Hb. unfold avatar_of in Hb; cbn [av_bimi] in Hb; apply andb_true_iff in Hb as [_ Hb].
  destruct Hg as [Hd|(fs & Hin & Hp & Hd)]; [rewrite Hd in Hb; discriminate Hb|].
  exists fs. split; [done|]. assert (truthy (data ic) = true /\ prop (data ic) "source" = field "source" fs) as (Ht & Hs).
  { destruct Hd as [->|[t ->] ]; split_and!; try done. cbn [prop stamped own_members]. by apply field_put_ne. }
  rewrite Ht, Hs in Hb. destruct (field "source" fs); try discriminate Hb. by apply String.eqb_eq in Hb as ->.
Qed.

(** C12: the picture and the mark of a sender are the word of the server: the icon of a row
    that is not loading is none, or what the server said of the domain of that sender (with
    the time it was cached); and a row bears the mark of a verified brand only when the
    server has named that source, for the domain of that sender when the row is not
    loading, and else for some domain: until the answer comes a row draws the icon of the
    sender it showed before. *)
Theorem badge_is_grounded told w i r label id profile :
  reached told w -> rows w !! i = Some r ->
  (loading (r_icon r) = false ->
     data (r_icon r) = JNull \/ exists fs, (extractDomain (r_email r), JObj fs) ∈ told /\ (data (r_icon r) = JObj fs \/ exists t, data (r_icon r) = stamped t (JObj fs))) /\
  (av_bimi (avatar_of label id profile (r_icon r)) = true ->
     exists d fs, (d, JObj fs) ∈ told /\ field "source" fs = JStr "bimi" /\ (loading (r_icon r) = false -> d = extractDomain (r_email r))).
Proof.
  intros (_ & Hr & _)%reached_inv Hi. specialize (Hr i r Hi). unfold row_ok in Hr. destruct (r_wait r) as [d|].
  - destruct Hr as (_ & Hl & _ & d' & Hg). split; [congruence|]. intros Hb.
    destruct (grounded_mark _ _ _ _ _ _ Hg Hb) as (fs & ? & ?). exists d', fs. split_and!; [done | done | congruence].
  - destruct Hr as [_ Hg]. split.
    + intros _. destruct Hg as [Hd|(fs & Hin & _ & Hd)]; [by left | right; by exists fs].
    + intros Hb. destruct (grounded_mark _ _ _ _ _ _ Hg Hb) as (fs & ? & ?). by exists (extractDomain (r_email r)), fs.
Qed.

(** Every request that is under way is answered, in turn. *)
Definition answer_all (f : string -> option (list (string * jsval))) (w : world) : world :=
  foldl (fun w d => answered d (JObj <$> f d) w) w (pendingIconFetches w).
Lemma answered_pending d resp w : pendingIconFetches (answered d resp w) = List.filter (fun x => negb (x =s? d)) (pendingIconFetches w).
Proof. done. Qed.
Lemma reached_answers f told w l : reached told w -> (forall d fs, f d = Some fs -> printable (JObj fs) = true) -> NoDup l -> (forall d, d ∈ l -> d ∈ pendingIconFetches w) ->
  let w' := foldl (fun w d => answered d (JObj <$> f d) w) w l in exists told', reached told' w' /\ forall d, d ∈ pendingIconFetches w' -> d ∈ pendingIconFetches w /\ d ∉ l.
Proof.
  intros Hr Hf Hn. revert told w Hr. induction Hn as [|d l Hd Hn IH]; intros told w Hr Hl; [exists told; split; [exact Hr | intros d H; split; [exact H | by intros ?%not_elem_of_nil] ]|].
  cbn [foldl]. assert (exists told1, reached told1 (answered d (JObj <$> f d) w)) as [told1 Hr1].
  { assert (d ∈ pendingIconFetches w) as Hp by (apply Hl; by left). destruct (f d) as [fs|] eqn:E; eexists; eapply reached_step; [exact Hr | apply step_answer; [done | by apply (Hf d)] | exact Hr | by apply step_failed]. }
  destruct (IH told1 _ Hr1) as (told' & Hr' & Hp).
  - intros d' Hin. rewrite answered_pending. apply list_elem_of_In, filter_In. split; [apply list_elem_of_In, Hl; by right|]. apply negb_true_iff, String.eqb_neq. by intros ->.
  - exists told'. split; [exact Hr'|]. intros d' Hd'. apply Hp in Hd' as [H1 H2]. rewrite answered_pending in H1. apply list_elem_of_In, filter_In in H1 as [H1 H3].
    split; [by apply list_elem_of_In|]. intros [->|H]%elem_of_cons; [by rewrite String.eqb_refl in H3 | done].
Qed.
(** rows share requests and come to rest: no domain is asked for twice at a time, a row that
    is loading waits for a request that is under way, and when these have been answered, in
    whatever way, nothing is under way and no row is loading. *)
Theorem rows_settle told w f :
  reached told w -> (forall d fs, f d = Some fs -> printable (JObj fs) = true) ->
  NoDup (pendingIconFetches w) /\ (forall i r, rows w !! i = Some r -> loading (r_icon r) = true -> extractDomain (r_email r) ∈ pendingIconFetches w) /\
  pendingIconFetches (answer_all f w) = [] /\ forall i r, rows (answer_all f w) !! i = Some r -> loading (r_icon r) = false.
Proof.
  intros Hr Hf. pose proof (reached_inv _ _ Hr) as (Hn & Hrows & _). assert (forall told w, reached told w -> forall i r, rows w !! i = Some r -> loading (r_icon r) = true ->
    extractDomain (r_email r) ∈ pendingIconFetches w) as Hw.
  { intros told1 w1 (_ & H & _)%reached_inv i r Hi Hl. specialize (H i r Hi). unfold row_ok in H. destruct (r_wait r); [by destruct H as (-> & _ & ? & _)|]. destruct H as [H _]. congruence. }
  destruct (reached_answers f told w (pendingIconFetches w) Hr Hf Hn) as (told' & Hr' & Hp); [done|]. fold (answer_all f w) in Hr', Hp.
  assert (pendingIconFetches (answer_all f w) = []) as He by (destruct (pendingIconFetches (answer_all f w)) as [|d l]; [done|]; destruct (Hp d) as [? []]; [by left | done]).
  split_and!; [done | by apply (Hw told) | done|]. intros i r Hi. destruct (loading (r_icon r)) eqn:E; [|done]. specialize (Hw _ _ Hr' i r Hi E). rewrite He in Hw. by apply not_elem_of_nil in Hw.
Qed.

(** an icon is kept for a day: what was stored is read back with the time it was stored, for
    as long as the clock is not more than a day later, and is removed after that. *)
Theorem cached_icon_lasts_a_day t t' d fs m :
  d <> "" -> printable (JObj fs) = true -> (forall k v, fits m k v = true) ->
  let m' := setCachedSenderIcon t d (JObj fs) m in
  getCachedSenderIcon t' d m' = if (t' - t <=? SENDER_ICON_CACHE_TTL_MS)%Z then (m', Some (stamped t (JObj fs))) else (delete (icon_key d) m', None).
Proof.
  intros Hd%String.eqb_neq Hp Hf. unfold setCachedSenderIcon, getCachedSenderIcon. rewrite Hd, Hf, lookup_insert_eq. pose proof (stamped_printable t fs Hp) as Hs.
  assert ((stringify (stamped t (JObj fs)) =s? "") = false) as -> by done. rewrite parse_stringify by done.
  assert (prop (stamped t (JObj fs)) "fetched_at" = JNum t) as -> by (cbn [prop stamped own_members]; apply field_put_eq). cbn [truthy stamped number_of].
  destruct (Z.leb_spec (t' - t) SENDER_ICON_CACHE_TTL_MS).
  - by rewrite (proj2 (Z.ltb_ge _ _)) by lia.
  - by rewrite (proj2 (Z.ltb_lt _ _)) by lia.
Qed.

(** while the icon of a sender is loading, the picture of the sender before is drawn, with
    its mark: a row that comes to show another sender draws what it drew until the answer. *)
Theorem mark_of_another_sender w i r email label id profile :
  rows w !! i = Some r -> extractDomain email <> extractDomain (r_email r) -> extractDomain email <> "" ->
  (getCachedSenderIcon (now w) (extractDomain email) (items w)).2 = None ->
  exists r', rows (show_sender i email r w) !! i = Some r' /\ r_email r' = email /\ loading (r_icon r') = true /\
    avatar_of label id profile (r_icon r') = avatar_of label id profile (r_icon r).
Proof.
  intros Hi Hne%String.eqb_neq Hn%String.eqb_neq Hc. unfold show_sender, icon_effect. rewrite Hne, Hn. destruct (getCachedSenderIcon _ _ _) as [m c]. cbn [snd] in Hc. subst c.
  exists (Row email (Icon true (data (r_icon r))) (Some (extractDomain email))). split_and!; [|done..].
  destruct (fetch_pending (extractDomain email) (set_rows (<[i := Row email (Icon true (data (r_icon r))) (Some (extractDomain email))]> (rows (set_items m w))) (set_items m w))) as (_ & _ & _ & -> & _).
  cbn. apply lookup_insert_eq.
Qed.

Lemma color_of_palette seed preferred : pickSenderAvatarColor seed preferred ∈ SENDER_AVATAR_COLORS \/ exists c, preferred = JStr c /\ c ∈ object_prototype_names.
Proof.
  assert (forall z, nth (Z.to_nat (z mod 7)) SENDER_AVATAR_COLORS "" ∈ SENDER_AVATAR_COLORS) as H.
  { intros z. apply list_elem_of_In, nth_In. cbn. pose proof (Z.mod_pos_bound z 7 eq_refl). lia. }
  unfold pickSenderAvatarColor. destruct (known_color preferred) eqn:E; [|left; destruct (_ =s? ""); [by apply str_mem_spec | apply H] ].
  destruct preferred as [| | | | |c| |]; try done. cbn [known_color] in E. apply orb_true_iff in E as [E%str_mem_spec|E%str_mem_spec]; [by left | right; eauto].
Qed.
End Rows.

(** ** Applied *)

Definition sample_fits (m : gmap string string) (k v : string) : bool := true.
Definition sample_bimi : list (string * jsval) := [("domain", JStr "shop.example"); ("icon_data_url", JStr "data:image/svg+xml,x"); ("source", JStr "bimi"); ("cached", JBool false)].
Definition sample_told : list (string * jsval) := [("shop.example", JObj sample_bimi)].
Definition sample_start : world := World 1000 ∅ [] [] ∅.
Definition sample_loading : world := mount 0 "news@shop.example" sample_start.
Definition sample_shown : world := answered sample_fits "shop.example" (Some (JObj sample_bimi)) sample_loading.
Definition sample_row : row := Row "news@shop.example" (Icon false (JObj sample_bimi)) None.

Lemma sample_reached_loading : reached sample_fits [] sample_loading.
Proof. apply (reached_step _ [] sample_start (Mount 0 "news@shop.example") []); [by apply reached_start; intros d raw H | by constructor]. Qed.
Lemma sample_reached_shown : reached sample_fits sample_told sample_shown.
Proof.
  apply (reached_step _ [] sample_loading (Answer "shop.example" (Some sample_bimi)) sample_told); [exact sample_reached_loading|].
  constructor; [apply list_elem_of_here | vm_compute; reflexivity].
Qed.
Lemma sample_shown_row : rows sample_shown !! 0 = Some sample_row.
Proof. vm_compute. reflexivity. Qed.

Lemma badge_is_grounded_witness : exists fs, ("shop.example", JObj fs) ∈ sample_told /\ field "source" fs = JStr "bimi".
Proof.
  destruct (badge_is_grounded sample_fits sample_told sample_shown 0 sample_row (JStr "Shop") (JStr "news@shop.example") JNull sample_reached_shown sample_shown_row) as [_ Hb].
  destruct (Hb eq_refl) as (d & fs & Hin & Hf & Hd). exists fs. specialize (Hd eq_refl). vm_compute in Hd. subst d. split; [exact Hin | exact Hf].
Defined.

Lemma rows_settle_witness : pendingIconFetches (answer_all sample_fits (fun _ => None) sample_loading) = [].
Proof. apply (rows_settle sample_fits [] sample_loading (fun _ => None) sample_reached_loading). discriminate. Defined.

Lemma cached_icon_lasts_a_day_witness :
  (getCachedSenderIcon 86401000 "shop.example" (setCachedSenderIcon sample_fits 1000 "shop.example" (JObj sample_bimi) ∅)).2 = Some (stamped 1000 (JObj sample_bimi)).
Proof. rewrite (cached_icon_lasts_a_day sample_fits 1000 86401000 "shop.example" sample_bimi ∅); [vm_compute; reflexivity | discriminate | vm_compute; reflexivity | reflexivity]. Defined.

Lemma mark_of_another_sender_witness : exists r', rows (show_sender 0 "ceo@bank.example" sample_row sample_shown) !! 0 = Some r' /\
  av_bimi (avatar_of (JStr "Bank") (JStr "ceo@bank.example") JNull (r_icon r')) = true.
Proof.
  destruct (mark_of_another_sender sample_shown 0 sample_row "ceo@bank.example" (JStr "Bank") (JStr "ceo@bank.example") JNull sample_shown_row) as (r' & H1 & _ & _ & H2);
    [intros E; vm_compute in E; discriminate E | intros E; vm_compute in E; discriminate E | vm_compute; reflexivity |].
  exists r'. split; [exact H1|]. rewrite H2. reflexivity.
Defined.
