(* ===== verification/TwoFactorServer.v ===== *)
(** * The second factors the server keeps ([api_auth_2fa.go], [mfa.go], [store/mfa.go], [internal/mfa/service.go])

    The definition the security page is proved against: the authenticator apps, the security
    keys and the recovery codes of one signed-in user, the set-ups and challenges that are
    open, and when the session last saw a second factor. The libraries that check a code of
    an app and the answers of a security key, and the hash of a recovery code, are parameters;
    what is drawn at random is a field of the server. As in [MailServer] a request is answered,
    refused because the store is broken, or carried out with its answer lost; a lost answer
    also loses the cookie of a new session, which is not modelled, so the theorems are about
    servers that answer or refuse. The letters of a code are
    ASCII. Set-ups do not expire, and of what is answered the QR code
    and the dates are left out: no theorem looks at them. *)
From Stdlib Require Import ZArith Lia Ascii.
From stdpp Require Import strings list.
From S2P Require Import Prelude JsString JsValue Base64 Text Json Split Http Handlers Manifest MailServer Serving.
Local Open Scope nat_scope.

(** ** Recovery codes *)

(** Nine random bytes, in base64 without padding, in capitals and in three groups. *)
Definition recovery_code (b : string) : string :=
  let code := to_upper (btoa_digits b) in
  stake 4 code +:+ "-" +:+ stake 4 (sdrop 4 code) +:+ "-" +:+ stake 4 (sdrop 8 code).
(** [GenerateRecoveryCodes]: [n] codes, no two of them alike. *)
Fixpoint generate (n : nat) (out bytes : list string) : option (list string * list string) :=
  if length out =? n then Some (out, bytes)
  else
    match bytes with
    | [] => None
    | b :: bytes => let code := recovery_code b in generate n (if str_mem code out then out else out ++ [code]) bytes
    end.
Definition NormalizeRecoveryCode (code : string) : string :=
  filter_chars (fun c => negb (Ascii.eqb c " ")) (filter_chars (fun c => negb (Ascii.eqb c "-")) (to_upper (trim code))).

(** ** What is kept *)

Record factor := Factor { f_id : string; f_label : string; f_secret : string }.
(** [c_id]: the row's; [c_credential]: the key's own. *)
Record credential := Credential { c_id : string; c_label : string; c_credential : string; c_record : jsval }.
Record setup := TotpSetup { su_label : string; su_secret : string }.
(** A challenge of a security key; [ch_token]: of a step-up, the session it was asked in. *)
Record challenge := Challenge { ch_token : option string; ch_session : jsval }.

Record server := Server {
  totp : list factor;                 (** the newest first, revoked ones left out *)
  keys : list credential;
  enabled : bool;                     (** of [user_mfa_settings] *)
  codes : list string;                (** hashes of the codes that are not used *)
  setups : list (string * setup);
  challenges : list (string * challenge);
  token : string;                     (** the session *)
  verified_at : Z;                    (** its [MFAVerifiedAt], in seconds; 0: never *)
  now : Z;                            (** in milliseconds *)
  unconfigured : option string;       (** why there is no key to encrypt secrets with *)
  draws : list string;
  bytes : list string;                (** of recovery codes: nine at a time *)
  fates : list fate;
}.
Definition with_factors (l : list factor) (ks : list credential) (on : bool) (cs : list string) (s : server) : server :=
  Server l ks on cs (setups s) (challenges s) (token s) (verified_at s) (now s) (unconfigured s) (draws s) (bytes s) (fates s).
Definition with_codes (cs : list string) (s : server) : server := with_factors (totp s) (keys s) (enabled s) cs s.
Definition with_pending (l : list (string * setup)) (ch : list (string * challenge)) (s : server) : server :=
  Server (totp s) (keys s) (enabled s) (codes s) l ch (token s) (verified_at s) (now s) (unconfigured s) (draws s) (bytes s) (fates s).
Definition with_session (t : string) (v : Z) (s : server) : server :=
  Server (totp s) (keys s) (enabled s) (codes s) (setups s) (challenges s) t v (now s) (unconfigured s) (draws s) (bytes s) (fates s).
Definition with_random (d b : list string) (s : server) : server :=
  Server (totp s) (keys s) (enabled s) (codes s) (setups s) (challenges s) (token s) (verified_at s) (now s) (unconfigured s) d b (fates s).
Definition with_rest (l : list fate) (s : server) : server :=
  Server (totp s) (keys s) (enabled s) (codes s) (setups s) (challenges s) (token s) (verified_at s) (now s) (unconfigured s) (draws s) (bytes s) l.

Definition draw (s : server) : string * server := (default "" (head (draws s)), with_random (tail (draws s)) (bytes s) s).
Definition find_pending {A} (id : string) (l : list (string * A)) : option A := snd <$> List.find (fun p => p.1 =s? id) l.
Definition forget_pending {A} (id : string) (l : list (string * A)) : list (string * A) := List.filter (fun p => negb (p.1 =s? id)) l.

Definition internal_error : response := refusal 500 "internal error".
Definition fields_of (body : jsval) : option (list (string * jsval)) := match body with JObj l => Some l | JNull => Some [] | _ => None end.
Definition text_field (k : string) (l : list (string * jsval)) : option string := default "" <$> read_string (last_field k l JUndef).

(** ** What is said of it *)

Definition mfaMethodsForStatus (s : server) : list string :=
  (if enabled s && negb (length (totp s) =? 0) then ["totp"] else []) ++
  (if enabled s && negb (length (keys s) =? 0) then ["webauthn"] else []) ++
  (if enabled s && negb (length (codes s) =? 0) then ["recovery"] else []).
Definition mfaFactorSummary (s : server) : jsval :=
  JObj [("enabled", JBool (enabled s)); ("methods", JArr (map JStr (mfaMethodsForStatus s)));
        ("totp_factors", JArr (map (fun f => JObj [("id", JStr (f_id f)); ("label", JStr (f_label f))]) (totp s)));
        ("webauthn_factors", JArr (map (fun c => JObj [("id", JStr (c_id c)); ("label", JStr (c_label c))]) (keys s)));
        ("recovery_remaining", JNum (Z.of_nat (length (codes s))))].
Definition apiAuth2FAGet (s : server) : server * response := (s, answer 200 (JObj [("ok", JBool true); ("mfa", mfaFactorSummary s)])).

(** ** A recent second factor *)

Definition TTL : Z := 600000.
Definition recent (s : server) : bool := negb (verified_at s =? 0)%Z && (now s - 1000 * verified_at s <=? TTL)%Z.
Definition STALE : string := "recent 2fa verification required".
Definition requireRecentMFA (s : server) : option response :=
  if negb (enabled s) || recent s then None
  else Some (answer 428 (JObj [("error", JStr STALE); ("mfa_required", JBool true); ("methods", JArr (map JStr (mfaMethodsForStatus s)))])).

(** [DeleteUserSessions] and [issueLoginSession]; [markSessionMFAVerified]. *)
Definition issueLoginSession (verified : bool) (s : server) : server :=
  let '(t, s) := draw s in with_session t (if verified then now s / 1000 else 0)%Z s.
Definition markSessionMFAVerified (t : string) (s : server) : server := if t =s? token s then with_session t (now s / 1000)%Z s else s.
Definition syncMFASettings (s : server) : server := with_factors (totp s) (keys s) (negb (length (totp s) + length (keys s) =? 0)) (codes s) s.

Section Checks.
Context `{uu : Uuid}.
(** Codes of an app ([pquerna/otp], at a time), SHA-256 in hex, and [go-webauthn]: what is
    offered, and what is read from the answer of a key. *)
Variable valid_totp : Z -> string -> string -> bool.
Variable sha256_hex : string -> string.
Variable BeginRegistration : list jsval -> string -> jsval * jsval.
Variable FinishRegistration : list jsval -> jsval -> jsval -> option (string * jsval).
Variable BeginLogin : list jsval -> string -> option (jsval * jsval).
Variable FinishLogin : list jsval -> jsval -> jsval -> option (string * jsval).

Definition HashRecoveryCode (code : string) : string := sha256_hex (NormalizeRecoveryCode code).
Definition ValidateTOTP (t : Z) (code secret : string) : bool := valid_totp t (trim code) (trim secret).
Definition ReplaceRecoveryCodes (hashes : list string) (s : server) : server :=
  with_codes (map trim (List.filter (fun h => negb (trim h =s? "")) hashes)) s.

(** Eight new codes; nothing when no random bytes are left. *)
Definition new_codes (s : server) : option (list string * server) :=
  match generate 8 [] (bytes s) with
  | Some (cs, rest) => Some (cs, ReplaceRecoveryCodes (map HashRecoveryCode cs) (with_random (draws s) rest s))
  | None => None
  end.
Definition codes_json (cs : list string) : jsval := match cs with [] => JNull | _ => JArr (map JStr cs) end.
(** The end of a set-up: codes when there was no factor before, and a new session. *)
Definition enrolled (was_enabled : bool) (fields : list (string * jsval)) (s : server) : server * response :=
  match (if was_enabled then Some ([], s) else new_codes s) with
  | None => (s, internal_error)
  | Some (cs, s) => (issueLoginSession true (syncMFASettings s), answer 200 (JObj ([("ok", JBool true)] ++ fields ++ [("recovery_codes", codes_json cs)])))
  end.

(** ** Authenticator apps *)

Definition apiAuth2FATOTPBegin (body : option jsval) (s : server) : server * response :=
  match requireRecentMFA s with
  | Some r => (s, r)
  | None =>
      match (match body with None => Some "" | Some b => fields_of b ≫= text_field "label" end) with
      | None => (s, refusal 400 "invalid json")
      | Some label =>
          let '(secret, s) := draw s in
          let '(id, s) := draw s in
          (with_pending ((id, TotpSetup (trim label) secret) :: setups s) (challenges s) s,
           answer 200 (JObj [("ok", JBool true); ("setup_id", JStr id); ("secret", JStr secret)]))
      end
  end.

Definition apiAuth2FATOTPConfirm (body : option jsval) (s : server) : server * response :=
  match l ← body ≫= fields_of; id ← text_field "setup_id" l; code ← text_field "code" l; Some (trim id, code) with
  | None => (s, refusal 400 "invalid json")
  | Some (id, code) =>
      match find_pending id (setups s) with
      | None => (s, refusal 400 "invalid setup session")
      | Some su =>
          if negb (ValidateTOTP (now s) code (su_secret su)) then (s, refusal 401 "invalid authenticator code")
          else
            match unconfigured s with
            | Some why => (s, refusal 503 why)
            | None =>
                let was := enabled s in
                let '(fid, s) := draw s in
                let s := with_factors (Factor fid (trim (str_or (su_label su) "Authenticator app")) (su_secret su) :: totp s) (keys s) (enabled s) (codes s) s in
                enrolled was [("factor_id", JStr fid)] (with_pending (forget_pending id (setups s)) (challenges s) s)
            end
      end
  end.

Definition verifyTOTPCode (code : string) (s : server) : bool :=
  match unconfigured s with Some _ => false | None => existsb (fun f => ValidateTOTP (now s) code (f_secret f)) (totp s) end.
Definition apiAuth2FAVerifyTOTP (body : option jsval) (s : server) : server * response :=
  match l ← body ≫= fields_of; text_field "code" l with
  | None => (s, refusal 400 "invalid json")
  | Some code => if verifyTOTPCode code s then (markSessionMFAVerified (token s) s, answer 200 (JObj [("ok", JBool true)])) else (s, refusal 401 "invalid authenticator code")
  end.

(** [filterNonMFAAMR] and the methods of the session are left out: no page reads them. *)
Definition apiAuth2FATOTPDelete (idStr : string) (s : server) : server * response :=
  match requireRecentMFA s with
  | Some r => (s, r)
  | None =>
      match uuid_parse (trim idStr) with
      | None => (s, refusal 400 "invalid factor id")
      | Some id =>
          if negb (existsb (fun f => f_id f =s? id) (totp s)) then (s, refusal 404 "factor not found")
          else
            let v := verified_at s in
            let s := syncMFASettings (with_factors (List.filter (fun f => negb (f_id f =s? id)) (totp s)) (keys s) (enabled s) (codes s) s) in
            let s := if (length (keys s) =? 0) && (length (totp s) <=? 1) then ReplaceRecoveryCodes [] s else s in
            (issueLoginSession ((negb (length (keys s) =? 0) || (1 <? length (totp s))) && (0 <? v)%Z) s, answer 200 (JObj [("ok", JBool true)]))
      end
  end.

(** ** Recovery codes *)

Definition apiAuth2FAVerifyRecovery (body : option jsval) (s : server) : server * response :=
  match l ← body ≫= fields_of; text_field "code" l with
  | None => (s, refusal 400 "invalid json")
  | Some code =>
      let h := trim (HashRecoveryCode code) in
      if str_mem h (codes s)
      then
        let s := markSessionMFAVerified (token s) (with_codes (List.filter (fun x => negb (x =s? h)) (codes s)) s) in
        (s, answer 200 (JObj [("ok", JBool true); ("recovery_remaining", JNum (Z.of_nat (length (codes s))))]))
      else (s, refusal 401 "invalid recovery code")
  end.
Definition apiAuth2FARecoveryRegenerate (s : server) : server * response :=
  match requireRecentMFA s with
  | Some r => (s, r)
  | None =>
      match new_codes s with
      | None => (s, internal_error)
      | Some (cs, s) => (issueLoginSession true s, answer 200 (JObj [("ok", JBool true); ("recovery_codes", JArr (map JStr cs))]))
      end
  end.

(** ** Security keys *)

Definition records (s : server) : list jsval := map c_record (keys s).
Definition apiAuth2FAWebAuthnRegisterBegin (s : server) : server * response :=
  match requireRecentMFA s with
  | Some r => (s, r)
  | None =>
      let '(nonce, s) := draw s in
      let '(options, session) := BeginRegistration (records s) nonce in
      let '(id, s) := draw s in
      (with_pending (setups s) ((id, Challenge None session) :: challenges s) s,
       answer 200 (JObj [("ok", JBool true); ("challenge_id", JStr id); ("options", options)]))
  end.
Definition finish_body (body : option jsval) : option (string * jsval * string) :=
  l ← body ≫= fields_of; id ← text_field "challenge_id" l; label ← text_field "label" l; Some (trim id, last_field "credential" l JUndef, trim label).
Definition apiAuth2FAWebAuthnRegisterFinish (body : option jsval) (s : server) : server * response :=
  match finish_body body with
  | None => (s, refusal 400 "invalid json")
  | Some (id, answered, label) =>
      match find_pending id (challenges s) with
      | Some (Challenge None session) =>
          match FinishRegistration (records s) session answered with
          | None => (s, refusal 401 "security key registration failed")
          | Some (cred, record) =>
              let was := enabled s in
              let '(row, s) := draw s in
              let s := with_factors (totp s) (Credential row (str_or label "Security key") cred record :: keys s) (enabled s) (codes s) s in
              enrolled was [] (with_pending (setups s) (forget_pending id (challenges s)) s)
          end
      | _ => (s, refusal 400 "invalid webauthn challenge")
      end
  end.
Definition apiAuth2FAVerifyWebAuthnBegin (s : server) : server * response :=
  let '(nonce, s') := draw s in
  match BeginLogin (records s) nonce with
  | None => (s, internal_error)
  | Some (options, session) =>
      let '(id, s') := draw s' in
      (with_pending (setups s') ((id, Challenge (Some (token s)) session) :: challenges s') s',
       answer 200 (JObj [("ok", JBool true); ("challenge_id", JStr id); ("options", options)]))
  end.
Definition apiAuth2FAVerifyWebAuthnFinish (body : option jsval) (s : server) : server * response :=
  match finish_body body with
  | None => (s, refusal 400 "invalid json")
  | Some (id, answered, _) =>
      match find_pending id (challenges s) with
      | Some (Challenge (Some t) session) =>
          match FinishLogin (records s) session answered with
          | None => (s, refusal 401 "security key verification failed")
          | Some (cred, record) =>
              if negb (existsb (fun c => c_credential c =s? cred) (keys s)) then (s, internal_error)
              else
                let used c := if c_credential c =s? cred then Credential (c_id c) (c_label c) (c_credential c) record else c in
                let s := with_factors (totp s) (map used (keys s)) (enabled s) (codes s) s in
                (markSessionMFAVerified t (with_pending (setups s) (forget_pending id (challenges s)) s), answer 200 (JObj [("ok", JBool true)]))
          end
      | _ => (s, refusal 401 "security key challenge expired")
      end
  end.
Definition apiAuth2FAWebAuthnDelete (idStr : string) (s : server) : server * response :=
  match requireRecentMFA s with
  | Some r => (s, r)
  | None =>
      match uuid_parse (trim idStr) with
      | None => (s, refusal 400 "invalid credential id")
      | Some id =>
          if negb (existsb (fun c => c_id c =s? id) (keys s)) then (s, refusal 404 "credential not found")
          else
            let v := verified_at s in
            let s := syncMFASettings (with_factors (totp s) (List.filter (fun c => negb (c_id c =s? id)) (keys s)) (enabled s) (codes s) s) in
            let s := if (length (totp s) =? 0) && (length (keys s) <=? 1) then ReplaceRecoveryCodes [] s else s in
            (issueLoginSession ((negb (length (totp s) =? 0) || (1 <? length (keys s))) && (0 <? v)%Z) s, answer 200 (JObj [("ok", JBool true)]))
      end
  end.

(** ** The requests *)

Section Serve.
Variable origin : string.

(** [handleAuth2FAAPI], but for the requests of the sign-in page. *)
Definition handleAuth2FAAPI (rest : list string) (rq : request) (s : server) : server * response :=
  let body := rq_body rq ≫= parse in
  match rq_method rq with
  | GET => match rest with [] => apiAuth2FAGet s | _ => (s, not_found) end
  | POST =>
      match rest with
      | ["totp"; "begin"] => apiAuth2FATOTPBegin body s
      | ["totp"; "confirm"] => apiAuth2FATOTPConfirm body s
      | ["verify"; "totp"] => apiAuth2FAVerifyTOTP body s
      | ["verify"; "recovery"] => apiAuth2FAVerifyRecovery body s
      | ["recovery"; "regenerate"] => apiAuth2FARecoveryRegenerate s
      | ["webauthn"; "register"; "begin"] => apiAuth2FAWebAuthnRegisterBegin s
      | ["webauthn"; "register"; "finish"] => apiAuth2FAWebAuthnRegisterFinish body s
      | ["verify"; "webauthn"; "begin"] => apiAuth2FAVerifyWebAuthnBegin s
      | ["verify"; "webauthn"; "finish"] => apiAuth2FAVerifyWebAuthnFinish body s
      | _ => (s, not_found)
      end
  | DELETE =>
      match rest with
      | ["totp"; seg] => apiAuth2FATOTPDelete (decodeURIComponent seg) s
      | ["webauthn"; seg] => apiAuth2FAWebAuthnDelete (decodeURIComponent seg) s
      | _ => (s, not_found)
      end
  | _ => (s, not_found)
  end.
Definition serve (s : server) (rq : request) : server * response :=
  match address origin rq with
  | (root :: "api" :: "auth" :: "2fa" :: rest, _) => handleAuth2FAAPI rest rq s
  | _ => (s, not_found)
  end.
Definition respond : server -> request -> server * option response := Serving.respond fates with_rest serve internal_error.
End Serve.
End Checks.
Definition outcome := Serving.outcome fates with_rest internal_error.

(** ** Recovery codes, as they are made *)

Definition code_char (c : ascii) : bool := is_digit c || is_upper c || Ascii.eqb c "+" || Ascii.eqb c "/".
Lemma upper_code_char c : is_b64 c = true -> all_chars code_char (upper_char c) = true /\ String.length (upper_char c) = 1.
Proof. revert c. by_char. Qed.
Lemma code_char_facts c : code_char c = true -> is_ws c = false /\ upper_char c = String c "" /\ Ascii.eqb c "-" = false /\ Ascii.eqb c " " = false.
Proof. revert c. by_char. Qed.

Lemma upper_code_chars s : all_chars is_b64 s = true -> all_chars code_char (to_upper s) = true /\ String.length (to_upper s) = String.length s.
Proof.
  induction s as [|c s IH]; [done|]. cbn [all_chars to_upper String.length]. intros [[Hc Hl]%upper_code_char [Hs He]%IH]%andb_true_iff.
  by rewrite all_chars_app, Hc, Hs, slength_app, Hl, He.
Qed.
Lemma digits_of_nine b : String.length b = 9 -> String.length (btoa_digits b) = 12.
Proof. intros H. do 9 (destruct b as [|? b]; [discriminate H|]). by destruct b. Qed.

(** A code is three groups of four, with dashes between them. *)
Lemma recovery_code_groups b : String.length b = 9 -> exists x y z,
  recovery_code b = x +:+ "-" +:+ y +:+ "-" +:+ z /\
  Forall (fun g => all_chars code_char g = true /\ String.length g = 4) [x; y; z].
Proof.
  intros Hb. unfold recovery_code. set (code := to_upper (btoa_digits b)).
  destruct (upper_code_chars (btoa_digits b)) as [Hc Hl]; [apply btoa_digits_b64|]. fold code in Hc, Hl. rewrite digits_of_nine in Hl by done.
  eexists _, _, _. split; [reflexivity|]. rewrite !Forall_cons, !slength_stake, !slength_sdrop, Hl. split_and!; try done; auto using all_chars_stake, all_chars_sdrop.
Qed.

Definition recovery_char (c : ascii) : bool := code_char c || Ascii.eqb c "-".
Lemma recovery_code_chars b : String.length b = 9 -> all_chars recovery_char (recovery_code b) = true /\ String.length (recovery_code b) = 14.
Proof.
  intros (x & y & z & -> & H)%recovery_code_groups. rewrite !Forall_cons in H. destruct H as ([Hx Lx] & [Hy Ly] & [Hz Lz] & _).
  rewrite !all_chars_app, !slength_app, Lx, Ly, Lz. split; [|done].
  assert (forall s, all_chars code_char s = true -> all_chars recovery_char s = true) as Hm.
  { intros s Hs. eapply all_chars_mono; [|exact Hs]. intros c Hc. unfold recovery_char. by rewrite Hc. }
  by rewrite (Hm x), (Hm y), (Hm z).
Qed.

Lemma generate_spec n bytes out cs rest : Forall (fun b => String.length b = 9) bytes -> NoDup out -> length out <= n ->
  Forall (fun c => exists b, c = recovery_code b /\ String.length b = 9) out -> generate n out bytes = Some (cs, rest) ->
  length cs = n /\ NoDup cs /\ Forall (fun c => exists b, c = recovery_code b /\ String.length b = 9) cs.
Proof.
  intros Hb. revert out. induction Hb as [|b bytes Hb Hbs IH]; intros out Hd Hl Hf; cbn [generate]; (destruct (Nat.eqb_spec (length out) n) as [He|Hn]; [by intros [= <- <-]|]); [done|].
  destruct (str_mem (recovery_code b) out) eqn:E; intros Hg; apply IH in Hg; auto.
  - apply str_mem_false in E. apply NoDup_app. split_and!; [done | | apply NoDup_singleton]. intros x Hx ->%list_elem_of_singleton. done.
  - rewrite length_app. cbn. lia.
  - apply Forall_app. split; [done|]. constructor; [by exists b | constructor].
Qed.

(** ** The client against the server *)

Lemma silent_body_or_error label : Serving.silent (body_or_error label).
Proof.
  intros T srv t r. unfold Serving.reading, body_or_error, throw_error. destruct (rp_ok r); [done|]. cbn [negb]. by destruct (getp _ _).
Qed.
Lemma reading_body label r j : Serving.reading (body_or_error label) r = Ok j -> rp_ok r = true /\ json_or_empty r = j.
Proof. unfold Serving.reading, body_or_error, throw_error. destruct (rp_ok r); [by intros [= <-]|]. cbn [negb]. by destruct (getp _ _). Qed.

Section Run.
Context `{uu : Uuid}.
Variable valid_totp : Z -> string -> string -> bool.
Variable sha256_hex : string -> string.
Variable BeginRegistration : list jsval -> string -> jsval * jsval.
Variable FinishRegistration : list jsval -> jsval -> jsval -> option (string * jsval).
Variable BeginLogin : list jsval -> string -> option (jsval * jsval).
Variable FinishLogin : list jsval -> jsval -> jsval -> option (string * jsval).
Variable origin : string.
Local Abbreviation respond := (respond valid_totp sha256_hex BeginRegistration FinishRegistration BeginLogin FinishLogin origin).

Ltac fixed_request m segs :=
  apply Serving.run_served; [first [apply silent_body_or_error | apply Serving.silent_expect_or_error]|]; intros sv; unfold serve, call, call_json;
  rewrite (fixed_address origin m _ segs) by plain_segments; unfold handleAuth2FAAPI; cbn [rq_method rq_body]; rewrite ?served_body_reads by done; try done.
Ltac named_request id segs :=
  apply Serving.run_served; [apply silent_body_or_error|]; intros sv; unfold serve, call;
  rewrite (fixed_address origin DELETE _ segs);
    [ unfold handleAuth2FAAPI; cbn [rq_method rq_body]; by rewrite decode_encode_component
    | done | done
    | repeat (constructor; [done|]); constructor; [by apply component_plain | constructor]
    | repeat (constructor; [done|]); constructor; [by apply component_no_char | constructor] ].

Lemma run_status s : run respond s (getTwoFactorStatus origin) = outcome apiAuth2FAGet (expect_or_error "2fa status") s.
Proof. fixed_request GET ["api"; "auth"; "2fa"]. Qed.
Lemma run_begin label s : run respond s (beginTOTPSetup origin (JStr label)) =
  outcome (apiAuth2FATOTPBegin (Some (JObj [("label", js_or (JStr label) (JStr ""))]))) (body_or_error "totp begin") s.
Proof.
  assert (printable (JObj [("label", js_or (JStr label) (JStr ""))]) = true) as Hp by (by destruct label).
  fixed_request POST ["api"; "auth"; "2fa"; "totp"; "begin"].
Qed.
Lemma run_confirm id code s : printable id = true -> run respond s (confirmTOTPSetup origin id (JStr code)) =
  outcome (apiAuth2FATOTPConfirm valid_totp sha256_hex (Some (JObj [("setup_id", id); ("code", JStr code)]))) (body_or_error "totp confirm") s.
Proof.
  intros Hi. assert (printable (JObj [("setup_id", id); ("code", JStr code)]) = true) as Hp by (cbn; by rewrite Hi).
  fixed_request POST ["api"; "auth"; "2fa"; "totp"; "confirm"].
Qed.
Lemma run_verify_totp code s : run respond s (verifyTwoFactorTOTP origin (JStr code)) =
  outcome (apiAuth2FAVerifyTOTP valid_totp (Some (JObj [("code", JStr code)]))) (body_or_error "totp verify") s.
Proof. fixed_request POST ["api"; "auth"; "2fa"; "verify"; "totp"]. Qed.
Lemma run_verify_recovery code s : run respond s (verifyTwoFactorRecovery origin (JStr code)) =
  outcome (apiAuth2FAVerifyRecovery sha256_hex (Some (JObj [("code", JStr code)]))) (body_or_error "recovery verify") s.
Proof. fixed_request POST ["api"; "auth"; "2fa"; "verify"; "recovery"]. Qed.
Lemma run_regenerate s : run respond s (regenerateRecoveryCodes origin) = outcome (apiAuth2FARecoveryRegenerate sha256_hex) (body_or_error "recovery regenerate") s.
Proof. fixed_request POST ["api"; "auth"; "2fa"; "recovery"; "regenerate"]. Qed.
Lemma run_register_begin s : run respond s (beginWebAuthnRegistration origin) =
  outcome (apiAuth2FAWebAuthnRegisterBegin BeginRegistration) (body_or_error "webauthn begin register") s.
Proof. fixed_request POST ["api"; "auth"; "2fa"; "webauthn"; "register"; "begin"]. Qed.
Lemma run_delete_totp id s : proper_id id = true -> run respond s (deleteTOTPFactor origin id) =
  outcome (apiAuth2FATOTPDelete id) (body_or_error "totp delete") s.
Proof. intros Hi. named_request id ["api"; "auth"; "2fa"; "totp"; encodeURIComponent id]. Qed.
Lemma run_delete_key id s : proper_id id = true -> run respond s (deleteWebAuthnCredential origin id) =
  outcome (apiAuth2FAWebAuthnDelete id) (body_or_error "webauthn delete") s.
Proof. intros Hi. named_request id ["api"; "auth"; "2fa"; "webauthn"; encodeURIComponent id]. Qed.

Lemma answered_in_full h read s : fates s = [] -> outcome h read s = ((h s).1, Serving.reading read (h s).2).
Proof. intros Hf. unfold outcome, Serving.outcome, Serving.next_fate. rewrite Hf. by destruct (h s). Qed.
End Run.
