(* ===== verification/SecondFactor.v ===== *)
(** * The security section of the settings ([static/mail/mail-settings.jsx], [SecuritySection] and [ChangePasswordForm])

    Authenticator apps, security keys, recovery codes and the change of the password: the
    handlers as programs over requests, proved against the second factors of the server
    ([TwoFactorServer]). The gate that asks for a second factor is that of [Policies.Danger].
    A handler works on the page it was drawn in. *)
From Stdlib Require Import ZArith Lia Ascii.
From stdpp Require Import strings list.
From S2P Require Import Prelude JsString JsValue Base64 Text Json Split FilterEngine FilterEditor Http Handlers Manifest Keygen Accounts SignIn MailServer Policies Serving TwoFactorServer.
Local Open Scope nat_scope.

Record page := Page {
  mfa : jsval;                     (** [null] until it is loaded *)
  loadingMfa : bool;
  mfaError : string;
  showTotpModal : bool;
  totpSetup : jsval;
  totpCode : string;
  busyAction : bool;
  recoveryCodes : jsval;
}.
Definition mounted : page := Page JNull true "" false JNull "" false JNull.
Definition set_mfa (v : jsval) (p : page) : page := Page v (loadingMfa p) (mfaError p) (showTotpModal p) (totpSetup p) (totpCode p) (busyAction p) (recoveryCodes p).
Definition set_loading (b : bool) (p : page) : page := Page (mfa p) b (mfaError p) (showTotpModal p) (totpSetup p) (totpCode p) (busyAction p) (recoveryCodes p).
Definition set_mfaError (m : string) (p : page) : page := Page (mfa p) (loadingMfa p) m (showTotpModal p) (totpSetup p) (totpCode p) (busyAction p) (recoveryCodes p).
Definition set_totp (show : bool) (setup : jsval) (code : string) (p : page) : page :=
  Page (mfa p) (loadingMfa p) (mfaError p) show setup code (busyAction p) (recoveryCodes p).
Definition set_busy (b : bool) (p : page) : page := Page (mfa p) (loadingMfa p) (mfaError p) (showTotpModal p) (totpSetup p) (totpCode p) b (recoveryCodes p).
Definition set_codes (v : jsval) (p : page) : page := Page (mfa p) (loadingMfa p) (mfaError p) (showTotpModal p) (totpSetup p) (totpCode p) (busyAction p) v.

(** [ElvishWebAuthn], where the browser has it. *)
Record authenticator := Authenticator { getAssertion : jsval -> res jsval; createCredential : jsval -> res jsval }.

(** ** What is drawn *)

Inductive button := AddApp | AddKey | RemoveApp (id : jsval) | RemoveKey (id : jsval) | RegenerateCodes.
(** Each button that is drawn, and whether it can be pressed. *)
Definition drawn (p : page) : list (button * bool) :=
  if loadingMfa p || negb (truthy (mfa p)) then []
  else
    let on := truthy (prop (mfa p) "enabled") in
    let factors k := map (fun f => prop f "id") (to_list (prop (mfa p) k)) in
    let idle := negb (busyAction p) in
    (if on then map (fun i => (RemoveApp i, idle)) (factors "totp_factors") ++ map (fun i => (RemoveKey i, idle)) (factors "webauthn_factors") else []) ++
    [(AddApp, idle); (AddKey, idle); (RegenerateCodes, idle && on)].
(** The window of the recovery codes, and the codes in it. *)
Definition shown_codes (p : page) : list jsval := to_list (recoveryCodes p).
Definition codes_window (p : page) : bool := negb (length (shown_codes p) =? 0).

Section Steps.
Variable origin : string.
Variable webauthn : option authenticator.
Variable confirmed : bool.              (** [window.confirm] *)
Variable prompted : option string.      (** [window.prompt] *)
Local Abbreviation M := (Handlers.M page).

Definition runWithFreshTwoFactor {A} (action : prog A) (status : option jsval) : prog A :=
  Danger.runWithFreshTwoFactor origin confirmed prompted (getAssertion <$> webauthn) action status.

Definition loadMFA : M unit :=
  _ <== modify (set_loading true) ;;;
  hfinally
    (hcatch
       (info <== await (Danger.getTwoFactorInfo origin) ;;;
        _ <== modify (set_mfa info) ;;;
        modify (set_mfaError ""))
       (fun m => modify (set_mfaError (str_or m "Failed to load 2FA status"))))
    (set_loading false).

(** The steps the handlers share: they are busy, they say why they failed, and they end. *)
Definition guarded (fallback : string) (x : M unit) : M unit :=
  hfinally (hcatch x (fun m => modify (set_mfaError (str_or m fallback)))) (set_busy false).
(** [setRecoveryCodes(Array.isArray(result.recovery_codes) ? result.recovery_codes : null)] *)
Definition show_codes (result : jsval) : M unit :=
  codes <== await (lift (getp result "recovery_codes")) ;;;
  modify (set_codes (match codes with JArr l => JArr l | _ => JNull end)).

Definition handleBeginTOTP : M unit :=
  _ <== modify (fun p => set_mfaError "" (set_busy true p)) ;;;
  guarded "Could not start authenticator setup"
    (setup <== await (beginTOTPSetup origin (JStr "Authenticator app")) ;;;
     modify (set_totp true setup "")).

Definition handleConfirmTOTP (s0 : page) : M unit :=
  if negb (truthy (totpSetup s0)) then hret tt
  else
    _ <== modify (set_busy true) ;;;
    guarded "Could not confirm authenticator app"
      (result <== await (id <- lift (getp (totpSetup s0) "setup_id") ;; confirmTOTPSetup origin id (JStr (totpCode s0))) ;;;
       _ <== show_codes result ;;;
       _ <== modify (set_totp false JNull "") ;;;
       loadMFA).

Definition register (w : authenticator) : prog jsval :=
  begin <- beginWebAuthnRegistration origin ;;
  options <- lift (getp begin "options") ;;
  credential <- lift (createCredential w options) ;;
  id <- lift (getp begin "challenge_id") ;;
  finishWebAuthnRegistration origin id credential (JStr "Security key").
Definition handleRegisterSecurityKey : M unit :=
  match webauthn with
  | None => modify (set_mfaError "This browser does not support security keys.")
  | Some w =>
      _ <== modify (fun p => set_mfaError "" (set_busy true p)) ;;;
      guarded "Could not register security key"
        (result <== await (register w) ;;;
         _ <== show_codes result ;;;
         loadMFA)
  end.

Definition handleRegenerateRecovery (s0 : page) : M unit :=
  _ <== modify (fun p => set_mfaError "" (set_busy true p)) ;;;
  guarded "Could not regenerate recovery codes"
    (result <== await (runWithFreshTwoFactor (regenerateRecoveryCodes origin) (Some (mfa s0))) ;;;
     _ <== show_codes result ;;;
     loadMFA).

(** [sure]: the user confirms the removal. *)
Definition handleDeleteTOTP (sure : bool) (id : string) (s0 : page) : M unit :=
  if negb sure then hret tt
  else
    _ <== modify (set_busy true) ;;;
    guarded "Could not remove authenticator app"
      (_ <== await (runWithFreshTwoFactor (deleteTOTPFactor origin id) (Some (mfa s0))) ;;; loadMFA).
Definition handleDeleteSecurityKey (sure : bool) (id : string) (s0 : page) : M unit :=
  if negb sure then hret tt
  else
    _ <== modify (set_busy true) ;;;
    guarded "Could not remove security key"
      (_ <== await (runWithFreshTwoFactor (deleteWebAuthnCredential origin id) (Some (mfa s0))) ;;; loadMFA).

Inductive action := Load | Begin | Confirm | Register | Regenerate | DeleteTOTP (sure : bool) (id : string) | DeleteKey (sure : bool) (id : string).
Definition perform (a : action) (s0 : page) : M unit :=
  match a with
  | Load => loadMFA
  | Begin => handleBeginTOTP
  | Confirm => handleConfirmTOTP s0
  | Register => handleRegisterSecurityKey
  | Regenerate => handleRegenerateRecovery s0
  | DeleteTOTP sure id => handleDeleteTOTP sure id s0
  | DeleteKey sure id => handleDeleteSecurityKey sure id s0
  end.

(** ** The password

    An attempt after the second factor draws new random bytes; the same ones stand for them. *)

Record form := Form { currentPassword : string; newPassword : string; confirmPassword : string; saving : bool; formError : string; closed : bool }.
Definition set_saving (b : bool) (f : form) : form := Form (currentPassword f) (newPassword f) (confirmPassword f) b (formError f) (closed f).
Definition set_formError (m : string) (f : form) : form := Form (currentPassword f) (newPassword f) (confirmPassword f) (saving f) m (closed f).
Definition close (f : form) : form := Form (currentPassword f) (newPassword f) (confirmPassword f) (saving f) (formError f) true.

Section Password.
Context `{Keygen.WebCrypto}.
Variable JSON_parse : string -> option jsval.
Variable digest : string -> string.
Variable scripts : Accounts.loaded.
Variable rnd : Accounts.password_randoms.

Definition change_request (f0 : form) : prog jsval := Accounts.changePassword JSON_parse digest origin scripts rnd (currentPassword f0) (newPassword f0).
Definition handleSubmit (f0 : form) : Handlers.M form unit :=
  if negb (newPassword f0 =s? confirmPassword f0) then modify (set_formError "Passwords do not match")
  else if String.length (newPassword f0) <? 10 then modify (set_formError "Password must be at least 10 characters")
  else
    _ <== modify (fun f => set_formError "" (set_saving true f)) ;;;
    hfinally
      (hcatch
         (_ <== await (runWithFreshTwoFactor (change_request f0) None) ;;; modify close)
         (fun m => modify (set_formError (str_or m "Failed to change password"))))
      (set_saving false).
End Password.
End Steps.

(** ** Against the server *)


Section Facts.
Context `{uu : Uuid}.
Variable valid_totp : Z -> string -> string -> bool.
Variable sha256_hex : string -> string.
Variable BeginRegistration : list jsval -> string -> jsval * jsval.
Variable FinishRegistration : list jsval -> jsval -> jsval -> option (string * jsval).
Variable BeginLogin : list jsval -> string -> option (jsval * jsval).
Variable FinishLogin : list jsval -> jsval -> jsval -> option (string * jsval).
Variable origin : string.
Variable webauthn : option authenticator.
Variable confirmed : bool.
Variable prompted : option string.
Local Abbreviation respond := (respond valid_totp sha256_hex BeginRegistration FinishRegistration BeginLogin FinishLogin origin).
Local Abbreviation perform := (perform origin webauthn confirmed prompted).
Local Abbreviation gate := (runWithFreshTwoFactor origin webauthn confirmed prompted).
Local Abbreviation HashRecoveryCode := (HashRecoveryCode sha256_hex).

Definition in_sync (p : page) (sv : server) : Prop := mfa p = mfaFactorSummary sv.

(** *** Loading *)

Lemma run_info sv : fates sv = [] -> run respond sv (Danger.getTwoFactorInfo origin) = (sv, Ok (mfaFactorSummary sv)).
Proof. intros Hf. unfold Danger.getTwoFactorInfo. rewrite run_bind, run_status, answered_in_full by done. reflexivity. Qed.
Lemma load_runs sv p : fates sv = [] ->
  run respond sv (loadMFA origin p) = (sv, Ok (set_loading false (set_mfaError "" (set_mfa (mfaFactorSummary sv) (set_loading true p))), Ok tt)).
Proof.
  intros Hf. unfold loadMFA. erewrite run_hbind by reflexivity. rewrite run_hfinally, run_hcatch. erewrite run_hbind by (apply run_await, run_info, Hf).
  by erewrite run_hbind by reflexivity.
Qed.
Lemma info_outcome sv : exists sv' r, run respond sv (Danger.getTwoFactorInfo origin) = (sv', r) /\ (forall j, r = Ok j -> j = mfaFactorSummary sv').
Proof.
  unfold Danger.getTwoFactorInfo. rewrite run_bind, run_status. unfold outcome, Serving.outcome, Serving.next_fate.
  destruct (fates sv) as [|[] rest]; eexists _, _; (split; [reflexivity|]); intros j Hj; [by injection Hj as <- | by injection Hj as <- | discriminate Hj | discriminate Hj].
Qed.

(** What ends with the factors of the server on the page, or with an error. *)
Definition settles (x : Handlers.M page unit) : Prop :=
  forall sv p, exists sv' p' r, run respond sv (x p) = (sv', Ok (p', r)) /\ (loadingMfa p = false -> loadingMfa p' = false) /\
    (r = Ok tt -> mfaError p' = "" -> in_sync p' sv').
Lemma load_ends sv p : exists sv' p', run respond sv (loadMFA origin p) = (sv', Ok (p', Ok tt)) /\ loadingMfa p' = false /\ busyAction p' = busyAction p /\
  (mfaError p' = "" -> in_sync p' sv').
Proof.
  destruct (info_outcome sv) as (sv' & [j|m] & Hr & Hj); unfold loadMFA; erewrite run_hbind by reflexivity; rewrite run_hfinally, run_hcatch.
  - erewrite run_hbind by (apply run_await, Hr). erewrite run_hbind by reflexivity. eexists _, _. split; [reflexivity|]. split_and!; [done..|]. intros _. by apply Hj.
  - erewrite run_hbind_throw by (apply run_await_res, Hr). eexists _, _. split; [reflexivity|]. split_and!; [done..|]. intros He. exfalso. revert He. by apply str_or_nonempty.
Qed.
Lemma settles_load : settles (loadMFA origin).
Proof. intros sv p. destruct (load_ends sv p) as (sv' & p' & Hr & Hl & _ & Hs). exists sv', p', (Ok tt). by split_and!. Qed.
Lemma settles_await {A} (req : prog A) k : (forall a, settles (k a)) -> settles (hbind (await req) k).
Proof.
  intros Hk sv p. destruct (run respond sv req) as [sv1 [a|m] ] eqn:E.
  - erewrite run_hbind by (apply run_await, E). apply Hk.
  - erewrite run_hbind_throw by (apply run_await_res, E). by eexists _, _, (Throw m).
Qed.
Lemma settles_modify f k : (forall p, loadingMfa (f p) = loadingMfa p) -> settles k -> settles (hbind (modify f) (fun _ => k)).
Proof. intros Hf Hk sv p. erewrite run_hbind by reflexivity. destruct (Hk sv (f p)) as (sv' & p' & r & Hr & Hl & Hs). rewrite Hf in Hl. by exists sv', p', r. Qed.
Lemma settles_codes j k : settles k -> settles (hbind (show_codes j) (fun _ => k)).
Proof.
  intros Hk sv p. destruct (getp j "recovery_codes") as [codes|m] eqn:E.
  - assert (run respond sv (show_codes j p) = (sv, Ok (set_codes (match codes with JArr l => JArr l | _ => JNull end) p, Ok tt))) as Hs.
    { unfold show_codes. by erewrite run_hbind by (apply run_await; rewrite E; reflexivity). }
    erewrite run_hbind by exact Hs. destruct (Hk sv (set_codes (match codes with JArr l => JArr l | _ => JNull end) p)) as (sv' & p' & r & Hr & Hl & Hi). by exists sv', p', r.
  - assert (run respond sv (show_codes j p) = (sv, Ok (p, Throw m))) as Hs by (unfold show_codes; apply run_hbind_throw, run_await_res; by rewrite E).
    erewrite run_hbind_throw by exact Hs. by eexists _, _, (Throw m).
Qed.
Lemma settles_guarded fb x sv p : fb <> "" -> settles x -> loadingMfa p = false ->
  exists sv' p', run respond sv (guarded fb x p) = (sv', Ok (p', Ok tt)) /\ loadingMfa p' = false /\ busyAction p' = false /\ (mfaError p' = "" -> in_sync p' sv').
Proof.
  intros Hfb Hx Hl. destruct (Hx sv p) as (sv' & p' & [[]|m] & Hr & Hl' & Hs); unfold guarded; rewrite run_hfinally, run_hcatch, Hr; eexists _, _; (split; [reflexivity|]).
  - split_and!; [by apply Hl' | done |]. by apply Hs.
  - split_and!; [by apply Hl' | done |]. intros He. exfalso. revert He. by apply str_or_nonempty.
Qed.

Lemma begin_keeps body s : mfaFactorSummary (apiAuth2FATOTPBegin body s).1 = mfaFactorSummary s.
Proof. unfold apiAuth2FATOTPBegin. destruct (requireRecentMFA s); [done|]. by destruct (match body with None => _ | Some b => _ end). Qed.
Lemma begin_outcome read sv : exists sv' r, outcome (apiAuth2FATOTPBegin (Some (JObj [("label", JStr "Authenticator app")]))) read sv = (sv', r) /\ mfaFactorSummary sv' = mfaFactorSummary sv.
Proof.
  unfold outcome, Serving.outcome, Serving.next_fate. set (b := Some _). destruct (fates sv) as [|[] rest]; cbn [fst snd].
  - destruct (apiAuth2FATOTPBegin b sv) as [sv' r] eqn:E. eexists _, _. split; [reflexivity|]. rewrite <- (begin_keeps b sv). by rewrite E.
  - destruct (apiAuth2FATOTPBegin b (with_rest rest sv)) as [sv' r] eqn:E. eexists _, _. split; [reflexivity|]. transitivity (mfaFactorSummary (with_rest rest sv)); [|done].
    rewrite <- (begin_keeps b (with_rest rest sv)). by rewrite E.
  - by eexists _, _.
  - eexists _, _. split; [reflexivity|]. exact (begin_keeps b (with_rest rest sv)).
Qed.

(** C32: the page shows the factors of the server: when it is loaded, or a button is pressed on
    a page that is up to date, then whatever the server answers and the user types, the
    handler ends, nothing is busy, and the factors that are shown are those of the server now,
    or there is a message. *)
Theorem page_follows_factors a p sv :
  Lost ∉ fates sv -> busyAction p = false -> a = Load \/ (loadingMfa p = false /\ in_sync p sv) ->
  exists sv' p', run respond sv (perform a p p) = (sv', Ok (p', Ok tt)) /\ loadingMfa p' = false /\ busyAction p' = false /\
    (mfaError p' = "" -> in_sync p' sv').
Proof.
  intros _ Hb [->|[Hl Hs] ]; [destruct (load_ends sv p) as (sv' & p' & Hr & ? & Hb' & ?); exists sv', p'; rewrite Hb' by done; by split_and!|].
  destruct a as [| | | | |[] id|[] id]; cbn [SecondFactor.perform];
    unfold handleBeginTOTP, handleConfirmTOTP, handleRegisterSecurityKey, handleRegenerateRecovery, handleDeleteTOTP, handleDeleteSecurityKey; cbn [negb];
    try (by exists sv, p).
  - destruct (load_ends sv p) as (sv' & p' & Hr & ? & Hb' & ?). exists sv', p'. rewrite Hb'. by split_and!.
  - erewrite run_hbind by reflexivity. unfold guarded. rewrite run_hfinally, run_hcatch.
    destruct (begin_outcome (body_or_error "totp begin") sv) as (sv' & [j|m] & Ho & Hk).
    + erewrite run_hbind by (apply run_await; rewrite run_begin; exact Ho). eexists _, _. split; [reflexivity|]. split_and!; [done..|]. intros _. unfold in_sync. by rewrite Hk.
    + erewrite run_hbind_throw by (apply run_await_res; rewrite run_begin; exact Ho). eexists _, _. split; [reflexivity|]. split_and!; [done..|].
      intros He. exfalso. revert He. by apply str_or_nonempty.
  - destruct (negb _); [by exists sv, p|]. erewrite run_hbind by reflexivity. apply settles_guarded; [done | | done]. apply settles_await. intros j. apply settles_codes.
    apply settles_modify; [done|]. apply settles_load.
  - destruct webauthn; [|by eexists _, _]. erewrite run_hbind by reflexivity. apply settles_guarded; [done | | done]. apply settles_await. intros j. apply settles_codes, settles_load.
  - erewrite run_hbind by reflexivity. apply settles_guarded; [done | | done]. apply settles_await. intros j. apply settles_codes, settles_load.
  - erewrite run_hbind by reflexivity. apply settles_guarded; [done | | done]. apply settles_await. intros j. apply settles_load.
  - erewrite run_hbind by reflexivity. apply settles_guarded; [done | | done]. apply settles_await. intros j. apply settles_load.
Qed.

(** *** The gate *)

(** What the user types is a code the server takes. *)
Definition right_code (c : string) (sv : server) : bool :=
  let n := trim c in
  negb (n =s? "") && (if Danger.six_digits n then verifyTOTPCode valid_totp n sv else str_mem (trim (HashRecoveryCode n)) (codes sv)).
(** The server that has taken it: a recovery code is used up. *)
Definition unlocked (c : string) (sv : server) : server :=
  let n := trim c in
  markSessionMFAVerified (token sv)
    (if Danger.six_digits n then sv else with_codes (List.filter (fun x => negb (x =s? trim (HashRecoveryCode n))) (codes sv)) sv).
(** The gate asks for a code, and not for a security key. *)
Definition asks_for_code (sv : server) : Prop := webauthn = None \/ confirmed = false \/ str_mem "webauthn" (mfaMethodsForStatus sv) = false.

Lemma verify_totp_of c s : apiAuth2FAVerifyTOTP valid_totp (Some (JObj [("code", JStr c)])) s =
  if verifyTOTPCode valid_totp c s then (markSessionMFAVerified (token s) s, answer 200 (JObj [("ok", JBool true)])) else (s, refusal 401 "invalid authenticator code").
Proof. reflexivity. Qed.
Lemma verify_recovery_of c s : apiAuth2FAVerifyRecovery sha256_hex (Some (JObj [("code", JStr c)])) s =
  let h := trim (HashRecoveryCode c) in
  if str_mem h (codes s)
  then
    let s := markSessionMFAVerified (token s) (with_codes (List.filter (fun x => negb (x =s? h)) (codes s)) s) in
    (s, answer 200 (JObj [("ok", JBool true); ("recovery_remaining", JNum (Z.of_nat (length (codes s))))]))
  else (s, refusal 401 "invalid recovery code").
Proof. reflexivity. Qed.

Lemma code_opens c sv : fates sv = [] -> right_code c sv = true ->
  exists j, run respond sv (Danger.verify_code origin (Some c)) = (unlocked c sv, Ok j).
Proof.
  intros Hf [Hn%negb_true_iff Hc]%andb_true_iff. unfold Danger.verify_code, unlocked. rewrite Hn. destruct (Danger.six_digits (trim c)).
  - eexists. rewrite run_verify_totp, answered_in_full, verify_totp_of, Hc by done. reflexivity.
  - eexists. rewrite run_verify_recovery, answered_in_full, verify_recovery_of by done. cbv zeta. rewrite Hc. reflexivity.
Qed.

Lemma unlocked_facts c sv : (1000 <= now sv)%Z -> let s := unlocked c sv in
  recent s = true /\ fates s = fates sv /\ enabled s = enabled sv /\ bytes s = bytes sv /\ totp s = totp sv /\ keys s = keys sv /\ now s = now sv /\ token s = token sv.
Proof.
  intros Hn s.
  assert (forall s0, now s0 = now sv -> recent (markSessionMFAVerified (token s0) s0) = true) as Hr.
  { intros s0 H0. unfold markSessionMFAVerified, recent. rewrite String.eqb_refl. cbn [with_session verified_at now]. rewrite H0, andb_true_iff, negb_true_iff, Z.eqb_neq, Z.leb_le. unfold TTL.
    Z.to_euclidean_division_equations; lia. }
  assert (token (with_codes (List.filter (fun x => negb (x =s? trim (HashRecoveryCode (trim c)))) (codes sv)) sv) = token sv) as Ht by done.
  unfold s, unlocked. split; [destruct (Danger.six_digits (trim c)); [by apply Hr | rewrite <- Ht; by apply Hr]|].
  destruct (Danger.six_digits (trim c)); unfold markSessionMFAVerified; rewrite ?Ht, String.eqb_refl; by split_and!.
Qed.

Lemma run_tried {A} (x : prog A) h sv : run respond sv (try_catch x h) = match run respond sv x with (sv', Throw m) => run respond sv' (h m) | p => p end.
Proof. revert sv. induction x as [a|m|rq k IH]; intros sv; cbn [try_catch run]; [done..|]. destruct (respond sv rq) as [s1 r]. apply IH. Qed.

(** A request that is only carried out with a recent second factor. *)
Definition guards (h : server -> server * response) : Prop := forall s r, requireRecentMFA s = Some r -> h s = (s, r).
Lemma stale_answer s : enabled s = true -> recent s = false -> exists ms, requireRecentMFA s = Some (answer 428 (JObj [("error", JStr STALE); ("mfa_required", JBool true); ("methods", ms)])).
Proof. intros He Hr. unfold requireRecentMFA. rewrite He, Hr. by eexists. Qed.
Lemma stale_refused h label sv : guards h -> fates sv = [] -> enabled sv = true -> recent sv = false -> outcome h (body_or_error label) sv = (sv, Throw STALE).
Proof. intros Hg Hf He Hr. destruct (stale_answer sv He Hr) as [ms Hm]. rewrite answered_in_full, (Hg _ _ Hm) by done. reflexivity. Qed.

Lemma includes_methods m l : SignIn.includes_method m (map JStr l) = str_mem m l.
Proof. unfold SignIn.includes_method. induction l as [|x l IH]; [done|]. cbn [map existsb]. rewrite IH. unfold str_mem. cbn. by rewrite (String.eqb_sym x m). Qed.
(** The gate comes down to the code, and to a look at the factors. *)
Lemma asked c sv : enabled sv = true -> asks_for_code sv -> prompted = Some c ->
  run respond sv (Danger.ensureFreshTwoFactor origin confirmed prompted (getAssertion <$> webauthn) (Some (mfaFactorSummary sv))) =
  match run respond sv (Danger.verify_code origin (Some c)) with
  | (sv', Ok _) => run respond sv' (Danger.getTwoFactorInfo origin)
  | (sv', Throw m) => (sv', Throw m)
  end.
Proof.
  intros He Ha Hp. unfold Danger.ensureFreshTwoFactor. cbn [truthy mfaFactorSummary]. rewrite run_bind. cbn [run].
  change (prop (mfaFactorSummary sv) "enabled") with (JBool (enabled sv)). rewrite He. change (negb (truthy (mfaFactorSummary sv) && truthy (JBool true))) with false. cbn iota.
  change (to_list (prop (mfaFactorSummary sv) "methods")) with (map JStr (mfaMethodsForStatus sv)). rewrite includes_methods, Hp, run_bind.
  destruct Ha as [Ha | [Ha | Ha] ]; rewrite Ha; [cbn [fmap option_fmap option_map] | rewrite andb_false_r; destruct webauthn; cbn [fmap option_fmap option_map] | cbn [andb]; destruct webauthn; cbn [fmap option_fmap option_map] ];
    by destruct (run respond sv (Danger.verify_code origin (Some c))) as [? []].
Qed.
Lemma fresh_by_code c sv : fates sv = [] -> enabled sv = true -> asks_for_code sv -> prompted = Some c -> right_code c sv = true -> (1000 <= now sv)%Z ->
  run respond sv (Danger.ensureFreshTwoFactor origin confirmed prompted (getAssertion <$> webauthn) (Some (mfaFactorSummary sv))) = (unlocked c sv, Ok (mfaFactorSummary (unlocked c sv))).
Proof.
  intros Hf He Ha Hp Hc Hn. rewrite (asked c) by done. destruct (code_opens c sv Hf Hc) as [j ->]. apply run_info.
  destruct (unlocked_facts c sv Hn) as (_ & Hf' & _). exact (eq_trans Hf' Hf).
Qed.
Lemma gate_opens {req h label c} sv : (forall s, run respond s req = outcome h (body_or_error label) s) -> guards h ->
  fates sv = [] -> enabled sv = true -> recent sv = false -> asks_for_code sv -> prompted = Some c -> right_code c sv = true -> (1000 <= now sv)%Z ->
  run respond sv (gate req (Some (mfaFactorSummary sv))) = outcome h (body_or_error label) (unlocked c sv).
Proof.
  intros Hq Hg Hf He Hr Ha Hp Hc Hn. unfold runWithFreshTwoFactor, Danger.runWithFreshTwoFactor. rewrite run_tried, Hq, stale_refused by done.
  change (includes STALE Danger.stale) with true. cbn [negb]. by rewrite run_bind, (fresh_by_code c) by done.
Qed.
Lemma gate_passes {req h label} sv sv' j : (forall s, run respond s req = outcome h (body_or_error label) s) -> outcome h (body_or_error label) sv = (sv', Ok j) ->
  run respond sv (gate req (Some (mfaFactorSummary sv))) = (sv', Ok j).
Proof. intros Hq Ho. unfold runWithFreshTwoFactor, Danger.runWithFreshTwoFactor. by rewrite run_tried, Hq, Ho. Qed.

(** *** Recovery codes *)

(** SHA-256 in hex is a text without spaces. *)
Definition plain_hash : Prop := forall s, trim (sha256_hex s) = sha256_hex s /\ sha256_hex s <> "".

Lemma hash_trim c : plain_hash -> trim (HashRecoveryCode c) = HashRecoveryCode c.
Proof. intros Hh. exact (proj1 (Hh _)). Qed.

Lemma replaced cs s : plain_hash -> codes (ReplaceRecoveryCodes (map HashRecoveryCode cs) s) = map HashRecoveryCode cs.
Proof.
  intros Hh. unfold ReplaceRecoveryCodes. cbn [with_codes with_factors codes]. induction cs as [|c cs IH]; [done|]. pose proof (hash_trim c Hh) as Ht.
  assert ((HashRecoveryCode c =s? "") = false) as Hn by exact (proj2 (String.eqb_neq _ _) (proj2 (Hh _))).
  cbn [map List.filter]. rewrite Ht, Hn. cbn [negb map]. by rewrite Ht, IH.
Qed.
(** A code that was made is asked for as one, and not as the digits of an app. *)
Lemma recovery_code_typed b : String.length b = 9 -> trim (recovery_code b) = recovery_code b /\ Danger.six_digits (recovery_code b) = false /\ (recovery_code b =s? "") = false.
Proof.
  intros [Hc Hl]%recovery_code_chars.
  assert (all_chars (fun c => negb (is_ws c)) (recovery_code b) = true) as Hw by (eapply all_chars_mono; [|exact Hc]; by_char).
  split; [by apply FilterEditor.trim_no_ws|]. unfold Danger.six_digits. rewrite filter_chars_id, Hl by done. split; [done|]. apply String.eqb_neq. intros E. by rewrite E in Hl.
Qed.
Lemma made_code_right c b sv : plain_hash -> String.length b = 9 -> c = recovery_code b -> HashRecoveryCode c ∈ codes sv -> right_code c sv = true.
Proof.
  intros Hh Hb -> Hin. destruct (recovery_code_typed b Hb) as (Ht & Hs & He). unfold right_code. rewrite Ht, Hs, He, hash_trim by done. by apply str_mem_spec.
Qed.

(** A code works once. *)
Lemma code_works_once c b sv : plain_hash -> String.length b = 9 -> c = recovery_code b -> fates sv = [] -> (1000 <= now sv)%Z -> HashRecoveryCode c ∈ codes sv ->
  let verify := Danger.verify_code origin (Some c) in
  let sv' := unlocked c sv in
  (exists j, run respond sv verify = (sv', Ok j)) /\ recent sv' = true /\ run respond sv' verify = (sv', Throw "invalid recovery code") /\
  codes sv' = List.filter (fun x => negb (x =s? HashRecoveryCode c)) (codes sv).
Proof.
  intros Hh Hb Hc Hf Hn Hin verify sv'. pose proof (made_code_right c b sv Hh Hb Hc Hin) as Hr. destruct (recovery_code_typed b Hb) as (Ht & Hs & He). rewrite <- Hc in Ht, Hs, He.
  destruct (unlocked_facts c sv Hn) as (Hrec & Hf' & _).
  assert (codes sv' = List.filter (fun x => negb (x =s? HashRecoveryCode c)) (codes sv)) as Hcs.
  { unfold sv', unlocked. rewrite Ht, Hs, hash_trim by done. unfold markSessionMFAVerified. match goal with |- codes (if ?b then _ else _) = _ => by destruct b end. }
  split_and!; [by apply code_opens | done | | done]. unfold verify, Danger.verify_code. rewrite Ht, He, Hs.
  rewrite run_verify_recovery, answered_in_full by (exact (eq_trans Hf' Hf)). rewrite verify_recovery_of. cbv zeta. rewrite hash_trim by done.
  assert (str_mem (HashRecoveryCode c) (codes sv') = false) as ->; [|reflexivity].
  apply str_mem_false. rewrite Hcs, list_elem_of_In, filter_In, String.eqb_refl. by intros [_ ?].
Qed.

Lemma guards_regenerate : guards (apiAuth2FARecoveryRegenerate sha256_hex).
Proof. intros s r Hr. unfold apiAuth2FARecoveryRegenerate. by rewrite Hr. Qed.
Lemma regenerate_answered sv cs rest : fates sv = [] -> enabled sv = true -> recent sv = true -> generate 8 [] (bytes sv) = Some (cs, rest) -> plain_hash ->
  let sv' := (apiAuth2FARecoveryRegenerate sha256_hex sv).1 in
  outcome (apiAuth2FARecoveryRegenerate sha256_hex) (body_or_error "recovery regenerate") sv = (sv', Ok (JObj [("ok", JBool true); ("recovery_codes", JArr (map JStr cs))])) /\
  codes sv' = map HashRecoveryCode cs /\ fates sv' = [] /\ now sv' = now sv.
Proof.
  intros Hf He Hr Hg Hh sv'. rewrite answered_in_full by done. unfold sv', apiAuth2FARecoveryRegenerate, requireRecentMFA, new_codes. rewrite He, Hr, Hg. cbn [negb orb fst snd].
  split; [reflexivity|]. split; [by apply replaced | done].
Qed.
(** The server the new codes are made on: the code that was asked for is taken first. *)
Lemma regenerates p sv c : fates sv = [] -> in_sync p sv -> enabled sv = true -> (1000 <= now sv)%Z ->
  recent sv = true \/ asks_for_code sv /\ prompted = Some c /\ right_code c sv = true ->
  exists sv1, recent sv1 = true /\ fates sv1 = [] /\ enabled sv1 = true /\ bytes sv1 = bytes sv /\ now sv1 = now sv /\
    forall sv' j, outcome (apiAuth2FARecoveryRegenerate sha256_hex) (body_or_error "recovery regenerate") sv1 = (sv', Ok j) ->
      run respond sv (gate (regenerateRecoveryCodes origin) (Some (mfa p))) = (sv', Ok j).
Proof.
  intros Hf Hs He Hn Hr. rewrite Hs. destruct (recent sv) eqn:E.
  - exists sv. split_and!; [done..|]. intros sv' j Ho. eapply gate_passes; [|exact Ho]. intros s. apply run_regenerate.
  - destruct Hr as [?|(Ha & Hp & Hc)]; [done|]. destruct (unlocked_facts c sv Hn) as (H1 & H2 & H3 & H4 & _ & _ & H5 & _). exists (unlocked c sv). split_and!; [done | congruence | congruence | done | done |].
    intros sv' j Ho. rewrite <- Ho. apply gate_opens; try done; [intros s; apply run_regenerate | apply guards_regenerate].
Qed.

(** C31: new recovery codes work: when the second factor is recent, or the user types a right
    code when asked, the page shows eight codes, no two alike, and they are those of the
    server, the old ones gone. Each of them, typed when the page asks for a code, is taken
    once and no second time, and the others stay. *)
Theorem regenerated_codes_work p sv c cs rest :
  plain_hash -> fates sv = [] -> in_sync p sv -> enabled sv = true -> (1000 <= now sv)%Z ->
  Forall (fun b => String.length b = 9) (bytes sv) -> generate 8 [] (bytes sv) = Some (cs, rest) ->
  recent sv = true \/ asks_for_code sv /\ prompted = Some c /\ right_code c sv = true ->
  exists sv' p', run respond sv (perform Regenerate p p) = (sv', Ok (p', Ok tt)) /\ shown_codes p' = map JStr cs /\ mfaError p' = "" /\ in_sync p' sv' /\
    length cs = 8 /\ NoDup cs /\ codes sv' = map HashRecoveryCode cs /\
    forall x, x ∈ cs -> exists sv'' j,
      run respond sv' (Danger.verify_code origin (Some x)) = (sv'', Ok j) /\ recent sv'' = true /\
      run respond sv'' (Danger.verify_code origin (Some x)) = (sv'', Throw "invalid recovery code") /\
      forall y, y ∈ cs -> HashRecoveryCode y <> HashRecoveryCode x -> right_code y sv'' = true.
Proof.
  intros Hh Hf Hs He Hn Hb Hg Hr. destruct (regenerates p sv c Hf Hs He Hn Hr) as (sv1 & R1 & F1 & E1 & B1 & N1 & Hgate). rewrite <- B1 in Hg, Hb.
  destruct (regenerate_answered sv1 cs rest F1 E1 R1 Hg Hh) as (Ho & Hcodes & Hf' & Hn'). cbv zeta in *. set (sv' := (apiAuth2FARecoveryRegenerate sha256_hex sv1).1) in *.
  destruct (generate_spec 8 (bytes sv1) [] cs rest) as (Hlen & Hd & Hmade); [done | constructor | cbn; lia | constructor | done |].
  eexists sv', _. split.
  { cbn [SecondFactor.perform]. unfold handleRegenerateRecovery, guarded. erewrite run_hbind by reflexivity. rewrite run_hfinally, run_hcatch.
    erewrite run_hbind by (apply run_await, Hgate, Ho). erewrite run_hbind by reflexivity. rewrite load_runs by done. reflexivity. }
  split_and!; [done..|]. intros x Hx. destruct (proj1 (Forall_forall _ _) Hmade x Hx) as (b & Ex & Hlb).
  assert (forall y, y ∈ cs -> HashRecoveryCode y ∈ codes sv') as Hin by (intros y Hy; rewrite Hcodes; by apply list_elem_of_In, in_map, list_elem_of_In).
  destruct (code_works_once x b sv' Hh Hlb Ex Hf') as ((j & Hj) & Hrec & Hagain & Hleft); [congruence | by apply Hin |]. exists (unlocked x sv'), j. split_and!; [done..|].
  intros y Hy Hne. destruct (proj1 (Forall_forall _ _) Hmade y Hy) as (b' & Ey & Hlb'). eapply made_code_right; [done | exact Hlb' | exact Ey |].
  rewrite Hleft. apply list_elem_of_In, filter_In. split; [by apply list_elem_of_In, Hin|]. by apply negb_true_iff, String.eqb_neq.
Qed.

(** *** Where it fails *)

Lemma guards_begin body : guards (apiAuth2FATOTPBegin body).
Proof. intros s r Hr. unfold apiAuth2FATOTPBegin. by rewrite Hr. Qed.
Lemma guards_register : guards (apiAuth2FAWebAuthnRegisterBegin BeginRegistration).
Proof. intros s r Hr. unfold apiAuth2FAWebAuthnRegisterBegin. by rewrite Hr. Qed.
Lemma add_buttons p sv : in_sync p sv -> loadingMfa p = false -> busyAction p = false -> (AddApp, true) ∈ drawn p /\ (AddKey, true) ∈ drawn p.
Proof.
  intros Hs Hl Hb. unfold drawn. rewrite Hs, Hl, Hb. cbn [orb negb truthy mfaFactorSummary]. rewrite !elem_of_app.
  split; right; [apply list_elem_of_here | apply list_elem_of_further, list_elem_of_here].
Qed.

(** a second factor cannot be added when it was not used of late: the buttons that add one are
    drawn, but the server asks for a recent second factor, the page does not ask the user for
    it, whatever the user could type, and shows what the server said. *)
Theorem added_factor_is_refused a p sv :
  fates sv = [] -> in_sync p sv -> enabled sv = true -> recent sv = false -> loadingMfa p = false -> busyAction p = false ->
  a = Begin \/ (a = Register /\ webauthn <> None) ->
  exists p', run respond sv (perform a p p) = (sv, Ok (p', Ok tt)) /\ mfaError p' = STALE /\ in_sync p' sv /\
    showTotpModal p' = showTotpModal p /\ (AddApp, true) ∈ drawn p' /\ (AddKey, true) ∈ drawn p'.
Proof.
  intros Hf Hs He Hr Hl Hb Ha.
  assert (forall A (req : prog A) k fb, run respond sv req = (sv, Throw STALE) ->
    run respond sv (guarded fb (hbind (await req) k) (set_mfaError "" (set_busy true p))) =
      (sv, Ok (set_busy false (set_mfaError STALE (set_mfaError "" (set_busy true p))), Ok tt))) as Hg.
  { intros A req k fb Hq. unfold guarded. rewrite run_hfinally, run_hcatch. by erewrite run_hbind_throw by (apply run_await_res, Hq). }
  exists (set_busy false (set_mfaError STALE (set_mfaError "" (set_busy true p)))).
  split; [|split_and!; [done..| |]; by apply (add_buttons _ sv)].
  destruct Ha as [->|[-> Hw] ]; cbn [SecondFactor.perform].
  - unfold handleBeginTOTP. erewrite run_hbind by reflexivity. apply Hg. rewrite run_begin. apply stale_refused; try done. apply guards_begin.
  - unfold handleRegisterSecurityKey. destruct webauthn as [w|]; [|done]. erewrite run_hbind by reflexivity. apply Hg. unfold register.
    rewrite run_bind, run_register_begin, stale_refused by (done || apply guards_register). done.
Qed.

Lemma guards_delete id : guards (apiAuth2FATOTPDelete id).
Proof. intros s r Hr. unfold apiAuth2FATOTPDelete. by rewrite Hr. Qed.
(** removing one of two apps takes the recovery codes: the user who has two authenticator apps
    and no security key, and removes one of them, still has to show a second factor but has no
    recovery codes any more, and the page says only that none are left. The server counts the
    factors after the removal as if it had counted them before. *)
Theorem removed_app_takes_codes p sv f g id :
  fates sv = [] -> in_sync p sv -> enabled sv = true -> recent sv = true -> keys sv = [] ->
  totp sv = [f; g] \/ totp sv = [g; f] -> f_id g <> f_id f -> known_id (f_id f) -> id = f_id f ->
  exists sv' p', run respond sv (perform (DeleteTOTP true id) p p) = (sv', Ok (p', Ok tt)) /\
    totp sv' = [g] /\ enabled sv' = true /\ codes sv' = [] /\ recent sv' = false /\
    in_sync p' sv' /\ mfaError p' = "" /\ prop (mfa p') "recovery_remaining" = JNum 0.
Proof.
  intros Hf Hs He Hr Hk Ht Hne [Hid Hu] ->.
  assert (existsb (fun x => f_id x =s? f_id f) (totp sv) = true /\ List.filter (fun x => negb (f_id x =s? f_id f)) (totp sv) = [g]) as [Hin Hleft].
  { apply String.eqb_neq in Hne. destruct Ht as [-> | ->]; cbn; by rewrite String.eqb_refl, Hne. }
  set (sv' := (apiAuth2FATOTPDelete (f_id f) sv).1).
  assert (totp sv' = [g] /\ enabled sv' = true /\ codes sv' = [] /\ recent sv' = false /\ fates sv' = [] /\ (apiAuth2FATOTPDelete (f_id f) sv).2 = answer 200 (JObj [("ok", JBool true)])) as (H1 & H2 & H3 & H4 & H5 & H6).
  { unfold sv', apiAuth2FATOTPDelete, requireRecentMFA. rewrite He, Hr, Hu, Hin. cbn [negb orb]. unfold syncMFASettings. cbn [with_factors totp keys]. rewrite Hleft, Hk. by split_and!. }
  eexists sv', _. split.
  { cbn [SecondFactor.perform]. unfold handleDeleteTOTP, guarded. cbn [negb]. erewrite run_hbind by reflexivity. rewrite run_hfinally, run_hcatch, Hs.
    erewrite run_hbind by (apply run_await; eapply gate_passes; [intros s; by apply run_delete_totp | rewrite answered_in_full, H6 by done; reflexivity]).
    rewrite load_runs by done. reflexivity. }
  split_and!; [done..|]. change (JNum (Z.of_nat (length (codes sv'))) = JNum 0). by rewrite H3.
Qed.

(** a code with a space is refused: six digits with a space between them are sent as they were
    typed, so a library that takes codes of six characters only does not take them, whatever
    the apps show. *)
Theorem spaced_code_is_refused p sv c :
  (forall t code secret, valid_totp t code secret = true -> String.length code = 6) ->
  fates sv = [] -> in_sync p sv -> enabled sv = true -> recent sv = false -> asks_for_code sv -> prompted = Some c ->
  Danger.six_digits (trim c) = true -> String.length (trim c) <> 6 ->
  exists p', run respond sv (perform Regenerate p p) = (sv, Ok (p', Ok tt)) /\ mfaError p' = "invalid authenticator code" /\ recoveryCodes p' = recoveryCodes p.
Proof.
  intros Hv Hf Hs He Hr Ha Hp Hd Hl.
  assert (run respond sv (Danger.verify_code origin (Some c)) = (sv, Throw "invalid authenticator code")) as Hc.
  { unfold Danger.verify_code. assert ((trim c =s? "") = false) as ->. { apply String.eqb_neq. intros E. by rewrite E in Hd. }
    rewrite Hd, run_verify_totp, answered_in_full, verify_totp_of by done.
    assert (verifyTOTPCode valid_totp (trim c) sv = false) as ->; [|reflexivity]. unfold verifyTOTPCode. destruct (unconfigured sv); [done|].
    apply not_true_iff_false. intros (f & _ & E%Hv)%existsb_exists. by rewrite trim_idemp in E. }
  assert (run respond sv (gate (regenerateRecoveryCodes origin) (Some (mfa p))) = (sv, Throw "invalid authenticator code")) as Hg.
  { unfold runWithFreshTwoFactor, Danger.runWithFreshTwoFactor. rewrite run_tried, run_regenerate, stale_refused by (done || apply guards_regenerate).
    change (includes STALE Danger.stale) with true. cbn [negb]. by rewrite run_bind, Hs, (asked c), Hc by done. }
  exists (set_busy false (set_mfaError "invalid authenticator code" (set_mfaError "" (set_busy true p)))). split; [|done].
  cbn [SecondFactor.perform]. unfold handleRegenerateRecovery, guarded. erewrite run_hbind by reflexivity. rewrite run_hfinally, run_hcatch.
  by erewrite run_hbind_throw by (apply run_await_res, Hg).
Qed.
End Facts.

(** ** The password *)

Section PasswordFacts.
Context `{Keygen.WebCrypto}.
Variable origin : string.
Variable webauthn : option authenticator.
Variable confirmed : bool.
Variable prompted : option string.
Variable JSON_parse : string -> option jsval.
Variable digest : string -> string.
Variable scripts : Accounts.loaded.
Variable rnd : Accounts.password_randoms.
Local Abbreviation change_request := (change_request origin JSON_parse digest scripts rnd).

(** the window of the password closes when the password is changed, and not before: sending
    the form ends; the window closes only when the two entries agree and are long enough and
    the last requests are a change that the server has accepted; otherwise it says why. *)
Theorem password_window_closes f tr out :
  runs (handleSubmit origin webauthn confirmed prompted JSON_parse digest scripts rnd f f) tr out -> closed f = false -> saving f = false ->
  exists f', out = Ok (f', Ok tt) /\ saving f' = false /\
    (closed f' = true -> newPassword f = confirmPassword f /\ 10 <= String.length (newPassword f) /\
       exists t1 t2 j, tr = t1 ++ t2 /\ runs (change_request f) t2 (Ok j)) /\
    (closed f' = false -> formError f' <> "").
Proof.
  intros Hr Hc Hs. unfold handleSubmit in Hr. destruct (String.eqb_spec (newPassword f) (confirmPassword f)) as [He|He]; cbn [negb] in Hr.
  2:{ inversion Hr; subst. eexists. split; [done|]. split_and!; [done | cbn; congruence | done]. }
  destruct (Nat.ltb_spec (String.length (newPassword f)) 10) as [Hl|Hl]; [inversion Hr; subst; eexists; split; [done|]; split_and!; [done | cbn; congruence | done]|].
  cbn [hbind modify bind] in Hr. set (f0 := set_formError "" (set_saving true f)) in Hr.
  apply (runs_guarded _ (fun m => set_formError (str_or m "Failed to change password"))) in Hr as (f1 & r & H1 & ->).
  2:{ intros m H2. apply runs_hbind in H2 as [(t1 & t2 & s1 & a & -> & _ & H3)|[(s1 & m' & [=] & _)|(m' & _ & (r & [=] & _)%runs_await)] ]. inversion H3. }
  eexists. split; [done|]. split; [done|].
  apply runs_hbind in H1 as [(t1 & t2 & s1 & j & -> & (r' & [= <- <-] & H2)%runs_await & H3)|[(s1 & m & [= -> ->] & (r' & [= -> <-] & _)%runs_await)|(m & [=] & _)] ].
  - inversion H3; subst. cbn. split; [|done]. intros _. split_and!; [done..|]. rewrite app_nil_r.
    apply Danger.gate_runs in H2 as [ [H2 _]|(u1 & u2 & m & -> & _ & _ & [(e & _ & ?)|(v1 & v2 & x & -> & _ & H2)])]; [by exists [], t1, j | done|].
    exists (u1 ++ v1), v2, j. by rewrite app_assoc.
  - cbn. split; [congruence|]. intros _. by apply str_or_nonempty.
Qed.
End PasswordFacts.

(** ** Applied *)

Section Applied.
#[local] Instance sample_ids : Uuid := {| uuid_parse s := if s =s? "" then None else Some s |}.

Definition sample_origin : string := "https://elvish.example".
Definition sample_valid (_ : Z) (code _ : string) : bool := code =s? "123456".
Definition sample_hash (s : string) : string := "h" +:+ filter_chars (fun c => negb (is_ws c)) s.
Definition sample_begin (_ : list jsval) (nonce : string) : jsval * jsval := (JObj [("challenge", JStr nonce)], JStr nonce).
Definition sample_finish (_ : list jsval) (session credential : jsval) : option (string * jsval) := match credential with JStr c => Some (c, session) | _ => None end.
Definition sample_login (l : list jsval) (nonce : string) : option (jsval * jsval) := match l with [] => None | _ => Some (sample_begin l nonce) end.
Local Abbreviation sample_respond := (respond sample_valid sample_hash sample_begin sample_finish sample_login sample_finish sample_origin).

Lemma sample_hash_plain : plain_hash sample_hash.
Proof.
  intros s. split; [|done]. apply FilterEditor.trim_no_ws. unfold sample_hash. rewrite all_chars_app. by rewrite filter_chars_all.
Qed.

(** Signed in a while ago, with one app or with two. *)
Definition phone : factor := Factor "a1" "Phone" "s1".
Definition tablet : factor := Factor "a2" "Tablet" "s2".
Definition sample_server (apps : list factor) (at_ : Z) (l : list fate) : server :=
  Server apps [] true ["hAAAABBBBCCCC"; "hDDDDEEEEFFFF"] [] [] "t0" at_ 5000000 None ["d1"; "d2"; "d3"]
    ["012345678"; "012345678"; "112345678"; "212345678"; "312345678"; "412345678"; "512345678"; "612345678"; "712345678"; "812345678"] l.
Definition sample_page (sv : server) : page := Page (mfaFactorSummary sv) false "" false JNull "" false JNull.
Definition sample_codes : list string := match generate 8 [] (bytes (sample_server [] 0 [])) with Some (cs, _) => cs | None => [] end.

Lemma page_follows_factors_witness : exists sv' p',
  run sample_respond (sample_server [phone] 4990 [Answered; Refused])
    (perform sample_origin None true None (DeleteTOTP true "a1") (sample_page (sample_server [phone] 4990 [])) (sample_page (sample_server [phone] 4990 []))) = (sv', Ok (p', Ok tt)) /\
  totp sv' = [] /\ busyAction p' = false /\ mfaError p' = "internal error".
Proof.
  destruct (page_follows_factors sample_valid sample_hash sample_begin sample_finish sample_login sample_finish sample_origin None true None
    (DeleteTOTP true "a1") (sample_page (sample_server [phone] 4990 [])) (sample_server [phone] 4990 [Answered; Refused])) as (sv' & p' & Hr & _ & Hb & _);
    [intros [?|[?|[]%elem_of_nil]%elem_of_cons]%elem_of_cons; discriminate | reflexivity | right; split; reflexivity |].
  exists sv', p'. split; [exact Hr|]. pose proof Hr as Hc. vm_compute in Hc. injection Hc as <- <-. split; [reflexivity|]. split; [exact Hb | reflexivity].
Defined.

(** The user types an old recovery code when asked, and gets eight new ones. *)
Lemma regenerated_codes_work_witness : exists sv' p',
  run sample_respond (sample_server [phone] 0 [])
    (perform sample_origin None true (Some " aaaa-bbbb-cccc ") Regenerate (sample_page (sample_server [phone] 0 [])) (sample_page (sample_server [phone] 0 []))) = (sv', Ok (p', Ok tt)) /\
  shown_codes p' = map JStr sample_codes /\ length sample_codes = 8 /\ codes sv' = map (HashRecoveryCode sample_hash) sample_codes.
Proof.
  destruct (regenerated_codes_work sample_valid sample_hash sample_begin sample_finish sample_login sample_finish sample_origin None true (Some " aaaa-bbbb-cccc ")
    (sample_page (sample_server [phone] 0 [])) (sample_server [phone] 0 []) " aaaa-bbbb-cccc " sample_codes ["812345678"])
    as (sv' & p' & Hr & Hs & _ & _ & Hl & _ & Hc & _);
    [exact sample_hash_plain | reflexivity | reflexivity | reflexivity | discriminate | repeat constructor | vm_compute; reflexivity
    | right; split; [left; reflexivity | split; [reflexivity | vm_compute; reflexivity] ] |].
  exists sv', p'. split; [exact Hr|]. split; [exact Hs|]. split; [exact Hl | exact Hc].
Defined.

Lemma added_factor_is_refused_witness : exists p',
  run sample_respond (sample_server [phone] 0 [])
    (perform sample_origin None true (Some "123456") Begin (sample_page (sample_server [phone] 0 [])) (sample_page (sample_server [phone] 0 []))) = (sample_server [phone] 0 [], Ok (p', Ok tt)) /\
  mfaError p' = "recent 2fa verification required".
Proof.
  destruct (added_factor_is_refused sample_valid sample_hash sample_begin sample_finish sample_login sample_finish sample_origin None true (Some "123456")
    Begin (sample_page (sample_server [phone] 0 [])) (sample_server [phone] 0 [])) as (p' & Hr & He & _); [reflexivity.. | left; reflexivity |].
  exists p'. split; [exact Hr | exact He].
Defined.

Lemma removed_app_takes_codes_witness : exists sv' p',
  run sample_respond (sample_server [tablet; phone] 4990 [])
    (perform sample_origin None true None (DeleteTOTP true "a1") (sample_page (sample_server [tablet; phone] 4990 [])) (sample_page (sample_server [tablet; phone] 4990 []))) = (sv', Ok (p', Ok tt)) /\
  totp sv' = [tablet] /\ codes sv' = [].
Proof.
  destruct (removed_app_takes_codes sample_valid sample_hash sample_begin sample_finish sample_login sample_finish sample_origin None true None
    (sample_page (sample_server [tablet; phone] 4990 [])) (sample_server [tablet; phone] 4990 []) phone tablet "a1") as (sv' & p' & Hr & Ht & _ & Hc & _);
    [reflexivity.. | right; reflexivity | discriminate | split; reflexivity | reflexivity |].
  exists sv', p'. split; [exact Hr|]. split; [exact Ht | exact Hc].
Defined.

Lemma spaced_code_is_refused_witness : exists p',
  run sample_respond (sample_server [phone] 0 [])
    (perform sample_origin None true (Some "123 456") Regenerate (sample_page (sample_server [phone] 0 [])) (sample_page (sample_server [phone] 0 []))) = (sample_server [phone] 0 [], Ok (p', Ok tt)) /\
  mfaError p' = "invalid authenticator code".
Proof.
  destruct (spaced_code_is_refused sample_valid sample_hash sample_begin sample_finish sample_login sample_finish sample_origin None true (Some "123 456")
    (sample_page (sample_server [phone] 0 [])) (sample_server [phone] 0 []) "123 456") as (p' & Hr & He & _);
    [intros t code secret Hv; unfold sample_valid in Hv; apply String.eqb_eq in Hv; rewrite Hv; reflexivity | reflexivity.. | left; reflexivity | reflexivity | reflexivity | discriminate |].
  exists p'. split; [exact Hr | exact He].
Defined.

Definition sample_form : form := Form "pw" "new-password" "new-password" false "" false.
Lemma password_window_closes_witness : exists tr f,
  runs (handleSubmit Accounts.toy_origin None true None toy_parse Srp.toy_digest (Accounts.Loaded true true true) Accounts.toy_randoms sample_form sample_form) tr (Ok (f, Ok tt)) /\ saving f = false /\ closed f = true.
Proof.
  destruct (run_runs Accounts.toy_server (handleSubmit Accounts.toy_origin None true None toy_parse Srp.toy_digest (Accounts.Loaded true true true) Accounts.toy_randoms sample_form sample_form) tt)
    as [tr Hr].
  destruct (password_window_closes Accounts.toy_origin None true None toy_parse Srp.toy_digest (Accounts.Loaded true true true) Accounts.toy_randoms sample_form tr _ Hr eq_refl eq_refl)
    as (f & Hf & Hs & _).
  assert (closed f = true) as Hc.
  { pose proof (f_equal (fun r => match r with Ok p => closed p.1 | Throw _ => false end) Hf) as E. vm_compute in E. exact (eq_sym E). }
  exists tr, f. rewrite <- Hf. split; [exact Hr|]. split; [exact Hs | exact Hc].
Defined.
End Applied.
